(* ===== verification/_CoqProject ===== *)
-Q . S2P
Prelude.v
Limbs.v
Bytes.v
Scalar.v
ScalarFacts.v
Field.v
FieldFacts.v
FieldBytes.v
Prime.v
Fp.v
Tables.v
FieldPow.v
CurveCert.v
Curve.v
Group.v
GroupFacts.v
Encoding.v
TablesFacts.v
ScalarMult.v
ScalarMultFacts.v
SlideFacts.v
FromFe.v
Words.v
Memory.v
Keccak.v
KeccakFacts.v
TreeHash.v
TreeHashFacts.v
ChaCha.v
Random.v
Blake.v
BlakeSpec.v
BlakeFacts.v
Skein.v
SkeinFacts.v
Gf256.v
Groestl.v
GroestlFacts.v
JH.v
JHFacts.v
Aes.v
Aesb.v
Oaes.v
OaesFacts.v
OaesContext.v
IntUtil.v
SlowHash.v
SlowHashAes.v
SlowHashFacts.v
CryptoNight.v
Czmq.v
WapProto.v
WapGrammar.v
WapSend.v
WapRecv.v
WapAccess.v
WapCodec.v
WapServer.v
WapServerFacts.v
WapService.v
WapPipe.v
WapClient.v
WapClientApi.v
WapClientFacts.v
WapClientCalls.v
WapClientService.v
WapApiFacts.v
WapSession.v
