(* ===== verification/Prelude.v ===== *)
(** * The C code of bitmonero: cryptography and the wallet protocol

    This library models the C code of src/src/crypto that the node, the wallet
    and the daemon build on, and proves it correct against independent
    definitions: the group of an elliptic curve, arithmetic modulo a prime,
    the Keccak, ChaCha, BLAKE, Skein, Groestl, JH, AES and CryptoNight
    functions of their specifications, a recursive Merkle tree.  It also models
    the C code of src/src/ipc, the protocol by which a wallet talks to the
    daemon: its messages on the wire, the server and the client, and a call
    from the wallet to the daemon and back.

    ** The program

    bitmonero is a cryptocurrency node.  Its C++ layers (block chain, wallet,
    RPC) call a small set of C primitives:

    - crypto-ops.c, crypto-ops.h, crypto-ops-data.c: field elements modulo
      [2^255 - 19], scalars modulo the group order, points of the curve
      [-x^2 + y^2 = 1 + d x^2 y^2], scalar multiplications, hashing to the
      curve.  Called by the signatures, ring signatures and key derivations
      of crypto.cpp.
    - keccak.c, hash.c: the Keccak sponge, [cn_fast_hash]; used by
      tree-hash.c (Merkle root of a block), by random.c (its permutation
      drives the random generator) and by everything that hashes.
    - chacha8.c: the stream cipher of the wallet file.
    - blake256.c, groestl.c, jh.c, skein.c and their hash-extra-*.c: the four
      final hashes of the proof of work.
    - aesb.c, oaes_lib.c: AES by tables for the proof of work, and an AES
      library with key import and export, two modes and a message format, of
      which the proof of work uses the key expansion.
    - slow-hash.c: the proof-of-work hash, in a portable version and one for
      x86 processors; it calls hash.c, aesb.c, oaes_lib.c, the 128-bit product
      of int-util.h and one of the four final hashes.

    The wallet and the daemon are joined by the wallet access protocol, on the
    sockets of CZMQ:

    - wap_proto.c: the messages, one object whose fields are set and read by
      accessors, sent to a socket and received from one.
    - wap_server.c, wap_server_engine.inc: the server, a state machine per
      client on a ROUTER socket; its actions call the daemon, which reads the
      request from the message object and leaves its reply there.
    - wap_client.c, wap_client_engine.inc: the client, an actor with a state
      machine on a DEALER socket, and the class by which the wallet's thread
      uses it: a call is a command on a pipe to the actor and a reply to wait
      for on the same pipe.  The client sends heartbeats while it is idle.

    ** Conventions

    A C function is a Rocq function.  Code that can fail returns an [outcome]
    (this file): [Ret], or a [Fault] for undefined behaviour (signed overflow,
    an access outside an object or through a null pointer), a failed [assert],
    or a loop whose fuel is spent.  The predicate [yields m Q] is total correctness: [m] returns, and
    its value satisfies [Q]; every functional theorem has this form or is an
    equation with [Ret], so it also says that no fault happens and that the
    loops end.  Signed arithmetic is checked ([I32], [I64]); unsigned
    arithmetic and conversions wrap ([uwrap], [swrap], [addw]); [<<] on signed
    types has the two's-complement meaning that GCC and Clang document
    ([shl]).  A byte is a [Z] in [0, 256); a pointer into a buffer is the rest
    of the buffer; an array is a list, read by [index] (which faults out of
    range) or, where the index is a constant of the code or a loop bound
    inside the array, by the total lookup.  Words are read from byte buffers
    in little-endian order, the byte order of the targets.

    The functions on field elements and points read all their inputs before
    they write their output, so that calls with the output aliased to an
    input behave as the pure functions of the model.  Where overlap of
    buffers matters ([chacha8] in place, the levels of [tree_hash] that
    overwrite the array they read, the buffer of [blake256_update]) the model
    works on the shared memory.

    Code that is not here is an interface, a class of operations with a class
    of laws that say what its documentation promises: CZMQ's containers and
    sockets ([Czmq], [CzmqLaws], [CzmqMemory]: allocations succeed), its
    routing ids and polling ([CzmqServer], [CzmqPoll]), pipes ([CzmqPipe]) and
    timers ([CzmqLoop]), what the daemon's handlers make of a request they have
    read and of the core ([Daemon]), the AES instructions ([AESNI]).  Each has an instance by lists or by computation,
    which shows that the laws can hold and on which the witnesses run.

    Fuel: [absorb] gets one unit per input byte and one more, [halvings] and
    [levels] the 64 bits of [size_t], [chacha8_loop], [random_loop],
    [blake_blocks], [block_loop], [Transform_loop] and [jh_blocks] the number
    of blocks; the theorems show that none of them is spent.  In the protocol,
    [block_ids_loop] gets one unit per octet of the frame and one more,
    [walk] the size of the container; one unit is enough for an event of the
    server's state machine and two for one of the client's (an exception, or
    the event an error raises, takes a second turn), as the invariants of both
    show.  The callbacks that work on as many messages as there are
    ([s_server_handle_protocol], [s_client_handle_protocol],
    [s_client_handle_msgpipe]) take the number of turns as an argument, for how
    long messages keep coming is up to the network; the theorems are about one
    turn, and about what any number of them leaves.

    ** Files

    - Prelude.v: outcomes, machine integers, bounds automation.
    - Limbs.v, Bytes.v, Words.v, Memory.v: multi-limb integers; byte strings;
      machine words, rotations (int-util.h) and word views of buffers; regions
      of a memory.
    - Field.v (the [fe_*] functions), FieldFacts.v (multiplication and
      squaring), FieldBytes.v (linear operations, conditional move,
      serialization), FieldPow.v (inversion and square root candidate).
    - Scalar.v (the [sc_*] functions), ScalarFacts.v.
    - Prime.v, Fp.v: primality of [2^255 - 19], the field of residues, and the
      interface through which the clients of the field use it.
    - Tables.v (crypto-ops-data.c), TablesFacts.v (every table entry is the
      multiple of the base point that it should be).
    - CurveCert.v, Curve.v: the group, with its law proved associative from
      certificates.
    - Group.v (point operations, encoding), GroupFacts.v, Encoding.v.
    - ScalarMult.v (scalar multiplications, hashing to the curve),
      ScalarMultFacts.v, SlideFacts.v, FromFe.v.
    - Keccak.v (keccak.c, hash.c), KeccakFacts.v (permutation, sponge,
      [cn_fast_hash]).
    - TreeHash.v (tree-hash.c), TreeHashFacts.v (Merkle root, binding).
    - ChaCha.v (chacha8.c with its theorems), Random.v (random.c with its
      theorems).
    - Blake.v (blake256.c, hash-extra-blake.c), BlakeSpec.v (BLAKE-256 and
      BLAKE-224 as specified, written apart from the model), BlakeFacts.v
      (one-call hash, streaming, HMAC).
    - Skein.v (skein.c, skein_port.h, hash-extra-skein.c), SkeinFacts.v
      (Threefish, UBI, streaming, the NIST interface).
    - Gf256.v (the field of 256 elements and the S-box of AES), Groestl.v
      (groestl.c, groestl_tables.h, hash-extra-groestl.c), GroestlFacts.v.
    - JH.v (jh.c, hash-extra-jh.c), JHFacts.v (the bit-sliced rounds against
      the definition on nibbles, streaming and padding).
    - Aes.v (AES as FIPS 197 defines it, and its inverse), Aesb.v (aesb.c with
      its theorems), Oaes.v (oaes_lib.c), OaesFacts.v (layers, key expansion,
      blocks, modes and message format), OaesContext.v (the contexts as a
      state machine, the theorems).
    - IntUtil.v (the wide arithmetic of int-util.h with its theorem).
    - SlowHash.v (slow-hash.c: Modules [Portable] and [X86]), SlowHashAes.v
      (the AES instructions, as the class [AESNI] with its laws, and the key
      expansion built from them), SlowHashFacts.v (CryptoNight on blocks, the
      class [FinalHash] through which the final hashes are used, and the
      versions), CryptoNight.v (the theorems).
    - Czmq.v (the interface to CZMQ and its implementation by queues),
      WapProto.v (receiving and sending in wap_proto.c), WapAccess.v (its
      accessors), WapGrammar.v (the grammar of the messages, as data),
      WapSend.v and WapRecv.v (sending and receiving against the grammar),
      WapCodec.v (the theorems of the codec).
    - WapServer.v (what the handlers of daemon_ipc_handlers.cpp read of a
      request, [daemon_reads]; wap_server.c and its engine: [s_server_t],
      [s_client_t], the actions, [transition], the callbacks), WapServerFacts.v (the
      invariant, requests, errors), WapService.v (the step relation
      [server_step], reachable states, the theorems of the server).
    - WapPipe.v (pipes and timers of CZMQ), WapClient.v (wap_client.c and the
      actor of its engine), WapClientApi.v (the class interface of the engine),
      WapClientFacts.v (the invariant and the turns of the state machine),
      WapClientCalls.v (commands, requests, replies and answers, by call),
      WapClientService.v (the step relation [client_step], reachable states,
      the theorems of the client), WapApiFacts.v (what a call returns),
      WapSession.v (client and server together).

    ** What the theorems show

    - Curve arithmetic: the scalar multiplications return the multiples in the
      group for all scalars within the documented bounds, the additions and
      doublings implement the group law on all points, decoding accepts
      exactly the canonical encodings and inverts encoding, hashing to the
      curve is the Elligator map and none of its assertions can fail.
    - Field and scalars: every operation returns the right residue, canonical
      where bytes are written, and no 32-bit or 64-bit operation overflows.
    - Hashes: the in-place, table-driven and buffered code equals the
      definition of the hash for all inputs of stated length; beyond these
      lengths what the code does is stated too (truncation of the length in
      [cn_fast_hash] and [groestl], reordering in [blake256_update]).
    - Proof of work: the portable code and the x86 code, with AES by tables or
      by instructions, compute CryptoNight, defined on a scratchpad of blocks;
      their results do not depend on old memory contents.  The sizes are a
      parameter of the definitions; the theorems are about those of the code.
    - AES: both implementations are FIPS 197; encrypted messages and exported
      keys come back; the contexts of the library keep their invariant under
      every sequence of calls and failing allocations; what malformed input
      and failing allocations do is stated too.
    - Merkle root: the iterative code equals the recursive tree, and different
      lists of one length have different roots unless two messages hashed at the
      same place of the two trees collide.
    - Cipher: the key stream is the one of the block counter, and decryption
      inverts encryption.
    - Random generator: its state machine, its output, its seed.
    - Messages of the wallet protocol: what is sent follows the grammar within
      the frame that was allocated, what is accepted follows it, a message
      comes back from the wire as it was in memory (but for the status of an
      ERROR, which is cut to 2 octets, and for NULL pointers, which arrive as
      empty values), and no input makes the reader fault or loop.
    - Server: in every reachable state the next callback runs to its end, unless
      a connected client's request makes the daemon's handler read past a hash;
      every other request of a connected client reaches the daemon and gets its
      reply; what is out of order gets an error, what is malformed stops the
      server, and no client is ever forgotten.
    - Client: in every reachable state its one timer runs when it should; once
      it was told to CONNECT the next callback runs to its end, before that any
      other command fails an assertion; its heartbeats, and that a connection
      that was given up stays so; what an error and a stop do to the call that
      waits, which is never answered; what a call returns.
    - Session: the handshake, and the calls from the command on the caller's
      pipe through both sockets and the daemon to the answer on the pipe; four
      calls deviate (RANDOM OUTS, GET HEIGHT, GET, STOP), for which the lemma
      [session_call] says what is sent and answered.

    ** Not modelled

    - In oaes_lib.c the variants for OAES_HAVE_ISAAC and OAES_DEBUG, which the
      build does not define, and the clock that seeds [rand]; in slow-hash.c
      the calls of the operating system behind the scratchpad, whose results
      are inputs.
    - In src/src/ipc: [wap_proto_print] and the self-tests; logging; in the
      server the configuration tree and the commands of the daemon's pipe, and
      the broadcast and monitor functions that nothing calls; in the client the
      destructors, which release memory; the reactor, whose rules for calling
      the callbacks are the step relations.  What CZMQ does with a message whose
      types are not those of the picture is not said (the answers to GET HEIGHT
      and STOP are of this kind).
    - crypto.cpp (keys, signatures, ring signatures), and of the C++ handlers of
      the daemon all but their reads of the message.
    - The C++ layers, the epee library and the vendored libraries under
      src/external. *)

From Stdlib Require Export ZArith Lia List Bool.
From stdpp Require Export base list numbers.

#[global] Open Scope Z_scope.

(** ** Outcomes of C code

    A C function that can fail is modelled in a small error monad.  A
    [Fault] is either undefined behaviour of the C abstract machine
    (signed overflow, an access outside an object), a failed [assert], or a
    loop that has not ended when its fuel is spent. *)

Inductive fault :=
| Overflow        (* signed integer overflow *)
| OutOfBounds     (* access outside an array *)
| AssertFailed    (* failed assert() *)
| NullPointer     (* access through a null pointer *)
| Diverges        (* a loop that does not end within the steps granted to it *).

Inductive outcome (A : Type) :=
| Ret (a : A)
| Fault (e : fault).
Arguments Ret {A} a.
Arguments Fault {A} e.

#[global] Instance fault_eq_dec : EqDecision fault.
Proof. solve_decision. Defined.

Definition bind {A B} (m : outcome A) (k : A -> outcome B) : outcome B :=
  match m with
  | Ret a => k a
  | Fault e => Fault e
  end.

Declare Scope c_scope.
Delimit Scope c_scope with c.
#[global] Open Scope c_scope.

Notation "'let*' x := m 'in' k" := (bind m (fun x => k))
  (at level 10, x name, m at level 100, k at level 200,
   format "'[v' 'let*'  x  :=  m  'in' '/' k ']'") : c_scope.
Notation "'let*' ' p := m 'in' k" := (bind m (fun x => match x with p => k end))
  (at level 10, p strict pattern, m at level 100, k at level 200) : c_scope.

Lemma bind_assoc {A B C} (m : outcome A) (f : A -> outcome B) (g : B -> outcome C) :
  bind (bind m f) g = bind m (fun x => bind (f x) g).
Proof. by destruct m. Qed.

(** [foldM f l s] runs [f] over [l], threading the state. *)
Fixpoint foldM {A S} (f : A -> S -> outcome S) (l : list A) (s : S) : outcome S :=
  match l with
  | [] => Ret s
  | x :: l' => let* s' := f x s in foldM f l' s'
  end.

(** [mapM f l] runs [f] on each element of [l], left to right. *)
Fixpoint mapM {A B} (f : A -> outcome B) (l : list A) : outcome (list B) :=
  match l with
  | [] => Ret []
  | x :: l' => let* y := f x in let* ys := mapM f l' in Ret (y :: ys)
  end.

(** [l[i]], faulting outside the array. *)
Definition index {A} (l : list A) (i : Z) : outcome A :=
  if i <? 0 then Fault OutOfBounds
  else match l !! Z.to_nat i with Some x => Ret x | None => Fault OutOfBounds end.

(** [assert(b);] *)
Definition assert (b : bool) : outcome unit := if b then Ret tt else Fault AssertFailed.

(** [yields m Q]: [m] returns (no fault) with a value satisfying [Q].  This
    is total correctness: a faulting [m] satisfies no [yields]. *)
Definition yields {A} (m : outcome A) (Q : A -> Prop) : Prop :=
  exists a, m = Ret a /\ Q a.

Section Yields.
Context {A B : Type}.
Implicit Types (m : outcome A) (Q : A -> Prop).

Lemma yields_ret (a : A) Q : Q a -> yields (Ret a) Q.
Proof. intros H. exists a. auto. Qed.

Lemma yields_bind m (k : A -> outcome B) (P : A -> Prop) (Q : B -> Prop) :
  yields m P -> (forall a, P a -> yields (k a) Q) -> yields (bind m k) Q.
Proof. intros (a & -> & Ha) H. exact (H a Ha). Qed.

Lemma yields_mono m (P Q : A -> Prop) :
  yields m P -> (forall a, P a -> Q a) -> yields m Q.
Proof. intros (a & E & Ha) H. exists a. auto. Qed.

Lemma yields_and m (P Q : A -> Prop) :
  yields m P -> yields m Q -> yields m (fun a => P a /\ Q a).
Proof. intros (a & E & Ha) (b & E' & Hb). exists a. split; congruence || (split; congruence). Qed.

Lemma yields_eq m (a : A) Q : m = Ret a -> Q a -> yields m Q.
Proof. intros. exists a. auto. Qed.

Lemma yields_inv m (a : A) Q : yields m Q -> m = Ret a -> Q a.
Proof. intros (b & E & Hb) E'. congruence. Qed.
End Yields.

(** Invariant rule for [foldM], the invariant indexed by the elements still
    to run. *)
Lemma yields_foldM {A S} (f : A -> S -> outcome S) (I : list A -> S -> Prop) :
  (forall x l s, I (x :: l) s -> yields (f x s) (I l)) ->
  forall l s, I l s -> yields (foldM f l s) (I []).
Proof.
  intros Hstep l. induction l as [|x l IH]; intros s Hs; simpl.
  - apply yields_ret. exact Hs.
  - eapply yields_bind; [apply Hstep; exact Hs|]. exact IH.
Qed.

Lemma mapM_map {A B} (f : A -> outcome B) (g : A -> B) l :
  (forall x, x ∈ l -> f x = Ret (g x)) -> mapM f l = Ret (map g l).
Proof.
  induction l as [|x l IH]; intros H; simpl; [done|].
  rewrite H by constructor. simpl. rewrite IH; [done|]. intros y Hy. apply H. by constructor.
Qed.

Lemma foldM_app {A S} (f : A -> S -> outcome S) l1 l2 s :
  foldM f (l1 ++ l2) s = bind (foldM f l1 s) (foldM f l2).
Proof.
  revert s. induction l1 as [|x l1 IH]; intros s; simpl; [done|].
  destruct (f x s); simpl; auto.
Qed.

Lemma index_lookup {A} (l : list A) i x : 0 <= i -> l !! Z.to_nat i = Some x -> index l i = Ret x.
Proof. intros Hi E. unfold index. destruct (Z.ltb_spec i 0); [lia|]. rewrite E. done. Qed.

(** ** Machine integers

    An [n]-bit signed operation is checked: a result outside
    [-2^(n-1), 2^(n-1)) is undefined behaviour.  Unsigned arithmetic and
    conversions wrap. *)

Definition in_signed (n x : Z) : bool := (- 2 ^ (n - 1) <=? x) && (x <? 2 ^ (n - 1)).

Definition I (n x : Z) : outcome Z := if in_signed n x then Ret x else Fault Overflow.

Abbreviation I32 := (I 32).
Abbreviation I64 := (I 64).

Definition uwrap (n x : Z) : Z := x mod 2 ^ n.
Definition swrap (n x : Z) : Z := (x + 2 ^ (n - 1)) mod 2 ^ n - 2 ^ (n - 1).

(** [x << k] on an [n]-bit signed type.  ISO C leaves the shift of a negative
    value, or out of the range, undefined; GCC and Clang document the
    two's-complement result, which the code relies on. *)
Definition shl (n x k : Z) : Z := swrap n (Z.shiftl x k).

Lemma in_signed_spec n x : in_signed n x = true <-> - 2 ^ (n - 1) <= x < 2 ^ (n - 1).
Proof. unfold in_signed. rewrite andb_true_iff, Z.leb_le, Z.ltb_lt. tauto. Qed.

Lemma I_ok n x : - 2 ^ (n - 1) <= x < 2 ^ (n - 1) -> I n x = Ret x.
Proof. intros H. unfold I. apply in_signed_spec in H. rewrite H. done. Qed.

Lemma I_fault n x : x < - 2 ^ (n - 1) \/ 2 ^ (n - 1) <= x -> I n x = Fault Overflow.
Proof.
  intros H. unfold I. destruct (in_signed n x) eqn:E; [|done].
  apply in_signed_spec in E. lia.
Qed.

Lemma swrap_id n x : 0 < n -> - 2 ^ (n - 1) <= x < 2 ^ (n - 1) -> swrap n x = x.
Proof.
  intros Hn H. unfold swrap.
  assert (2 ^ n = 2 * 2 ^ (n - 1)) as E by (rewrite <- Z.pow_succ_r by lia; f_equal; lia).
  rewrite Z.mod_small; lia.
Qed.

Lemma I_shl n x k :
  0 < n -> 0 <= k -> I n (x * 2 ^ k) = Ret (x * 2 ^ k) -> shl n x k = x * 2 ^ k.
Proof.
  intros Hn Hk. unfold I, shl. destruct (in_signed _ _) eqn:E; [intros _|done].
  apply in_signed_spec in E. rewrite Z.shiftl_mul_pow2 by lia. apply swrap_id; lia.
Qed.

Lemma uwrap_range n x : 0 <= n -> 0 <= uwrap n x < 2 ^ n.
Proof. intros. apply Z.mod_pos_bound. apply Z.pow_pos_nonneg; lia. Qed.

Lemma uwrap_small n x : 0 <= x < 2 ^ n -> uwrap n x = x.
Proof. apply Z.mod_small. Qed.

(** ** Absolute bounds, propagated through expressions

    [abd b x] is [|x| <= b].  The lemmas are syntax directed, and
    [abd_auto] computes the bound of an expression from the bounds of its
    variables. *)

Definition abd (b x : Z) : Prop := - b <= x <= b.

Lemma abd_add a b x y : abd a x -> abd b y -> abd (a + b) (x + y).
Proof. unfold abd. lia. Qed.
Lemma abd_sub a b x y : abd a x -> abd b y -> abd (a + b) (x - y).
Proof. unfold abd. lia. Qed.
Lemma abd_opp a x : abd a x -> abd a (- x).
Proof. unfold abd. lia. Qed.
Lemma abd_mul a b x y : abd a x -> abd b y -> abd (a * b) (x * y).
Proof. unfold abd. nia. Qed.
Lemma abd_cst_pos p : abd (Zpos p) (Zpos p).
Proof. unfold abd. lia. Qed.
Lemma abd_cst_neg p : abd (Zpos p) (Zneg p).
Proof. unfold abd. lia. Qed.
Lemma abd_0 : abd 0 0.
Proof. unfold abd. lia. Qed.
Lemma abd_pow2 k : abd (2 ^ k) (2 ^ k).
Proof. unfold abd. pose proof (Z.pow_nonneg 2 k). lia. Qed.
Lemma abd_weaken a b x : abd a x -> (a <=? b) = true -> abd b x.
Proof. unfold abd. intros. lia. Qed.
Lemma abd_shiftr a x n : 0 <= n -> abd a x -> abd (a / 2 ^ n + 1) (Z.shiftr x n).
Proof.
  intros Hn [H1 H2]. rewrite Z.shiftr_div_pow2 by lia.
  assert (0 < 2 ^ n) by (apply Z.pow_pos_nonneg; lia).
  pose proof (Z.div_le_mono x a (2 ^ n)). pose proof (Z.div_le_mono (- a) x (2 ^ n)).
  pose proof (Z.div_mod a (2 ^ n)). pose proof (Z.mod_pos_bound a (2 ^ n)).
  pose proof (Z.div_mod (- a) (2 ^ n)). pose proof (Z.mod_pos_bound (- a) (2 ^ n)).
  split; [|lia]. enough (- (a / 2 ^ n) - 1 <= - a / 2 ^ n) by lia. nia.
Qed.

Lemma I_abd n b x : abd b x -> (b <? 2 ^ (n - 1)) = true -> I n x = Ret x.
Proof. unfold abd. intros H Hb. apply Z.ltb_lt in Hb. apply I_ok. lia. Qed.

(** A checked operation whose operand is in range returns it.  The result is
    a new name, so that a long run of operations stays small. *)
Lemma yields_I {B} n b e (k : Z -> outcome B) (Q : B -> Prop) :
  abd b e -> (b <? 2 ^ (n - 1)) = true ->
  (forall x, x = e -> abd b x -> yields (k x) Q) -> yields (bind (I n e) k) Q.
Proof. intros H Hb Hk. rewrite (I_abd n b e H Hb). exact (Hk e eq_refl H). Qed.

Create HintDb abd discriminated.
#[export] Hint Resolve abd_0 abd_cst_pos abd_cst_neg abd_pow2 : abd.

Ltac abd_auto :=
  lazymatch goal with
  | |- abd _ (_ + _) => eapply abd_add; abd_auto
  | |- abd _ (_ - _) => eapply abd_sub; abd_auto
  | |- abd _ (_ * _) => eapply abd_mul; abd_auto
  | |- abd _ (- _) => eapply abd_opp; abd_auto
  | |- abd _ (Z.shiftr _ _) => eapply abd_shiftr; [lia | abd_auto]
  | |- abd _ _ => first [eassumption | solve [eauto with abd]]
  end.

(** Discharges one checked operation at the head of a [yields] goal whose
    operands have [abd] bounds in the context. *)
Ltac chk :=
  lazymatch goal with
  | |- yields (bind (bind _ _) _) _ => rewrite bind_assoc
  | |- yields (bind (Ret _) _) _ => cbn beta iota delta [bind]
  | |- yields (bind (I ?n ?e) _) _ =>
      let x := fresh "x" in let E := fresh "E" in let H := fresh "H" in
      refine (yields_I n _ e _ _ ltac:(abd_auto) ltac:(vm_compute; reflexivity) _);
      intros x E H; cbn beta
  end.

(** Evaluates the powers of two with closed exponents. *)
Ltac pow_consts :=
  repeat match goal with
  | |- context [2 ^ ?e] =>
      let v := eval vm_compute in (2 ^ e) in
      lazymatch v with Zpos _ => change (2 ^ e) with v end
  | H : context [2 ^ ?e] |- _ =>
      let v := eval vm_compute in (2 ^ e) in
      lazymatch v with Zpos _ => change (2 ^ e) with v in H end
  end.
