(* ===== verification/Limbs.v ===== *)
(** Multi-limb integers: the arithmetic shared by the field elements
    ([fe], ten limbs of alternately 26 and 25 bits) and the scalars
    (12 or 24 limbs of 21 bits) of src/src/crypto/crypto-ops.c.

    A number is a list of limbs and a weight per position.  The carry
    statements of the C code are modelled once, with every signed operation
    checked, and proved against interval bounds: from bounds of the limbs
    one computes the bounds after a run of carries, which shows that no
    operation overflows and that the number is unchanged. *)

From S2P Require Import Prelude.

(** ** Value of a list of limbs *)

Section Eval.
Context (wt : nat -> Z).

(** Limb [i] of the list has weight [wt (k + i)]. *)
Fixpoint eval (k : nat) (s : list Z) : Z :=
  match s with
  | [] => 0
  | x :: s' => wt k * x + eval (S k) s'
  end.

Lemma eval_app k s t : eval k (s ++ t) = eval k s + eval (k + length s) t.
Proof.
  revert k. induction s as [|x s IH]; intros k; simpl.
  - rewrite Nat.add_0_r. lia.
  - rewrite IH. replace (S k + length s)%nat with (k + S (length s))%nat by lia. lia.
Qed.

Lemma eval_insert k s i v :
  (i < length s)%nat -> eval k (<[i:=v]> s) = eval k s + wt (k + i) * (v - s !!! i).
Proof.
  revert k i. induction s as [|x s IH]; intros k i Hi; simpl in Hi; [lia|].
  destruct i as [|i]; simpl.
  - rewrite Nat.add_0_r. lia.
  - rewrite IH by lia. rewrite (Nat.add_succ_r k i). simpl. lia.
Qed.

Lemma eval_0 k n : eval k (replicate n 0) = 0.
Proof. revert k. induction n; intros; simpl; [done|]. rewrite IHn. lia. Qed.
End Eval.

(** ** Carry statements

    [carry_round n w i j] models
      [carry_i = (s_i + (1 << (w-1))) >> w; s_j += carry_i; s_i -= carry_i << w;]
    on [n]-bit signed integers, [carry_floor n w i j] the same without the
    rounding term, [carry_wrap n w i j m] the statement that adds
    [carry_i * m] to the limb it wraps around to. *)

Definition carry_round (n w : Z) (i j : nat) (s : list Z) : outcome (list Z) :=
  let* t := I n (s !!! i + 2 ^ (w - 1)) in
  let c := Z.shiftr t w in
  let* sj := I n (s !!! j + c) in
  let m := shl n c w in
  let* si := I n (s !!! i - m) in
  Ret (<[i := si]> (<[j := sj]> s)).

Definition carry_floor (n w : Z) (i j : nat) (s : list Z) : outcome (list Z) :=
  let c := Z.shiftr (s !!! i) w in
  let* sj := I n (s !!! j + c) in
  let m := shl n c w in
  let* si := I n (s !!! i - m) in
  Ret (<[i := si]> (<[j := sj]> s)).

Definition carry_wrap (n w : Z) (i j : nat) (m : Z) (s : list Z) : outcome (list Z) :=
  let* t := I n (s !!! i + 2 ^ (w - 1)) in
  let c := Z.shiftr t w in
  let* cm := I n (c * m) in
  let* sj := I n (s !!! j + cm) in
  let cw := shl n c w in
  let* si := I n (s !!! i - cw) in
  Ret (<[i := si]> (<[j := sj]> s)).

(** What a carry does to the limbs: [c] units move from [i] to [j]. *)
Definition carried (w m : Z) (i j : nat) (s s' : list Z) : Prop :=
  exists c, s' = <[i := s !!! i - 2 ^ w * c]> (<[j := s !!! j + m * c]> s).

(** ** Interval bounds *)

Definition itv : Type := Z * Z.

Definition inside (b : itv) (x : Z) : Prop := b.1 <= x <= b.2.

Definition within (B : list itv) (s : list Z) : Prop := Forall2 inside B s.

#[global] Instance inside_dec b x : Decision (inside b x).
Proof. unfold inside. apply _. Defined.

#[global] Instance within_dec B s : Decision (within B s).
Proof. unfold within. apply _. Defined.

Definition fits (n : Z) (b : itv) : bool := in_signed n b.1 && in_signed n b.2.

Definition subsumes (B B' : list itv) : bool :=
  (length B =? length B')%nat &&
  forallb (fun '(b, b') => (b'.1 <=? b.1) && (b.2 <=? b'.2)) (zip B B').

Lemma within_length B s : within B s -> length s = length B.
Proof. intros H. symmetry. eapply Forall2_length. exact H. Qed.

Lemma within_lookup B s i : within B s -> (i < length s)%nat -> inside (B !!! i) (s !!! i).
Proof.
  intros H Hi. revert i Hi. induction H as [|b x B s Hb H IH]; intros i Hi; simpl in Hi; [lia|].
  destruct i as [|i]; simpl; [done|]. apply IH. lia.
Qed.

Lemma within_insert B s i b x : within B s -> inside b x -> within (<[i:=b]> B) (<[i:=x]> s).
Proof. intros. apply Forall2_insert; done. Qed.

Lemma subsumes_sound B B' s : subsumes B B' = true -> within B s -> within B' s.
Proof.
  unfold subsumes. intros Hs H. revert B' Hs.
  induction H as [|b x B s Hb H IH]; intros [|b' B'] Hs; simpl in Hs; try done; [constructor|].
  rewrite !andb_true_iff in Hs. destruct Hs as (Hl & (H1 & H2) & Hr).
  constructor; [unfold inside in *; lia|]. apply IH. rewrite Hl. done.
Qed.

Lemma fits_inside n b x : fits n b = true -> inside b x -> I n x = Ret x.
Proof.
  unfold fits, inside. rewrite andb_true_iff, !in_signed_spec. intros. apply I_ok. lia.
Qed.

(** ** Bounds after a carry *)

Definition shr_itv (w : Z) (b : itv) : itv := (b.1 / 2 ^ w, b.2 / 2 ^ w).
Definition add_itv (a b : itv) : itv := (a.1 + b.1, a.2 + b.2).
Definition scale_itv (m : Z) (b : itv) : itv := (b.1 * m, b.2 * m).

(** [rnd] is the rounding term, [m] the multiplier of the carry. *)
Definition carry_b (n w rnd m : Z) (i j : nat) (B : list itv) : option (list itv) :=
  let t := add_itv (B !!! i) (rnd, rnd) in
  let c := shr_itv w t in
  let sj := add_itv (B !!! j) (scale_itv m c) in
  if fits n t && fits n (scale_itv m c) && fits n sj && fits n (scale_itv (2 ^ w) c)
     && fits n (- rnd, 2 ^ w - 1 - rnd) && (0 <=? m) && (0 <=? w) && (0 <? n)
     && negb (i =? j)%nat && (i <? length B)%nat && (j <? length B)%nat
  then Some (<[i := (- rnd, 2 ^ w - 1 - rnd)]> (<[j := sj]> B))
  else None.

(** The carry is exact division with remainder. *)
Lemma carry_rem x rnd w :
  0 <= w -> inside (- rnd, 2 ^ w - 1 - rnd) (x - 2 ^ w * Z.shiftr (x + rnd) w).
Proof.
  intros Hw. rewrite Z.shiftr_div_pow2 by lia. unfold inside. simpl.
  assert (0 < 2 ^ w) by (apply Z.pow_pos_nonneg; lia).
  pose proof (Z.div_mod (x + rnd) (2 ^ w)). pose proof (Z.mod_pos_bound (x + rnd) (2 ^ w)). lia.
Qed.

Lemma shr_inside w b x : 0 <= w -> inside b x -> inside (shr_itv w b) (Z.shiftr x w).
Proof.
  intros Hw [H1 H2]. rewrite Z.shiftr_div_pow2 by lia.
  assert (0 < 2 ^ w) by (apply Z.pow_pos_nonneg; lia).
  split; simpl; apply Z.div_le_mono; lia.
Qed.

Lemma add_inside a b x y : inside a x -> inside b y -> inside (add_itv a b) (x + y).
Proof. unfold inside, add_itv. simpl. lia. Qed.

Lemma scale_inside m b x : 0 <= m -> inside b x -> inside (scale_itv m b) (x * m).
Proof. unfold inside, scale_itv. simpl. nia. Qed.

(** Soundness of [carry_b], for the three carry statements at once: if the
    bounds check passes, each operation is in range and the carried limbs
    satisfy the new bounds. *)
Lemma carry_b_sound n w rnd m i j B B' s :
  carry_b n w rnd m i j B = Some B' -> within B s ->
  let c := Z.shiftr (s !!! i + rnd) w in
  let s' := <[i := s !!! i - 2 ^ w * c]> (<[j := s !!! j + m * c]> s) in
  within B' s' /\
  I n (s !!! i + rnd) = Ret (s !!! i + rnd) /\ I n (c * m) = Ret (c * m) /\
  I n (s !!! j + c * m) = Ret (s !!! j + m * c) /\
  shl n c w = 2 ^ w * c /\
  I n (s !!! i - 2 ^ w * c) = Ret (s !!! i - 2 ^ w * c).
Proof.
  intros Hb H c s'. unfold carry_b in Hb.
  destruct (_ && _) eqn:E in Hb; [|done]. injection Hb as <-.
  rewrite !andb_true_iff, negb_true_iff, Nat.eqb_neq, !Nat.ltb_lt, !Z.leb_le, Z.ltb_lt in E.
  destruct E as ((((((((((Ft & Fm) & Fj) & Fw) & Fi) & Hm) & Hw) & Hn) & Hij) & Hi) & Hj).
  pose proof (within_length _ _ H) as Hl. rewrite <- Hl in Hi, Hj.
  pose proof (within_lookup _ _ _ H Hi) as Bi. pose proof (within_lookup _ _ _ H Hj) as Bj.
  assert (inside (add_itv (B !!! i) (rnd, rnd)) (s !!! i + rnd)) as Bt
    by (apply add_inside; [done|unfold inside; simpl; lia]).
  pose proof (shr_inside w _ _ Hw Bt) as Bc. fold c in Bc.
  pose proof (scale_inside _ _ _ Hm Bc) as Bcm.
  pose proof (add_inside _ _ _ _ Bj Bcm) as Bsj.
  pose proof (carry_rem (s !!! i) rnd w Hw) as Br. fold c in Br.
  assert (0 <= 2 ^ w) as Hp by (apply Z.pow_nonneg; lia).
  split; [|split; [|split; [|split; [|split]]]].
  - apply within_insert; [apply within_insert; [done|] | exact Br].
    rewrite (Z.mul_comm m). done.
  - exact (fits_inside _ _ _ Ft Bt).
  - exact (fits_inside _ _ _ Fm Bcm).
  - rewrite (Z.mul_comm m). exact (fits_inside _ _ _ Fj Bsj).
  - rewrite (Z.mul_comm (2 ^ w)). apply I_shl; [done|done|].
    exact (fits_inside _ _ _ Fw (scale_inside _ _ _ Hp Bc)).
  - exact (fits_inside _ _ _ Fi Br).
Qed.

Lemma carry_round_sound n w i j B B' s :
  carry_b n w (2 ^ (w - 1)) 1 i j B = Some B' -> within B s ->
  yields (carry_round n w i j s) (fun s' => within B' s' /\ carried w 1 i j s s').
Proof.
  intros Hb H. pose proof (carry_b_sound _ _ _ _ _ _ _ _ _ Hb H) as (Hw & E1 & E2 & E3 & E4 & E5).
  rewrite Z.mul_1_r in E3. unfold carry_round.
  rewrite E1; cbn [bind]. rewrite E3; cbn [bind]. rewrite E4, E5; cbn [bind].
  apply yields_ret. split; [exact Hw|]. eexists. reflexivity.
Qed.

Lemma carry_floor_sound n w i j B B' s :
  carry_b n w 0 1 i j B = Some B' -> within B s ->
  yields (carry_floor n w i j s) (fun s' => within B' s' /\ carried w 1 i j s s').
Proof.
  intros Hb H. pose proof (carry_b_sound _ _ _ _ _ _ _ _ _ Hb H) as (Hw & E1 & E2 & E3 & E4 & E5).
  rewrite Z.mul_1_r in E3. rewrite Z.add_0_r in *. unfold carry_floor.
  rewrite E3; cbn [bind]. rewrite E4, E5; cbn [bind].
  apply yields_ret. split; [exact Hw|]. eexists. reflexivity.
Qed.

Lemma carry_wrap_sound n w i j m B B' s :
  carry_b n w (2 ^ (w - 1)) m i j B = Some B' -> within B s ->
  yields (carry_wrap n w i j m s) (fun s' => within B' s' /\ carried w m i j s s').
Proof.
  intros Hb H. pose proof (carry_b_sound _ _ _ _ _ _ _ _ _ Hb H) as (Hw & E1 & E2 & E3 & E4 & E5).
  unfold carry_wrap. rewrite E1; cbn [bind]. rewrite E2; cbn [bind]. rewrite E3; cbn [bind].
  rewrite E4, E5; cbn [bind].
  apply yields_ret. split; [exact Hw|]. eexists. reflexivity.
Qed.

(** A carry keeps the number of limbs, and the value when the weights fit. *)
Lemma carried_length w m i j s s' : carried w m i j s s' -> length s' = length s.
Proof. intros (c & ->). rewrite !length_insert. done. Qed.

Lemma carried_eval wt w m i j s s' :
  carried w m i j s s' -> i <> j -> (i < length s)%nat -> (j < length s)%nat ->
  exists c, eval wt 0 s' = eval wt 0 s + (m * wt j - 2 ^ w * wt i) * c.
Proof.
  intros (c & ->) Hij Hi Hj. exists c.
  rewrite eval_insert by (rewrite length_insert; lia). rewrite eval_insert by lia.
  rewrite list_lookup_total_insert_ne by done. simpl. nia.
Qed.

(** ** Runs of steps against bounds

    [BoundedStep R f fb] is what a step promises to the code that uses it:
    whenever the bounds computation [fb] succeeds, [f] runs without fault on
    every state within the bounds, ends within the computed bounds, and its
    input and output are related by [R]. *)

Class BoundedStep (R : relation (list Z))
    (f : list Z -> outcome (list Z)) (fb : list itv -> option (list itv)) : Prop :=
  bounded_step B B' s :
    fb B = Some B' -> within B s -> yields (f s) (fun s' => within B' s' /\ R s s').

Fixpoint fold_b {A} (fb : A -> list itv -> option (list itv)) (l : list A) (B : list itv)
    : option (list itv) :=
  match l with
  | [] => Some B
  | x :: l' => match fb x B with Some B' => fold_b fb l' B' | None => None end
  end.

#[global] Instance foldM_bounded {A} R `{!PreOrder R} (f : A -> list Z -> outcome (list Z)) fb l :
  (forall x, BoundedStep R (f x) (fb x)) -> BoundedStep R (foldM f l) (fold_b fb l).
Proof.
  intros Hf. induction l as [|x l IH]; intros B B' s Hb Hs; simpl in *.
  - injection Hb as <-. apply yields_ret. split; [done|reflexivity].
  - destruct (fb x B) as [B1|] eqn:E; [|done].
    eapply yields_bind; [apply (Hf x _ _ _ E Hs)|]. intros s1 [Hs1 R1].
    eapply yields_mono; [apply (IH _ _ _ Hb Hs1)|]. intros s2 [Hs2 R2].
    split; [done|]. etransitivity; eassumption.
Qed.

Definition seq_b (f1 f2 : list itv -> option (list itv)) (B : list itv) : option (list itv) :=
  match f1 B with Some B' => f2 B' | None => None end.

#[global] Instance seq_bounded R `{!PreOrder R} f1 f2 fb1 fb2 :
  BoundedStep R f1 fb1 -> BoundedStep R f2 fb2 ->
  BoundedStep R (fun s => let* s' := f1 s in f2 s') (seq_b fb1 fb2).
Proof.
  intros H1 H2 B B' s Hb Hs. unfold seq_b in Hb. destruct (fb1 B) as [B1|] eqn:E; [|done].
  eapply yields_bind; [apply (H1 _ _ _ E Hs)|]. intros s1 [Hs1 R1].
  eapply yields_mono; [apply (H2 _ _ _ Hb Hs1)|]. intros s2 [Hs2 R2].
  split; [done|]. etransitivity; eassumption.
Qed.

(** Same value modulo [M] ([M = 0]: same value). *)
Definition same_mod (wt : nat -> Z) (M : Z) (s s' : list Z) : Prop :=
  exists k, eval wt 0 s' = eval wt 0 s + M * k.

#[global] Instance same_mod_preorder wt M : PreOrder (same_mod wt M).
Proof.
  split.
  - intros s. exists 0. lia.
  - intros s1 s2 s3 (k1 & E1) (k2 & E2). exists (k1 + k2). lia.
Qed.

Lemma same_mod_eqm wt M s s' : same_mod wt M s s' -> eval wt 0 s' mod M = eval wt 0 s mod M.
Proof.
  intros (k & ->). destruct (decide (M = 0)) as [->|HM].
  - f_equal. lia.
  - rewrite Z.mul_comm. apply Z_mod_plus_full.
Qed.

Lemma same_mod_0 wt M s s' : same_mod wt 0 s s' -> same_mod wt M s s'.
Proof. intros (k & E). exists 0. lia. Qed.

(** Bounds of a carry between limbs whose weights agree modulo [M]. *)
Definition carry_bw (wt : nat -> Z) (M n w rnd m : Z) (i j : nat) (B : list itv)
    : option (list itv) :=
  if (m * wt j - 2 ^ w * wt i) mod M =? 0 then carry_b n w rnd m i j B else None.

Lemma mod_multiple x M : x mod M = 0 -> exists k, x = M * k.
Proof.
  intros H. destruct (decide (M = 0)) as [->|HM].
  - rewrite Z.mod_0_r in H. exists 0. lia.
  - exists (x / M). pose proof (Z.div_mod x M HM). lia.
Qed.

Lemma carried_same_mod wt M n w rnd m i j B B' s s' :
  carry_bw wt M n w rnd m i j B = Some B' -> within B s ->
  carried w m i j s s' -> same_mod wt M s s'.
Proof.
  unfold carry_bw. intros Hb Hs Hc. destruct (_ =? 0) eqn:E; [|done].
  apply Z.eqb_eq, mod_multiple in E as [k Hk].
  unfold carry_b in Hb. destruct (_ && _) eqn:Ec in Hb; [|done].
  rewrite !andb_true_iff, negb_true_iff, Nat.eqb_neq, !Nat.ltb_lt in Ec.
  destruct Ec as (((_ & Hij) & Hi) & Hj).
  pose proof (within_length _ _ Hs) as Hl. rewrite <- Hl in Hi, Hj.
  destruct (carried_eval wt _ _ _ _ _ _ Hc Hij Hi Hj) as [c Ec].
  exists (k * c). rewrite Ec, Hk. lia.
Qed.

Lemma carry_bw_b wt M n w rnd m i j B B' :
  carry_bw wt M n w rnd m i j B = Some B' -> carry_b n w rnd m i j B = Some B'.
Proof. unfold carry_bw. destruct (_ =? 0); congruence. Qed.

Section CarryInstances.
Context (wt : nat -> Z) (M n w : Z) (i j : nat).

#[global] Instance carry_round_bounded :
  BoundedStep (same_mod wt M) (carry_round n w i j) (carry_bw wt M n w (2 ^ (w - 1)) 1 i j).
Proof.
  intros B B' s Hb Hs. eapply yields_mono.
  - eapply carry_round_sound; [eapply carry_bw_b|]; eassumption.
  - intros s' [? ?]. split; [done|]. eapply carried_same_mod; eassumption.
Qed.

#[global] Instance carry_floor_bounded :
  BoundedStep (same_mod wt M) (carry_floor n w i j) (carry_bw wt M n w 0 1 i j).
Proof.
  intros B B' s Hb Hs. eapply yields_mono.
  - eapply carry_floor_sound; [eapply carry_bw_b|]; eassumption.
  - intros s' [? ?]. split; [done|]. eapply carried_same_mod; eassumption.
Qed.

#[global] Instance carry_wrap_bounded m :
  BoundedStep (same_mod wt M) (carry_wrap n w i j m) (carry_bw wt M n w (2 ^ (w - 1)) m i j).
Proof.
  intros B B' s Hb Hs. eapply yields_mono.
  - eapply carry_wrap_sound; [eapply carry_bw_b|]; eassumption.
  - intros s' [? ?]. split; [done|]. eapply carried_same_mod; eassumption.
Qed.
End CarryInstances.

(** ** Value bounds from limb bounds *)

Definition eval_lo (wt : nat -> Z) (k : nat) (B : list itv) : Z := eval wt k (map fst B).
Definition eval_hi (wt : nat -> Z) (k : nat) (B : list itv) : Z := eval wt k (map snd B).

Lemma eval_within wt k B s :
  (forall i, 0 <= wt i) -> within B s -> eval_lo wt k B <= eval wt k s <= eval_hi wt k B.
Proof.
  intros Hwt H. revert k. unfold eval_lo, eval_hi.
  induction H as [|b x B s [Hl Hh] H IH]; intros k; simpl; [lia|].
  specialize (IH (S k)). specialize (Hwt k). nia.
Qed.

(** Names the first limb of a list known by its bounds. *)
Tactic Notation "limb" hyp(H) ident(x) :=
  let H' := fresh in
  inversion H as [|? x ? ? ? H']; clear H; rename H' into H; subst.
