(* ===== verification/Bytes.v ===== *)
(** Byte strings and their little-endian values, with the loads of
    src/src/crypto/crypto-ops.c ([load_3], [load_4]).  A byte is a [Z] in
    [0, 256); a pointer into a buffer is the rest of the buffer. *)

From S2P Require Import Prelude Limbs.

Definition is_byte (b : Z) : Prop := 0 <= b < 256.
Definition bytes (bs : list Z) : Prop := Forall is_byte bs.

#[global] Instance is_byte_dec b : Decision (is_byte b).
Proof. unfold is_byte. apply _. Defined.
#[global] Instance bytes_dec bs : Decision (bytes bs).
Proof. unfold bytes. apply _. Defined.

Definition bytesb (bs : list Z) : bool := forallb (fun b => (0 <=? b) && (b <? 256)) bs.

Lemma bytesb_true bs : bytesb bs = true -> bytes bs.
Proof.
  unfold bytesb, bytes, is_byte. rewrite forallb_forall, List.Forall_forall. intros H b Hb.
  apply H in Hb. rewrite andb_true_iff, Z.leb_le, Z.ltb_lt in Hb. exact Hb.
Qed.

(** [s[0] + 256*s[1] + ...] *)
Fixpoint le_val (bs : list Z) : Z :=
  match bs with
  | [] => 0
  | b :: bs' => b + 256 * le_val bs'
  end.

(** The [n] low bytes of [v]. *)
Fixpoint le_bytes (n : nat) (v : Z) : list Z :=
  match n with
  | O => []
  | S n' => v mod 256 :: le_bytes n' (v / 256)
  end.

Lemma pow8_S k : 2 ^ (8 * Z.of_nat (S k)) = 256 * 2 ^ (8 * Z.of_nat k).
Proof. change 256 with (2 ^ 8). rewrite <- Z.pow_add_r by lia. f_equal. lia. Qed.

Lemma le_val_bound bs : bytes bs -> 0 <= le_val bs < 2 ^ (8 * Z.of_nat (length bs)).
Proof.
  induction 1 as [|b bs Hb H IH]; simpl le_val; simpl length.
  - simpl. lia.
  - rewrite pow8_S. unfold is_byte in Hb. lia.
Qed.

Lemma bytes_drop k bs : bytes bs -> bytes (drop k bs).
Proof. apply Forall_drop. Qed.
Lemma bytes_take k bs : bytes bs -> bytes (take k bs).
Proof. apply Forall_take. Qed.

Lemma le_val_drop k bs : bytes bs -> le_val (drop k bs) = le_val bs / 2 ^ (8 * Z.of_nat k).
Proof.
  revert bs. induction k as [|k IH]; intros bs H.
  - rewrite drop_0. simpl. rewrite Z.div_1_r. done.
  - destruct H as [|b bs Hb H]; simpl drop.
    + simpl. rewrite Z.div_0_l; [done|]. apply Z.pow_nonzero; lia.
    + rewrite IH by done. rewrite pow8_S, <- Z.div_div by (try apply Z.pow_pos_nonneg; lia).
      f_equal. simpl. unfold is_byte in Hb. rewrite Z.mul_comm, Z.div_add by lia.
      rewrite Z.div_small; lia.
Qed.

Lemma le_val_take k bs : bytes bs -> le_val (take k bs) = le_val bs mod 2 ^ (8 * Z.of_nat k).
Proof.
  revert bs. induction k as [|k IH]; intros bs H.
  - rewrite take_0. simpl. rewrite Z.mod_1_r. done.
  - destruct H as [|b bs Hb H]; simpl take.
    + simpl. rewrite Z.mod_0_l; [done|]. apply Z.pow_nonzero; lia.
    + simpl le_val. rewrite IH by done. rewrite pow8_S.
      assert (0 < 2 ^ (8 * Z.of_nat k)) by (apply Z.pow_pos_nonneg; lia).
      rewrite Z.rem_mul_r by lia. unfold is_byte in Hb.
      rewrite (Z.mul_comm 256 (le_val bs)), Z.mod_add, Z.div_add by lia.
      rewrite (Z.mod_small b), (Z.div_small b) by lia. done.
Qed.

Lemma le_val_app bs cs : le_val (bs ++ cs) = le_val bs + 2 ^ (8 * Z.of_nat (length bs)) * le_val cs.
Proof.
  induction bs as [|b bs IH]; simpl le_val; simpl length.
  - change (2 ^ (8 * Z.of_nat 0)) with 1. simpl app. lia.
  - rewrite IH, pow8_S. lia.
Qed.

Lemma length_le_bytes n v : length (le_bytes n v) = n.
Proof. revert v. induction n; intros; simpl; auto. Qed.

Lemma bytes_le_bytes n v : bytes (le_bytes n v).
Proof.
  revert v. induction n; intros v; constructor; [|apply IHn].
  unfold is_byte. apply Z.mod_pos_bound. lia.
Qed.

Lemma le_val_le_bytes n v : le_val (le_bytes n v) = v mod 2 ^ (8 * Z.of_nat n).
Proof.
  revert v. induction n as [|n IH]; intros v.
  - simpl. rewrite Z.mod_1_r. done.
  - simpl le_val. rewrite IH, pow8_S.
    assert (0 < 2 ^ (8 * Z.of_nat n)) by (apply Z.pow_pos_nonneg; lia).
    rewrite Z.rem_mul_r by lia. done.
Qed.

Lemma le_bytes_le_val bs : bytes bs -> le_bytes (length bs) (le_val bs) = bs.
Proof.
  induction 1 as [|b bs Hb H IH]; simpl; [done|]. unfold is_byte in Hb.
  rewrite (Z.mul_comm 256), Z.mod_add, Z.div_add by lia.
  rewrite Z.mod_small, Z.div_small by lia. f_equal. exact IH.
Qed.

(** A byte string of known length is determined by its value. *)
Lemma le_val_inj bs cs :
  bytes bs -> bytes cs -> length bs = length cs -> le_val bs = le_val cs -> bs = cs.
Proof.
  intros Hb Hc Hl Hv. rewrite <- (le_bytes_le_val bs), <- (le_bytes_le_val cs) by done. congruence.
Qed.

(** ** Disjoint bitwise or is addition *)

Lemma lor_add a b k : 0 <= k -> 0 <= a < 2 ^ k -> Z.lor a (Z.shiftl b k) = a + 2 ^ k * b.
Proof.
  intros Hk Ha. pose proof (Z.add_lor_land a (Z.shiftl b k)) as E.
  enough (Z.land a (Z.shiftl b k) = 0) as E0 by (rewrite E0, Z.shiftl_mul_pow2 in E by lia; rewrite Z.shiftl_mul_pow2 by lia; lia).
  apply Z.bits_inj'. intros n Hn. rewrite Z.land_spec, Z.bits_0, Z.shiftl_spec by lia.
  destruct (Z.lt_ge_cases n k) as [?|?].
  - rewrite (Z.testbit_neg_r b) by lia. apply andb_false_r.
  - rewrite <- (Z.mod_small a (2 ^ k)) by lia. rewrite Z.mod_pow2_bits_high by lia. done.
Qed.

Lemma land_mask m x : 0 <= m -> Z.land (2 ^ m - 1) x = x mod 2 ^ m.
Proof. intros. rewrite Z.land_comm, <- Z.land_ones, Z.ones_equiv by lia. f_equal. Qed.

(** ** Loads (crypto-ops.c) *)

Definition load_3 (s : list Z) : outcome Z :=
  match s with
  | in0 :: in1 :: in2 :: _ =>
      let result := in0 in
      let result := Z.lor result (uwrap 64 (Z.shiftl in1 8)) in
      let result := Z.lor result (uwrap 64 (Z.shiftl in2 16)) in
      Ret result
  | _ => Fault OutOfBounds
  end.

Definition load_4 (s : list Z) : outcome Z :=
  match s with
  | in0 :: in1 :: in2 :: in3 :: _ =>
      let result := in0 in
      let result := Z.lor result (uwrap 64 (Z.shiftl in1 8)) in
      let result := Z.lor result (uwrap 64 (Z.shiftl in2 16)) in
      let result := Z.lor result (uwrap 64 (Z.shiftl in3 24)) in
      Ret result
  | _ => Fault OutOfBounds
  end.

Lemma load_byte acc b k :
  0 <= k <= 24 -> 0 <= acc < 2 ^ k -> is_byte b ->
  Z.lor acc (uwrap 64 (Z.shiftl b k)) = acc + 2 ^ k * b.
Proof.
  unfold is_byte. intros Hk Ha Hb. rewrite uwrap_small; [apply lor_add; lia|].
  rewrite Z.shiftl_mul_pow2 by lia.
  assert (2 ^ k <= 2 ^ 24) by (apply Z.pow_le_mono_r; lia).
  assert (0 < 2 ^ k) by (apply Z.pow_pos_nonneg; lia).
  split; [nia|]. change (2 ^ 64) with (2 ^ 40 * 2 ^ 24). nia.
Qed.

Lemma load_3_spec s : bytes s -> (3 <= length s)%nat -> load_3 s = Ret (le_val (take 3 s)).
Proof.
  intros H Hl. destruct s as [|b0 [|b1 [|b2 s]]]; simpl in Hl; try lia.
  inversion_clear H as [|? ? H0 H']. inversion_clear H' as [|? ? H1 H'']. inversion_clear H'' as [|? ? H2 _].
  unfold load_3. rewrite (load_byte b0 b1 8), (load_byte _ b2 16);
    unfold is_byte in *; simpl le_val; (f_equal; lia) || lia.
Qed.

Lemma load_4_spec s : bytes s -> (4 <= length s)%nat -> load_4 s = Ret (le_val (take 4 s)).
Proof.
  intros H Hl. destruct s as [|b0 [|b1 [|b2 [|b3 s]]]]; simpl in Hl; try lia.
  inversion_clear H as [|? ? H0 H']. inversion_clear H' as [|? ? H1 H''].
  inversion_clear H'' as [|? ? H2 H3']. inversion_clear H3' as [|? ? H3 _].
  unfold load_4. rewrite (load_byte b0 b1 8), (load_byte _ b2 16), (load_byte _ b3 24);
    unfold is_byte in *; simpl le_val; (f_equal; lia) || lia.
Qed.

(** [load n (s + off)], as a slice of the value of the whole buffer. *)
Definition load (n off : nat) (s : list Z) : outcome Z :=
  (if (n =? 3)%nat then load_3 else load_4) (drop off s).

Lemma load_spec n off s :
  bytes s -> (n = 3 \/ n = 4)%nat -> (off + n <= length s)%nat ->
  load n off s = Ret ((le_val s / 2 ^ (8 * Z.of_nat off)) mod 2 ^ (8 * Z.of_nat n)).
Proof.
  intros Hs Hn Hl. unfold load. rewrite <- le_val_drop, <- le_val_take by auto using bytes_drop.
  assert (n <= length (drop off s))%nat by (rewrite length_drop; lia).
  destruct Hn as [-> | ->]; simpl Nat.eqb; cbn iota; [apply load_3_spec | apply load_4_spec];
    auto using bytes_drop.
Qed.

(** ** Stores: [s[k] = (x >> a) | (y << b);] *)

Definition u8 (x : Z) : Z := uwrap 8 x.

Lemma lor_mod a b n : 0 <= n -> Z.lor a b mod 2 ^ n = Z.lor (a mod 2 ^ n) (b mod 2 ^ n).
Proof. intros. rewrite <- !Z.land_ones by lia. apply Z.land_lor_distr_l. Qed.

Lemma swrap_mod n k x : 0 <= k <= n -> 0 < n -> swrap n x mod 2 ^ k = x mod 2 ^ k.
Proof.
  intros Hk Hn. unfold swrap.
  assert (0 < 2 ^ k) by (apply Z.pow_pos_nonneg; lia).
  assert (exists c, 2 ^ n = c * 2 ^ k) as [c Hc]
    by (exists (2 ^ (n - k)); rewrite <- Z.pow_add_r by lia; f_equal; lia).
  pose proof (Z.div_mod (x + 2 ^ (n - 1)) (2 ^ n) ltac:(apply Z.pow_nonzero; lia)) as E.
  replace ((x + 2 ^ (n - 1)) mod 2 ^ n - 2 ^ (n - 1))
    with (x + (- ((x + 2 ^ (n - 1)) / 2 ^ n) * c) * 2 ^ k) by nia.
  apply Z_mod_plus_full.
Qed.

Lemma u8_spec x k : 0 <= k -> u8 (Z.shiftr x k) = (x / 2 ^ k) mod 256.
Proof. intros. unfold u8, uwrap. rewrite Z.shiftr_div_pow2 by lia. done. Qed.

(** A byte made of the top of one limb and the bottom of the next; the
    conversion to a byte drops what the left shift pushes out of the word. *)
Lemma u8_lor_spec n x y i j :
  8 <= n -> 0 <= i -> 0 <= j <= 8 -> 0 <= x < 2 ^ (i + j) ->
  u8 (Z.lor (Z.shiftr x i) (shl n y j)) = x / 2 ^ i + 2 ^ j * (y mod 2 ^ (8 - j)).
Proof.
  intros Hn Hi Hj Hx. unfold u8, uwrap, shl.
  assert (0 < 2 ^ i) by (apply Z.pow_pos_nonneg; lia).
  assert (0 < 2 ^ j) by (apply Z.pow_pos_nonneg; lia).
  assert (0 < 2 ^ (8 - j)) by (apply Z.pow_pos_nonneg; lia).
  assert (0 <= x / 2 ^ i < 2 ^ j).
  { split; [apply Z.div_pos; lia|]. apply Z.div_lt_upper_bound; [lia|].
    rewrite <- Z.pow_add_r by lia. lia. }
  rewrite lor_mod, (swrap_mod n 8), <- lor_mod, Z.shiftr_div_pow2, lor_add by lia.
  replace (2 ^ 8) with (2 ^ j * 2 ^ (8 - j)) by (rewrite <- Z.pow_add_r by lia; f_equal; lia).
  rewrite Z.rem_mul_r by lia.
  rewrite (Z.mul_comm (2 ^ j) y), Z.mod_add, Z.div_add by lia.
  rewrite (Z.mod_small (x / 2 ^ i)), (Z.div_small (x / 2 ^ i)) by lia. done.
Qed.

(** Cutting a limb at bit [a], then off a byte. *)
Lemma cut x a : 0 <= a -> x = x mod 2 ^ a + 2 ^ a * (x / 2 ^ a).
Proof. intros. pose proof (Z.div_mod x (2 ^ a) ltac:(apply Z.pow_nonzero; lia)). lia. Qed.

Lemma cut8 x a : 0 <= a -> x / 2 ^ a = (x / 2 ^ a) mod 256 + 256 * (x / 2 ^ (a + 8)).
Proof.
  intros. rewrite Z.pow_add_r, <- Z.div_div by (try apply Z.pow_pos_nonneg; try apply Z.pow_nonzero; lia).
  pose proof (Z.div_mod (x / 2 ^ a) 256). change (2 ^ 8) with 256. lia.
Qed.

Lemma u8_byte x : is_byte (u8 x).
Proof. unfold is_byte, u8. apply (uwrap_range 8). lia. Qed.

(** The three ways a limb spreads over bytes: cut at bit [a], then one or
    two whole bytes, then the rest. *)
Lemma cut_1 x a b : 0 <= a -> b = a + 8 ->
  x = x mod 2 ^ a + 2 ^ a * ((x / 2 ^ a) mod 256) + 2 ^ b * (x / 2 ^ b).
Proof.
  intros Ha ->. pose proof (cut x a Ha) as E1. pose proof (cut8 x a Ha) as E2.
  rewrite E1 at 1. rewrite E2 at 1. rewrite !(Z.pow_add_r 2 a 8) by lia. ring.
Qed.

Lemma cut_2 x a b c : 0 <= a -> b = a + 8 -> c = b + 8 ->
  x = x mod 2 ^ a + 2 ^ a * ((x / 2 ^ a) mod 256) + 2 ^ b * ((x / 2 ^ b) mod 256)
      + 2 ^ c * (x / 2 ^ c).
Proof.
  intros Ha Hb ->. pose proof (cut_1 x a b Ha Hb) as E1. pose proof (cut8 x b ltac:(lia)) as E2.
  rewrite E1 at 1. rewrite E2 at 1. rewrite !(Z.pow_add_r 2 b 8) by lia. ring.
Qed.

(** ** Signs and zero tests *)

Lemma shiftr_sign x n : 0 <= n -> - 2 ^ n <= x < 2 ^ n -> Z.shiftr x n = if x <? 0 then -1 else 0.
Proof.
  intros Hn Hx. rewrite Z.shiftr_div_pow2 by lia. destruct (Z.ltb_spec x 0).
  - symmetry. apply (Z.div_unique x (2 ^ n) (-1) (x + 2 ^ n)); lia.
  - apply Z.div_small. lia.
Qed.

Lemma lor_byte a b : is_byte a -> is_byte b -> is_byte (Z.lor a b).
Proof.
  unfold is_byte. intros Ha Hb. split; [apply Z.lor_nonneg; lia|].
  destruct (Z.eq_dec (Z.lor a b) 0) as [->|Hn]; [lia|].
  apply (Z.log2_lt_pow2 _ 8); [pose proof (proj2 (Z.lor_nonneg a b)); lia|].
  rewrite Z.log2_lor by lia.
  apply Z.max_lub_lt; [destruct (Z.eq_dec a 0) as [->|]|destruct (Z.eq_dec b 0) as [->|]];
    try (simpl; lia); apply Z.log2_lt_pow2; lia.
Qed.

Lemma foldl_lor a bs :
  is_byte a -> bytes bs ->
  is_byte (foldl Z.lor a bs) /\ (foldl Z.lor a bs = 0 <-> a = 0 /\ le_val bs = 0).
Proof.
  intros Ha H. revert a Ha. induction H as [|b bs Hb H IH]; intros a Ha; simpl; [tauto|].
  destruct (IH (Z.lor a b) (lor_byte _ _ Ha Hb)) as [H1 H2]. split; [done|].
  rewrite H2, Z.lor_eq_0_iff. pose proof (le_val_bound _ H). unfold is_byte in Hb. lia.
Qed.

(** [((int) (s[0] | ... | s[31]) - 1) >> 8) + 1] is 0 on the zero string, else 1. *)
Lemma or_nonzero s :
  bytes s -> length s = 32%nat ->
  (let* d := I32 (foldl Z.lor (s !!! 0%nat) (map (fun i => s !!! i) (seq 1 31)) - 1) in
   I32 (Z.shiftr d 8 + 1)) = Ret (if le_val s =? 0 then 0 else 1).
Proof.
  intros Hs Hl. destruct s as [|a bs]; [done|]. simpl in Hl. injection Hl as Hl.
  inversion Hs as [|? ? Ha Hbs]; subst.
  replace (map (fun i => (a :: bs) !!! i) (seq 1 31)) with bs.
  2: { do 31 (destruct bs as [|? bs]; [done|]). destruct bs; done. }
  change ((a :: bs) !!! 0%nat) with a.
  destruct (foldl_lor a bs Ha Hbs) as [Hb Hz]. unfold is_byte in *.
  rewrite I_ok by (simpl; lia). cbn [bind]. rewrite shiftr_sign by (simpl; lia).
  pose proof (le_val_bound _ Hbs).
  destruct (Z.ltb_spec (foldl Z.lor a bs - 1) 0), (Z.eqb_spec (le_val (a :: bs)) 0); simpl in *;
    try reflexivity; exfalso; destruct Hz; lia.
Qed.
