(* ===== verification/Scalar.v ===== *)
(** Arithmetic modulo the group order [L] ("l" in the C comments) on 32-byte and 64-byte strings:
    the [sc_*] functions of src/src/crypto/crypto-ops.c.

    A scalar is held in 21-bit limbs in [int64_t] variables; limb [i] has
    weight [2^(21 i)].  The variables [s0 .. s23] of the C code are a list; a
    variable that is never read again is dropped from the end of the list. *)

From S2P Require Import Prelude Limbs Bytes.

(** The order of the base point. *)
Definition L : Z := 2 ^ 252 + 27742317777372353535851937790883648493.

Definition wt21 (i : nat) : Z := 2 ^ (21 * Z.of_nat i).

(** ** Loading limbs: [int64_t s_i = 2097151 & (load_n(s + off) >> sh);] *)

Definition load21 (s : list Z) (e : nat * nat * Z) : outcome Z :=
  let '(n, off, sh) := e in
  let* x := load n off s in
  Ret (Z.land 2097151 (Z.shiftr x sh)).

Definition loads_11 : list (nat * nat * Z) :=
  [(3, 0, 0%Z); (4, 2, 5%Z); (3, 5, 2%Z); (4, 7, 7%Z); (4, 10, 4%Z); (3, 13, 1%Z);
   (4, 15, 6%Z); (3, 18, 3%Z); (3, 21, 0%Z); (4, 23, 5%Z); (3, 26, 2%Z)]%nat.

Definition loads_23 : list (nat * nat * Z) :=
  (loads_11 ++
  [(4, 28, 7%Z); (4, 31, 4%Z); (3, 34, 1%Z); (4, 36, 6%Z); (3, 39, 3%Z); (3, 42, 0%Z);
   (4, 44, 5%Z); (3, 47, 2%Z); (4, 49, 7%Z); (4, 52, 4%Z); (3, 55, 1%Z); (4, 57, 6%Z)])%nat.

Definition sc_load_12 (a : list Z) : outcome (list Z) :=
  let* lo := mapM (load21 a) loads_11 in
  let* hi := load 4 28 a in
  Ret (lo ++ [Z.shiftr hi 7]).

Definition sc_load_24 (s : list Z) : outcome (list Z) :=
  let* lo := mapM (load21 s) loads_23 in
  let* hi := load 4 60 s in
  Ret (lo ++ [Z.shiftr hi 3]).

(** ** Reduction steps *)

(** [s_i += s_k * c;] and [s_i -= s_k * c;] *)
Definition addmul (i k : nat) (c : Z) (s : list Z) : outcome (list Z) :=
  let* m := I64 (s !!! k * c) in
  let* x := I64 (s !!! i + m) in
  Ret (<[i := x]> s).

Definition submul (i k : nat) (c : Z) (s : list Z) : outcome (list Z) :=
  let* m := I64 (s !!! k * c) in
  let* x := I64 (s !!! i - m) in
  Ret (<[i := x]> s).

(** The six statements that eliminate limb [k]; [s_k] is not read again. *)
Definition red (k : nat) (s : list Z) : outcome (list Z) :=
  let* s := addmul (k - 12) k 666643 s in
  let* s := addmul (k - 11) k 470296 s in
  let* s := addmul (k - 10) k 654183 s in
  let* s := submul (k - 9) k 997805 s in
  let* s := addmul (k - 8) k 136657 s in
  let* s := submul (k - 7) k 683901 s in
  Ret (take k s).

(** [carry_i = (s_i + (1<<20)) >> 21; s_{i+1} += carry_i; s_i -= carry_i << 21;]
    and the same without the rounding term. *)
Definition carry_r (i : nat) : list Z -> outcome (list Z) := carry_round 64 21 i (S i).
Definition carry_f (i : nat) : list Z -> outcome (list Z) := carry_floor 64 21 i (S i).

(** The common end of the reductions, from the limbs [s0 .. s12]. *)
Definition sc_tail (s : list Z) : outcome (list Z) :=
  let* s := foldM carry_r [0; 2; 4; 6; 8; 10]%nat s in
  let* s := foldM carry_r [1; 3; 5; 7; 9; 11]%nat s in
  let* s := red 12 s in
  let s := s ++ [0] in (* s12 = 0 *)
  let* s := foldM carry_f [0; 1; 2; 3; 4; 5; 6; 7; 8; 9; 10; 11]%nat s in
  let* s := red 12 s in
  foldM carry_f [0; 1; 2; 3; 4; 5; 6; 7; 8; 9; 10]%nat s.

(** ** Storing limbs: [s[k] = (s_i >> a) | (s_j << b);] *)

Definition sc_store (s : list Z) : list Z :=
  let s0 := s !!! 0%nat in let s1 := s !!! 1%nat in let s2 := s !!! 2%nat in
  let s3 := s !!! 3%nat in let s4 := s !!! 4%nat in let s5 := s !!! 5%nat in
  let s6 := s !!! 6%nat in let s7 := s !!! 7%nat in let s8 := s !!! 8%nat in
  let s9 := s !!! 9%nat in let s10 := s !!! 10%nat in let s11 := s !!! 11%nat in
  [ u8 (Z.shiftr s0 0);
    u8 (Z.shiftr s0 8);
    u8 (Z.lor (Z.shiftr s0 16) (shl 64 s1 5));
    u8 (Z.shiftr s1 3);
    u8 (Z.shiftr s1 11);
    u8 (Z.lor (Z.shiftr s1 19) (shl 64 s2 2));
    u8 (Z.shiftr s2 6);
    u8 (Z.lor (Z.shiftr s2 14) (shl 64 s3 7));
    u8 (Z.shiftr s3 1);
    u8 (Z.shiftr s3 9);
    u8 (Z.lor (Z.shiftr s3 17) (shl 64 s4 4));
    u8 (Z.shiftr s4 4);
    u8 (Z.shiftr s4 12);
    u8 (Z.lor (Z.shiftr s4 20) (shl 64 s5 1));
    u8 (Z.shiftr s5 7);
    u8 (Z.lor (Z.shiftr s5 15) (shl 64 s6 6));
    u8 (Z.shiftr s6 2);
    u8 (Z.shiftr s6 10);
    u8 (Z.lor (Z.shiftr s6 18) (shl 64 s7 3));
    u8 (Z.shiftr s7 5);
    u8 (Z.shiftr s7 13);
    u8 (Z.shiftr s8 0);
    u8 (Z.shiftr s8 8);
    u8 (Z.lor (Z.shiftr s8 16) (shl 64 s9 5));
    u8 (Z.shiftr s9 3);
    u8 (Z.shiftr s9 11);
    u8 (Z.lor (Z.shiftr s9 19) (shl 64 s10 2));
    u8 (Z.shiftr s10 6);
    u8 (Z.lor (Z.shiftr s10 14) (shl 64 s11 7));
    u8 (Z.shiftr s11 1);
    u8 (Z.shiftr s11 9);
    u8 (Z.shiftr s11 17) ].

(** ** The functions *)

Definition sc_0 : list Z := replicate 32 0.

(** [s] is 64 bytes long; its first 32 bytes are overwritten. *)
Definition sc_reduce (s : list Z) : outcome (list Z) :=
  let* r := sc_load_24 s in
  let* r := foldM red [23; 22; 21; 20; 19; 18]%nat r in
  let* r := foldM carry_r [6; 8; 10; 12; 14; 16]%nat r in
  let* r := foldM carry_r [7; 9; 11; 13; 15]%nat r in
  let* r := foldM red [17; 16; 15; 14; 13; 12]%nat r in
  let r := r ++ [0] in (* s12 = 0 *)
  let* r := sc_tail r in
  Ret (sc_store r ++ drop 32 s).

Definition sc_reduce32 (s : list Z) : outcome (list Z) :=
  let* r := sc_load_12 s in
  let r := r ++ [0] in (* int64_t s12 = 0; *)
  let* r := sc_tail r in
  Ret (sc_store r).

(** [int64_t s_i = a_i + b_i;] limb by limb, and the same with [-]. *)
Fixpoint add_limbs (a b : list Z) : outcome (list Z) :=
  match a, b with
  | x :: a', y :: b' =>
      let* z := I64 (x + y) in let* r := add_limbs a' b' in Ret (z :: r)
  | _, _ => Ret []
  end.

Fixpoint sub_limbs (a b : list Z) : outcome (list Z) :=
  match a, b with
  | x :: a', y :: b' =>
      let* z := I64 (x - y) in let* r := sub_limbs a' b' in Ret (z :: r)
  | _, _ => Ret []
  end.

Definition sc_add (a b : list Z) : outcome (list Z) :=
  let* a := sc_load_12 a in
  let* b := sc_load_12 b in
  let* r := add_limbs a b in
  let r := r ++ [0] in (* int64_t s12 = 0; *)
  let* r := sc_tail r in
  Ret (sc_store r).

Definition sc_sub (a b : list Z) : outcome (list Z) :=
  let* a := sc_load_12 a in
  let* b := sc_load_12 b in
  let* r := sub_limbs a b in
  let r := r ++ [0] in (* int64_t s12 = 0; *)
  let* r := sc_tail r in
  Ret (sc_store r).

(** [x0*y0 + x1*y1 + ...], evaluated left to right. *)
Fixpoint dot_from (acc : Z) (xy : list (Z * Z)) : outcome Z :=
  match xy with
  | [] => Ret acc
  | (x, y) :: xy' =>
      let* p := I64 (x * y) in
      let* acc' := I64 (acc + p) in
      dot_from acc' xy'
  end.

Definition dot (xy : list (Z * Z)) : outcome Z :=
  match xy with
  | [] => Ret 0
  | (x, y) :: xy' => let* p := I64 (x * y) in dot_from p xy'
  end.

(** The factors of column [k] of the product: [a_i*b_(k-i)], [i] upwards. *)
Definition column (a b : list Z) (k : nat) : list (Z * Z) :=
  map (fun i => (a !!! i, b !!! (k - i)%nat)) (seq (k - 11) (Nat.min k 11 - (k - 11) + 1)).

(** [s_k = c_k - (a_0*b_k + ... + a_k*b_0);] for k = 0 .. 11,
    [s_k = -(a_(k-11)*b_11 + ... + a_11*b_(k-11));] for k = 12 .. 21,
    [s22 = -a11*b11; s23 = 0;] *)
Definition mulsub_limbs (a b c : list Z) : outcome (list Z) :=
  let* lo := mapM (fun k => let* d := dot (column a b k) in I64 (c !!! k - d)) (seq 0 12) in
  let* hi := mapM (fun k => let* d := dot (column a b k) in I64 (- d)) (seq 12 10) in
  let* n11 := I64 (- a !!! 11%nat) in
  let* s22 := I64 (n11 * b !!! 11%nat) in
  Ret (lo ++ hi ++ [s22; 0]).

Definition sc_mulsub (a b c : list Z) : outcome (list Z) :=
  let* a := sc_load_12 a in
  let* b := sc_load_12 b in
  let* c := sc_load_12 c in
  let* r := mulsub_limbs a b c in
  let* r := foldM carry_r [0; 2; 4; 6; 8; 10; 12; 14; 16; 18; 20; 22]%nat r in
  let* r := foldM carry_r [1; 3; 5; 7; 9; 11; 13; 15; 17; 19; 21]%nat r in
  let* r := foldM red [23; 22; 21; 20; 19; 18]%nat r in
  let* r := foldM carry_r [6; 8; 10; 12; 14; 16]%nat r in
  let* r := foldM carry_r [7; 9; 11; 13; 15]%nat r in
  let* r := foldM red [17; 16; 15; 14; 13; 12]%nat r in
  let r := r ++ [0] in (* s12 = 0 *)
  let* r := sc_tail r in
  Ret (sc_store r).

(** [(a >> 63) - ((-a) >> 63)] *)
Definition signum (a : Z) : outcome Z :=
  let* n := I64 (- a) in
  I64 (Z.shiftr a 63 - Z.shiftr n 63).

Definition sc_check (s : list Z) : outcome Z :=
  let* s0 := load 4 0 s in
  let* s1 := load 4 4 s in
  let* s2 := load 4 8 s in
  let* s3 := load 4 12 s in
  let* s4 := load 4 16 s in
  let* s5 := load 4 20 s in
  let* s6 := load 4 24 s in
  let* s7 := load 4 28 s in
  let* g0 := bind (I64 (1559614444 - s0)) signum in
  let* g1 := bind (I64 (1477600026 - s1)) signum in
  let* g2 := bind (I64 (2734136534 - s2)) signum in
  let* g3 := bind (I64 (350157278 - s3)) signum in
  let* g4 := bind (I64 (- s4)) signum in
  let* g5 := bind (I64 (- s5)) signum in
  let* g6 := bind (I64 (- s6)) signum in
  let* g7 := bind (I64 (268435456 - s7)) signum in
  let* t := I64 (g0 + shl 64 g1 1) in
  let* t := I64 (t + shl 64 g2 2) in
  let* t := I64 (t + shl 64 g3 3) in
  let* t := I64 (t + shl 64 g4 4) in
  let* t := I64 (t + shl 64 g5 5) in
  let* t := I64 (t + shl 64 g6 6) in
  let* t := I64 (t + shl 64 g7 7) in
  Ret (swrap 32 (Z.shiftr t 8)).

(** [(((int) (s[0] | ... | s[31]) - 1) >> 8) + 1] *)
Definition sc_isnonzero (s : list Z) : outcome Z :=
  let* d := I32 (foldl Z.lor (s !!! 0%nat) (map (fun i => s !!! i) (seq 1 31)) - 1) in
  I32 (Z.shiftr d 8 + 1).
