(* ===== verification/ScalarFacts.v ===== *)
(** Correctness of the scalar functions ([Scalar.v]): every function returns
    the canonical representative modulo [L], for every input, without signed
    overflow and without reading outside its arguments. *)

From S2P Require Import Prelude Limbs Bytes Scalar.

Lemma L_pos : 0 < L.
Proof. reflexivity. Qed.

Lemma wt21_nonneg i : 0 <= wt21 i.
Proof. apply Z.pow_nonneg. lia. Qed.

Lemma wt21_add i j : wt21 (i + j) = wt21 i * 2 ^ (21 * Z.of_nat j).
Proof. unfold wt21. rewrite <- Z.pow_add_r by lia. f_equal. lia. Qed.

(** ** Loads *)

(** The [w]-bit slice of [V] from bit [e] on. *)
Definition slice (w V e : Z) : Z := (V / 2 ^ e) mod 2 ^ w.

Lemma slice_bounds w V e : 0 <= w -> 0 <= slice w V e < 2 ^ w.
Proof. intros. apply Z.mod_pos_bound. apply Z.pow_pos_nonneg; lia. Qed.

(** A slice of a slice. *)
Lemma mod_div_mod x a b w :
  0 <= b -> 0 <= w -> b + w <= a -> ((x mod 2 ^ a) / 2 ^ b) mod 2 ^ w = (x / 2 ^ b) mod 2 ^ w.
Proof.
  intros Hb Hw Ha.
  assert (0 < 2 ^ b) by (apply Z.pow_pos_nonneg; lia).
  assert (0 < 2 ^ w) by (apply Z.pow_pos_nonneg; lia).
  assert (0 < 2 ^ (a - b - w)) by (apply Z.pow_pos_nonneg; lia).
  pose proof (Z.div_mod x (2 ^ a) ltac:(apply Z.pow_nonzero; lia)) as E.
  set (q := x / 2 ^ a) in *. set (r := x mod 2 ^ a) in *.
  assert (2 ^ a = 2 ^ b * (2 ^ w * 2 ^ (a - b - w))) as Ea
    by (rewrite <- !Z.pow_add_r by lia; f_equal; lia).
  assert (x = r + (q * 2 ^ (a - b - w) * 2 ^ w) * 2 ^ b) as Ex by (rewrite Ea in E; rewrite E; ring).
  rewrite Ex, Z.div_add, Z.mod_add by lia. done.
Qed.

Lemma load21_spec s n off sh :
  bytes s -> (n = 3 \/ n = 4)%nat -> (off + n <= length s)%nat -> 0 <= sh -> sh + 21 <= 8 * Z.of_nat n ->
  load21 s (n, off, sh) = Ret (slice 21 (le_val s) (8 * Z.of_nat off + sh)).
Proof.
  intros Hs Hn Hl Hsh H. unfold load21. rewrite load_spec by done. cbn [bind]. f_equal.
  change 2097151 with (2 ^ 21 - 1). rewrite land_mask, Z.shiftr_div_pow2 by lia.
  rewrite mod_div_mod by lia. unfold slice.
  rewrite Z.pow_add_r, Z.div_div by (try apply Z.pow_pos_nonneg; try apply Z.pow_nonzero; lia). done.
Qed.

Definition good_load (len : nat) (e : nat * nat * Z) : bool :=
  let '(n, off, sh) := e in
  ((n =? 3) || (n =? 4))%nat && (off + n <=? len)%nat && (0 <=? sh) && (sh + 21 <=? 8 * Z.of_nat n).

Lemma loads_spec s tbl :
  bytes s -> forallb (good_load (length s)) tbl = true ->
  mapM (load21 s) tbl =
  Ret (map (slice 21 (le_val s)) (map (fun '(n, off, sh) => 8 * Z.of_nat off + sh) tbl)).
Proof.
  intros Hs Ht. rewrite map_map. rewrite forallb_forall in Ht.
  rewrite (mapM_map _ (fun e => slice 21 (le_val s) (let '(n, off, sh) := e in 8 * Z.of_nat off + sh))).
  - reflexivity.
  - intros [[n off] sh] Hin. apply list_elem_of_In in Hin. apply Ht in Hin. simpl in Hin.
    rewrite !andb_true_iff, orb_true_iff, !Nat.eqb_eq, Nat.leb_le, !Z.leb_le in Hin.
    apply load21_spec; tauto.
Qed.

(** The limbs of a number: [n] limbs of 21 bits, and the rest in the last. *)
Definition limbs21 (n : nat) (V : Z) : list Z :=
  map (slice 21 V) (map (fun i => 21 * Z.of_nat i) (seq 0 n)) ++ [V / 2 ^ (21 * Z.of_nat n)].

Lemma load_last n off sh s :
  bytes s -> (off + 4 = length s)%nat -> 0 <= sh -> n = 8 * Z.of_nat off + sh ->
  (let* hi := load 4 off s in Ret (Z.shiftr hi sh)) = Ret (le_val s / 2 ^ n).
Proof.
  intros Hs Hl Hsh ->. rewrite load_spec by (auto; lia). cbn [bind]. f_equal.
  pose proof (le_val_bound _ Hs) as Hb.
  rewrite Z.mod_small.
  - rewrite Z.shiftr_div_pow2, Z.div_div, <- Z.pow_add_r by
      (try apply Z.pow_pos_nonneg; try apply Z.pow_nonzero; lia). done.
  - split; [apply Z.div_pos; [lia|apply Z.pow_pos_nonneg; lia]|].
    apply Z.div_lt_upper_bound; [apply Z.pow_pos_nonneg; lia|].
    rewrite <- Z.pow_add_r by lia. replace (8 * Z.of_nat off + 8 * Z.of_nat 4) with (8 * Z.of_nat (length s)); lia.
Qed.

Lemma sc_load_12_spec s : bytes s -> length s = 32%nat -> sc_load_12 s = Ret (limbs21 11 (le_val s)).
Proof.
  intros Hs Hl. unfold sc_load_12. rewrite loads_spec by (rewrite ?Hl; done). cbn [bind].
  pose proof (load_last 231 28 7 s Hs ltac:(lia) ltac:(lia) ltac:(lia)) as E.
  destruct (load 4 28 s) as [hi|]; cbn [bind] in *; [|done]. injection E as ->. done.
Qed.

Lemma sc_load_24_spec s : bytes s -> length s = 64%nat -> sc_load_24 s = Ret (limbs21 23 (le_val s)).
Proof.
  intros Hs Hl. unfold sc_load_24. rewrite loads_spec by (rewrite ?Hl; done). cbn [bind].
  pose proof (load_last 483 60 3 s Hs ltac:(lia) ltac:(lia) ltac:(lia)) as E.
  destruct (load 4 60 s) as [hi|]; cbn [bind] in *; [|done]. injection E as ->. done.
Qed.

Lemma eval_slices V k n :
  eval wt21 k (map (slice 21 V) (map (fun i => 21 * Z.of_nat i) (seq k n))) +
  wt21 (k + n) * (V / wt21 (k + n)) = wt21 k * (V / wt21 k).
Proof.
  revert k. induction n as [|n IH]; intros k; simpl.
  - rewrite Nat.add_0_r. lia.
  - specialize (IH (S k)). rewrite Nat.add_succ_r. rewrite Nat.add_succ_l in IH.
    rewrite <- Z.add_assoc, IH. replace (S k) with (k + 1)%nat by lia. rewrite wt21_add.
    unfold slice. change (21 * Z.of_nat 1) with 21. change (2 ^ (21 * Z.of_nat k)) with (wt21 k).
    assert (0 < wt21 k) by (apply Z.pow_pos_nonneg; lia).
    rewrite <- Z.div_div by lia. pose proof (Z.div_mod (V / wt21 k) (2 ^ 21)). lia.
Qed.

Lemma eval_limbs21 n V : eval wt21 0 (limbs21 n V) = V.
Proof.
  unfold limbs21. rewrite eval_app. rewrite !length_map, length_seq. simpl eval at 2.
  pose proof (eval_slices V 0 n) as E. simpl plus in *.
  change (2 ^ (21 * Z.of_nat n)) with (wt21 n).
  change (wt21 0) with 1 in E. rewrite Z.div_1_r in E. lia.
Qed.

Definition limbs21_b (n : nat) (hi : Z) : list itv := replicate n (0, 2 ^ 21 - 1) ++ [(0, hi)].

Lemma slices_within V es :
  within (replicate (length es) (0, 2 ^ 21 - 1)) (map (slice 21 V) es).
Proof.
  induction es as [|e es IH]; simpl; constructor; [|exact IH].
  pose proof (slice_bounds 21 V e). unfold inside. simpl. lia.
Qed.

Lemma limbs21_within n V hi :
  0 <= V < (hi + 1) * 2 ^ (21 * Z.of_nat n) -> within (limbs21_b n hi) (limbs21 n V).
Proof.
  intros HV. assert (0 < 2 ^ (21 * Z.of_nat n)) by (apply Z.pow_pos_nonneg; lia).
  unfold limbs21, limbs21_b. apply Forall2_app.
  - pose proof (slices_within V (map (fun i => 21 * Z.of_nat i) (seq 0 n))) as H1.
    rewrite length_map, length_seq in H1. exact H1.
  - constructor; [|constructor]. split; simpl.
    + apply Z.div_pos; lia.
    + apply Z.lt_succ_r. apply Z.div_lt_upper_bound; lia.
Qed.

(** ** Eliminating the top limb *)

Definition addmul_b (i k : nat) (c : Z) (B : list itv) : option (list itv) :=
  let m := scale_itv c (B !!! k) in
  let x := add_itv (B !!! i) m in
  if fits 64 m && fits 64 x && (0 <=? c) && (i <? length B)%nat && (k <? length B)%nat
  then Some (<[i := x]> B) else None.

Definition submul_b (i k : nat) (c : Z) (B : list itv) : option (list itv) :=
  let m := scale_itv c (B !!! k) in
  let x := add_itv (B !!! i) (- m.2, - m.1) in
  if fits 64 m && fits 64 x && (0 <=? c) && (i <? length B)%nat && (k <? length B)%nat
  then Some (<[i := x]> B) else None.

Lemma addmul_sound i k c B B' s :
  addmul_b i k c B = Some B' -> within B s ->
  addmul i k c s = Ret (<[i := s !!! i + s !!! k * c]> s) /\
  within B' (<[i := s !!! i + s !!! k * c]> s) /\ (i < length s)%nat.
Proof.
  unfold addmul_b, addmul. intros Hb H. destruct (_ && _) eqn:E in Hb; [|done]. injection Hb as <-.
  rewrite !andb_true_iff, !Nat.ltb_lt, Z.leb_le in E. destruct E as ((((Fm & Fx) & Hc) & Hi) & Hk).
  rewrite <- (within_length _ _ H) in Hi, Hk.
  pose proof (scale_inside _ _ _ Hc (within_lookup _ _ _ H Hk)) as Bm.
  pose proof (add_inside _ _ _ _ (within_lookup _ _ _ H Hi) Bm) as Bx.
  rewrite (fits_inside _ _ _ Fm Bm). cbn [bind]. rewrite (fits_inside _ _ _ Fx Bx).
  auto using within_insert.
Qed.

Lemma submul_sound i k c B B' s :
  submul_b i k c B = Some B' -> within B s ->
  submul i k c s = Ret (<[i := s !!! i - s !!! k * c]> s) /\
  within B' (<[i := s !!! i - s !!! k * c]> s) /\ (i < length s)%nat.
Proof.
  unfold submul_b, submul. intros Hb H. destruct (_ && _) eqn:E in Hb; [|done]. injection Hb as <-.
  rewrite !andb_true_iff, !Nat.ltb_lt, Z.leb_le in E. destruct E as ((((Fm & Fx) & Hc) & Hi) & Hk).
  rewrite <- (within_length _ _ H) in Hi, Hk.
  pose proof (scale_inside _ _ _ Hc (within_lookup _ _ _ H Hk)) as Bm.
  assert (inside (add_itv (B !!! i) (- (scale_itv c (B !!! k)).2, - (scale_itv c (B !!! k)).1))
            (s !!! i - s !!! k * c)) as Bx.
  { rewrite <- Z.add_opp_r. apply add_inside; [exact (within_lookup _ _ _ H Hi)|].
    unfold inside in *. simpl in *. lia. }
  rewrite (fits_inside _ _ _ Fm Bm). cbn [bind]. rewrite (fits_inside _ _ _ Fx Bx).
  auto using within_insert.
Qed.

Definition red_b (k : nat) (B : list itv) : option (list itv) :=
  if (12 <=? k)%nat && (length B =? S k)%nat then
    take k <$>
    seq_b (addmul_b (k - 12) k 666643) (seq_b (addmul_b (k - 11) k 470296)
    (seq_b (addmul_b (k - 10) k 654183) (seq_b (submul_b (k - 9) k 997805)
    (seq_b (addmul_b (k - 8) k 136657) (submul_b (k - 7) k 683901))))) B
  else None.

Lemma within_take n B s : within B s -> within (take n B) (take n s).
Proof. apply Forall2_take. Qed.

Lemma seq_b_inv f g B B' : seq_b f g B = Some B' -> exists B1, f B = Some B1 /\ g B1 = Some B'.
Proof. unfold seq_b. destruct (f B) as [B1|]; [eauto|done]. Qed.

(** The six coefficients are the digits of [2^252 - L] in base [2^21]. *)
Lemma L_digits :
  666643 + 470296 * 2 ^ 21 + 654183 * 2 ^ 42 - 997805 * 2 ^ 63 + 136657 * 2 ^ 84 - 683901 * 2 ^ 105
  - 2 ^ 252 = - L.
Proof. reflexivity. Qed.

Lemma eval_take_last s k :
  length s = S k -> eval wt21 0 (take k s) = eval wt21 0 s - wt21 k * s !!! k.
Proof.
  intros Hl. rewrite <- (take_drop k s) at 2. rewrite eval_app, length_take, Hl.
  replace (k `min` S k)%nat with k by lia.
  destruct (drop k s) as [|x [|y r]] eqn:E.
  - apply (f_equal length) in E. rewrite length_drop in E. simpl in E. lia.
  - replace (s !!! k) with x; [simpl; lia|].
    rewrite <- (take_drop k s) at 1. rewrite E.
    rewrite lookup_total_app_r by (rewrite length_take; lia).
    rewrite length_take, Hl. replace (k - k `min` S k)%nat with 0%nat by lia. done.
  - apply (f_equal length) in E. rewrite length_drop in E. simpl in E. lia.
Qed.

Lemma red_exact k B B' s :
  red_b k B = Some B' -> within B s ->
  yields (red k s) (fun s' => within B' s' /\
    eval wt21 0 s' = eval wt21 0 s - L * (wt21 (k - 12) * s !!! k)).
Proof.
  intros Hb Hs. unfold red_b in Hb.
  destruct (_ && _) eqn:E in Hb; [|done].
  apply andb_true_iff in E as [Hk%Nat.leb_le Hlen%Nat.eqb_eq].
  rewrite <- (within_length _ _ Hs) in Hlen.
  apply fmap_Some in Hb as (B6 & Hb & ->).
  repeat (apply seq_b_inv in Hb as (? & ? & Hb)).
  unfold red.
  repeat match goal with
  | Hb : addmul_b ?i ?k ?c ?B = Some _, Hw : within ?B ?s |- context [addmul ?i ?k ?c ?s] =>
      destruct (addmul_sound _ _ _ _ _ _ Hb Hw) as (-> & ? & ?); clear Hb Hw; cbn [bind]
  | Hb : submul_b ?i ?k ?c ?B = Some _, Hw : within ?B ?s |- context [submul ?i ?k ?c ?s] =>
      destruct (submul_sound _ _ _ _ _ _ Hb Hw) as (-> & ? & ?); clear Hb Hw; cbn [bind]
  end.
  apply yields_ret. split; [by apply within_take|].
  rewrite !length_insert in *.
  rewrite eval_take_last by (rewrite !length_insert; done).
  rewrite !eval_insert by (rewrite ?length_insert; done).
  rewrite !list_lookup_total_insert_ne by lia. rewrite !Nat.add_0_l.
  replace (wt21 (k - 11)) with (wt21 (k - 12) * 2 ^ 21) by (rewrite <- (wt21_add _ 1); f_equal; lia).
  replace (wt21 (k - 10)) with (wt21 (k - 12) * 2 ^ 42) by (rewrite <- (wt21_add _ 2); f_equal; lia).
  replace (wt21 (k - 9)) with (wt21 (k - 12) * 2 ^ 63) by (rewrite <- (wt21_add _ 3); f_equal; lia).
  replace (wt21 (k - 8)) with (wt21 (k - 12) * 2 ^ 84) by (rewrite <- (wt21_add _ 4); f_equal; lia).
  replace (wt21 (k - 7)) with (wt21 (k - 12) * 2 ^ 105) by (rewrite <- (wt21_add _ 5); f_equal; lia).
  replace (wt21 k) with (wt21 (k - 12) * 2 ^ 252) by (rewrite <- (wt21_add _ 12); f_equal; lia).
  pose proof L_digits. nia.
Qed.

#[global] Instance red_bounded k : BoundedStep (same_mod wt21 L) (red k) (red_b k).
Proof.
  intros B B' s Hb Hs. eapply yields_mono; [eapply red_exact; eassumption|].
  intros s' [Hw E]. split; [done|]. exists (- (wt21 (k - 12) * s !!! k)). lia.
Qed.

Definition carry_r_b (M : Z) (i : nat) : list itv -> option (list itv) :=
  carry_bw wt21 M 64 21 (2 ^ 20) 1 i (S i).
Definition carry_f_b (M : Z) (i : nat) : list itv -> option (list itv) :=
  carry_bw wt21 M 64 21 0 1 i (S i).

#[global] Instance carry_r_bounded M i : BoundedStep (same_mod wt21 M) (carry_r i) (carry_r_b M i).
Proof. exact (carry_round_bounded wt21 M 64 21 i (S i)). Qed.
#[global] Instance carry_f_bounded M i : BoundedStep (same_mod wt21 M) (carry_f i) (carry_f_b M i).
Proof. exact (carry_floor_bounded wt21 M 64 21 i (S i)). Qed.

(** ** The common end of the reductions *)

Definition tail1_b : list itv -> option (list itv) :=
  seq_b (fold_b (carry_r_b L) [0; 2; 4; 6; 8; 10]%nat)
  (seq_b (fold_b (carry_r_b L) [1; 3; 5; 7; 9; 11]%nat) (red_b 12)).
Definition tail2_b : list itv -> option (list itv) :=
  fold_b (carry_f_b 0) [0; 1; 2; 3; 4; 5; 6; 7; 8; 9; 10; 11]%nat.
Definition tail3_b : list itv -> option (list itv) :=
  fold_b (carry_f_b 0) [0; 1; 2; 3; 4; 5; 6; 7; 8; 9; 10]%nat.

Definition itv_eqb (a b : itv) : bool := (a.1 =? b.1) && (a.2 =? b.2).

(** The bounds under which the end of the reduction is exact: after its first
    half the number lies in [-2^252, 2^252). *)
Definition tail_ok (B : list itv) : bool :=
  match tail1_b B with
  | None => false
  | Some B1 =>
      let B1 := B1 ++ [(0, 0)] in
      (- 2 ^ 252 <=? eval_lo wt21 0 B1) && (eval_hi wt21 0 B1 <? 2 ^ 252) &&
      match tail2_b B1 with
      | None => false
      | Some B2 =>
          subsumes B2 (replicate 12 (0, 2 ^ 21 - 1) ++ [(- 2 ^ 42, 2 ^ 42)]) &&
          match red_b 12 B2 with
          | None => false
          | Some B3 =>
              match tail3_b B3 with
              | None => false
              | Some B4 => subsumes B4 (replicate 11 (0, 2 ^ 21 - 1) ++ [(- 2 ^ 42, 2 ^ 42)])
              end
          end
      end
  end.

(** A number in 21-bit limbs whose lower [n] limbs are canonical. *)
Lemma eval_top n s t :
  within (replicate n (0, 2 ^ 21 - 1) ++ [t]) s ->
  exists lo top, s = lo ++ [top] /\ length lo = n /\ within (replicate n (0, 2 ^ 21 - 1)) lo /\
    0 <= eval wt21 0 lo < wt21 n /\ eval wt21 0 s = eval wt21 0 lo + wt21 n * top.
Proof.
  intros H. apply Forall2_app_inv_l in H as (lo & hi & Hlo & Hhi & ->).
  inversion Hhi as [|? top ? ? Ht Hnil]; subst. inversion Hnil; subst.
  exists lo, top. pose proof (within_length _ _ Hlo) as Hl. rewrite length_replicate in Hl.
  split; [done|]. split; [done|]. split; [done|]. split.
  - pose proof (eval_within wt21 0 _ _ wt21_nonneg Hlo) as E. clear - E Hl.
    enough (forall k, eval_lo wt21 k (replicate n (0, 2 ^ 21 - 1)) = 0 /\
                 eval_hi wt21 k (replicate n (0, 2 ^ 21 - 1)) = wt21 (k + n) - wt21 k) as H.
    { destruct (H 0%nat) as [H1 H2]. rewrite H1, H2 in E. change (wt21 0) with 1 in E.
      rewrite Nat.add_0_l in E. lia. }
    clear. unfold eval_lo, eval_hi. induction n as [|n IH]; intros k; simpl.
    + rewrite Nat.add_0_r. lia.
    + destruct (IH (S k)) as [-> ->]. replace (k + S n)%nat with (S k + n)%nat by lia.
      replace (S k) with (k + 1)%nat at 2 by lia. rewrite (wt21_add k 1).
      change (2 ^ (21 * Z.of_nat 1)) with (2 ^ 21). lia.
  - rewrite eval_app, Hl. simpl. lia.
Qed.

(** Fully reduced limbs: eleven 21-bit limbs and a last one that may hold
    [2^21] (the numbers in [2^252, L)). *)
Definition reduced_b : list itv := replicate 11 (0, 2 ^ 21 - 1) ++ [(0, 2 ^ 21)].

Lemma mod_between x m U :
  - m <= U < m -> m < x -> (if U <? 0 then U + x else U) = U mod x.
Proof.
  intros HU Hx. destruct (Z.ltb_spec U 0).
  - rewrite <- (Z.mod_small (U + x) x) by lia. rewrite <- (Z_mod_plus_full U 1 x). f_equal. lia.
  - symmetry. apply Z.mod_small. lia.
Qed.

(** The last elimination makes the number canonical. *)
Lemma sc_tail_end B2 s U :
  subsumes B2 (replicate 12 (0, 2 ^ 21 - 1) ++ [(- 2 ^ 42, 2 ^ 42)]) = true ->
  within B2 s -> eval wt21 0 s = U -> - 2 ^ 252 <= U < 2 ^ 252 ->
  U - L * (wt21 (12 - 12) * s !!! 12%nat) = U mod L.
Proof.
  intros Hsub Hs E HU. pose proof (subsumes_sound _ _ _ Hsub Hs) as Hs'.
  destruct (eval_top 12 s _ Hs') as (lo & top & -> & Hl & _ & Hlo & Ev).
  rewrite lookup_total_app_r by lia. rewrite Hl. simpl lookup_total.
  change (wt21 (12 - 12)) with 1. change (wt21 12) with (2 ^ 252) in *.
  rewrite <- (mod_between L (2 ^ 252)) by (done || lia).
  destruct (Z.ltb_spec U 0); [assert (top = -1) as -> by lia | assert (top = 0) as -> by lia]; lia.
Qed.

Lemma sc_tail_spec B s :
  tail_ok B = true -> within B s ->
  yields (sc_tail s) (fun r => within reduced_b r /\ eval wt21 0 r = eval wt21 0 s mod L).
Proof.
  unfold tail_ok, sc_tail. intros Hok Hs.
  destruct (tail1_b B) as [B1|] eqn:E1; [|done].
  rewrite !andb_true_iff, Z.leb_le, Z.ltb_lt in Hok. destruct Hok as ((Hlo & Hhi) & Hok).
  destruct (tail2_b (B1 ++ [(0, 0)])) as [B2|] eqn:E2; [|done].
  apply andb_true_iff in Hok as [Hsub Hok].
  destruct (red_b 12 B2) as [B3|] eqn:E3; [|done].
  destruct (tail3_b B3) as [B4|] eqn:E4; [|done].
  apply seq_b_inv in E1 as (Ba & Ea & Eb). apply seq_b_inv in Eb as (Bb & Eb & Ec).
  eapply yields_bind; [exact (bounded_step (R:=same_mod wt21 L) _ _ _ Ea Hs)|]. intros s1 [W1 M1].
  eapply yields_bind; [exact (bounded_step (R:=same_mod wt21 L) _ _ _ Eb W1)|]. intros s2 [W2 M2].
  eapply yields_bind; [exact (bounded_step (R:=same_mod wt21 L) _ _ _ Ec W2)|]. intros s3 [W3 M3].
  assert (within (B1 ++ [(0, 0)]) (s3 ++ [0])) as W3'
    by (apply Forall2_app; [done|repeat constructor; simpl; lia]).
  pose proof (eval_within wt21 0 _ _ wt21_nonneg W3') as HU.
  eapply yields_bind; [exact (bounded_step (R:=same_mod wt21 0) _ _ _ E2 W3')|]. intros s4 [W4 [k4 M4]].
  eapply yields_bind; [exact (red_exact _ _ _ _ E3 W4)|]. intros s5 [W5 M5].
  eapply yields_mono; [exact (bounded_step (R:=same_mod wt21 0) _ _ _ E4 W5)|]. intros s6 [W6 [k6 M6]].
  assert (eval wt21 0 s6 = eval wt21 0 s mod L) as Ev.
  { rewrite Z.mul_0_l, Z.add_0_r in M4, M6. rewrite M6, M5.
    rewrite (sc_tail_end B2 s4 _ Hsub W4 eq_refl) by
      (rewrite M4; destruct HU; split; [etransitivity; eassumption | eapply Z.le_lt_trans; eassumption]).
    rewrite M4, eval_app. simpl eval at 2. rewrite Z.mul_0_r, !Z.add_0_r.
    rewrite (same_mod_eqm _ _ _ _ M3), (same_mod_eqm _ _ _ _ M2), (same_mod_eqm _ _ _ _ M1). done. }
  split; [|exact Ev].
  pose proof (subsumes_sound _ _ _ Hok W6) as W6'.
  destruct (eval_top 11 s6 _ W6') as (lo & top & -> & Hl & Hw6 & Hlo6 & Ev6).
  apply Forall2_app; [done|]. repeat constructor; simpl;
    pose proof (Z.mod_pos_bound (eval wt21 0 s) L L_pos);
    change (wt21 11) with (2 ^ 231) in *; unfold L in *; lia.
Qed.

(** ** Storing *)

Lemma sc_store_bytes r : bytes (sc_store r).
Proof. unfold sc_store. repeat constructor; try apply u8_byte. Qed.

Lemma sc_store_val r : within reduced_b r -> le_val (sc_store r) = eval wt21 0 r.
Proof.
  intros H. unfold within, reduced_b in H. simpl in H. 
  limb H s0. limb H s1. limb H s2. limb H s3. limb H s4. limb H s5. limb H s6. limb H s7.
  limb H s8. limb H s9. limb H s10. limb H s11. inversion H; subst.
  unfold inside in *. cbn [fst snd] in *.
  unfold sc_store. cbn [lookup_total list_lookup_total].
  rewrite !u8_spec by lia. rewrite !u8_lor_spec by lia.
  pose proof (cut_1 s0 8 16 ltac:(done) eq_refl).
  pose proof (cut_2 s1 3 11 19 ltac:(done) eq_refl eq_refl).
  pose proof (cut_1 s2 6 14 ltac:(done) eq_refl).
  pose proof (cut_2 s3 1 9 17 ltac:(done) eq_refl eq_refl).
  pose proof (cut_2 s4 4 12 20 ltac:(done) eq_refl eq_refl).
  pose proof (cut_1 s5 7 15 ltac:(done) eq_refl).
  pose proof (cut_2 s6 2 10 18 ltac:(done) eq_refl eq_refl).
  pose proof (cut_1 s7 5 13 ltac:(done) eq_refl).
  pose proof (cut_1 s8 8 16 ltac:(done) eq_refl).
  pose proof (cut_2 s9 3 11 19 ltac:(done) eq_refl eq_refl).
  pose proof (cut_1 s10 6 14 ltac:(done) eq_refl).
  pose proof (cut_2 s11 1 9 17 ltac:(done) eq_refl eq_refl).
  simpl le_val. simpl eval. unfold wt21.
  rewrite (Z.mod_small (s11 / 2 ^ 17)) by
    (split; [apply Z.div_pos | apply Z.div_lt_upper_bound]; lia).
  rewrite (Z.mod_small (s7 / 2 ^ 13)) by
    (split; [apply Z.div_pos | apply Z.div_lt_upper_bound]; lia).
  change (2 ^ 0) with 1. rewrite !Z.div_1_r. pow_consts. lia.
Qed.

Lemma sc_store_spec r V :
  within reduced_b r -> eval wt21 0 r = V mod L -> sc_store r = le_bytes 32 (V mod L).
Proof.
  intros Hr E. apply le_val_inj.
  - apply sc_store_bytes.
  - apply bytes_le_bytes.
  - rewrite length_le_bytes. reflexivity.
  - rewrite sc_store_val, le_val_le_bytes, E by done. symmetry. apply Z.mod_small.
    pose proof (Z.mod_pos_bound V L L_pos). unfold L in *. simpl Z.of_nat. lia.
Qed.

(** The end of every function: reduce the limbs [s0 .. s12], store. *)
Lemma sc_finish B r V (k : list Z -> list Z) :
  tail_ok B = true -> within B r -> eval wt21 0 r mod L = V mod L ->
  (let* r := sc_tail r in Ret (k (sc_store r))) = Ret (k (le_bytes 32 (V mod L))).
Proof.
  intros Hok Hr E. destruct (sc_tail_spec _ _ Hok Hr) as (r' & -> & Hr' & E'). cbn [bind].
  rewrite (sc_store_spec r' V) by congruence. done.
Qed.

Lemma eval_snoc_0 s : eval wt21 0 (s ++ [0]) = eval wt21 0 s.
Proof. rewrite eval_app. simpl. lia. Qed.

Lemma within_snoc_0 B s : within B s -> within (B ++ [(0, 0)]) (s ++ [0]).
Proof. intros. apply Forall2_app; [done|]. repeat constructor; simpl; lia. Qed.

(** ** 64-byte reduction *)

(** The bounds of the limbs along the long reductions, from the limbs
    [s0 .. s23] to the point where [s12 = 0] is set. *)
Definition reduce_b : list itv -> option (list itv) :=
  seq_b (fold_b red_b [23; 22; 21; 20; 19; 18]%nat)
  (seq_b (fold_b (carry_r_b L) [6; 8; 10; 12; 14; 16]%nat)
  (seq_b (fold_b (carry_r_b L) [7; 9; 11; 13; 15]%nat)
         (fold_b red_b [17; 16; 15; 14; 13; 12]%nat))).

Definition reduce_ok (B : list itv) : bool :=
  match reduce_b B with Some B' => tail_ok (B' ++ [(0, 0)]) | None => false end.

Lemma reduce_finish B r V (k : list Z -> list Z) :
  reduce_ok B = true -> within B r -> eval wt21 0 r mod L = V mod L ->
  (let* r := foldM red [23; 22; 21; 20; 19; 18]%nat r in
   let* r := foldM carry_r [6; 8; 10; 12; 14; 16]%nat r in
   let* r := foldM carry_r [7; 9; 11; 13; 15]%nat r in
   let* r := foldM red [17; 16; 15; 14; 13; 12]%nat r in
   let r := r ++ [0] in
   let* r := sc_tail r in
   Ret (k (sc_store r))) = Ret (k (le_bytes 32 (V mod L))).
Proof.
  unfold reduce_ok. intros Hok Hr E. destruct (reduce_b B) as [B'|] eqn:Eb; [|done].
  apply seq_b_inv in Eb as (B1 & E1 & Eb). apply seq_b_inv in Eb as (B2 & E2 & Eb).
  apply seq_b_inv in Eb as (B3 & E3 & E4).
  destruct (bounded_step (R:=same_mod wt21 L) _ _ _ E1 Hr) as (r1 & -> & W1 & M1). cbn [bind].
  destruct (bounded_step (R:=same_mod wt21 L) _ _ _ E2 W1) as (r2 & -> & W2 & M2). cbn [bind].
  destruct (bounded_step (R:=same_mod wt21 L) _ _ _ E3 W2) as (r3 & -> & W3 & M3). cbn [bind].
  destruct (bounded_step (R:=same_mod wt21 L) _ _ _ E4 W3) as (r4 & -> & W4 & M4). cbn [bind].
  cbv zeta. eapply sc_finish; [exact Hok|by apply within_snoc_0|].
  rewrite eval_snoc_0, (same_mod_eqm _ _ _ _ M4), (same_mod_eqm _ _ _ _ M3),
    (same_mod_eqm _ _ _ _ M2), (same_mod_eqm _ _ _ _ M1). exact E.
Qed.

(** C31: for every 64-byte string, [sc_reduce] overwrites the first 32 bytes with the little-endian
    encoding of its value modulo the group order (the canonical representative), with no
    signed overflow and no access outside the buffer. *)
Theorem sc_reduce_correct s :
  bytes s -> length s = 64%nat ->
  sc_reduce s = Ret (le_bytes 32 (le_val s mod L) ++ drop 32 s).
Proof.
  intros Hs Hl. unfold sc_reduce. rewrite sc_load_24_spec by done. cbn [bind].
  apply (reduce_finish (limbs21_b 23 (2 ^ 29 - 1)) _ _ (fun b => b ++ drop 32 s)).
  - vm_compute. reflexivity.
  - apply limbs21_within. pose proof (le_val_bound _ Hs) as Hb. rewrite Hl in Hb.
    simpl Z.of_nat in *. lia.
  - rewrite eval_limbs21. done.
Qed.

Lemma sc_reduce_correct_witness :
  sc_reduce (replicate 64 255) = Ret (le_bytes 32 (le_val (replicate 64 255) mod L) ++ replicate 32 255).
Proof. apply (sc_reduce_correct (replicate 64 255)); [apply bytesb_true|]; reflexivity. Defined.

(** ** 32-byte functions *)

Lemma limbs_32 a :
  bytes a -> length a = 32%nat -> within (limbs21_b 11 (2 ^ 25 - 1)) (limbs21 11 (le_val a)).
Proof.
  intros Ha Hl. apply limbs21_within. pose proof (le_val_bound _ Ha) as Hb. rewrite Hl in Hb.
  simpl Z.of_nat in *. lia.
Qed.

(** [sc_reduce32] replaces any 32-byte string by the canonical encoding of its value
    modulo the group order, without overflow. *)
Theorem sc_reduce32_correct s :
  bytes s -> length s = 32%nat -> sc_reduce32 s = Ret (le_bytes 32 (le_val s mod L)).
Proof.
  intros Hs Hl. unfold sc_reduce32. rewrite sc_load_12_spec by done. cbn [bind]. cbv zeta.
  apply (sc_finish (limbs21_b 11 (2 ^ 25 - 1) ++ [(0, 0)]) _ _ (fun b => b)).
  - vm_compute. reflexivity.
  - by apply within_snoc_0, limbs_32.
  - rewrite eval_snoc_0, eval_limbs21. done.
Qed.

Lemma sc_reduce32_correct_witness :
  sc_reduce32 (replicate 32 255) = Ret (le_bytes 32 (le_val (replicate 32 255) mod L)).
Proof. apply (sc_reduce32_correct (replicate 32 255)); [apply bytesb_true|]; reflexivity. Defined.

(** Limbwise addition and subtraction. *)
Lemma add_limbs_spec Ba Bb a b k :
  within Ba a -> within Bb b -> length a = length b ->
  forallb (fun '(x, y) => fits 64 (add_itv x y)) (zip Ba Bb) = true ->
  exists r, add_limbs a b = Ret r /\ within (zip_with add_itv Ba Bb) r /\
       eval wt21 k r = eval wt21 k a + eval wt21 k b.
Proof.
  intros Ha. revert Bb b k. induction Ha as [|x u Ba a Hx Ha IH]; intros Bb b k Hb Hl Hf.
  - destruct b; [|done]. inversion Hb; subst. exists []. repeat split; constructor.
  - destruct Hb as [|y v Bb b Hy Hb]; [done|]. simpl in Hl, Hf.
    apply andb_true_iff in Hf as [Hf1 Hf2].
    destruct (IH Bb b (S k) Hb ltac:(lia) Hf2) as (r & Er & Wr & Vr).
    pose proof (add_inside _ _ _ _ Hx Hy) as Hxy. exists ((u + v) :: r). simpl.
    rewrite (fits_inside _ _ _ Hf1 Hxy). cbn [bind]. rewrite Er. cbn [bind].
    split; [done|]. split; [by constructor|]. rewrite Vr. lia.
Qed.

Definition sub_itv (a b : itv) : itv := (a.1 - b.2, a.2 - b.1).

Lemma sub_limbs_spec Ba Bb a b k :
  within Ba a -> within Bb b -> length a = length b ->
  forallb (fun '(x, y) => fits 64 (sub_itv x y)) (zip Ba Bb) = true ->
  exists r, sub_limbs a b = Ret r /\ within (zip_with sub_itv Ba Bb) r /\
       eval wt21 k r = eval wt21 k a - eval wt21 k b.
Proof.
  intros Ha. revert Bb b k. induction Ha as [|x u Ba a Hx Ha IH]; intros Bb b k Hb Hl Hf.
  - destruct b; [|done]. inversion Hb; subst. exists []. repeat split; constructor.
  - destruct Hb as [|y v Bb b Hy Hb]; [done|]. simpl in Hl, Hf.
    apply andb_true_iff in Hf as [Hf1 Hf2].
    destruct (IH Bb b (S k) Hb ltac:(lia) Hf2) as (r & Er & Wr & Vr).
    assert (inside (sub_itv x y) (u - v)) as Hxy by (unfold inside, sub_itv in *; simpl in *; lia).
    exists ((u - v) :: r). simpl.
    rewrite (fits_inside _ _ _ Hf1 Hxy). cbn [bind]. rewrite Er. cbn [bind].
    split; [done|]. split; [by constructor|]. rewrite Vr. lia.
Qed.

(** [sc_add] returns the canonical encoding of [a + b] modulo the group order, for all
    32-byte strings [a] and [b] (reduced or not). *)
Theorem sc_add_correct a b :
  bytes a -> length a = 32%nat -> bytes b -> length b = 32%nat ->
  sc_add a b = Ret (le_bytes 32 ((le_val a + le_val b) mod L)).
Proof.
  intros Ha La Hb Lb. unfold sc_add. rewrite !sc_load_12_spec by done. cbn [bind].
  destruct (add_limbs_spec _ _ _ _ 0 (limbs_32 a Ha La) (limbs_32 b Hb Lb) eq_refl eq_refl)
    as (r & -> & Wr & Er). cbn [bind]. cbv zeta.
  eapply (sc_finish (_ ++ [(0, 0)]) _ _ (fun b => b)); [|apply within_snoc_0; exact Wr|].
  - vm_compute. reflexivity.
  - rewrite eval_snoc_0, Er, !eval_limbs21. done.
Qed.

Lemma sc_add_correct_witness :
  sc_add (replicate 32 255) (replicate 32 7) =
  Ret (le_bytes 32 ((le_val (replicate 32 255) + le_val (replicate 32 7)) mod L)).
Proof. apply sc_add_correct; try apply bytesb_true; reflexivity. Defined.

(** [sc_sub] returns the canonical encoding of [a - b] modulo the group order, for all
    32-byte strings. *)
Theorem sc_sub_correct a b :
  bytes a -> length a = 32%nat -> bytes b -> length b = 32%nat ->
  sc_sub a b = Ret (le_bytes 32 ((le_val a - le_val b) mod L)).
Proof.
  intros Ha La Hb Lb. unfold sc_sub. rewrite !sc_load_12_spec by done. cbn [bind].
  destruct (sub_limbs_spec _ _ _ _ 0 (limbs_32 a Ha La) (limbs_32 b Hb Lb) eq_refl eq_refl)
    as (r & -> & Wr & Er). cbn [bind]. cbv zeta.
  eapply (sc_finish (_ ++ [(0, 0)]) _ _ (fun b => b)); [|apply within_snoc_0; exact Wr|].
  - vm_compute. reflexivity.
  - rewrite eval_snoc_0, Er, !eval_limbs21. done.
Qed.

Lemma sc_sub_correct_witness :
  sc_sub (replicate 32 3) (replicate 32 255) =
  Ret (le_bytes 32 ((le_val (replicate 32 3) - le_val (replicate 32 255)) mod L)).
Proof. apply sc_sub_correct; try apply bytesb_true; reflexivity. Defined.

(** ** Multiplication *)

Definition dsum (xy : list (Z * Z)) : Z := foldr (fun '(x, y) t => x * y + t) 0 xy.

Definition small_pair (A : Z) (p : Z * Z) : Prop := 0 <= p.1 <= A /\ 0 <= p.2 <= A.

Lemma dsum_bounds A xy :
  0 <= A -> Forall (small_pair A) xy -> 0 <= dsum xy <= Z.of_nat (length xy) * (A * A).
Proof.
  intros HA. induction 1 as [|[x y] xy [Hx Hy] H IH]; simpl in *; [lia|].
  assert (0 <= x * y <= A * A) by nia. lia.
Qed.

Lemma dot_from_spec A acc xy :
  0 <= A -> 0 <= acc -> Forall (small_pair A) xy ->
  acc + Z.of_nat (length xy) * (A * A) < 2 ^ 63 -> dot_from acc xy = Ret (acc + dsum xy).
Proof.
  intros HA Hacc H. revert acc Hacc. induction H as [|[x y] xy [Hx Hy] H IH]; intros acc Hacc Hb; simpl.
  - f_equal. lia.
  - simpl in *. assert (0 <= x * y <= A * A) by nia.
    rewrite I_ok by (simpl; lia). cbn [bind]. rewrite I_ok by (simpl; lia). cbn [bind].
    rewrite IH by lia. f_equal. lia.
Qed.

Lemma dot_spec A xy :
  0 <= A -> Forall (small_pair A) xy -> Z.of_nat (length xy) * (A * A) < 2 ^ 63 ->
  dot xy = Ret (dsum xy).
Proof.
  intros HA H Hb. destruct H as [|[x y] xy [Hx Hy] H]; [done|]. simpl in *.
  assert (0 <= x * y <= A * A) by nia.
  rewrite I_ok by (simpl; lia). cbn [bind]. rewrite (dot_from_spec A) by (done || lia). done.
Qed.

Lemma column_small A a b k :
  within (replicate 12 (0, A)) a -> within (replicate 12 (0, A)) b -> (k <= 22)%nat ->
  Forall (small_pair A) (column a b k) /\ Z.of_nat (length (column a b k)) <= 12.
Proof.
  intros Ha Hb Hk. pose proof (within_length _ _ Ha) as La. pose proof (within_length _ _ Hb) as Lb.
  rewrite length_replicate in La, Lb. unfold column. split.
  - apply List.Forall_forall. intros p Hp. apply in_map_iff in Hp as (i & <- & Hi).
    apply in_seq in Hi. split; simpl.
    + pose proof (within_lookup _ _ i Ha ltac:(lia)) as H.
      rewrite lookup_total_replicate_2 in H by lia. exact H.
    + pose proof (within_lookup _ _ (k - i)%nat Hb ltac:(lia)) as H.
      rewrite lookup_total_replicate_2 in H by lia. exact H.
  - rewrite length_map, length_seq. lia.
Qed.

(** The 24 limbs before the reduction. *)
Definition mulsub_list (a b c : list Z) : list Z :=
  map (fun k => c !!! k - dsum (column a b k)) (seq 0 12) ++
  map (fun k => - dsum (column a b k)) (seq 12 10) ++ [- (a !!! 11%nat) * b !!! 11%nat; 0].

Definition limb_max : Z := 2 ^ 25 - 1.

Lemma mulsub_limbs_spec a b c :
  within (replicate 12 (0, limb_max)) a -> within (replicate 12 (0, limb_max)) b ->
  within (replicate 12 (0, limb_max)) c -> mulsub_limbs a b c = Ret (mulsub_list a b c).
Proof.
  intros Ha Hb Hc. unfold mulsub_limbs.
  assert (forall k, (k <= 22)%nat -> dot (column a b k) = Ret (dsum (column a b k)) /\
            0 <= dsum (column a b k) < 2 ^ 54) as Hdot.
  { intros k Hk. destruct (column_small _ a b k Ha Hb Hk) as [Hs Hl].
    pose proof (dsum_bounds limb_max _ ltac:(done) Hs). unfold limb_max in *.
    split; [apply (dot_spec (2 ^ 25 - 1)); [done|done|] | ]; lia. }
  rewrite (mapM_map _ (fun k => c !!! k - dsum (column a b k))).
  2: { intros k Hk. rewrite list_elem_of_In, in_seq in Hk. destruct (Hdot k ltac:(lia)) as [-> Hd]. cbn [bind].
       pose proof (within_lookup _ _ k Hc) as H. rewrite (within_length _ _ Hc), length_replicate in H.
       specialize (H ltac:(lia)). rewrite lookup_total_replicate_2 in H by lia.
       unfold inside, limb_max in H. simpl in H. apply I_ok. simpl. lia. }
  cbn [bind]. rewrite (mapM_map _ (fun k => - dsum (column a b k))).
  2: { intros k Hk. rewrite list_elem_of_In, in_seq in Hk. destruct (Hdot k ltac:(lia)) as [-> Hd]. cbn [bind].
       apply I_ok. simpl. lia. }
  cbn [bind].
  pose proof (within_lookup _ _ 11 Ha) as H1. pose proof (within_lookup _ _ 11 Hb) as H2.
  rewrite (within_length _ _ Ha) in H1. rewrite (within_length _ _ Hb) in H2.
  specialize (H1 ltac:(simpl; lia)). specialize (H2 ltac:(simpl; lia)).
  unfold inside, limb_max in H1, H2. simpl in H1, H2.
  rewrite I_ok by (simpl; lia). cbn [bind].
  rewrite I_ok by (simpl; nia). reflexivity.
Qed.

Lemma mulsub_list_eval a b c :
  length a = 12%nat -> length b = 12%nat -> length c = 12%nat ->
  eval wt21 0 (mulsub_list a b c) = eval wt21 0 c - eval wt21 0 a * eval wt21 0 b.
Proof.
  intros La Lb Lc.
  destruct a as [|a0 [|a1 [|a2 [|a3 [|a4 [|a5 [|a6 [|a7 [|a8 [|a9 [|a10 [|a11 [|]]]]]]]]]]]]]; try done.
  destruct b as [|b0 [|b1 [|b2 [|b3 [|b4 [|b5 [|b6 [|b7 [|b8 [|b9 [|b10 [|b11 [|]]]]]]]]]]]]]; try done.
  destruct c as [|c0 [|c1 [|c2 [|c3 [|c4 [|c5 [|c6 [|c7 [|c8 [|c9 [|c10 [|c11 [|]]]]]]]]]]]]]; try done.
  unfold mulsub_list, column, dsum.
  cbn [map seq app foldr eval lookup_total list_lookup_total Nat.sub Nat.add Nat.min].
  unfold wt21. cbn [Z.of_nat Pos.of_succ_nat Pos.succ Z.mul Pos.mul Pos.add]. pow_consts. ring.
Qed.

Definition mulsub_b : list itv :=
  replicate 12 (- 2 ^ 54, limb_max) ++ replicate 10 (- 2 ^ 54, 0) ++ [(- 2 ^ 50, 0); (0, 0)].

Lemma map_within {A} (f : A -> Z) xs b :
  (forall x, In x xs -> inside b (f x)) -> within (replicate (length xs) b) (map f xs).
Proof.
  induction xs as [|x xs IH]; intros H; simpl; constructor.
  - apply H. by left.
  - apply IH. intros y Hy. apply H. by right.
Qed.

Lemma mulsub_list_within a b c :
  within (replicate 12 (0, limb_max)) a -> within (replicate 12 (0, limb_max)) b ->
  within (replicate 12 (0, limb_max)) c -> within mulsub_b (mulsub_list a b c).
Proof.
  intros Ha Hb Hc.
  assert (forall k, (k <= 22)%nat -> 0 <= dsum (column a b k) < 2 ^ 54) as Hd.
  { intros k Hk. destruct (column_small _ a b k Ha Hb Hk) as [Hs Hl].
    pose proof (dsum_bounds limb_max _ ltac:(done) Hs). unfold limb_max in *. lia. }
  assert (forall s k, within (replicate 12 (0, limb_max)) s -> (k < 12)%nat -> 0 <= s !!! k <= limb_max) as Hk.
  { intros s k Hs Hk. pose proof (within_lookup _ _ k Hs) as H.
    rewrite (within_length _ _ Hs), length_replicate in H. specialize (H ltac:(lia)).
    rewrite lookup_total_replicate_2 in H by lia. exact H. }
  unfold mulsub_list, mulsub_b. apply Forall2_app; [|apply Forall2_app].
  - apply (map_within _ (seq 0 12)). intros k Hin. apply in_seq in Hin.
    specialize (Hd k ltac:(lia)). specialize (Hk c k Hc ltac:(lia)). unfold inside. simpl. lia.
  - apply (map_within _ (seq 12 10)). intros k Hin. apply in_seq in Hin.
    specialize (Hd k ltac:(lia)). unfold inside. simpl. lia.
  - pose proof (Hk a 11%nat Ha ltac:(lia)). pose proof (Hk b 11%nat Hb ltac:(lia)).
    unfold limb_max in *. repeat constructor; simpl; nia.
Qed.

Lemma limbs_32_max a :
  bytes a -> length a = 32%nat -> within (replicate 12 (0, limb_max)) (limbs21 11 (le_val a)).
Proof.
  intros Ha Hl. eapply subsumes_sound; [|exact (limbs_32 a Ha Hl)]. vm_compute. reflexivity.
Qed.

Definition mulsub_carries_b : list itv -> option (list itv) :=
  seq_b (fold_b (carry_r_b L) [0; 2; 4; 6; 8; 10; 12; 14; 16; 18; 20; 22]%nat)
        (fold_b (carry_r_b L) [1; 3; 5; 7; 9; 11; 13; 15; 17; 19; 21]%nat).

Lemma mulsub_ok :
  match mulsub_carries_b mulsub_b with Some B => reduce_ok B | None => false end = true.
Proof. vm_compute. reflexivity. Qed.

Lemma mulsub_bounds : exists B1 B2,
  fold_b (carry_r_b L) [0; 2; 4; 6; 8; 10; 12; 14; 16; 18; 20; 22]%nat mulsub_b = Some B1 /\
  fold_b (carry_r_b L) [1; 3; 5; 7; 9; 11; 13; 15; 17; 19; 21]%nat B1 = Some B2 /\
  reduce_ok B2 = true.
Proof.
  pose proof mulsub_ok as H. destruct (mulsub_carries_b mulsub_b) as [B2|] eqn:E; [|done].
  apply seq_b_inv in E as (B1 & E1 & E2). eauto.
Qed.

(** C32: [sc_mulsub] returns the canonical encoding of [c - a*b] modulo the group order, for all
    32-byte strings [a], [b], [c]; no 64-bit operation overflows. *)
Theorem sc_mulsub_correct a b c :
  bytes a -> length a = 32%nat -> bytes b -> length b = 32%nat -> bytes c -> length c = 32%nat ->
  sc_mulsub a b c = Ret (le_bytes 32 ((le_val c - le_val a * le_val b) mod L)).
Proof.
  intros Ha La Hb Lb Hc Lc. unfold sc_mulsub. rewrite !sc_load_12_spec by done. cbn [bind].
  pose proof (limbs_32_max a Ha La) as Wa. pose proof (limbs_32_max b Hb Lb) as Wb.
  pose proof (limbs_32_max c Hc Lc) as Wc.
  rewrite mulsub_limbs_spec by done. cbn [bind].
  pose proof (mulsub_list_within _ _ _ Wa Wb Wc) as W.
  destruct mulsub_bounds as (B1 & B2 & E1 & E2 & Hok).
  destruct (bounded_step (R:=same_mod wt21 L) _ _ _ E1 W) as (r1 & -> & W1 & M1). cbn [bind].
  destruct (bounded_step (R:=same_mod wt21 L) _ _ _ E2 W1) as (r2 & -> & W2 & M2). cbn [bind].
  eapply (reduce_finish _ _ _ (fun b => b)); [exact Hok|exact W2|].
  rewrite (same_mod_eqm _ _ _ _ M2), (same_mod_eqm _ _ _ _ M1).
  rewrite mulsub_list_eval by reflexivity. rewrite !eval_limbs21. done.
Qed.

Lemma sc_mulsub_correct_witness :
  sc_mulsub (replicate 32 3) (replicate 32 255) (replicate 32 7) =
  Ret (le_bytes 32 ((le_val (replicate 32 7) - le_val (replicate 32 3) * le_val (replicate 32 255)) mod L)).
Proof.
  apply (sc_mulsub_correct (replicate 32 3) (replicate 32 255) (replicate 32 7));
    first [reflexivity | apply bytesb_true; reflexivity].
Defined.

(** ** Comparison with the group order *)

Lemma signum_spec a : - 2 ^ 63 < a < 2 ^ 63 -> signum a = Ret (Z.sgn a).
Proof.
  intros Ha. unfold signum. rewrite I_ok by (simpl; lia). cbn [bind].
  rewrite !shiftr_sign by lia.
  destruct (Z.ltb_spec a 0), (Z.ltb_spec (- a) 0); rewrite I_ok by (simpl; lia); f_equal; lia.
Qed.

(** Digits, low first, and the signs of the digits, weighted by powers of 2. *)
Definition digits (B : Z) (ds : list Z) : Z := foldr (fun d v => d + B * v) 0 ds.
Definition signs (ds : list Z) : Z := foldr (fun d v => Z.sgn d + 2 * v) 0 ds.

(** The highest non-zero digit decides the sign of both. *)
Lemma signs_spec B ds :
  0 < B -> Forall (fun d => - B < d < B) ds -> Z.sgn (signs ds) = Z.sgn (digits B ds).
Proof.
  intros HB. induction 1 as [|d ds Hd H IH]; simpl; [done|]. fold (signs ds) (digits B ds).
  revert IH. generalize (signs ds) (digits B ds). intros u v.
  destruct (Z.sgn_spec u) as [[Hu Eu]|[[Hu Eu]|[Hu Eu]]]; rewrite Eu; intros IH; symmetry in IH.
  - apply Z.sgn_pos_iff in IH. rewrite !Z.sgn_pos; nia.
  - rewrite Z.sgn_null_iff in IH. rewrite <- Hu, IH, !Z.mul_0_r, !Z.add_0_r. lia.
  - apply Z.sgn_neg_iff in IH. rewrite !Z.sgn_neg; nia.
Qed.

Lemma load_word s off i :
  bytes s -> length s = 32%nat -> (i < 8)%nat -> off = (4 * i)%nat ->
  load 4 off s = Ret (slice 32 (le_val s) (32 * Z.of_nat i)).
Proof.
  intros Hs Hl Hi ->. rewrite load_spec by (auto; lia). unfold slice. do 4 f_equal. lia.
Qed.

Lemma digits_slices w V k n :
  0 <= w ->
  digits (2 ^ w) (map (fun i => slice w V (w * Z.of_nat i)) (seq k n)) =
  (V / 2 ^ (w * Z.of_nat k)) mod 2 ^ (w * Z.of_nat n).
Proof.
  intros Hw. revert k. induction n as [|n IH]; intros k.
  - simpl. rewrite Z.mul_0_r, Z.mod_1_r. done.
  - cbn [seq map]. unfold digits in *. cbn [foldr]. rewrite IH. unfold slice.
    assert (0 < 2 ^ w) by (apply Z.pow_pos_nonneg; lia).
    assert (0 < 2 ^ (w * Z.of_nat n)) by (apply Z.pow_pos_nonneg; lia).
    replace (w * Z.of_nat (S n)) with (w + w * Z.of_nat n) by lia.
    replace (w * Z.of_nat (S k)) with (w * Z.of_nat k + w) by lia.
    rewrite (Z.pow_add_r 2 w), (Z.pow_add_r 2 _ w), <- Z.div_div, Z.rem_mul_r by
      (try apply Z.pow_pos_nonneg; try apply Z.pow_nonzero; lia). done.
Qed.

(** The constants of [sc_check] are the words of [L - 1]. *)
Definition check_words : list Z :=
  [1559614444; 1477600026; 2734136534; 350157278; 0; 0; 0; 268435456].

Lemma check_words_val : digits (2 ^ 32) check_words = L - 1.
Proof. reflexivity. Qed.

Lemma digits_sub B xs ys :
  length xs = length ys -> digits B (zip_with Z.sub xs ys) = digits B xs - digits B ys.
Proof.
  revert ys. induction xs as [|x xs IH]; intros [|y ys] Hl; simpl in *; try done.
  unfold digits in *. simpl. rewrite IH by lia. lia.
Qed.

Lemma sgn_shl g k : -1 <= g <= 1 -> 0 <= k <= 7 -> shl 64 g k = 2 ^ k * g.
Proof.
  intros Hg Hk. unfold shl. rewrite Z.shiftl_mul_pow2 by lia.
  assert (0 < 2 ^ k <= 2 ^ 7) by (split; [apply Z.pow_pos_nonneg|apply Z.pow_le_mono_r]; lia).
  rewrite swrap_id; [lia|lia|]. simpl in *. nia.
Qed.

(** The sum of weighted signs, on words. *)
Definition check_sum (ws : list Z) : outcome Z :=
  match ws with
  | [s0; s1; s2; s3; s4; s5; s6; s7] =>
      let* g0 := bind (I64 (1559614444 - s0)) signum in
      let* g1 := bind (I64 (1477600026 - s1)) signum in
      let* g2 := bind (I64 (2734136534 - s2)) signum in
      let* g3 := bind (I64 (350157278 - s3)) signum in
      let* g4 := bind (I64 (- s4)) signum in
      let* g5 := bind (I64 (- s5)) signum in
      let* g6 := bind (I64 (- s6)) signum in
      let* g7 := bind (I64 (268435456 - s7)) signum in
      let* t := I64 (g0 + shl 64 g1 1) in
      let* t := I64 (t + shl 64 g2 2) in
      let* t := I64 (t + shl 64 g3 3) in
      let* t := I64 (t + shl 64 g4 4) in
      let* t := I64 (t + shl 64 g5 5) in
      let* t := I64 (t + shl 64 g6 6) in
      I64 (t + shl 64 g7 7)
  | _ => Fault OutOfBounds
  end.

Lemma check_sign c s : 0 <= c < 2 ^ 32 -> 0 <= s < 2 ^ 32 -> bind (I64 (c - s)) signum = Ret (Z.sgn (c - s)).
Proof. intros. rewrite I_ok by (simpl; lia). cbn [bind]. apply signum_spec. lia. Qed.

Lemma check_sign_opp s : 0 <= s < 2 ^ 32 -> bind (I64 (- s)) signum = Ret (Z.sgn (0 - s)).
Proof. intros. rewrite <- Z.sub_0_l. apply check_sign; lia. Qed.

Lemma check_sum_spec ws :
  length ws = 8%nat -> Forall (fun w => 0 <= w < 2 ^ 32) ws ->
  exists t, check_sum ws = Ret t /\ -255 <= t <= 255 /\
       Z.sgn t = Z.sgn (L - 1 - digits (2 ^ 32) ws).
Proof.
  intros Hl H. exists (signs (zip_with Z.sub check_words ws)).
  rewrite <- check_words_val, <- digits_sub by (simpl; lia).
  rewrite (signs_spec (2 ^ 32)); [|done|].
  2: { destruct ws as [|s0 [|s1 [|s2 [|s3 [|s4 [|s5 [|s6 [|s7 [|]]]]]]]]]; try done.
       rewrite !List.Forall_cons_iff in H. simpl. repeat constructor; lia. }
  destruct ws as [|s0 [|s1 [|s2 [|s3 [|s4 [|s5 [|s6 [|s7 [|]]]]]]]]]; try done.
  rewrite !List.Forall_cons_iff in H. unfold check_sum.
  rewrite !check_sign, !check_sign_opp by lia. cbn [bind].
  assert (forall x, -1 <= Z.sgn x <= 1) as Hg by (intros x; lia).
  unfold signs. cbn [foldr check_words zip_with].
  pose proof (Hg (1559614444 - s0)). pose proof (Hg (1477600026 - s1)). pose proof (Hg (2734136534 - s2)).
  pose proof (Hg (350157278 - s3)). pose proof (Hg (0 - s4)). pose proof (Hg (0 - s5)).
  pose proof (Hg (0 - s6)). pose proof (Hg (268435456 - s7)). clear Hg H.
  repeat match goal with H : -1 <= Z.sgn ?x <= 1 |- _ => revert H; generalize (Z.sgn x); intros ? H end.
  rewrite !sgn_shl by lia. split; [|split; [lia|done]].
  repeat (rewrite I_ok by (simpl; lia); cbn [bind]). f_equal. lia.
Qed.

Lemma sc_check_sum s :
  bytes s -> length s = 32%nat ->
  sc_check s = bind (check_sum (map (fun i => slice 32 (le_val s) (32 * Z.of_nat i)) (seq 0 8)))
                 (fun t => Ret (swrap 32 (Z.shiftr t 8))).
Proof.
  intros Hs Hl. unfold sc_check.
  rewrite (load_word s 0 0), (load_word s 4 1), (load_word s 8 2), (load_word s 12 3),
    (load_word s 16 4), (load_word s 20 5), (load_word s 24 6), (load_word s 28 7) by (done || lia).
  cbn [bind map seq check_sum].
  repeat match goal with |- bind ?m ?k = _ => destruct m; cbn [bind]; [|done] end. done.
Qed.

(** [sc_check] accepts (returns 0) exactly the 32-byte strings whose value is below the group
    order, and returns -1 on all others. *)
Theorem sc_check_correct s :
  bytes s -> length s = 32%nat -> sc_check s = Ret (if le_val s <? L then 0 else -1).
Proof.
  intros Hs Hl. rewrite sc_check_sum by done.
  pose proof (le_val_bound _ Hs) as HV. rewrite Hl in HV. change (8 * Z.of_nat 32) with 256 in HV.
  pose proof (digits_slices 32 (le_val s) 0 8 ltac:(lia)) as HW.
  change (32 * Z.of_nat 0) with 0 in HW. rewrite Z.div_1_r, Z.mod_small in HW by lia.
  destruct (check_sum_spec (map (fun i => slice 32 (le_val s) (32 * Z.of_nat i)) (seq 0 8)))
    as (t & -> & Ht & E); [done| |].
  - apply List.Forall_forall. intros x Hx. apply in_map_iff in Hx as (i & <- & _). apply slice_bounds. lia.
  - rewrite HW in E. cbn [bind]. f_equal. rewrite shiftr_sign by (simpl; lia).
    destruct (Z.ltb_spec t 0) as [Hneg|Hpos], (Z.ltb_spec (le_val s) L); try reflexivity; lia.
Qed.

Lemma sc_check_correct_witness :
  sc_check (le_bytes 32 L) = Ret (-1) /\ sc_check (le_bytes 32 (L - 1)) = Ret 0.
Proof.
  split.
  - rewrite (sc_check_correct (le_bytes 32 L)) by (try apply bytesb_true; reflexivity). reflexivity.
  - rewrite (sc_check_correct (le_bytes 32 (L - 1))) by (try apply bytesb_true; reflexivity). reflexivity.
Defined.

(** ** Test for zero *)

(** [sc_isnonzero] returns 0 on the zero string and 1 on every other 32-byte string. *)
Theorem sc_isnonzero_correct s :
  bytes s -> length s = 32%nat -> sc_isnonzero s = Ret (if le_val s =? 0 then 0 else 1).
Proof.
  intros Hs Hl. exact (or_nonzero s Hs Hl).
Qed.

Lemma sc_isnonzero_correct_witness : sc_isnonzero (le_bytes 32 L) = Ret 1.
Proof. rewrite (sc_isnonzero_correct (le_bytes 32 L)) by (try apply bytesb_true; reflexivity). reflexivity. Defined.
