(* ===== verification/Field.v ===== *)
(** Field arithmetic modulo [prime_p = 2^255 - 19]: the [fe_*] functions of
    src/src/crypto/crypto-ops.c.

    [fe] is [int32_t[10]]; limb [i] has weight [2^ceil(25.5 i)].  Every signed
    operation of the C code is checked at its width: a fault of the model is
    an overflow of the code. *)

From S2P Require Import Prelude Limbs Bytes.

Definition prime_p : Z := 2 ^ 255 - 19.

(** [typedef int32_t fe[10];] *)
Definition fe : Type := list Z.

Definition wtf (i : nat) : Z := 2 ^ ((51 * Z.of_nat i + 1) / 2).
Definition fe_width (i : nat) : Z := if Nat.even i then 26 else 25.

Definition fe_0 : fe := [0; 0; 0; 0; 0; 0; 0; 0; 0; 0].
Definition fe_1 : fe := [1; 0; 0; 0; 0; 0; 0; 0; 0; 0].

(** Limbwise statements [int32_t h_i = f_i op g_i;] *)
Fixpoint map2M (op : Z -> Z -> outcome Z) (f g : list Z) : outcome (list Z) :=
  match f, g with
  | [], [] => Ret []
  | x :: f', y :: g' => let* z := op x y in let* r := map2M op f' g' in Ret (z :: r)
  | _, _ => Fault OutOfBounds
  end.

Definition fe_add (f g : fe) : outcome fe := map2M (fun x y => I32 (x + y)) f g.
Definition fe_sub (f g : fe) : outcome fe := map2M (fun x y => I32 (x - y)) f g.
Definition fe_neg (f : fe) : outcome fe := mapM (fun x => I32 (- x)) f.
Definition fe_copy (f : fe) : fe := f.

(** [assert((((b - 1) & ~b) | ((b - 2) & ~(b - 1))) == (unsigned int) -1);] *)
Definition cmov_assert (b : Z) : bool :=
  let u := uwrap 32 in
  Z.lor (Z.land (u (b - 1)) (u (Z.lnot b))) (Z.land (u (b - 2)) (u (Z.lnot (u (b - 1)))))
  =? 2 ^ 32 - 1.

(** [x = f ^ g; x &= -b; f = f ^ x], per limb; [x &= -b] is computed in
    [unsigned int] and converted back. *)
Definition cmov_limb (b f g : Z) : Z :=
  let x := Z.lxor f g in
  let x := swrap 32 (Z.land (uwrap 32 x) (uwrap 32 (- b))) in
  Z.lxor f x.

Definition fe_cmov (f g : fe) (b : Z) : outcome fe :=
  if cmov_assert b then map2M (fun x y => Ret (cmov_limb b x y)) f g
  else Fault AssertFailed.

(** ** Multiplication and squaring *)

(** [x0 + x1 + ...] on [int64_t], left to right. *)
Definition sum64 (xs : list Z) : outcome Z :=
  match xs with
  | [] => Ret 0
  | x :: xs' => foldM (fun y acc => I64 (acc + y)) xs' x
  end.

(** [carry_i = (h_i + (1 << (w-1))) >> w; h_(i+1) += carry_i; h_i -= carry_i << w;]
    the carry out of limb 9 goes to limb 0, times 19. *)
Definition fe_carry (i : nat) : list Z -> outcome (list Z) :=
  if (i =? 9)%nat then carry_wrap 64 25 9 0 19
  else carry_round 64 (fe_width i) i (S i).

(** The carries of [fe_mul], [fe_sq], [fe_sq2], and the conversion of the
    limbs to [int32_t]. *)
Definition fe_reduce (h : list Z) : outcome fe :=
  let* h := foldM fe_carry [0; 4; 1; 5; 2; 6; 3; 7; 4; 8; 9; 0]%nat h in
  Ret (map (swrap 32) h).

Definition fe_mul_limbs (f g : fe) : outcome (list Z) :=
  match f, g with
  | [f0; f1; f2; f3; f4; f5; f6; f7; f8; f9], [g0; g1; g2; g3; g4; g5; g6; g7; g8; g9] =>
      let* g1_19 := I32 (19 * g1) in
      let* g2_19 := I32 (19 * g2) in
      let* g3_19 := I32 (19 * g3) in
      let* g4_19 := I32 (19 * g4) in
      let* g5_19 := I32 (19 * g5) in
      let* g6_19 := I32 (19 * g6) in
      let* g7_19 := I32 (19 * g7) in
      let* g8_19 := I32 (19 * g8) in
      let* g9_19 := I32 (19 * g9) in
      let* f1_2 := I32 (2 * f1) in
      let* f3_2 := I32 (2 * f3) in
      let* f5_2 := I32 (2 * f5) in
      let* f7_2 := I32 (2 * f7) in
      let* f9_2 := I32 (2 * f9) in
      let* f0g0 := I64 (f0 * g0) in
      let* f0g1 := I64 (f0 * g1) in
      let* f0g2 := I64 (f0 * g2) in
      let* f0g3 := I64 (f0 * g3) in
      let* f0g4 := I64 (f0 * g4) in
      let* f0g5 := I64 (f0 * g5) in
      let* f0g6 := I64 (f0 * g6) in
      let* f0g7 := I64 (f0 * g7) in
      let* f0g8 := I64 (f0 * g8) in
      let* f0g9 := I64 (f0 * g9) in
      let* f1g0 := I64 (f1 * g0) in
      let* f1g1_2 := I64 (f1_2 * g1) in
      let* f1g2 := I64 (f1 * g2) in
      let* f1g3_2 := I64 (f1_2 * g3) in
      let* f1g4 := I64 (f1 * g4) in
      let* f1g5_2 := I64 (f1_2 * g5) in
      let* f1g6 := I64 (f1 * g6) in
      let* f1g7_2 := I64 (f1_2 * g7) in
      let* f1g8 := I64 (f1 * g8) in
      let* f1g9_38 := I64 (f1_2 * g9_19) in
      let* f2g0 := I64 (f2 * g0) in
      let* f2g1 := I64 (f2 * g1) in
      let* f2g2 := I64 (f2 * g2) in
      let* f2g3 := I64 (f2 * g3) in
      let* f2g4 := I64 (f2 * g4) in
      let* f2g5 := I64 (f2 * g5) in
      let* f2g6 := I64 (f2 * g6) in
      let* f2g7 := I64 (f2 * g7) in
      let* f2g8_19 := I64 (f2 * g8_19) in
      let* f2g9_19 := I64 (f2 * g9_19) in
      let* f3g0 := I64 (f3 * g0) in
      let* f3g1_2 := I64 (f3_2 * g1) in
      let* f3g2 := I64 (f3 * g2) in
      let* f3g3_2 := I64 (f3_2 * g3) in
      let* f3g4 := I64 (f3 * g4) in
      let* f3g5_2 := I64 (f3_2 * g5) in
      let* f3g6 := I64 (f3 * g6) in
      let* f3g7_38 := I64 (f3_2 * g7_19) in
      let* f3g8_19 := I64 (f3 * g8_19) in
      let* f3g9_38 := I64 (f3_2 * g9_19) in
      let* f4g0 := I64 (f4 * g0) in
      let* f4g1 := I64 (f4 * g1) in
      let* f4g2 := I64 (f4 * g2) in
      let* f4g3 := I64 (f4 * g3) in
      let* f4g4 := I64 (f4 * g4) in
      let* f4g5 := I64 (f4 * g5) in
      let* f4g6_19 := I64 (f4 * g6_19) in
      let* f4g7_19 := I64 (f4 * g7_19) in
      let* f4g8_19 := I64 (f4 * g8_19) in
      let* f4g9_19 := I64 (f4 * g9_19) in
      let* f5g0 := I64 (f5 * g0) in
      let* f5g1_2 := I64 (f5_2 * g1) in
      let* f5g2 := I64 (f5 * g2) in
      let* f5g3_2 := I64 (f5_2 * g3) in
      let* f5g4 := I64 (f5 * g4) in
      let* f5g5_38 := I64 (f5_2 * g5_19) in
      let* f5g6_19 := I64 (f5 * g6_19) in
      let* f5g7_38 := I64 (f5_2 * g7_19) in
      let* f5g8_19 := I64 (f5 * g8_19) in
      let* f5g9_38 := I64 (f5_2 * g9_19) in
      let* f6g0 := I64 (f6 * g0) in
      let* f6g1 := I64 (f6 * g1) in
      let* f6g2 := I64 (f6 * g2) in
      let* f6g3 := I64 (f6 * g3) in
      let* f6g4_19 := I64 (f6 * g4_19) in
      let* f6g5_19 := I64 (f6 * g5_19) in
      let* f6g6_19 := I64 (f6 * g6_19) in
      let* f6g7_19 := I64 (f6 * g7_19) in
      let* f6g8_19 := I64 (f6 * g8_19) in
      let* f6g9_19 := I64 (f6 * g9_19) in
      let* f7g0 := I64 (f7 * g0) in
      let* f7g1_2 := I64 (f7_2 * g1) in
      let* f7g2 := I64 (f7 * g2) in
      let* f7g3_38 := I64 (f7_2 * g3_19) in
      let* f7g4_19 := I64 (f7 * g4_19) in
      let* f7g5_38 := I64 (f7_2 * g5_19) in
      let* f7g6_19 := I64 (f7 * g6_19) in
      let* f7g7_38 := I64 (f7_2 * g7_19) in
      let* f7g8_19 := I64 (f7 * g8_19) in
      let* f7g9_38 := I64 (f7_2 * g9_19) in
      let* f8g0 := I64 (f8 * g0) in
      let* f8g1 := I64 (f8 * g1) in
      let* f8g2_19 := I64 (f8 * g2_19) in
      let* f8g3_19 := I64 (f8 * g3_19) in
      let* f8g4_19 := I64 (f8 * g4_19) in
      let* f8g5_19 := I64 (f8 * g5_19) in
      let* f8g6_19 := I64 (f8 * g6_19) in
      let* f8g7_19 := I64 (f8 * g7_19) in
      let* f8g8_19 := I64 (f8 * g8_19) in
      let* f8g9_19 := I64 (f8 * g9_19) in
      let* f9g0 := I64 (f9 * g0) in
      let* f9g1_38 := I64 (f9_2 * g1_19) in
      let* f9g2_19 := I64 (f9 * g2_19) in
      let* f9g3_38 := I64 (f9_2 * g3_19) in
      let* f9g4_19 := I64 (f9 * g4_19) in
      let* f9g5_38 := I64 (f9_2 * g5_19) in
      let* f9g6_19 := I64 (f9 * g6_19) in
      let* f9g7_38 := I64 (f9_2 * g7_19) in
      let* f9g8_19 := I64 (f9 * g8_19) in
      let* f9g9_38 := I64 (f9_2 * g9_19) in
      let* h0 := sum64 [f0g0; f1g9_38; f2g8_19; f3g7_38; f4g6_19; f5g5_38; f6g4_19; f7g3_38; f8g2_19; f9g1_38] in
      let* h1 := sum64 [f0g1; f1g0; f2g9_19; f3g8_19; f4g7_19; f5g6_19; f6g5_19; f7g4_19; f8g3_19; f9g2_19] in
      let* h2 := sum64 [f0g2; f1g1_2; f2g0; f3g9_38; f4g8_19; f5g7_38; f6g6_19; f7g5_38; f8g4_19; f9g3_38] in
      let* h3 := sum64 [f0g3; f1g2; f2g1; f3g0; f4g9_19; f5g8_19; f6g7_19; f7g6_19; f8g5_19; f9g4_19] in
      let* h4 := sum64 [f0g4; f1g3_2; f2g2; f3g1_2; f4g0; f5g9_38; f6g8_19; f7g7_38; f8g6_19; f9g5_38] in
      let* h5 := sum64 [f0g5; f1g4; f2g3; f3g2; f4g1; f5g0; f6g9_19; f7g8_19; f8g7_19; f9g6_19] in
      let* h6 := sum64 [f0g6; f1g5_2; f2g4; f3g3_2; f4g2; f5g1_2; f6g0; f7g9_38; f8g8_19; f9g7_38] in
      let* h7 := sum64 [f0g7; f1g6; f2g5; f3g4; f4g3; f5g2; f6g1; f7g0; f8g9_19; f9g8_19] in
      let* h8 := sum64 [f0g8; f1g7_2; f2g6; f3g5_2; f4g4; f5g3_2; f6g2; f7g1_2; f8g0; f9g9_38] in
      let* h9 := sum64 [f0g9; f1g8; f2g7; f3g6; f4g5; f5g4; f6g3; f7g2; f8g1; f9g0] in
      Ret [h0; h1; h2; h3; h4; h5; h6; h7; h8; h9]
  | _, _ => Fault OutOfBounds
  end.

Definition fe_mul (f g : fe) : outcome fe :=
  let* h := fe_mul_limbs f g in fe_reduce h.

Definition fe_sq_limbs (f : fe) : outcome (list Z) :=
  match f with
  | [f0; f1; f2; f3; f4; f5; f6; f7; f8; f9] =>
      let* f0_2 := I32 (2 * f0) in
      let* f1_2 := I32 (2 * f1) in
      let* f2_2 := I32 (2 * f2) in
      let* f3_2 := I32 (2 * f3) in
      let* f4_2 := I32 (2 * f4) in
      let* f5_2 := I32 (2 * f5) in
      let* f6_2 := I32 (2 * f6) in
      let* f7_2 := I32 (2 * f7) in
      let* f5_38 := I32 (38 * f5) in
      let* f6_19 := I32 (19 * f6) in
      let* f7_38 := I32 (38 * f7) in
      let* f8_19 := I32 (19 * f8) in
      let* f9_38 := I32 (38 * f9) in
      let* f0f0 := I64 (f0 * f0) in
      let* f0f1_2 := I64 (f0_2 * f1) in
      let* f0f2_2 := I64 (f0_2 * f2) in
      let* f0f3_2 := I64 (f0_2 * f3) in
      let* f0f4_2 := I64 (f0_2 * f4) in
      let* f0f5_2 := I64 (f0_2 * f5) in
      let* f0f6_2 := I64 (f0_2 * f6) in
      let* f0f7_2 := I64 (f0_2 * f7) in
      let* f0f8_2 := I64 (f0_2 * f8) in
      let* f0f9_2 := I64 (f0_2 * f9) in
      let* f1f1_2 := I64 (f1_2 * f1) in
      let* f1f2_2 := I64 (f1_2 * f2) in
      let* f1f3_4 := I64 (f1_2 * f3_2) in
      let* f1f4_2 := I64 (f1_2 * f4) in
      let* f1f5_4 := I64 (f1_2 * f5_2) in
      let* f1f6_2 := I64 (f1_2 * f6) in
      let* f1f7_4 := I64 (f1_2 * f7_2) in
      let* f1f8_2 := I64 (f1_2 * f8) in
      let* f1f9_76 := I64 (f1_2 * f9_38) in
      let* f2f2 := I64 (f2 * f2) in
      let* f2f3_2 := I64 (f2_2 * f3) in
      let* f2f4_2 := I64 (f2_2 * f4) in
      let* f2f5_2 := I64 (f2_2 * f5) in
      let* f2f6_2 := I64 (f2_2 * f6) in
      let* f2f7_2 := I64 (f2_2 * f7) in
      let* f2f8_38 := I64 (f2_2 * f8_19) in
      let* f2f9_38 := I64 (f2 * f9_38) in
      let* f3f3_2 := I64 (f3_2 * f3) in
      let* f3f4_2 := I64 (f3_2 * f4) in
      let* f3f5_4 := I64 (f3_2 * f5_2) in
      let* f3f6_2 := I64 (f3_2 * f6) in
      let* f3f7_76 := I64 (f3_2 * f7_38) in
      let* f3f8_38 := I64 (f3_2 * f8_19) in
      let* f3f9_76 := I64 (f3_2 * f9_38) in
      let* f4f4 := I64 (f4 * f4) in
      let* f4f5_2 := I64 (f4_2 * f5) in
      let* f4f6_38 := I64 (f4_2 * f6_19) in
      let* f4f7_38 := I64 (f4 * f7_38) in
      let* f4f8_38 := I64 (f4_2 * f8_19) in
      let* f4f9_38 := I64 (f4 * f9_38) in
      let* f5f5_38 := I64 (f5 * f5_38) in
      let* f5f6_38 := I64 (f5_2 * f6_19) in
      let* f5f7_76 := I64 (f5_2 * f7_38) in
      let* f5f8_38 := I64 (f5_2 * f8_19) in
      let* f5f9_76 := I64 (f5_2 * f9_38) in
      let* f6f6_19 := I64 (f6 * f6_19) in
      let* f6f7_38 := I64 (f6 * f7_38) in
      let* f6f8_38 := I64 (f6_2 * f8_19) in
      let* f6f9_38 := I64 (f6 * f9_38) in
      let* f7f7_38 := I64 (f7 * f7_38) in
      let* f7f8_38 := I64 (f7_2 * f8_19) in
      let* f7f9_76 := I64 (f7_2 * f9_38) in
      let* f8f8_19 := I64 (f8 * f8_19) in
      let* f8f9_38 := I64 (f8 * f9_38) in
      let* f9f9_38 := I64 (f9 * f9_38) in
      let* h0 := sum64 [f0f0; f1f9_76; f2f8_38; f3f7_76; f4f6_38; f5f5_38] in
      let* h1 := sum64 [f0f1_2; f2f9_38; f3f8_38; f4f7_38; f5f6_38] in
      let* h2 := sum64 [f0f2_2; f1f1_2; f3f9_76; f4f8_38; f5f7_76; f6f6_19] in
      let* h3 := sum64 [f0f3_2; f1f2_2; f4f9_38; f5f8_38; f6f7_38] in
      let* h4 := sum64 [f0f4_2; f1f3_4; f2f2; f5f9_76; f6f8_38; f7f7_38] in
      let* h5 := sum64 [f0f5_2; f1f4_2; f2f3_2; f6f9_38; f7f8_38] in
      let* h6 := sum64 [f0f6_2; f1f5_4; f2f4_2; f3f3_2; f7f9_76; f8f8_19] in
      let* h7 := sum64 [f0f7_2; f1f6_2; f2f5_2; f3f4_2; f8f9_38] in
      let* h8 := sum64 [f0f8_2; f1f7_4; f2f6_2; f3f5_4; f4f4; f9f9_38] in
      let* h9 := sum64 [f0f9_2; f1f8_2; f2f7_2; f3f6_2; f4f5_2] in
      Ret [h0; h1; h2; h3; h4; h5; h6; h7; h8; h9]
  | _ => Fault OutOfBounds
  end.

Definition fe_sq (f : fe) : outcome fe :=
  let* h := fe_sq_limbs f in fe_reduce h.

Definition fe_sq2_limbs (f : fe) : outcome (list Z) :=
  match f with
  | [f0; f1; f2; f3; f4; f5; f6; f7; f8; f9] =>
      let* f0_2 := I32 (2 * f0) in
      let* f1_2 := I32 (2 * f1) in
      let* f2_2 := I32 (2 * f2) in
      let* f3_2 := I32 (2 * f3) in
      let* f4_2 := I32 (2 * f4) in
      let* f5_2 := I32 (2 * f5) in
      let* f6_2 := I32 (2 * f6) in
      let* f7_2 := I32 (2 * f7) in
      let* f5_38 := I32 (38 * f5) in
      let* f6_19 := I32 (19 * f6) in
      let* f7_38 := I32 (38 * f7) in
      let* f8_19 := I32 (19 * f8) in
      let* f9_38 := I32 (38 * f9) in
      let* f0f0 := I64 (f0 * f0) in
      let* f0f1_2 := I64 (f0_2 * f1) in
      let* f0f2_2 := I64 (f0_2 * f2) in
      let* f0f3_2 := I64 (f0_2 * f3) in
      let* f0f4_2 := I64 (f0_2 * f4) in
      let* f0f5_2 := I64 (f0_2 * f5) in
      let* f0f6_2 := I64 (f0_2 * f6) in
      let* f0f7_2 := I64 (f0_2 * f7) in
      let* f0f8_2 := I64 (f0_2 * f8) in
      let* f0f9_2 := I64 (f0_2 * f9) in
      let* f1f1_2 := I64 (f1_2 * f1) in
      let* f1f2_2 := I64 (f1_2 * f2) in
      let* f1f3_4 := I64 (f1_2 * f3_2) in
      let* f1f4_2 := I64 (f1_2 * f4) in
      let* f1f5_4 := I64 (f1_2 * f5_2) in
      let* f1f6_2 := I64 (f1_2 * f6) in
      let* f1f7_4 := I64 (f1_2 * f7_2) in
      let* f1f8_2 := I64 (f1_2 * f8) in
      let* f1f9_76 := I64 (f1_2 * f9_38) in
      let* f2f2 := I64 (f2 * f2) in
      let* f2f3_2 := I64 (f2_2 * f3) in
      let* f2f4_2 := I64 (f2_2 * f4) in
      let* f2f5_2 := I64 (f2_2 * f5) in
      let* f2f6_2 := I64 (f2_2 * f6) in
      let* f2f7_2 := I64 (f2_2 * f7) in
      let* f2f8_38 := I64 (f2_2 * f8_19) in
      let* f2f9_38 := I64 (f2 * f9_38) in
      let* f3f3_2 := I64 (f3_2 * f3) in
      let* f3f4_2 := I64 (f3_2 * f4) in
      let* f3f5_4 := I64 (f3_2 * f5_2) in
      let* f3f6_2 := I64 (f3_2 * f6) in
      let* f3f7_76 := I64 (f3_2 * f7_38) in
      let* f3f8_38 := I64 (f3_2 * f8_19) in
      let* f3f9_76 := I64 (f3_2 * f9_38) in
      let* f4f4 := I64 (f4 * f4) in
      let* f4f5_2 := I64 (f4_2 * f5) in
      let* f4f6_38 := I64 (f4_2 * f6_19) in
      let* f4f7_38 := I64 (f4 * f7_38) in
      let* f4f8_38 := I64 (f4_2 * f8_19) in
      let* f4f9_38 := I64 (f4 * f9_38) in
      let* f5f5_38 := I64 (f5 * f5_38) in
      let* f5f6_38 := I64 (f5_2 * f6_19) in
      let* f5f7_76 := I64 (f5_2 * f7_38) in
      let* f5f8_38 := I64 (f5_2 * f8_19) in
      let* f5f9_76 := I64 (f5_2 * f9_38) in
      let* f6f6_19 := I64 (f6 * f6_19) in
      let* f6f7_38 := I64 (f6 * f7_38) in
      let* f6f8_38 := I64 (f6_2 * f8_19) in
      let* f6f9_38 := I64 (f6 * f9_38) in
      let* f7f7_38 := I64 (f7 * f7_38) in
      let* f7f8_38 := I64 (f7_2 * f8_19) in
      let* f7f9_76 := I64 (f7_2 * f9_38) in
      let* f8f8_19 := I64 (f8 * f8_19) in
      let* f8f9_38 := I64 (f8 * f9_38) in
      let* f9f9_38 := I64 (f9 * f9_38) in
      let* h0 := sum64 [f0f0; f1f9_76; f2f8_38; f3f7_76; f4f6_38; f5f5_38] in
      let* h1 := sum64 [f0f1_2; f2f9_38; f3f8_38; f4f7_38; f5f6_38] in
      let* h2 := sum64 [f0f2_2; f1f1_2; f3f9_76; f4f8_38; f5f7_76; f6f6_19] in
      let* h3 := sum64 [f0f3_2; f1f2_2; f4f9_38; f5f8_38; f6f7_38] in
      let* h4 := sum64 [f0f4_2; f1f3_4; f2f2; f5f9_76; f6f8_38; f7f7_38] in
      let* h5 := sum64 [f0f5_2; f1f4_2; f2f3_2; f6f9_38; f7f8_38] in
      let* h6 := sum64 [f0f6_2; f1f5_4; f2f4_2; f3f3_2; f7f9_76; f8f8_19] in
      let* h7 := sum64 [f0f7_2; f1f6_2; f2f5_2; f3f4_2; f8f9_38] in
      let* h8 := sum64 [f0f8_2; f1f7_4; f2f6_2; f3f5_4; f4f4; f9f9_38] in
      let* h9 := sum64 [f0f9_2; f1f8_2; f2f7_2; f3f6_2; f4f5_2] in
      let* h0 := I64 (h0 + h0) in
      let* h1 := I64 (h1 + h1) in
      let* h2 := I64 (h2 + h2) in
      let* h3 := I64 (h3 + h3) in
      let* h4 := I64 (h4 + h4) in
      let* h5 := I64 (h5 + h5) in
      let* h6 := I64 (h6 + h6) in
      let* h7 := I64 (h7 + h7) in
      let* h8 := I64 (h8 + h8) in
      let* h9 := I64 (h9 + h9) in
      Ret [h0; h1; h2; h3; h4; h5; h6; h7; h8; h9]
  | _ => Fault OutOfBounds
  end.

Definition fe_sq2 (f : fe) : outcome fe :=
  let* h := fe_sq2_limbs f in fe_reduce h.

(** [for (i = 0; i < n; ++i) fe_sq(t, t);] *)
Fixpoint fe_sqn (n : nat) (t : fe) : outcome fe :=
  match n with
  | O => Ret t
  | S n' => let* t := fe_sq t in fe_sqn n' t
  end.

Definition fe_invert (z : fe) : outcome fe :=
  let* t0 := fe_sq z in
  let* t1 := fe_sq t0 in
  let* t1 := fe_sq t1 in
  let* t1 := fe_mul z t1 in
  let* t0 := fe_mul t0 t1 in
  let* t2 := fe_sq t0 in
  let* t1 := fe_mul t1 t2 in
  let* t2 := fe_sq t1 in
  let* t2 := fe_sqn 4 t2 in
  let* t1 := fe_mul t2 t1 in
  let* t2 := fe_sq t1 in
  let* t2 := fe_sqn 9 t2 in
  let* t2 := fe_mul t2 t1 in
  let* t3 := fe_sq t2 in
  let* t3 := fe_sqn 19 t3 in
  let* t2 := fe_mul t3 t2 in
  let* t2 := fe_sq t2 in
  let* t2 := fe_sqn 9 t2 in
  let* t1 := fe_mul t2 t1 in
  let* t2 := fe_sq t1 in
  let* t2 := fe_sqn 49 t2 in
  let* t2 := fe_mul t2 t1 in
  let* t3 := fe_sq t2 in
  let* t3 := fe_sqn 99 t3 in
  let* t2 := fe_mul t3 t2 in
  let* t2 := fe_sq t2 in
  let* t2 := fe_sqn 49 t2 in
  let* t1 := fe_mul t2 t1 in
  let* t1 := fe_sq t1 in
  let* t1 := fe_sqn 4 t1 in
  fe_mul t1 t0.

(** [r = u * v^3 * (u * v^7)^((p-5)/8)] *)
Definition fe_divpowm1 (u v : fe) : outcome fe :=
  let* v3 := fe_sq v in
  let* v3 := fe_mul v3 v in
  let* uv7 := fe_sq v3 in
  let* uv7 := fe_mul uv7 v in
  let* uv7 := fe_mul uv7 u in
  let* t0 := fe_sq uv7 in
  let* t1 := fe_sq t0 in
  let* t1 := fe_sq t1 in
  let* t1 := fe_mul uv7 t1 in
  let* t0 := fe_mul t0 t1 in
  let* t0 := fe_sq t0 in
  let* t0 := fe_mul t1 t0 in
  let* t1 := fe_sq t0 in
  let* t1 := fe_sqn 4 t1 in
  let* t0 := fe_mul t1 t0 in
  let* t1 := fe_sq t0 in
  let* t1 := fe_sqn 9 t1 in
  let* t1 := fe_mul t1 t0 in
  let* t2 := fe_sq t1 in
  let* t2 := fe_sqn 19 t2 in
  let* t1 := fe_mul t2 t1 in
  let* t1 := fe_sqn 10 t1 in
  let* t0 := fe_mul t1 t0 in
  let* t1 := fe_sq t0 in
  let* t1 := fe_sqn 49 t1 in
  let* t1 := fe_mul t1 t0 in
  let* t2 := fe_sq t1 in
  let* t2 := fe_sqn 99 t2 in
  let* t1 := fe_mul t2 t1 in
  let* t1 := fe_sqn 50 t1 in
  let* t0 := fe_mul t1 t0 in
  let* t0 := fe_sq t0 in
  let* t0 := fe_sq t0 in
  let* t0 := fe_mul t0 uv7 in
  let* t0 := fe_mul t0 v3 in
  fe_mul t0 u.

(** ** Serialization *)

(** [q = (h_i + q) >> w;] *)
Definition q_step (h : fe) (i : nat) (q : Z) : outcome Z :=
  let* t := I32 (h !!! i + q) in Ret (Z.shiftr t (fe_width i)).

(** [carry_i = h_i >> w; h_(i+1) += carry_i; h_i -= carry_i << w;] on [int32_t] *)
Definition tob_carry (i : nat) : list Z -> outcome (list Z) :=
  carry_floor 32 (fe_width i) i (S i).

(** [fe_tobytes] up to the point where the limbs are canonical. *)
Definition fe_canon (h : fe) : outcome fe :=
  let* t := I32 (19 * h !!! 9%nat) in
  let* t := I32 (t + 2 ^ 24) in
  let q := Z.shiftr t 25 in
  let* q := foldM (q_step h) [0; 1; 2; 3; 4; 5; 6; 7; 8; 9]%nat q in
  let* t := I32 (19 * q) in
  let* h0 := I32 (h !!! 0%nat + t) in
  let h := <[0%nat := h0]> h in
  let* h := foldM tob_carry [0; 1; 2; 3; 4; 5; 6; 7; 8]%nat h in
  let carry9 := Z.shiftr (h !!! 9%nat) 25 in
  let* h9 := I32 (h !!! 9%nat - shl 32 carry9 25) in
  Ret (<[9%nat := h9]> h).

Definition fe_store (h : fe) : list Z :=
  let h0 := h !!! 0%nat in let h1 := h !!! 1%nat in let h2 := h !!! 2%nat in
  let h3 := h !!! 3%nat in let h4 := h !!! 4%nat in let h5 := h !!! 5%nat in
  let h6 := h !!! 6%nat in let h7 := h !!! 7%nat in let h8 := h !!! 8%nat in
  let h9 := h !!! 9%nat in
  [ u8 (Z.shiftr h0 0);
    u8 (Z.shiftr h0 8);
    u8 (Z.shiftr h0 16);
    u8 (Z.lor (Z.shiftr h0 24) (shl 32 h1 2));
    u8 (Z.shiftr h1 6);
    u8 (Z.shiftr h1 14);
    u8 (Z.lor (Z.shiftr h1 22) (shl 32 h2 3));
    u8 (Z.shiftr h2 5);
    u8 (Z.shiftr h2 13);
    u8 (Z.lor (Z.shiftr h2 21) (shl 32 h3 5));
    u8 (Z.shiftr h3 3);
    u8 (Z.shiftr h3 11);
    u8 (Z.lor (Z.shiftr h3 19) (shl 32 h4 6));
    u8 (Z.shiftr h4 2);
    u8 (Z.shiftr h4 10);
    u8 (Z.shiftr h4 18);
    u8 (Z.shiftr h5 0);
    u8 (Z.shiftr h5 8);
    u8 (Z.shiftr h5 16);
    u8 (Z.lor (Z.shiftr h5 24) (shl 32 h6 1));
    u8 (Z.shiftr h6 7);
    u8 (Z.shiftr h6 15);
    u8 (Z.lor (Z.shiftr h6 23) (shl 32 h7 3));
    u8 (Z.shiftr h7 5);
    u8 (Z.shiftr h7 13);
    u8 (Z.lor (Z.shiftr h7 21) (shl 32 h8 4));
    u8 (Z.shiftr h8 4);
    u8 (Z.shiftr h8 12);
    u8 (Z.lor (Z.shiftr h8 20) (shl 32 h9 6));
    u8 (Z.shiftr h9 2);
    u8 (Z.shiftr h9 10);
    u8 (Z.shiftr h9 18) ].

Definition fe_tobytes (h : fe) : outcome (list Z) :=
  let* h := fe_canon h in Ret (fe_store h).

Definition fe_isnegative (f : fe) : outcome Z :=
  let* s := fe_tobytes f in Ret (Z.land (s !!! 0%nat) 1).

(** [(((int) (s[0] | ... | s[31]) - 1) >> 8) + 1] *)
Definition fe_isnonzero (f : fe) : outcome Z :=
  let* s := fe_tobytes f in
  let* d := I32 (foldl Z.lor (s !!! 0%nat) (map (fun i => s !!! i) (seq 1 31)) - 1) in
  I32 (Z.shiftr d 8 + 1).
