(* ===== verification/FieldFacts.v ===== *)
(** Correctness of the field arithmetic of [Field.v]: under the documented
    bounds on the limbs no signed operation overflows, the result satisfies
    the documented bounds, and its value modulo [prime_p] is the one named by
    the function. *)

From S2P Require Import Prelude Limbs Bytes Field.

Notation "x ≡p y" := (x mod prime_p = y mod prime_p) (at level 70) : c_scope.

(** The number a field element stands for. *)
Definition val (f : fe) : Z := eval wtf 0 f.

Lemma wtf_nonneg i : 0 <= wtf i.
Proof. apply Z.pow_nonneg. lia. Qed.

(** The weights as powers of two. *)
Lemma wtf_0 : wtf 0 = 1. Proof. reflexivity. Qed.
Lemma wtf_1 : wtf 1 = 2 ^ 26. Proof. reflexivity. Qed.
Lemma wtf_2 : wtf 2 = 2 ^ 51. Proof. reflexivity. Qed.
Lemma wtf_3 : wtf 3 = 2 ^ 77. Proof. reflexivity. Qed.
Lemma wtf_4 : wtf 4 = 2 ^ 102. Proof. reflexivity. Qed.
Lemma wtf_5 : wtf 5 = 2 ^ 128. Proof. reflexivity. Qed.
Lemma wtf_6 : wtf 6 = 2 ^ 153. Proof. reflexivity. Qed.
Lemma wtf_7 : wtf 7 = 2 ^ 179. Proof. reflexivity. Qed.
Lemma wtf_8 : wtf 8 = 2 ^ 204. Proof. reflexivity. Qed.
Lemma wtf_9 : wtf 9 = 2 ^ 230. Proof. reflexivity. Qed.
Lemma prime_p_eq : prime_p = 2 ^ 255 - 19. Proof. reflexivity. Qed.

(** ** Bounds of field elements

    [fbd e o]: even limbs within [e], odd limbs within [o]. *)

Definition fbd (e o : Z) : list itv :=
  [(- e, e); (- o, o); (- e, e); (- o, o); (- e, e); (- o, o); (- e, e); (- o, o); (- e, e); (- o, o)].

(** 1.01*2^25, 1.01*2^24: what [fe_mul] and [fe_sq] return. *)
Definition tight : list itv := fbd 33889976 16944988.
(** 1.65*2^26, 1.65*2^25: what [fe_mul] and [fe_sq] accept. *)
Definition loose : list itv := fbd 110729625 55364812.

Lemma within_fe B (f : fe) (Q : fe -> Prop) :
  length B = 10%nat -> within B f ->
  (forall f0 f1 f2 f3 f4 f5 f6 f7 f8 f9, Q [f0; f1; f2; f3; f4; f5; f6; f7; f8; f9]) -> Q f.
Proof.
  intros HB Hf HQ. pose proof (within_length _ _ Hf) as Hl. rewrite HB in Hl.
  destruct f as [|f0 [|f1 [|f2 [|f3 [|f4 [|f5 [|f6 [|f7 [|f8 [|f9 [|]]]]]]]]]]]; try done.
Qed.

(** ** The carry chain *)

Definition fe_carry_b (M : Z) (i : nat) : list itv -> option (list itv) :=
  if (i =? 9)%nat then carry_bw wtf M 64 25 (2 ^ 24) 19 9 0
  else carry_bw wtf M 64 (fe_width i) (2 ^ (fe_width i - 1)) 1 i (S i).

#[global] Instance fe_carry_bounded M i : BoundedStep (same_mod wtf M) (fe_carry i) (fe_carry_b M i).
Proof.
  unfold fe_carry, fe_carry_b. destruct (i =? 9)%nat.
  - exact (carry_wrap_bounded wtf M 64 25 9 0 19).
  - exact (carry_round_bounded wtf M 64 (fe_width i) i (S i)).
Qed.

Lemma swrap_within n B s : 0 < n -> forallb (fits n) B = true -> within B s -> map (swrap n) s = s.
Proof.
  intros Hn HB H. induction H as [|b x B s Hb H IH]; simpl in *; [done|].
  apply andb_true_iff in HB as [Hf HB]. rewrite IH by done. f_equal.
  unfold fits in Hf. rewrite andb_true_iff, !in_signed_spec in Hf. unfold inside in Hb.
  apply swrap_id; lia.
Qed.

Definition reduce_carries : list nat := [0; 4; 1; 5; 2; 6; 3; 7; 4; 8; 9; 0]%nat.

Definition fe_reduce_ok (B : list itv) : bool :=
  match fold_b (fe_carry_b prime_p) reduce_carries B with
  | Some B' => subsumes B' tight
  | None => false
  end.

Lemma fe_reduce_spec B h :
  fe_reduce_ok B = true -> within B h ->
  yields (fe_reduce h) (fun r => within tight r /\ val r ≡p val h).
Proof.
  unfold fe_reduce_ok, fe_reduce. intros Hok Hh. fold reduce_carries.
  destruct (fold_b _ _ B) as [B'|] eqn:E; [|done].
  eapply yields_bind; [exact (bounded_step (R:=same_mod wtf prime_p) _ _ _ E Hh)|].
  intros r [Hr Hm]. pose proof (subsumes_sound _ _ _ Hok Hr) as Hr'.
  apply yields_ret. rewrite (swrap_within 32 tight) by done.
  split; [done|]. exact (same_mod_eqm _ _ _ _ Hm).
Qed.

(** ** Products *)

(** The limbs of the products before the carries are within 2^62. *)
Definition prod_b : list itv := fbd (2 ^ 62) (2 ^ 62).

(** The part of the schoolbook product that wraps around [2^255]. *)
Definition mul_high (f g : fe) : Z :=
  match f, g with
  | [f0; f1; f2; f3; f4; f5; f6; f7; f8; f9], [g0; g1; g2; g3; g4; g5; g6; g7; g8; g9] =>
      2*f1*g9 + f2*g8 + 2*f3*g7 + f4*g6 + 2*f5*g5 + f6*g4 + 2*f7*g3 + f8*g2 + 2*f9*g1
      + 2^26 * (f2*g9 + f3*g8 + f4*g7 + f5*g6 + f6*g5 + f7*g4 + f8*g3 + f9*g2)
      + 2^51 * (2*f3*g9 + f4*g8 + 2*f5*g7 + f6*g6 + 2*f7*g5 + f8*g4 + 2*f9*g3)
      + 2^77 * (f4*g9 + f5*g8 + f6*g7 + f7*g6 + f8*g5 + f9*g4)
      + 2^102 * (2*f5*g9 + f6*g8 + 2*f7*g7 + f8*g6 + 2*f9*g5)
      + 2^128 * (f6*g9 + f7*g8 + f8*g7 + f9*g6)
      + 2^153 * (2*f7*g9 + f8*g8 + 2*f9*g7)
      + 2^179 * (f8*g9 + f9*g8)
      + 2^204 * (2*f9*g9)
  | _, _ => 0
  end.

(** Names the limbs of [f], with their absolute bounds. *)
Ltac limbs_f Hf :=
  limb Hf f0; limb Hf f1; limb Hf f2; limb Hf f3; limb Hf f4;
  limb Hf f5; limb Hf f6; limb Hf f7; limb Hf f8; limb Hf f9; inversion Hf; subst;
  repeat match goal with H : inside (- ?e, ?e) ?x |- _ => change (abd e x) in H end.
Ltac limbs_g Hg :=
  limb Hg g0; limb Hg g1; limb Hg g2; limb Hg g3; limb Hg g4;
  limb Hg g5; limb Hg g6; limb Hg g7; limb Hg g8; limb Hg g9; inversion Hg; subst;
  repeat match goal with H : inside (- ?e, ?e) ?x |- _ => change (abd e x) in H end.

(** Limbs given by expressions are within symmetric bounds. *)
Ltac abd_within :=
  repeat (constructor;
    [match goal with |- inside (_, ?e) ?x => change (abd e x) end;
     eapply abd_weaken; [abd_auto | vm_compute; reflexivity] |]);
  constructor.

Ltac run_products :=
  unfold sum64; cbn [foldM]; repeat chk; apply yields_ret; split; [abd_within|].

(** Ring identities between values of explicit limbs. *)
Ltac eval_ring :=
  unfold val, mul_high; cbn [eval]; subst;
  rewrite ?wtf_0, ?wtf_1, ?wtf_2, ?wtf_3, ?wtf_4, ?wtf_5, ?wtf_6, ?wtf_7, ?wtf_8, ?wtf_9, prime_p_eq; ring.

Lemma fe_mul_limbs_spec f g :
  within loose f -> within loose g ->
  yields (fe_mul_limbs f g) (fun h => within prod_b h /\
    val h = val f * val g + prime_p * (- mul_high f g)).
Proof.
  intros Hf Hg. unfold within, loose, prod_b, fbd in *. limbs_f Hf. limbs_g Hg.
  unfold fe_mul_limbs. run_products. eval_ring.
Qed.

Lemma fe_sq_limbs_spec f :
  within loose f ->
  yields (fe_sq_limbs f) (fun h => within prod_b h /\
    val h = val f * val f + prime_p * (- mul_high f f)).
Proof.
  intros Hf. unfold within, loose, prod_b, fbd in *. limbs_f Hf.
  unfold fe_sq_limbs. run_products. eval_ring.
Qed.

Lemma fe_sq2_limbs_spec f :
  within loose f ->
  yields (fe_sq2_limbs f) (fun h => within prod_b h /\
    val h = 2 * (val f * val f) + prime_p * (- (2 * mul_high f f))).
Proof.
  intros Hf. unfold within, loose, prod_b, fbd in *. limbs_f Hf.
  unfold fe_sq2_limbs. run_products. eval_ring.
Qed.

Lemma prod_reduce h V k :
  within prod_b h -> val h = V + prime_p * k ->
  yields (fe_reduce h) (fun r => within tight r /\ val r ≡p V).
Proof.
  intros Hh E. eapply yields_mono.
  - apply (fe_reduce_spec prod_b); [vm_compute; reflexivity | exact Hh].
  - intros r [Hr Er]. split; [done|]. rewrite Er, E, Z.mul_comm. apply Z_mod_plus_full.
Qed.

Lemma fe_mul_spec f g :
  within loose f -> within loose g ->
  yields (fe_mul f g) (fun h => within tight h /\ val h ≡p val f * val g).
Proof.
  intros Hf Hg. unfold fe_mul.
  eapply yields_bind; [exact (fe_mul_limbs_spec f g Hf Hg)|]. intros h [Hh E].
  exact (prod_reduce _ _ _ Hh E).
Qed.

Lemma fe_sq_spec f :
  within loose f -> yields (fe_sq f) (fun h => within tight h /\ val h ≡p val f * val f).
Proof.
  intros Hf. unfold fe_sq. eapply yields_bind; [exact (fe_sq_limbs_spec f Hf)|].
  intros h [Hh E]. exact (prod_reduce _ _ _ Hh E).
Qed.

Lemma fe_sq2_spec f :
  within loose f -> yields (fe_sq2 f) (fun h => within tight h /\ val h ≡p 2 * (val f * val f)).
Proof.
  intros Hf. unfold fe_sq2. eapply yields_bind; [exact (fe_sq2_limbs_spec f Hf)|].
  intros h [Hh E]. exact (prod_reduce _ _ _ Hh E).
Qed.

(** Limbs at the documented maximum, signs alternating. *)
Definition loose_max : fe :=
  [110729625; -55364812; 110729625; -55364812; 110729625;
   -55364812; 110729625; -55364812; 110729625; -55364812].

Lemma loose_max_within : within loose loose_max.
Proof. repeat constructor; vm_compute; congruence. Qed.

(** C33: for all inputs within the documented bounds (1.65*2^26, 1.65*2^25, ...), [fe_mul] returns
    without overflow an element within 1.01*2^25, 1.01*2^24, ... whose value is the product
    modulo [2^255 - 19]. *)
Theorem fe_mul_correct f g :
  within loose f -> within loose g ->
  yields (fe_mul f g) (fun h => within tight h /\ val h ≡p val f * val g).
Proof. exact (fe_mul_spec f g). Qed.

Lemma fe_mul_correct_witness :
  yields (fe_mul loose_max loose_max)
    (fun h => within tight h /\ val h ≡p val loose_max * val loose_max).
Proof. exact (fe_mul_correct loose_max loose_max loose_max_within loose_max_within). Defined.

(** [fe_sq] and [fe_sq2] agree with multiplication: for inputs within the documented bounds
    they return without overflow tight elements of values [f*f] and [2*f*f] modulo
    [2^255 - 19]. *)
Theorem fe_sq_correct f :
  within loose f ->
  yields (fe_sq f) (fun h => within tight h /\ val h ≡p val f * val f) /\
  yields (fe_sq2 f) (fun h => within tight h /\ val h ≡p 2 * (val f * val f)).
Proof. intros Hf. split; [exact (fe_sq_spec f Hf) | exact (fe_sq2_spec f Hf)]. Qed.

Lemma fe_sq_correct_witness :
  yields (fe_sq loose_max) (fun h => within tight h /\ val h ≡p val loose_max * val loose_max) /\
  yields (fe_sq2 loose_max) (fun h => within tight h /\ val h ≡p 2 * (val loose_max * val loose_max)).
Proof. exact (fe_sq_correct loose_max loose_max_within). Defined.
