(* ===== verification/FieldBytes.v ===== *)
(** Correctness of the linear operations ([fe_add], [fe_sub], [fe_neg]), of the
    conditional move and of the serialization of field elements. *)

From S2P Require Import Prelude Limbs Bytes Field FieldFacts.

(** ** Addition, subtraction, negation *)

Definition sub_itvs (a b : itv) : itv := (a.1 - b.2, a.2 - b.1).
Definition opp_itv (a : itv) : itv := (- a.2, - a.1).

(** Limbwise [x + c*y], checked at 32 bits. *)
Lemma map2M_spec (c : Z) (op : Z -> Z -> Z) (opb : itv -> itv -> itv) Bf Bg f g k :
  (forall x y, op x y = x + c * y) ->
  (forall a b x y, inside a x -> inside b y -> inside (opb a b) (op x y)) ->
  length Bf = length Bg -> within Bf f -> within Bg g ->
  forallb (fits 32) (zip_with opb Bf Bg) = true ->
  yields (map2M (fun x y => I32 (op x y)) f g) (fun h =>
    within (zip_with opb Bf Bg) h /\ eval wtf k h = eval wtf k f + c * eval wtf k g).
Proof.
  intros Hop Hopb Hl Hf. revert Bg g k Hl.
  induction Hf as [|a x Bf f Hx Hf IH]; intros [|b Bg] g k Hl Hg Hfit; try done.
  - inversion Hg; subst. apply yields_ret. simpl. split; [constructor|lia].
  - inversion Hg as [|? y ? g' Hy Hg']; subst. simpl in *. apply andb_true_iff in Hfit as [H1 H2].
    pose proof (Hopb _ _ _ _ Hx Hy) as Hxy. rewrite (fits_inside _ _ _ H1 Hxy). cbn [bind].
    eapply yields_bind; [exact (IH Bg g' (S k) ltac:(lia) Hg' H2)|]. intros h [Hh E].
    apply yields_ret. split; [by constructor|]. simpl. rewrite E, Hop. lia.
Qed.

Lemma fe_add_spec Bf Bg f g :
  length Bf = length Bg -> within Bf f -> within Bg g ->
  forallb (fits 32) (zip_with add_itv Bf Bg) = true ->
  yields (fe_add f g) (fun h => within (zip_with add_itv Bf Bg) h /\ val h = val f + val g).
Proof.
  intros Hl Hf Hg Hfit. eapply yields_mono.
  - apply (map2M_spec 1 Z.add add_itv Bf Bg f g 0); try done; [lia|]. intros. by apply add_inside.
  - intros h [Hh E]. split; [done|]. unfold val. lia.
Qed.

Lemma fe_sub_spec Bf Bg f g :
  length Bf = length Bg -> within Bf f -> within Bg g ->
  forallb (fits 32) (zip_with sub_itvs Bf Bg) = true ->
  yields (fe_sub f g) (fun h => within (zip_with sub_itvs Bf Bg) h /\ val h = val f - val g).
Proof.
  intros Hl Hf Hg Hfit. eapply yields_mono.
  - apply (map2M_spec (-1) Z.sub sub_itvs Bf Bg f g 0); try done. unfold inside, sub_itvs. simpl. lia.
  - intros h [Hh E]. split; [done|]. unfold val. lia.
Qed.

Lemma fe_neg_spec Bf f :
  within Bf f -> forallb (fits 32) (map opp_itv Bf) = true ->
  yields (fe_neg f) (fun h => within (map opp_itv Bf) h /\ val h = - val f).
Proof.
  unfold val, fe_neg. generalize 0%nat as k. intros k Hf. revert k.
  induction Hf as [|a x Bf f Hx Hf IH]; intros k Hfit; simpl in *.
  - apply yields_ret. split; [constructor|done].
  - apply andb_true_iff in Hfit as [H1 H2].
    assert (inside (opp_itv a) (- x)) as Hxy by (unfold inside, opp_itv in *; simpl; lia).
    rewrite (fits_inside _ _ _ H1 Hxy). cbn [bind].
    eapply yields_bind; [exact (IH (S k) H2)|]. intros h [Hh E].
    apply yields_ret. split; [by constructor|]. simpl. rewrite E. lia.
Qed.

(** Under the documented preconditions (1.1*2^25, 1.1*2^24 per limb) [fe_add], [fe_sub] and
    [fe_neg] do not overflow, meet their documented postconditions, and compute the sum,
    difference and negation of the values. *)
Theorem fe_linear_correct f g :
  within (fbd 36909875 18454937) f -> within (fbd 36909875 18454937) g ->
  yields (fe_add f g) (fun h => within (fbd 73819750 36909875) h /\ val h = val f + val g) /\
  yields (fe_sub f g) (fun h => within (fbd 73819750 36909875) h /\ val h = val f - val g) /\
  yields (fe_neg f) (fun h => within (fbd 36909875 18454937) h /\ val h = - val f).
Proof.
  intros Hf Hg. split; [|split].
  - eapply yields_mono; [exact (fe_add_spec _ _ f g eq_refl Hf Hg eq_refl)|].
    intros h [Hh E]. split; [eapply subsumes_sound; [|exact Hh]; reflexivity|done].
  - eapply yields_mono; [exact (fe_sub_spec _ _ f g eq_refl Hf Hg eq_refl)|].
    intros h [Hh E]. split; [eapply subsumes_sound; [|exact Hh]; reflexivity|done].
  - exact (fe_neg_spec _ f Hf eq_refl).
Qed.

Lemma fe_linear_correct_witness :
  let f := [36909875; -18454937; 0; 0; 0; 0; 0; 0; 0; 1] in
  yields (fe_add f fe_1) (fun h => within (fbd 73819750 36909875) h /\ val h = val f + val fe_1) /\
  yields (fe_sub f fe_1) (fun h => within (fbd 73819750 36909875) h /\ val h = val f - val fe_1) /\
  yields (fe_neg f) (fun h => within (fbd 36909875 18454937) h /\ val h = - val f).
Proof. intros f. apply (fe_linear_correct f fe_1); repeat constructor; vm_compute; congruence. Defined.

(** ** Conditional move *)

Lemma signed_shiftr n x : 0 <= n -> - 2 ^ n <= x < 2 ^ n <-> Z.shiftr x n = 0 \/ Z.shiftr x n = -1.
Proof.
  intros Hn. rewrite Z.shiftr_div_pow2 by lia. assert (0 < 2 ^ n) by (apply Z.pow_pos_nonneg; lia).
  pose proof (Z.div_mod x (2 ^ n)). pose proof (Z.mod_pos_bound x (2 ^ n)).
  split; intros; nia.
Qed.

Lemma lxor_signed n x y :
  0 <= n -> - 2 ^ n <= x < 2 ^ n -> - 2 ^ n <= y < 2 ^ n -> - 2 ^ n <= Z.lxor x y < 2 ^ n.
Proof.
  intros Hn Hx Hy. rewrite signed_shiftr in * by lia. rewrite Z.shiftr_lxor.
  destruct Hx as [-> | ->], Hy as [-> | ->]; vm_compute; auto.
Qed.

Lemma testbit_top x n : 0 <= n -> 0 <= x < 2 ^ (n + 1) -> Z.testbit x n = (2 ^ n <=? x).
Proof.
  intros Hn Hx. assert (0 < 2 ^ n) by (apply Z.pow_pos_nonneg; lia).
  rewrite Z.pow_add_r in Hx by lia. rewrite Z.testbit_eqb by lia.
  destruct (Z.leb_spec (2 ^ n) x).
  - rewrite <- (Z.div_unique x (2 ^ n) 1 (x - 2 ^ n)) by lia. done.
  - rewrite Z.div_small by lia. done.
Qed.

(** The assertion of [fe_cmov] holds exactly of 0 and 1. *)
Lemma cmov_assert_spec b : 0 <= b < 2 ^ 32 -> cmov_assert b = true <-> b = 0 \/ b = 1.
Proof.
  intros Hb. split; [|intros [-> | ->]; reflexivity].
  unfold cmov_assert. cbv zeta. intros H. apply Z.eqb_eq in H.
  destruct (decide (b = 0)) as [|H0]; [by left|]. destruct (decide (b = 1)) as [|H1]; [by right|].
  exfalso. unfold uwrap in H. rewrite (Z.mod_small (b - 1)), (Z.mod_small (b - 2)) in H by lia.
  apply (f_equal (fun x => Z.testbit x 31)) in H. change (Z.testbit (2 ^ 32 - 1) 31) with true in H.
  rewrite Z.lor_spec, !Z.land_spec, !Z.mod_pow2_bits_low, !Z.lnot_spec in H by lia.
  rewrite !testbit_top in H by (simpl; lia).
  destruct (Z.leb_spec (2 ^ 31) b), (Z.leb_spec (2 ^ 31) (b - 1)), (Z.leb_spec (2 ^ 31) (b - 2)); simpl in H; lia || done.
Qed.

(** The range of [int32_t], per limb. *)
Definition int32_b : list itv := replicate 10 (- 2 ^ 31, 2 ^ 31 - 1).

Lemma cmov_limb_spec b f g :
  b = 0 \/ b = 1 -> - 2 ^ 31 <= f < 2 ^ 31 -> - 2 ^ 31 <= g < 2 ^ 31 ->
  cmov_limb b f g = if b =? 1 then g else f.
Proof.
  intros [-> | ->] Hf Hg; unfold cmov_limb; simpl (_ =? _); cbv iota.
  - change (uwrap 32 (Z.opp 0)) with 0. rewrite Z.land_0_r. change (swrap 32 0) with 0. apply Z.lxor_0_r.
  - change (uwrap 32 (Z.opp 1)) with (Z.ones 32).
    rewrite Z.land_ones by lia. unfold uwrap. rewrite Z.mod_mod by lia.
    assert (- 2 ^ 31 <= Z.lxor f g < 2 ^ 31) as Hx.
    { apply lxor_signed; lia. }
    unfold swrap. rewrite Zplus_mod_idemp_l. fold (swrap 32 (Z.lxor f g)).
    rewrite swrap_id by (simpl; lia).
    rewrite <- Z.lxor_assoc, Z.lxor_nilpotent. apply Z.lxor_0_l.
Qed.

Lemma map2M_cmov b n f g :
  b = 0 \/ b = 1 -> within (replicate n (- 2 ^ 31, 2 ^ 31 - 1)) f ->
  within (replicate n (- 2 ^ 31, 2 ^ 31 - 1)) g ->
  map2M (fun x y => Ret (cmov_limb b x y)) f g = Ret (if b =? 0 then f else g).
Proof.
  intros Hb. revert f g. induction n as [|n IH]; intros f g Hf Hg; simpl in *.
  - inversion Hf; inversion Hg; subst. by destruct (b =? 0).
  - limb Hf x. limb Hg y. unfold inside in *. simpl in *. rewrite IH by done.
    rewrite cmov_limb_spec by (simpl; lia). destruct Hb as [-> | ->]; reflexivity.
Qed.

Lemma fe_cmov_spec f g b :
  within int32_b f -> within int32_b g -> 0 <= b < 2 ^ 32 ->
  fe_cmov f g b = if b =? 0 then Ret f else if b =? 1 then Ret g else Fault AssertFailed.
Proof.
  intros Hf Hg Hb. unfold fe_cmov. pose proof (cmov_assert_spec b Hb) as Ha.
  destruct (cmov_assert b).
  - assert (b = 0 \/ b = 1) as Hb' by tauto. rewrite (map2M_cmov b 10) by done.
    destruct Hb' as [-> | ->]; reflexivity.
  - destruct (Z.eqb_spec b 0), (Z.eqb_spec b 1); try done; exfalso; intuition congruence.
Qed.

(** [fe_cmov(f, g, b)] is [b ? g : f] on any two field elements in memory when [b] is 0 or
    1, and fails its assertion for every other [unsigned int]. *)
Theorem fe_cmov_correct f g b :
  within int32_b f -> within int32_b g -> 0 <= b < 2 ^ 32 ->
  fe_cmov f g b = if b =? 0 then Ret f else if b =? 1 then Ret g else Fault AssertFailed.
Proof. exact (fe_cmov_spec f g b). Qed.

Lemma fe_cmov_correct_witness :
  fe_cmov fe_0 fe_1 1 = Ret fe_1 /\ fe_cmov fe_0 fe_1 0 = Ret fe_0 /\ fe_cmov fe_0 fe_1 2 = Fault AssertFailed.
Proof.
  assert (within int32_b fe_0 /\ within int32_b fe_1) as [H0 H1]
    by (split; repeat constructor; vm_compute; congruence).
  rewrite !(fe_cmov_correct fe_0 fe_1 _ H0 H1) by lia. auto.
Defined.

(** ** Serialization *)

(** What [fe_tobytes] accepts: the bounds of [fe_mul], 1.65*2^26, 1.65*2^25.
    The documented precondition is stronger, 1.1*2^26, 1.1*2^25. *)
Definition tob_b : list itv := loose.

(** Canonical limbs. *)
Definition canon_b : list itv :=
  let e := (0, 2 ^ 26 - 1) in let o := (0, 2 ^ 25 - 1) in [e; o; e; o; e; o; e; o; e; o].

#[global] Instance tob_carry_bounded M i :
  BoundedStep (same_mod wtf M) (tob_carry i) (carry_bw wtf M 32 (fe_width i) 0 1 i (S i)).
Proof. exact (carry_floor_bounded wtf M 32 (fe_width i) i (S i)). Qed.

(** Floors compose: [q] is the carry out of the limbs below weight [W]. *)
Lemma floor_step V W W' w h q :
  0 < W -> 0 <= w -> W' = W * 2 ^ w -> q = V / W -> Z.shiftr (h + q) w = (V + W * h) / W'.
Proof.
  intros HW Hw -> ->. rewrite Z.shiftr_div_pow2 by lia.
  assert (0 < 2 ^ w) by (apply Z.pow_pos_nonneg; lia).
  rewrite <- Z.div_div, (Z.mul_comm W h), Z.div_add by lia. f_equal. lia.
Qed.

(** The loop over [q] computes [floor((h + q0) / 2^255)]. *)
Lemma q_steps_spec h q0 :
  within tob_b h -> abd 33 q0 ->
  yields (foldM (q_step h) [0; 1; 2; 3; 4; 5; 6; 7; 8; 9]%nat q0) (fun q => q = (val h + q0) / 2 ^ 255).
Proof.
  intros Hf Hq. unfold within, tob_b, loose, fbd in Hf. limbs_f Hf.
  cbn [foldM]. unfold q_step. cbn [lookup_total list_lookup_total]. unfold fe_width. simpl Nat.even.
  cbv iota. repeat chk. apply yields_ret. subst.
  unfold val. cbn [eval]. rewrite wtf_0, wtf_1, wtf_2, wtf_3, wtf_4, wtf_5, wtf_6, wtf_7, wtf_8, wtf_9.
  rewrite (floor_step _ (2 ^ 0) (2 ^ 26) 26 f0 _ eq_refl ltac:(done) eq_refl (eq_sym (Z.div_1_r q0))).
  rewrite (floor_step _ (2 ^ 26) (2 ^ 51) 25 f1 _ eq_refl ltac:(done) eq_refl eq_refl).
  rewrite (floor_step _ (2 ^ 51) (2 ^ 77) 26 f2 _ eq_refl ltac:(done) eq_refl eq_refl).
  rewrite (floor_step _ (2 ^ 77) (2 ^ 102) 25 f3 _ eq_refl ltac:(done) eq_refl eq_refl).
  rewrite (floor_step _ (2 ^ 102) (2 ^ 128) 26 f4 _ eq_refl ltac:(done) eq_refl eq_refl).
  rewrite (floor_step _ (2 ^ 128) (2 ^ 153) 25 f5 _ eq_refl ltac:(done) eq_refl eq_refl).
  rewrite (floor_step _ (2 ^ 153) (2 ^ 179) 26 f6 _ eq_refl ltac:(done) eq_refl eq_refl).
  rewrite (floor_step _ (2 ^ 179) (2 ^ 204) 25 f7 _ eq_refl ltac:(done) eq_refl eq_refl).
  rewrite (floor_step _ (2 ^ 204) (2 ^ 230) 26 f8 _ eq_refl ltac:(done) eq_refl eq_refl).
  rewrite (floor_step _ (2 ^ 230) (2 ^ 255) 25 f9 _ eq_refl ltac:(done) eq_refl eq_refl).
  f_equal. ring.
Qed.

(** The quotient of the precondition's range: [floor(h / p)], from the estimate. *)
Lemma q_exact H h9 q0 q :
  Z.abs H <= 2 ^ 256 -> Z.abs (H - 2 ^ 230 * h9) <= 2 ^ 231 ->
  q0 = Z.shiftr (19 * h9 + 2 ^ 24) 25 -> q = (H + q0) / 2 ^ 255 -> q = H / prime_p.
Proof.
  intros HH H9 -> ->. rewrite Z.shiftr_div_pow2 by lia. rewrite prime_p_eq.
  pose proof (Z.div_mod (19 * h9 + 2 ^ 24) (2 ^ 25) ltac:(lia)).
  pose proof (Z.mod_pos_bound (19 * h9 + 2 ^ 24) (2 ^ 25) ltac:(lia)).
  pose proof (Z.div_mod H (2 ^ 255 - 19) ltac:(lia)).
  pose proof (Z.mod_pos_bound H (2 ^ 255 - 19) ltac:(lia)).
  symmetry. apply (Z.div_unique _ _ _ (H mod (2 ^ 255 - 19) - 19 * (H / (2 ^ 255 - 19)) + (19 * h9 + 2 ^ 24) / 2 ^ 25)); [|lia].
  left. set (q0 := (19 * h9 + 2 ^ 24) / 2 ^ 25) in *. set (r := H mod (2 ^ 255 - 19)) in *.
  set (q := H / (2 ^ 255 - 19)) in *. pow_consts. lia.
Qed.

(** Values of elements within the precondition. *)
Lemma tob_val_bounds h :
  within tob_b h -> Z.abs (val h) <= 2 ^ 256 /\ Z.abs (val h - 2 ^ 230 * h !!! 9%nat) <= 2 ^ 231.
Proof.
  intros Hf. unfold within, tob_b, loose, fbd in Hf. limbs_f Hf. unfold abd in *.
  cbn [lookup_total list_lookup_total]. unfold val. cbn [eval].
  rewrite wtf_0, wtf_1, wtf_2, wtf_3, wtf_4, wtf_5, wtf_6, wtf_7, wtf_8, wtf_9. pow_consts. lia.
Qed.

Definition tob_carry_b (h0 : itv) : option (list itv) :=
  fold_b (fun i => carry_bw wtf 0 32 (fe_width i) 0 1 i (S i)) [0; 1; 2; 3; 4; 5; 6; 7; 8]%nat
    (<[0%nat := h0]> tob_b).

(** The bounds before the last limb is cut. *)
Definition pre_canon_b : list itv :=
  let e := (0, 2 ^ 26 - 1) in let o := (0, 2 ^ 25 - 1) in [e; o; e; o; e; o; e; o; e; (-2 ^ 26, 2 ^ 26)].

Lemma tob_carry_ok : exists B, tob_carry_b (-110729701, 110729701) = Some B /\ subsumes B pre_canon_b = true.
Proof. eexists. split; [vm_compute; reflexivity | vm_compute; reflexivity]. Qed.

(** Cutting the last limb makes the value canonical modulo [2^255]. *)
Lemma pre_canon_cut r :
  within pre_canon_b r ->
  yields (let* h9 := I32 (r !!! 9%nat - shl 32 (Z.shiftr (r !!! 9%nat) 25) 25) in Ret (<[9%nat := h9]> r))
    (fun r' => within canon_b r' /\ val r' = val r mod 2 ^ 255).
Proof.
  intros H. unfold within, pre_canon_b in H.
  limb H r0. limb H r1. limb H r2. limb H r3. limb H r4.
  limb H r5. limb H r6. limb H r7. limb H r8. limb H r9. inversion H; subst. clear H.
  unfold inside in *. cbn [fst snd] in *. cbn [lookup_total list_lookup_total].
  rewrite Z.shiftr_div_pow2 by lia.
  pose proof (Z.div_mod r9 (2 ^ 25) ltac:(lia)) as Ed. pose proof (Z.mod_pos_bound r9 (2 ^ 25) ltac:(lia)) as Em.
  unfold shl. rewrite swrap_id by (rewrite ?Z.shiftl_mul_pow2 by lia; simpl Z.sub; lia).
  rewrite Z.shiftl_mul_pow2 by lia.
  replace (r9 - r9 / 2 ^ 25 * 2 ^ 25) with (r9 mod 2 ^ 25) by lia.
  rewrite I_ok by (simpl Z.sub; lia). cbn [bind]. apply yields_ret. simpl insert. split.
  - repeat constructor; simpl; lia.
  - unfold val. cbn [eval].
    rewrite wtf_0, wtf_1, wtf_2, wtf_3, wtf_4, wtf_5, wtf_6, wtf_7, wtf_8, wtf_9.
    rewrite Ed at 2. apply (Z.mod_unique _ _ (r9 / 2 ^ 25)).
    + left. set (m := r9 mod 2 ^ 25) in *. clearbody m. pow_consts. lia.
    + change (2 ^ 255) with (2 ^ 230 * 2 ^ 25). ring.
Qed.

Lemma fe_canon_spec h :
  within tob_b h -> yields (fe_canon h) (fun r => within canon_b r /\ val r = val h mod prime_p).
Proof.
  intros Hh. pose proof (tob_val_bounds h Hh) as [HV H9].
  pose proof (within_length _ _ Hh) as Hl. change (length tob_b) with 10%nat in Hl.
  pose proof (within_lookup _ _ 9 Hh ltac:(lia)) as B9. change (abd 55364812 (h !!! 9%nat)) in B9.
  pose proof (within_lookup _ _ 0 Hh ltac:(lia)) as B0. change (abd 110729625 (h !!! 0%nat)) in B0.
  unfold fe_canon, fe in *. chk. chk. subst x. 
  eapply yields_bind; [apply q_steps_spec; [done|]|].
  { eapply abd_weaken; [subst x0; abd_auto|reflexivity]. }
  intros q Eq. rewrite E0 in Eq. apply (q_exact _ (h !!! 9%nat) _ q) in Eq; [|done|done|done].
  pose proof (Z.div_mod (val h) prime_p ltac:(done)) as Ed.
  pose proof (Z.mod_pos_bound (val h) prime_p ltac:(done)) as Em. rewrite <- Eq in Ed.
  assert (abd 4 q) as Bq by (rewrite prime_p_eq in *; unfold abd; pow_consts; lia).
  chk. chk. subst x. cbv zeta.
  destruct tob_carry_ok as (B & EB & Bok). unfold tob_carry_b in EB.
  assert (within (<[0%nat := (-110729701, 110729701)]> tob_b) (<[0%nat := x1]> h)) as W0
    by (apply within_insert; [done|]; change (abd 110729701 x1); eapply abd_weaken; [eassumption|reflexivity]).
  eapply yields_bind; [exact (bounded_step (R:=same_mod wtf 0) _ _ _ EB W0)|]. intros r [Wr [k Er]].
  eapply yields_mono; [exact (pre_canon_cut r (subsumes_sound _ _ _ Bok Wr))|].
  intros r' [Wr' Er']. split; [done|]. rewrite Er'. unfold val at 1. rewrite Er.
  rewrite eval_insert by lia. fold (val h). subst x1. change (wtf (0 + 0)) with 1.
  symmetry. set (m := val h mod prime_p) in *. rewrite prime_p_eq in *. unfold fe in *.
  apply (Z.mod_unique _ _ q); [left|]; clear - Ed Em; pow_consts; lia.
Qed.

Lemma fe_store_bytes r : bytes (fe_store r).
Proof. unfold fe_store. repeat constructor; try apply u8_byte. Qed.

Lemma fe_store_val r : within canon_b r -> le_val (fe_store r) = val r.
Proof.
  intros H. unfold within, canon_b in H.
  limb H r0. limb H r1. limb H r2. limb H r3. limb H r4.
  limb H r5. limb H r6. limb H r7. limb H r8. limb H r9. inversion H; subst. clear H.
  unfold inside in *. cbn [fst snd] in *.
  unfold fe_store. cbn [lookup_total list_lookup_total].
  rewrite !u8_spec by lia. rewrite !u8_lor_spec by lia.
  pose proof (cut_2 r0 8 16 24 ltac:(done) eq_refl eq_refl).
  pose proof (cut_2 r1 6 14 22 ltac:(done) eq_refl eq_refl).
  pose proof (cut_2 r2 5 13 21 ltac:(done) eq_refl eq_refl).
  pose proof (cut_2 r3 3 11 19 ltac:(done) eq_refl eq_refl).
  pose proof (cut_2 r4 2 10 18 ltac:(done) eq_refl eq_refl).
  pose proof (cut_2 r5 8 16 24 ltac:(done) eq_refl eq_refl).
  pose proof (cut_2 r6 7 15 23 ltac:(done) eq_refl eq_refl).
  pose proof (cut_2 r7 5 13 21 ltac:(done) eq_refl eq_refl).
  pose proof (cut_2 r8 4 12 20 ltac:(done) eq_refl eq_refl).
  pose proof (cut_2 r9 2 10 18 ltac:(done) eq_refl eq_refl).
  unfold val. cbn [eval le_val].
  rewrite wtf_0, wtf_1, wtf_2, wtf_3, wtf_4, wtf_5, wtf_6, wtf_7, wtf_8, wtf_9.
  rewrite (Z.mod_small (r4 / 2 ^ 18)), (Z.mod_small (r9 / 2 ^ 18)) by
    (split; [apply Z.div_pos | apply Z.div_lt_upper_bound]; lia).
  change (2 ^ 0) with 1. rewrite !Z.div_1_r. pow_consts. lia.
Qed.

(** [fe_tobytes] is the canonical encoding. *)
Lemma fe_tobytes_spec h :
  within tob_b h -> fe_tobytes h = Ret (le_bytes 32 (val h mod prime_p)).
Proof.
  intros Hh. unfold fe_tobytes. destruct (fe_canon_spec h Hh) as (r & -> & Hr & Er). cbn [bind].
  f_equal. apply le_val_inj.
  - apply fe_store_bytes.
  - apply bytes_le_bytes.
  - rewrite length_le_bytes. reflexivity.
  - rewrite fe_store_val, le_val_le_bytes, Er by done. symmetry. apply Z.mod_small.
    pose proof (Z.mod_pos_bound (val h) prime_p ltac:(done)) as Hm. rewrite prime_p_eq in *.
    simpl Z.of_nat. lia.
Qed.

(** For every element within 1.65*2^26, 1.65*2^25 (the documented bounds are 1.1*2^26, 1.1*2^25), [fe_tobytes] writes the 32-byte
    little-endian encoding of the least nonnegative residue of its value, with no overflow:
    equal field elements have equal encodings. *)
Theorem fe_tobytes_correct h :
  within tob_b h -> fe_tobytes h = Ret (le_bytes 32 (val h mod prime_p)).
Proof. exact (fe_tobytes_spec h). Qed.

Lemma fe_tobytes_correct_witness :
  fe_tobytes [-19; 0; 0; 0; 0; 0; 0; 0; 0; 33554432] = Ret (le_bytes 32 0).
Proof.
  apply (fe_tobytes_correct [-19; 0; 0; 0; 0; 0; 0; 0; 0; 33554432]).
  repeat constructor; vm_compute; congruence.
Defined.

Lemma fe_isnegative_spec f : within tob_b f -> fe_isnegative f = Ret ((val f mod prime_p) mod 2).
Proof.
  intros Hf. unfold fe_isnegative. rewrite fe_tobytes_spec by done. cbn [bind].
  change (le_bytes 32 ?v !!! 0%nat) with (v mod 256). f_equal.
  change 1 with (Z.ones 1). rewrite Z.land_ones by lia. change (2 ^ 1) with 2.
  apply Z.mod_mod_divide. exists 128. done.
Qed.

Lemma fe_isnonzero_spec f :
  within tob_b f -> fe_isnonzero f = Ret (if val f mod prime_p =? 0 then 0 else 1).
Proof.
  intros Hf. unfold fe_isnonzero. rewrite fe_tobytes_spec by done. cbn [bind].
  rewrite or_nonzero by (try apply bytes_le_bytes; rewrite ?length_le_bytes; done).
  rewrite le_val_le_bytes, Z.mod_small; [done|].
  pose proof (Z.mod_pos_bound (val f) prime_p ltac:(done)) as Hm. rewrite prime_p_eq in *.
  simpl Z.of_nat. lia.
Qed.

(** The predicates on field elements decide the mathematical ones: [fe_isnonzero] is 0
    exactly on the elements congruent to 0, and [fe_isnegative] is the parity of the least
    nonnegative residue. *)
Theorem fe_predicates_correct f :
  within tob_b f ->
  fe_isnonzero f = Ret (if val f mod prime_p =? 0 then 0 else 1) /\
  fe_isnegative f = Ret ((val f mod prime_p) mod 2).
Proof. intros Hf. split; [exact (fe_isnonzero_spec f Hf) | exact (fe_isnegative_spec f Hf)]. Qed.

Lemma fe_predicates_correct_witness :
  fe_isnonzero [-20; 0; 0; 0; 0; 0; 0; 0; 0; 33554432] = Ret 1 /\
  fe_isnegative [-20; 0; 0; 0; 0; 0; 0; 0; 0; 33554432] = Ret 0.
Proof.
  apply (fe_predicates_correct [-20; 0; 0; 0; 0; 0; 0; 0; 0; 33554432]).
  repeat constructor; vm_compute; congruence.
Defined.
