(* ===== verification/Prime.v ===== *)
(** Primality of [2^255 - 19], the modulus of the field, by a chain of
    Pocklington certificates, and the field [F] of its residues. *)

From Stdlib Require Import Zmod Znumtheory Zdivisibility.
From S2P Require Import Prelude Field FieldFacts.

(** ** Modular exponentiation for the certificates *)

Fixpoint powmod_pos (a : Z) (e : positive) (m : Z) : Z :=
  match e with
  | xH => a mod m
  | xO e' => let t := powmod_pos a e' m in (t * t) mod m
  | xI e' => let t := powmod_pos a e' m in (t * t * a) mod m
  end.

Definition powmod (a e m : Z) : Z :=
  match e with Zpos e => powmod_pos a e m | _ => 1 mod m end.

Lemma powmod_spec a e m : 0 <= e -> powmod a e m = a ^ e mod m.
Proof.
  destruct e as [|e|e]; simpl powmod; [done| |lia]. intros _.
  induction e as [e IH|e IH|]; simpl powmod_pos.
  - replace (Zpos e~1) with (Zpos e + Zpos e + 1) by lia. rewrite !Z.pow_add_r, Z.pow_1_r by lia.
    rewrite IH, (Zmult_mod (_ * _) a), <- (Zmult_mod (_ ^ _)), <- Zmult_mod. done.
  - replace (Zpos e~0) with (Zpos e + Zpos e) by lia. rewrite Z.pow_add_r, IH by lia.
    symmetry. apply Zmult_mod.
  - rewrite Z.pow_1_r. done.
Qed.

(** ** Pocklington's criterion, with one prime factor *)

Lemma prime_divisor n : 1 < n -> exists r, Z.prime r /\ (r | n).
Proof.
  intros Hn. assert (0 <= n) as H0 by lia. revert n H0 Hn.
  apply (Z_lt_induction (fun n => 1 < n -> exists r, Z.prime r /\ (r | n))). intros n IH Hn.
  destruct (prime_dec n) as [Hp|Hp].
  - exists n. split; [by apply prime_alt|]. reflexivity.
  - destruct (not_prime_divide n Hn Hp) as (d & Hd & Hdn).
    destruct (IH d ltac:(lia) ltac:(lia)) as (r & Hr & Hrd). exists r. split; [done|].
    etransitivity; eassumption.
Qed.

(** A composite number has a prime divisor below its square root. *)
Lemma small_prime_divisor n :
  1 < n -> ~ Z.prime n -> exists r, Z.prime r /\ (r | n) /\ r * r <= n.
Proof.
  intros Hn Hp. destruct (not_prime_divide n Hn) as (d & Hd & c & Hc); [by rewrite <- prime_alt|].
  assert (exists e, 1 < e /\ (e | n) /\ e * e <= n) as (e & He & Hen & Hsq).
  { destruct (Z.le_gt_cases (d * d) n); [exists d|exists c]; repeat split; try nia.
    - exists c. done.
    - exists d. lia. }
  destruct (prime_divisor e He) as (r & Hr & Hre). exists r. split; [done|]. split; [by etransitivity|].
  apply Z.divide_pos_le in Hre; [|lia]. pose proof (Z.prime_ge_2 _ Hr). nia.
Qed.

(** An element of prime order [q] modulo a prime [r] forces [q | r - 1]. *)
Lemma order_divides r q (b : Zmod r) :
  Z.prime r -> Z.prime q -> b <> Zmod.one -> Zmod.pow b q = Zmod.one -> (q | r - 1).
Proof.
  intros Hr Hq Hb Hbq. pose proof (Z.prime_ge_2 _ Hq) as Hq2. pose proof (Z.prime_ge_2 _ Hr) as Hr2.
  assert (b <> Zmod.zero) as Hb0.
  { intros ->. rewrite Zmod.pow_0_l in Hbq by lia. symmetry in Hbq. revert Hbq.
    apply Zmod.one_neq_zero. lia. }
  assert (Z.gcd (Zmod.to_Z b) r = 1) as Hco.
  { pose proof (Zmod.to_Z_range b). apply Zmod.to_Z_nz in Hb0.
    rewrite Z.gcd_comm. apply Z.coprime_prime_small; [done|lia]. }
  destruct (Z.BoolSpec_divide q (r - 1)) as [|Hn]; [done|]. exfalso. apply Hb.
  assert (Z.gcd q (r - 1) = 1) as Hrel by (by apply Z.coprime_prime_l).
  apply Z.gcd_bezout in Hrel. destruct Hrel as (u & v & E).
  rewrite <- (Zmod.pow_1_r b), <- E, Zmod.pow_add_r_coprime by done.
  rewrite !(Z.mul_comm _ q), !(Z.mul_comm _ (r - 1)), !Zmod.pow_mul_r_coprime by done.
  rewrite Hbq. change (r - 1) with (Z.pred r). rewrite Zmod.fermat_nz by done.
  rewrite !Zmod.pow_1_l. apply Zmod.mul_1_l.
Qed.

(** The certificate: [q] a prime factor of [n - 1], [a] a base, and no
    divisor of the form [1 + k q] below the square root of [n]. *)
Definition pock_ok (n q a K : Z) : bool :=
  let b := powmod a ((n - 1) / q) n in
  (1 <? n) && (1 <? q) && (0 <=? K) && ((n - 1) mod q =? 0) && (Z.gcd (b - 1) n =? 1) &&
  (powmod b q n =? 1) && (n <? (1 + (K + 1) * q) * (1 + (K + 1) * q)) &&
  forallb (fun k => negb (n mod (1 + Z.of_nat k * q) =? 0)) (seq 1 (Z.to_nat K)).

Lemma pocklington n q a K : Z.prime q -> pock_ok n q a K = true -> Z.prime n.
Proof.
  intros Hq H. unfold pock_ok in H. set (b := powmod a ((n - 1) / q) n) in *.
  rewrite !andb_true_iff, !Z.ltb_lt, Z.leb_le, !Z.eqb_eq, forallb_forall in H.
  destruct H as (((((((Hn & Hq1) & HK) & Hdiv) & Hg) & Hb) & Hsq) & Hks).
  destruct (prime_dec n) as [Hp|Hp]; [by apply prime_alt|]. exfalso. rewrite <- prime_alt in Hp.
  destruct (small_prime_divisor n Hn Hp) as (r & Hr & [c Hc] & Hrn).
  pose proof (Z.prime_ge_2 _ Hr) as Hr2. rewrite powmod_spec in Hb by lia.
  assert (q | r - 1) as [k Hk].
  { apply (order_divides r q (Zmod.of_Z r b)); [done|done| |].
    - intros E. assert ((b - 1) mod r = 0) as E'.
      { apply (f_equal Zmod.to_Z) in E. rewrite Zmod.to_Z_of_Z, Zmod.to_Z_1_pos in E by lia.
        rewrite Zminus_mod, E, (Z.mod_small 1) by lia. done. }
      apply Z.mod_divide in E'; [|lia].
      assert (r | Z.gcd (b - 1) n) as Hrg by (apply Z.gcd_greatest; [done|exists c; done]).
      rewrite Hg in Hrg. apply Z.divide_1_r_nonneg in Hrg; lia.
    - rewrite <- Zmod.of_Z_pow by lia. apply Zmod.to_Z_inj. rewrite Zmod.to_Z_of_Z, Zmod.to_Z_1_pos by lia.
      rewrite <- (Z.mod_mod_divide _ n r), Hb by (exists c; done). apply Z.mod_small. lia. }
  assert (0 < k) by nia. assert (k <= K).
  { destruct (Z.le_gt_cases k K); [done|]. assert (1 + (K + 1) * q <= r) by nia. nia. }
  specialize (Hks (Z.to_nat k)). rewrite Z2Nat.id in Hks by lia.
  assert (n mod (1 + k * q) = 0) as E.
  { replace (1 + k * q) with r by lia. rewrite Hc. apply Z.mod_mul. lia. }
  rewrite E in Hks. discriminate Hks. apply in_seq. lia.
Qed.

(** Trial division, for the end of the chain. *)
Lemma prime_trial n K :
  1 < n -> n < (Z.of_nat K + 2) * (Z.of_nat K + 2) ->
  forallb (fun k => negb (n mod Z.of_nat k =? 0)) (seq 2 K) = true -> Z.prime n.
Proof.
  intros Hn HK H. destruct (prime_dec n) as [Hp|Hp]; [by apply prime_alt|]. exfalso.
  rewrite <- prime_alt in Hp.
  destruct (small_prime_divisor n Hn Hp) as (r & Hr & [c Hc] & Hrn).
  pose proof (Z.prime_ge_2 _ Hr) as Hr2. rewrite forallb_forall in H. specialize (H (Z.to_nat r)).
  rewrite Z2Nat.id, Hc, Z.mod_mul in H by lia. discriminate H. apply in_seq. nia.
Qed.

(** ** The chain *)

Lemma prime_8574133 : Z.prime 8574133.
Proof. apply (prime_trial _ 2927); [lia|lia|vm_compute; reflexivity]. Qed.

Lemma prime_1919519569386763 : Z.prime 1919519569386763.
Proof. apply (pocklington _ 8574133 2 6 prime_8574133). vm_compute. reflexivity. Qed.

Lemma prime_75445702479781427272750846543864801 : Z.prime 75445702479781427272750846543864801.
Proof. apply (pocklington _ 1919519569386763 7 150 prime_1919519569386763). vm_compute. reflexivity. Qed.

Lemma prime_q1 : Z.prime 74058212732561358302231226437062788676166966415465897661863160754340907.
Proof. apply (pocklington _ 75445702479781427272750846543864801 2 4 prime_75445702479781427272750846543864801). vm_compute. reflexivity. Qed.

Lemma prime_prime_p : Z.prime prime_p.
Proof.
  apply (pocklington _ 74058212732561358302231226437062788676166966415465897661863160754340907 2 0 prime_q1).
  vm_compute. reflexivity.
Qed.
