(* ===== verification/Fp.v ===== *)
(** The field of residues modulo [2^255 - 19] and the interface between the
    limb arithmetic and its clients: what each [fe_*] operation promises about
    the bounds of its result and the residue it stands for. *)

From Stdlib Require Export Zmod ZmodNsatz Field_tac.
From Stdlib Require Import Field_theory Integral_domain.
From S2P Require Import Prelude Limbs Bytes Field FieldFacts FieldBytes Prime.

Abbreviation F := (Zmod prime_p).

Declare Scope F_scope.
Delimit Scope F_scope with F.
Notation "0" := (@Zmod.zero prime_p) : F_scope.
Notation "1" := (@Zmod.one prime_p) : F_scope.
Infix "+" := (@Zmod.add prime_p) : F_scope.
Infix "-" := (@Zmod.sub prime_p) : F_scope.
Infix "*" := (@Zmod.mul prime_p) : F_scope.
Infix "/" := (@Zmod.mdiv prime_p) : F_scope.
Infix "^" := (@Zmod.pow prime_p) : F_scope.
Notation "- x" := (@Zmod.opp prime_p x) : F_scope.
Notation "/ x" := (@Zmod.inv prime_p x) : F_scope.

Definition inF (z : Z) : F := Zmod.of_Z prime_p z.

Lemma F_field : field_theory 0%F 1%F Zmod.add Zmod.mul Zmod.sub Zmod.opp Zmod.mdiv Zmod.inv (@eq F).
Proof. exact (Zmod.field_theory prime_p prime_prime_p). Qed.

Add Field F_field_inst : F_field.

#[global] Instance F_domain : Integral_domain (Rr := Ring_Zmod prime_p) :=
  Integral_domain_Zmod prime_p prime_prime_p.

#[global] Instance F_eq_dec : EqDecision F.
Proof.
  intros x y. destruct (Zmod.eqb x y) eqn:E; [left | right].
  - by apply Zmod.eqb_eq.
  - intros ->. rewrite Zmod.eqb_refl in E. discriminate E.
Defined.

Lemma F_mul_zero (x y : F) : (x * y = 0 -> x = 0 \/ y = 0)%F.
Proof. apply Zmod.mul_0_iff_prime. exact prime_prime_p. Qed.

Lemma F_mul_nonzero (x y : F) : (x <> 0 -> y <> 0 -> x * y <> 0)%F.
Proof. intros Hx Hy H. destruct (F_mul_zero _ _ H); auto. Qed.

Lemma F_one_neq_zero : (1 <> 0)%F.
Proof. apply Zmod.one_neq_zero. done. Qed.

(** ** Representation of field elements *)

(** The residue an element stands for. *)
Definition fval (f : fe) : F := inF (val f).

(** [k] sixteenths of the bound of a reduced element (1.01*2^25, 1.01*2^24). *)
Definition kb (k : Z) : list itv := fbd (k * 2118124) (k * 1059062).

(** [rep k f x]: the limbs of [f] are within [k] sixteenths of the reduced
    bound and [f] stands for [x]. *)
Definition rep (k : Z) (f : fe) (x : F) : Prop := within (kb k) f /\ fval f = x.

Lemma kb_subsumes k k' : k <= k' -> subsumes (kb k) (kb k') = true.
Proof.
  intros H. unfold kb, fbd, subsumes. simpl. rewrite !andb_true_iff, !Z.leb_le. repeat split; lia.
Qed.

Lemma rep_weaken k k' f x : rep k f x -> k <= k' -> rep k' f x.
Proof. intros [H E] Hk. split; [|done]. exact (subsumes_sound _ _ _ (kb_subsumes _ _ Hk) H). Qed.

Lemma rep_within k f x B : subsumes (kb k) B = true -> rep k f x -> within B f.
Proof. intros HB [H _]. exact (subsumes_sound _ _ _ HB H). Qed.

Lemma kb_loose k : k <= 52 -> subsumes (kb k) loose = true.
Proof.
  intros H. unfold kb, loose, fbd, subsumes. simpl. rewrite !andb_true_iff, !Z.leb_le. repeat split; lia.
Qed.

Lemma tight_kb h : within tight h -> within (kb 16) h.
Proof. apply subsumes_sound. reflexivity. Qed.

Lemma rep_loose k f x : k <= 52 -> rep k f x -> within loose f.
Proof. intros Hk. apply rep_within, kb_loose, Hk. Qed.

Lemma rep_tob k f x : k <= 52 -> rep k f x -> within tob_b f.
Proof.
  intros Hk. apply rep_within. unfold kb, tob_b, loose, fbd, subsumes. simpl.
  rewrite !andb_true_iff, !Z.leb_le. repeat split; lia.
Qed.


Lemma inF_eqm x y : x ≡p y -> inF x = inF y.
Proof. intros. by apply Zmod.of_Z_inj. Qed.

(** ** The interface *)

(** [FeOp1 op sem post]: on an argument bounded by [k], if [post k] is
    defined, [op] runs without fault, its result is bounded by [post k] and
    stands for [sem] of the argument; [FeOp2] for two arguments. *)
Class FeOp1 (op : fe -> outcome fe) (sem : F -> F) (post : Z -> option Z) : Prop :=
  fe_op1 k m f x : rep k f x -> post k = Some m -> yields (op f) (fun h => rep m h (sem x)).

Class FeOp2 (op : fe -> fe -> outcome fe) (sem : F -> F -> F) (post : Z -> Z -> option Z) : Prop :=
  fe_op2 k l m f g x y :
    rep k f x -> rep l g y -> post k l = Some m -> yields (op f g) (fun h => rep m h (sem x y)).

(** The operations are matched by name, never unfolded. *)
#[global] Typeclasses Opaque fe_mul fe_sq fe_sq2 fe_add fe_sub fe_neg.

(** Products reduce; sums and differences add the bounds. *)
Definition post_sq (k : Z) : option Z := if k <=? 52 then Some 16 else None.
Definition post_mul (k l : Z) : option Z := if (k <=? 52) && (l <=? 52) then Some 16 else None.
Definition post_neg (k : Z) : option Z := if k <=? 500 then Some k else None.
Definition post_add (k l : Z) : option Z := if (k <=? 500) && (l <=? 500) then Some (k + l) else None.

Lemma rep_fe_0 : rep 1 fe_0 0%F.
Proof. split; [repeat constructor; vm_compute; congruence | done]. Qed.

Lemma rep_fe_1 : rep 1 fe_1 1%F.
Proof. split; [repeat constructor; vm_compute; congruence | done]. Qed.

#[global] Instance fe_mul_op : FeOp2 fe_mul Zmod.mul post_mul.
Proof.
  intros k l m f g x y Hf Hg Hp. unfold post_mul in Hp. destruct (_ && _) eqn:E; [|done].
  injection Hp as <-. rewrite andb_true_iff, !Z.leb_le in E. destruct E as [Hk Hl].
  eapply yields_mono; [exact (fe_mul_spec f g (rep_loose _ _ _ Hk Hf) (rep_loose _ _ _ Hl Hg))|].
  intros h [Hh Ev]. split; [exact (tight_kb h Hh)|]. destruct Hf as [_ <-], Hg as [_ <-].
  unfold fval. rewrite (inF_eqm _ _ Ev). apply Zmod.of_Z_mul.
Qed.

#[global] Instance fe_sq_op : FeOp1 fe_sq (fun x => x * x)%F post_sq.
Proof.
  intros k m f x Hf Hp. unfold post_sq in Hp. destruct (_ <=? _) eqn:E; [|done].
  injection Hp as <-. apply Z.leb_le in E.
  eapply yields_mono; [exact (fe_sq_spec f (rep_loose _ _ _ E Hf))|].
  intros h [Hh Ev]. split; [exact (tight_kb h Hh)|]. destruct Hf as [_ <-].
  unfold fval. rewrite (inF_eqm _ _ Ev). apply Zmod.of_Z_mul.
Qed.

#[global] Instance fe_sq2_op : FeOp1 fe_sq2 (fun x => x * x + x * x)%F post_sq.
Proof.
  intros k m f x Hf Hp. unfold post_sq in Hp. destruct (_ <=? _) eqn:E; [|done].
  injection Hp as <-. apply Z.leb_le in E.
  eapply yields_mono; [exact (fe_sq2_spec f (rep_loose _ _ _ E Hf))|].
  intros h [Hh Ev]. split; [exact (tight_kb h Hh)|]. destruct Hf as [_ <-].
  unfold fval. rewrite (inF_eqm _ _ Ev). unfold inF.
  rewrite <- !Zmod.of_Z_mul, <- Zmod.of_Z_add. f_equal. lia.
Qed.

Lemma kb_fits k l : 0 <= k <= 500 -> 0 <= l <= 500 -> 
  forallb (fits 32) (zip_with add_itv (kb k) (kb l)) = true /\
  forallb (fits 32) (zip_with sub_itvs (kb k) (kb l)) = true.
Proof.
  intros Hk Hl. unfold kb, fbd, add_itv, sub_itvs, fits. simpl.
  rewrite !andb_true_iff, !in_signed_spec. simpl. repeat split; lia.
Qed.

Lemma rep_nonneg k f x : rep k f x -> 0 <= k.
Proof. intros [H _]. unfold within, kb, fbd in H. limb H f0. unfold inside in *. simpl in *. lia. Qed.

#[global] Instance fe_add_op : FeOp2 fe_add Zmod.add post_add.
Proof.
  intros k l m f g x y Hf Hg Hp. unfold post_add in Hp. destruct (_ && _) eqn:E; [|done].
  injection Hp as <-. rewrite andb_true_iff, !Z.leb_le in E. destruct E as [Hk Hl].
  pose proof (rep_nonneg _ _ _ Hf). pose proof (rep_nonneg _ _ _ Hg).
  destruct Hf as [Wf <-], Hg as [Wg <-].
  eapply yields_mono; [exact (fe_add_spec (kb k) (kb l) f g eq_refl Wf Wg (proj1 (kb_fits k l ltac:(lia) ltac:(lia))))|].
  intros h [Hh Ev]. split.
  - eapply subsumes_sound; [|exact Hh]. unfold kb, fbd, subsumes, add_itv. simpl.
    rewrite !andb_true_iff, !Z.leb_le. repeat split; lia.
  - unfold fval. rewrite Ev. apply Zmod.of_Z_add.
Qed.

#[global] Instance fe_sub_op : FeOp2 fe_sub Zmod.sub post_add.
Proof.
  intros k l m f g x y Hf Hg Hp. unfold post_add in Hp. destruct (_ && _) eqn:E; [|done].
  injection Hp as <-. rewrite andb_true_iff, !Z.leb_le in E. destruct E as [Hk Hl].
  pose proof (rep_nonneg _ _ _ Hf). pose proof (rep_nonneg _ _ _ Hg).
  destruct Hf as [Wf <-], Hg as [Wg <-].
  eapply yields_mono; [exact (fe_sub_spec (kb k) (kb l) f g eq_refl Wf Wg (proj2 (kb_fits k l ltac:(lia) ltac:(lia))))|].
  intros h [Hh Ev]. split.
  - eapply subsumes_sound; [|exact Hh]. unfold kb, fbd, subsumes, sub_itvs. simpl.
    rewrite !andb_true_iff, !Z.leb_le. repeat split; lia.
  - unfold fval. rewrite Ev. apply Zmod.of_Z_sub.
Qed.

#[global] Instance fe_neg_op : FeOp1 fe_neg Zmod.opp post_neg.
Proof.
  intros k m f x Hf Hp. unfold post_neg in Hp. destruct (_ <=? _) eqn:E; [|done].
  injection Hp as <-. apply Z.leb_le in E. pose proof (rep_nonneg _ _ _ Hf). destruct Hf as [Wf <-].
  assert (forallb (fits 32) (map opp_itv (kb k)) = true) as Hfit.
  { unfold kb, fbd, opp_itv, fits. simpl. rewrite !andb_true_iff, !in_signed_spec. simpl. repeat split; lia. }
  eapply yields_mono; [exact (fe_neg_spec _ f Wf Hfit)|].
  intros h [Hh Ev]. split.
  - eapply subsumes_sound; [|exact Hh]. unfold kb, fbd, subsumes, opp_itv. simpl.
    rewrite !andb_true_iff, !Z.leb_le. repeat split; lia.
  - unfold fval. rewrite Ev. apply Zmod.of_Z_opp.
Qed.
