(* ===== verification/FieldPow.v ===== *)
(** Exponentiation in the field: [fe_invert] (inversion by Fermat's theorem)
    and [fe_divpowm1] (the candidate square root of [u/v]). *)

From S2P Require Import Prelude Limbs Bytes Field FieldFacts FieldBytes Prime Fp Tables.

(** [f] stands for a power of [x]. *)
Definition powrep (k : Z) (f : fe) (x : F) (a : Z) : Prop := 0 <= a /\ rep k f (x ^ a)%F.

Lemma powrep_1 k f x : rep k f x -> powrep k f x 1.
Proof. intros H. split; [lia|]. rewrite Zmod.pow_1_r. exact H. Qed.

Lemma powrep_eq k f x a b : powrep k f x a -> (a =? b) = true -> rep k f (x ^ b)%F.
Proof. intros [_ H] E. apply Z.eqb_eq in E as <-. exact H. Qed.

Lemma mul_pow k l f g x a b :
  powrep k f x a -> powrep l g x b -> k <= 52 -> l <= 52 ->
  yields (fe_mul f g) (fun h => powrep 16 h x (a + b)).
Proof.
  intros [Ha Hf] [Hb Hg] Hk Hl. eapply yields_mono.
  - apply (fe_op2 k l 16 f g _ _ Hf Hg). unfold post_mul.
    apply Z.leb_le in Hk as ->, Hl as ->. reflexivity.
  - intros h Hh. split; [lia|]. rewrite Zmod.pow_add_r_nonneg by done. exact Hh.
Qed.

Lemma sq_pow k f x a :
  powrep k f x a -> k <= 52 -> yields (fe_sq f) (fun h => powrep 16 h x (2 * a)).
Proof.
  intros [Ha Hf] Hk. eapply yields_mono.
  - apply (fe_op1 (op:=fe_sq) k 16 f _ Hf). unfold post_sq. apply Z.leb_le in Hk as ->. reflexivity.
  - intros h Hh. split; [lia|]. replace (2 * a) with (a + a) by lia.
    rewrite Zmod.pow_add_r_nonneg by done. exact Hh.
Qed.

Lemma sqn_pow n f x a :
  powrep 16 f x a -> yields (fe_sqn n f) (fun h => powrep 16 h x (2 ^ Z.of_nat n * a)).
Proof.
  revert f a. induction n as [|n IH]; intros f a Hf; cbn [fe_sqn].
  - apply yields_ret. rewrite Z.mul_1_l. exact Hf.
  - eapply yields_bind; [exact (sq_pow 16 f x a Hf ltac:(lia))|]. intros g Hg.
    eapply yields_mono; [exact (IH g (2 * a) Hg)|]. intros h Hh.
    replace (2 ^ Z.of_nat (S n) * a) with (2 ^ Z.of_nat n * (2 * a)); [exact Hh|].
    rewrite Nat2Z.inj_succ, Z.pow_succ_r by lia. lia.
Qed.

(** One statement of an exponentiation chain. *)
Ltac pow_op :=
  lazymatch goal with
  | |- yields (fe_mul _ _) _ => eapply mul_pow; [eassumption | eassumption | lia | lia]
  | |- yields (fe_sq _) _ => eapply sq_pow; [eassumption | lia]
  | |- yields (fe_sqn _ _) _ => eapply sqn_pow; eassumption
  end.
Ltac pow_step :=
  lazymatch goal with
  | |- yields (bind _ _) _ => eapply yields_bind; [pow_op | let t := fresh "t" in let H := fresh "H" in intros t H; cbv beta in H]
  end.

Lemma fe_invert_pow k z x :
  rep k z x -> k <= 52 -> yields (fe_invert z) (fun h => rep 16 h (x ^ (prime_p - 2))%F).
Proof.
  intros Hz%powrep_1 Hk. unfold fe_invert. repeat pow_step.
  eapply yields_mono; [pow_op|]. intros h Hh. eapply powrep_eq; [exact Hh|].
  vm_compute. reflexivity.
Qed.

Lemma fe_invert_spec k z x : rep k z x -> k <= 52 -> yields (fe_invert z) (fun h => rep 16 h (/ x)%F).
Proof.
  intros Hz Hk. eapply yields_mono; [exact (fe_invert_pow k z x Hz Hk)|]. intros h Hh.
  destruct (decide (x = 0%F)) as [->|Hx].
  - rewrite Zmod.pow_0_l in Hh by done. rewrite Zmod.inv_0. exact Hh.
  - rewrite Zmod.fermat_inv in Hh by (done || exact prime_prime_p). exact Hh.
Qed.


(** [fe_invert] is inversion in the field of [2^255 - 19] elements: on every element within
    three times the reduced bounds it returns without overflow an element within the
    reduced bounds, the inverse of a nonzero element, and 0 for 0. *)
Theorem fe_invert_correct z :
  within (kb 48) z ->
  yields (fe_invert z) (fun h => within (kb 16) h /\
    (fval z <> 0 -> fval h * fval z = 1)%F /\ (fval z = 0 -> fval h = 0)%F).
Proof.
  intros Hz. eapply yields_mono; [apply (fe_invert_spec 48 z (fval z)); [by split | lia]|].
  intros h [Hh E]. split; [exact Hh|]. rewrite E. split; intros Hx.
  - apply Zmod.mul_inv_same_l_prime; [exact prime_prime_p | exact Hx].
  - rewrite Hx. apply Zmod.inv_0.
Qed.

Lemma fe_invert_correct_witness :
  yields (fe_invert fe_sqrtm1) (fun h => within (kb 16) h /\
    (fval fe_sqrtm1 <> 0 -> fval h * fval fe_sqrtm1 = 1)%F /\ (fval fe_sqrtm1 = 0 -> fval h = 0)%F).
Proof. apply (fe_invert_correct fe_sqrtm1). repeat constructor; vm_compute; congruence. Defined.

(** ** The candidate square root *)

(** [(p - 5) / 8] *)
Definition sqrt_exp : Z := 2 ^ 252 - 3.

Lemma prime_p_8 : prime_p = 8 * sqrt_exp + 5.
Proof. reflexivity. Qed.

Lemma sqrt_exp_pos : 0 < sqrt_exp.
Proof. reflexivity. Qed.

(** [x = u v^3 (u v^7)^((p-5)/8)] *)
Definition divpowm1 (u v : F) : F :=
  let w := (v * v * v * (v * v * v) * v * u)%F in (w ^ sqrt_exp * (v * v * v) * u)%F.

Ltac fe_op :=
  lazymatch goal with
  | |- yields (fe_mul _ _) _ => eapply (fe_op2 (op:=fe_mul)); [eassumption | eassumption | reflexivity]
  | |- yields (fe_sq _) _ => eapply (fe_op1 (op:=fe_sq)); [eassumption | reflexivity]
  end.

Lemma fe_divpowm1_spec k l u v x y :
  rep k u x -> rep l v y -> k <= 52 -> l <= 52 ->
  yields (fe_divpowm1 u v) (fun r => rep 16 r (divpowm1 x y)).
Proof.
  intros Hu Hv Hk Hl. apply (rep_weaken _ 52) in Hu, Hv; [|done|done]. unfold fe_divpowm1.
  do 5 (eapply yields_bind; [fe_op|]; let t := fresh "t" in let H := fresh "H" in intros t H; cbv beta in H).
  match goal with H : rep _ ?t _ |- yields (bind (fe_sq ?t) _) _ =>
    pose proof (powrep_1 _ _ _ H) end.
  repeat pow_step.
  match goal with H : powrep _ ?t _ _ |- yields (bind (fe_mul ?t _) _) _ =>
    apply (powrep_eq _ _ _ _ sqrt_exp) in H; [|vm_compute; reflexivity] end.
  eapply yields_bind; [fe_op|]. intros r Hr. cbv beta in Hr.
  eapply yields_mono; [fe_op|]. intros h Hh. exact Hh.
Qed.

Lemma F_pow_add (x : F) a b : 0 <= a -> 0 <= b -> (x ^ (a + b) = x ^ a * x ^ b)%F.
Proof. apply Zmod.pow_add_r_nonneg. Qed.

Lemma F_fermat (x : F) : x <> 0%F -> (x ^ (prime_p - 1) = 1)%F.
Proof. intros Hx. exact (Zmod.fermat_nz x Hx prime_prime_p). Qed.

(** [v x^2 = u * y] with [y = (u v^7)^((p-1)/4)]. *)
Lemma divpowm1_sq (u v : F) :
  let x := divpowm1 u v in
  let w := (v * v * v * (v * v * v) * v * u)%F in
  (v * (x * x) = u * w ^ (2 * sqrt_exp + 1))%F.
Proof.
  intros x w. pose proof sqrt_exp_pos. replace (2 * sqrt_exp + 1) with (sqrt_exp + (sqrt_exp + 1)) by lia.
  rewrite !F_pow_add, Zmod.pow_1_r by lia. subst x. unfold divpowm1. fold w.
  generalize (w ^ sqrt_exp)%F. intros e. subst w. ring.
Qed.

Lemma F_sqrt_1 (y : F) : (y * y = 1 -> y = 1 \/ y = - (1))%F.
Proof.
  intros H. assert ((y - 1) * (y + 1) = 0)%F as Hz 
    by (replace ((y - 1) * (y + 1))%F with (y * y - 1)%F by ring; rewrite H; ring).
  apply F_mul_zero in Hz as [Hz|Hz]; [left|right].
  - replace y with (y - 1 + 1)%F by ring. rewrite Hz. ring.
  - replace y with (y + 1 - 1)%F by ring. rewrite Hz. ring.
Qed.

(** If [u = v s^2] then the candidate is a square root of [u/v] up to sign
    of the square. *)
Lemma divpowm1_square (u v s : F) :
  v <> 0%F -> u = (v * (s * s))%F ->
  let x := divpowm1 u v in (v * (x * x) = u \/ v * (x * x) = - u)%F.
Proof.
  intros Hv Hu x. pose proof (divpowm1_sq u v) as E. fold x in E. cbv zeta in E. rewrite E.
  set (w := (v * v * v * (v * v * v) * v * u)%F) in *.
  destruct (decide (s = 0)%F) as [->|Hs]; [left; rewrite Hu; ring|].
  pose proof sqrt_exp_pos.
  assert (w = (s * (v * v * (v * v))) * (s * (v * v * (v * v))))%F as Ew by (subst w; rewrite Hu; ring).
  set (t := (s * (v * v * (v * v)))%F) in *.
  assert (t <> 0%F) as Ht by (subst t; repeat apply F_mul_nonzero; assumption).
  destruct (F_sqrt_1 (w ^ (2 * sqrt_exp + 1))%F) as [-> | ->]; [|left; ring|right; ring].
  rewrite Ew, !Zmod.pow_mul_l_nonneg, <- !F_pow_add by lia.
  replace (_ + _ + _) with (prime_p - 1) by (rewrite prime_p_8; lia). by apply F_fermat.
Qed.

Lemma sqrtm1_sq : (fval fe_sqrtm1 * fval fe_sqrtm1 = - (1))%F.
Proof. apply Zmod.to_Z_inj. vm_compute. reflexivity. Qed.

(** [fe_divpowm1(r, u, v)] computes a square root of [u/v] whenever there is one: for [v]
    nonzero, [u/v] is a square exactly when [v*r^2] is [u] or [-u] (and in the second case
    [sqrt(-1)*r] is the root). *)
Theorem fe_divpowm1_correct u v :
  within (kb 48) u -> within (kb 48) v -> fval v <> 0%F ->
  yields (fe_divpowm1 u v) (fun r => within (kb 16) r /\
    ((exists s, fval v * (s * s) = fval u)%F <->
     (fval v * (fval r * fval r) = fval u \/ fval v * (fval r * fval r) = - fval u)%F)).
Proof.
  intros Hu Hv Hv0. eapply yields_mono.
  - apply (fe_divpowm1_spec 48 48 u v (fval u) (fval v)); [by split | by split | lia | lia].
  - intros r [Hr E]. split; [exact Hr|]. rewrite E. split.
    + intros [s Hs]. exact (divpowm1_square _ _ s Hv0 (eq_sym Hs)).
    + intros [Hx|Hx]; [eexists; exact Hx|].
      exists (fval fe_sqrtm1 * divpowm1 (fval u) (fval v))%F.
      transitivity (fval fe_sqrtm1 * fval fe_sqrtm1 *
        (fval v * (divpowm1 (fval u) (fval v) * divpowm1 (fval u) (fval v))))%F; [ring|].
      rewrite Hx, sqrtm1_sq. ring.
Qed.

Lemma fe_divpowm1_correct_witness :
  yields (fe_divpowm1 fe_d fe_sqrtm1) (fun r => within (kb 16) r /\
    ((exists s, fval fe_sqrtm1 * (s * s) = fval fe_d)%F <->
     (fval fe_sqrtm1 * (fval r * fval r) = fval fe_d \/ fval fe_sqrtm1 * (fval r * fval r) = - fval fe_d)%F)).
Proof.
  apply (fe_divpowm1_correct fe_d fe_sqrtm1); [repeat constructor; vm_compute; congruence..|].
  intros E. apply (f_equal Zmod.to_Z) in E. vm_compute in E. discriminate E.
Defined.
