(* ===== verification/CurveCert.v ===== *)
(** Certificates for the group laws of the curve: each law is a polynomial
    identity modulo the curve equations of the points, and the cofactors that
    witness it (from division by the curve equations) are given as lists of
    exponents, checked by [ring]. *)

From S2P Require Import Prelude Prime Fp.

(** Monomials in [x1 y1 x2 y2 x3 y3 d], by their exponents; a cofactor is the
    difference of two sums of monomials. *)
Definition cofactor : Type := list (list nat) * list (list nat).

Fixpoint power (x : F) (n : nat) : F := match n with O => 1%F | S n' => (x * power x n')%F end.
Fixpoint monomial (v : list F) (es : list nat) : F :=
  match v, es with
  | x :: v', e :: es' => (power x e * monomial v' es')%F
  | _, _ => 1%F
  end.
Fixpoint monomials (v : list F) (l : list (list nat)) : F :=
  match l with [] => 0%F | es :: l' => (monomial v es + monomials v l')%F end.
Definition cof (v : list F) (c : cofactor) : F := (monomials v c.1 - monomials v c.2)%F.

Definition cert_closed_1 : cofactor :=
  ([[0;0;0;2;0;0;0]; [2;0;2;0;0;0;1]; [2;0;2;2;0;0;1]; [2;0;2;2;0;0;1]; [2;0;2;2;0;0;1];
   [2;0;2;2;0;0;2]; [2;0;2;2;0;0;2]; [2;0;2;4;0;0;2]; [2;2;2;2;0;0;2]; [2;2;2;4;0;0;2];
   [4;0;0;4;0;0;2]; [4;0;4;0;0;0;2]; [4;2;4;2;0;0;3]; [6;0;2;4;0;0;3]; [6;2;4;4;0;0;5]],
  [[0;0;2;0;0;0;0]; [0;0;2;2;0;0;1]; [0;2;2;2;0;0;1]; [2;0;0;2;0;0;1]; [2;0;0;4;0;0;1];
   [2;0;4;0;0;0;1]; [2;0;4;2;0;0;2]; [2;2;4;2;0;0;2]; [4;0;2;2;0;0;2]; [4;0;2;2;0;0;2];
   [4;0;2;2;0;0;2]; [4;0;2;2;0;0;2]; [4;0;2;2;0;0;3]; [4;0;2;2;0;0;3]; [4;0;4;4;0;0;4];
   [4;2;2;4;0;0;3]; [4;2;4;4;0;0;4]; [6;0;4;2;0;0;3]; [6;0;4;4;0;0;4]])%nat.
Definition cert_closed_2 : cofactor :=
  ([[0;0;0;0;0;0;0]; [0;0;4;0;0;0;2]; [2;0;2;0;0;0;1]; [2;0;2;0;0;0;2]; [2;0;2;0;0;0;2];
   [2;0;2;0;0;0;2]; [2;0;2;0;0;0;2]; [2;0;2;2;0;0;2]; [2;0;2;2;0;0;2]; [2;0;6;0;0;0;3];
   [4;0;0;0;0;0;2]; [4;0;0;2;0;0;2]; [4;0;2;0;0;0;1]; [4;0;2;2;0;0;2]; [4;0;2;2;0;0;2];
   [4;0;4;0;0;0;3]; [4;0;4;0;0;0;3]; [4;0;4;0;0;0;4]; [4;0;6;0;0;0;3]; [4;0;6;2;0;0;5];
   [6;0;0;2;0;0;2]; [6;0;4;0;0;0;3]; [6;0;4;0;0;0;3]; [6;0;6;2;0;0;5]; [6;0;6;2;0;0;5];
   [8;0;2;2;0;0;3]; [8;0;6;2;0;0;5]],
  [[0;0;2;0;0;0;1]; [0;0;2;0;0;0;1]; [2;0;0;0;0;0;1]; [2;0;0;0;0;0;1]; [2;0;0;2;0;0;1];
   [2;0;4;0;0;0;2]; [2;0;4;0;0;0;2]; [2;0;4;0;0;0;3]; [2;0;4;0;0;0;3]; [2;0;4;2;0;0;3];
   [4;0;0;2;0;0;1]; [4;0;2;0;0;0;2]; [4;0;2;0;0;0;3]; [4;0;2;0;0;0;3]; [4;0;2;2;0;0;3];
   [4;0;4;0;0;0;2]; [4;0;4;0;0;0;2]; [4;0;4;2;0;0;3]; [4;0;4;2;0;0;4]; [4;0;6;0;0;0;4];
   [6;0;2;0;0;0;2]; [6;0;4;2;0;0;4]; [6;0;4;2;0;0;4]; [6;0;4;2;0;0;4]; [6;0;6;0;0;0;4];
   [8;0;4;2;0;0;4]; [8;0;4;2;0;0;4]])%nat.
Definition cert_x_1 : cofactor :=
  ([[0;1;2;3;3;2;2]; [0;1;3;2;2;3;2]; [1;0;1;2;1;0;1]; [1;0;1;2;3;0;1]; [1;0;1;4;3;2;2];
   [1;0;2;1;0;3;1]; [1;0;4;1;2;3;2]; [1;0;4;3;2;3;3]; [2;1;1;4;2;1;2]; [2;1;2;3;1;0;2];
   [2;1;2;3;3;0;2]; [2;1;3;2;0;1;2]; [3;0;2;3;0;1;2]; [3;0;3;2;1;0;2]; [3;0;3;2;3;0;2];
   [3;0;3;4;1;2;3]; [3;0;4;1;2;1;2]; [3;0;4;3;2;1;3]],
  [[0;1;1;2;2;1;1]; [0;1;2;1;1;2;1]; [1;0;2;1;0;1;1]; [1;0;3;4;3;2;3]; [2;1;3;2;0;3;2];
   [2;1;3;4;2;1;3]; [2;1;4;1;1;2;2]; [2;1;4;3;1;2;3]; [3;0;1;4;1;2;2]; [3;0;2;3;0;3;2]])%nat.
Definition cert_x_2 : cofactor :=
  ([[1;0;1;0;1;0;1]; [1;0;1;0;3;0;1]; [1;0;1;0;3;2;2]; [1;0;1;2;3;2;2]; [1;0;3;0;1;2;2];
   [1;0;4;1;2;3;3]; [1;0;4;1;2;3;3]; [1;0;5;2;3;2;4]; [2;1;1;0;0;3;1]; [2;1;1;2;2;1;2];
   [2;1;2;1;1;0;2]; [2;1;2;1;3;0;2]; [2;1;2;1;3;2;2]; [2;1;2;1;3;2;3]; [2;1;3;0;0;1;2];
   [2;1;3;0;0;1;2]; [2;1;3;0;2;1;2]; [2;1;3;0;2;1;2]; [2;1;3;0;2;3;3]; [2;1;3;0;2;3;3];
   [2;1;3;2;2;3;3]; [2;1;3;2;2;3;3]; [2;1;5;0;0;3;3]; [2;1;5;2;2;1;4]; [2;1;6;1;1;2;4];
   [2;1;6;1;3;2;4]; [3;0;1;0;1;0;1]; [3;0;1;0;3;0;1]; [3;0;1;0;3;2;2]; [3;0;1;2;3;2;2];
   [3;0;2;1;0;1;2]; [3;0;2;1;2;3;3]; [3;0;3;2;1;2;3]; [3;0;3;2;1;2;3]; [3;0;4;1;0;3;3];
   [3;0;4;1;2;1;3]; [3;0;4;1;2;3;3]; [3;0;4;1;2;3;3]; [3;0;5;0;1;2;3]; [3;0;5;2;3;2;4];
   [4;1;1;0;0;1;2]; [4;1;1;0;2;1;2]; [4;1;1;0;2;3;3]; [4;1;1;2;2;1;2]; [4;1;1;2;2;3;3];
   [4;1;2;1;1;0;2]; [4;1;2;1;3;0;2]; [4;1;3;0;0;1;2]; [4;1;3;0;0;3;3]; [4;1;3;0;2;1;2];
   [4;1;3;0;2;3;3]; [4;1;4;1;3;2;4]; [4;1;5;0;0;3;3]; [4;1;5;2;2;1;4]; [4;1;5;2;2;3;5];
   [4;1;6;1;1;2;4]; [5;0;2;1;0;1;2]; [5;0;2;1;2;3;3]; [5;0;3;0;1;0;2]; [5;0;3;0;3;0;2];
   [5;0;3;0;3;2;3]; [5;0;3;2;1;2;3]; [5;0;3;2;1;2;3]; [5;0;4;1;0;3;3]; [5;0;4;1;2;1;3];
   [5;0;5;0;1;2;3]],
  [[1;0;1;0;1;2;1]; [1;0;2;1;2;3;2]; [1;0;3;0;1;0;2]; [1;0;3;0;3;0;2]; [1;0;3;0;3;2;3];
   [1;0;3;2;3;2;3]; [1;0;3;2;3;2;3]; [1;0;6;1;2;3;4]; [2;1;1;0;0;1;1]; [2;1;1;0;2;1;1];
   [2;1;1;0;2;3;2]; [2;1;1;2;2;3;2]; [2;1;3;0;0;3;2]; [2;1;3;0;0;3;2]; [2;1;3;2;2;1;3];
   [2;1;3;2;2;1;3]; [2;1;4;1;1;0;3]; [2;1;4;1;1;2;3]; [2;1;4;1;3;0;3]; [2;1;4;1;3;2;3];
   [2;1;4;1;3;2;3]; [2;1;4;1;3;2;4]; [2;1;5;0;0;1;3]; [2;1;5;0;2;1;3]; [2;1;5;0;2;3;4];
   [2;1;5;2;2;3;4]; [3;0;1;0;1;2;1]; [3;0;1;2;1;2;2]; [3;0;2;1;0;3;2]; [3;0;2;1;2;3;2];
   [3;0;3;2;3;2;3]; [3;0;3;2;3;2;3]; [3;0;4;1;0;1;3]; [3;0;4;1;2;3;4]; [3;0;5;0;1;0;3];
   [3;0;5;0;3;0;3]; [3;0;5;0;3;2;4]; [3;0;5;2;1;2;4]; [3;0;6;1;2;1;4]; [3;0;6;1;2;3;4];
   [4;1;1;0;0;3;2]; [4;1;3;0;0;1;3]; [4;1;3;0;0;3;2]; [4;1;3;0;2;1;3]; [4;1;3;0;2;3;4];
   [4;1;3;2;2;1;3]; [4;1;3;2;2;1;3]; [4;1;3;2;2;3;4]; [4;1;3;2;2;3;4]; [4;1;4;1;1;0;3];
   [4;1;4;1;1;2;3]; [4;1;4;1;3;0;3]; [4;1;5;0;0;1;3]; [4;1;5;0;2;1;3]; [4;1;5;0;2;3;4];
   [4;1;6;1;3;2;5]; [5;0;1;2;1;2;2]; [5;0;2;1;0;3;2]; [5;0;3;0;1;2;2]; [5;0;4;1;0;1;3];
   [5;0;4;1;2;3;4]; [5;0;5;0;1;0;3]; [5;0;5;0;3;0;3]; [5;0;5;0;3;2;4]; [5;0;5;2;1;2;4];
   [5;0;6;1;2;1;4]])%nat.
Definition cert_x_3 : cofactor :=
  ([[1;0;1;0;3;0;2]; [1;0;2;1;0;1;1]; [1;0;3;0;1;0;2]; [1;0;3;0;3;0;2]; [1;0;4;1;2;1;3];
   [1;0;4;1;2;1;3]; [1;0;5;0;1;0;2]; [1;0;6;1;0;1;3]; [2;1;1;0;0;1;1]; [2;1;2;1;3;0;2];
   [2;1;2;1;3;0;3]; [2;1;3;0;0;1;1]; [2;1;3;0;2;1;3]; [2;1;3;0;2;1;3]; [2;1;4;1;1;0;2];
   [2;1;4;1;1;0;3]; [2;1;5;0;0;1;3]; [2;1;5;0;2;1;3]; [2;1;5;0;2;1;3]; [2;1;7;0;0;1;3];
   [3;0;1;0;3;0;2]; [3;0;2;1;0;1;1]; [3;0;2;1;2;1;3]; [3;0;3;0;3;0;2]; [3;0;4;1;0;1;3];
   [3;0;4;1;2;1;3]; [3;0;4;1;2;1;3]; [3;0;4;1;2;1;3]; [3;0;5;0;1;0;3]; [3;0;6;1;0;1;3];
   [3;0;6;1;0;1;3]; [3;0;7;0;1;0;3]; [4;1;1;0;2;1;3]; [4;1;3;0;0;1;3]; [4;1;3;0;2;1;3];
   [4;1;3;0;2;1;3]; [4;1;4;1;3;0;3]; [4;1;4;1;3;0;4]; [4;1;5;0;0;1;3]; [4;1;5;0;0;1;3];
   [4;1;5;0;2;1;3]; [4;1;6;1;1;0;3]; [4;1;6;1;1;0;4]; [4;1;7;0;0;1;3]; [5;0;2;1;2;1;3];
   [5;0;3;0;3;0;3]; [5;0;4;1;0;1;3]; [5;0;4;1;2;1;3]; [5;0;5;0;1;0;3]; [5;0;5;0;3;0;3];
   [5;0;6;1;0;1;3]; [5;0;7;0;1;0;3]],
  [[1;0;1;0;1;0;1]; [1;0;2;1;2;1;2]; [1;0;3;0;1;0;1]; [1;0;3;0;3;0;3]; [1;0;4;1;0;1;2];
   [1;0;4;1;0;1;2]; [1;0;5;0;3;0;3]; [1;0;6;1;2;1;4]; [2;1;1;0;2;1;2]; [2;1;2;1;1;0;1];
   [2;1;2;1;1;0;2]; [2;1;3;0;0;1;2]; [2;1;3;0;0;1;2]; [2;1;3;0;2;1;2]; [2;1;4;1;3;0;3];
   [2;1;4;1;3;0;4]; [2;1;5;0;0;1;2]; [2;1;5;0;0;1;2]; [2;1;5;0;2;1;4]; [2;1;7;0;2;1;4];
   [3;0;1;0;1;0;1]; [3;0;2;1;0;1;2]; [3;0;2;1;2;1;2]; [3;0;3;0;1;0;1]; [3;0;4;1;0;1;2];
   [3;0;4;1;0;1;2]; [3;0;4;1;0;1;2]; [3;0;4;1;2;1;4]; [3;0;5;0;3;0;4]; [3;0;6;1;2;1;4];
   [3;0;6;1;2;1;4]; [3;0;7;0;3;0;4]; [4;1;1;0;0;1;2]; [4;1;3;0;0;1;2]; [4;1;3;0;0;1;2];
   [4;1;3;0;2;1;4]; [4;1;4;1;1;0;2]; [4;1;4;1;1;0;3]; [4;1;5;0;0;1;2]; [4;1;5;0;2;1;4];
   [4;1;5;0;2;1;4]; [4;1;6;1;3;0;4]; [4;1;6;1;3;0;5]; [4;1;7;0;2;1;4]; [5;0;2;1;0;1;2];
   [5;0;3;0;1;0;2]; [5;0;4;1;0;1;2]; [5;0;4;1;2;1;4]; [5;0;5;0;1;0;2]; [5;0;5;0;3;0;4];
   [5;0;6;1;2;1;4]; [5;0;7;0;3;0;4]])%nat.
Definition cert_y_1 : cofactor :=
  ([[0;1;1;2;1;2;1]; [0;1;2;1;2;1;1]; [0;1;2;3;2;3;2]; [0;1;3;2;3;2;2]; [1;0;1;2;0;1;1];
   [1;0;1;4;2;3;2]; [1;0;4;1;3;2;2]; [1;0;4;3;3;2;3]; [2;1;2;3;0;1;2]; [2;1;3;2;1;0;2];
   [2;1;3;2;3;0;2]; [2;1;3;4;1;2;3]; [2;1;4;1;2;1;2]; [2;1;4;3;2;1;3]; [3;0;1;4;2;1;2];
   [3;0;2;3;1;0;2]; [3;0;2;3;3;0;2]; [3;0;3;2;0;1;2]],
  [[1;0;1;2;0;3;1]; [1;0;2;1;1;0;1]; [1;0;2;1;3;0;1]; [1;0;3;4;2;3;3]; [2;1;1;4;1;2;2];
   [2;1;2;3;0;3;2]; [3;0;3;2;0;3;2]; [3;0;3;4;2;1;3]; [3;0;4;1;1;2;2]; [3;0;4;3;1;2;3]])%nat.
Definition cert_y_2 : cofactor :=
  ([[1;0;1;0;0;1;1]; [1;0;1;0;2;1;1]; [1;0;1;0;2;3;2]; [1;0;1;2;2;3;2]; [1;0;3;0;0;3;2];
   [1;0;4;1;3;2;3]; [1;0;4;1;3;2;3]; [1;0;5;2;2;3;4]; [2;1;1;0;1;2;1]; [2;1;2;1;0;1;2];
   [2;1;2;1;2;3;2]; [2;1;2;1;2;3;3]; [2;1;3;0;1;0;2]; [2;1;3;0;1;0;2]; [2;1;3;0;3;0;2];
   [2;1;3;0;3;0;2]; [2;1;3;0;3;2;3]; [2;1;3;0;3;2;3]; [2;1;3;2;1;2;3]; [2;1;3;2;1;2;3];
   [2;1;3;2;3;2;3]; [2;1;3;2;3;2;3]; [2;1;4;1;0;3;3]; [2;1;4;1;2;1;3]; [2;1;5;0;1;2;3];
   [2;1;6;1;2;3;4]; [3;0;1;0;0;1;1]; [3;0;1;0;2;1;1]; [3;0;1;0;2;3;2]; [3;0;1;2;2;1;2];
   [3;0;1;2;2;3;2]; [3;0;2;1;1;0;2]; [3;0;2;1;3;0;2]; [3;0;2;1;3;2;3]; [3;0;4;1;3;2;3];
   [3;0;4;1;3;2;3]; [3;0;5;0;0;3;3]; [3;0;5;2;2;1;4]; [3;0;5;2;2;3;4]; [3;0;6;1;1;2;4];
   [4;1;1;0;1;0;2]; [4;1;1;0;3;0;2]; [4;1;1;0;3;2;3]; [4;1;1;2;3;2;3]; [4;1;2;1;0;1;2];
   [4;1;3;0;1;0;2]; [4;1;3;0;1;2;3]; [4;1;3;0;3;0;2]; [4;1;3;0;3;2;3]; [4;1;3;2;1;2;3];
   [4;1;3;2;1;2;3]; [4;1;4;1;0;3;3]; [4;1;4;1;2;1;3]; [4;1;4;1;2;3;4]; [4;1;5;0;1;2;3];
   [4;1;5;2;3;2;5]; [5;0;1;2;2;1;2]; [5;0;2;1;1;0;2]; [5;0;2;1;3;0;2]; [5;0;2;1;3;2;3];
   [5;0;3;0;0;1;2]; [5;0;3;0;2;1;2]; [5;0;3;0;2;3;3]; [5;0;5;0;0;3;3]; [5;0;5;2;2;1;4];
   [5;0;6;1;1;2;4]],
  [[1;0;1;0;0;3;1]; [1;0;2;1;3;2;2]; [1;0;3;0;0;1;2]; [1;0;3;0;2;1;2]; [1;0;3;0;2;3;3];
   [1;0;3;2;2;3;3]; [1;0;3;2;2;3;3]; [1;0;6;1;3;2;4]; [2;1;1;0;1;0;1]; [2;1;1;0;3;0;1];
   [2;1;1;0;3;2;2]; [2;1;1;2;1;2;2]; [2;1;1;2;3;2;2]; [2;1;2;1;0;3;2]; [2;1;3;0;1;2;2];
   [2;1;3;0;1;2;2]; [2;1;4;1;0;1;3]; [2;1;4;1;2;3;3]; [2;1;4;1;2;3;3]; [2;1;4;1;2;3;4];
   [2;1;5;0;1;0;3]; [2;1;5;0;3;0;3]; [2;1;5;0;3;2;4]; [2;1;5;2;1;2;4]; [2;1;5;2;3;2;4];
   [2;1;6;1;2;1;4]; [3;0;1;0;0;3;1]; [3;0;2;1;3;2;2]; [3;0;3;2;2;1;3]; [3;0;3;2;2;1;3];
   [3;0;3;2;2;3;3]; [3;0;3;2;2;3;3]; [3;0;4;1;1;0;3]; [3;0;4;1;1;2;3]; [3;0;4;1;3;0;3];
   [3;0;4;1;3;2;4]; [3;0;5;0;0;1;3]; [3;0;5;0;2;1;3]; [3;0;5;0;2;3;4]; [3;0;6;1;3;2;4];
   [4;1;1;0;1;2;2]; [4;1;1;2;1;2;2]; [4;1;2;1;0;3;2]; [4;1;3;0;1;0;3]; [4;1;3;0;1;2;2];
   [4;1;3;0;3;0;3]; [4;1;3;0;3;2;4]; [4;1;3;2;3;2;4]; [4;1;3;2;3;2;4]; [4;1;4;1;0;1;3];
   [4;1;5;0;1;0;3]; [4;1;5;0;3;0;3]; [4;1;5;0;3;2;4]; [4;1;5;2;1;2;4]; [4;1;6;1;2;1;4];
   [4;1;6;1;2;3;5]; [5;0;3;0;0;3;2]; [5;0;3;2;2;1;3]; [5;0;3;2;2;1;3]; [5;0;4;1;1;0;3];
   [5;0;4;1;1;2;3]; [5;0;4;1;3;0;3]; [5;0;4;1;3;2;4]; [5;0;5;0;0;1;3]; [5;0;5;0;2;1;3];
   [5;0;5;0;2;3;4]])%nat.
Definition cert_y_3 : cofactor :=
  ([[1;0;1;0;2;1;2]; [1;0;2;1;1;0;1]; [1;0;3;0;0;1;2]; [1;0;3;0;2;1;2]; [1;0;4;1;3;0;3];
   [1;0;4;1;3;0;3]; [1;0;5;0;0;1;2]; [1;0;6;1;1;0;3]; [2;1;1;0;1;0;1]; [2;1;2;1;2;1;2];
   [2;1;2;1;2;1;3]; [2;1;3;0;1;0;1]; [2;1;3;0;3;0;3]; [2;1;3;0;3;0;3]; [2;1;4;1;0;1;2];
   [2;1;4;1;0;1;3]; [2;1;5;0;1;0;3]; [2;1;5;0;3;0;3]; [2;1;5;0;3;0;3]; [2;1;7;0;1;0;3];
   [3;0;1;0;2;1;2]; [3;0;2;1;1;0;1]; [3;0;2;1;3;0;3]; [3;0;3;0;2;1;2]; [3;0;4;1;1;0;3];
   [3;0;4;1;3;0;3]; [3;0;4;1;3;0;3]; [3;0;4;1;3;0;3]; [3;0;5;0;0;1;3]; [3;0;6;1;1;0;3];
   [3;0;6;1;1;0;3]; [3;0;7;0;0;1;3]; [4;1;1;0;3;0;3]; [4;1;3;0;1;0;3]; [4;1;3;0;3;0;3];
   [4;1;3;0;3;0;3]; [4;1;4;1;2;1;3]; [4;1;4;1;2;1;4]; [4;1;5;0;1;0;3]; [4;1;5;0;1;0;3];
   [4;1;5;0;3;0;3]; [4;1;6;1;0;1;3]; [4;1;6;1;0;1;4]; [4;1;7;0;1;0;3]; [5;0;2;1;3;0;3];
   [5;0;3;0;2;1;3]; [5;0;4;1;1;0;3]; [5;0;4;1;3;0;3]; [5;0;5;0;0;1;3]; [5;0;5;0;2;1;3];
   [5;0;6;1;1;0;3]; [5;0;7;0;0;1;3]],
  [[1;0;1;0;0;1;1]; [1;0;2;1;3;0;2]; [1;0;3;0;0;1;1]; [1;0;3;0;2;1;3]; [1;0;4;1;1;0;2];
   [1;0;4;1;1;0;2]; [1;0;5;0;2;1;3]; [1;0;6;1;3;0;4]; [2;1;1;0;3;0;2]; [2;1;2;1;0;1;1];
   [2;1;2;1;0;1;2]; [2;1;3;0;1;0;2]; [2;1;3;0;1;0;2]; [2;1;3;0;3;0;2]; [2;1;4;1;2;1;3];
   [2;1;4;1;2;1;4]; [2;1;5;0;1;0;2]; [2;1;5;0;1;0;2]; [2;1;5;0;3;0;4]; [2;1;7;0;3;0;4];
   [3;0;1;0;0;1;1]; [3;0;2;1;1;0;2]; [3;0;2;1;3;0;2]; [3;0;3;0;0;1;1]; [3;0;4;1;1;0;2];
   [3;0;4;1;1;0;2]; [3;0;4;1;1;0;2]; [3;0;4;1;3;0;4]; [3;0;5;0;2;1;4]; [3;0;6;1;3;0;4];
   [3;0;6;1;3;0;4]; [3;0;7;0;2;1;4]; [4;1;1;0;1;0;2]; [4;1;3;0;1;0;2]; [4;1;3;0;1;0;2];
   [4;1;3;0;3;0;4]; [4;1;4;1;0;1;2]; [4;1;4;1;0;1;3]; [4;1;5;0;1;0;2]; [4;1;5;0;3;0;4];
   [4;1;5;0;3;0;4]; [4;1;6;1;2;1;4]; [4;1;6;1;2;1;5]; [4;1;7;0;3;0;4]; [5;0;2;1;1;0;2];
   [5;0;3;0;0;1;2]; [5;0;4;1;1;0;2]; [5;0;4;1;3;0;4]; [5;0;5;0;0;1;2]; [5;0;5;0;2;1;4];
   [5;0;6;1;3;0;4]; [5;0;7;0;2;1;4]])%nat.

Section Identities.
Context (d x1 y1 x2 y2 x3 y3 : F).
Let v := [x1; y1; x2; y2; x3; y3; d].

(** The curve equations and the factors that clear the denominators. *)
Let g1 := (y1 * y1 - x1 * x1 - (1 + d * (x1 * x1) * (y1 * y1)))%F.
Let g2 := (y2 * y2 - x2 * x2 - (1 + d * (x2 * x2) * (y2 * y2)))%F.
Let g3 := (y3 * y3 - x3 * x3 - (1 + d * (x3 * x3) * (y3 * y3)))%F.
Let q1 := (1 - d * (x1 * x1))%F.
Let q2 := (1 - d * (x2 * x2))%F.
Let q3 := (1 - d * (x3 * x3))%F.

Let D := (d * (x1 * x2 * y1 * y2))%F.
Let A := (x1 * y2 + x2 * y1)%F.
Let B := (y1 * y2 + x1 * x2)%F.
Let D' := (d * (x2 * x3 * y2 * y3))%F.
Let A' := (x2 * y3 + x3 * y2)%F.
Let B' := (y2 * y3 + x2 * x3)%F.

Ltac cert c := cbv [c cof monomials monomial power fst snd]; subst v g1 g2 g3 q1 q2 q3 D A B D' A' B'.

Lemma closed_identity :
  (q1 * q1 * (q2 * q2) *
   (B * B * ((1 + D) * (1 + D)) - A * A * ((1 - D) * (1 - D)) -
    ((1 - D * D) * (1 - D * D) + d * (A * A) * (B * B))) =
   cof v cert_closed_1 * g1 * (q2 * q2) + cof v cert_closed_2 * g2)%F.
Proof. cert cert_closed_1. cbv [cert_closed_2 monomials monomial power fst snd]. ring. Qed.

Lemma assoc_x_identity :
  (q1 * (q2 * q2) * q3 *
   ((A * (1 - D) * y3 + x3 * B * (1 + D)) * (1 - D' * D' + d * (x1 * y1 * A' * B')) -
    (x1 * B' * (1 + D') + A' * (1 - D') * y1) * (1 - D * D + d * (A * B * x3 * y3))) =
   cof v cert_x_1 * g1 * (q2 * q2 * q3) + cof v cert_x_2 * g2 * q3 + cof v cert_x_3 * g3)%F.
Proof. cert cert_x_1. cbv [cert_x_2 cert_x_3 monomials monomial power fst snd]. ring. Qed.

Lemma assoc_y_identity :
  (q1 * (q2 * q2) * q3 *
   ((B * (1 + D) * y3 + x3 * A * (1 - D)) * (1 - D' * D' - d * (x1 * y1 * A' * B')) -
    (y1 * B' * (1 + D') + x1 * A' * (1 - D')) * (1 - D * D - d * (A * B * x3 * y3))) =
   cof v cert_y_1 * g1 * (q2 * q2 * q3) + cof v cert_y_2 * g2 * q3 + cof v cert_y_3 * g3)%F.
Proof. cert cert_y_1. cbv [cert_y_2 cert_y_3 monomials monomial power fst snd]. ring. Qed.
End Identities.
