(* ===== verification/Curve.v ===== *)
(** The group the code computes in: the points of [-x^2 + y^2 = 1 + d x^2 y^2]
    over [F] form a commutative group under the complete Edwards addition. *)

From S2P Require Import Prelude Limbs Bytes Field FieldFacts FieldBytes Prime Fp Tables FieldPow CurveCert.

(** The constant of the curve, as the code stores it. *)
Definition curve_d : F := fval fe_d.

(** [d = -121665 / 121666] *)
Lemma curve_d_eq : (curve_d * inF 121666 = - inF 121665)%F.
Proof. apply Zmod.to_Z_inj. vm_compute. reflexivity. Qed.

Lemma curve_d_val : curve_d = inF (val fe_d).
Proof. reflexivity. Qed.

Lemma F_two_neq_zero : (1 + 1 <> 0)%F.
Proof. intros E. apply (f_equal Zmod.to_Z) in E. vm_compute in E. discriminate E. Qed.

(** [d] is not a square: Euler's criterion. *)
Lemma curve_d_nonsquare (s : F) : (s * s <> curve_d)%F.
Proof.
  intros E. assert ((curve_d ^ (4 * sqrt_exp + 2)) = - (1))%F as E1.
  { apply Zmod.to_Z_inj. rewrite Zmod.to_Z_pow_nonneg_r by (vm_compute; congruence).
    rewrite <- powmod_spec by (vm_compute; congruence). vm_compute. reflexivity. }
  assert (s <> 0)%F as Hs.
  { intros ->. apply (f_equal Zmod.to_Z) in E. vm_compute in E. discriminate E. }
  pose proof sqrt_exp_pos.
  rewrite <- E, Zmod.pow_mul_l_nonneg, <- F_pow_add in E1 by lia.
  replace (4 * sqrt_exp + 2 + (4 * sqrt_exp + 2)) with (prime_p - 1) in E1 by (rewrite prime_p_8; lia).
  rewrite F_fermat in E1 by done. apply F_two_neq_zero. rewrite E1 at 1. ring.
Qed.

#[global] Opaque curve_d Zmod.add Zmod.sub Zmod.mul Zmod.opp Zmod.inv Zmod.mdiv.

(** ** Completeness of the addition law *)

Definition on_curve (x y : F) : Prop := (y * y - x * x = 1 + curve_d * (x * x) * (y * y))%F.

Lemma F_sub_zero (a b : F) : (a - b = 0 -> a = b)%F.
Proof. intros H. replace a with (a - b + b)%F by ring. rewrite H. ring. Qed.

Lemma F_mul_zero_l (a b : F) : (a * b = 0 -> a <> 0 -> b = 0)%F.
Proof. intros H Ha. destruct (F_mul_zero _ _ H); [contradiction|done]. Qed.

(** If [e^2 = 1] and [d x1 x2 y1 y2 = e] then [d] would be a square. *)
Lemma complete_aux (s e x1 y1 x2 y2 : F) :
  (s * s = - (1) -> e * e = 1 -> on_curve x1 y1 -> on_curve x2 y2 ->
   curve_d * (x1 * x2 * y1 * y2) = e -> s * x2 + y2 = 0)%F.
Proof.
  intros Hs He H1 H2 HD. unfold on_curve in *.
  destruct (decide (s * x2 + y2 = 0)%F) as [|Hne]; [done|]. exfalso.
  assert (x1 * y1 * (s * x2 + y2) <> 0)%F as Hn.
  { apply F_mul_nonzero; [|done]. intros E0. apply F_one_neq_zero. rewrite <- He, <- HD.
    transitivity (curve_d * (x1 * y1) * x2 * y2 * (curve_d * (x1 * x2 * y1 * y2)))%F; [ring|].
    rewrite E0. ring. }
  apply (curve_d_nonsquare ((s * x1 + e * y1) / (x1 * y1 * (s * x2 + y2)))%F).
  assert ((s * x1 + e * y1) * (s * x1 + e * y1) =
          curve_d * ((x1 * y1 * (s * x2 + y2)) * (x1 * y1 * (s * x2 + y2))))%F as E.
  { apply F_sub_zero. subst e.
    transitivity ((s * s + 1) * (x1 * x1 - curve_d * (x1 * x1) * (y1 * y1) * (x2 * x2))
      + (curve_d * (x1 * x2 * y1 * y2) * (curve_d * (x1 * x2 * y1 * y2)) - 1) * (y1 * y1 - 1)
      + ((y1 * y1 - x1 * x1) - (1 + curve_d * (x1 * x1) * (y1 * y1)))
      - curve_d * (x1 * x1) * (y1 * y1) * ((y2 * y2 - x2 * x2) - (1 + curve_d * (x2 * x2) * (y2 * y2))))%F;
      [ring|]. rewrite Hs, He, H1, H2. ring. }
  set (n := (x1 * y1 * (s * x2 + y2))%F) in *.
  transitivity (((s * x1 + e * y1) * (s * x1 + e * y1)) / (n * n))%F; [field; done|].
  rewrite E. field. done.
Qed.

Lemma complete (e x1 y1 x2 y2 : F) :
  (e * e = 1 -> on_curve x1 y1 -> on_curve x2 y2 -> curve_d * (x1 * x2 * y1 * y2) <> e)%F.
Proof.
  intros He H1 H2 HD. set (s := fval fe_sqrtm1). pose proof sqrtm1_sq as Hs. fold s in Hs.
  assert (s * x2 + y2 = 0)%F as E1 by exact (complete_aux s e x1 y1 x2 y2 Hs He H1 H2 HD).
  assert ((- s) * x2 + y2 = 0)%F as E2.
  { apply (complete_aux (- s) e x1 y1 x2 y2); [|done..]. transitivity (s * s)%F; [ring|done]. }
  assert (y2 = 0)%F as Ey.
  { apply (F_mul_zero_l (1 + 1)); [|exact F_two_neq_zero].
    transitivity ((s * x2 + y2) + (- s * x2 + y2))%F; [ring|]. rewrite E1, E2. ring. }
  apply F_one_neq_zero. rewrite <- He, <- HD, Ey. ring.
Qed.

Lemma complete_plus x1 y1 x2 y2 :
  (on_curve x1 y1 -> on_curve x2 y2 -> 1 + curve_d * (x1 * x2 * y1 * y2) <> 0)%F.
Proof.
  intros H1 H2 E. apply (complete (- (1)) x1 y1 x2 y2); [ring|done|done|].
  apply F_sub_zero. rewrite <- E. ring.
Qed.

Lemma complete_minus x1 y1 x2 y2 :
  (on_curve x1 y1 -> on_curve x2 y2 -> 1 - curve_d * (x1 * x2 * y1 * y2) <> 0)%F.
Proof.
  intros H1 H2 E. apply (complete 1 x1 y1 x2 y2); [ring|done|done|]. symmetry. by apply F_sub_zero.
Qed.

Lemma d_sq_neq (x : F) : (1 - curve_d * (x * x) <> 0)%F.
Proof.
  intros E. assert (x <> 0)%F as Hx.
  { intros ->. apply F_one_neq_zero. rewrite <- E. ring. }
  apply (curve_d_nonsquare (/ x)%F). assert (curve_d * (x * x) = 1)%F as E' by (symmetry; by apply F_sub_zero).
  transitivity (curve_d * (x * x) * (/ x * / x))%F; [rewrite E'; ring | field; done].
Qed.

(** ** Addition *)

Section Addition.
Context (x1 y1 x2 y2 : F).
Definition add_D : F := (curve_d * (x1 * x2 * y1 * y2))%F.
Definition add_x : F := ((x1 * y2 + x2 * y1) / (1 + add_D))%F.
Definition add_y : F := ((y1 * y2 + x1 * x2) / (1 - add_D))%F.
End Addition.
Arguments add_D (x1 y1 x2 y2)%_F_scope.
Arguments add_x (x1 y1 x2 y2)%_F_scope.
Arguments add_y (x1 y1 x2 y2)%_F_scope.

Lemma on_curve_zero x y : on_curve x y -> (y * y - x * x - (1 + curve_d * (x * x) * (y * y)) = 0)%F.
Proof. unfold on_curve. intros ->. ring. Qed.

Lemma add_on_curve x1 y1 x2 y2 :
  on_curve x1 y1 -> on_curve x2 y2 -> on_curve (add_x x1 y1 x2 y2) (add_y x1 y1 x2 y2).
Proof.
  intros H1 H2. pose proof (complete_plus _ _ _ _ H1 H2) as Hp.
  pose proof (complete_minus _ _ _ _ H1 H2) as Hm.
  pose proof (closed_identity curve_d x1 y1 x2 y2 0 0) as E. cbv zeta in E.
  rewrite (on_curve_zero _ _ H1), (on_curve_zero _ _ H2) in E.
  match type of E with (?m * ?n = _)%F => assert (n = 0)%F as E' end.
  { eapply F_mul_zero_l; [rewrite E; ring|]. apply F_mul_nonzero; apply F_mul_nonzero; apply d_sq_neq. }
  apply F_sub_zero in E'. unfold on_curve, add_x, add_y. fold (add_D x1 y1 x2 y2) in *.
  set (D := add_D x1 y1 x2 y2) in *. apply F_sub_zero.
  set (A := (x1 * y2 + x2 * y1)%F) in *. set (B := (y1 * y2 + x1 * x2)%F) in *.
  assert ((1 - D) * (1 + D) <> 0)%F as Hn by (by apply F_mul_nonzero).
  transitivity ((B * B * ((1 + D) * (1 + D)) - A * A * ((1 - D) * (1 - D)) -
    ((1 - D * D) * (1 - D * D) + curve_d * (A * A) * (B * B))) / ((1 - D) * (1 + D) * ((1 - D) * (1 + D))))%F;
    [field; split; assumption|]. rewrite E'. field. split; assumption.
Qed.

(** Addition is commutative on coordinates. *)
Lemma add_D_comm x1 y1 x2 y2 : add_D x1 y1 x2 y2 = add_D x2 y2 x1 y1.
Proof. unfold add_D. ring. Qed.
Lemma add_x_comm x1 y1 x2 y2 : add_x x1 y1 x2 y2 = add_x x2 y2 x1 y1.
Proof. unfold add_x. rewrite (add_D_comm x1). f_equal. ring. Qed.
Lemma add_y_comm x1 y1 x2 y2 : add_y x1 y1 x2 y2 = add_y x2 y2 x1 y1.
Proof. unfold add_y. rewrite (add_D_comm x1). f_equal. ring. Qed.

(** Adding to a point given by fractions [a/p], [b/m]: one common denominator. *)
Section Fractions.
Context (a b p m x y : F) (Hp : p <> 0%F) (Hm : m <> 0%F).
Let K := (curve_d * (a * b * x * y))%F.

Lemma frac_D : add_D (a / p) (b / m) x y = (K / (p * m))%F.
Proof. unfold add_D. subst K. field. split; assumption. Qed.

Lemma frac_plus : (1 + add_D (a / p) (b / m) x y <> 0 -> p * m + K <> 0)%F.
Proof.
  intros H E. apply H. rewrite frac_D. transitivity ((p * m + K) / (p * m))%F; [field; split; assumption|].
  rewrite E. field. split; assumption.
Qed.

Lemma frac_minus : (1 - add_D (a / p) (b / m) x y <> 0 -> p * m - K <> 0)%F.
Proof.
  intros H E. apply H. rewrite frac_D. transitivity ((p * m - K) / (p * m))%F; [field; split; assumption|].
  rewrite E. field. split; assumption.
Qed.

Lemma frac_x : (p * m + K <> 0)%F -> add_x (a / p) (b / m) x y = ((a * m * y + x * b * p) / (p * m + K))%F.
Proof.
  intros H. unfold add_x. rewrite frac_D. clearbody K. field.
  repeat split; assumption.
Qed.

Lemma frac_y : (p * m - K <> 0)%F -> add_y (a / p) (b / m) x y = ((b * p * y + x * a * m) / (p * m - K))%F.
Proof.
  intros H. unfold add_y. rewrite frac_D. clearbody K. field.
  repeat split; assumption.
Qed.
End Fractions.

Lemma F_cross (a b c e : F) : (b <> 0 -> e <> 0 -> a * e = c * b -> a / b = c / e)%F.
Proof.
  intros Hb He E. transitivity ((a * e) / (b * e))%F; [field; split; assumption|].
  rewrite E. field. split; assumption.
Qed.

Section Associativity.
Context (x1 y1 x2 y2 x3 y3 : F).
Context (H1 : on_curve x1 y1) (H2 : on_curve x2 y2) (H3 : on_curve x3 y3).

Let H12 := add_on_curve _ _ _ _ H1 H2.
Let H23 := add_on_curve _ _ _ _ H2 H3.

Lemma add_x_assoc :
  add_x (add_x x1 y1 x2 y2) (add_y x1 y1 x2 y2) x3 y3 =
  add_x x1 y1 (add_x x2 y2 x3 y3) (add_y x2 y2 x3 y3).
Proof.
  pose proof (complete_plus _ _ _ _ H1 H2) as Hp. pose proof (complete_minus _ _ _ _ H1 H2) as Hm.
  pose proof (complete_plus _ _ _ _ H2 H3) as Hp'. pose proof (complete_minus _ _ _ _ H2 H3) as Hm'.
  pose proof (complete_plus _ _ _ _ H12 H3) as C. pose proof (complete_plus _ _ _ _ H23 H1) as C'.
  rewrite (add_x_comm x1 y1 (add_x x2 y2 x3 y3)).
  pose proof (frac_plus _ _ _ _ x3 y3 Hp Hm C) as N. pose proof (frac_plus _ _ _ _ x1 y1 Hp' Hm' C') as N'.
  unfold add_x at 2 4, add_y. rewrite !frac_x by assumption. apply F_cross; [exact N|exact N'|].
  apply F_sub_zero. eapply (F_mul_zero_l ((1 - curve_d * (x1 * x1)) *
    ((1 - curve_d * (x2 * x2)) * (1 - curve_d * (x2 * x2))) * (1 - curve_d * (x3 * x3)))%F).
  - pose proof (assoc_x_identity curve_d x1 y1 x2 y2 x3 y3) as E. cbv zeta in E.
    rewrite (on_curve_zero _ _ H1), (on_curve_zero _ _ H2), (on_curve_zero _ _ H3) in E.
    etransitivity; [|etransitivity; [exact E|ring]]. unfold add_D. ring.
  - apply F_mul_nonzero; [apply F_mul_nonzero; [|apply F_mul_nonzero]|]; apply d_sq_neq.
Qed.

Lemma add_y_assoc :
  add_y (add_x x1 y1 x2 y2) (add_y x1 y1 x2 y2) x3 y3 =
  add_y x1 y1 (add_x x2 y2 x3 y3) (add_y x2 y2 x3 y3).
Proof.
  pose proof (complete_plus _ _ _ _ H1 H2) as Hp. pose proof (complete_minus _ _ _ _ H1 H2) as Hm.
  pose proof (complete_plus _ _ _ _ H2 H3) as Hp'. pose proof (complete_minus _ _ _ _ H2 H3) as Hm'.
  pose proof (complete_minus _ _ _ _ H12 H3) as C. pose proof (complete_minus _ _ _ _ H23 H1) as C'.
  rewrite (add_y_comm x1 y1 (add_x x2 y2 x3 y3)).
  pose proof (frac_minus _ _ _ _ x3 y3 Hp Hm C) as N. pose proof (frac_minus _ _ _ _ x1 y1 Hp' Hm' C') as N'.
  unfold add_x, add_y at 2 4. rewrite !frac_y by assumption. apply F_cross; [exact N|exact N'|].
  apply F_sub_zero. eapply (F_mul_zero_l ((1 - curve_d * (x1 * x1)) *
    ((1 - curve_d * (x2 * x2)) * (1 - curve_d * (x2 * x2))) * (1 - curve_d * (x3 * x3)))%F).
  - pose proof (assoc_y_identity curve_d x1 y1 x2 y2 x3 y3) as E. cbv zeta in E.
    rewrite (on_curve_zero _ _ H1), (on_curve_zero _ _ H2), (on_curve_zero _ _ H3) in E.
    etransitivity; [|etransitivity; [exact E|ring]]. unfold add_D. ring.
  - apply F_mul_nonzero; [apply F_mul_nonzero; [|apply F_mul_nonzero]|]; apply d_sq_neq.
Qed.
End Associativity.

(** ** The group of points *)

Definition on_curveb (x y : F) : bool := Zmod.eqb (y * y - x * x)%F (1 + curve_d * (x * x) * (y * y))%F.

Lemma on_curveb_spec x y : on_curveb x y = true <-> on_curve x y.
Proof. unfold on_curveb. apply Zmod.eqb_eq. Qed.

Record point := Pt { px : F; py : F; pt_on : on_curveb px py = true }.

Lemma on_point P : on_curve (px P) (py P).
Proof. apply on_curveb_spec. apply pt_on. Qed.

(** Points are determined by their coordinates. *)
Lemma point_eq P Q : px P = px Q -> py P = py Q -> P = Q.
Proof.
  destruct P as [x y H], Q as [x' y' H']. simpl. intros -> ->. f_equal.
  apply Eqdep_dec.UIP_dec, Bool.bool_dec.
Qed.

#[global] Instance point_eq_dec : EqDecision point.
Proof.
  intros P Q. destruct (decide (px P = px Q)) as [E|]; [|right; congruence].
  destruct (decide (py P = py Q)) as [E'|]; [|right; congruence].
  left. by apply point_eq.
Defined.

Lemma on_curve_0 : on_curve 0%F 1%F.
Proof. unfold on_curve. ring. Qed.

Definition pt0 : point := Pt 0%F 1%F (proj2 (on_curveb_spec _ _) on_curve_0).

Lemma on_curve_opp x y : on_curve x y -> on_curve (- x)%F y.
Proof. unfold on_curve. intros H. transitivity (y * y - x * x)%F; [ring|]. rewrite H. ring. Qed.

Definition ptopp (P : point) : point :=
  Pt (- px P)%F (py P) (proj2 (on_curveb_spec _ _) (on_curve_opp _ _ (on_point P))).

Definition ptadd (P Q : point) : point :=
  Pt (add_x (px P) (py P) (px Q) (py Q)) (add_y (px P) (py P) (px Q) (py Q))
    (proj2 (on_curveb_spec _ _) (add_on_curve _ _ _ _ (on_point P) (on_point Q))).

Declare Scope pt_scope.
Delimit Scope pt_scope with pt.
Bind Scope pt_scope with point.
Infix "+" := ptadd : pt_scope.
Notation "- P" := (ptopp P) : pt_scope.
Notation "P - Q" := (ptadd P (ptopp Q)) : pt_scope.

#[global] Instance ptadd_comm : Comm (=) ptadd.
Proof. intros P Q. apply point_eq; simpl; [apply add_x_comm | apply add_y_comm]. Qed.

#[global] Instance ptadd_assoc : Assoc (=) ptadd.
Proof.
  intros P Q R. symmetry. apply point_eq; simpl; [apply add_x_assoc | apply add_y_assoc]; apply on_point.
Qed.

#[global] Instance ptadd_0_l : LeftId (=) pt0 ptadd.
Proof.
  intros P. assert (add_D 0 1 (px P) (py P) = 0)%F as E by (unfold add_D; ring).
  apply point_eq; simpl; unfold add_x, add_y; rewrite E.
  - transitivity (px P / 1)%F; [f_equal; ring | field; exact F_one_neq_zero].
  - transitivity (py P / 1)%F; [f_equal; ring | field; exact F_one_neq_zero].
Qed.

#[global] Instance ptadd_0_r : RightId (=) pt0 ptadd.
Proof. intros P. rewrite (comm ptadd). apply (left_id pt0 ptadd). Qed.

Lemma ptadd_opp_r P : (P + - P)%pt = pt0.
Proof.
  pose proof (on_point P) as H. pose proof (on_curve_opp _ _ H) as H'.
  pose proof (complete_minus _ _ _ _ H H') as Hm. pose proof (complete_plus _ _ _ _ H H') as Hp.
  apply point_eq; simpl; unfold add_x, add_y; fold (add_D (px P) (py P) (- px P) (py P)) in *.
  - transitivity (0 / (1 + add_D (px P) (py P) (- px P) (py P)))%F; [f_equal; ring|field; assumption].
  - transitivity (1 / 1)%F; [|field; exact F_one_neq_zero]. apply F_cross; [exact Hm|exact F_one_neq_zero|].
    unfold on_curve in H. unfold add_D. transitivity (py P * py P - px P * px P)%F; [ring|].
    rewrite H. ring.
Qed.

Lemma ptadd_opp_l P : (- P + P)%pt = pt0.
Proof. rewrite (comm ptadd). apply ptadd_opp_r. Qed.

Lemma ptadd_cancel_l P Q R : (P + Q)%pt = (P + R)%pt -> Q = R.
Proof.
  intros E. rewrite <- (left_id pt0 ptadd Q), <- (left_id pt0 ptadd R), <- (ptadd_opp_l P).
  rewrite <- !(assoc ptadd), E. done.
Qed.

Lemma ptopp_unique P Q : (P + Q)%pt = pt0 -> Q = (- P)%pt.
Proof. intros E. apply (ptadd_cancel_l P). rewrite E, ptadd_opp_r. done. Qed.

Lemma ptopp_0 : (- pt0)%pt = pt0.
Proof. symmetry. apply ptopp_unique. apply (left_id pt0 ptadd). Qed.

Lemma ptopp_add P Q : (- (P + Q))%pt = (- P + - Q)%pt.
Proof.
  symmetry. apply ptopp_unique. rewrite <- (assoc ptadd), (assoc ptadd Q), (comm ptadd Q), <- (assoc ptadd (- P)%pt).
  rewrite ptadd_opp_r, (right_id pt0 ptadd). apply ptadd_opp_r.
Qed.

Lemma ptopp_opp P : (- - P)%pt = P.
Proof. symmetry. apply ptopp_unique. apply ptadd_opp_l. Qed.

(** ** Scalar multiples *)

Fixpoint nmul (n : nat) (P : point) : point :=
  match n with O => pt0 | S n' => (P + nmul n' P)%pt end.

Definition zmul (n : Z) (P : point) : point :=
  if n <? 0 then (- nmul (Z.to_nat (- n)) P)%pt else nmul (Z.to_nat n) P.

Lemma nmul_add m n P : nmul (m + n) P = (nmul m P + nmul n P)%pt.
Proof.
  induction m as [|m IH]; simpl; [by rewrite (left_id pt0 ptadd)|]. rewrite IH. apply (assoc ptadd).
Qed.

Lemma zmul_nat n P : zmul (Z.of_nat n) P = nmul n P.
Proof. unfold zmul. destruct (Z.ltb_spec (Z.of_nat n) 0); [lia|]. by rewrite Nat2Z.id. Qed.

Lemma zmul_opp n P : zmul (- n) P = (- zmul n P)%pt.
Proof.
  unfold zmul. destruct (Z.ltb_spec (- n) 0), (Z.ltb_spec n 0); try lia.
  - rewrite Z.opp_involutive. done.
  - rewrite ptopp_opp. done.
  - assert (n = 0) as -> by lia. simpl. symmetry. apply ptopp_0.
Qed.

Lemma zmul_sub_nat m n P : zmul (Z.of_nat m - Z.of_nat n) P = (nmul m P - nmul n P)%pt.
Proof.
  destruct (Nat.le_ge_cases n m) as [H|H].
  - replace (Z.of_nat m - Z.of_nat n) with (Z.of_nat (m - n)) by lia. rewrite zmul_nat.
    replace m with (m - n + n)%nat at 2 by lia. rewrite nmul_add, <- (assoc ptadd), ptadd_opp_r.
    by rewrite (right_id pt0 ptadd).
  - replace (Z.of_nat m - Z.of_nat n) with (- Z.of_nat (n - m)) by lia. rewrite zmul_opp, zmul_nat.
    replace n with (n - m + m)%nat at 2 by lia. rewrite nmul_add, ptopp_add.
    rewrite (comm ptadd (- nmul (n - m) P)%pt), (assoc ptadd), ptadd_opp_r. by rewrite (left_id pt0 ptadd).
Qed.

Lemma zmul_add m n P : zmul (m + n) P = (zmul m P + zmul n P)%pt.
Proof.
  assert (forall k, exists a b, k = Z.of_nat a - Z.of_nat b) as H.
  { intros k. exists (Z.to_nat k), (Z.to_nat (- k)). lia. }
  destruct (H m) as (a & b & ->), (H n) as (a' & b' & ->).
  replace (Z.of_nat a - Z.of_nat b + (Z.of_nat a' - Z.of_nat b'))
    with (Z.of_nat (a + a') - Z.of_nat (b + b')) by lia.
  rewrite !zmul_sub_nat, !nmul_add, ptopp_add.
  rewrite <- !(assoc ptadd). f_equal. rewrite !(assoc ptadd). f_equal. apply (comm ptadd).
Qed.

Lemma zmul_0 P : zmul 0 P = pt0.
Proof. done. Qed.

Lemma zmul_1 P : zmul 1 P = P.
Proof. unfold zmul. simpl. apply (right_id pt0 ptadd). Qed.

Lemma zmul_2 P : zmul 2 P = (P + P)%pt.
Proof. change 2 with (1 + 1). rewrite zmul_add, zmul_1. done. Qed.

Lemma zmul_mul m n P : zmul (m * n) P = zmul m (zmul n P).
Proof.
  assert (forall k : nat, zmul (Z.of_nat k * n) P = zmul (Z.of_nat k) (zmul n P)) as H.
  { induction k as [|k IH]; [done|]. rewrite Nat2Z.inj_succ, Z.mul_succ_l, <- Z.add_1_l, !zmul_add, IH.
    rewrite zmul_1. apply (comm ptadd). }
  destruct (Z.le_ge_cases 0 m) as [Hm|Hm].
  - rewrite <- (Z2Nat.id m) by done. apply H.
  - replace m with (- Z.of_nat (Z.to_nat (- m))) by lia. rewrite Z.mul_opp_l, !zmul_opp, H. done.
Qed.

Lemma zmul_pt0 n : zmul n pt0 = pt0.
Proof. rewrite <- (zmul_0 pt0), <- zmul_mul, Z.mul_0_r. done. Qed.

Lemma zmul_dist n P Q : zmul n (P + Q)%pt = (zmul n P + zmul n Q)%pt.
Proof.
  assert (forall k : nat, nmul k (P + Q)%pt = (nmul k P + nmul k Q)%pt) as H.
  { induction k as [|k IH]; simpl; [by rewrite (left_id pt0 ptadd)|]. rewrite IH, <- !(assoc ptadd).
    f_equal. rewrite !(assoc ptadd). f_equal. apply (comm ptadd). }
  unfold zmul. destruct (n <? 0); [rewrite H; apply ptopp_add | apply H].
Qed.

(** With the constant of the code, which is -121665/121666, the points of the curve form a
    commutative group under the addition the code implements: the law is total (the denominators never vanish), associative and commutative, with
    [(0, 1)] neutral and [(-x, y)] inverse. *)
Theorem curve_group :
  (fval fe_d * inF 121666 = - inF 121665)%F /\
  (forall P Q, on_curve (px (P + Q)%pt) (py (P + Q)%pt)) /\
  (forall P Q, 1 + add_D (px P) (py P) (px Q) (py Q) <> 0 /\ 1 - add_D (px P) (py P) (px Q) (py Q) <> 0)%F /\
  (forall P Q R, (P + (Q + R))%pt = ((P + Q) + R)%pt) /\
  (forall P Q, (P + Q)%pt = (Q + P)%pt) /\
  (forall P, (pt0 + P)%pt = P) /\ (forall P, (P + - P)%pt = pt0).
Proof.
  split; [exact curve_d_eq|]. split; [intros; apply on_point|]. split.
  { intros P Q. split; [apply complete_plus | apply complete_minus]; apply on_point. }
  split; [exact ptadd_assoc|]. split; [exact ptadd_comm|]. split; [exact ptadd_0_l|exact ptadd_opp_r].
Qed.
