(* ===== verification/Group.v ===== *)
(** Points of the curve [-x^2 + y^2 = 1 + d x^2 y^2]: the [ge_*] functions of
    src/src/crypto/crypto-ops.c, on the coordinate records of [Tables.v].

    Every function is translated statement by statement; a destination such as
    [r->X] that is written twice is a variable bound twice. *)

From S2P Require Import Prelude Limbs Bytes Field Tables.

(** ** Additions *)

Definition ge_add (p : ge_p3) (q : ge_cached) : outcome ge_p1p1 :=
  let* rX := fe_add (p3_Y p) (p3_X p) in
  let* rY := fe_sub (p3_Y p) (p3_X p) in
  let* rZ := fe_mul rX (YplusX q) in
  let* rY := fe_mul rY (YminusX q) in
  let* rT := fe_mul (T2d q) (p3_T p) in
  let* rX := fe_mul (p3_Z p) (cached_Z q) in
  let* t0 := fe_add rX rX in
  let* rX := fe_sub rZ rY in
  let* rY := fe_add rZ rY in
  let* rZ := fe_add t0 rT in
  let* rT := fe_sub t0 rT in
  Ret {| p1_X := rX; p1_Y := rY; p1_Z := rZ; p1_T := rT |}.

Definition ge_sub (p : ge_p3) (q : ge_cached) : outcome ge_p1p1 :=
  let* rX := fe_add (p3_Y p) (p3_X p) in
  let* rY := fe_sub (p3_Y p) (p3_X p) in
  let* rZ := fe_mul rX (YminusX q) in
  let* rY := fe_mul rY (YplusX q) in
  let* rT := fe_mul (T2d q) (p3_T p) in
  let* rX := fe_mul (p3_Z p) (cached_Z q) in
  let* t0 := fe_add rX rX in
  let* rX := fe_sub rZ rY in
  let* rY := fe_add rZ rY in
  let* rZ := fe_sub t0 rT in
  let* rT := fe_add t0 rT in
  Ret {| p1_X := rX; p1_Y := rY; p1_Z := rZ; p1_T := rT |}.

Definition ge_madd (p : ge_p3) (q : ge_precomp) : outcome ge_p1p1 :=
  let* rX := fe_add (p3_Y p) (p3_X p) in
  let* rY := fe_sub (p3_Y p) (p3_X p) in
  let* rZ := fe_mul rX (yplusx q) in
  let* rY := fe_mul rY (yminusx q) in
  let* rT := fe_mul (xy2d q) (p3_T p) in
  let* t0 := fe_add (p3_Z p) (p3_Z p) in
  let* rX := fe_sub rZ rY in
  let* rY := fe_add rZ rY in
  let* rZ := fe_add t0 rT in
  let* rT := fe_sub t0 rT in
  Ret {| p1_X := rX; p1_Y := rY; p1_Z := rZ; p1_T := rT |}.

Definition ge_msub (p : ge_p3) (q : ge_precomp) : outcome ge_p1p1 :=
  let* rX := fe_add (p3_Y p) (p3_X p) in
  let* rY := fe_sub (p3_Y p) (p3_X p) in
  let* rZ := fe_mul rX (yminusx q) in
  let* rY := fe_mul rY (yplusx q) in
  let* rT := fe_mul (xy2d q) (p3_T p) in
  let* t0 := fe_add (p3_Z p) (p3_Z p) in
  let* rX := fe_sub rZ rY in
  let* rY := fe_add rZ rY in
  let* rZ := fe_sub t0 rT in
  let* rT := fe_add t0 rT in
  Ret {| p1_X := rX; p1_Y := rY; p1_Z := rZ; p1_T := rT |}.

(** ** Conversions *)

Definition ge_p1p1_to_p2 (p : ge_p1p1) : outcome ge_p2 :=
  let* rX := fe_mul (p1_X p) (p1_T p) in
  let* rY := fe_mul (p1_Y p) (p1_Z p) in
  let* rZ := fe_mul (p1_Z p) (p1_T p) in
  Ret {| p2_X := rX; p2_Y := rY; p2_Z := rZ |}.

Definition ge_p1p1_to_p3 (p : ge_p1p1) : outcome ge_p3 :=
  let* rX := fe_mul (p1_X p) (p1_T p) in
  let* rY := fe_mul (p1_Y p) (p1_Z p) in
  let* rZ := fe_mul (p1_Z p) (p1_T p) in
  let* rT := fe_mul (p1_X p) (p1_Y p) in
  Ret {| p3_X := rX; p3_Y := rY; p3_Z := rZ; p3_T := rT |}.

Definition ge_p3_to_cached (p : ge_p3) : outcome ge_cached :=
  let* yp := fe_add (p3_Y p) (p3_X p) in
  let* ym := fe_sub (p3_Y p) (p3_X p) in
  let z := fe_copy (p3_Z p) in
  let* t2d := fe_mul (p3_T p) fe_d2 in
  Ret {| YplusX := yp; YminusX := ym; cached_Z := z; T2d := t2d |}.

Definition ge_p3_to_p2 (p : ge_p3) : ge_p2 :=
  {| p2_X := fe_copy (p3_X p); p2_Y := fe_copy (p3_Y p); p2_Z := fe_copy (p3_Z p) |}.

Definition ge_p2_0 : ge_p2 := {| p2_X := fe_0; p2_Y := fe_1; p2_Z := fe_1 |}.
Definition ge_p3_0 : ge_p3 := {| p3_X := fe_0; p3_Y := fe_1; p3_Z := fe_1; p3_T := fe_0 |}.
Definition ge_precomp_0 : ge_precomp := {| yplusx := fe_1; yminusx := fe_1; xy2d := fe_0 |}.
Definition ge_cached_0 : ge_cached :=
  {| YplusX := fe_1; YminusX := fe_1; cached_Z := fe_1; T2d := fe_0 |}.

(** ** Doubling *)

Definition ge_p2_dbl (p : ge_p2) : outcome ge_p1p1 :=
  let* rX := fe_sq (p2_X p) in
  let* rZ := fe_sq (p2_Y p) in
  let* rT := fe_sq2 (p2_Z p) in
  let* rY := fe_add (p2_X p) (p2_Y p) in
  let* t0 := fe_sq rY in
  let* rY := fe_add rZ rX in
  let* rZ := fe_sub rZ rX in
  let* rX := fe_sub t0 rY in
  let* rT := fe_sub rT rZ in
  Ret {| p1_X := rX; p1_Y := rY; p1_Z := rZ; p1_T := rT |}.

Definition ge_p3_dbl (p : ge_p3) : outcome ge_p1p1 := ge_p2_dbl (ge_p3_to_p2 p).

Definition ge_mul8 (t : ge_p2) : outcome ge_p1p1 :=
  let* r := ge_p2_dbl t in
  let* u := ge_p1p1_to_p2 r in
  let* r := ge_p2_dbl u in
  let* u := ge_p1p1_to_p2 r in
  ge_p2_dbl u.

(** ** Encoding *)

(** [s[31] ^= fe_isnegative(x) << 7;] *)
Definition set_sign (s : list Z) (neg : Z) : list Z :=
  <[31%nat := u8 (Z.lxor (s !!! 31%nat) (shl 32 neg 7))]> s.

Definition ge_tobytes (h : ge_p2) : outcome (list Z) :=
  let* recip := fe_invert (p2_Z h) in
  let* x := fe_mul (p2_X h) recip in
  let* y := fe_mul (p2_Y h) recip in
  let* s := fe_tobytes y in
  let* neg := fe_isnegative x in
  Ret (set_sign s neg).

Definition ge_p3_tobytes (h : ge_p3) : outcome (list Z) :=
  let* recip := fe_invert (p3_Z h) in
  let* x := fe_mul (p3_X h) recip in
  let* y := fe_mul (p3_Y h) recip in
  let* s := fe_tobytes y in
  let* neg := fe_isnegative x in
  Ret (set_sign s neg).

(** ** Decoding *)

(** [(int64_t) (load_n(s + off) << sh)] *)
Definition load_limb (s : list Z) (n off : nat) (sh : Z) : outcome Z :=
  let* v := load n off s in Ret (swrap 64 (uwrap 64 (Z.shiftl v sh))).

(** The limbs [h0 .. h9] of fe_frombytes; [mask] is applied to the last load. *)
Definition frombytes_limbs (mask : Z -> Z) (s : list Z) : outcome (list Z) :=
  let* h0 := load_limb s 4 0 0 in
  let* h1 := load_limb s 3 4 6 in
  let* h2 := load_limb s 3 7 5 in
  let* h3 := load_limb s 3 10 3 in
  let* h4 := load_limb s 3 13 2 in
  let* h5 := load_limb s 4 16 0 in
  let* h6 := load_limb s 3 20 7 in
  let* h7 := load_limb s 3 23 5 in
  let* h8 := load_limb s 3 26 4 in
  let* v9 := load 3 29 s in
  let h9 := swrap 64 (uwrap 64 (Z.shiftl (mask v9) 2)) in
  Ret [h0; h1; h2; h3; h4; h5; h6; h7; h8; h9].

(** "Validate the number to be canonical": all limbs at their maximum, up to
    the last 19 values of [h0]. *)
Definition noncanonical (h : list Z) : bool :=
  match h with
  | [h0; h1; h2; h3; h4; h5; h6; h7; h8; h9] =>
      (h9 =? 33554428) && (h8 =? 268435440) && (h7 =? 536870880) && (h6 =? 2147483520) &&
      (h5 =? 4294967295) && (h4 =? 67108860) && (h3 =? 134217720) && (h2 =? 536870880) &&
      (h1 =? 1073741760) && (4294967277 <=? h0)
  | _ => false
  end.

(** The carries of fe_frombytes and the conversion of the limbs to [int32_t]. *)
Definition frombytes_carry (h : list Z) : outcome fe :=
  let* h := foldM fe_carry [9; 1; 3; 5; 7; 0; 2; 4; 6; 8]%nat h in
  Ret (map (swrap 32) h).

(** [check = v x^2 - u], then [v x^2 + u]; [None] where the code returns -1. *)
Definition frombytes_root (X u v : fe) : outcome (option fe) :=
  let* vxx := fe_sq X in
  let* vxx := fe_mul vxx v in
  let* check := fe_sub vxx u in
  let* nz := fe_isnonzero check in
  if nz =? 0 then Ret (Some X) else
  let* check := fe_add vxx u in
  let* nz := fe_isnonzero check in
  if nz =? 0 then let* X := fe_mul X fe_sqrtm1 in Ret (Some X) else Ret None.

(** [if (fe_isnegative(h->X) != sign) { if (!fe_isnonzero(h->X)) return -1; fe_neg(h->X, h->X); }] *)
Definition frombytes_sign (X : fe) (sign : Z) : outcome (option fe) :=
  let* neg := fe_isnegative X in
  if neg =? sign then Ret (Some X) else
  let* nz := fe_isnonzero X in
  if nz =? 0 then Ret None else
  let* X := fe_neg X in Ret (Some X).

(** Returns [None] where the code returns -1. *)
Definition ge_frombytes_vartime (s : list Z) : outcome (option ge_p3) :=
  let* h := frombytes_limbs (fun v => Z.land v 8388607) s in
  if noncanonical h then Ret None else
  let* Y := frombytes_carry h in
  let Z := fe_1 in
  let* u := fe_sq Y in
  let* v := fe_mul u fe_d in
  let* u := fe_sub u Z in
  let* v := fe_add v Z in
  let* X := fe_divpowm1 u v in
  let* rX := frombytes_root X u v in
  match rX with
  | None => Ret None
  | Some X =>
      let* s31 := index s 31 in
      let* rX := frombytes_sign X (Z.shiftr s31 7) in
      match rX with
      | None => Ret None
      | Some X =>
          let* T := fe_mul X Y in
          Ret (Some {| p3_X := X; p3_Y := Y; p3_Z := Z; p3_T := T |})
      end
  end.
