(* ===== verification/GroupFacts.v ===== *)
(** Correctness of the point operations of [Group.v]: on representations of
    points within the bounds of the code, no operation overflows and the result
    represents the sum, difference or double in the group of [Curve.v]. *)

From S2P Require Import Prelude Limbs Bytes Field FieldFacts FieldBytes Prime Fp Tables FieldPow Curve Group.

(** ** Representations of points

    Coordinates are reduced ([rep 16]) except for the completed
    representation, whose coordinates are sums of up to three reduced ones,
    and the [Y+X], [Y-X] of the cached one. *)

Definition p2_rep (p : ge_p2) (P : point) : Prop :=
  exists z, (z <> 0)%F /\
    rep 16 (p2_X p) (px P * z)%F /\ rep 16 (p2_Y p) (py P * z)%F /\ rep 16 (p2_Z p) z.

(** The output of [ge_fromfe_frombytes_vartime], whose [Y] and [Z] are sums. *)
Definition p2_rep_wide (p : ge_p2) (P : point) : Prop :=
  exists z, (z <> 0)%F /\
    rep 16 (p2_X p) (px P * z)%F /\ rep 33 (p2_Y p) (py P * z)%F /\ rep 33 (p2_Z p) z.

Definition p3_rep (p : ge_p3) (P : point) : Prop :=
  exists z, (z <> 0)%F /\
    rep 16 (p3_X p) (px P * z)%F /\ rep 16 (p3_Y p) (py P * z)%F /\ rep 16 (p3_Z p) z /\
    rep 16 (p3_T p) (px P * py P * z)%F.

Definition p1p1_rep (p : ge_p1p1) (P : point) : Prop :=
  exists z t, (z <> 0)%F /\ (t <> 0)%F /\
    rep 48 (p1_X p) (px P * z)%F /\ rep 48 (p1_Y p) (py P * t)%F /\ rep 48 (p1_Z p) z /\ rep 48 (p1_T p) t.

Definition cached_rep (p : ge_cached) (P : point) : Prop :=
  exists z, (z <> 0)%F /\
    rep 32 (YplusX p) ((py P + px P) * z)%F /\ rep 32 (YminusX p) ((py P - px P) * z)%F /\
    rep 16 (cached_Z p) z /\ rep 16 (T2d p) ((curve_d + curve_d) * (px P * py P) * z)%F.

Definition precomp_rep (p : ge_precomp) (P : point) : Prop :=
  rep 16 (yplusx p) (py P + px P)%F /\ rep 16 (yminusx p) (py P - px P)%F /\
  rep 16 (xy2d p) ((curve_d + curve_d) * (px P * py P))%F.

(** Runs one field operation of a straight-line function. *)
Ltac fe_call :=
  lazymatch goal with
  | |- yields (fe_mul _ _) _ => eapply (fe_op2 (op:=fe_mul)); [eassumption | eassumption | reflexivity]
  | |- yields (fe_add _ _) _ => eapply (fe_op2 (op:=fe_add)); [eassumption | eassumption | reflexivity]
  | |- yields (fe_sub _ _) _ => eapply (fe_op2 (op:=fe_sub)); [eassumption | eassumption | reflexivity]
  | |- yields (fe_sq _) _ => eapply (fe_op1 (op:=fe_sq)); [eassumption | reflexivity]
  | |- yields (fe_sq2 _) _ => eapply (fe_op1 (op:=fe_sq2)); [eassumption | reflexivity]
  | |- yields (fe_neg _) _ => eapply (fe_op1 (op:=fe_neg)); [eassumption | reflexivity]
  end.
Ltac fe_step :=
  lazymatch goal with
  | |- yields (bind _ _) _ =>
      eapply yields_bind; [fe_call | let t := fresh "t" in let H := fresh "R" in intros t H; cbv beta in H]
  end.

(** A representation of the same residue, with weaker bounds. *)
Lemma rep_eq k k' f x y : rep k f x -> k <= k' -> x = y -> rep k' f y.
Proof. intros H Hk <-. exact (rep_weaken _ _ _ _ H Hk). Qed.

Ltac rep_ring := eapply rep_eq; [eassumption | lia | cbn [px py pt0]; first [reflexivity | ring]].

(** ** Conversions *)

Lemma ge_p1p1_to_p2_spec p P : p1p1_rep p P -> yields (ge_p1p1_to_p2 p) (fun r => p2_rep r P).
Proof.
  intros (z & t & Hz & Ht & HX & HY & HZ & HT). unfold ge_p1p1_to_p2. repeat fe_step.
  apply yields_ret. exists (z * t)%F. split; [by apply F_mul_nonzero|].
  split; [rep_ring|]. split; [rep_ring|]. rep_ring.
Qed.

Lemma ge_p1p1_to_p3_spec p P : p1p1_rep p P -> yields (ge_p1p1_to_p3 p) (fun r => p3_rep r P).
Proof.
  intros (z & t & Hz & Ht & HX & HY & HZ & HT). unfold ge_p1p1_to_p3. repeat fe_step.
  apply yields_ret. exists (z * t)%F. split; [by apply F_mul_nonzero|].
  split; [rep_ring|]. split; [rep_ring|]. split; [rep_ring|]. rep_ring.
Qed.

Lemma rep_const k f : within (kb k) f -> rep k f (fval f).
Proof. by split. Qed.

Lemma rep_fe_d : rep 16 fe_d curve_d.
Proof. apply rep_const. repeat constructor; vm_compute; congruence. Qed.

Lemma rep_fe_d2 : rep 16 fe_d2 (curve_d + curve_d)%F.
Proof.
  replace (curve_d + curve_d)%F with (fval fe_d2).
  - apply rep_const. repeat constructor; vm_compute; congruence.
  - apply Zmod.to_Z_inj. vm_compute. reflexivity.
Qed.

Lemma rep_fe_sqrtm1 : rep 16 fe_sqrtm1 (fval fe_sqrtm1).
Proof. apply rep_const. repeat constructor; vm_compute; congruence. Qed.

Lemma ge_p3_to_cached_spec p P : p3_rep p P -> yields (ge_p3_to_cached p) (fun r => cached_rep r P).
Proof.
  intros (z & Hz & HX & HY & HZ & HT). pose proof rep_fe_d2 as Hd.
  unfold ge_p3_to_cached, fe_copy. cbv zeta. repeat fe_step.
  apply yields_ret. exists z. split; [done|].
  split; [rep_ring|]. split; [rep_ring|]. split; [rep_ring|]. rep_ring.
Qed.

Lemma ge_p3_to_p2_spec p P : p3_rep p P -> p2_rep (ge_p3_to_p2 p) P.
Proof. intros (z & Hz & HX & HY & HZ & HT). exists z. auto. Qed.

Lemma ge_p2_0_spec : p2_rep ge_p2_0 pt0.
Proof.
  exists 1%F. split; [exact F_one_neq_zero|]. pose proof rep_fe_0. pose proof rep_fe_1.
  split; [rep_ring|]. split; [rep_ring|]. rep_ring.
Qed.

Lemma ge_p3_0_spec : p3_rep ge_p3_0 pt0.
Proof.
  exists 1%F. split; [exact F_one_neq_zero|]. pose proof rep_fe_0. pose proof rep_fe_1.
  split; [rep_ring|]. split; [rep_ring|]. split; [rep_ring|]. rep_ring.
Qed.

Lemma ge_cached_0_spec : cached_rep ge_cached_0 pt0.
Proof.
  exists 1%F. split; [exact F_one_neq_zero|]. pose proof rep_fe_0. pose proof rep_fe_1.
  split; [rep_ring|]. split; [rep_ring|]. split; [rep_ring|]. rep_ring.
Qed.

Lemma ge_precomp_0_spec : precomp_rep ge_precomp_0 pt0.
Proof.
  pose proof rep_fe_0. pose proof rep_fe_1. split; [rep_ring|]. split; [rep_ring|]. rep_ring.
Qed.

(** ** Doubling and addition *)

Lemma F_double_nonzero (x : F) : (x <> 0 -> x + x <> 0)%F.
Proof.
  intros Hx E. apply (F_mul_nonzero (1 + 1) x F_two_neq_zero Hx). rewrite <- E. ring.
Qed.

(** The coordinates of a sum, without division. *)
Lemma add_coords P Q :
  let D := add_D (px P) (py P) (px Q) (py Q) in
  (1 + D <> 0 /\ 1 - D <> 0 /\
   px (P + Q)%pt * (1 + D) = px P * py Q + px Q * py P /\
   py (P + Q)%pt * (1 - D) = py P * py Q + px P * px Q)%F.
Proof.
  intros D. pose proof (complete_plus _ _ _ _ (on_point P) (on_point Q)) as Hp.
  pose proof (complete_minus _ _ _ _ (on_point P) (on_point Q)) as Hm.
  fold (add_D (px P) (py P) (px Q) (py Q)) in Hp, Hm. fold D in Hp, Hm.
  split; [exact Hp|]. split; [exact Hm|]. simpl. unfold add_x, add_y. fold D.
  split; field; assumption.
Qed.

(** The same for a double, with the curve equation. *)
Lemma dbl_coords P :
  let D := add_D (px P) (py P) (px P) (py P) in
  (1 + D <> 0 /\ 1 - D <> 0 /\ py P * py P - px P * px P = 1 + D /\
   px (P + P)%pt * (1 + D) = px P * py P + px P * py P /\
   py (P + P)%pt * (1 - D) = py P * py P + px P * px P)%F.
Proof.
  intros D. pose proof (add_coords P P) as (Hp & Hm & Ex & Ey). fold D in Hp, Hm, Ex, Ey.
  pose proof (on_point P) as Hc. unfold on_curve in Hc.
  assert (py P * py P - px P * px P = 1 + D)%F as HD by (rewrite Hc; unfold D, add_D; ring).
  auto.
Qed.

Lemma ge_p2_dbl_wide p P : p2_rep_wide p P -> yields (ge_p2_dbl p) (fun r => p1p1_rep r (P + P)%pt).
Proof.
  intros (z & Hz & HX & HY & HZ). unfold ge_p2_dbl. repeat fe_step.
  apply yields_ret. destruct (dbl_coords P) as (Hp & Hm & HD & Ex & Ey). cbv zeta in *.
  set (D := add_D (px P) (py P) (px P) (py P)) in *.
  exists (z * z * (1 + D))%F, (z * z * (1 - D))%F.
  split; [by repeat apply F_mul_nonzero|]. split; [by repeat apply F_mul_nonzero|].
  split; [|split; [|split]]; (eapply rep_eq; [eassumption | lia |]).
  - transitivity (z * z * (px P * py P + px P * py P))%F; [ring|]. rewrite <- Ex. ring.
  - transitivity (z * z * (py P * py P + px P * px P))%F; [ring|]. rewrite <- Ey. ring.
  - transitivity (z * z * (py P * py P - px P * px P))%F; [ring|]. rewrite HD. ring.
  - transitivity (z * z * (1 + 1) - z * z * (py P * py P - px P * px P))%F; [ring|]. rewrite HD. ring.
Qed.

Lemma p2_rep_widen p P : p2_rep p P -> p2_rep_wide p P.
Proof.
  intros (z & Hz & HX & HY & HZ). exists z. split; [exact Hz|]. split; [exact HX|].
  split; eapply rep_weaken; try eassumption; lia.
Qed.

Lemma ge_p2_dbl_spec p P : p2_rep p P -> yields (ge_p2_dbl p) (fun r => p1p1_rep r (P + P)%pt).
Proof. intros H. by apply ge_p2_dbl_wide, p2_rep_widen. Qed.

Lemma ge_p3_dbl_spec p P : p3_rep p P -> yields (ge_p3_dbl p) (fun r => p1p1_rep r (P + P)%pt).
Proof. intros H. apply ge_p2_dbl_spec. by apply ge_p3_to_p2_spec. Qed.

(** The common end of the four additions. *)
Lemma p1p1_of_sum P Q z rX rY rZ rT x y u v :
  let D := add_D (px P) (py P) (px Q) (py Q) in
  z <> 0%F -> rep 48 rX x -> rep 48 rY y -> rep 48 rZ u -> rep 48 rT v ->
  (x = (px P * py Q + px Q * py P) * (z + z))%F -> (y = (py P * py Q + px P * px Q) * (z + z))%F ->
  (u = (1 + D) * (z + z))%F -> (v = (1 - D) * (z + z))%F ->
  p1p1_rep {| p1_X := rX; p1_Y := rY; p1_Z := rZ; p1_T := rT |} (P + Q)%pt.
Proof.
  intros D Hz HX HY HZ HT -> -> -> ->. pose proof (add_coords P Q) as (Hp & Hm & Ex & Ey).
  fold D in Hp, Hm, Ex, Ey. rewrite <- Ex in HX. rewrite <- Ey in HY.
  apply F_double_nonzero in Hz.
  exists ((1 + D) * (z + z))%F, ((1 - D) * (z + z))%F.
  split; [by apply F_mul_nonzero|]. split; [by apply F_mul_nonzero|]. unfold p1_X, p1_Y, p1_Z, p1_T.
  split; [rep_ring|]. split; [rep_ring|]. split; [rep_ring|rep_ring].
Qed.

Ltac rep_any := eapply rep_weaken; [eassumption | lia].

(** Ends an addition: the sums of products are those of [p1p1_of_sum]. *)
Ltac sum_end z :=
  apply yields_ret; eapply (p1p1_of_sum _ _ z);
    [repeat apply F_mul_nonzero; assumption
    | rep_any | rep_any | rep_any | rep_any | unfold add_D; cbn [px py ptopp]; ring ..].

Lemma ge_add_spec p P q Q :
  p3_rep p P -> cached_rep q Q -> yields (ge_add p q) (fun r => p1p1_rep r (P + Q)%pt).
Proof.
  intros (z & Hz & HX & HY & HZ & HT) (w & Hw & Hyp & Hym & Hqz & Ht2d).
  unfold ge_add. repeat fe_step. sum_end (z * w)%F.
Qed.

Lemma ge_sub_spec p P q Q :
  p3_rep p P -> cached_rep q Q -> yields (ge_sub p q) (fun r => p1p1_rep r (P - Q)%pt).
Proof.
  intros (z & Hz & HX & HY & HZ & HT) (w & Hw & Hyp & Hym & Hqz & Ht2d).
  unfold ge_sub. repeat fe_step. sum_end (z * w)%F.
Qed.

Lemma ge_madd_spec p P q Q :
  p3_rep p P -> precomp_rep q Q -> yields (ge_madd p q) (fun r => p1p1_rep r (P + Q)%pt).
Proof.
  intros (z & Hz & HX & HY & HZ & HT) (Hyp & Hym & Hxy).
  unfold ge_madd. repeat fe_step. sum_end z.
Qed.

Lemma ge_msub_spec p P q Q :
  p3_rep p P -> precomp_rep q Q -> yields (ge_msub p q) (fun r => p1p1_rep r (P - Q)%pt).
Proof.
  intros (z & Hz & HX & HY & HZ & HT) (Hyp & Hym & Hxy).
  unfold ge_msub. repeat fe_step. sum_end z.
Qed.

(** Runs one point operation of a straight-line function. *)
Ltac ge_call :=
  lazymatch goal with
  | |- yields (ge_p2_dbl _) _ => eapply ge_p2_dbl_spec; eassumption
  | |- yields (ge_p3_dbl _) _ => eapply ge_p3_dbl_spec; eassumption
  | |- yields (ge_p1p1_to_p2 _) _ => eapply ge_p1p1_to_p2_spec; eassumption
  | |- yields (ge_p1p1_to_p3 _) _ => eapply ge_p1p1_to_p3_spec; eassumption
  | |- yields (ge_p3_to_cached _) _ => eapply ge_p3_to_cached_spec; eassumption
  | |- yields (ge_add _ _) _ => eapply ge_add_spec; eassumption
  | |- yields (ge_sub _ _) _ => eapply ge_sub_spec; eassumption
  | |- yields (ge_madd _ _) _ => eapply ge_madd_spec; eassumption
  | |- yields (ge_msub _ _) _ => eapply ge_msub_spec; eassumption
  end.
Ltac ge_step :=
  lazymatch goal with
  | |- yields (bind _ _) _ =>
      eapply yields_bind; [ge_call | let r := fresh "r" in let H := fresh "Hr" in intros r H; cbv beta in H]
  end.

Lemma ge_mul8_spec p P : p2_rep_wide p P -> yields (ge_mul8 p) (fun r => p1p1_rep r (zmul 8 P)).
Proof.
  intros H. unfold ge_mul8. eapply yields_bind; [exact (ge_p2_dbl_wide p P H)|]. intros r Hr. cbv beta in Hr.
  repeat ge_step. eapply yields_mono; [ge_call|]. intros r' Hr'. cbv beta in Hr'.
  rewrite <- !zmul_2, <- !zmul_mul in Hr'. exact Hr'.
Qed.

(** ** Properties *)

(** C15: point addition is complete: for every two points of the curve, equal, opposite or neutral ones
    included, [ge_add], [ge_sub], [ge_madd] and [ge_msub] return without overflow a representation
    of the sum or the difference in the group of the curve, and [ge_p1p1_to_p3] and
    [ge_p1p1_to_p2] bring it back within the bounds the next operation needs. *)
Theorem ge_addition_correct (p q : ge_p3) (m : ge_precomp) (P Q M : point) :
  p3_rep p P -> p3_rep q Q -> precomp_rep m M ->
  yields (let* c := ge_p3_to_cached q in let* r := ge_add p c in ge_p1p1_to_p3 r) (fun r => p3_rep r (P + Q)%pt) /\
  yields (let* c := ge_p3_to_cached q in let* r := ge_sub p c in ge_p1p1_to_p2 r) (fun r => p2_rep r (P - Q)%pt) /\
  yields (let* r := ge_madd p m in ge_p1p1_to_p3 r) (fun r => p3_rep r (P + M)%pt) /\
  yields (let* r := ge_msub p m in ge_p1p1_to_p2 r) (fun r => p2_rep r (P - M)%pt).
Proof.
  intros Hp Hq Hm. split; [|split; [|split]].
  - do 2 ge_step. by apply ge_p1p1_to_p3_spec.
  - do 2 ge_step. by apply ge_p1p1_to_p2_spec.
  - ge_step. by apply ge_p1p1_to_p3_spec.
  - ge_step. by apply ge_p1p1_to_p2_spec.
Qed.

Lemma ge_addition_correct_witness :
  yields (let* c := ge_p3_to_cached ge_p3_0 in let* r := ge_add ge_p3_0 c in ge_p1p1_to_p3 r)
    (fun r => p3_rep r (pt0 + pt0)%pt).
Proof.
  exact (proj1 (ge_addition_correct ge_p3_0 ge_p3_0 ge_precomp_0 pt0 pt0 pt0
    ge_p3_0_spec ge_p3_0_spec ge_precomp_0_spec)).
Defined.

(** [ge_p2_dbl] and [ge_p3_dbl] double and [ge_mul8] multiplies by 8, also on the wider coordinates
    that [ge_fromfe_frombytes_vartime] leaves, without overflow. *)
Theorem ge_double_correct (p : ge_p2) (q : ge_p3) (P Q : point) :
  p2_rep_wide p P -> p3_rep q Q ->
  yields (ge_p2_dbl p) (fun r => p1p1_rep r (P + P)%pt) /\
  yields (ge_p3_dbl q) (fun r => p1p1_rep r (Q + Q)%pt) /\
  yields (ge_mul8 p) (fun r => p1p1_rep r (zmul 8 P)).
Proof.
  intros Hp Hq. split; [exact (ge_p2_dbl_wide p P Hp)|]. split; [exact (ge_p3_dbl_spec q Q Hq)|].
  exact (ge_mul8_spec p P Hp).
Qed.

Lemma ge_double_correct_witness :
  yields (ge_p2_dbl ge_p2_0) (fun r => p1p1_rep r (pt0 + pt0)%pt) /\
  yields (ge_p3_dbl ge_p3_0) (fun r => p1p1_rep r (pt0 + pt0)%pt) /\
  yields (ge_mul8 ge_p2_0) (fun r => p1p1_rep r (zmul 8 pt0)).
Proof.
  exact (ge_double_correct ge_p2_0 ge_p3_0 pt0 pt0 (p2_rep_widen _ _ ge_p2_0_spec) ge_p3_0_spec).
Defined.
