(* ===== verification/Encoding.v ===== *)
(** Encoding and decoding of points: [ge_tobytes], [ge_p3_tobytes] write the
    canonical encoding, [ge_frombytes_vartime] accepts exactly the canonical
    encodings of points and inverts them. *)

From S2P Require Import Prelude Limbs Bytes Field FieldFacts FieldBytes Prime Fp Tables FieldPow Curve Group GroupFacts.

(** The encoding of a point: the least residue of [y], the parity of the one
    of [x] in the top bit. *)
Definition encode (P : point) : list Z :=
  le_bytes 32 (Zmod.to_Z (py P) + 2 ^ 255 * (Zmod.to_Z (px P) mod 2)).

Lemma F_range (x : F) : 0 <= Zmod.to_Z x < prime_p.
Proof. pose proof (Zmod.to_Z_range x). assert (0 < prime_p) by reflexivity. lia. Qed.

Lemma prime_p_lt : prime_p < 2 ^ 255.
Proof. reflexivity. Qed.

Lemma rep_residue k f x : rep k f x -> val f mod prime_p = Zmod.to_Z x.
Proof. intros [_ <-]. unfold fval, inF. rewrite Zmod.to_Z_of_Z. done. Qed.

Lemma rep_tobytes k f x : rep k f x -> k <= 52 -> fe_tobytes f = Ret (le_bytes 32 (Zmod.to_Z x)).
Proof.
  intros H Hk. rewrite fe_tobytes_spec by exact (rep_tob _ _ _ Hk H). by rewrite (rep_residue _ _ _ H).
Qed.

Lemma rep_isnegative k f x : rep k f x -> k <= 52 -> fe_isnegative f = Ret (Zmod.to_Z x mod 2).
Proof.
  intros H Hk. rewrite fe_isnegative_spec by exact (rep_tob _ _ _ Hk H). by rewrite (rep_residue _ _ _ H).
Qed.

Lemma rep_isnonzero k f x :
  rep k f x -> k <= 52 -> fe_isnonzero f = Ret (if decide (x = 0%F) then 0 else 1).
Proof.
  intros H Hk. rewrite fe_isnonzero_spec by exact (rep_tob _ _ _ Hk H). rewrite (rep_residue _ _ _ H).
  destruct (decide (x = 0%F)) as [->|Hx]; [done|].
  destruct (Z.eqb_spec (Zmod.to_Z x) 0) as [E|]; [|done]. exfalso. apply Hx. by apply Zmod.to_Z_inj.
Qed.

(** ** Encoding *)

Lemma set_sign_spec y b :
  0 <= y < 2 ^ 255 -> b = 0 \/ b = 1 -> set_sign (le_bytes 32 y) b = le_bytes 32 (y + 2 ^ 255 * b).
Proof.
  intros Hy Hb. unfold set_sign.
  assert (le_bytes 32 y !!! 31%nat = y / 2 ^ 248) as E31.
  { cbn [le_bytes lookup_total list_lookup_total]. rewrite !Z.div_div by lia.
    rewrite Z.mod_small; [done|]. split; [apply Z.div_pos; lia|]. apply Z.div_lt_upper_bound; lia. }
  assert (0 <= y / 2 ^ 248 < 128) as H31
    by (split; [apply Z.div_pos; lia | apply Z.div_lt_upper_bound; lia]).
  assert (u8 (Z.lxor (y / 2 ^ 248) (shl 32 b 7)) = y / 2 ^ 248 + 128 * b) as Ex.
  { destruct Hb as [-> | ->].
    - change (shl 32 0 7) with 0. rewrite Z.lxor_0_r. unfold u8. rewrite uwrap_small by (simpl; lia). lia.
    - change (shl 32 1 7) with (Z.shiftl 1 7).
      replace (Z.lxor (y / 2 ^ 248) (Z.shiftl 1 7)) with (Z.lor (y / 2 ^ 248) (Z.shiftl 1 7)).
      + rewrite lor_add by (simpl; lia). unfold u8. apply uwrap_small. simpl. lia.
      + apply Z.bits_inj'. intros n Hn. rewrite Z.lor_spec, Z.lxor_spec.
        destruct (Z.lt_ge_cases n 7).
        * rewrite Z.shiftl_spec_low by lia. rewrite orb_false_r, xorb_false_r. done.
        * rewrite <- (Z.mod_small (y / 2 ^ 248) (2 ^ 7)) by (simpl; lia).
          rewrite Z.mod_pow2_bits_high by lia. done. }
  rewrite E31, Ex. apply le_val_inj.
  - apply Forall_insert; [apply bytes_le_bytes|]. unfold is_byte. lia.
  - apply bytes_le_bytes.
  - rewrite length_insert, !length_le_bytes. done.
  - rewrite le_val_le_bytes, Z.mod_small by (simpl Z.of_nat; lia).
    rewrite insert_take_drop by (rewrite length_le_bytes; lia).
    rewrite le_val_app, le_val_take by apply bytes_le_bytes. rewrite length_take, length_le_bytes.
    rewrite le_val_le_bytes. simpl Nat.min.
    change (8 * Z.of_nat 31) with 248. rewrite (Z.mod_small y) by (simpl; lia).
    rewrite drop_ge by (rewrite length_le_bytes; lia). simpl le_val.
    pose proof (Z.div_mod y (2 ^ 248) ltac:(lia)). lia.
Qed.

(** [x = X/Z], [y = Y/Z]. *)
Lemma ratio (x z : F) : z <> 0%F -> (x * z * / z = x)%F.
Proof. intros Hz. field. exact Hz. Qed.

Lemma ge_tobytes_wide p P : p2_rep_wide p P -> ge_tobytes p = Ret (encode P).
Proof.
  intros (z & Hz & HX & HY & HZ). unfold ge_tobytes.
  destruct (fe_invert_spec 33 _ _ HZ ltac:(lia)) as (recip & -> & Hr). cbn [bind].
  destruct (fe_op2 (op:=fe_mul) 16 16 16 _ _ _ _ HX Hr eq_refl) as (x & -> & Hx). cbn [bind].
  destruct (fe_op2 (op:=fe_mul) 33 16 16 _ _ _ _ HY Hr eq_refl) as (y & -> & Hy). cbn [bind].
  rewrite ratio in Hx, Hy by done.
  rewrite (rep_tobytes _ _ _ Hy), (rep_isnegative _ _ _ Hx) by lia. cbn [bind].
  f_equal. apply set_sign_spec.
  - pose proof (F_range (py P)). pose proof prime_p_lt. lia.
  - pose proof (Z.mod_pos_bound (Zmod.to_Z (px P)) 2). lia.
Qed.

Lemma ge_tobytes_spec p P : p2_rep p P -> ge_tobytes p = Ret (encode P).
Proof. intros H. by apply ge_tobytes_wide, p2_rep_widen. Qed.

Lemma ge_p3_tobytes_spec p P : p3_rep p P -> ge_p3_tobytes p = Ret (encode P).
Proof. intros H. exact (ge_tobytes_spec _ _ (ge_p3_to_p2_spec _ _ H)). Qed.

(** ** Loading field elements *)

(** [n] bytes of the number [V] at byte offset [off]. *)
Definition chunk (V : Z) (n off : nat) : Z := (V / 2 ^ (8 * Z.of_nat off)) mod 2 ^ (8 * Z.of_nat n).

Lemma chunk_bound V n off : 0 <= chunk V n off < 2 ^ (8 * Z.of_nat n).
Proof. apply Z.mod_pos_bound. apply Z.pow_pos_nonneg; lia. Qed.

(** Chunks concatenate. *)
Lemma chunk_cat V n off :
  V mod 2 ^ (8 * Z.of_nat (off + n)) =
  V mod 2 ^ (8 * Z.of_nat off) + 2 ^ (8 * Z.of_nat off) * chunk V n off.
Proof.
  unfold chunk. rewrite Nat2Z.inj_add, Z.mul_add_distr_l, Z.pow_add_r by lia.
  apply Z.rem_mul_r; [apply Z.pow_nonzero|apply Z.pow_pos_nonneg]; lia.
Qed.

Lemma limb_of_chunk v sh : 0 <= v < 2 ^ 32 -> 0 <= sh <= 7 ->
  swrap 64 (uwrap 64 (Z.shiftl v sh)) = v * 2 ^ sh.
Proof.
  intros Hv Hs. rewrite Z.shiftl_mul_pow2 by lia.
  assert (2 ^ sh <= 2 ^ 7) by (apply Z.pow_le_mono_r; lia).
  assert (0 < 2 ^ sh) by (apply Z.pow_pos_nonneg; lia).
  rewrite uwrap_small by (simpl; nia). apply swrap_id; simpl; nia.
Qed.

Lemma load_limb_spec s n off sh :
  bytes s -> (n = 3 \/ n = 4)%nat -> (off + n <= length s)%nat -> 0 <= sh <= 7 ->
  load_limb s n off sh = Ret (chunk (le_val s) n off * 2 ^ sh).
Proof.
  intros Hs Hn Hl Hsh. unfold load_limb. rewrite load_spec by done. cbn [bind].
  fold (chunk (le_val s) n off). pose proof (chunk_bound (le_val s) n off).
  rewrite limb_of_chunk; [done| |lia].
  destruct Hn as [-> | ->]; simpl Z.of_nat in *; lia.
Qed.

(** The limbs of the number [V], the last one from the chunk [c9]. *)
Definition fb_limbs (V c9 : Z) : list Z :=
  [chunk V 4 0; chunk V 3 4 * 2 ^ 6; chunk V 3 7 * 2 ^ 5; chunk V 3 10 * 2 ^ 3; chunk V 3 13 * 2 ^ 2;
   chunk V 4 16; chunk V 3 20 * 2 ^ 7; chunk V 3 23 * 2 ^ 5; chunk V 3 26 * 2 ^ 4; c9 * 2 ^ 2].

Lemma frombytes_limbs_spec mask s :
  bytes s -> length s = 32%nat -> (forall v, 0 <= v < 2 ^ 24 -> 0 <= mask v < 2 ^ 24) ->
  frombytes_limbs mask s = Ret (fb_limbs (le_val s) (mask (chunk (le_val s) 3 29))).
Proof.
  intros Hs Hl Hm. unfold frombytes_limbs.
  rewrite !load_limb_spec, load_spec by (rewrite ?Hl; auto; lia). cbn [bind].
  change (bind (Ret ?x) ?k) with (k x). cbv beta.
  fold (chunk (le_val s) 3 29). pose proof (Hm _ (chunk_bound (le_val s) 3 29)).
  rewrite limb_of_chunk by lia. unfold fb_limbs. rewrite !Z.mul_1_r. done.
Qed.

(** The limbs add up to the number. *)
Lemma val_fb_limbs V c9 :
  val (fb_limbs V c9) = V mod 2 ^ 232 + 2 ^ 232 * c9.
Proof.
  unfold val, fb_limbs. cbn [eval].
  rewrite wtf_0, wtf_1, wtf_2, wtf_3, wtf_4, wtf_5, wtf_6, wtf_7, wtf_8, wtf_9.
  pose proof (chunk_cat V 4 0). pose proof (chunk_cat V 3 4). pose proof (chunk_cat V 3 7).
  pose proof (chunk_cat V 3 10). pose proof (chunk_cat V 3 13). pose proof (chunk_cat V 4 16).
  pose proof (chunk_cat V 3 20). pose proof (chunk_cat V 3 23). pose proof (chunk_cat V 3 26).
  simpl Nat.add in *. simpl Z.of_nat in *. simpl Z.mul in *.
  rewrite Z.mod_1_r in *. pow_consts. lia.
Qed.

Definition fb_b : list itv :=
  [(0, 2 ^ 32 - 1); (0, (2 ^ 24 - 1) * 2 ^ 6); (0, (2 ^ 24 - 1) * 2 ^ 5); (0, (2 ^ 24 - 1) * 2 ^ 3);
   (0, (2 ^ 24 - 1) * 2 ^ 2); (0, 2 ^ 32 - 1); (0, (2 ^ 24 - 1) * 2 ^ 7); (0, (2 ^ 24 - 1) * 2 ^ 5);
   (0, (2 ^ 24 - 1) * 2 ^ 4); (0, (2 ^ 24 - 1) * 2 ^ 2)].

Lemma fb_within V c9 : 0 <= c9 < 2 ^ 24 -> within fb_b (fb_limbs V c9).
Proof.
  intros H9. pose proof (fun n off => chunk_bound V n off) as Hc.
  pose proof (Hc 4 0)%nat. pose proof (Hc 3 4)%nat. pose proof (Hc 3 7)%nat. pose proof (Hc 3 10)%nat.
  pose proof (Hc 3 13)%nat. pose proof (Hc 4 16)%nat. pose proof (Hc 3 20)%nat. pose proof (Hc 3 23)%nat.
  pose proof (Hc 3 26)%nat. clear Hc. simpl Z.of_nat in *. simpl Z.mul in *.
  unfold within, fb_b, fb_limbs.
  repeat (constructor; [unfold inside; cbn [fst snd]; pow_consts; lia|]). constructor.
Qed.

Lemma frombytes_carry_spec h :
  within fb_b h -> yields (frombytes_carry h) (fun f => rep 16 f (inF (val h))).
Proof.
  intros Hh. unfold frombytes_carry.
  assert (exists B, fold_b (fe_carry_b prime_p) [9; 1; 3; 5; 7; 0; 2; 4; 6; 8]%nat fb_b = Some B /\
                    subsumes B tight = true) as (B & EB & Bok)
    by (eexists; split; vm_compute; reflexivity).
  eapply yields_bind; [exact (bounded_step (R:=same_mod wtf prime_p) _ _ _ EB Hh)|].
  intros r [Hr Hm]. pose proof (subsumes_sound _ _ _ Bok Hr) as Hr'.
  apply yields_ret. rewrite (swrap_within 32 tight) by done.
  split; [exact (tight_kb r Hr')|]. apply inF_eqm. exact (same_mod_eqm _ _ _ _ Hm).
Qed.

(** The canonicity check rejects exactly the numbers from [p] on. *)
Lemma noncanonical_spec V c9 :
  0 <= c9 < 2 ^ 23 ->
  noncanonical (fb_limbs V c9) = (prime_p <=? V mod 2 ^ 232 + 2 ^ 232 * c9).
Proof.
  intros H9. rewrite <- val_fb_limbs. unfold val. 
  pose proof (fun n off => chunk_bound V n off) as Hc.
  pose proof (Hc 4 0)%nat. pose proof (Hc 3 4)%nat. pose proof (Hc 3 7)%nat. pose proof (Hc 3 10)%nat.
  pose proof (Hc 3 13)%nat. pose proof (Hc 4 16)%nat. pose proof (Hc 3 20)%nat. pose proof (Hc 3 23)%nat.
  pose proof (Hc 3 26)%nat. clear Hc. simpl Z.of_nat in *. simpl Z.mul in *.
  unfold fb_limbs, noncanonical. cbn [eval].
  rewrite wtf_0, wtf_1, wtf_2, wtf_3, wtf_4, wtf_5, wtf_6, wtf_7, wtf_8, wtf_9, prime_p_eq.
  apply eq_true_iff_eq. rewrite !andb_true_iff, !Z.eqb_eq, !Z.leb_le. pow_consts. split; [intros; lia|].
  intros. repeat split; lia.
Qed.

(** ** Decoding *)

(** [u = y^2 - 1], [v = d y^2 + 1]: the curve equation is [v x^2 = u]. *)
Lemma on_curve_uv x y :
  on_curve x y <-> ((y * y * curve_d + 1) * (x * x) = y * y - 1)%F.
Proof.
  unfold on_curve. split; intros H; apply F_sub_zero.
  - transitivity ((1 + curve_d * (x * x) * (y * y)) - (y * y - x * x))%F; [ring|]. rewrite H. ring.
  - transitivity ((y * y - 1) - (y * y * curve_d + 1) * (x * x))%F; [ring|]. rewrite H. ring.
Qed.

Lemma v_nonzero (y : F) : (y * y * curve_d + 1 <> 0)%F.
Proof.
  intros E. assert (y <> 0)%F as Hy.
  { intros ->. apply F_one_neq_zero. rewrite <- E. ring. }
  apply (curve_d_nonsquare (fval fe_sqrtm1 / y)%F).
  transitivity (fval fe_sqrtm1 * fval fe_sqrtm1 / (y * y))%F; [field; exact Hy|]. rewrite sqrtm1_sq.
  transitivity ((y * y * curve_d - (y * y * curve_d + 1)) / (y * y))%F; [f_equal; ring|].
  rewrite E. field. exact Hy.
Qed.

Lemma parity_opp (x : F) : x <> 0%F -> Zmod.to_Z (- x)%F mod 2 = 1 - Zmod.to_Z x mod 2.
Proof.
  intros Hx. pose proof (F_range x) as Hr.
  assert (Zmod.to_Z x <> 0) as H0 by (intros E; apply Hx, Zmod.to_Z_inj; exact E).
  rewrite Zmod.to_Z_opp, <- (Z_mod_plus_full _ 1 prime_p), (Z.mod_small (_ + _) prime_p) by lia.
  pose proof (Z.div_mod (Zmod.to_Z x) 2 ltac:(lia)). pose proof (Z.mod_pos_bound (Zmod.to_Z x) 2 ltac:(lia)).
  symmetry. apply (Z.mod_unique _ _ ((prime_p - 1) / 2 - Zmod.to_Z x / 2)); [lia|].
  assert (prime_p = 2 * ((prime_p - 1) / 2) + 1) by reflexivity. lia.
Qed.

(** What the encoding says: the value of [y] and the parity of [x]. *)
Lemma encode_iff P s :
  bytes s -> length s = 32%nat ->
  encode P = s <-> Zmod.to_Z (py P) = le_val s mod 2 ^ 255 /\ Zmod.to_Z (px P) mod 2 = le_val s / 2 ^ 255.
Proof.
  intros Hs Hl. pose proof (F_range (py P)) as Hy. pose proof prime_p_lt.
  pose proof (Z.mod_pos_bound (Zmod.to_Z (px P)) 2 ltac:(lia)) as Hx.
  pose proof (le_val_bound s Hs) as HV. rewrite Hl in HV. simpl Z.of_nat in HV.
  pose proof (Z.div_mod (le_val s) (2 ^ 255) ltac:(lia)).
  unfold encode. split.
  - intros <-. rewrite le_val_le_bytes, (Z.mod_small _ (2 ^ (8 * Z.of_nat 32))) by (simpl Z.of_nat; lia).
    split.
    + apply (Z.mod_unique _ _ (Zmod.to_Z (px P) mod 2)); lia.
    + apply (Z.div_unique _ _ _ (Zmod.to_Z (py P))); lia.
  - intros [E1 E2]. rewrite E1, E2. apply le_val_inj; [apply bytes_le_bytes|done|by rewrite length_le_bytes|].
    rewrite le_val_le_bytes. simpl Z.of_nat. rewrite Z.mod_small by lia. lia.
Qed.

(** The square-root part of the code: from [y] to a root [x] of the curve
    equation, or to the proof that there is none. *)
Lemma decode_root X u v y :
  rep 16 X (divpowm1 (y * y - 1) (y * y * curve_d + 1)) -> rep 17 u (y * y - 1)%F ->
  rep 17 v (y * y * curve_d + 1)%F ->
  yields (frombytes_root X u v)
    (fun r => match r with
              | Some X => exists x, rep 16 X x /\ on_curve x y
              | None => forall x, ~ on_curve x y
              end).
Proof.
  intros HX Hu Hv. set (x0 := divpowm1 _ _) in *. pose proof (v_nonzero y) as Hv0.
  pose proof (fun x (Hx : on_curve x y) => divpowm1_square _ _ x Hv0 (eq_sym (proj1 (on_curve_uv x y) Hx))) as Hsq.
  cbv zeta in Hsq. fold x0 in Hsq.
  set (U := (y * y - 1)%F) in *. set (W := (y * y * curve_d + 1)%F) in *.
  unfold frombytes_root. repeat fe_step. erewrite rep_isnonzero by (eassumption || lia). cbn [bind].
  destruct (decide _) as [E|E].
  - apply yields_ret. exists x0. split; [done|]. apply on_curve_uv. fold U W.
    apply F_sub_zero. rewrite <- E. ring.
  - change (1 =? 0) with false. cbv iota. repeat fe_step.
    erewrite rep_isnonzero by (eassumption || lia). cbn [bind].
    pose proof rep_fe_sqrtm1 as Hi. destruct (decide _) as [E'|E'].
    + change (0 =? 0) with true. cbv iota. fe_step. apply yields_ret. eexists. split; [eassumption|].
      apply on_curve_uv. fold U W.
      transitivity (fval fe_sqrtm1 * fval fe_sqrtm1 * (x0 * x0 * W))%F; [ring|]. rewrite sqrtm1_sq.
      apply F_sub_zero. transitivity (- (x0 * x0 * W + U))%F; [ring|]. rewrite E'. ring.
    + apply yields_ret. intros x Hx. destruct (Hsq x Hx) as [H|H]; [apply E | apply E'].
      * transitivity (W * (x0 * x0) - U)%F; [ring|]. rewrite H. ring.
      * transitivity (W * (x0 * x0) + U)%F; [ring|]. rewrite H. ring.
Qed.

(** Roots of the curve equation differ by their sign. *)
Lemma on_curve_roots x x' y : on_curve x y -> on_curve x' y -> x = x' \/ x = (- x')%F.
Proof.
  rewrite !on_curve_uv. intros H H'. pose proof (v_nonzero y) as Hv.
  assert ((x - x') * (x + x') = 0)%F as E.
  { apply (F_mul_zero_l (y * y * curve_d + 1)%F); [|exact Hv].
    transitivity ((y * y * curve_d + 1) * (x * x) - (y * y * curve_d + 1) * (x' * x'))%F; [ring|].
    rewrite H, H'. ring. }
  apply F_mul_zero in E as [E|E]; [left | right].
  - by apply F_sub_zero.
  - apply F_sub_zero. rewrite <- E. ring.
Qed.

(** The sign part: the root with the wanted parity, unless it is 0 and the
    parity is 1. *)
Lemma decode_sign X x y b :
  rep 16 X x -> on_curve x y -> 0 <= b <= 1 ->
  yields (frombytes_sign X b)
    (fun r => match r with
              | Some X => exists x', rep 16 X x' /\ on_curve x' y /\ Zmod.to_Z x' mod 2 = b
              | None => forall x', on_curve x' y -> Zmod.to_Z x' mod 2 <> b
              end).
Proof.
  intros HX Hc Hb. unfold frombytes_sign. erewrite rep_isnegative by (eassumption || lia). cbn [bind].
  destruct (Z.eqb_spec (Zmod.to_Z x mod 2) b) as [Eb|Eb].
  - apply yields_ret. exists x. split; [exact HX|]. split; [exact Hc|exact Eb].
  - erewrite rep_isnonzero by (eassumption || lia). cbn [bind].
    destruct (decide _) as [->|Hx]; [change (0 =? 0) with true|change (1 =? 0) with false]; cbv iota.
    + apply yields_ret. intros x' Hx'. destruct (on_curve_roots _ _ _ Hx' Hc) as [-> | ->]; [exact Eb|].
      replace (- (0))%F with 0%F by ring. exact Eb.
    + fe_step. apply yields_ret. eexists. split; [eassumption|]. split; [by apply on_curve_opp|].
      rewrite parity_opp by done. pose proof (Z.mod_pos_bound (Zmod.to_Z x) 2 ltac:(lia)). lia.
Qed.

Lemma mask_chunk V :
  let c := chunk V 3 29 in
  0 <= Z.land c 8388607 < 2 ^ 23 /\ V mod 2 ^ 232 + 2 ^ 232 * Z.land c 8388607 = V mod 2 ^ 255.
Proof.
  intros c. change 8388607 with (Z.ones 23). rewrite Z.land_ones by lia.
  split; [apply Z.mod_pos_bound; lia|]. change (2 ^ 255) with (2 ^ 232 * 2 ^ 23).
  rewrite (Z.rem_mul_r V) by lia. f_equal. f_equal. unfold c, chunk. simpl Z.of_nat. simpl Z.mul.
  apply Z.mod_mod_divide. exists 2. done.
Qed.

Lemma lookup_byte_31 s :
  bytes s -> length s = 32%nat -> s !! Z.to_nat 31 = Some (le_val s / 2 ^ 248).
Proof.
  intros Hs Hl. change (2 ^ 248) with (2 ^ (8 * Z.of_nat 31)). rewrite <- le_val_drop by done.
  change (Z.to_nat 31) with 31%nat.
  destruct (drop 31 s) as [|b bs] eqn:E.
  - apply (f_equal length) in E. rewrite length_drop, Hl in E. discriminate E.
  - assert (bs = []) as ->.
    { apply (f_equal length) in E. rewrite length_drop, Hl in E. destruct bs; [done|discriminate E]. }
    rewrite <- (Nat.add_0_r 31), <- lookup_drop, E. simpl. f_equal. lia.
Qed.

Lemma ge_frombytes_vartime_spec s :
  bytes s -> length s = 32%nat ->
  yields (ge_frombytes_vartime s) (fun r =>
    match r with
    | Some p => exists P, p3_rep p P /\ encode P = s
    | None => forall P, encode P <> s
    end).
Proof.
  intros Hs Hl. unfold ge_frombytes_vartime.
  destruct (mask_chunk (le_val s)) as [Hm Em]. cbv zeta in *.
  rewrite frombytes_limbs_spec; [|done|done|].
  2: { intros v Hv. change 8388607 with (Z.ones 23). rewrite Z.land_ones by lia.
       pose proof (Z.mod_pos_bound v (2 ^ 23)). lia. }
  cbn [bind]. rewrite noncanonical_spec by done. rewrite Em.
  destruct (Z.leb_spec prime_p (le_val s mod 2 ^ 255)) as [Hp|Hp].
  { apply yields_ret. intros P [E _]%encode_iff; [|done|done]. pose proof (F_range (py P)). lia. }
  eapply yields_bind; [apply frombytes_carry_spec, fb_within; lia|]. intros Y HY. cbv beta in HY.
  rewrite val_fb_limbs, Em in HY. cbv zeta. set (y := inF (le_val s mod 2 ^ 255)) in *.
  assert (Zmod.to_Z y = le_val s mod 2 ^ 255) as Ey.
  { unfold y, inF. rewrite Zmod.to_Z_of_Z. apply Z.mod_small.
    pose proof (Z.mod_pos_bound (le_val s) (2 ^ 255)). lia. }
  pose proof rep_fe_d as Hd. pose proof rep_fe_1 as H1.
  do 4 fe_step.
  eapply yields_bind; [eapply fe_divpowm1_spec; [eassumption|eassumption|lia|lia]|].
  intros X HX. cbv beta in HX.
  eapply yields_bind; [exact (decode_root X _ _ y HX ltac:(eassumption) ltac:(eassumption))|].
  intros [X'|] HX'; [|apply yields_ret; intros P [E _]%encode_iff; [|done|done]].
  2: { apply (HX' (px P)). replace y with (py P); [apply on_point|]. apply Zmod.to_Z_inj. congruence. }
  destruct HX' as (x & Hx & Hc).
  pose proof (le_val_bound s Hs) as HV. rewrite Hl in HV. simpl Z.of_nat in HV.
  rewrite (index_lookup s 31 (le_val s / 2 ^ 248)); [|lia|by apply lookup_byte_31]. cbn [bind].
  rewrite Z.shiftr_div_pow2, Z.div_div by lia. change (2 ^ 248 * 2 ^ 7) with (2 ^ 255).
  eapply yields_bind; [apply (decode_sign X' x y); [done|done|]|].
  { split; [apply Z.div_pos; lia|]. apply Z.lt_succ_r, Z.div_lt_upper_bound; lia. }
  intros [X''|] HX''; [|apply yields_ret; intros P [E1 E2]%encode_iff; [|done|done]].
  2: { apply (HX'' (px P)); [|done]. replace y with (py P); [apply on_point|]. apply Zmod.to_Z_inj. congruence. }
  destruct HX'' as (x' & Hx' & Hc' & Hpar). fe_step. apply yields_ret.
  pose (P := Pt x' y (proj2 (on_curveb_spec _ _) Hc')). exists P. split.
  - exists 1%F. split; [exact F_one_neq_zero|]. cbn [P px py p3_X p3_Y p3_Z p3_T].
    split; [rep_ring|]. split; [rep_ring|]. split; [rep_ring|rep_ring].
  - apply encode_iff; [done|done|]. split; [exact Ey|exact Hpar].
Qed.

(** ** Properties *)

(** [ge_tobytes] and [ge_p3_tobytes] write the canonical 32-byte encoding of the point, whatever
    projective representative they are given, without overflow. *)
Theorem ge_tobytes_correct (p : ge_p3) (P : point) :
  p3_rep p P -> ge_p3_tobytes p = Ret (encode P) /\ ge_tobytes (ge_p3_to_p2 p) = Ret (encode P).
Proof.
  intros H. split; [exact (ge_p3_tobytes_spec p P H)|].
  exact (ge_tobytes_spec _ _ (ge_p3_to_p2_spec _ _ H)).
Qed.

Lemma ge_tobytes_correct_witness :
  ge_p3_tobytes ge_p3_0 = Ret (encode pt0) /\ ge_tobytes (ge_p3_to_p2 ge_p3_0) = Ret (encode pt0).
Proof. exact (ge_tobytes_correct ge_p3_0 pt0 ge_p3_0_spec). Defined.

(** C13: [ge_frombytes_vartime] accepts exactly the canonical encodings of points of the curve: on
    every 32-byte string it returns without overflow either a representation of the point
    the string encodes, or -1 when no point has this encoding (in particular for [y >= p],
    and for [x = 0] with the sign bit set). *)
Theorem ge_frombytes_vartime_correct s :
  bytes s -> length s = 32%nat ->
  yields (ge_frombytes_vartime s) (fun r =>
    match r with
    | Some p => exists P, p3_rep p P /\ encode P = s
    | None => forall P, encode P <> s
    end).
Proof. exact (ge_frombytes_vartime_spec s). Qed.

Lemma ge_frombytes_vartime_correct_witness :
  yields (ge_frombytes_vartime (1 :: replicate 31 0)) (fun r =>
    match r with
    | Some p => exists P, p3_rep p P /\ encode P = 1 :: replicate 31 0
    | None => forall P, encode P <> 1 :: replicate 31 0
    end).
Proof.
  apply (ge_frombytes_vartime_correct (1 :: replicate 31 0)); [apply bytesb_true|]; reflexivity.
Defined.

(** A point is determined by its ordinate and the parity of its abscissa. *)
Lemma point_parity_eq P Q :
  py P = py Q -> Zmod.to_Z (px P) mod 2 = Zmod.to_Z (px Q) mod 2 -> P = Q.
Proof.
  intros Hy Ex. apply point_eq; [|done].
  pose proof (on_point P) as HP. pose proof (on_point Q) as HQ. rewrite Hy in HP.
  destruct (on_curve_roots _ _ _ HP HQ) as [?|E']; [done|].
  destruct (decide (px Q = 0%F)) as [E0|Hn].
  - rewrite E', E0. ring.
  - exfalso. rewrite E', parity_opp in Ex by done.
    pose proof (Z.mod_pos_bound (Zmod.to_Z (px Q)) 2 ltac:(lia)). lia.
Qed.

Lemma encode_inj P Q : encode P = encode Q -> P = Q.
Proof.
  intros E. assert (bytes (encode Q) /\ length (encode Q) = 32%nat) as [Hb Hl]
    by (split; [apply bytes_le_bytes | apply length_le_bytes]).
  destruct (proj1 (encode_iff P _ Hb Hl) E) as [Ey Ex].
  destruct (proj1 (encode_iff Q _ Hb Hl) eq_refl) as [Ey' Ex'].
  apply point_parity_eq; [apply Zmod.to_Z_inj|]; congruence.
Qed.

(** Encoding and decoding are inverse: decoding the bytes that [ge_p3_tobytes] writes for a
    point returns a representation of the same point. *)
Theorem ge_bytes_roundtrip (p : ge_p3) (P : point) :
  p3_rep p P ->
  yields (let* s := ge_p3_tobytes p in ge_frombytes_vartime s)
    (fun r => exists p', r = Some p' /\ p3_rep p' P).
Proof.
  intros H. rewrite (ge_p3_tobytes_spec p P H). cbn [bind].
  eapply yields_mono; [apply ge_frombytes_vartime_spec; [apply bytes_le_bytes | apply length_le_bytes]|].
  intros [p'|] Hr; [|by destruct (Hr P)]. destruct Hr as (Q & HQ & E). apply encode_inj in E as ->.
  exists p'. done.
Qed.

Lemma ge_bytes_roundtrip_witness :
  yields (let* s := ge_p3_tobytes ge_p3_0 in ge_frombytes_vartime s)
    (fun r => exists p', r = Some p' /\ p3_rep p' pt0).
Proof. exact (ge_bytes_roundtrip ge_p3_0 pt0 ge_p3_0_spec). Defined.
