(* ===== verification/TablesFacts.v ===== *)
(** The precomputed tables hold what their comments say: [ge_base[i][j]] is
    [(j+1) * 256^i * B] and [ge_Bi[i]] is [(2i+1) * B], checked by computation
    against the addition law. *)

From S2P Require Import Prelude Limbs Bytes Field FieldFacts FieldBytes Prime Fp Tables FieldPow Curve Group GroupFacts.

(** ** The base point *)

Definition base_x : Z := 15112221349535400772501151409588531511454012693041857206046113283949847762202.
Definition base_y : Z := 46316835694926478169428394003475163141307993866256225615783033603165251855960.

Definition base_point : point := Pt (inF base_x) (inF base_y) ltac:(vm_compute; reflexivity).

(** "The Ed25519 base point (x,4/5) with x positive." *)
Lemma base_point_spec :
  (py base_point * inF 5 = inF 4)%F /\ Zmod.to_Z (px base_point) mod 2 = 0.
Proof. split; [apply Zmod.to_Z_inj|]; vm_compute; reflexivity. Qed.

(** ** Fast arithmetic modulo [2^255 - 19] for the check *)

Definition fold_p (x : Z) : Z := Z.land x (Z.ones 255) + 19 * Z.shiftr x 255.
Definition mulp (a b : Z) : Z := fold_p (fold_p (a * b)).
Definition eqp (a b : Z) : bool :=
  let r := fold_p (fold_p (a - b + 64 * prime_p)) in (r =? 0) || (r =? prime_p).

Lemma inF_prime_p : inF prime_p = 0%F.
Proof. apply Zmod.to_Z_inj. reflexivity. Qed.

Lemma fold_p_spec x : inF (fold_p x) = inF x.
Proof.
  apply inF_eqm. unfold fold_p. rewrite Z.land_ones, Z.shiftr_div_pow2 by lia.
  pose proof (Z.div_mod x (2 ^ 255) ltac:(lia)) as E.
  replace x with (x mod 2 ^ 255 + 19 * (x / 2 ^ 255) + x / 2 ^ 255 * prime_p) at 3
    by (rewrite prime_p_eq; lia).
  rewrite Z_mod_plus_full. done.
Qed.

Lemma mulp_spec a b : inF (mulp a b) = (inF a * inF b)%F.
Proof. unfold mulp. rewrite !fold_p_spec. apply Zmod.of_Z_mul. Qed.

Lemma inF_add a b : inF (a + b) = (inF a + inF b)%F.
Proof. apply Zmod.of_Z_add. Qed.
Lemma inF_sub a b : inF (a - b) = (inF a - inF b)%F.
Proof. apply Zmod.of_Z_sub. Qed.
Lemma inF_mul a b : inF (a * b) = (inF a * inF b)%F.
Proof. apply Zmod.of_Z_mul. Qed.
Lemma inF_2 : inF 2 = (1 + 1)%F.
Proof. apply Zmod.to_Z_inj. vm_compute. reflexivity. Qed.
Lemma inF_8 : inF 8 = ((1 + 1) * (1 + 1) * (1 + 1))%F.
Proof. apply Zmod.to_Z_inj. vm_compute. reflexivity. Qed.
Lemma inF_16 : inF 16 = ((1 + 1) * (1 + 1) * (1 + 1) * (1 + 1))%F.
Proof. apply Zmod.to_Z_inj. vm_compute. reflexivity. Qed.

Lemma eqp_spec a b : eqp a b = true -> inF a = inF b.
Proof.
  unfold eqp. intros H. apply F_sub_zero.
  assert (inF (a - b + 64 * prime_p) = 0%F) as E.
  { transitivity (inF (fold_p (fold_p (a - b + 64 * prime_p)))); [by rewrite !fold_p_spec|].
    apply orb_true_iff in H as [H|H]; apply Z.eqb_eq in H as ->; [reflexivity | exact inF_prime_p]. }
  rewrite <- E, inF_add, inF_sub, inF_mul, inF_prime_p. ring.
Qed.

Create Rewrite HintDb inF.
#[local] Hint Rewrite mulp_spec inF_add inF_sub inF_mul inF_2 inF_8 inF_16 : inF.

(** ** Doubled affine coordinates *)

(** [a = 2x], [b = 2y]. *)
Definition aff (ab : Z * Z) (P : point) : Prop :=
  (inF ab.1 = px P + px P /\ inF ab.2 = py P + py P)%F.

Definition d_num : Z := val fe_d + 2 * prime_p.

Lemma inF_d_num : inF d_num = curve_d.
Proof. unfold d_num. rewrite inF_add, inF_mul, inF_prime_p. rewrite curve_d_val. ring. Qed.

Definition add_check (p q r : Z * Z) : bool :=
  let aa := mulp p.1 q.1 in
  let bb := mulp p.2 q.2 in
  let k := mulp d_num (mulp aa bb) in
  eqp (mulp r.1 (16 + k)) (8 * (mulp p.1 q.2 + mulp q.1 p.2)) &&
  eqp (mulp r.2 (16 - k)) (8 * (bb + aa)).

Lemma F_16_nonzero : ((1 + 1) * (1 + 1) * (1 + 1) * (1 + 1) <> 0)%F.
Proof. pose proof F_two_neq_zero. repeat apply F_mul_nonzero; assumption. Qed.

Lemma add_check_sound p q r P Q : aff p P -> aff q Q -> add_check p q r = true -> aff r (P + Q)%pt.
Proof.
  intros [Pa Pb] [Qa Qb] H. unfold add_check in H. cbv zeta in H.
  apply andb_true_iff in H as [H1%eqp_spec H2%eqp_spec]. autorewrite with inF in H1, H2.
  rewrite inF_d_num, Pa, Pb, Qa, Qb in H1, H2.
  pose proof (add_coords P Q) as (Hp & Hm & Ex & Ey). cbv zeta in *.
  set (D := add_D (px P) (py P) (px Q) (py Q)) in *.
  split; apply F_sub_zero.
  - apply (F_mul_zero_l ((1 + 1) * (1 + 1) * (1 + 1) * (1 + 1) * (1 + D))%F);
      [|apply F_mul_nonzero; [exact F_16_nonzero|exact Hp]].
    transitivity (inF r.1 * ((1 + 1) * (1 + 1) * (1 + 1) * (1 + 1) * (1 + D)) -
      (px (P + Q)%pt * (1 + D)) * ((1 + 1) * (1 + 1) * (1 + 1) * (1 + 1) * (1 + 1)))%F; [ring|].
    rewrite Ex. unfold D, add_D.
    transitivity (inF r.1 * ((1 + 1) * (1 + 1) * (1 + 1) * (1 + 1) + curve_d * ((px P + px P) * (px Q + px Q) * ((py P + py P) * (py Q + py Q)))) -
       (1 + 1) * (1 + 1) * (1 + 1) * ((px P + px P) * (py Q + py Q) + (px Q + px Q) * (py P + py P)))%F; [ring|].
    rewrite H1. ring.
  - apply (F_mul_zero_l ((1 + 1) * (1 + 1) * (1 + 1) * (1 + 1) * (1 - D))%F);
      [|apply F_mul_nonzero; [exact F_16_nonzero|exact Hm]].
    transitivity (inF r.2 * ((1 + 1) * (1 + 1) * (1 + 1) * (1 + 1) * (1 - D)) -
      (py (P + Q)%pt * (1 - D)) * ((1 + 1) * (1 + 1) * (1 + 1) * (1 + 1) * (1 + 1)))%F; [ring|].
    rewrite Ey. unfold D, add_D.
    transitivity (inF r.2 * ((1 + 1) * (1 + 1) * (1 + 1) * (1 + 1) - curve_d * ((px P + px P) * (px Q + px Q) * ((py P + py P) * (py Q + py Q)))) -
       (1 + 1) * (1 + 1) * (1 + 1) * ((py P + py P) * (py Q + py Q) + (px P + px P) * (px Q + px Q)))%F; [ring|].
    rewrite H2. ring.
Qed.

(** ** Projective doubling, for the steps between rows *)

Definition proj (t : Z * Z * Z) (P : point) : Prop :=
  exists z, z <> 0%F /\ inF t.1.1 = (px P * z)%F /\ inF t.1.2 = (py P * z)%F /\ inF t.2 = z.

Definition dbl (t : Z * Z * Z) : Z * Z * Z :=
  let '(X, Y, Z) := t in
  let xx := mulp X X in
  let yy := mulp Y Y in
  let g := yy - xx in
  let u := 2 * mulp Z Z - g in
  (mulp (2 * mulp X Y) u, mulp (yy + xx) g, mulp g u).

Lemma dbl_sound t P : proj t P -> proj (dbl t) (zmul 2 P).
Proof.
  destruct t as [[X Y] Z]. intros (z & Hz & EX & EY & EZ). cbn [fst snd] in *.
  destruct (dbl_coords P) as (Hp & Hm & Eg & Ex & Ey). cbv zeta in *. rewrite zmul_2.
  set (D := add_D (px P) (py P) (px P) (py P)) in *.
  exists (z * z * (1 + D) * (z * z * (1 - D)))%F.
  split; [by repeat apply F_mul_nonzero|]. unfold dbl. cbn [fst snd]. autorewrite with inF.
  rewrite EX, EY, EZ. split; [|split].
  - transitivity ((z * z * (px P * py P + px P * py P)) * (z * z * (1 + 1 - (py P * py P - px P * px P))))%F; [ring|].
    rewrite Eg, <- Ex. ring.
  - transitivity ((z * z * (py P * py P + px P * px P)) * (z * z * (py P * py P - px P * px P)))%F; [ring|].
    rewrite Eg, <- Ey. ring.
  - transitivity (z * z * (py P * py P - px P * px P) * (z * z * (1 + 1 - (py P * py P - px P * px P))))%F; [ring|].
    rewrite Eg. ring.
Qed.

Definition dbl5 (ab : Z * Z) : Z * Z * Z := dbl (dbl (dbl (dbl (dbl (ab.1, ab.2, 2))))).

Lemma dbl5_sound ab P : aff ab P -> proj (dbl5 ab) (zmul 32 P).
Proof.
  intros [Ea Eb]. assert (proj (ab.1, ab.2, 2) P) as H.
  { exists (1 + 1)%F. split; [exact F_two_neq_zero|]. cbn [fst snd]. rewrite Ea, Eb, inF_2.
    split; [ring|]. split; [ring|reflexivity]. }
  unfold dbl5. do 5 apply dbl_sound in H. rewrite <- !zmul_mul in H. exact H.
Qed.

Definition same_check (t : Z * Z * Z) (ab : Z * Z) : bool :=
  eqp (mulp ab.1 t.2) (2 * t.1.1) && eqp (mulp ab.2 t.2) (2 * t.1.2).

Lemma same_check_sound t ab P : proj t P -> same_check t ab = true -> aff ab P.
Proof.
  intros (z & Hz & EX & EY & EZ) H. unfold same_check in H.
  apply andb_true_iff in H as [H1%eqp_spec H2%eqp_spec]. autorewrite with inF in H1, H2.
  rewrite EX, EZ in H1. rewrite EY, EZ in H2.
  split; apply F_sub_zero; apply (F_mul_zero_l z); try exact Hz.
  - transitivity (inF ab.1 * z - (1 + 1) * (px P * z))%F; [ring|]. rewrite H1. ring.
  - transitivity (inF ab.2 * z - (1 + 1) * (py P * z))%F; [ring|]. rewrite H2. ring.
Qed.

(** ** Table entries *)

Definition entry (e : ge_precomp) : Z * Z :=
  let s := val (yplusx e) + 2 * prime_p in
  let t := val (yminusx e) in
  (s - t, s + t).

Definition withinb (B : list itv) (f : list Z) : bool :=
  (length B =? length f)%nat && forallb (fun '(b, x) => (b.1 <=? x) && (x <=? b.2)) (zip B f).

Lemma withinb_sound B f : withinb B f = true -> within B f.
Proof.
  unfold withinb. revert f. induction B as [|b B IH]; intros [|x f] H; simpl in H; try done; [constructor|].
  rewrite !andb_true_iff, !Z.leb_le in H. destruct H as (Hl & (Hb & Hf)). constructor; [unfold inside; lia|].
  apply IH. rewrite andb_true_iff. done.
Qed.

Definition entry_ok (e : ge_precomp) : bool :=
  let '(a, b) := entry e in
  withinb (kb 16) (yplusx e) && withinb (kb 16) (yminusx e) && withinb (kb 16) (xy2d e) &&
  eqp (2 * (val (xy2d e) + 2 * prime_p)) (mulp d_num (mulp a b)).

Lemma F_halve (x y : F) : (x + x = y + y -> x = y)%F.
Proof.
  intros E. apply F_sub_zero, (F_mul_zero_l (1 + 1)); [|exact F_two_neq_zero].
  transitivity (x + x - (y + y))%F; [ring|]. rewrite E. ring.
Qed.

Lemma entry_ok_sound e P : aff (entry e) P -> entry_ok e = true -> precomp_rep e P.
Proof.
  intros [Ea Eb] H. unfold entry_ok in H. destruct (entry e) as [a b] eqn:E. cbn [fst snd] in *.
  rewrite !andb_true_iff in H. destruct H as (((W1 & W2) & W3) & H%eqp_spec).
  apply withinb_sound in W1, W2, W3. autorewrite with inF in H.
  rewrite inF_d_num, Ea, Eb, inF_prime_p in H.
  unfold entry in E. injection E as <- <-. autorewrite with inF in Ea, Eb. rewrite inF_prime_p in Ea, Eb.
  fold (fval (yplusx e)) (fval (yminusx e)) in Ea, Eb. fold (fval (xy2d e)) in H.
  split; [|split]; (split; [assumption|]); apply F_halve.
  - transitivity ((fval (yplusx e) + (1 + 1) * 0 - fval (yminusx e)) + (fval (yplusx e) + (1 + 1) * 0 + fval (yminusx e)))%F; [ring|].
    rewrite Ea, Eb. ring.
  - transitivity ((fval (yplusx e) + (1 + 1) * 0 + fval (yminusx e)) - (fval (yplusx e) + (1 + 1) * 0 - fval (yminusx e)))%F; [ring|].
    rewrite Ea, Eb. ring.
  - transitivity ((1 + 1) * (fval (xy2d e) + (1 + 1) * 0))%F; [ring|]. rewrite H. ring.
Qed.

(** Successive multiples: each entry is the previous one plus [q]. *)
Fixpoint multiples (q prev : Z * Z) (row : list ge_precomp) : bool :=
  match row with
  | [] => true
  | e :: row' => entry_ok e && add_check prev q (entry e) && multiples q (entry e) row'
  end.

Lemma multiples_sound q Q prev R row j e :
  aff q Q -> aff prev R -> multiples q prev row = true -> row !! j = Some e ->
  aff (entry e) (R + zmul (Z.of_nat j + 1) Q)%pt /\ precomp_rep e (R + zmul (Z.of_nat j + 1) Q)%pt.
Proof.
  intros Hq. revert prev R j. induction row as [|e' row IH]; intros prev R j Hp H He; [done|].
  cbn [multiples] in H. rewrite !andb_true_iff in H. destruct H as ((Hok & Hadd) & Hrest).
  pose proof (add_check_sound _ _ _ _ _ Hp Hq Hadd) as Ha.
  destruct j as [|j]; simpl in He.
  - injection He as <-. rewrite zmul_1. split; [exact Ha|]. by apply entry_ok_sound.
  - destruct (IH _ _ _ Ha Hrest He) as [H1 H2].
    replace (Z.of_nat (S j) + 1) with (1 + (Z.of_nat j + 1)) by lia. rewrite zmul_add, zmul_1, (assoc ptadd).
    done.
Qed.

(** Rows of a table: the first entry of a row is given projectively, the next
    row starts at 32 times the last (eighth) entry. *)
Fixpoint check_rows (t : Z * Z * Z) (rows : list (list ge_precomp)) : bool :=
  match rows with
  | [] => true
  | (e0 :: rest) :: rows' =>
      let q := entry e0 in
      same_check t q && entry_ok e0 && multiples q q rest &&
      match rest !! 6%nat with
      | Some e7 => check_rows (dbl5 (entry e7)) rows'
      | None => false
      end
  | [] :: _ => false
  end.

Lemma check_rows_sound t P rows i j row e :
  proj t P -> check_rows t rows = true -> rows !! i = Some row -> row !! j = Some e ->
  precomp_rep e (zmul ((Z.of_nat j + 1) * 256 ^ Z.of_nat i) P).
Proof.
  revert t P i. induction rows as [|r rows IH]; intros t P i Ht H Hi Hj; [done|].
  destruct r as [|e0 rest]; [done|]. cbn [check_rows] in H. cbv zeta in H. rewrite !andb_true_iff in H.
  destruct H as (((Hs & Hok) & Hm) & Hn). destruct (rest !! 6%nat) as [e7|] eqn:E7 in Hn; [|done].
  pose proof (same_check_sound _ _ _ Ht Hs) as H0.
  destruct i as [|i]; simpl in Hi.
  - injection Hi as <-. simpl Z.pow. rewrite Z.mul_1_r. destruct j as [|j]; simpl in Hj.
    + injection Hj as <-. rewrite zmul_1. by apply entry_ok_sound.
    + destruct (multiples_sound _ _ _ _ _ _ _ H0 H0 Hm Hj) as [_ H].
      replace (Z.of_nat (S j) + 1) with (1 + (Z.of_nat j + 1)) by lia. rewrite zmul_add, zmul_1. exact H.
  - destruct (multiples_sound _ _ _ _ _ _ _ H0 H0 Hm E7) as [H7 _].
    pose proof (IH _ _ _ (dbl5_sound _ _ H7) Hn Hi Hj) as H.
    replace ((Z.of_nat j + 1) * 256 ^ Z.of_nat (S i)) with ((Z.of_nat j + 1) * 256 ^ Z.of_nat i * 32 * 8).
    + rewrite 2!(zmul_mul (_ * _)). replace (zmul 8 P) with (P + zmul (Z.of_nat 6 + 1) P)%pt; [exact H|].
      rewrite <- (zmul_1 P) at 1. rewrite <- zmul_add. reflexivity.
    + rewrite Nat2Z.inj_succ, Z.pow_succ_r by lia. lia.
Qed.

Lemma ge_base_check : check_rows (base_x, base_y, 1) ge_base = true.
Proof. vm_compute. reflexivity. Qed.

Definition bi_check : bool :=
  match ge_Bi, ge_base_0 !! 1%nat with
  | e0 :: rest, Some e2 =>
      same_check (base_x, base_y, 1) (entry e0) && entry_ok e0 &&
      add_check (entry e0) (entry e0) (entry e2) && multiples (entry e2) (entry e0) rest
  | _, _ => false
  end.

Lemma bi_check_true : bi_check = true.
Proof. vm_compute. reflexivity. Qed.

Lemma proj_base : proj (base_x, base_y, 1) base_point.
Proof.
  exists 1%F. split; [exact F_one_neq_zero|]. cbn [fst snd]. unfold base_point, px, py.
  split; [ring|]. split; [ring|reflexivity].
Qed.

Lemma ge_base_spec i j row e :
  ge_base !! i = Some row -> row !! j = Some e ->
  precomp_rep e (zmul ((Z.of_nat j + 1) * 256 ^ Z.of_nat i) base_point).
Proof. exact (check_rows_sound _ _ _ i j row e proj_base ge_base_check). Qed.

Lemma ge_Bi_spec i e :
  ge_Bi !! i = Some e -> precomp_rep e (zmul (2 * Z.of_nat i + 1) base_point).
Proof.
  pose proof bi_check_true as H. unfold bi_check in H. intros Hi.
  destruct ge_Bi as [|e0 rest]; [done|]. destruct (ge_base_0 !! 1%nat) as [e2|]; [|done].
  rewrite !andb_true_iff in H. destruct H as (((Hs & Hok) & Ha) & Hm).
  pose proof (same_check_sound _ _ _ proj_base Hs) as H0.
  pose proof (add_check_sound _ _ _ _ _ H0 H0 Ha) as H2.
  destruct i as [|i]; simpl in Hi.
  - injection Hi as <-. change (2 * Z.of_nat 0 + 1) with 1. rewrite zmul_1. by apply entry_ok_sound.
  - destruct (multiples_sound _ _ _ _ _ _ _ H2 H0 Hm Hi) as [_ H]. rewrite <- zmul_2, <- zmul_mul in H.
    replace (2 * Z.of_nat (S i) + 1) with (1 + (Z.of_nat i + 1) * 2) by lia. rewrite zmul_add, zmul_1. exact H.
Qed.

Lemma ge_base_shape : length ge_base = 32%nat /\ Forall (fun row => length row = 8%nat) ge_base.
Proof. split; [done|]. repeat constructor. Qed.

(** C39: the precomputed tables are right: [ge_base[i][j]] is the affine point [(j+1)*256^i*B] in
    the form [(y+x, y-x, 2dxy)] with reduced limbs, for all 32 rows of 8 entries, and
    [ge_Bi[i]] is [(2i+1)*B], where [B] is the point [(x, 4/5)] with even [x]. *)
Theorem precomputed_tables_correct :
  length ge_base = 32%nat /\ length ge_Bi = 8%nat /\
  (forall i row, ge_base !! i = Some row -> length row = 8%nat /\
     forall j e, row !! j = Some e ->
       precomp_rep e (zmul ((Z.of_nat j + 1) * 256 ^ Z.of_nat i) base_point)) /\
  (forall i e, ge_Bi !! i = Some e -> precomp_rep e (zmul (2 * Z.of_nat i + 1) base_point)) /\
  (py base_point * inF 5 = inF 4)%F /\ Zmod.to_Z (px base_point) mod 2 = 0.
Proof.
  destruct ge_base_shape as [H1 H2]. split; [exact H1|]. split; [reflexivity|]. split.
  - intros i row Hi. split; [exact (Forall_lookup_1 _ _ _ _ H2 Hi)|]. intros j e. by apply ge_base_spec.
  - split; [exact ge_Bi_spec | exact base_point_spec].
Qed.
