(* ===== verification/ScalarMult.v ===== *)
(** Scalar multiplication: digit recodings, table lookups and the loops of
    src/src/crypto/crypto-ops.c. *)

From S2P Require Import Prelude Limbs Bytes Field Tables Group.

(** A store to a [signed char]. *)
Definition s8 (x : Z) : Z := swrap 8 x.

(** ** Sliding windows (slide) *)

(** [for (k = ..; k < 256; ++k) { if (!r[k]) { r[k] = 1; break; } r[k] = 0; }] *)
Fixpoint slide_carry (ks : list nat) (r : list Z) : list Z :=
  match ks with
  | [] => r
  | k :: ks' => if r !!! k =? 0 then <[k := 1]> r else slide_carry ks' (<[k := 0]> r)
  end.

(** The loop over [b], at digit [i]. *)
Fixpoint slide_window (i : nat) (bs : list nat) (r : list Z) : list Z :=
  match bs with
  | [] => r
  | b :: bs' =>
      if negb (i + b <? 256)%nat then r else
      let rib := r !!! (i + b)%nat in
      if rib =? 0 then slide_window i bs' r else
      let sh := shl 32 rib (Z.of_nat b) in
      if r !!! i + sh <=? 15 then
        slide_window i bs' (<[(i + b)%nat := 0]> (<[i := s8 (r !!! i + sh)]> r))
      else if -15 <=? r !!! i - sh then
        slide_window i bs' (slide_carry (seq (i + b) (256 - (i + b))) (<[i := s8 (r !!! i - sh)]> r))
      else r
  end.

Definition slide_digit (r : list Z) (i : nat) : list Z :=
  if r !!! i =? 0 then r else slide_window i [1; 2; 3; 4; 5; 6]%nat r.

(** [r[i] = 1 & (a[i >> 3] >> (i & 7));] *)
Definition slide_bits (a : list Z) : outcome (list Z) :=
  mapM (fun i => let* ai := index a (Z.shiftr (Z.of_nat i) 3) in
                 Ret (Z.land 1 (Z.shiftr ai (Z.land (Z.of_nat i) 7)))) (seq 0 256).

Definition slide (a : list Z) : outcome (list Z) :=
  let* r := slide_bits a in Ret (foldl slide_digit r (seq 0 256)).

(** ** Double scalar multiplication *)

(** One line of ge_dsm_precomp:
    [ge_add(&t, &s2, &r[i]); ge_p1p1_to_p3(&u, &t); ge_p3_to_cached(&r[i+1], &u);] *)
Definition dsm_next (s2 : ge_p3) (r : ge_cached) : outcome ge_cached :=
  let* t := ge_add s2 r in
  let* u := ge_p1p1_to_p3 t in
  ge_p3_to_cached u.

Definition ge_dsm_precomp (s : ge_p3) : outcome (list ge_cached) :=
  let* r0 := ge_p3_to_cached s in
  let* t := ge_p3_dbl s in
  let* s2 := ge_p1p1_to_p3 t in
  let* r1 := dsm_next s2 r0 in
  let* r2 := dsm_next s2 r1 in
  let* r3 := dsm_next s2 r2 in
  let* r4 := dsm_next s2 r3 in
  let* r5 := dsm_next s2 r4 in
  let* r6 := dsm_next s2 r5 in
  let* r7 := dsm_next s2 r6 in
  Ret [r0; r1; r2; r3; r4; r5; r6; r7].

(** Adds the multiple selected by a digit of a sliding window: [add] and
    [sub] are [ge_add] and [ge_sub] or [ge_madd] and [ge_msub]. *)
Definition dsm_digit {A} (add sub : ge_p3 -> A -> outcome ge_p1p1) (tbl : list A) (d : Z)
    (t : ge_p1p1) : outcome ge_p1p1 :=
  if 0 <? d then
    let* u := ge_p1p1_to_p3 t in let* q := index tbl (Z.quot d 2) in add u q
  else if d <? 0 then
    let* u := ge_p1p1_to_p3 t in let* q := index tbl (Z.quot (- d) 2) in sub u q
  else Ret t.

(** [for (i = 255; i >= 0; --i) if (aslide[i] || bslide[i]) break;]
    the result is [i + 1]. *)
Fixpoint top_digit (a b : list Z) (n : nat) : nat :=
  match n with
  | O => O
  | S i => if (a !!! i =? 0) && (b !!! i =? 0) then top_digit a b i else n
  end.

(** [for (; i >= 0; --i)], from [i = n - 1]. *)
Fixpoint dsm_loop {A B} (addA subA : ge_p3 -> A -> outcome ge_p1p1) (tblA : list A)
    (addB subB : ge_p3 -> B -> outcome ge_p1p1) (tblB : list B) (a b : list Z)
    (n : nat) (r : ge_p2) : outcome ge_p2 :=
  match n with
  | O => Ret r
  | S i =>
      let* t := ge_p2_dbl r in
      let* t := dsm_digit addA subA tblA (a !!! i) t in
      let* t := dsm_digit addB subB tblB (b !!! i) t in
      let* r := ge_p1p1_to_p2 t in
      dsm_loop addA subA tblA addB subB tblB a b i r
  end.

Definition ge_double_scalarmult_base_vartime (a : list Z) (A : ge_p3) (b : list Z) : outcome ge_p2 :=
  let* aslide := slide a in
  let* bslide := slide b in
  let* Ai := ge_dsm_precomp A in
  dsm_loop ge_add ge_sub Ai ge_madd ge_msub ge_Bi aslide bslide
    (top_digit aslide bslide 256) ge_p2_0.

Definition ge_double_scalarmult_precomp_vartime (a : list Z) (A : ge_p3) (b : list Z)
    (Bi : list ge_cached) : outcome ge_p2 :=
  let* aslide := slide a in
  let* bslide := slide b in
  let* Ai := ge_dsm_precomp A in
  dsm_loop ge_add ge_sub Ai ge_add ge_sub Bi aslide bslide
    (top_digit aslide bslide 256) ge_p2_0.

(** ** Constant-time selection *)

Definition equal (b c : Z) : Z :=
  let ub := u8 b in
  let uc := u8 c in
  let x := Z.lxor ub uc in
  let y := uwrap 32 (x - 1) in
  let y := Z.shiftr y 31 in
  u8 y.

Definition negative (b : Z) : Z := u8 (Z.shiftr (uwrap 64 b) 63).

(** [unsigned char babs = b - (((-bnegative) & b) << 1);] *)
Definition babs (b : Z) : Z := u8 (b - shl 32 (Z.land (- negative b) b) 1).

Definition ge_precomp_cmov (t u : ge_precomp) (b : Z) : outcome ge_precomp :=
  let* yp := fe_cmov (yplusx t) (yplusx u) b in
  let* ym := fe_cmov (yminusx t) (yminusx u) b in
  let* xy := fe_cmov (xy2d t) (xy2d u) b in
  Ret {| yplusx := yp; yminusx := ym; xy2d := xy |}.

Definition ge_cached_cmov (t u : ge_cached) (b : Z) : outcome ge_cached :=
  let* yp := fe_cmov (YplusX t) (YplusX u) b in
  let* ym := fe_cmov (YminusX t) (YminusX u) b in
  let* z := fe_cmov (cached_Z t) (cached_Z u) b in
  let* t2d := fe_cmov (T2d t) (T2d u) b in
  Ret {| YplusX := yp; YminusX := ym; cached_Z := z; T2d := t2d |}.

(** [cmov(t, &tbl[j], equal(babs, j + 1));] for [j = 0 .. 7] *)
Definition cmov_table {A} (cmov : A -> A -> Z -> outcome A) (tbl : list A) (ba : Z) (t : A) : outcome A :=
  foldM (fun j t => let* u := index tbl (Z.of_nat j) in cmov t u (equal ba (Z.of_nat j + 1)))
    (seq 0 8) t.

Definition select (pos : Z) (b : Z) : outcome ge_precomp :=
  let bnegative := negative b in
  let* row := index ge_base pos in
  let* t := cmov_table ge_precomp_cmov row (babs b) ge_precomp_0 in
  let* nxy := fe_neg (xy2d t) in
  let minust := {| yplusx := fe_copy (yminusx t); yminusx := fe_copy (yplusx t); xy2d := nxy |} in
  ge_precomp_cmov t minust bnegative.

(** ** Fixed-base multiplication *)

(** [e[2i] = (a[i] >> 0) & 15; e[2i+1] = (a[i] >> 4) & 15;] *)
Definition nibbles (a : list Z) : outcome (list Z) :=
  let* ns := mapM (fun i => let* ai := index a (Z.of_nat i) in
                            Ret [Z.land (Z.shiftr ai 0) 15; Z.land (Z.shiftr ai 4) 15]) (seq 0 32) in
  Ret (concat ns).

(** [e[i] += carry; carry = e[i] + 8; carry >>= 4; e[i] -= carry << 4;] on
    [signed char]s. *)
Definition recode_step (i : nat) (st : list Z * Z) : list Z * Z :=
  let '(e, carry) := st in
  let ei := s8 (e !!! i + carry) in
  let carry := s8 (ei + 8) in
  let carry := s8 (Z.shiftr carry 4) in
  let ei := s8 (ei - shl 32 carry 4) in
  (<[i := ei]> e, carry).

Definition recode (e : list Z) : list Z :=
  let '(e, carry) := foldl (fun st i => recode_step i st) (e, 0) (seq 0 63) in
  <[63%nat := s8 (e !!! 63%nat + carry)]> e.

(** [select(&t, i / 2, e[i]); ge_madd(&r, h, &t); ge_p1p1_to_p3(h, &r);] *)
Definition base_step (e : list Z) (i : nat) (h : ge_p3) : outcome ge_p3 :=
  let* t := select (Z.quot (Z.of_nat i) 2) (e !!! i) in
  let* r := ge_madd h t in
  ge_p1p1_to_p3 r.

(** The indices [i = 1, 3, .., 63] and [i = 0, 2, .., 62]. *)
Definition odd_digits : list nat := map (fun j => S (2 * j)) (seq 0 32).
Definition even_digits : list nat := map (fun j => 2 * j)%nat (seq 0 32).

Definition ge_scalarmult_base (a : list Z) : outcome ge_p3 :=
  let* e := nibbles a in
  let e := recode e in
  let h := ge_p3_0 in
  let* h := foldM (base_step e) odd_digits h in
  let* r := ge_p3_dbl h in
  let* s := ge_p1p1_to_p2 r in
  let* r := ge_p2_dbl s in
  let* s := ge_p1p1_to_p2 r in
  let* r := ge_p2_dbl s in
  let* s := ge_p1p1_to_p2 r in
  let* r := ge_p2_dbl s in
  let* h := ge_p1p1_to_p3 r in
  foldM (base_step e) even_digits h.

(** ** Variable-base multiplication *)

(** One round of the recoding loop of ge_scalarmult, appending two digits. *)
Definition window_step (a : list Z) (i : nat) (st : list Z * Z) : outcome (list Z * Z) :=
  let '(e, carry) := st in
  let* ai := index a (Z.of_nat i) in
  let* carry := I32 (carry + ai) in
  let carry2 := Z.shiftr (carry + 8) 4 in
  let e0 := s8 (carry - shl 32 carry2 4) in
  let carry := Z.shiftr (carry2 + 8) 4 in
  let e1 := s8 (carry2 - shl 32 carry 4) in
  Ret (e ++ [e0; e1], carry).

Definition window_digits (a : list Z) : outcome (list Z) :=
  let* '(e, carry) := foldM (window_step a) (seq 0 31) ([], 0) in
  let* ai := index a 31 in
  let* carry := I32 (carry + ai) in
  let carry2 := Z.shiftr (carry + 8) 4 in
  Ret (e ++ [s8 (carry - shl 32 carry2 4); s8 carry2]).

(** [Ai[0] = A; Ai[i+1] = A + Ai[i];] *)
Fixpoint window_table (A : ge_p3) (n : nat) (Ai : ge_cached) : outcome (list ge_cached) :=
  match n with
  | O => Ret [Ai]
  | S n' =>
      let* t := ge_add A Ai in
      let* u := ge_p1p1_to_p3 t in
      let* Ai' := ge_p3_to_cached u in
      let* rest := window_table A n' Ai' in
      Ret (Ai :: rest)
  end.

(** The body of the loop: four doublings, selection of [cur], addition. *)
Definition window_add (Ai : list ge_cached) (b : Z) (r : ge_p2) : outcome ge_p2 :=
  let bnegative := negative b in
  let* t := ge_p2_dbl r in
  let* r := ge_p1p1_to_p2 t in
  let* t := ge_p2_dbl r in
  let* r := ge_p1p1_to_p2 t in
  let* t := ge_p2_dbl r in
  let* r := ge_p1p1_to_p2 t in
  let* t := ge_p2_dbl r in
  let* u := ge_p1p1_to_p3 t in
  let* cur := cmov_table ge_cached_cmov Ai (babs b) ge_cached_0 in
  let* nt := fe_neg (T2d cur) in
  let minuscur := {| YplusX := fe_copy (YminusX cur); YminusX := fe_copy (YplusX cur);
                     cached_Z := fe_copy (cached_Z cur); T2d := nt |} in
  let* cur := ge_cached_cmov cur minuscur bnegative in
  let* t := ge_add u cur in
  ge_p1p1_to_p2 t.

Definition ge_scalarmult (a : list Z) (A : ge_p3) : outcome ge_p2 :=
  let* e := window_digits a in
  let* A0 := ge_p3_to_cached A in
  let* Ai := window_table A 7 A0 in
  foldM (fun i r => window_add Ai (e !!! i) r) (rev (seq 0 64)) ge_p2_0.

(** ** Hashing to the curve *)

(** The check compiled in without [NDEBUG]: the point is on the curve. *)
Definition check_on_curve (r : ge_p2) : outcome unit :=
  let* check_iz := fe_invert (p2_Z r) in
  let* check_x := fe_mul (p2_X r) check_iz in
  let* check_y := fe_mul (p2_Y r) check_iz in
  let* check_x := fe_sq check_x in
  let* check_y := fe_sq check_y in
  let* check_v := fe_mul check_x check_y in
  let* check_v := fe_mul fe_d check_v in
  let* check_v := fe_add check_v check_x in
  let* check_v := fe_sub check_v check_y in
  let* check_v := fe_add check_v fe_1 in
  let* nz := fe_isnonzero check_v in
  assert (nz =? 0).

(** [setsign:] and the rest, for [X], [z], [w] and [sign]. *)
Definition fromfe_setsign (X z w : fe) (sign : Z) : outcome ge_p2 :=
  let* neg := fe_isnegative X in
  let* X :=
    if neg =? sign then Ret X else
    let* nz := fe_isnonzero X in
    let* _ := assert (negb (nz =? 0)) in
    fe_neg X in
  let* rZ := fe_add z w in
  let* rY := fe_sub z w in
  let* rX := fe_mul X rZ in
  let r := {| p2_X := rX; p2_Y := rY; p2_Z := rZ |} in
  let* _ := check_on_curve r in
  Ret r.

Definition ge_fromfe_frombytes_vartime (s : list Z) : outcome ge_p2 :=
  let* h := frombytes_limbs (fun v => v) s in
  let* u := frombytes_carry h in
  let* v := fe_sq2 u in
  let* w := fe_add v fe_1 in
  let* x := fe_sq w in
  let* y := fe_mul fe_ma2 v in
  let* x := fe_add x y in
  let* X := fe_divpowm1 w x in
  let* y := fe_sq X in
  let* x := fe_mul y x in
  let* y := fe_sub w x in
  let z := fe_copy fe_ma in
  let* nz := fe_isnonzero y in
  let finish X :=
    let* X := fe_mul X u in
    let* z := fe_mul z v in
    fromfe_setsign X z w 0 in
  if nz =? 0 then
    let* X := fe_mul X fe_fffb2 in finish X
  else
    let* y := fe_add w x in
    let* nz := fe_isnonzero y in
    if nz =? 0 then
      let* X := fe_mul X fe_fffb1 in finish X
    else
      let* x := fe_mul x fe_sqrtm1 in
      let* y := fe_sub w x in
      let* nz := fe_isnonzero y in
      let* X :=
        if nz =? 0 then fe_mul X fe_fffb4
        else
          let* y := fe_add w x in
          let* nz := fe_isnonzero y in
          let* _ := assert (nz =? 0) in
          fe_mul X fe_fffb3 in
      fromfe_setsign X z w 1.
