(* ===== verification/ScalarMultFacts.v ===== *)
(** Correctness of the fixed-base and variable-base multiplications: the digit
    recodings preserve the scalar, the constant-time selections pick the right
    multiple, and the loops compute the scalar multiple of the point. *)

From S2P Require Import Prelude Limbs Bytes Field FieldFacts FieldBytes Prime Fp Tables FieldPow Curve Group GroupFacts TablesFacts ScalarMult.

(** ** Selection of a digit's multiple *)

Lemma digit_cases b : -8 <= b <= 8 -> In b (map (fun n => Z.of_nat n - 8) (seq 0 17)).
Proof. intros H. apply in_map_iff. exists (Z.to_nat (b + 8)). rewrite in_seq. lia. Qed.

(** The branch-free tests, on the digits that occur. *)
Lemma digit_tests b :
  -8 <= b <= 8 ->
  babs b = Z.abs b /\ negative b = (if b <? 0 then 1 else 0) /\
  Forall (fun j => equal (babs b) (Z.of_nat j + 1) = if Z.abs b =? Z.of_nat j + 1 then 1 else 0) (seq 0 8).
Proof.
  intros H. apply digit_cases in H. revert b H. apply List.Forall_forall.
  repeat constructor.
Qed.

Section CmovTable.
(** What a conditional move promises on valid operands. *)
Context {A : Type} (cmov : A -> A -> Z -> outcome A) (ok : A -> Prop).
Context (cmov_ok : forall t u b, ok t -> ok u -> b = 0 \/ b = 1 -> cmov t u b = Ret (if b =? 1 then u else t)).

Lemma cmov_table_spec tbl t b :
  length tbl = 8%nat -> Forall ok tbl -> ok t -> -8 <= b <= 8 ->
  cmov_table cmov tbl (babs b) t =
    Ret (if b =? 0 then t else default t (tbl !! Z.to_nat (Z.abs b - 1))).
Proof.
  intros Hl Htbl Ht Hb. destruct (digit_tests b Hb) as (_ & _ & Heq). unfold cmov_table.
  assert (forall js s, Forall (fun j => equal (babs b) (Z.of_nat j + 1) = if Z.abs b =? Z.of_nat j + 1 then 1 else 0) js ->
    Forall (fun j => j < 8)%nat js -> ok s ->
    foldM (fun j t => let* u := index tbl (Z.of_nat j) in cmov t u (equal (babs b) (Z.of_nat j + 1))) js s =
    Ret (foldl (fun s j => if Z.abs b =? Z.of_nat j + 1 then default s (tbl !! j) else s) s js)) as H.
  { induction js as [|j js IH]; intros s Hjs Hlt Hs; [done|]. inversion_clear Hjs as [|? ? Hj Hjs'].
    inversion_clear Hlt as [|? ? Hj8 Hlt']. cbn [foldM foldl].
    destruct (lookup_lt_is_Some_2 tbl j ltac:(lia)) as [u Hu].
    rewrite (index_lookup tbl (Z.of_nat j) u) by (rewrite ?Nat2Z.id; done || lia). cbn [bind].
    assert (ok u) as Hou by exact (Forall_lookup_1 _ _ _ _ Htbl Hu).
    rewrite Hj, cmov_ok by (done || destruct (_ =? _); auto). cbn [bind]. rewrite Hu. simpl default.
    destruct (Z.abs b =? Z.of_nat j + 1); simpl (_ =? _); cbv iota; apply IH; done. }
  rewrite H by (done || (apply List.Forall_forall; intros j ?%in_seq; lia)). f_equal.
  do 8 (destruct tbl as [|? tbl]; [done|]). destruct tbl; [|done].
  pose proof (digit_cases b Hb) as Hin. revert b Hb Heq H Hin. clear. intros b _ _ _ Hin.
  revert b Hin. apply List.Forall_forall. repeat constructor.
Qed.
End CmovTable.

Lemma rep_int32 k f x : k <= 500 -> rep k f x -> within int32_b f.
Proof.
  intros Hk. apply rep_within. unfold kb, int32_b, fbd, subsumes. simpl.
  rewrite !andb_true_iff, !Z.leb_le. repeat split; lia.
Qed.

Lemma fe_cmov_01 f g b :
  within int32_b f -> within int32_b g -> b = 0 \/ b = 1 -> fe_cmov f g b = Ret (if b =? 1 then g else f).
Proof. intros Hf Hg Hb. rewrite fe_cmov_spec by (done || lia). by destruct Hb as [-> | ->]. Qed.

Definition precomp_ok (t : ge_precomp) : Prop :=
  within int32_b (yplusx t) /\ within int32_b (yminusx t) /\ within int32_b (xy2d t).

Lemma precomp_rep_ok t P : precomp_rep t P -> precomp_ok t.
Proof. intros (H1 & H2 & H3). split; [|split]; eapply rep_int32; try eassumption; lia. Qed.

Lemma ge_precomp_cmov_spec t u b :
  precomp_ok t -> precomp_ok u -> b = 0 \/ b = 1 -> ge_precomp_cmov t u b = Ret (if b =? 1 then u else t).
Proof.
  intros (H1 & H2 & H3) (H4 & H5 & H6) Hb. unfold ge_precomp_cmov. rewrite !fe_cmov_01 by done. cbn [bind].
  destruct t, u, (b =? 1); done.
Qed.

Definition cached_ok (t : ge_cached) : Prop :=
  within int32_b (YplusX t) /\ within int32_b (YminusX t) /\ within int32_b (cached_Z t) /\ within int32_b (T2d t).

Lemma cached_rep_ok t P : cached_rep t P -> cached_ok t.
Proof.
  intros (z & _ & H1 & H2 & H3 & H4). split; [|split; [|split]]; eapply rep_int32; try eassumption; lia.
Qed.

Lemma ge_cached_cmov_spec t u b :
  cached_ok t -> cached_ok u -> b = 0 \/ b = 1 -> ge_cached_cmov t u b = Ret (if b =? 1 then u else t).
Proof.
  intros (H1 & H2 & H3 & H4) (H5 & H6 & H7 & H8) Hb. unfold ge_cached_cmov. rewrite !fe_cmov_01 by done. cbn [bind].
  destruct t, u, (b =? 1); done.
Qed.

(** The negated entry: swapped sum and difference, negated product. *)
Lemma precomp_rep_opp t P nxy :
  precomp_rep t P -> rep 16 nxy (- ((curve_d + curve_d) * (px P * py P)))%F ->
  precomp_rep {| yplusx := yminusx t; yminusx := yplusx t; xy2d := nxy |} (- P)%pt.
Proof.
  intros (H1 & H2 & H3) Hn. split; [|split]; cbn [yplusx yminusx xy2d px py ptopp]; rep_ring.
Qed.

Lemma cached_rep_opp t P nt z :
  rep 32 (YplusX t) ((py P + px P) * z)%F -> rep 32 (YminusX t) ((py P - px P) * z)%F ->
  rep 16 (cached_Z t) z -> z <> 0%F -> rep 16 nt (- ((curve_d + curve_d) * (px P * py P) * z))%F ->
  cached_rep {| YplusX := YminusX t; YminusX := YplusX t; cached_Z := cached_Z t; T2d := nt |} (- P)%pt.
Proof.
  intros H1 H2 H3 Hz Hn. exists z. split; [done|].
  split; [|split; [|split]]; cbn [YplusX YminusX cached_Z T2d px py ptopp]; rep_ring.
Qed.

(** A digit [b] and its sign: [P] for [|b|] of the table, negated or not. *)
Lemma digit_sign b P : -8 <= b -> (if b <? 0 then - zmul (Z.abs b) P else zmul (Z.abs b) P)%pt = zmul b P.
Proof.
  intros _. destruct (Z.ltb_spec b 0).
  - rewrite <- zmul_opp. f_equal. lia.
  - f_equal. lia.
Qed.

Lemma select_spec pos b :
  0 <= pos < 32 -> -8 <= b <= 8 ->
  yields (select pos b) (fun t => precomp_rep t (zmul (b * 256 ^ pos) base_point)).
Proof.
  intros Hpos Hb. unfold select. destruct ge_base_shape as [Hlen Hrows].
  destruct (lookup_lt_is_Some_2 ge_base (Z.to_nat pos) ltac:(lia)) as [row Hrow].
  rewrite (index_lookup ge_base pos row) by (done || lia). cbn [bind].
  pose proof (Forall_lookup_1 _ _ _ _ Hrows Hrow) as Hl. cbv beta in Hl.
  pose proof (fun j e => ge_base_spec _ j _ e Hrow) as Hent. rewrite Z2Nat.id in Hent by lia.
  assert (Forall precomp_ok row) as Hok.
  { apply Forall_lookup_2. intros j e He. exact (precomp_rep_ok _ _ (Hent j e He)). }
  rewrite (cmov_table_spec _ precomp_ok ge_precomp_cmov_spec)
    by (done || exact (precomp_rep_ok _ _ ge_precomp_0_spec)). cbn [bind].
  set (t := if b =? 0 then _ else _).
  assert (precomp_rep t (zmul (Z.abs b * 256 ^ pos) base_point)) as Ht.
  { unfold t. destruct (Z.eqb_spec b 0) as [->|Hb0]; [exact ge_precomp_0_spec|].
    destruct (lookup_lt_is_Some_2 row (Z.to_nat (Z.abs b - 1)) ltac:(lia)) as [e He]. rewrite He. simpl default.
    replace (Z.abs b) with (Z.of_nat (Z.to_nat (Z.abs b - 1)) + 1) by lia. by apply Hent. }
  clearbody t. pose proof Ht as (_ & _ & Hxy).
  eapply yields_bind; [fe_call|]. intros nxy Hn. cbv beta in Hn.
  pose proof (precomp_rep_opp _ _ _ Ht Hn) as Hopp. unfold fe_copy.
  destruct (digit_tests b Hb) as (_ & -> & _).
  rewrite ge_precomp_cmov_spec by
    (try (eapply precomp_rep_ok; eassumption); destruct (b <? 0); auto).
  apply yields_ret. rewrite (zmul_mul b), (zmul_mul (Z.abs b)) in *. rewrite <- (digit_sign b) by lia.
  destruct (b <? 0); simpl (_ =? _); cbv iota; assumption.
Qed.

(** ** Recoding in base 16 (ge_scalarmult_base) *)

Definition wt16 (i : nat) : Z := 16 ^ Z.of_nat i.

Lemma wt16_S i : wt16 (S i) = 16 * wt16 i.
Proof. unfold wt16. rewrite Nat2Z.inj_succ, Z.pow_succ_r by lia. done. Qed.

Lemma map_lookup_seq {A B} `{!Inhabited A} (f : A -> B) (a : list A) :
  map (fun i => f (a !!! i)) (seq 0 (length a)) = map f a.
Proof.
  induction a as [|x a IH]; [done|]. cbn [length seq map]. f_equal.
  rewrite <- seq_shift, map_map, <- IH. done.
Qed.

Definition nibs (xs : list Z) : list Z := concat (map (fun x => [x mod 16; x / 16 mod 16]) xs).

Lemma nibbles_nibs a : length a = 32%nat -> nibbles a = Ret (nibs a).
Proof.
  intros Hl. unfold nibbles, nibs.
  rewrite (mapM_map _ (fun i => (fun x => [x mod 16; x / 16 mod 16]) (a !!! i))).
  - cbn [bind]. rewrite <- Hl. by rewrite (map_lookup_seq (fun x => [x mod 16; x / 16 mod 16])).
  - intros i Hi%elem_of_seq. destruct (lookup_lt_is_Some_2 a i ltac:(lia)) as [x Hx].
    rewrite (index_lookup a _ x), (list_lookup_total_correct a i x) by (rewrite ?Nat2Z.id; done || lia).
    cbn [bind]. change 15 with (Z.ones 4). rewrite !Z.land_ones, Z.shiftr_0_r, Z.shiftr_div_pow2 by lia. done.
Qed.

Lemma nibs_eval xs k : bytes xs -> eval wt16 k (nibs xs) = wt16 k * le_val xs.
Proof.
  intros H. revert k. induction H as [|x xs Hx H IH]; intros k; [simpl; lia|].
  unfold nibs. cbn [map concat app eval le_val]. fold (nibs xs). rewrite IH, !wt16_S.
  unfold is_byte in Hx. pose proof (Z.div_mod x 16 ltac:(lia)).
  rewrite (Z.mod_small (x / 16)) by (split; [apply Z.div_pos | apply Z.div_lt_upper_bound]; lia).
  nia.
Qed.

Lemma nibs_length xs : length (nibs xs) = (2 * length xs)%nat.
Proof. induction xs as [|x xs IH]; [done|]. unfold nibs in *. simpl in *. rewrite IH. lia. Qed.

Lemma nibs_range xs : Forall (fun d => 0 <= d < 16) (nibs xs).
Proof.
  induction xs as [|x xs IH]; [constructor|]. unfold nibs in *. simpl.
  repeat constructor; try apply Z.mod_pos_bound; lia || done.
Qed.

(** The invariant of the recoding loop after [i] digits. *)
Definition recode_inv (e0 : list Z) (i : nat) (st : list Z * Z) : Prop :=
  length st.1 = 64%nat /\ 0 <= st.2 <= 1 /\
  (forall j, (j < i)%nat -> -8 <= st.1 !!! j <= 7) /\
  (forall j, (i <= j)%nat -> st.1 !!! j = e0 !!! j) /\
  eval wt16 0 st.1 + wt16 i * st.2 = eval wt16 0 e0.

Lemma recode_step_inv e0 i st :
  Forall (fun d => 0 <= d < 16) e0 -> length e0 = 64%nat -> (i < 63)%nat ->
  recode_inv e0 i st -> recode_inv e0 (S i) (recode_step i st).
Proof.
  intros H0 Hl0 Hi. destruct st as [e c]. intros (Hl & Hc & Hlo & Hhi & Ev). cbn [fst snd] in *.
  unfold recode_step. pose proof (Hhi i ltac:(lia)) as Ei.
  assert (0 <= e !!! i < 16) as Hr.
  { rewrite Ei. destruct (lookup_lt_is_Some_2 e0 i ltac:(lia)) as [x Hx].
    rewrite (list_lookup_total_correct e0 i x Hx). exact (Forall_lookup_1 _ _ _ _ H0 Hx). }
  unfold s8. rewrite (swrap_id 8 (e !!! i + c)) by (simpl; lia).
  rewrite (swrap_id 8 (_ + 8)) by (simpl; lia). rewrite Z.shiftr_div_pow2 by lia. change (2 ^ 4) with 16.
  pose proof (Z.div_mod (e !!! i + c + 8) 16 ltac:(lia)) as Ed.
  pose proof (Z.mod_pos_bound (e !!! i + c + 8) 16 ltac:(lia)) as Em.
  set (q := (e !!! i + c + 8) / 16) in *. assert (0 <= q <= 1) as Hq by lia.
  rewrite (swrap_id 8 q) by (simpl; lia). unfold shl. rewrite Z.shiftl_mul_pow2 by lia.
  change (2 ^ 4) with 16. rewrite (swrap_id 32 (q * 16)) by (simpl; lia).
  rewrite (swrap_id 8 (_ - _)) by (simpl; lia).
  unfold recode_inv. cbn [fst snd]. split; [by rewrite length_insert|]. split; [done|]. split; [|split].
  - intros j Hj. destruct (decide (j = i)) as [->|Hne].
    + rewrite list_lookup_total_insert_eq by lia. lia.
    + rewrite list_lookup_total_insert_ne by done. apply Hlo. lia.
  - intros j Hj. rewrite list_lookup_total_insert_ne by lia. apply Hhi. lia.
  - rewrite eval_insert by lia. simpl Nat.add. rewrite wt16_S, <- Ev. lia.
Qed.

Lemma recode_spec e :
  length e = 64%nat -> Forall (fun d => 0 <= d < 16) e -> e !!! 63%nat < 8 ->
  length (recode e) = 64%nat /\ (forall i, (i < 64)%nat -> -8 <= recode e !!! i <= 8) /\
  eval wt16 0 (recode e) = eval wt16 0 e.
Proof.
  intros Hl Hd H63. unfold recode.
  assert (forall n i st, recode_inv e i st -> (i + n <= 63)%nat ->
    recode_inv e (i + n) (foldl (fun st i => recode_step i st) st (seq i n))) as Hloop.
  { induction n as [|n IH]; intros i st Hst Hi; [rewrite Nat.add_0_r; done|]. cbn [seq foldl].
    replace (i + S n)%nat with (S i + n)%nat by lia. apply IH; [|lia]. apply recode_step_inv; done || lia. }
  assert (recode_inv e 0 (e, 0)) as Hinit.
  { repeat split; cbn [fst snd]; try lia; try done. }
  specialize (Hloop 63%nat 0%nat (e, 0) Hinit ltac:(lia)).
  destruct (foldl _ _ _) as [e' c]. destruct Hloop as (Hl' & Hc & Hlo & Hhi & Ev). cbn [fst snd] in *.
  simpl Nat.add in *. pose proof (Hhi 63%nat ltac:(lia)) as E63.
  assert (0 <= e !!! 63%nat) as H63'.
  { destruct (lookup_lt_is_Some_2 e 63 ltac:(lia)) as [x Hx]. rewrite (list_lookup_total_correct e 63 x Hx).
    pose proof (Forall_lookup_1 _ _ _ _ Hd Hx). simpl in *. lia. }
  unfold s8. rewrite swrap_id by (simpl; lia).
  split; [by rewrite length_insert|]. split.
  - intros i Hi. destruct (decide (i = 63%nat)) as [->|Hne].
    + rewrite list_lookup_total_insert_eq by lia. lia.
    + rewrite list_lookup_total_insert_ne by done. specialize (Hlo i ltac:(lia)). lia.
  - rewrite eval_insert by lia. simpl Nat.add. lia.
Qed.

(** The documented precondition [a[31] <= 127]. *)
Lemma top_byte_bound a :
  bytes a -> length a = 32%nat -> a !!! 31%nat <= 127 -> 0 <= le_val a < 2 ^ 255.
Proof.
  intros Ha Hl H31. pose proof (le_val_bound a Ha) as [H0 _]. split; [done|].
  rewrite <- (take_drop 31 a), le_val_app, length_take, Hl. simpl Nat.min.
  pose proof (le_val_bound _ (bytes_take 31 _ Ha)) as Ht. rewrite length_take, Hl in Ht. simpl Nat.min in Ht.
  destruct (lookup_lt_is_Some_2 a 31 ltac:(lia)) as [x Hx]. rewrite (list_lookup_total_correct a 31 x Hx) in H31.
  rewrite (drop_S a x 31 Hx), drop_ge by lia. simpl le_val.
  change (2 ^ (8 * Z.of_nat 31)) with (2 ^ 248) in *. lia.
Qed.

Lemma eval_ge_digit k e i :
  Forall (fun d => 0 <= d) e -> (i < length e)%nat -> wt16 (k + i) * e !!! i <= eval wt16 k e.
Proof.
  intros H. revert k i. induction H as [|x e Hx H IH]; intros k i Hi; simpl in Hi; [lia|].
  assert (forall k, 0 <= eval wt16 k e) as Hn.
  { intros k'. clear IH Hi. revert k'. induction H as [|y e Hy H IH]; intros k'; simpl; [lia|].
    specialize (IH (S k')). assert (0 <= wt16 k') by (apply Z.pow_nonneg; lia). nia. }
  destruct i as [|i]; simpl.
  - rewrite Nat.add_0_r. specialize (Hn (S k)). lia.
  - replace (k + S i)%nat with (S k + i)%nat by lia. specialize (IH (S k) i ltac:(lia)).
    assert (0 <= wt16 k) by (apply Z.pow_nonneg; lia). nia.
Qed.

(** ** The loops of ge_scalarmult_base *)

(** What the digits [is] contribute. *)
Definition digit_sum (e : list Z) (ds : list nat) : Z :=
  foldr (fun i acc => e !!! i * 256 ^ (Z.of_nat i / 2) + acc) 0 ds.

Lemma base_steps_spec e ds h P :
  (forall i, In i ds -> (i < 64)%nat /\ -8 <= e !!! i <= 8) -> p3_rep h P ->
  yields (foldM (base_step e) ds h) (fun h => p3_rep h (P + zmul (digit_sum e ds) base_point)%pt).
Proof.
  revert h P. induction ds as [|i ds IH]; intros h P Hi Hh; cbn [foldM].
  - apply yields_ret. simpl. rewrite zmul_0, (right_id pt0 ptadd). exact Hh.
  - destruct (Hi i (or_introl eq_refl)) as [Hi64 Hd].
    eapply yields_bind.
    { unfold base_step. rewrite Z.quot_div_nonneg by lia.
      eapply yields_bind; [apply select_spec; [|exact Hd]|].
      { split; [apply Z.div_pos; lia|]. apply Z.div_lt_upper_bound; lia. }
      intros t Ht. cbv beta in Ht. ge_step. ge_call. }
    intros h' Hh'. cbv beta in Hh'.
    eapply yields_mono; [apply (IH _ _ (fun j Hj => Hi j (or_intror Hj)) Hh')|].
    intros h'' Hh''. cbn [digit_sum foldr]. fold (digit_sum e ds). rewrite zmul_add, (assoc ptadd). exact Hh''.
Qed.

Lemma digits_even_odd e :
  length e = 64%nat -> digit_sum e odd_digits * 16 + digit_sum e even_digits = eval wt16 0 e.
Proof.
  intros Hl. do 64 (destruct e as [|? e]; [discriminate Hl|]). destruct e; [|discriminate Hl]. clear Hl.
  unfold digit_sum, odd_digits, even_digits. cbn [seq map Nat.add Nat.mul foldr lookup_total list_lookup_total eval].
  unfold wt16.
  repeat match goal with |- context [256 ^ ?e] =>
    let v := eval vm_compute in (256 ^ e) in change (256 ^ e) with v end.
  repeat match goal with |- context [16 ^ ?e] =>
    let v := eval vm_compute in (16 ^ e) in change (16 ^ e) with v end.
  ring.
Qed.

Lemma ge_scalarmult_base_spec a :
  bytes a -> length a = 32%nat -> a !!! 31%nat <= 127 ->
  yields (ge_scalarmult_base a) (fun h => p3_rep h (zmul (le_val a) base_point)).
Proof.
  intros Ha Hl H31. unfold ge_scalarmult_base. rewrite nibbles_nibs by done. cbn [bind]. cbv zeta.
  pose proof (nibs_eval a 0 Ha) as Ev. change (wt16 0) with 1 in Ev. rewrite Z.mul_1_l in Ev.
  assert (length (nibs a) = 64%nat) as Hn by (rewrite nibs_length, Hl; done).
  pose proof (nibs_range a) as Hr.
  assert (nibs a !!! 63%nat < 8) as H63.
  { pose proof (eval_ge_digit 0 (nibs a) 63) as H. rewrite Ev in H.
    pose proof (top_byte_bound a Ha Hl H31). change (wt16 (0 + 63)) with (2 ^ 252) in H.
    assert (Forall (fun d => 0 <= d) (nibs a)) as Hp by (eapply List.Forall_impl; [|exact Hr]; simpl; lia).
    specialize (H Hp ltac:(lia)). lia. }
  destruct (recode_spec (nibs a) Hn Hr H63) as (Hl' & Hd & Ev').
  set (e := recode (nibs a)) in *. clearbody e.
  assert (forall ds, (forall i, In i ds -> (i < 64)%nat) ->
    forall i, In i ds -> (i < 64)%nat /\ -8 <= e !!! i <= 8) as Hdig by (intros ds His i Hi; auto).
  eapply yields_bind; [apply (base_steps_spec e odd_digits ge_p3_0 pt0); [|exact ge_p3_0_spec]|].
  { apply Hdig. apply List.Forall_forall. unfold odd_digits. cbn [seq map]. repeat constructor; lia. }
  intros h Hh. cbv beta in Hh. rewrite (left_id pt0 ptadd) in Hh.
  repeat ge_step. 
  match goal with H : p3_rep ?h _ |- yields (foldM _ _ ?h) _ => rewrite <- !zmul_add in H end.
  eapply yields_mono; [eapply (base_steps_spec e even_digits); [|eassumption]|].
  { apply Hdig. apply List.Forall_forall. unfold even_digits. cbn [seq map]. repeat constructor; lia. }
  intros h'' Hh''. cbv beta in Hh''. rewrite <- zmul_add in Hh''.
  rewrite <- Ev, <- Ev', <- digits_even_odd by done.
  match goal with H : p3_rep h'' (zmul ?n _) |- p3_rep h'' (zmul ?m _) => replace m with n by lia end.
  exact Hh''.
Qed.

(** ** Variable-base multiplication *)

(** The number written by base-16 digits, low first. *)
Definition horner (ds : list Z) : Z := foldr (fun d v => d + 16 * v) 0 ds.

Lemma horner_eval ds k : eval wt16 k ds = wt16 k * horner ds.
Proof. revert k. induction ds as [|d ds IH]; intros k; simpl; [lia|]. rewrite IH, wt16_S. lia. Qed.

Lemma horner_app xs ys : horner (xs ++ ys) = horner xs + wt16 (length xs) * horner ys.
Proof.
  induction xs as [|x xs IH]; cbn [app horner foldr length].
  - change (wt16 0) with 1. fold (horner ys). lia.
  - fold (horner (xs ++ ys)) (horner xs). rewrite IH, wt16_S. lia.
Qed.

Definition window_inv (a : list Z) (i : nat) (st : list Z * Z) : Prop :=
  length st.1 = (2 * i)%nat /\ 0 <= st.2 <= 1 /\ Forall (fun d => -8 <= d <= 7) st.1 /\
  horner st.1 + wt16 (2 * i) * st.2 = le_val (take i a).

(** Splitting off a digit in [-8, 7]. *)
Lemma digit_split c :
  0 <= c <= 256 ->
  let q := Z.shiftr (c + 8) 4 in
  s8 (c - shl 32 q 4) = c - 16 * q /\ -8 <= c - 16 * q <= 7 /\ 0 <= q <= 16 /\ (c <= 128 -> q <= 8).
Proof.
  intros Hc q. unfold q. rewrite Z.shiftr_div_pow2 by lia. change (2 ^ 4) with 16.
  pose proof (Z.div_mod (c + 8) 16 ltac:(lia)). pose proof (Z.mod_pos_bound (c + 8) 16 ltac:(lia)).
  set (k := (c + 8) / 16) in *. unfold shl, s8. rewrite Z.shiftl_mul_pow2 by lia. change (2 ^ 4) with 16.
  rewrite (swrap_id 32) by (simpl; lia). rewrite swrap_id by (simpl; lia). lia.
Qed.

Lemma take_S_le_val a i x :
  a !! i = Some x -> le_val (take (S i) a) = le_val (take i a) + 2 ^ (8 * Z.of_nat i) * x.
Proof.
  intros Hx. rewrite (take_S_r a i x Hx), le_val_app, length_take.
  pose proof (lookup_lt_Some _ _ _ Hx). rewrite Nat.min_l by lia. simpl. lia.
Qed.

Lemma wt16_double i : wt16 (2 * i) = 2 ^ (8 * Z.of_nat i).
Proof.
  unfold wt16. change 16 with (2 ^ 4). rewrite <- Z.pow_mul_r by lia. f_equal. lia.
Qed.

Lemma window_step_inv a i st :
  bytes a -> (i < length a)%nat -> window_inv a i st ->
  yields (window_step a i st) (window_inv a (S i)).
Proof.
  intros Ha Hi. destruct st as [e c]. intros (Hl & Hc & Hd & Ev). cbn [fst snd] in *.
  destruct (lookup_lt_is_Some_2 a i Hi) as [x Hx]. unfold window_step.
  rewrite (index_lookup a _ x) by (rewrite ?Nat2Z.id; done || lia). cbn [bind].
  pose proof (Forall_lookup_1 _ _ _ _ Ha Hx) as Hb. unfold is_byte in Hb.
  rewrite I_ok by (simpl; lia). cbn [bind]. cbv zeta.
  destruct (digit_split (c + x) ltac:(lia)) as (E0 & H0 & Hq & _). set (q := Z.shiftr (c + x + 8) 4) in *.
  destruct (digit_split q ltac:(lia)) as (E1 & H1 & Hq1 & Hq2). set (q' := Z.shiftr (q + 8) 4) in *.
  apply yields_ret. rewrite E0, E1. unfold window_inv. cbn [fst snd]. split; [|split; [|split]].
  - rewrite length_app, Hl. simpl. lia.
  - specialize (Hq2 ltac:(lia)). lia.
  - apply Forall_app. split; [done|]. repeat constructor; lia.
  - rewrite horner_app, Hl, (take_S_le_val a i x Hx), <- Ev, <- (wt16_double i).
    replace (2 * S i)%nat with (S (S (2 * i))) by lia. rewrite !wt16_S. cbn [horner foldr]. lia.
Qed.

Lemma window_digits_spec a :
  bytes a -> length a = 32%nat -> a !!! 31%nat <= 127 ->
  yields (window_digits a) (fun e =>
    length e = 64%nat /\ Forall (fun d => -8 <= d <= 8) e /\ horner e = le_val a).
Proof.
  intros Ha Hl H31. unfold window_digits.
  assert (forall n i st, window_inv a i st -> (i + n <= 31)%nat ->
    yields (foldM (window_step a) (seq i n) st) (window_inv a (i + n))) as Hloop.
  { induction n as [|n IH]; intros i st Hst Hi; cbn [seq foldM].
    - apply yields_ret. rewrite Nat.add_0_r. exact Hst.
    - eapply yields_bind; [apply window_step_inv; [exact Ha | lia | exact Hst]|]. intros st' Hst'.
      replace (i + S n)%nat with (S i + n)%nat by lia. apply IH; [exact Hst'|lia]. }
  eapply yields_bind; [apply (Hloop 31%nat 0%nat ([], 0)); [|lia]|].
  { repeat split; cbn [fst snd]; try lia. constructor. }
  intros [e c] (Hle & Hc & Hd & Ev). cbn [fst snd] in *. simpl Nat.add in *.
  destruct (lookup_lt_is_Some_2 a 31 ltac:(lia)) as [x Hx].
  rewrite (list_lookup_total_correct a 31 x Hx) in H31.
  rewrite (index_lookup a 31 x) by (done || lia). cbn [bind].
  pose proof (Forall_lookup_1 _ _ _ _ Ha Hx) as Hb. unfold is_byte in Hb.
  rewrite I_ok by (simpl; lia). cbn [bind]. cbv zeta.
  destruct (digit_split (c + x) ltac:(lia)) as (E0 & H0 & Hq & Hq8). set (q := Z.shiftr (c + x + 8) 4) in *.
  specialize (Hq8 ltac:(lia)). rewrite E0. unfold s8. rewrite (swrap_id 8 q) by (simpl; lia).
  apply yields_ret. split; [|split].
  - rewrite length_app, Hle. done.
  - apply Forall_app. split; [eapply List.Forall_impl; [|exact Hd]; simpl; lia|]. repeat constructor; lia.
  - rewrite horner_app, Hle. pose proof (take_S_le_val a 31 x Hx) as Et. rewrite take_ge in Et by lia.
    rewrite Et, <- Ev, <- (wt16_double 31). cbn [horner foldr]. lia.
Qed.

Lemma window_table_spec A P n k Ai :
  p3_rep A P -> cached_rep Ai (zmul k P) ->
  yields (window_table A n Ai) (fun l => length l = S n /\
    forall j c, l !! j = Some c -> cached_rep c (zmul (k + Z.of_nat j) P)).
Proof.
  intros HA. revert k Ai. induction n as [|n IH]; intros k Ai HAi; cbn [window_table].
  - apply yields_ret. split; [done|]. intros [|j] c Hc; [|done]. injection Hc as <-. rewrite Z.add_0_r. done.
  - repeat ge_step. match goal with H : cached_rep ?c (P + _)%pt |- _ =>
      replace (P + zmul k P)%pt with (zmul (k + 1) P) in H
        by (rewrite zmul_add, zmul_1; apply (comm ptadd)) end.
    eapply yields_bind; [eapply IH; eassumption|]. intros l [Hl Hj]. apply yields_ret.
    split; [simpl; lia|]. intros [|j] c Hc; simpl in Hc.
    + injection Hc as <-. rewrite Z.add_0_r. done.
    + replace (k + Z.of_nat (S j)) with (k + 1 + Z.of_nat j) by lia. by apply Hj.
Qed.

Lemma window_add_spec Ai P b r R :
  length Ai = 8%nat -> (forall j c, Ai !! j = Some c -> cached_rep c (zmul (1 + Z.of_nat j) P)) ->
  -8 <= b <= 8 -> p2_rep r R ->
  yields (window_add Ai b r) (fun r => p2_rep r (zmul 16 R + zmul b P)%pt).
Proof.
  intros Hl Hent Hb Hr. unfold window_add. repeat ge_step.
  assert (Forall cached_ok Ai) as Hok.
  { apply Forall_lookup_2. intros j e He. exact (cached_rep_ok _ _ (Hent j e He)). }
  rewrite (cmov_table_spec _ cached_ok ge_cached_cmov_spec)
    by (done || exact (cached_rep_ok _ _ ge_cached_0_spec)). cbn [bind].
  set (t := if b =? 0 then _ else _).
  assert (cached_rep t (zmul (Z.abs b) P)) as Ht.
  { unfold t. destruct (Z.eqb_spec b 0) as [->|Hb0]; [exact ge_cached_0_spec|].
    destruct (lookup_lt_is_Some_2 Ai (Z.to_nat (Z.abs b - 1)) ltac:(lia)) as [e He]. rewrite He. simpl default.
    replace (Z.abs b) with (1 + Z.of_nat (Z.to_nat (Z.abs b - 1))) by lia. by apply Hent. }
  clearbody t. pose proof Ht as (z & Hz & H1 & H2 & H3 & H4).
  eapply yields_bind; [fe_call|]. intros nt Hn. cbv beta in Hn.
  pose proof (cached_rep_opp _ _ _ _ H1 H2 H3 Hz Hn) as Hopp. unfold fe_copy.
  destruct (digit_tests b Hb) as (_ & -> & _).
  rewrite ge_cached_cmov_spec by (try (eapply cached_rep_ok; eassumption); destruct (b <? 0); auto).
  cbn [bind]. match goal with |- yields (bind (ge_add ?u ?c) _) _ =>
    assert (cached_rep c (zmul b P)) as Hc
      by (rewrite <- (digit_sign b) by lia; destruct (b <? 0); assumption) end.
  ge_step. eapply yields_mono; [ge_call|]. intros r' Hr'. cbv beta in Hr'.
  rewrite <- !zmul_2, <- !zmul_mul in Hr'. exact Hr'.
Qed.

Lemma ge_scalarmult_spec a A P :
  bytes a -> length a = 32%nat -> a !!! 31%nat <= 127 -> p3_rep A P ->
  yields (ge_scalarmult a A) (fun r => p2_rep r (zmul (le_val a) P)).
Proof.
  intros Ha Hl H31 HA. unfold ge_scalarmult.
  eapply yields_bind; [apply window_digits_spec; done|]. intros e (Hle & Hd & Ev).
  ge_step. match goal with H : cached_rep _ P |- _ => rewrite <- (zmul_1 P) in H end.
  eapply yields_bind; [apply (window_table_spec A P 7 1); eassumption|]. intros Ai [HlA Hent].
  assert (forall n r, (n <= 64)%nat -> p2_rep r (zmul (horner (drop n e)) P) ->
    yields (foldM (fun i r => window_add Ai (e !!! i) r) (rev (seq 0 n)) r)
      (fun r => p2_rep r (zmul (horner e) P))) as Hloop.
  { clear - HlA Hent Hle Hd. induction n as [|n IH]; intros r Hn Hr; [apply yields_ret; exact Hr|].
    rewrite seq_S, rev_app_distr. cbn [rev app foldM Nat.add].
    destruct (lookup_lt_is_Some_2 e n ltac:(lia)) as [x Hx].
    pose proof (Forall_lookup_1 _ _ _ _ Hd Hx) as Hxd. rewrite (list_lookup_total_correct e n x Hx).
    eapply yields_bind; [apply window_add_spec; [exact HlA | exact Hent | exact Hxd | exact Hr]|].
    intros r' Hr'. apply IH; [lia|]. rewrite (drop_S e x n Hx). cbn [horner foldr]. fold (horner (drop (S n) e)).
    rewrite zmul_add, zmul_mul, (comm ptadd). exact Hr'. }
  rewrite <- Ev. apply (Hloop 64%nat); [lia|]. rewrite drop_ge by lia. exact ge_p2_0_spec.
Qed.

(** ** Properties *)

(** A scalar used by the witnesses. *)
Definition some_scalar : list Z := 200 :: replicate 30 0 ++ [90].

Lemma some_scalar_ok : bytes some_scalar /\ length some_scalar = 32%nat /\ some_scalar !!! 31%nat <= 127.
Proof. split; [apply bytesb_true; reflexivity|]. split; [reflexivity|]. apply Z.leb_le. reflexivity. Qed.

(** [select] returns, for every row and every digit between -8 and 8, the multiple [b*256^pos*B] of
    the base point, whichever sign the digit has, by conditional moves over the whole row. *)
Theorem select_correct (pos b : Z) :
  0 <= pos < 32 -> -8 <= b <= 8 ->
  yields (select pos b) (fun t => precomp_rep t (zmul (b * 256 ^ pos) base_point)).
Proof. intros Hp Hb. exact (select_spec pos b Hp Hb). Qed.

Lemma select_correct_witness :
  yields (select 17 (-5)) (fun t => precomp_rep t (zmul (-5 * 256 ^ 17) base_point)).
Proof. apply (select_correct 17 (-5)); lia. Defined.

(** C12: [ge_scalarmult_base] returns [a*B] for every 32-byte [a] with [a[31] <= 127], the precondition
    of its comment: the recoding to signed radix-16 digits keeps the value and its range, every table
    access is in range and no operation overflows. *)
Theorem ge_scalarmult_base_correct (a : list Z) :
  bytes a -> length a = 32%nat -> a !!! 31%nat <= 127 ->
  yields (ge_scalarmult_base a) (fun h => p3_rep h (zmul (le_val a) base_point)).
Proof. exact (ge_scalarmult_base_spec a). Qed.

Lemma ge_scalarmult_base_correct_witness :
  yields (ge_scalarmult_base some_scalar) (fun h => p3_rep h (zmul (le_val some_scalar) base_point)).
Proof.
  destruct some_scalar_ok as (H1 & H2 & H3). exact (ge_scalarmult_base_correct some_scalar H1 H2 H3).
Defined.

(** C11: [ge_scalarmult] returns [a*A] for every 32-byte [a] with [a[31] <= 127] and every point [A]. *)
Theorem ge_scalarmult_correct (a : list Z) (A : ge_p3) (P : point) :
  bytes a -> length a = 32%nat -> a !!! 31%nat <= 127 -> p3_rep A P ->
  yields (ge_scalarmult a A) (fun r => p2_rep r (zmul (le_val a) P)).
Proof. exact (ge_scalarmult_spec a A P). Qed.

Lemma ge_scalarmult_correct_witness :
  yields (ge_scalarmult some_scalar ge_p3_0) (fun r => p2_rep r (zmul (le_val some_scalar) pt0)).
Proof.
  destruct some_scalar_ok as (H1 & H2 & H3).
  exact (ge_scalarmult_correct some_scalar ge_p3_0 pt0 H1 H2 H3 ge_p3_0_spec).
Defined.
