(* ===== verification/SlideFacts.v ===== *)
(** Correctness of the sliding-window recoding [slide] and of the two double
    scalar multiplications that use it. *)

From S2P Require Import Prelude Limbs Bytes Field FieldFacts FieldBytes Prime Fp Tables FieldPow Curve Group GroupFacts TablesFacts ScalarMult ScalarMultFacts.

(** The number written by base-2 digits, low first. *)
Definition bin (ds : list Z) : Z := foldr (fun d v => d + 2 * v) 0 ds.

Lemma bin_cons d ds : bin (d :: ds) = d + 2 * bin ds.
Proof. done. Qed.

Lemma bin_app xs ys : bin (xs ++ ys) = bin xs + 2 ^ Z.of_nat (length xs) * bin ys.
Proof.
  induction xs as [|x xs IH]; cbn [app length].
  - change (2 ^ Z.of_nat 0) with 1. simpl bin at 2. lia.
  - rewrite !bin_cons, IH, Nat2Z.inj_succ, Z.pow_succ_r by lia. lia.
Qed.

Lemma bin_zeros n us : bin (replicate n 0 ++ us) = 2 ^ Z.of_nat n * bin us.
Proof.
  rewrite bin_app, length_replicate. enough (bin (replicate n 0) = 0) by lia.
  induction n as [|n IH]; [done|]. cbn [replicate]. rewrite bin_cons, IH. done.
Qed.

Definition bits (us : list Z) : Prop := Forall (fun u => u = 0 \/ u = 1) us.

Lemma bin_bits us : bits us -> 0 <= bin us < 2 ^ Z.of_nat (length us).
Proof.
  induction 1 as [|u us Hu H IH]; [simpl; lia|].
  rewrite bin_cons. cbn [length]. rewrite Nat2Z.inj_succ, Z.pow_succ_r by lia. lia.
Qed.

(** ** The bits of the scalar *)

Lemma slide_bits_spec a :
  bytes a -> length a = 32%nat ->
  exists r, slide_bits a = Ret r /\ length r = 256%nat /\ bits r /\ bin r = le_val a.
Proof.
  intros Ha Hl. pose (g := fun i => (le_val a / 2 ^ Z.of_nat i) mod 2).
  exists (map g (seq 0 256)). split; [|split; [|split]].
  - unfold slide_bits. apply mapM_map. intros i Hi%elem_of_seq.
    rewrite Z.shiftr_div_pow2 by lia. change (2 ^ 3) with (Z.of_nat 8). rewrite <- Nat2Z.inj_div.
    assert (i / 8 < 32)%nat as Hi8 by (apply Nat.Div0.div_lt_upper_bound; lia).
    destruct (lookup_lt_is_Some_2 a (i / 8) ltac:(lia)) as [x Hx].
    rewrite (index_lookup a _ x) by (rewrite ?Nat2Z.id; done || lia). cbn [bind]. f_equal.
    rewrite (Z.land_comm (Z.of_nat i)). change 7 with (2 ^ 3 - 1). rewrite land_mask by lia.
    change (2 ^ 3) with (Z.of_nat 8). rewrite <- Nat2Z.inj_mod.
    change 1 with (2 ^ 1 - 1) at 1. rewrite land_mask, Z.shiftr_div_pow2 by lia. change (2 ^ 1) with 2.
    unfold g. assert (x = le_val (drop (i / 8) a) mod 256) as ->.
    { rewrite (drop_S a x _ Hx). cbn [le_val]. rewrite Z.mul_comm, Z_mod_plus_full. symmetry. apply Z.mod_small.
      exact (Forall_lookup_1 _ _ _ _ Ha Hx). }
    rewrite le_val_drop by done. set (V := le_val a).
    pose proof (Nat.div_mod_eq i 8) as Ei. set (k := (i / 8)%nat) in *. set (m := (i mod 8)%nat) in *.
    assert (m < 8)%nat as Hm by (apply Nat.mod_upper_bound; lia).
    replace (Z.of_nat i) with (8 * Z.of_nat k + Z.of_nat m) by lia.
    rewrite Z.pow_add_r, <- Z.div_div by (try apply Z.pow_pos_nonneg; try apply Z.pow_nonzero; lia).
    set (W := V / 2 ^ (8 * Z.of_nat k)). change 256 with (2 ^ 8).
    replace (2 ^ 8) with (2 ^ Z.of_nat m * (2 * 2 ^ (7 - Z.of_nat m)))
      by (rewrite <- Z.pow_succ_r, <- Z.pow_add_r by lia; f_equal; lia).
    assert (0 < 2 ^ Z.of_nat m) by (apply Z.pow_pos_nonneg; lia).
    assert (0 < 2 ^ (7 - Z.of_nat m)) by (apply Z.pow_pos_nonneg; lia).
    rewrite Z.rem_mul_r, (Z.mul_comm (2 ^ Z.of_nat m)), Z.div_add, Z.div_small, Z.add_0_l
      by (try apply Z.mod_pos_bound; lia).
    apply Z.mod_mod_divide. exists (2 ^ (7 - Z.of_nat m)). lia.
  - rewrite length_map, length_seq. done.
  - unfold bits. apply List.Forall_forall. intros x (i & <- & _)%in_map_iff. unfold g.
    pose proof (Z.mod_pos_bound (le_val a / 2 ^ Z.of_nat i) 2). lia.
  - pose proof (le_val_bound a Ha) as HV. rewrite Hl in HV. change (8 * Z.of_nat 32) with (Z.of_nat 256) in HV.
    unfold g. set (V := le_val a) in *. clearbody V. clear - HV.
    assert (forall n k, bin (map (fun i => (V / 2 ^ Z.of_nat i) mod 2) (seq k n)) =
                        (V / 2 ^ Z.of_nat k) mod 2 ^ Z.of_nat n) as H.
    { induction n as [|n IH]; intros k; [simpl; by rewrite Z.mod_1_r|]. cbn [seq map].
      rewrite bin_cons, IH, !Nat2Z.inj_succ, !Z.pow_succ_r, Z.rem_mul_r
        by (try apply Z.pow_pos_nonneg; lia).
      rewrite (Z.mul_comm 2 (2 ^ Z.of_nat k)), Z.div_div by (try apply Z.pow_nonzero; lia). done. }
    rewrite H. change (2 ^ Z.of_nat 0) with 1. rewrite Z.div_1_r. apply Z.mod_small. done.
Qed.

(** ** The carry *)

Fixpoint carry_bits (us : list Z) : list Z :=
  match us with
  | [] => []
  | u :: us' => if u =? 0 then 1 :: us' else 0 :: carry_bits us'
  end.

Lemma lookup_total_mid {A} `{!Inhabited A} (xs : list A) x ys : (xs ++ x :: ys) !!! length xs = x.
Proof. apply list_lookup_total_middle. done. Qed.

Lemma insert_mid {A} (xs : list A) x y ys : <[length xs := y]> (xs ++ x :: ys) = xs ++ y :: ys.
Proof. rewrite insert_app_r_alt, Nat.sub_diag by lia. done. Qed.

Lemma slide_carry_spec xs us :
  slide_carry (seq (length xs) (length us)) (xs ++ us) = xs ++ carry_bits us.
Proof.
  revert xs. induction us as [|u us IH]; intros xs; [done|].
  cbn [length seq slide_carry carry_bits]. rewrite lookup_total_mid.
  destruct (u =? 0); rewrite insert_mid; [done|].
  specialize (IH (xs ++ [0])). rewrite length_app, <- !app_assoc in IH. simpl in IH.
  rewrite Nat.add_1_r in IH. exact IH.
Qed.

Lemma carry_bits_spec us :
  bits us -> bin us + 1 < 2 ^ Z.of_nat (length us) ->
  length (carry_bits us) = length us /\ bits (carry_bits us) /\ bin (carry_bits us) = bin us + 1.
Proof.
  induction 1 as [|u us Hu H IH]; intros Hlt; [simpl in Hlt; lia|].
  cbn [carry_bits]. destruct (Z.eqb_spec u 0) as [->|Hne].
  - split; [done|]. split; [constructor; auto|]. rewrite !bin_cons. lia.
  - assert (u = 1) as -> by lia. rewrite bin_cons in *. cbn [length] in *.
    rewrite Nat2Z.inj_succ, Z.pow_succ_r in Hlt by lia.
    destruct (IH ltac:(lia)) as (H1 & H2 & H3). split; [lia|]. split; [constructor; auto|].
    rewrite bin_cons, H3. lia.
Qed.

(** ** One window *)

(** A digit of the recoding: zero, or odd and at most 15 in absolute value. *)
Definition odd_digit (d : Z) : Prop := d mod 2 = 1 /\ -15 <= d <= 15.
Definition slide_ok (d : Z) : Prop := d = 0 \/ odd_digit d.

Lemma pow2_le_cancel m n k : 0 <= m -> 0 <= n -> m <= n -> 2 ^ m * k < 2 ^ n + 2 ^ m -> 2 ^ m * k <= 2 ^ n.
Proof.
  intros Hm Hn Hmn H. replace n with (m + (n - m)) in * by lia. rewrite Z.pow_add_r in * by lia.
  assert (0 < 2 ^ m) by (apply Z.pow_pos_nonneg; lia).
  assert (k < 2 ^ (n - m) + 1) by nia. nia.
Qed.

(** The result of the loop over [b]: the digit [c'] and the bits above it. *)
Definition window_post (xs : list Z) (n T : Z) (r : list Z) : Prop :=
  exists c us, r = xs ++ c :: us /\ Z.of_nat (length us) = n /\ bits us /\ odd_digit c /\
    c + 2 * bin us = T /\ 2 * bin us <= 2 ^ n.

Lemma window_exit xs b us c n :
  bits us -> odd_digit c -> Z.abs c < 2 ^ (Z.of_nat b + 1) ->
  Z.of_nat b + Z.of_nat (length us) = n -> c + 2 ^ (Z.of_nat b + 1) * bin us <= 2 ^ n ->
  window_post xs n (c + 2 ^ (Z.of_nat b + 1) * bin us) (xs ++ c :: replicate b 0 ++ us).
Proof.
  intros Hus Hc Hcb Hn HT. exists c, (replicate b 0 ++ us). rewrite bin_zeros.
  rewrite Z.pow_add_r, Z.pow_1_r in * by lia.
  split; [done|]. split; [rewrite length_app, length_replicate; lia|].
  split; [apply Forall_app; split; [apply Forall_replicate; auto|done]|].
  split; [done|]. split; [lia|].
  destruct us as [|u us]; [simpl; nia|]. simpl length in Hn.
  pose proof (pow2_le_cancel (Z.of_nat b + 1) n (bin (u :: us))) as H.
  rewrite Z.pow_add_r, Z.pow_1_r in H by lia. enough (2 ^ Z.of_nat b * 2 * bin (u :: us) <= 2 ^ n) by lia.
  apply H; lia.
Qed.

Lemma replicate_snoc z us : replicate z 0 ++ 0 :: us = replicate (S z) 0 ++ us.
Proof. rewrite replicate_S_end, <- app_assoc. done. Qed.

(** The carry never runs off the end of a number below [2^255]. *)
Lemma carry_room c p q h :
  1 <= q -> 2 <= p -> 0 <= h < q -> c + p * (1 + 2 * h) <= p * q -> 15 < c + p -> -15 <= c - p -> h + 1 < q.
Proof.
  intros Hq Hp Hh HT H1 H2. destruct (Z.lt_ge_cases (h + 1) q) as [|Hge]; [done|]. exfalso.
  assert (h = q - 1) as -> by lia. assert (p * q <= p - c) by nia.
  destruct (Z.le_gt_cases c 0); [lia|]. nia.
Qed.

Lemma slide_window_spec xs k z us c n :
  (k + z = 6)%nat -> bits us -> odd_digit c -> Z.abs c < 2 ^ (Z.of_nat z + 1) ->
  Z.of_nat z + Z.of_nat (length us) = n -> (length xs + z + length us = 255)%nat ->
  c + 2 ^ (Z.of_nat z + 1) * bin us <= 2 ^ n ->
  window_post xs n (c + 2 ^ (Z.of_nat z + 1) * bin us)
    (slide_window (length xs) (seq (S z) k) (xs ++ c :: replicate z 0 ++ us)).
Proof.
  revert z us c. induction k as [|k IH]; intros z us c Hk Hus Hc Hcb Hn Hlen HT; cbn [seq slide_window].
  { by apply window_exit. }
  destruct us as [|u us].
  { destruct (Nat.ltb_spec (length xs + S z) 256); simpl in Hlen; [lia|]. by apply window_exit. }
  simpl length in Hlen, Hn. destruct (Nat.ltb_spec (length xs + S z) 256) as [_|]; [|lia]. cbn [negb].
  set (pre := xs ++ c :: replicate z 0).
  assert (xs ++ c :: replicate z 0 ++ u :: us = pre ++ u :: us) as Epre by (unfold pre; rewrite <- app_assoc; done).
  assert (length pre = length xs + S z)%nat as Hpre by (unfold pre; rewrite length_app; simpl; rewrite length_replicate; done).
  inversion_clear Hus as [|? ? Hu Hus'].
  assert ((xs ++ c :: replicate z 0 ++ u :: us) !!! (length xs + S z)%nat = u) as ->
    by (rewrite Epre, <- Hpre; apply lookup_total_mid).
  rewrite (lookup_total_mid xs).
  replace (Z.of_nat z + 1) with (Z.of_nat (S z)) in * by lia.
  assert (2 ^ (Z.of_nat (S z) + 1) = 2 * 2 ^ Z.of_nat (S z)) as E2 by (rewrite Z.pow_add_r by lia; lia).
  assert (2 <= 2 ^ Z.of_nat (S z) <= 64) as Hp.
  { change 2 with (2 ^ 1) at 1. change 64 with (2 ^ 6). split; apply Z.pow_le_mono_r; lia. }
  assert (2 ^ Z.of_nat (S z) mod 2 = 0) as Hpar.
  { rewrite Nat2Z.inj_succ, Z.pow_succ_r by lia. rewrite Z.mul_comm. apply Z.mod_mul. lia. }
  pose proof (bin_bits us Hus') as Hbin. unfold odd_digit in Hc.
  destruct Hu as [-> | ->]; cbn [Z.eqb]; rewrite bin_cons in *.
  - rewrite replicate_snoc.
    replace (c + 2 ^ Z.of_nat (S z) * (0 + 2 * bin us)) with (c + 2 ^ (Z.of_nat (S z) + 1) * bin us) in * by lia.
    apply IH; try done; try lia.
  - assert (shl 32 1 (Z.of_nat (S z)) = 2 ^ Z.of_nat (S z)) as ->.
    { unfold shl. rewrite Z.shiftl_mul_pow2 by lia. rewrite Z.mul_1_l. apply swrap_id; simpl; lia. }
    set (p := 2 ^ Z.of_nat (S z)) in *.
    destruct (Z.leb_spec (c + p) 15) as [Hadd|Hadd]; [|destruct (Z.leb_spec (-15) (c - p)) as [Hsub|Hsub]].
    + unfold s8. rewrite swrap_id by (simpl; lia). rewrite insert_mid.
      replace (<[(length xs + S z)%nat:=0]> (xs ++ (c + p) :: replicate z 0 ++ 1 :: us))
        with (xs ++ (c + p) :: replicate (S z) 0 ++ us).
      2: { rewrite <- replicate_snoc.
           assert (length (xs ++ (c + p) :: replicate z 0) = (length xs + S z)%nat) as <-
             by (rewrite length_app; simpl; rewrite length_replicate; done).
           pose proof (insert_mid (xs ++ (c + p) :: replicate z 0) 1 0 us) as E. rewrite <- !app_assoc in E. done. }
      replace (c + p * (1 + 2 * bin us)) with (c + p + 2 ^ (Z.of_nat (S z) + 1) * bin us) in * by lia.
      apply IH; try done; try lia. split; [|lia]. rewrite Zplus_mod, Hpar, Z.add_0_r, Z.mod_mod by lia. tauto.
    + unfold s8. rewrite swrap_id by (simpl; lia). rewrite insert_mid.
      assert (length (xs ++ (c - p) :: replicate z 0) = (length xs + S z)%nat) as Hpre'
        by (rewrite length_app; simpl; rewrite length_replicate; done).
      replace (256 - (length xs + S z))%nat with (length (1 :: us)) by (simpl; lia).
      pose proof (slide_carry_spec (xs ++ (c - p) :: replicate z 0) (1 :: us)) as Ec.
      rewrite Hpre', <- !app_assoc in Ec. simpl app in Ec. rewrite Ec. clear Ec.
      assert (bin us + 1 < 2 ^ Z.of_nat (length us)) as Hroom.
      { apply (carry_room c p _ (bin us)); try lia. 
        replace (p * 2 ^ Z.of_nat (length us)) with (2 ^ n); [done|].
        unfold p. rewrite <- Z.pow_add_r by lia. f_equal. lia. }
      destruct (carry_bits_spec us Hus' Hroom) as (Hcl & Hcb' & Hcv).
      cbn [carry_bits Z.eqb]. rewrite replicate_snoc.
      replace (c + p * (1 + 2 * bin us)) with (c - p + 2 ^ (Z.of_nat (S z) + 1) * bin (carry_bits us)) in * by lia.
      apply IH; try done; try lia. split; [|lia]. rewrite Zminus_mod, Hpar, Z.sub_0_r, Z.mod_mod by lia. tauto.
    + replace p with (2 ^ (Z.of_nat z + 1)) in * by (unfold p; f_equal; lia).
      rewrite <- bin_cons in *. apply window_exit; try done; try lia. constructor; auto.
Qed.

(** ** The whole recoding *)

Definition slide_inv (V : Z) (i : nat) (r : list Z) : Prop :=
  exists xs us, r = xs ++ us /\ length xs = i /\ (i + length us = 256)%nat /\
    Forall slide_ok xs /\ bits us /\ bin xs + 2 ^ Z.of_nat i * bin us = V /\
    2 * bin us <= 2 ^ (256 - Z.of_nat i).

Lemma slide_digit_inv V i r : (i < 256)%nat -> slide_inv V i r -> slide_inv V (S i) (slide_digit r i).
Proof.
  intros Hi (xs & us & -> & Hxs & Hlen & Hok & Hus & EV & Hb). subst i.
  destruct us as [|u us]; [simpl in Hlen; lia|]. simpl in Hlen.
  assert (Hp : 2 ^ (256 - Z.of_nat (length xs)) = 2 * 2 ^ (255 - Z.of_nat (length xs)))
    by (rewrite <- Z.pow_succ_r by lia; f_equal; lia).
  assert (Hp' : 2 ^ Z.of_nat (S (length xs)) = 2 * 2 ^ Z.of_nat (length xs)) by (rewrite Nat2Z.inj_succ, Z.pow_succ_r by lia; done).
  assert (Hnext : forall c us', length us' = length us -> slide_ok c -> bits us' ->
    c + 2 * bin us' = bin (u :: us) -> 2 * bin us' <= 2 ^ (255 - Z.of_nat (length xs)) ->
    slide_inv V (S (length xs)) (xs ++ c :: us')).
  { intros c us' Hl Hc Hus' Ev Hb'. exists (xs ++ [c]), us'. rewrite <- app_assoc. split; [done|].
    split; [rewrite length_app; simpl; lia|]. split; [lia|].
    split; [apply Forall_app; split; [done|constructor; [done|constructor]]|]. split; [done|].
    split; [|replace (256 - Z.of_nat (S (length xs))) with (255 - Z.of_nat (length xs)) by lia; exact Hb'].
    rewrite bin_app, Hp', <- EV, <- Ev. simpl bin at 2. lia. }
  unfold slide_digit. rewrite lookup_total_mid.
  inversion_clear Hus as [|? ? Hu Hus']. rewrite bin_cons in Hb.
  destruct Hu as [-> | ->]; cbn [Z.eqb].
  - apply Hnext; try done; [by left | lia].
  - pose proof (slide_window_spec xs 6 0 us 1 (255 - Z.of_nat (length xs))) as H.
    change (2 ^ (Z.of_nat 0 + 1)) with 2 in H. rewrite bin_cons in Hnext.
    destruct H as (c & us' & E & Hl' & Hus'' & Hc & Ev & Hb'); [lia | exact Hus' | split; [done|lia] | lia | lia | lia | lia |].
    change (replicate 0 0 ++ us) with us in E. change (seq 1 6) with [1; 2; 3; 4; 5; 6]%nat in E. rewrite E.
    apply Hnext; try done; [lia | by right].
Qed.

Lemma slide_spec a :
  bytes a -> length a = 32%nat -> a !!! 31%nat <= 127 ->
  exists r, slide a = Ret r /\ length r = 256%nat /\ Forall slide_ok r /\ bin r = le_val a.
Proof.
  intros Ha Hl H31. unfold slide. destruct (slide_bits_spec a Ha Hl) as (r & -> & Hlr & Hr & Ev). cbn [bind].
  pose proof (top_byte_bound a Ha Hl H31) as HV.
  assert (slide_inv (le_val a) 0 r) as H0.
  { exists [], r. split; [done|]. split; [done|]. split; [done|]. split; [constructor|]. split; [done|].
    rewrite Ev. change (2 ^ Z.of_nat 0) with 1. change (bin []) with 0. change (256 - Z.of_nat 0) with 256. lia. }
  assert (forall n i s, slide_inv (le_val a) i s -> (i + n <= 256)%nat ->
    slide_inv (le_val a) (i + n) (foldl slide_digit s (seq i n))) as Hloop.
  { induction n as [|n IH]; intros i s Hs Hi; cbn [seq foldl]; [rewrite Nat.add_0_r; exact Hs|].
    replace (i + S n)%nat with (S i + n)%nat by lia. apply IH; [apply slide_digit_inv; [lia|exact Hs]|lia]. }
  destruct (Hloop 256%nat 0%nat r H0 ltac:(lia)) as (xs & us & E & Hxs & Hlen & Hok & _ & EV & _).
  destruct us as [|? ?]; [|simpl in Hlen; lia]. rewrite app_nil_r in E.
  exists xs. rewrite E. split; [done|]. split; [exact Hxs|]. split; [done|].
  change (bin []) with 0 in EV. lia.
Qed.

(** ** The double multiplication loop *)

Section Digit.
(** A table of odd multiples and the additions that go with it. *)
Context {A : Type} (add sub : ge_p3 -> A -> outcome ge_p1p1) (tbl : list A) (Q : point).
Context (arep : A -> point -> Prop).
Context (add_ok : forall p P q R, p3_rep p P -> arep q R -> yields (add p q) (fun r => p1p1_rep r (P + R)%pt)).
Context (sub_ok : forall p P q R, p3_rep p P -> arep q R -> yields (sub p q) (fun r => p1p1_rep r (P - R)%pt)).
Context (tbl_len : length tbl = 8%nat).
Context (tbl_ok : forall i q, tbl !! i = Some q -> arep q (zmul (2 * Z.of_nat i + 1) Q)).

Lemma odd_entry d : 0 < d <= 15 -> d mod 2 = 1 ->
  exists q, index tbl (Z.quot d 2) = Ret q /\ arep q (zmul d Q).
Proof.
  intros Hd Hodd. rewrite Z.quot_div_nonneg by lia. pose proof (Z.div_mod d 2 ltac:(lia)) as E.
  destruct (lookup_lt_is_Some_2 tbl (Z.to_nat (d / 2)) ltac:(lia)) as [q Hq]. exists q.
  split; [apply index_lookup; [lia|done]|]. apply tbl_ok in Hq. rewrite Z2Nat.id in Hq by lia.
  replace d with (2 * (d / 2) + 1) by lia. exact Hq.
Qed.

Lemma dsm_digit_spec d t P :
  slide_ok d -> p1p1_rep t P -> yields (dsm_digit add sub tbl d t) (fun r => p1p1_rep r (P + zmul d Q)%pt).
Proof.
  intros Hd Ht. unfold dsm_digit. destruct (Z.ltb_spec 0 d) as [Hp|Hp].
  - destruct Hd as [->|[Hodd Hr]]; [lia|]. ge_step.
    destruct (odd_entry d ltac:(lia) Hodd) as (q & -> & Hq). cbn [bind]. by apply add_ok.
  - destruct (Z.ltb_spec d 0) as [Hn|Hn].
    + destruct Hd as [->|[Hodd Hr]]; [lia|]. ge_step.
      destruct (odd_entry (- d)) as (q & -> & Hq); [lia|rewrite Z.mod_opp_l_nz; lia|]. cbn [bind].
      replace (zmul d Q) with (- zmul (- d) Q)%pt by (rewrite zmul_opp; apply ptopp_opp). by apply sub_ok.
    + assert (d = 0) as -> by lia. apply yields_ret. rewrite zmul_0, (right_id pt0 ptadd). done.
Qed.
End Digit.

Lemma top_digit_spec a b n :
  length a = 256%nat -> length b = 256%nat -> (n <= 256)%nat -> bin (drop n a) = 0 -> bin (drop n b) = 0 ->
  let m := top_digit a b n in (m <= n)%nat /\ bin (drop m a) = 0 /\ bin (drop m b) = 0.
Proof.
  intros Ha Hb. induction n as [|i IH]; intros Hn Ea Eb; cbn [top_digit]; [done|].
  destruct ((a !!! i =? 0) && (b !!! i =? 0)) eqn:E; [|done].
  rewrite andb_true_iff, !Z.eqb_eq in E. destruct E as [E1 E2].
  destruct (lookup_lt_is_Some_2 a i ltac:(lia)) as [x Hx]. rewrite (list_lookup_total_correct a i x Hx) in E1.
  destruct (lookup_lt_is_Some_2 b i ltac:(lia)) as [y Hy]. rewrite (list_lookup_total_correct b i y Hy) in E2.
  subst x y. destruct IH as (H1 & H2 & H3); [lia| | |split; [lia|done]].
  - rewrite (drop_S a 0 i Hx), bin_cons, Ea. done.
  - rewrite (drop_S b 0 i Hy), bin_cons, Eb. done.
Qed.

Lemma pt_shuffle a b c e : (a + b + c + e = c + a + (e + b))%pt.
Proof.
  rewrite (comm ptadd e b), (assoc ptadd (c + a)%pt b e). f_equal.
  rewrite <- (assoc ptadd a b c), (comm ptadd b c), (assoc ptadd a c b), (comm ptadd a c). done.
Qed.

Section Loop.
Context {A B : Type} (addA subA : ge_p3 -> A -> outcome ge_p1p1) (tblA : list A) (P : point)
        (addB subB : ge_p3 -> B -> outcome ge_p1p1) (tblB : list B) (Q : point).
Context (digitA : forall d t R, slide_ok d -> p1p1_rep t R ->
  yields (dsm_digit addA subA tblA d t) (fun r => p1p1_rep r (R + zmul d P)%pt)).
Context (digitB : forall d t R, slide_ok d -> p1p1_rep t R ->
  yields (dsm_digit addB subB tblB d t) (fun r => p1p1_rep r (R + zmul d Q)%pt)).
Context (a b : list Z) (Ha : length a = 256%nat) (Hb : length b = 256%nat)
        (Oa : Forall slide_ok a) (Ob : Forall slide_ok b).

Lemma dsm_loop_spec n r :
  (n <= 256)%nat -> p2_rep r (zmul (bin (drop n a)) P + zmul (bin (drop n b)) Q)%pt ->
  yields (dsm_loop addA subA tblA addB subB tblB a b n r)
    (fun r => p2_rep r (zmul (bin a) P + zmul (bin b) Q)%pt).
Proof.
  revert r. induction n as [|i IH]; intros r Hn Hr; cbn [dsm_loop]; [apply yields_ret; exact Hr|].
  destruct (lookup_lt_is_Some_2 a i ltac:(lia)) as [x Hx]. rewrite (list_lookup_total_correct a i x Hx).
  destruct (lookup_lt_is_Some_2 b i ltac:(lia)) as [y Hy]. rewrite (list_lookup_total_correct b i y Hy).
  ge_step. eapply yields_bind; [apply digitA; [exact (Forall_lookup_1 _ _ _ _ Oa Hx)|eassumption]|].
  intros t1 Ht1. cbv beta in Ht1.
  eapply yields_bind; [apply digitB; [exact (Forall_lookup_1 _ _ _ _ Ob Hy)|eassumption]|].
  intros t2 Ht2. cbv beta in Ht2. ge_step. apply IH; [lia|].
  rewrite (drop_S a x i Hx), (drop_S b y i Hy), !bin_cons.
  match goal with H : p2_rep ?r ?R |- p2_rep ?r ?R' => replace R' with R; [exact H|] end.
  rewrite <- zmul_2, zmul_dist, <- !zmul_mul, !zmul_add.
  apply pt_shuffle.
Qed.

Lemma dsm_run :
  yields (dsm_loop addA subA tblA addB subB tblB a b (top_digit a b 256) ge_p2_0)
    (fun r => p2_rep r (zmul (bin a) P + zmul (bin b) Q)%pt).
Proof.
  destruct (top_digit_spec a b 256 Ha Hb) as (H1 & H2 & H3); [lia|rewrite drop_ge by lia; done..|].
  apply dsm_loop_spec; [done|]. rewrite H2, H3, !zmul_0, (left_id pt0 ptadd). exact ge_p2_0_spec.
Qed.
End Loop.

Lemma dsm_next_spec s2 P r k :
  p3_rep s2 (zmul 2 P) -> cached_rep r (zmul k P) ->
  yields (dsm_next s2 r) (fun r => cached_rep r (zmul (2 + k) P)).
Proof. intros Hs Hr. unfold dsm_next. repeat ge_step. rewrite zmul_add. ge_call. Qed.

Lemma ge_dsm_precomp_spec s P :
  p3_rep s P ->
  yields (ge_dsm_precomp s) (fun l => length l = 8%nat /\
    forall i q, l !! i = Some q -> cached_rep q (zmul (2 * Z.of_nat i + 1) P)).
Proof.
  intros Hs. unfold ge_dsm_precomp. repeat ge_step.
  match goal with H : cached_rep _ P |- _ => rewrite <- (zmul_1 P) in H end.
  match goal with H : p3_rep _ (P + P)%pt |- _ => rewrite <- (zmul_2 P) in H end.
  do 7 (eapply yields_bind; [eapply dsm_next_spec; eassumption|];
        let r := fresh "r" in let H := fresh "H" in intros r H; cbv beta in H).
  apply yields_ret. split; [done|].
  intros i q Hq. do 8 (destruct i as [|i]; [injection Hq as <-;
    match goal with H : cached_rep ?r (zmul ?n P) |- cached_rep ?r (zmul ?m P) =>
      replace m with n by lia; exact H end|]). discriminate Hq.
Qed.

Lemma ge_double_scalarmult_base_vartime_spec a A b P :
  bytes a -> length a = 32%nat -> a !!! 31%nat <= 127 ->
  bytes b -> length b = 32%nat -> b !!! 31%nat <= 127 -> p3_rep A P ->
  yields (ge_double_scalarmult_base_vartime a A b)
    (fun r => p2_rep r (zmul (le_val a) P + zmul (le_val b) base_point)%pt).
Proof.
  intros Ha La Ha31 Hb Lb Hb31 HA. unfold ge_double_scalarmult_base_vartime.
  destruct (slide_spec a Ha La Ha31) as (ra & -> & Hla & Oa & <-). cbn [bind].
  destruct (slide_spec b Hb Lb Hb31) as (rb & -> & Hlb & Ob & <-). cbn [bind].
  eapply yields_bind; [exact (ge_dsm_precomp_spec A P HA)|]. intros Ai [HlA Hent].
  apply dsm_run; try done; intros d t R.
  - apply (dsm_digit_spec ge_add ge_sub Ai P cached_rep ge_add_spec ge_sub_spec HlA Hent).
  - apply (dsm_digit_spec ge_madd ge_msub ge_Bi base_point precomp_rep ge_madd_spec ge_msub_spec eq_refl ge_Bi_spec).
Qed.

Lemma ge_double_scalarmult_precomp_vartime_spec a A b P Bi Q :
  bytes a -> length a = 32%nat -> a !!! 31%nat <= 127 ->
  bytes b -> length b = 32%nat -> b !!! 31%nat <= 127 -> p3_rep A P ->
  length Bi = 8%nat -> (forall i q, Bi !! i = Some q -> cached_rep q (zmul (2 * Z.of_nat i + 1) Q)) ->
  yields (ge_double_scalarmult_precomp_vartime a A b Bi)
    (fun r => p2_rep r (zmul (le_val a) P + zmul (le_val b) Q)%pt).
Proof.
  intros Ha La Ha31 Hb Lb Hb31 HA LB HB. unfold ge_double_scalarmult_precomp_vartime.
  destruct (slide_spec a Ha La Ha31) as (ra & -> & Hla & Oa & <-). cbn [bind].
  destruct (slide_spec b Hb Lb Hb31) as (rb & -> & Hlb & Ob & <-). cbn [bind].
  eapply yields_bind; [exact (ge_dsm_precomp_spec A P HA)|]. intros Ai [HlA Hent].
  apply dsm_run; try done; intros d t R.
  - apply (dsm_digit_spec ge_add ge_sub Ai P cached_rep ge_add_spec ge_sub_spec HlA Hent).
  - apply (dsm_digit_spec ge_add ge_sub Bi Q cached_rep ge_add_spec ge_sub_spec LB HB).
Qed.

(** ** Properties *)

(** [slide] recodes a scalar below 2^255 into 256 signed digits of the same value, each 0 or odd
    and between -15 and 15, so that every table lookup of the double multiplications is in range. *)
Theorem slide_correct (a : list Z) :
  bytes a -> length a = 32%nat -> a !!! 31%nat <= 127 ->
  exists r, slide a = Ret r /\ length r = 256%nat /\ Forall slide_ok r /\ bin r = le_val a.
Proof. exact (slide_spec a). Qed.

Lemma slide_correct_witness :
  exists r, slide some_scalar = Ret r /\ length r = 256%nat /\ Forall slide_ok r /\ bin r = le_val some_scalar.
Proof. destruct some_scalar_ok as (H1 & H2 & H3). exact (slide_correct some_scalar H1 H2 H3). Defined.

(** Outside that range the recoding is not faithful: the carry out of bit 255 is dropped, and the
    scalar 2^256 - 1 is recoded as -1, although the comment above the double multiplication puts no
    bound on its scalars. *)
Theorem slide_drops_top_carry :
  let a := replicate 32 255 in
  exists r, slide a = Ret r /\ le_val a = 2 ^ 256 - 1 /\ bin r = -1.
Proof. cbv zeta. eexists. split; [vm_compute; reflexivity|]. split; vm_compute; reflexivity. Qed.

(** C3: [ge_double_scalarmult_base_vartime] returns [a*A + b*B] for scalars below 2^255, the top zero
    digits skipped included. *)
Theorem ge_double_scalarmult_base_vartime_correct (a b : list Z) (A : ge_p3) (P : point) :
  bytes a -> length a = 32%nat -> a !!! 31%nat <= 127 ->
  bytes b -> length b = 32%nat -> b !!! 31%nat <= 127 -> p3_rep A P ->
  yields (ge_double_scalarmult_base_vartime a A b)
    (fun r => p2_rep r (zmul (le_val a) P + zmul (le_val b) base_point)%pt).
Proof. intros. by apply ge_double_scalarmult_base_vartime_spec. Qed.

Lemma ge_double_scalarmult_base_vartime_correct_witness :
  yields (ge_double_scalarmult_base_vartime some_scalar ge_p3_0 some_scalar)
    (fun r => p2_rep r (zmul (le_val some_scalar) pt0 + zmul (le_val some_scalar) base_point)%pt).
Proof.
  destruct some_scalar_ok as (H1 & H2 & H3).
  exact (ge_double_scalarmult_base_vartime_correct some_scalar some_scalar ge_p3_0 pt0
    H1 H2 H3 H1 H2 H3 ge_p3_0_spec).
Defined.

(** [ge_dsm_precomp] tabulates the odd multiples, and with its table
    [ge_double_scalarmult_precomp_vartime] returns [a*A + b*Q] for any two points and scalars below
    2^255. *)
Theorem ge_double_scalarmult_precomp_vartime_correct (a b : list Z) (A q : ge_p3) (P Q : point) :
  bytes a -> length a = 32%nat -> a !!! 31%nat <= 127 ->
  bytes b -> length b = 32%nat -> b !!! 31%nat <= 127 -> p3_rep A P -> p3_rep q Q ->
  yields (let* Bi := ge_dsm_precomp q in ge_double_scalarmult_precomp_vartime a A b Bi)
    (fun r => p2_rep r (zmul (le_val a) P + zmul (le_val b) Q)%pt).
Proof.
  intros. eapply yields_bind; [apply ge_dsm_precomp_spec; eassumption|]. intros Bi [Hl HB].
  by apply ge_double_scalarmult_precomp_vartime_spec.
Qed.

Lemma ge_double_scalarmult_precomp_vartime_correct_witness :
  yields (let* Bi := ge_dsm_precomp ge_p3_0 in
          ge_double_scalarmult_precomp_vartime some_scalar ge_p3_0 some_scalar Bi)
    (fun r => p2_rep r (zmul (le_val some_scalar) pt0 + zmul (le_val some_scalar) pt0)%pt).
Proof.
  destruct some_scalar_ok as (H1 & H2 & H3).
  exact (ge_double_scalarmult_precomp_vartime_correct some_scalar some_scalar ge_p3_0 ge_p3_0 pt0 pt0
    H1 H2 H3 H1 H2 H3 ge_p3_0_spec ge_p3_0_spec).
Defined.
