(* ===== verification/FromFe.v ===== *)
(** Hashing to the curve: [ge_fromfe_frombytes_vartime] maps every 32-byte
    string to a point of the curve, none of its assertions can fail, and the
    point is the one of the Elligator map. *)

From S2P Require Import Prelude Limbs Bytes Field FieldFacts FieldBytes Prime Fp Tables FieldPow Curve Group GroupFacts Encoding ScalarMult.

(** ** Constants *)

(** The coefficient of the Montgomery form. *)
Definition mont_A : F := inF 486662.

Lemma rep_fe_ma : rep 16 fe_ma (- mont_A)%F.
Proof.
  split; [repeat constructor; vm_compute; congruence|]. apply Zmod.to_Z_inj. vm_compute. reflexivity.
Qed.

Lemma rep_fe_ma2 : rep 16 fe_ma2 (- (mont_A * mont_A))%F.
Proof.
  split; [repeat constructor; vm_compute; congruence|]. apply Zmod.to_Z_inj. vm_compute. reflexivity.
Qed.

(** The square roots the comments of crypto-ops-data.c announce. *)
Lemma fffb_squares :
  let A2 := (mont_A * (mont_A + (1 + 1)))%F in let i := fval fe_sqrtm1 in
  (fval fe_fffb1 * fval fe_fffb1 = - ((1 + 1) * A2) /\
   fval fe_fffb2 * fval fe_fffb2 = (1 + 1) * A2 /\
   fval fe_fffb3 * fval fe_fffb3 = - (i * A2) /\
   fval fe_fffb4 * fval fe_fffb4 = i * A2)%F.
Proof. cbv zeta. split; [|split; [|split]]; apply Zmod.to_Z_inj; vm_compute; reflexivity. Qed.

Lemma rep_fffb :
  rep 16 fe_fffb1 (fval fe_fffb1) /\ rep 16 fe_fffb2 (fval fe_fffb2) /\
  rep 16 fe_fffb3 (fval fe_fffb3) /\ rep 16 fe_fffb4 (fval fe_fffb4).
Proof. split; [|split; [|split]]; apply rep_const; repeat constructor; vm_compute; congruence. Qed.

(** [d = -(A-2)/(A+2)] *)
Lemma curve_d_mont : (curve_d * (mont_A + (1 + 1)) = - (mont_A - (1 + 1)))%F.
Proof. rewrite curve_d_val. apply Zmod.to_Z_inj. vm_compute. reflexivity. Qed.

Lemma mont_A2_nonzero : (mont_A + (1 + 1) <> 0)%F.
Proof. intros E. apply (f_equal Zmod.to_Z) in E. vm_compute in E. discriminate E. Qed.

Lemma mont_A_nonzero : (mont_A <> 0)%F.
Proof. intros E. apply (f_equal Zmod.to_Z) in E. vm_compute in E. discriminate E. Qed.

#[local] Opaque mont_A.

(** 2 is not a square: [2 = (1+i)^2 / i], and [i] has no square root since
    [p - 1] is 4 times an odd number. *)
Lemma two_nonsquare (s : F) : (s * s <> 1 + 1)%F.
Proof.
  intros E. set (i := fval fe_sqrtm1). pose proof sqrtm1_sq as Hi. fold i in Hi.
  assert (s <> 0)%F as Hs.
  { intros ->. apply F_two_neq_zero. rewrite <- E. ring. }
  set (t := ((1 + i) / s)%F).
  assert (t * t = i)%F as Ht.
  { transitivity ((1 + (i + i) + i * i) / (s * s))%F; [unfold t; field; exact Hs|]. rewrite Hi, E.
    field. exact F_two_neq_zero. }
  assert (t <> 0)%F as Ht0.
  { intros E0. apply F_one_neq_zero. transitivity (- (i * i))%F; [rewrite Hi; ring|]. rewrite <- Ht, E0. ring. }
  pose proof (F_fermat t Ht0) as Hf. pose proof sqrt_exp_pos.
  replace (prime_p - 1) with (4 * (2 * sqrt_exp + 1)) in Hf by (rewrite prime_p_8; lia).
  rewrite Zmod.pow_mul_r_nonneg in Hf by lia.
  replace (t ^ 4)%F with (- (1))%F in Hf.
  2: { change 4 with (1 + 1 + 1 + 1). rewrite !F_pow_add, Zmod.pow_1_r by lia.
       transitivity (i * i)%F; [symmetry; exact Hi|]. rewrite <- Ht. ring. }
  rewrite F_pow_add, Zmod.pow_1_r, Zmod.pow_mul_r_nonneg in Hf by lia.
  replace ((- (1)) ^ 2)%F with 1%F in Hf by (rewrite Zmod.pow_2_r; ring).
  rewrite Zmod.pow_1_l in Hf. apply F_two_neq_zero. rewrite <- Hf at 1. ring.
Qed.

(** ** The map on coordinates *)

Section Elligator.
(** [z/w] is the Montgomery abscissa, [X] the Edwards one. *)
Context (X z w : F).
Let K := (z * z + mont_A * z * w + w * w)%F.
Context (HK : K <> 0%F) (HX : (X * X * K = - ((mont_A + (1 + 1)) * z * w))%F).

Lemma elligator_denominator : (z + w <> 0)%F.
Proof.
  intros E. assert (z = - w)%F as Ez by (apply F_sub_zero; rewrite <- E; ring).
  assert (K = - (mont_A - (1 + 1)) * (w * w))%F as EK by (unfold K; rewrite Ez; ring).
  assert (w <> 0)%F as Hw by (intros E0; apply HK; rewrite EK, E0; ring).
  assert (curve_d * (X * X) = 1)%F as Ed.
  { apply F_sub_zero, (F_mul_zero_l (w * w * (mont_A + (1 + 1)))%F).
    2: { repeat apply F_mul_nonzero; try exact Hw. exact mont_A2_nonzero. }
    transitivity (X * X * (curve_d * (mont_A + (1 + 1)) * (w * w)) - (mont_A + (1 + 1)) * (w * w))%F; [ring|].
    rewrite curve_d_mont. replace (- (mont_A - (1 + 1)) * (w * w))%F with K. rewrite HX, Ez. ring. }
  apply (d_sq_neq X). rewrite Ed. ring.
Qed.

Lemma elligator_on_curve : on_curve X ((z - w) / (z + w))%F.
Proof.
  pose proof elligator_denominator as HZ. set (Z := (z + w)%F) in *.
  unfold on_curve. apply F_sub_zero, (F_mul_zero_l ((mont_A + (1 + 1)) * (Z * Z))%F).
  2: { repeat apply F_mul_nonzero; try exact HZ. exact mont_A2_nonzero. }
  transitivity ((mont_A + (1 + 1)) * ((z - w) * (z - w) - Z * Z) -
    X * X * ((mont_A + (1 + 1)) * (Z * Z) + curve_d * (mont_A + (1 + 1)) * ((z - w) * (z - w))))%F;
    [field; exact HZ|].
  rewrite curve_d_mont.
  transitivity (- ((1 + 1) * (1 + 1) * ((mont_A + (1 + 1)) * z * w)) - (1 + 1) * (1 + 1) * (X * X * K))%F;
    [unfold Z, K; ring|]. rewrite HX. ring.
Qed.
End Elligator.

(** [x = w^2 - A^2 v] never vanishes. *)
Lemma elligator_x_nonzero (u : F) :
  let v := (u * u + u * u)%F in let w := (v + 1)%F in (w * w - mont_A * mont_A * v <> 0)%F.
Proof.
  intros v w E. assert (w * w = mont_A * mont_A * v)%F as E' by (by apply F_sub_zero).
  destruct (decide (u = 0)%F) as [Hu|Hu].
  - apply F_one_neq_zero. transitivity (w * w)%F; [unfold w, v; rewrite Hu; ring|]. rewrite E'. unfold v.
    rewrite Hu. ring.
  - pose proof mont_A_nonzero as HA. apply (two_nonsquare (w / (mont_A * u))%F).
    transitivity (w * w / (mont_A * mont_A * (u * u)))%F; [field; split; assumption|]. rewrite E'. unfold v.
    field. split; assumption.
Qed.

(** [x X0^2] is [w] times a fourth root of unity. *)
Lemma divpowm1_cases (u v : F) :
  v <> 0%F -> let x := divpowm1 u v in let i := fval fe_sqrtm1 in
  (v * (x * x) = u \/ v * (x * x) = - u \/ v * (x * x) = i * u \/ v * (x * x) = - (i * u))%F.
Proof.
  intros Hv x i. pose proof (divpowm1_sq u v) as E. fold x in E. cbv zeta in E. rewrite E.
  set (w := (v * v * v * (v * v * v) * v * u)%F) in *.
  destruct (decide (u = 0)%F) as [->|Hu]; [left; ring|]. pose proof sqrt_exp_pos.
  assert (w <> 0%F) as Hw by (unfold w; repeat apply F_mul_nonzero; assumption).
  pose proof (F_fermat w Hw) as Hf.
  replace (prime_p - 1) with ((2 * sqrt_exp + 1 + (2 * sqrt_exp + 1)) + (2 * sqrt_exp + 1 + (2 * sqrt_exp + 1))) in Hf
    by (rewrite prime_p_8; lia).
  set (e := 2 * sqrt_exp + 1) in *. rewrite !F_pow_add in Hf by lia. set (rho := (w ^ e)%F) in *.
  pose proof sqrtm1_sq as Hi. fold i in Hi.
  apply F_sqrt_1 in Hf as [Hf|Hf].
  - apply F_sqrt_1 in Hf as [-> | ->]; [left; ring|right; left; ring].
  - assert ((rho - i) * (rho + i) = 0)%F as Hz
      by (transitivity (rho * rho - i * i)%F; [ring|]; rewrite Hf, Hi; ring).
    right; right. apply F_mul_zero in Hz as [Hz|Hz]; [left|right].
    + rewrite (F_sub_zero _ _ Hz). ring.
    + replace rho with (rho + i - i)%F by ring. rewrite Hz. ring.
Qed.

(** ** The end of the function *)

Definition fromfe_post (z w : F) (sign : Z) (r : ge_p2) : Prop :=
  exists P, p2_rep_wide r P /\ ((z + w) * py P = z - w)%F /\ Zmod.to_Z (px P) mod 2 = sign.

Lemma check_on_curve_spec r P : p2_rep_wide r P -> yields (check_on_curve r) (fun _ => True).
Proof.
  intros (z & Hz & HX & HY & HZ). unfold check_on_curve. pose proof rep_fe_d as Hd. pose proof rep_fe_1 as H1.
  eapply yields_bind; [exact (fe_invert_spec 33 _ _ HZ ltac:(lia))|]. intros iz Hiz. cbv beta in Hiz.
  do 2 fe_step. match goal with Hx : rep 16 ?a (px P * z * / z)%F, Hy : rep 16 ?b (py P * z * / z)%F |- _ =>
    rewrite (ratio _ z Hz) in Hx; rewrite (ratio _ z Hz) in Hy end.
  repeat fe_step. erewrite rep_isnonzero by (eassumption || lia). cbn [bind].
  rewrite decide_True; [apply yields_ret; exact Logic.I|].
  pose proof (on_curve_zero _ _ (on_point P)) as Hc.
  transitivity (- (py P * py P - px P * px P - (1 + curve_d * (px P * px P) * (py P * py P))))%F; [ring|].
  rewrite Hc. ring.
Qed.

Lemma setsign_spec X z w x zz ww sign :
  rep 16 X x -> rep 16 z zz -> rep 17 w ww -> sign = 0 \/ sign = 1 -> (sign = 1 -> x <> 0%F) ->
  (zz * zz + mont_A * zz * ww + ww * ww <> 0)%F ->
  (x * x * (zz * zz + mont_A * zz * ww + ww * ww) = - ((mont_A + (1 + 1)) * zz * ww))%F ->
  yields (fromfe_setsign X z w sign) (fromfe_post zz ww sign).
Proof.
  intros HX Hz Hw Hs Hx1 HK HE. unfold fromfe_setsign.
  erewrite rep_isnegative by (eassumption || lia). cbn [bind].
  pose proof (Z.mod_pos_bound (Zmod.to_Z x) 2 ltac:(lia)) as Hb.
  eapply (yields_bind _ _ (fun X' => exists x', rep 16 X' x' /\ (x' * x' = x * x)%F /\ Zmod.to_Z x' mod 2 = sign)).
  { destruct (Z.eqb_spec (Zmod.to_Z x mod 2) sign) as [Es|Es].
    - apply yields_ret. exists x. auto.
    - assert (x <> 0%F) as Hx.
      { destruct Hs as [-> | ->]; [|auto]. intros ->. apply Es. reflexivity. }
      erewrite rep_isnonzero by (eassumption || lia). cbn [bind]. rewrite decide_False by exact Hx.
      cbn [Z.eqb negb assert bind]. eapply yields_mono; [fe_call|]. intros X' HX'. cbv beta in HX'.
      exists (- x)%F. split; [exact HX'|]. split; [ring|]. rewrite parity_opp by exact Hx. lia. }
  intros X' (x' & HX' & Exx & Epar). rewrite <- Exx in HE.
  repeat fe_step. pose proof (elligator_denominator x' zz ww HK HE) as HZ.
  pose proof (elligator_on_curve x' zz ww HK HE) as Hc.
  pose (P := Pt x' ((zz - ww) / (zz + ww))%F (proj2 (on_curveb_spec _ _) Hc)).
  assert ((zz + ww) * py P = zz - ww)%F as Ey by (unfold P, py; field; exact HZ).
  cbv zeta. match goal with |- yields (bind (check_on_curve ?r) _) _ => assert (p2_rep_wide r P) as HP end.
  { exists (zz + ww)%F. split; [exact HZ|]. cbn [p2_X p2_Y p2_Z].
    split; [eapply rep_eq; [eassumption|lia|reflexivity]|].
    split; [eapply rep_eq; [eassumption|lia|rewrite <- Ey; ring]|]. assumption. }
  eapply yields_bind; [exact (check_on_curve_spec _ _ HP)|]. intros _ _. apply yields_ret.
  exists P. split; [exact HP|]. split; [exact Ey|exact Epar].
Qed.

(** ** The whole map

    The Elligator map: with [v = 2 u^2], [w = v + 1] and [x = w^2 - A^2 v], the
    Montgomery abscissa is [-A v / w] when [w x] is a square and [-A / w]
    otherwise; the Edwards ordinate is the Moebius image of it, and the parity
    of the Edwards abscissa tells the two cases apart. *)

Definition is_square (a : F) : Prop := exists s, (s * s = a)%F.

Definition elligator (u : F) (P : point) : Prop :=
  let v := (u * u + u * u)%F in
  let w := (v + 1)%F in
  let x := (w * w - mont_A * mont_A * v)%F in
  (is_square (w * x) /\
   ((w - mont_A * v) * py P = - (w + mont_A * v))%F /\ Zmod.to_Z (px P) mod 2 = 0) \/
  (~ is_square (w * x) /\
   ((w - mont_A) * py P = - (w + mont_A))%F /\ Zmod.to_Z (px P) mod 2 = 1).

Section FromFe.
Context (u : F).
Let v := (u * u + u * u)%F.
Let w := (v + 1)%F.
Let x := (w * w - mont_A * mont_A * v)%F.
Let X0 := divpowm1 w x.
Let i := fval fe_sqrtm1.

Lemma fromfe_x_nonzero : x <> 0%F.
Proof. exact (elligator_x_nonzero u). Qed.

(** Which of the two fourth roots of unity families occurs. *)
Lemma fromfe_square : (x * (X0 * X0) = w \/ x * (X0 * X0) = - w)%F -> is_square (w * x).
Proof.
  intros [E|E].
  - exists (x * X0)%F. rewrite <- E at 1. ring.
  - exists (i * (x * X0))%F. transitivity (i * i * (x * (X0 * X0)) * x)%F; [ring|].
    unfold i. rewrite sqrtm1_sq, E. ring.
Qed.

Lemma fromfe_nonsquare :
  (x * (X0 * X0) <> w)%F -> (x * (X0 * X0) <> - w)%F -> ~ is_square (w * x).
Proof.
  intros H1 H2 [s Hs]. pose proof fromfe_x_nonzero as Hx.
  destruct (divpowm1_square w x (s / x)%F Hx) as [E|E]; [|exact (H1 E)|exact (H2 E)].
  symmetry. transitivity (s * s / x)%F; [field; exact Hx|]. rewrite Hs. field. exact Hx.
Qed.

(** Both abscissae have the same [z^2 + A z w + w^2], namely [x]. *)
Lemma fromfe_K_square : let z := (- mont_A * v)%F in (z * z + mont_A * z * w + w * w = x)%F.
Proof. cbv zeta. unfold x, w. ring. Qed.

Lemma fromfe_K_nonsquare : let z := (- mont_A)%F in (z * z + mont_A * z * w + w * w = x)%F.
Proof. cbv zeta. unfold x, w. ring. Qed.

(** The square branch, [f] being the constant multiplied in. *)
Lemma fromfe_finish_square X f fx U z V W :
  (x * (X0 * X0) = w \/ x * (X0 * X0) = - w)%F ->
  rep 16 X X0 -> rep 16 f fx -> rep 16 U u -> rep 16 z (- mont_A)%F -> rep 16 V v -> rep 17 W w ->
  (x * (X0 * X0) * (fx * fx) = (1 + 1) * (mont_A * (mont_A + (1 + 1))) * w)%F ->
  yields (let* X1 := fe_mul X f in let* X2 := fe_mul X1 U in
          let* z := fe_mul z V in fromfe_setsign X2 z W 0)
    (fun r => exists P, p2_rep_wide r P /\ elligator u P).
Proof.
  intros Hsq HX Hf HU Hz HV HW HE. do 3 fe_step.
  eapply yields_mono; [eapply setsign_spec; [eassumption|eassumption|exact HW|by left|lia|..]|].
  - rewrite fromfe_K_square. exact fromfe_x_nonzero.
  - rewrite fromfe_K_square. transitivity (x * (X0 * X0) * (fx * fx) * (u * u))%F; [ring|].
    rewrite HE. unfold v. ring.
  - intros r (P & HP & HY & Hs). exists P. split; [exact HP|]. left.
    split; [exact (fromfe_square Hsq)|]. split; [|exact Hs].
    transitivity ((- mont_A * v + w) * py P)%F; [unfold w, v; ring|]. rewrite HY. unfold w, v. ring.
Qed.

Lemma fromfe_finish_nonsquare X xx z W :
  ~ is_square (w * x) -> xx <> 0%F ->
  rep 16 X xx -> rep 16 z (- mont_A)%F -> rep 17 W w ->
  (x * (xx * xx) = mont_A * (mont_A + (1 + 1)) * w)%F ->
  yields (fromfe_setsign X z W 1) (fun r => exists P, p2_rep_wide r P /\ elligator u P).
Proof.
  intros Hsq Hxx HX Hz HW HE.
  eapply yields_mono; [eapply setsign_spec; [eassumption|exact Hz|exact HW|by right|auto|..]|].
  - rewrite fromfe_K_nonsquare. exact fromfe_x_nonzero.
  - rewrite fromfe_K_nonsquare. transitivity (x * (xx * xx))%F; [ring|]. rewrite HE. ring.
  - intros r (P & HP & HY & Hs). exists P. split; [exact HP|]. right.
    split; [exact Hsq|]. split; [|exact Hs].
    transitivity ((- mont_A + w) * py P)%F; [unfold w, v; ring|]. rewrite HY. unfold w, v. ring.
Qed.

(** The branch at [negative:], where [x X0^2] is [i w] or [- i w]. *)
Lemma fromfe_negative X rho z W :
  (x * (X0 * X0) <> w)%F -> (x * (X0 * X0) <> - w)%F ->
  rep 16 X X0 -> rep 16 rho (x * (X0 * X0))%F -> rep 16 z (- mont_A)%F -> rep 17 W w ->
  yields
    (let* rho := fe_mul rho fe_sqrtm1 in
     let* y := fe_sub W rho in
     let* nz := fe_isnonzero y in
     let* X1 := (if nz =? 0 then fe_mul X fe_fffb4
                 else
                   let* y := fe_add W rho in
                   let* nz := fe_isnonzero y in
                   let* _ := assert (nz =? 0) in
                   fe_mul X fe_fffb3) in
     fromfe_setsign X1 z W 1)
    (fun r => exists P, p2_rep_wide r P /\ elligator u P).
Proof.
  intros H1 H2 HX Hrho Hz HW. pose proof rep_fe_sqrtm1 as Hi. fold i in Hi.
  destruct rep_fffb as (_ & _ & Hf3 & Hf4). destruct fffb_squares as (_ & _ & E3 & E4).
  pose proof sqrtm1_sq as Ei. fold i in Ei, E3, E4.
  pose proof (fromfe_nonsquare H1 H2) as Hns.
  assert (w <> 0)%F as Hw.
  { intros E. apply Hns. exists 0%F. rewrite E. ring. }
  assert (forall xx, (x * (xx * xx) = mont_A * (mont_A + (1 + 1)) * w)%F -> xx <> 0%F) as Hnz.
  { intros xx E ->. apply (F_mul_nonzero (mont_A * (mont_A + (1 + 1))) w); [|exact Hw|].
    - apply F_mul_nonzero; [exact mont_A_nonzero|exact mont_A2_nonzero].
    - rewrite <- E. ring. }
  do 2 fe_step. erewrite rep_isnonzero by (eassumption || lia). cbn [bind].
  set (rh := (x * (X0 * X0))%F) in *.
  assert (rh = i * w \/ rh = - (i * w))%F as Hcase.
  { destruct (divpowm1_cases w x fromfe_x_nonzero) as [E|[E|E]]; [contradiction|contradiction|exact E]. }
  eapply (yields_bind _ _ (fun X1 => exists xx, rep 16 X1 xx /\
    (x * (xx * xx) = mont_A * (mont_A + (1 + 1)) * w)%F)).
  - destruct (decide _) as [E|E].
    + change (0 =? 0) with true. cbv iota. eapply yields_mono; [fe_call|]. intros X1 HX1. cbv beta in HX1.
      eexists; split; [exact HX1|].
      transitivity (rh * (fval fe_fffb4 * fval fe_fffb4))%F; [unfold rh; ring|]. rewrite E4.
      transitivity (rh * i * (mont_A * (mont_A + (1 + 1))))%F; [ring|].
      rewrite <- (F_sub_zero _ _ E). ring.
    + change (1 =? 0) with false. cbv iota. fe_step.
      erewrite rep_isnonzero by (eassumption || lia). cbn [bind].
      assert (rh = i * w)%F as Eh.
      { destruct Hcase as [Eh|Eh]; [exact Eh|]. exfalso. apply E. rewrite Eh.
        transitivity (w + i * i * w)%F; [ring|]. rewrite Ei. ring. }
      rewrite decide_True by (rewrite Eh; transitivity (w + i * i * w)%F; [ring|]; rewrite Ei; ring).
      cbn [Z.eqb assert bind]. eapply yields_mono; [fe_call|]. intros X1 HX1. cbv beta in HX1.
      eexists; split; [exact HX1|].
      transitivity (rh * (fval fe_fffb3 * fval fe_fffb3))%F; [unfold rh; ring|]. rewrite E3, Eh.
      transitivity (- (i * i) * (mont_A * (mont_A + (1 + 1))) * w)%F; [ring|]. rewrite Ei. ring.
  - intros X1 (xx & HX1 & E). exact (fromfe_finish_nonsquare X1 xx z W Hns (Hnz xx E) HX1 Hz HW E).
Qed.
End FromFe.

Lemma whole_chunk s :
  bytes s -> length s = 32%nat ->
  le_val s mod 2 ^ 232 + 2 ^ 232 * chunk (le_val s) 3 29 = le_val s.
Proof.
  intros Hs Hl. pose proof (le_val_bound s Hs) as HV. rewrite Hl in HV.
  transitivity (le_val s mod 2 ^ (8 * Z.of_nat 32)); [symmetry; exact (chunk_cat (le_val s) 3 29)|].
  by apply Z.mod_small.
Qed.

(** Every 32-byte string is mapped to a point, and no assertion of the code
    fails on the way. *)
Lemma ge_fromfe_frombytes_vartime_spec s :
  bytes s -> length s = 32%nat ->
  yields (ge_fromfe_frombytes_vartime s) (fun r =>
    exists P, p2_rep_wide r P /\ elligator (inF (le_val s)) P).
Proof.
  intros Hs Hl. unfold ge_fromfe_frombytes_vartime.
  rewrite frombytes_limbs_spec by auto. cbn [bind].
  eapply yields_bind; [apply frombytes_carry_spec, fb_within, (chunk_bound _ 3 29)|].
  intros U HU. cbv beta in HU. rewrite val_fb_limbs, whole_chunk in HU by auto.
  set (u := inF (le_val s)) in *. clearbody u.
  pose proof rep_fe_1 as H1. pose proof rep_fe_ma as Hma. pose proof rep_fe_ma2 as Hma2.
  do 5 fe_step. set (v := (u * u + u * u)%F) in *. set (w := (v + 1)%F) in *.
  match goal with H : rep (16 + 16) ?f _ |- _ =>
    apply (rep_eq _ 32 _ _ (w * w - mont_A * mont_A * v)%F) in H; [rename H into Hx|lia|ring] end.
  eapply yields_bind; [eapply fe_divpowm1_spec; [eassumption|exact Hx|lia|lia]|].
  intros X HX. cbv beta in HX. set (x := (w * w - mont_A * mont_A * v)%F) in *.
  set (X0 := divpowm1 w x) in *. fe_step. fe_step.
  match goal with H : rep 16 ?f (X0 * X0 * x)%F |- _ =>
    apply (rep_eq _ 16 _ _ (x * (X0 * X0))%F) in H; [|lia|ring] end.
  fe_step. erewrite rep_isnonzero by (eassumption || lia). cbn [bind].
  destruct rep_fffb as (Hf1 & Hf2 & _). destruct fffb_squares as (E1 & E2 & _).
  destruct (decide _) as [E|E].
  { change (0 =? 0) with true. cbv iota. apply F_sub_zero in E. symmetry in E.
    eapply (fromfe_finish_square u); [by left|eassumption..|]. fold v w x X0. rewrite E, E2. ring. }
  change (1 =? 0) with false. cbv iota. fe_step.
  erewrite rep_isnonzero by (eassumption || lia). cbn [bind].
  destruct (decide _) as [E'|E'].
  - change (0 =? 0) with true. cbv iota.
    assert (x * (X0 * X0) = - w)%F as Ew.
    { apply F_sub_zero. rewrite <- E'. ring. }
    eapply (fromfe_finish_square u); [by right|eassumption..|]. fold v w x X0. rewrite Ew, E1. ring.
  - change (1 =? 0) with false. cbv iota. eapply (fromfe_negative u); [..|eassumption|eassumption|eassumption|eassumption].
    + intros Ew. apply E. fold v w x X0 in Ew. rewrite Ew. ring.
    + intros Ew. apply E'. fold v w x X0 in Ew. rewrite Ew. ring.
Qed.

(** At most one point satisfies the specification of the map. *)
Lemma elligator_unique u P Q : elligator u P -> elligator u Q -> P = Q.
Proof.
  assert (forall a w y y', (w - a <> 0 -> (w - a) * y = - (w + a) -> (w - a) * y' = - (w + a) -> y = y')%F) as Hy.
  { intros a w y y' Hn E E'. apply F_sub_zero, (F_mul_zero_l (w - a)%F); [|exact Hn].
    transitivity ((w - a) * y - (w - a) * y')%F; [ring|]. rewrite E, E'. ring. }
  assert (forall a w : F, (w - a = 0 -> - (w + a) = 0 -> a = 0)%F) as Ha.
  { intros a w E E'. apply (F_mul_zero_l (1 + 1)%F); [|exact F_two_neq_zero].
    transitivity (- (w - a) - - (w + a))%F; [ring|]. rewrite E, E'. ring. }
  pose proof mont_A_nonzero as HA.
  intros [(S & E & HP)|(S & E & HP)] [(S' & E' & HQ)|(S' & E' & HQ)]; [|contradiction|contradiction|];
    (apply point_parity_eq; [|congruence]); refine (Hy _ _ _ _ _ E E'); intros E0; rewrite E0 in E.
  - assert (mont_A * (u * u + u * u) = 0)%F as Ev by (apply (Ha _ _ E0); rewrite <- E; ring).
    rewrite Ev in E0. apply (F_mul_zero_l _ _) in Ev; [|exact HA]. rewrite Ev in E0.
    apply F_one_neq_zero. rewrite <- E0. ring.
  - apply HA. apply (Ha _ _ E0). rewrite <- E. ring.
Qed.

(** C14: [ge_fromfe_frombytes_vartime] maps every 32-byte string to a point of the curve, namely the one
    point that the Elligator map assigns to the field element the string stands for; the code never
    overflows, and neither its [assert]s nor its final check that the point is on the curve fail. *)
Theorem ge_fromfe_frombytes_vartime_correct (s : list Z) :
  bytes s -> length s = 32%nat ->
  exists P, elligator (inF (le_val s)) P /\ (forall Q, elligator (inF (le_val s)) Q -> Q = P) /\
    yields (ge_fromfe_frombytes_vartime s) (fun r => p2_rep_wide r P).
Proof.
  intros Hs Hl. destruct (ge_fromfe_frombytes_vartime_spec s Hs Hl) as (r & Hr & P & HP & He).
  exists P. split; [exact He|]. split; [intros Q HQ; exact (elligator_unique _ _ _ HQ He)|].
  exists r. split; [exact Hr|exact HP].
Qed.

Lemma ge_fromfe_frombytes_vartime_correct_witness :
  let s := replicate 32 255 in
  exists P, elligator (inF (le_val s)) P /\ (forall Q, elligator (inF (le_val s)) Q -> Q = P) /\
    yields (ge_fromfe_frombytes_vartime s) (fun r => p2_rep_wide r P).
Proof.
  apply (ge_fromfe_frombytes_vartime_correct (replicate 32 255)); [apply bytesb_true|]; reflexivity.
Defined.

(** Hashing to the curve as its callers do it, [ge_fromfe_frombytes_vartime] followed by [ge_mul8]
    and [ge_p1p1_to_p3], gives 8 times that point within the bounds of the point operations. *)
Theorem hash_to_ec_correct (s : list Z) :
  bytes s -> length s = 32%nat ->
  yields (let* p := ge_fromfe_frombytes_vartime s in let* q := ge_mul8 p in ge_p1p1_to_p3 q)
    (fun r => exists P, elligator (inF (le_val s)) P /\ p3_rep r (zmul 8 P)).
Proof.
  intros Hs Hl. eapply yields_bind; [exact (ge_fromfe_frombytes_vartime_spec s Hs Hl)|].
  intros p (P & HP & He). eapply yields_bind; [exact (ge_mul8_spec p P HP)|]. intros q Hq. cbv beta in Hq.
  eapply yields_mono; [exact (ge_p1p1_to_p3_spec q _ Hq)|]. intros r Hr. exists P. split; [exact He|exact Hr].
Qed.

Lemma hash_to_ec_correct_witness :
  let s := replicate 32 7 in
  yields (let* p := ge_fromfe_frombytes_vartime s in let* q := ge_mul8 p in ge_p1p1_to_p3 q)
    (fun r => exists P, elligator (inF (le_val s)) P /\ p3_rep r (zmul 8 P)).
Proof. apply (hash_to_ec_correct (replicate 32 7)); [apply bytesb_true|]; reflexivity. Defined.
