(* ===== verification/Words.v ===== *)
(** Unsigned machine words and buffers of words, as the hash functions and the
    stream cipher of src/src/crypto use them: wrap-around arithmetic, bitwise
    operations and rotations on [w]-bit words (src/src/common/int-util.h), and
    the little-endian and big-endian views of a byte buffer. *)

From S2P Require Import Prelude Limbs Bytes.

(** ** Words *)

Definition word (w x : Z) : Prop := 0 <= x < 2 ^ w.
Definition words (w : Z) (xs : list Z) : Prop := Forall (word w) xs.

#[global] Instance word_dec w x : Decision (word w x).
Proof. unfold word. apply _. Defined.
#[global] Instance words_dec w xs : Decision (words w xs).
Proof. unfold words. apply _. Defined.

(** [x + y], [~x] on [w]-bit unsigned types. *)
Definition addw (w x y : Z) : Z := uwrap w (x + y).
Definition notw (w x : Z) : Z := uwrap w (Z.lnot x).

(** [rol32] and [rol64] of int-util.h. *)
Definition rol32 (x r : Z) : Z :=
  Z.lor (uwrap 32 (Z.shiftl x (Z.land r 31))) (Z.shiftr x (Z.land (- r) 31)).
Definition rol64 (x r : Z) : Z :=
  Z.lor (uwrap 64 (Z.shiftl x (Z.land r 63))) (Z.shiftr x (Z.land (- r) 63)).

(** [(x << n) | (x >> (w - n))], the rotation macros. *)
Definition rotl (w x n : Z) : Z := Z.lor (uwrap w (Z.shiftl x n)) (Z.shiftr x (w - n)).

(** Rotation to the left by [n], as a rearrangement of the digits. *)
Definition rot (w n x : Z) : Z := (x mod 2 ^ (w - n)) * 2 ^ n + x / 2 ^ (w - n).

Lemma word_bits w x : 0 <= w -> word w x <-> (0 <= x /\ forall i, w <= i -> Z.testbit x i = false).
Proof.
  intros Hw. unfold word. split.
  - intros [H0 H]. split; [done|]. intros i Hi. rewrite <- (Z.mod_small x (2 ^ w)) by done.
    by apply Z.mod_pow2_bits_high.
  - intros [H0 H]. split; [done|]. replace x with (x mod 2 ^ w); [apply Z.mod_pos_bound, Z.pow_pos_nonneg; lia|].
    apply Z.bits_inj'. intros n Hn. destruct (Z.lt_ge_cases n w).
    + by rewrite Z.mod_pow2_bits_low.
    + by rewrite Z.mod_pow2_bits_high, H.
Qed.

Section Bitwise.
Context (w : Z) (Hw : 0 <= w).

Lemma word_uwrap x : word w (uwrap w x).
Proof. by apply uwrap_range. Qed.

Lemma word_addw x y : word w (addw w x y).
Proof. apply word_uwrap. Qed.

Lemma word_notw x : word w (notw w x).
Proof. apply word_uwrap. Qed.

Lemma word_lxor x y : word w x -> word w y -> word w (Z.lxor x y).
Proof.
  rewrite !word_bits by done. intros [H1 H2] [H3 H4]. split; [apply Z.lxor_nonneg; tauto|].
  intros i Hi. by rewrite Z.lxor_spec, H2, H4.
Qed.

Lemma word_lor x y : word w x -> word w y -> word w (Z.lor x y).
Proof.
  rewrite !word_bits by done. intros [H1 H2] [H3 H4]. split; [by apply Z.lor_nonneg|].
  intros i Hi. by rewrite Z.lor_spec, H2, H4.
Qed.

Lemma word_land_l x y : word w x -> word w (Z.land x y).
Proof.
  rewrite !word_bits by done. intros [H1 H2]. split; [apply Z.land_nonneg; tauto|].
  intros i Hi. by rewrite Z.land_spec, H2.
Qed.

Lemma word_shiftr x n : 0 <= n -> word w x -> word w (Z.shiftr x n).
Proof.
  intros Hn. rewrite !word_bits by done. intros [H1 H2]. split; [by apply Z.shiftr_nonneg|].
  intros i Hi. rewrite Z.shiftr_spec by lia. apply H2. lia.
Qed.
End Bitwise.

(** The bits a left rotation moves around the end. *)
Lemma div_top w x n : 0 <= n <= w -> word w x -> 0 <= x / 2 ^ (w - n) < 2 ^ n.
Proof.
  intros Hn [H0 H1]. assert (0 < 2 ^ (w - n)) by (apply Z.pow_pos_nonneg; lia).
  split; [apply Z.div_pos; lia|]. apply Z.div_lt_upper_bound; [lia|].
  rewrite <- Z.pow_add_r by lia. by replace (w - n + n) with w by lia.
Qed.

(** The macros are rotations. *)
Lemma rotl_rot w x n : 0 <= n <= w -> word w x -> rotl w x n = rot w n x.
Proof.
  intros Hn Hx. unfold rotl, rot, uwrap.
  assert (0 < 2 ^ n) by (apply Z.pow_pos_nonneg; lia).
  assert (0 < 2 ^ (w - n)) by (apply Z.pow_pos_nonneg; lia).
  assert (2 ^ w = 2 ^ n * 2 ^ (w - n)) as E by (rewrite <- Z.pow_add_r by lia; f_equal; lia).
  pose proof (div_top w x n Hn Hx) as Hd.
  rewrite Z.shiftl_mul_pow2, Z.shiftr_div_pow2, E, (Z.mul_comm (2 ^ n)), Z.mul_mod_distr_r by lia.
  rewrite Z.lor_comm, <- (Z.shiftl_mul_pow2 _ n) by lia. rewrite lor_add by lia. rewrite Z.shiftl_mul_pow2 by lia. ring.
Qed.

Lemma word_rot w x n : 0 <= n <= w -> word w x -> word w (rot w n x).
Proof.
  intros Hn Hx. unfold rot.
  assert (0 < 2 ^ n) by (apply Z.pow_pos_nonneg; lia).
  assert (0 < 2 ^ (w - n)) by (apply Z.pow_pos_nonneg; lia).
  assert (2 ^ w = 2 ^ n * 2 ^ (w - n)) as E by (rewrite <- Z.pow_add_r by lia; f_equal; lia).
  pose proof (div_top w x n Hn Hx) as Hd.
  pose proof (Z.mod_pos_bound x (2 ^ (w - n))). unfold word. rewrite E. nia.
Qed.

Lemma rot_inv w x n : 0 <= n <= w -> word w x -> rot w (w - n) (rot w n x) = x.
Proof.
  intros Hn Hx. unfold rot.
  assert (0 < 2 ^ n) by (apply Z.pow_pos_nonneg; lia).
  assert (0 < 2 ^ (w - n)) by (apply Z.pow_pos_nonneg; lia).
  assert (2 ^ w = 2 ^ n * 2 ^ (w - n)) as E by (rewrite <- Z.pow_add_r by lia; f_equal; lia).
  pose proof (div_top w x n Hn Hx) as Hd.
  replace (w - (w - n)) with n by lia.
  rewrite (Z.add_comm (_ * 2 ^ n)), Z.mod_add, Z.div_add, Z.mod_small, (Z.div_small (x / _)) by lia.
  pose proof (Z.div_mod x (2 ^ (w - n))). lia.
Qed.

(** A statement about every byte, by evaluation. *)
Lemma byte_cases (P : Z -> bool) :
  forallb (fun n => P (Z.of_nat n)) (seq 0 256) = true -> forall b, is_byte b -> P b = true.
Proof.
  intros H b Hb. unfold is_byte in Hb. rewrite forallb_forall in H.
  rewrite <- (Z2Nat.id b) by lia. apply H, in_seq. lia.
Qed.

(** ** Buffers of words *)

(** The word of [k] bytes at byte offset [off], the way a cast to a
    wider pointer type reads it on a little-endian machine; faults outside the buffer. *)
Definition load_le (k off : nat) (s : list Z) : outcome Z :=
  if (off + k <=? length s)%nat then Ret (le_val (take k (drop off s))) else Fault OutOfBounds.

(** [n] consecutive words of [k] bytes. *)
Fixpoint le_words (k n : nat) (s : list Z) : list Z :=
  match n with
  | O => []
  | S n' => le_val (take k s) :: le_words k n' (drop k s)
  end.

(** The bytes of a buffer of words. *)
Definition words_bytes (k : nat) (ws : list Z) : list Z := concat (map (le_bytes k) ws).

(** Big-endian. *)
Definition be_val (s : list Z) : Z := le_val (rev s).
Definition be_bytes (k : nat) (v : Z) : list Z := rev (le_bytes k v).

Definition xor_list (xs ys : list Z) : list Z := zip_with Z.lxor xs ys.

Lemma load_le_ok k off s : (off + k <= length s)%nat -> load_le k off s = Ret (le_val (take k (drop off s))).
Proof. intros H. unfold load_le. destruct (Nat.leb_spec (off + k) (length s)); [done|lia]. Qed.

Lemma length_le_words k n s : length (le_words k n s) = n.
Proof. revert s. induction n; intros; simpl; auto. Qed.

Lemma lookup_le_words k n s i :
  (i < n)%nat -> le_words k n s !! i = Some (le_val (take k (drop (i * k) s))).
Proof.
  revert n s. induction i as [|i IH]; intros [|n] s H; [lia| |lia|]; simpl.
  - by rewrite drop_0.
  - rewrite IH by lia. by rewrite drop_drop.
Qed.

Lemma le_words_take k n m s : (k * n <= m)%nat -> le_words k n (take m s) = le_words k n s.
Proof.
  intros H. apply list_eq. intros i. destruct (Nat.lt_ge_cases i n).
  - rewrite !lookup_le_words by done. do 2 f_equal. rewrite skipn_firstn_comm, take_take. f_equal. nia.
  - rewrite !lookup_ge_None_2; rewrite ?length_le_words; done.
Qed.

Lemma le_val_word k s : bytes s -> (length s <= k)%nat -> word (8 * Z.of_nat k) (le_val s).
Proof.
  intros H Hl. pose proof (le_val_bound s H). unfold word.
  assert (2 ^ (8 * Z.of_nat (length s)) <= 2 ^ (8 * Z.of_nat k)) by (apply Z.pow_le_mono_r; lia). lia.
Qed.

Lemma words_le_words k n s : bytes s -> words (8 * Z.of_nat k) (le_words k n s).
Proof.
  revert s. induction n as [|n IH]; intros s H; constructor.
  - apply le_val_word; [by apply bytes_take|]. rewrite length_take. lia.
  - apply IH. by apply bytes_drop.
Qed.

Lemma bytes_app xs ys : bytes xs -> bytes ys -> bytes (xs ++ ys).
Proof. intros. by apply Forall_app. Qed.

Lemma length_words_bytes k ws : length (words_bytes k ws) = (k * length ws)%nat.
Proof.
  unfold words_bytes. induction ws as [|x ws IH]; simpl; [lia|].
  rewrite length_app, length_le_bytes, IH. lia.
Qed.

Lemma bytes_words_bytes k ws : bytes (words_bytes k ws).
Proof.
  unfold words_bytes. induction ws; simpl; [constructor|]. apply Forall_app. split; [apply bytes_le_bytes|done].
Qed.

(** Byte [b] of word [i] of a buffer. *)
Lemma lookup_le_bytes n v b : (b < n)%nat -> le_bytes n v !!! b = (v / 2 ^ (8 * Z.of_nat b)) mod 256.
Proof.
  revert v b. induction n as [|n IH]; intros v b Hb; [lia|]. destruct b as [|b].
  - change (8 * Z.of_nat 0) with 0. by rewrite Z.div_1_r.
  - change (le_bytes (S n) v !!! S b) with (le_bytes n (v / 256) !!! b). rewrite IH by lia.
    rewrite Z.div_div by (lia || apply Z.pow_pos_nonneg; lia). by rewrite <- pow8_S.
Qed.

Lemma lookup_words_bytes k ws i b :
  (i < length ws)%nat -> (b < k)%nat -> words_bytes k ws !!! (k * i + b)%nat = ((ws !!! i) / 2 ^ (8 * Z.of_nat b)) mod 256.
Proof.
  revert i. induction ws as [|x ws IH]; intros i Hi Hb; simpl in Hi; [lia|]. unfold words_bytes. cbn [map concat].
  destruct i as [|i].
  - rewrite Nat.mul_0_r, lookup_total_app_l by (rewrite length_le_bytes; lia). by apply lookup_le_bytes.
  - rewrite lookup_total_app_r by (rewrite length_le_bytes; lia). rewrite length_le_bytes.
    replace (k * S i + b - k)%nat with (k * i + b)%nat by lia. apply IH; [lia|done].
Qed.

Lemma words_bytes_app k xs ys : words_bytes k (xs ++ ys) = words_bytes k xs ++ words_bytes k ys.
Proof. unfold words_bytes. by rewrite map_app, concat_app. Qed.

Lemma take_words_bytes k n ws : take (k * n) (words_bytes k ws) = words_bytes k (take n ws).
Proof.
  revert ws. induction n as [|n IH]; intros ws; [by rewrite Nat.mul_0_r|]. destruct ws as [|w ws]; [unfold words_bytes; simpl; by rewrite take_nil|].
  unfold words_bytes. cbn [map concat take]. replace (k * S n)%nat with (length (le_bytes k w) + k * n)%nat by (rewrite length_le_bytes; lia).
  rewrite take_app_add. f_equal. apply IH.
Qed.

Lemma drop_words_bytes k n ws : drop (k * n) (words_bytes k ws) = words_bytes k (drop n ws).
Proof.
  revert ws. induction n as [|n IH]; intros ws; [by rewrite Nat.mul_0_r|]. destruct ws as [|w ws]; [unfold words_bytes; simpl; by rewrite drop_nil|].
  unfold words_bytes. cbn [map concat drop]. replace (k * S n)%nat with (length (le_bytes k w) + k * n)%nat by (rewrite length_le_bytes; lia).
  rewrite drop_app_add. apply IH.
Qed.

(** Reading back the words that were stored. *)
Lemma le_words_words_bytes k ws tl :
  words (8 * Z.of_nat k) ws -> le_words k (length ws) (words_bytes k ws ++ tl) = ws.
Proof.
  induction 1 as [|x ws Hx H IH]; simpl; [done|]. unfold words_bytes. simpl.
  rewrite <- app_assoc, take_app_length', drop_app_length' by (by rewrite length_le_bytes). f_equal; [|exact IH].
  rewrite le_val_le_bytes. by apply Z.mod_small.
Qed.

Lemma words_bytes_le_words k n s :
  bytes s -> (k * n)%nat = length s -> words_bytes k (le_words k n s) = s.
Proof.
  revert s. induction n as [|n IH]; intros s Hs Hl; simpl.
  - symmetry in Hl. rewrite Nat.mul_0_r in Hl. apply length_zero_iff_nil in Hl as ->. done.
  - unfold words_bytes. simpl. fold (words_bytes k (le_words k n (drop k s))).
    rewrite IH by (try apply bytes_drop; try rewrite length_drop; auto; lia).
    rewrite <- (take_drop k s) at 3. f_equal.
    rewrite <- (le_bytes_le_val (take k s)) at 2 by (by apply bytes_take). f_equal.
    rewrite length_take. lia.
Qed.

Lemma take_take_app (D : list Z) a b : (a <= b)%nat -> take b D = take a D ++ take (b - a) (drop a D).
Proof.
  intros H. rewrite <- (take_drop a D) at 1. rewrite take_app, take_take, length_take.
  destruct (Nat.le_gt_cases a (length D)).
  - f_equal; f_equal; lia.
  - by rewrite (drop_ge D a), !take_nil, !app_nil_r, !take_ge by lia.
Qed.

Lemma length_be_bytes k v : length (be_bytes k v) = k.
Proof. unfold be_bytes. by rewrite length_rev, length_le_bytes. Qed.

Lemma bytes_be_bytes k v : bytes (be_bytes k v).
Proof. unfold be_bytes, bytes. apply Forall_rev, bytes_le_bytes. Qed.

(** A number of two words, most significant first. *)
Lemma be_bytes_app j k lo hi : word (8 * Z.of_nat k) lo -> be_bytes j hi ++ be_bytes k lo = be_bytes (j + k) (lo + 2 ^ (8 * Z.of_nat k) * hi).
Proof.
  intros Hlo. unfold be_bytes, word in *. rewrite <- rev_app_distr. f_equal.
  assert (0 < 2 ^ (8 * Z.of_nat k)) as Hk by (apply Z.pow_pos_nonneg; lia).
  assert (0 < 2 ^ (8 * Z.of_nat j)) as Hj by (apply Z.pow_pos_nonneg; lia). apply le_val_inj.
  - apply bytes_app; apply bytes_le_bytes.
  - apply bytes_le_bytes.
  - rewrite length_app, !length_le_bytes. lia.
  - rewrite le_val_app, !le_val_le_bytes, length_le_bytes, (Z.mod_small lo) by done.
    replace (8 * Z.of_nat (j + k)) with (8 * Z.of_nat k + 8 * Z.of_nat j) by lia.
    rewrite Z.pow_add_r, Z.rem_mul_r by lia. rewrite (Z.mul_comm _ hi), Z.mod_add, Z.div_add by lia.
    rewrite (Z.mod_small lo), (Z.div_small lo) by done. done.
Qed.

(** A message of [bits] bits as bytes, closed by the bit 1: a partial last
    byte keeps its high bits. *)
Definition close_bits (data : list Z) (bits : nat) : list Z :=
  let n := (bits / 8)%nat in
  let m := Z.of_nat (bits mod 8) in
  take n data ++ [if (bits mod 8 =? 0)%nat then 0x80 else (data !!! n) / 2 ^ (8 - m) * 2 ^ (8 - m) + 2 ^ (7 - m)].

(** A compression function [f] iterated over [n] blocks of [b] bytes. *)
Fixpoint fold_blocks (f : list Z -> list Z -> list Z) (b : nat) (h m : list Z) (n : nat) : list Z :=
  match n with
  | O => h
  | S n' => fold_blocks f b (f h (take b m)) (drop b m) n'
  end.

Lemma fold_blocks_app f b h A B n k :
  length A = (b * n)%nat -> fold_blocks f b h (A ++ B) (n + k) = fold_blocks f b (fold_blocks f b h A n) B k.
Proof.
  revert h A. induction n as [|n IH]; intros h A Hl; cbn [fold_blocks Nat.add].
  - rewrite Nat.mul_0_r in Hl. by apply length_zero_iff_nil in Hl as ->.
  - rewrite take_app_le, drop_app_le by lia. apply IH. rewrite length_drop. lia.
Qed.

Lemma fold_blocks_prefix f b h M N n : (b * n <= length M)%nat -> fold_blocks f b h (M ++ N) n = fold_blocks f b h M n.
Proof.
  revert h M. induction n as [|n IH]; intros h M Hl; [done|]. cbn [fold_blocks].
  rewrite take_app_le, drop_app_le by lia. apply IH. rewrite length_drop. lia.
Qed.

Lemma fold_blocks_take f b h M n : fold_blocks f b h (take (b * n) M) n = fold_blocks f b h M n.
Proof.
  destruct (Nat.le_gt_cases (b * n) (length M)).
  - rewrite <- (take_drop (b * n) M) at 2. symmetry. apply fold_blocks_prefix. rewrite length_take. lia.
  - by rewrite take_ge by lia.
Qed.

(** ** Exclusive or, on words and on their bytes *)

Lemma le_bytes_lxor k x y : le_bytes k (Z.lxor x y) = xor_list (le_bytes k x) (le_bytes k y).
Proof.
  revert x y. induction k as [|k IH]; intros x y; [done|]. simpl. unfold xor_list. simpl. f_equal.
  - change 256 with (2 ^ 8). rewrite <- !Z.land_ones by lia.
    apply Z.bits_inj'. intros n Hn. rewrite !Z.land_spec, !Z.lxor_spec, !Z.land_spec.
    destruct (Z.testbit x n), (Z.testbit y n), (Z.testbit (Z.ones 8) n); done.
  - change 256 with (2 ^ 8). rewrite <- !Z.shiftr_div_pow2, Z.shiftr_lxor by lia.
    rewrite !Z.shiftr_div_pow2 by lia. apply IH.
Qed.

Lemma xor_list_app a b c d : length a = length c -> xor_list (a ++ b) (c ++ d) = xor_list a c ++ xor_list b d.
Proof. intros H. unfold xor_list. by apply zip_with_app. Qed.

Lemma length_xor_list a b : length a = length b -> length (xor_list a b) = length a.
Proof. intros H. unfold xor_list. rewrite length_zip_with. lia. Qed.

Lemma words_bytes_xor k xs ys :
  length xs = length ys -> words_bytes k (xor_list xs ys) = xor_list (words_bytes k xs) (words_bytes k ys).
Proof.
  revert ys. induction xs as [|x xs IH]; intros [|y ys] H; simpl in H; try lia; [done|].
  unfold words_bytes, xor_list in *. simpl. rewrite IH by lia. rewrite le_bytes_lxor. unfold xor_list.
  rewrite zip_with_app; [done|]. by rewrite !length_le_bytes.
Qed.

Lemma words_xor_list w xs ys : 0 <= w -> words w xs -> words w ys -> words w (xor_list xs ys).
Proof.
  intros Hw H. revert ys. unfold xor_list, words.
  induction H as [|x xs Hx H IH]; intros ys Hys; destruct Hys; simpl; constructor; auto.
  by apply word_lxor.
Qed.

Lemma bytes_xor_list a b : bytes a -> bytes b -> bytes (xor_list a b).
Proof. exact (words_xor_list 8 a b ltac:(lia)). Qed.

Lemma xor_list_comm a b : xor_list a b = xor_list b a.
Proof. revert b. induction a as [|x a IH]; intros [|y b]; [done..|]. unfold xor_list in *. simpl. by rewrite Z.lxor_comm, IH. Qed.

Lemma xor_list_involutive a b : (length a <= length b)%nat -> xor_list (xor_list a b) b = a.
Proof.
  revert b. unfold xor_list. induction a as [|x a IH]; intros [|y b] H; simpl in *; try lia; [done..|].
  rewrite Z.lxor_assoc, Z.lxor_nilpotent, Z.lxor_0_r, IH by lia. done.
Qed.

Lemma bytes_word_iff xs : bytes xs <-> words 8 xs.
Proof. done. Qed.

Create HintDb word discriminated.
#[export] Hint Resolve word_uwrap word_addw word_notw word_lxor word_lor word_land_l word_shiftr : word.
#[export] Hint Extern 1 (0 <= _) => lia : word.
