(* ===== verification/Memory.v ===== *)
(** Regions of a memory of bytes, for the functions whose buffers may overlap
    or are given with a size: reading and writing [n] bytes at an offset,
    with a fault outside the memory. *)

From S2P Require Import Prelude Limbs Bytes Words.

Definition read (off n : nat) (mem : list Z) : outcome (list Z) :=
  if (off + n <=? length mem)%nat then Ret (take n (drop off mem)) else Fault OutOfBounds.

Definition put (off : nat) (bs mem : list Z) : list Z := take off mem ++ bs ++ drop (off + length bs) mem.

Definition write (off : nat) (bs mem : list Z) : outcome (list Z) :=
  if (off + length bs <=? length mem)%nat then Ret (put off bs mem) else Fault OutOfBounds.

Lemma read_ok off n mem : (off + n <= length mem)%nat -> read off n mem = Ret (take n (drop off mem)).
Proof. intros H. unfold read. destruct (Nat.leb_spec (off + n) (length mem)); [done|lia]. Qed.

Lemma write_ok off bs mem : (off + length bs <= length mem)%nat -> write off bs mem = Ret (put off bs mem).
Proof. intros H. unfold write. destruct (Nat.leb_spec (off + length bs) (length mem)); [done|lia]. Qed.

Lemma length_put off bs mem : (off + length bs <= length mem)%nat -> length (put off bs mem) = length mem.
Proof. intros H. unfold put. rewrite !length_app, length_take, length_drop. lia. Qed.

(** A region apart from the one written keeps its contents. *)
Lemma slice_put off bs mem o n :
  (off + length bs <= length mem)%nat -> (o + n <= off \/ off + length bs <= o)%nat ->
  take n (drop o (put off bs mem)) = take n (drop o mem).
Proof.
  intros Hl [H|H]; unfold put.
  - rewrite <- (take_drop off mem) at 3. rewrite !drop_app_le, !take_app_le; rewrite ?length_drop, ?length_take; try lia; done.
  - rewrite app_assoc, drop_app_ge by (rewrite length_app, length_take; lia).
    rewrite drop_drop, length_app, length_take. do 2 f_equal. lia.
Qed.

(** Writing a region in two parts. *)
Lemma put_put off a b mem :
  (off + length a + length b <= length mem)%nat -> put (off + length a) b (put off a mem) = put off (a ++ b) mem.
Proof.
  intros H. unfold put. rewrite (app_assoc (take off mem) a).
  rewrite take_app_length', drop_app_ge by (rewrite length_app, length_take; lia).
  rewrite <- !app_assoc, drop_drop, !length_app, length_take. do 4 f_equal. lia.
Qed.

Lemma bytes_put off bs mem : bytes bs -> bytes mem -> bytes (put off bs mem).
Proof. intros Hb Hm. unfold bytes, put. rewrite !Forall_app. auto using Forall_take, Forall_drop. Qed.

Lemma put_slice off n mem : (off + n <= length mem)%nat -> put off (take n (drop off mem)) mem = mem.
Proof.
  intros H. unfold put. rewrite length_take, length_drop, Nat.min_l, <- drop_drop by lia. by rewrite !take_drop.
Qed.

Lemma slice_put_eq off bs mem :
  (off + length bs <= length mem)%nat -> take (length bs) (drop off (put off bs mem)) = bs.
Proof. intros H. unfold put. by rewrite drop_app_length', take_app_length' by (rewrite ?length_take; lia). Qed.
