(* ===== verification/Keccak.v ===== *)
(** The Keccak permutation and sponge of src/src/crypto/keccak.c and the
    functions of src/src/crypto/hash.c on top of it.

    The state [uint64_t st[25]] is a list of 25 words; the in-place updates of
    the C loops are folds over the indices in the order of the loops. *)

From S2P Require Import Prelude Limbs Bytes Words.

(** ** Constants *)

Definition keccakf_rndc : list Z :=
  [0x0000000000000001; 0x0000000000008082; 0x800000000000808a;
   0x8000000080008000; 0x000000000000808b; 0x0000000080000001;
   0x8000000080008081; 0x8000000000008009; 0x000000000000008a;
   0x0000000000000088; 0x0000000080008009; 0x000000008000000a;
   0x000000008000808b; 0x800000000000008b; 0x8000000000008089;
   0x8000000000008003; 0x8000000000008002; 0x8000000000000080;
   0x000000000000800a; 0x800000008000000a; 0x8000000080008081;
   0x8000000000008080; 0x0000000080000001; 0x8000000080008008].

Definition keccakf_rotc : list Z :=
  [1; 3; 6; 10; 15; 21; 28; 36; 45; 55; 2; 14;
   27; 41; 56; 8; 25; 43; 62; 18; 39; 61; 20; 44].

Definition keccakf_piln : list nat :=
  [10; 7; 11; 17; 18; 3; 5; 16; 8; 21; 24; 4;
   15; 23; 19; 13; 12; 2; 20; 14; 22; 9; 6; 1]%nat.

Definition HASH_SIZE : Z := 32.
Definition HASH_DATA_AREA : Z := 136.
Definition KECCAK_ROUNDS : Z := 24.

(** ** The permutation *)

Definition ROTL64 (x y : Z) : Z := rotl 64 x y.

(** [st[k] ^= t;] *)
Definition xor_at (st : list Z) (k : nat) (t : Z) : list Z := <[k := Z.lxor (st !!! k) t]> st.

(** Theta: the column parities, then their combination into each column. *)
Definition theta_bc (st : list Z) : list Z :=
  map (fun i => Z.lxor (Z.lxor (Z.lxor (Z.lxor (st !!! i) (st !!! (i + 5)%nat)) (st !!! (i + 10)%nat))
                               (st !!! (i + 15)%nat)) (st !!! (i + 20)%nat)) (seq 0 5).

Definition theta (st : list Z) : list Z :=
  let bc := theta_bc st in
  foldl (fun st i =>
    let t := Z.lxor (bc !!! ((i + 4) mod 5)%nat) (ROTL64 (bc !!! ((i + 1) mod 5)%nat) 1) in
    foldl (fun st j => xor_at st (j + i) t) st [0; 5; 10; 15; 20]%nat) st (seq 0 5).

(** Rho and Pi: one walk through the state, [t] carrying the lane moved last. *)
Definition rho_pi (st : list Z) : list Z :=
  fst (foldl (fun '(st, t) i =>
    let j := keccakf_piln !!! i in
    let bc0 := st !!! j in
    (<[j := ROTL64 t (keccakf_rotc !!! i)]> st, bc0)) (st, st !!! 1%nat) (seq 0 24)).

(** Chi, row by row. *)
Definition chi (st : list Z) : list Z :=
  foldl (fun st j =>
    let bc := map (fun i => st !!! (j + i)%nat) (seq 0 5) in
    foldl (fun st i =>
      xor_at st (j + i) (Z.land (notw 64 (bc !!! ((i + 1) mod 5)%nat)) (bc !!! ((i + 2) mod 5)%nat)))
      st (seq 0 5)) st [0; 5; 10; 15; 20]%nat.

Definition keccak_round (round : nat) (st : list Z) : outcome (list Z) :=
  let st := theta st in
  let st := rho_pi st in
  let st := chi st in
  let* rc := index keccakf_rndc (Z.of_nat round) in
  Ret (xor_at st 0 rc).

Definition keccakf (st : list Z) (rounds : Z) : outcome (list Z) :=
  foldM keccak_round (seq 0 (Z.to_nat rounds)) st.

(** ** The sponge *)

(** [for (i = 0; i < rsizw; i++) st[i] ^= in[i];] on 64-bit words; [in] is read
    through a pointer to the rest of the buffer. *)
Definition xor_block (rsizw : Z) (inp : list Z) (st : list Z) : outcome (list Z) :=
  foldM (fun i st =>
    let* x := load_le 8 (8 * i) inp in
    let* _ := index st (Z.of_nat i) in
    Ret (xor_at st i x)) (seq 0 (Z.to_nat rsizw)) st.

(** [for ( ; inlen >= rsiz; inlen -= rsiz, in += rsiz)] *)
Fixpoint absorb (fuel : nat) (rsiz rsizw : Z) (inp : list Z) (inlen : Z) (st : list Z)
  : outcome (list Z * Z * list Z) :=
  if inlen <? rsiz then Ret (inp, inlen, st) else
  match fuel with
  | O => Fault Diverges
  | S fuel' =>
      let* st := xor_block rsizw inp st in
      let* st := keccakf st KECCAK_ROUNDS in
      absorb fuel' rsiz rsizw (drop (Z.to_nat rsiz) inp) (inlen - rsiz) st
  end.

(** The last block in [uint8_t temp[144]]: a [memcpy] of [inlen] bytes, the byte
    1, zeros up to [rsiz], and the bit 0x80 of the last byte.  The bytes of
    [temp] beyond [rsiz] are not read. *)
Definition last_block (rsiz : Z) (inp : list Z) (inlen : Z) : outcome (list Z) :=
  if (inlen <? 0) || (144 <? inlen) || (Z.of_nat (length inp) <? inlen) then Fault OutOfBounds else
  let temp := take (Z.to_nat inlen) inp in
  if 144 <=? inlen then Fault OutOfBounds else
  let temp := temp ++ [1] in
  let inlen := inlen + 1 in
  if (rsiz - inlen <? 0) || (144 <? rsiz) then Fault OutOfBounds else
  let temp := temp ++ replicate (Z.to_nat (rsiz - inlen)) 0 in
  let* b := index temp (rsiz - 1) in
  Ret (<[Z.to_nat (rsiz - 1) := Z.lor b 0x80]> temp).

(** The result is the [mdlen] bytes written to [md]. *)
Definition keccak (inp : list Z) (inlen mdlen : Z) : outcome (list Z) :=
  let* rsiz := (if mdlen =? 200 then Ret HASH_DATA_AREA else let* d := I32 (2 * mdlen) in I32 (200 - d)) in
  let rsizw := Z.quot rsiz 8 in
  let st := replicate 25 0 in
  let* '(inp, inlen, st) := absorb (S (Z.to_nat inlen)) rsiz rsizw inp inlen st in
  let* temp := last_block rsiz inp inlen in
  let* st := xor_block rsizw temp st in
  let* st := keccakf st KECCAK_ROUNDS in
  if (mdlen <? 0) || (200 <? mdlen) then Fault OutOfBounds else
  Ret (take (Z.to_nat mdlen) (words_bytes 8 st)).

Definition keccak1600 (inp : list Z) (inlen : Z) : outcome (list Z) := keccak inp inlen 200.

(** ** hash.c *)

(** [union hash_state]: 200 bytes, also seen as 25 words. *)
Definition hash_permutation (state : list Z) : outcome (list Z) :=
  let* st := keccakf (le_words 8 25 state) 24 in
  Ret (words_bytes 8 st).

(** [count] is converted from [size_t] to [int]. *)
Definition hash_process (buf : list Z) (count : Z) : outcome (list Z) :=
  keccak1600 buf (swrap 32 count).

Definition cn_fast_hash (data : list Z) (length : Z) : outcome (list Z) :=
  let* state := hash_process data length in
  Ret (take (Z.to_nat HASH_SIZE) state).
