(* ===== verification/KeccakFacts.v ===== *)
(** The Keccak code against the definition of the Keccak permutation and sponge
    (FIPS 202, sections 3 and 4, with the original Keccak padding).

    The reference is written from the mathematical description: lanes
    [A[x,y]], rotation offsets and lane positions from the walk
    [(x,y) -> (y, 2x+3y)], round constants from the linear feedback shift
    register.  The tables of the C code are consequences. *)

From S2P Require Import Prelude Limbs Bytes Words Keccak.

(** ** Reference permutation *)

Definition lane (A : list Z) (x y : nat) : Z := A !!! (x mod 5 + 5 * (y mod 5))%nat.
Definition make_lanes (f : nat -> nat -> Z) : list Z :=
  map (fun k => f (k mod 5)%nat (k / 5)%nat) (seq 0 25).

Definition ref_theta (A : list Z) : list Z :=
  let C x := foldl Z.lxor (lane A x 0) (map (fun y => lane A x y) (seq 1 4)) in
  make_lanes (fun x y => Z.lxor (lane A x y) (Z.lxor (C (x + 4)%nat) (rot 64 1 (C (x + 1)%nat)))).

(** The offset of lane [(x,y)]: [(t+1)(t+2)/2] where the walk from [(1,0)] is
    at [(x,y)] after [t] steps, and 0 for the lane [(0,0)] it never visits. *)
Fixpoint offset_from (n t : nat) (u v x y : nat) : Z :=
  match n with
  | O => 0
  | S n' => if ((u =? x) && (v =? y))%nat then (Z.of_nat ((t + 1) * (t + 2) / 2)) mod 64
            else offset_from n' (S t) v ((2 * u + 3 * v) mod 5)%nat x y
  end.
Definition rho_offset (x y : nat) : Z := offset_from 24 0 1 0 x y.

Definition ref_rho (A : list Z) : list Z := make_lanes (fun x y => rot 64 (rho_offset x y) (lane A x y)).
Definition ref_pi (A : list Z) : list Z := make_lanes (fun x y => lane A (x + 3 * y) x).
(** Complement of a 64-bit word. *)
Definition compl64 (x : Z) : Z := 2 ^ 64 - 1 - x.
Definition ref_chi (A : list Z) : list Z :=
  make_lanes (fun x y => Z.lxor (lane A x y) (Z.land (compl64 (lane A (x + 1) y)) (lane A (x + 2) y))).

(** The bit [rc(t)]: the register holds bits 0 .. 7 in a number. *)
Definition lfsr_step (R : Z) : Z :=
  let R := 2 * R in if Z.testbit R 8 then Z.lxor R 0x171 else R.
Definition rc (t : nat) : Z := Z.land (Nat.iter (t mod 255) lfsr_step 1) 1.
Definition round_constant (ir : nat) : Z :=
  foldl Z.lor 0 (map (fun j => Z.shiftl (rc (j + 7 * ir)) (2 ^ Z.of_nat j - 1)) (seq 0 7)).

Definition ref_iota (ir : nat) (A : list Z) : list Z :=
  make_lanes (fun x y => if ((x =? 0) && (y =? 0))%nat then Z.lxor (lane A x y) (round_constant ir) else lane A x y).

Definition ref_round (A : list Z) (ir : nat) : list Z := ref_iota ir (ref_chi (ref_pi (ref_rho (ref_theta A)))).
Definition keccak_f (n : nat) (A : list Z) : list Z := foldl ref_round A (seq 0 n).

(** ** The state *)

Definition kstate (st : list Z) : Prop := length st = 25%nat /\ words 64 st.

(** Names the 25 lanes of a state. *)
Ltac lanes st Hw :=
  do 25 (let a := fresh "a" in destruct st as [|a st]; [discriminate|]);
  destruct st as [|? st]; [|discriminate];
  unfold words in Hw; repeat (apply Forall_cons_1 in Hw as [? Hw]).

Lemma keccakf_rndc_spec ir : (ir < 24)%nat -> index keccakf_rndc (Z.of_nat ir) = Ret (round_constant ir).
Proof.
  intros H. assert (keccakf_rndc = map round_constant (seq 0 24)) as E by (vm_compute; reflexivity).
  apply index_lookup; [lia|]. rewrite Nat2Z.id, E, list_lookup_fmap, lookup_seq_lt by done. done.
Qed.

Lemma ROTL64_rot x n : 0 <= n <= 64 -> word 64 x -> ROTL64 x n = rot 64 n x.
Proof. apply rotl_rot. Qed.

Lemma rot_0 x : word 64 x -> rot 64 0 x = x.
Proof. unfold rot, word. intros H. change (64 - 0) with 64. rewrite Z.mod_small, Z.div_small by lia. lia. Qed.

Lemma notw_compl x : word 64 x -> notw 64 x = compl64 x.
Proof.
  unfold notw, compl64, uwrap, word, Z.lnot. intros H. symmetry. apply (Z.mod_unique _ _ (-1)); lia.
Qed.

Ltac word_auto := first [lia | eauto 12 with word].

Lemma theta_ref st : kstate st -> theta st = ref_theta st.
Proof.
  intros [Hl Hw]. lanes st Hw.
  cbv -[Z.lxor rot ROTL64]. rewrite !ROTL64_rot by word_auto. reflexivity.
Qed.

Lemma rho_pi_ref st : kstate st -> rho_pi st = ref_pi (ref_rho st).
Proof.
  intros [Hl Hw]. lanes st Hw. cbv -[rot ROTL64]. rewrite !ROTL64_rot by (assumption || lia).
  rewrite rot_0 by assumption. reflexivity.
Qed.

Lemma chi_ref st : kstate st -> chi st = ref_chi st.
Proof.
  intros [Hl Hw]. lanes st Hw. cbv -[Z.lxor Z.land notw compl64]. rewrite !notw_compl by assumption. reflexivity.
Qed.

Lemma iota_ref st ir : kstate st -> xor_at st 0 (round_constant ir) = ref_iota ir st.
Proof. intros [Hl Hw]. lanes st Hw. cbv -[Z.lxor round_constant]. reflexivity. Qed.

(** Every step keeps 25 words of 64 bits. *)
Lemma kstate_make_lanes f : (forall x y, word 64 (f x y)) -> kstate (make_lanes f).
Proof.
  intros H. split; [unfold make_lanes; by rewrite length_map, length_seq|].
  unfold words, make_lanes. apply Forall_map, Forall_forall. intros k _. apply H.
Qed.

Lemma word_lane st x y : kstate st -> word 64 (lane st x y).
Proof.
  intros [Hl Hw]. unfold lane. eapply (Forall_lookup_1 (word 64) st); [exact Hw|].
  apply list_lookup_lookup_total_lt. rewrite Hl.
  pose proof (Nat.mod_upper_bound x 5). pose proof (Nat.mod_upper_bound y 5). lia.
Qed.

Lemma rho_offset_range x y : 0 <= rho_offset x y <= 64.
Proof.
  enough (forall n t u v, 0 <= offset_from n t u v x y <= 64) as H by apply H.
  induction n as [|n IH]; intros t u v; cbn [offset_from]; [lia|].
  destruct (_ && _); [|apply IH]. pose proof (Z.mod_pos_bound (Z.of_nat ((t + 1) * (t + 2) / 2)) 64). lia.
Qed.

Lemma rc_bit t : 0 <= rc t <= 1.
Proof.
  unfold rc. set (r := Nat.iter _ _ _). change (0 <= Z.land r (Z.ones 1) <= 1). rewrite Z.land_ones by lia.
  pose proof (Z.mod_pos_bound r (2 ^ 1)). lia.
Qed.

Lemma word_round_constant ir : word 64 (round_constant ir).
Proof.
  unfold round_constant. cbn [seq map foldl]. repeat apply word_lor; try lia; [by split|..].
  all: match goal with |- word _ (Z.shiftl (rc ?t) ?e) =>
    let v := eval vm_compute in e in change e with v; pose proof (rc_bit t) end.
  all: rewrite Z.shiftl_mul_pow2 by lia; unfold word; pow_consts; lia.
Qed.

#[local] Hint Resolve word_lane word_round_constant : word.

Lemma kstate_theta st : kstate st -> kstate (ref_theta st).
Proof.
  intros H. apply kstate_make_lanes. intros x y. cbn [foldl map seq].
  repeat (apply word_lxor; [lia|word_auto|]). apply word_rot; [lia|]. word_auto.
Qed.

Lemma kstate_rho st : kstate st -> kstate (ref_rho st).
Proof. intros H. apply kstate_make_lanes. intros x y. apply word_rot; [apply rho_offset_range|word_auto]. Qed.

Lemma kstate_pi st : kstate st -> kstate (ref_pi st).
Proof. intros H. apply kstate_make_lanes. word_auto. Qed.

Lemma kstate_chi st : kstate st -> kstate (ref_chi st).
Proof.
  intros H. apply kstate_make_lanes. intros x y. apply word_lxor; [lia|word_auto|].
  apply word_land_l; [lia|]. rewrite <- notw_compl by word_auto. word_auto.
Qed.

Lemma kstate_iota ir st : kstate st -> kstate (ref_iota ir st).
Proof. intros H. apply kstate_make_lanes. intros x y. destruct (_ && _); word_auto. Qed.

#[local] Hint Resolve kstate_theta kstate_rho kstate_pi kstate_chi kstate_iota : word.

Lemma kstate_round A ir : kstate A -> kstate (ref_round A ir).
Proof. unfold ref_round. word_auto. Qed.

Lemma kstate_keccak_f n A : kstate A -> kstate (keccak_f n A).
Proof. unfold keccak_f. generalize (seq 0 n) as l. intros l. revert A. induction l; simpl; auto using kstate_round. Qed.

Lemma keccak_round_ref ir st : (ir < 24)%nat -> kstate st -> keccak_round ir st = Ret (ref_round st ir).
Proof.
  intros Hi H. unfold keccak_round, ref_round. cbv zeta.
  rewrite theta_ref, rho_pi_ref, chi_ref, keccakf_rndc_spec by (done || word_auto). cbn [bind].
  rewrite iota_ref by word_auto. reflexivity.
Qed.

(** The code's permutation is the reference permutation. *)
Lemma keccakf_spec st n : 0 <= n <= 24 -> kstate st -> keccakf st n = Ret (keccak_f (Z.to_nat n) st).
Proof.
  intros Hn H. unfold keccakf, keccak_f.
  assert (forall m i st, (i + m <= 24)%nat -> kstate st ->
    foldM keccak_round (seq i m) st = Ret (foldl ref_round st (seq i m))) as Hm.
  { induction m as [|m IH]; intros i s Hi Hs; cbn [seq foldM foldl]; [done|].
    rewrite keccak_round_ref by (done || lia). cbn [bind]. apply IH; [lia|by apply kstate_round]. }
  apply Hm; [lia|done].
Qed.

(** ** Reference sponge *)

(** The string cut into [n] blocks of [r] bytes. *)
Fixpoint blocks (r n : nat) (m : list Z) : list (list Z) :=
  match n with
  | O => []
  | S n' => take r m :: blocks r n' (drop r m)
  end.

(** The padding of [len] bytes to a multiple of [r]: a bit 1, zeros, a bit 1. *)
Definition pad101 (r len : nat) : list Z :=
  let q := (r - len mod r)%nat in
  if (q =? 1)%nat then [0x81] else 1 :: replicate (q - 2) 0 ++ [0x80].

Definition absorb_block (st : list Z) (blk : list Z) : list Z :=
  let ws := le_words 8 (length blk / 8) blk in
  keccak_f 24 (xor_list (take (length ws) st) ws ++ drop (length ws) st).

Definition sponge (r : nat) (m : list Z) (mdlen : nat) : list Z :=
  let p := m ++ pad101 r (length m) in
  take mdlen (words_bytes 8 (foldl absorb_block (replicate 25 0) (blocks r (length p / r) p))).

(** ** The absorbing loop *)

Lemma le_words_snoc k n s : le_words k (S n) s = le_words k n s ++ [le_val (take k (drop (n * k) s))].
Proof.
  revert s. induction n as [|n IH]; intros s; [simpl; by rewrite drop_0|].
  change (le_words k (S (S n)) s) with (le_val (take k s) :: le_words k (S n) (drop k s)).
  rewrite IH, drop_drop. reflexivity.
Qed.

Lemma xor_block_spec n inp st :
  0 <= n <= 25 -> kstate st -> 8 * n <= Z.of_nat (length inp) ->
  xor_block n inp st = Ret (xor_list (take (Z.to_nat n) st) (le_words 8 (Z.to_nat n) inp) ++ drop (Z.to_nat n) st).
Proof.
  intros Hn [Hst _] Hl. unfold xor_block.
  assert (8 * Z.to_nat n <= length inp)%nat as Hl' by lia. assert (Z.to_nat n <= 25)%nat as Hn' by lia.
  revert Hl' Hn'. generalize (Z.to_nat n) as k. clear n Hn Hl. intros k.
  induction k as [|k IH]; intros Hl Hk; [by rewrite take_0, drop_0|].
  rewrite seq_S, foldM_app, IH by lia. cbn [bind foldM]. rewrite Nat.add_0_l, load_le_ok by lia. cbn [bind].
  set (L := xor_list _ _). assert (length L = k) as HL.
  { unfold L. rewrite length_xor_list; rewrite length_take, ?length_le_words; lia. }
  destruct (lookup_lt_is_Some_2 st k ltac:(lia)) as [x Hx].
  rewrite (drop_S st x k) by done.
  rewrite (index_lookup _ _ x); [|lia|rewrite Nat2Z.id, lookup_app_r by lia; by rewrite HL, Nat.sub_diag].
  cbn [bind]. unfold xor_at.
  rewrite (list_lookup_total_alt _ k), lookup_app_r, HL, Nat.sub_diag by lia. cbn [lookup list_lookup from_option].
  rewrite insert_app_r_alt, HL, Nat.sub_diag by lia. cbn [insert list_insert]. f_equal.
  rewrite (take_S_r st k x Hx), le_words_snoc, xor_list_app by (rewrite length_take, length_le_words; lia).
  rewrite <- app_assoc. fold L. cbn [xor_list zip_with app]. by rewrite (Nat.mul_comm k 8).
Qed.

Lemma kstate_xor st ws : kstate st -> words 64 ws -> (length ws <= 25)%nat ->
  kstate (xor_list (take (length ws) st) ws ++ drop (length ws) st).
Proof.
  intros [Hl Hw] Hws Hn. split.
  - rewrite length_app, length_xor_list, length_take, length_drop; rewrite ?length_take; lia.
  - apply Forall_app. split; [|by apply Forall_drop]. apply words_xor_list; [lia| |done]. by apply Forall_take.
Qed.

Lemma kstate_absorb st blk : kstate st -> bytes blk -> (length blk <= 200)%nat -> kstate (absorb_block st blk).
Proof.
  intros H Hb Hl. unfold absorb_block. apply kstate_keccak_f, kstate_xor; [done|exact (words_le_words 8 _ _ Hb)|].
  rewrite length_le_words. apply Nat.Div0.div_le_upper_bound; lia.
Qed.

(** One iteration: the block is the first [rsiz] bytes of the input. *)
Lemma absorb_step r inp st :
  (0 < r <= 200)%nat -> (r mod 8 = 0)%nat -> (r <= length inp)%nat -> bytes inp -> kstate st ->
  (let* st := xor_block (Z.quot (Z.of_nat r) 8) inp st in keccakf st KECCAK_ROUNDS) =
  Ret (absorb_block st (take r inp)).
Proof.
  intros Hr H8 Hl Hb Hst. apply Nat.Div0.mod_divides in H8 as [c ->].
  assert (Z.quot (Z.of_nat (8 * c)) 8 = Z.of_nat c) as ->.
  { rewrite Nat2Z.inj_mul, Z.quot_div_nonneg, Z.mul_comm, Z.div_mul by lia. done. }
  rewrite xor_block_spec by (done || lia). cbn [bind]. unfold absorb_block.
  rewrite length_take, Nat.min_l, length_le_words, Nat.mul_comm, Nat.div_mul, le_words_take, Nat2Z.id by lia.
  assert (words 64 (le_words 8 c inp)) as Hw by exact (words_le_words 8 _ _ Hb).
  pose proof (kstate_xor st _ Hst Hw) as Hx. rewrite length_le_words in Hx.
  rewrite keccakf_spec; [done|done|]. apply Hx. lia.
Qed.

Lemma absorb_spec fuel r q rem inp st :
  (0 < r <= 200)%nat -> (r mod 8 = 0)%nat -> (rem < r)%nat -> (q <= fuel)%nat -> (q * r + rem <= length inp)%nat ->
  bytes inp -> kstate st ->
  absorb fuel (Z.of_nat r) (Z.quot (Z.of_nat r) 8) inp (Z.of_nat (q * r + rem)) st =
    Ret (drop (q * r) inp, Z.of_nat rem, foldl absorb_block st (blocks r q inp)) /\
  kstate (foldl absorb_block st (blocks r q inp)).
Proof.
  intros Hr H8 Hrem. revert fuel inp st. induction q as [|q IH]; intros fuel inp st Hf Hl Hb Hst.
  - split; [|done]. simpl. destruct fuel; simpl;
      (destruct (Z.ltb_spec (Z.of_nat rem) (Z.of_nat r)); [|lia]); by rewrite drop_0.
  - destruct fuel as [|fuel]; [lia|]. cbn [absorb blocks foldl].
    destruct (Z.ltb_spec (Z.of_nat (S q * r + rem)) (Z.of_nat r)); [lia|].
    rewrite <- (bind_assoc (xor_block _ _ _) (fun st => keccakf st KECCAK_ROUNDS)).
    rewrite absorb_step by (done || lia). cbn [bind]. rewrite Nat2Z.id.
    replace (Z.of_nat (S q * r + rem) - Z.of_nat r) with (Z.of_nat (q * r + rem)) by lia.
    destruct (IH fuel (drop r inp) (absorb_block st (take r inp))) as [E Hk];
      [lia|rewrite length_drop; lia|by apply bytes_drop|
       apply kstate_absorb; [done|by apply bytes_take|rewrite length_take; lia]|].
    rewrite E. split; [|exact Hk]. by rewrite drop_drop.
Qed.

(** ** The last block *)

Lemma last_block_spec r rem inp :
  (0 < r <= 144)%nat -> (rem < r)%nat -> (rem <= length inp)%nat ->
  last_block (Z.of_nat r) inp (Z.of_nat rem) = Ret (take rem inp ++ pad101 r rem).
Proof.
  intros Hr Hrem Hl. unfold last_block.
  replace (_ || _) with false by (symmetry; rewrite !orb_false_iff; repeat split; lia).
  destruct (Z.leb_spec 144 (Z.of_nat rem)); [lia|].
  replace (_ || _) with false by (symmetry; rewrite !orb_false_iff; repeat split; lia).
  rewrite Nat2Z.id. unfold pad101. rewrite Nat.mod_small by lia.
  assert (length (take rem inp) = rem) as Ht by (rewrite length_take; lia).
  replace (Z.to_nat (Z.of_nat r - (Z.of_nat rem + 1))) with (r - rem - 1)%nat by lia.
  destruct (Nat.eqb_spec (r - rem) 1) as [E|E].
  - replace (r - rem - 1)%nat with 0%nat by lia. simpl replicate. rewrite app_nil_r.
    rewrite (index_lookup _ _ 1); [|lia|].
    + cbn [bind]. f_equal. replace (Z.to_nat (Z.of_nat r - 1)) with (length (take rem inp) + 0)%nat by lia.
      by rewrite insert_app_r.
    + rewrite lookup_app_r by lia. by replace (Z.to_nat (Z.of_nat r - 1) - length (take rem inp))%nat with 0%nat by lia.
  - replace (r - rem - 1)%nat with (S (r - rem - 2)) by lia. rewrite replicate_S_end, app_assoc.
    set (l := (take rem inp ++ [1]) ++ replicate (r - rem - 2) 0).
    assert (Z.to_nat (Z.of_nat r - 1) = length l + 0)%nat as Ei
      by (unfold l; rewrite !length_app, length_replicate, Ht; simpl; lia).
    rewrite (index_lookup _ _ 0); [|lia|].
    + cbn [bind]. rewrite Ei, insert_app_r. unfold l. by rewrite <- !app_assoc.
    + rewrite Ei, lookup_app_r, Nat.add_sub' by lia. done.
Qed.

Lemma length_pad101 r len : (0 < r)%nat -> length (pad101 r len) = (r - len mod r)%nat.
Proof.
  intros Hr. pose proof (Nat.mod_upper_bound len r). unfold pad101. destruct (Nat.eqb_spec (r - len mod r) 1).
  - simpl. lia.
  - simpl. rewrite length_app, length_replicate. simpl. lia.
Qed.

Lemma bytes_pad101 r len : bytes (pad101 r len).
Proof.
  unfold pad101. destruct (_ =? _)%nat; apply bytesb_true; [done|].
  unfold bytesb. simpl. rewrite forallb_app, andb_true_iff. split; [|done].
  apply forallb_forall. intros x Hx. apply list_elem_of_In, elem_of_replicate in Hx as [-> _]. done.
Qed.

(** ** The whole function *)

(** Cutting a string of which [q] blocks are known. *)
Lemma blocks_split r q a b :
  length a = (q * r)%nat -> length b = r -> blocks r (S q) (a ++ b) = blocks r q a ++ [b].
Proof.
  revert a. induction q as [|q IH]; intros a Ha Hb.
  - simpl in Ha. apply length_zero_iff_nil in Ha as ->. simpl. by rewrite take_ge by lia.
  - change (take r (a ++ b) :: blocks r (S q) (drop r (a ++ b)) = (take r a :: blocks r q (drop r a)) ++ [b]).
    rewrite take_app_le, drop_app_le by (simpl in Ha; lia).
    rewrite IH by (rewrite ?length_drop; simpl in Ha; lia). done.
Qed.

Lemma blocks_take r q n m : (q * r <= n)%nat -> blocks r q (take n m) = blocks r q m.
Proof.
  revert n m. induction q as [|q IH]; intros n m H; simpl; [done|].
  rewrite take_take, Nat.min_l, skipn_firstn_comm by lia. f_equal. apply IH. lia.
Qed.

Lemma sponge_split r q rem inp mdlen :
  (0 < r)%nat -> (rem < r)%nat -> (q * r + rem <= length inp)%nat ->
  sponge r (take (q * r + rem) inp) mdlen =
  take mdlen (words_bytes 8 (absorb_block (foldl absorb_block (replicate 25 0) (blocks r q inp))
                               (take rem (drop (q * r) inp) ++ pad101 r rem))).
Proof.
  intros Hr Hrem Hl. unfold sponge. set (m := take (q * r + rem) inp).
  assert (length m = q * r + rem)%nat as Hm by (unfold m; rewrite length_take; lia).
  assert ((q * r + rem) mod r = rem)%nat as Em by (rewrite Nat.add_comm, Nat.Div0.mod_add; by apply Nat.mod_small).
  assert (pad101 r (length m) = pad101 r rem) as ->.
  { unfold pad101. by rewrite Hm, Em, Nat.mod_small. }
  assert (m = take (q * r) inp ++ take rem (drop (q * r) inp)) as E.
  { unfold m. by rewrite take_take_drop. }
  rewrite length_app, length_pad101, Hm, (Nat.mod_small rem) by lia.
  replace (q * r + rem + (r - rem))%nat with ((S q) * r)%nat by lia. rewrite Nat.div_mul by lia.
  rewrite E, <- app_assoc, blocks_split.
  - rewrite foldl_app, blocks_take by lia. done.
  - rewrite length_take. lia.
  - rewrite length_app, length_take, length_drop, length_pad101, Nat.mod_small by lia. lia.
Qed.

(** The rate for a digest of [mdlen] bytes: [keccak1600] (200 bytes) uses the
    data area of [union hash_state]. *)
Definition rate (mdlen : nat) : nat := if (mdlen =? 200)%nat then 136%nat else (200 - 2 * mdlen)%nat.

Lemma keccak_spec inp len mdlen :
  bytes inp -> (len <= length inp)%nat -> Z.of_nat len < 2 ^ 31 ->
  (mdlen = 200 \/ 28 <= mdlen < 100 /\ mdlen mod 4 = 0)%nat ->
  keccak inp (Z.of_nat len) (Z.of_nat mdlen) = Ret (sponge (rate mdlen) (take len inp) mdlen).
Proof.
  intros Hb Hl H31 Hmd. unfold keccak.
  assert (0 < rate mdlen <= 144 /\ rate mdlen mod 8 = 0)%nat as [Hr H8].
  { destruct Hmd as [-> |[Hmd H4]]; [split; [|done]; unfold rate; simpl; lia|]. unfold rate.
    destruct (Nat.eqb_spec mdlen 200); [lia|]. split; [lia|]. apply Nat.Div0.mod_divides in H4 as [c ->].
    apply Nat.Div0.mod_divides. exists (25 - c)%nat. lia. }
  assert ((if Z.of_nat mdlen =? 200 then Ret HASH_DATA_AREA
           else let* d := I32 (2 * Z.of_nat mdlen) in I32 (200 - d)) = Ret (Z.of_nat (rate mdlen))) as ->.
  { unfold rate. destruct Hmd as [-> |[Hmd _]]; [done|]. destruct (Nat.eqb_spec mdlen 200); [lia|].
    destruct (Z.eqb_spec (Z.of_nat mdlen) 200); [lia|]. rewrite I_ok by lia. cbn [bind].
    rewrite I_ok by lia. f_equal. lia. }
  set (r := rate mdlen) in *. clearbody r. cbn [bind]. cbv zeta.
  pose proof (Nat.div_mod len r ltac:(lia)) as E. pose proof (Nat.mod_upper_bound len r ltac:(lia)) as Hrem.
  set (q := (len / r)%nat) in *. set (rem := (len mod r)%nat) in *. rewrite (Nat.mul_comm r q) in E.
  assert (kstate (replicate 25 0)) as Hk0.
  { split; [done|]. apply Forall_replicate. by split. }
  destruct (absorb_spec (S (Z.to_nat (Z.of_nat len))) r q rem inp (replicate 25 0)) as [Ea Hk];
    [lia|done|done|nia|lia|done|done|].
  rewrite E at 2. rewrite Ea. cbn [bind]. set (st := foldl _ _ _) in *.
  rewrite last_block_spec by (rewrite ?length_drop; lia). cbn [bind].
  rewrite <- (bind_assoc (xor_block _ _ _) (fun st => keccakf st KECCAK_ROUNDS)).
  set (blk := _ ++ pad101 r rem). assert (length blk = r) as Hblk.
  { unfold blk. rewrite length_app, length_take, length_drop, length_pad101, Nat.mod_small by lia. lia. }
  rewrite (absorb_step r blk st); [|lia|done|lia| |done].
  2: { apply Forall_app. split; [by apply bytes_take, bytes_drop|apply bytes_pad101]. }
  cbn [bind]. rewrite (take_ge blk) by lia.
  replace (_ || _) with false by (symmetry; rewrite orb_false_iff; split; lia).
  rewrite Nat2Z.id, E, sponge_split by lia. done.
Qed.

(** [cn_fast_hash]: Keccak with a 256-bit digest and 1088-bit rate. *)
Definition keccak256 (m : list Z) : list Z := sponge 136 m 32.

Lemma sponge_take r m k n : (k <= n)%nat -> take k (sponge r m n) = sponge r m k.
Proof. intros H. unfold sponge. rewrite take_take. by rewrite Nat.min_l by lia. Qed.

Lemma cn_fast_hash_spec data len :
  bytes data -> (len <= length data)%nat -> Z.of_nat len < 2 ^ 31 ->
  cn_fast_hash data (Z.of_nat len) = Ret (keccak256 (take len data)).
Proof.
  intros Hb Hl H. unfold cn_fast_hash, hash_process, keccak1600. rewrite swrap_id by lia.
  change 200 with (Z.of_nat 200). rewrite keccak_spec by auto. cbn [bind].
  change (Z.to_nat HASH_SIZE) with 32%nat. rewrite sponge_take by lia. done.
Qed.

(** ** The permutation of [union hash_state] *)

(** The permutation on the 200 bytes of the state. *)
Definition perm (s : list Z) : list Z := words_bytes 8 (keccak_f 24 (le_words 8 25 s)).

Lemma perm_bytes s : length (perm s) = 200%nat /\ bytes (perm s).
Proof.
  unfold perm. split; [|apply bytes_words_bytes]. rewrite length_words_bytes.
  unfold keccak_f. rewrite seq_S, foldl_app. done.
Qed.

Lemma hash_permutation_spec s : bytes s -> hash_permutation s = Ret (perm s).
Proof.
  intros H. unfold hash_permutation. rewrite keccakf_spec; [done|lia|].
  split; [apply length_le_words|]. exact (words_le_words 8 25 s H).
Qed.

(** ** Properties *)

(** The in-place permutation [keccakf] computes the Keccak permutation: on every state of 25 64-bit
    words and every number of rounds up to 24 the theta, rho-pi, chi and iota loops with their
    tables give the composition of the reference steps, and the state stays one of 64-bit words. *)
Theorem keccakf_correct (st : list Z) (rounds : Z) :
  kstate st -> 0 <= rounds <= 24 ->
  keccakf st rounds = Ret (keccak_f (Z.to_nat rounds) st) /\ kstate (keccak_f (Z.to_nat rounds) st).
Proof. intros H Hr. split; [by apply keccakf_spec|by apply kstate_keccak_f]. Qed.

Lemma keccakf_correct_witness :
  let st := map Z.of_nat (seq 3 25) in
  keccakf st 24 = Ret (keccak_f (Z.to_nat 24) st) /\ kstate (keccak_f (Z.to_nat 24) st).
Proof.
  apply (keccakf_correct (map Z.of_nat (seq 3 25)) 24); [|lia]. split; [done|].
  apply (bool_decide_unpack (words 64 (map Z.of_nat (seq 3 25)))). vm_compute. exact Logic.I.
Defined.

(** [keccak] computes the sponge with the padding 10*1 for [keccak1600] and for every digest of 28 to
    96 bytes in steps of 4: the blocks absorbed, the last partial block and its padding, also when
    the message ends one byte before or at a block boundary, without an access outside a buffer. *)
Theorem keccak_correct (inp : list Z) (len mdlen : nat) :
  bytes inp -> (len <= length inp)%nat -> Z.of_nat len < 2 ^ 31 ->
  (mdlen = 200 \/ 28 <= mdlen < 100 /\ mdlen mod 4 = 0)%nat ->
  keccak inp (Z.of_nat len) (Z.of_nat mdlen) = Ret (sponge (rate mdlen) (take len inp) mdlen).
Proof. exact (keccak_spec inp len mdlen). Qed.

Lemma keccak_correct_witness :
  keccak (replicate 150 7) (Z.of_nat 135) (Z.of_nat 32) = Ret (sponge (rate 32) (take 135 (replicate 150 7)) 32).
Proof.
  apply (keccak_correct (replicate 150 7) 135 32);
    [by apply bytesb_true|rewrite length_replicate; lia|lia|right; split; [lia|done]].
Defined.

(** C30: [cn_fast_hash] for every [size_t] length: the length is converted to [int], so the digest is
    that of the first [length mod 2^32] bytes when this is below 2^31 (the whole message for
    lengths below 2^31, the empty message for 2^32), and otherwise the [memcpy] of a negative
    length is an access outside the buffers. *)
Theorem cn_fast_hash_correct (data : list Z) (length : Z) :
  bytes data -> 0 <= length <= Z.of_nat (List.length data) ->
  cn_fast_hash data length =
    if length mod 2 ^ 32 <? 2 ^ 31 then Ret (keccak256 (take (Z.to_nat (length mod 2 ^ 32)) data))
    else Fault OutOfBounds.
Proof.
  intros Hb Hl. pose proof (Z.mod_pos_bound length (2 ^ 32) ltac:(lia)) as Hm.
  pose proof (Z.mod_le length (2 ^ 32) ltac:(lia) ltac:(lia)) as Hle.
  assert (swrap 32 length = if length mod 2 ^ 32 <? 2 ^ 31 then length mod 2 ^ 32 else length mod 2 ^ 32 - 2 ^ 32) as Es.
  { unfold swrap. pose proof (Z.div_mod length (2 ^ 32) ltac:(lia)) as E.
    destruct (Z.ltb_spec (length mod 2 ^ 32) (2 ^ 31)).
    - rewrite <- (Z.mod_unique (length + 2 ^ (32 - 1)) (2 ^ 32) (length / 2 ^ 32) (length mod 2 ^ 32 + 2 ^ 31)); lia.
    - rewrite <- (Z.mod_unique (length + 2 ^ (32 - 1)) (2 ^ 32) (length / 2 ^ 32 + 1) (length mod 2 ^ 32 - 2 ^ 31)); lia. }
  destruct (Z.ltb_spec (length mod 2 ^ 32) (2 ^ 31)) as [H|H].
  - transitivity (cn_fast_hash data (length mod 2 ^ 32)).
    + unfold cn_fast_hash, hash_process. rewrite Es. rewrite swrap_id by lia. done.
    + rewrite <- (Z2Nat.id (length mod 2 ^ 32)) at 1 by lia. apply cn_fast_hash_spec; [done|lia|lia].
  - unfold cn_fast_hash, hash_process, keccak1600, keccak. rewrite Es. cbn [Z.eqb Pos.eqb bind]. cbv zeta.
    set (len := length mod 2 ^ 32 - 2 ^ 32) in *. assert (len < 0) as Hneg by (unfold len; lia). clearbody len.
    cbn [absorb]. destruct (Z.ltb_spec len HASH_DATA_AREA) as [_|]; [|unfold HASH_DATA_AREA in *; lia].
    cbn [bind]. unfold last_block. destruct (Z.ltb_spec len 0); [done|lia].
Qed.

Lemma cn_fast_hash_correct_witness :
  cn_fast_hash (replicate 200 97) 137 =
    if 137 mod 2 ^ 32 <? 2 ^ 31 then Ret (keccak256 (take (Z.to_nat (137 mod 2 ^ 32)) (replicate 200 97)))
    else Fault OutOfBounds.
Proof.
  apply (cn_fast_hash_correct (replicate 200 97) 137); [by apply bytesb_true|]. rewrite length_replicate. lia.
Defined.
