(* ===== verification/TreeHash.v ===== *)
(** The Merkle root of a block's transactions: src/src/crypto/tree-hash.c.

    An array of [char[HASH_SIZE]] is a list of byte strings; a hash of
    64 bytes starting at entry [i] reads entries [i] and [i+1].  [size_t] has
    64 bits. *)

From S2P Require Import Prelude Limbs Bytes Words Keccak KeccakFacts.

Definition ispowerof2_size_t (x : Z) : bool :=
  negb (x =? 0) && (Z.land x (uwrap 64 (x - 1)) =? 0).

(** [for (jj = 1; tmp != 0; ++jj) tmp /= 2;] *)
Fixpoint halvings (fuel : nat) (tmp jj : Z) : outcome Z :=
  if tmp =? 0 then Ret jj else
  match fuel with
  | O => Fault Diverges
  | S fuel' => halvings fuel' (tmp / 2) (jj + 1)
  end.

(** [1 << (jj-2)] is a shift of an [int], converted to [size_t]. *)
Definition tree_hash_cnt (count : Z) : outcome Z :=
  let* _ := assert (3 <=? count) in
  let tmp := uwrap 64 (count - 1) in
  let* jj := halvings 64 tmp 1 in
  let k := uwrap 64 (jj - 2) in
  if 32 <=? k then Fault Overflow else
  let cnt := uwrap 64 (shl 32 1 k) in
  let* _ := assert (0 <? cnt) in
  let* _ := assert (count / 2 <=? cnt) in
  let* _ := assert (cnt <=? count) in
  let* _ := assert (ispowerof2_size_t cnt) in
  Ret cnt.

(** [cn_fast_hash(l[i], 64, ..)] *)
Definition hash_pair (l : list (list Z)) (i : Z) : outcome (list Z) :=
  let* a := index l i in
  let* b := index l (i + 1) in
  cn_fast_hash (a ++ b) 64.

(** One step of the two copying loops: [cn_fast_hash(src[i], 64, ints[j]); i += 2]. *)
Definition store_pair (src ints : list (list Z)) (i : Z) (j : nat) : outcome (list (list Z)) :=
  let* h := hash_pair src i in
  let* _ := index ints (Z.of_nat j) in
  Ret (<[j := h]> ints).

(** The loop over [j < cnt] of the first level; [i] is a loop variable. *)
Definition first_level (hashes ints : list (list Z)) (p cnt : nat) : outcome (list (list Z) * Z) :=
  foldM (fun j '(ints, i) => let* ints := store_pair hashes ints i j in Ret (ints, i + 2))
    (seq p (cnt - p)) (ints, Z.of_nat p).

(** One round of the [while]: [ints] is read and written in place. *)
Definition next_level (ints : list (list Z)) (cnt : nat) : outcome (list (list Z)) :=
  let* '(ints, _) :=
    foldM (fun j '(ints, i) => let* ints := store_pair ints ints i j in Ret (ints, i + 2))
      (seq 0 cnt) (ints, 0) in
  Ret ints.

(** [while (cnt > 2) { cnt >>= 1; .. }] *)
Fixpoint levels (fuel : nat) (cnt : Z) (ints : list (list Z)) : outcome (list (list Z)) :=
  if cnt <=? 2 then Ret ints else
  match fuel with
  | O => Fault Diverges
  | S fuel' =>
      let cnt := Z.shiftr cnt 1 in
      let* ints := next_level ints (Z.to_nat cnt) in
      levels fuel' cnt ints
  end.

Definition tree_hash (hashes : list (list Z)) (count : Z) : outcome (list Z) :=
  let* _ := assert (0 <? count) in
  if count =? 1 then index hashes 0
  else if count =? 2 then hash_pair hashes 0
  else
    let* cnt := tree_hash_cnt count in
    let* _ := assert (cnt <? (2 ^ 64 - 1) / 2) in
    let p := uwrap 64 (2 * cnt - count) in
    let ints := replicate (Z.to_nat cnt) (replicate 32 0) in
    if (Z.of_nat (length hashes) <? p) || (cnt <? p) then Fault OutOfBounds else
    let ints := take (Z.to_nat p) hashes ++ drop (Z.to_nat p) ints in
    let* '(ints, i) := first_level hashes ints (Z.to_nat p) (Z.to_nat cnt) in
    let* _ := assert (i =? count) in
    let* ints := levels 64 cnt ints in
    hash_pair ints 0.
