(* ===== verification/TreeHashFacts.v ===== *)
(** [tree_hash] against a recursive definition of the Merkle tree, and its
    binding property: lists of the same length that differ have different
    roots, unless two messages hashed at the same place of the two trees collide. *)

From S2P Require Import Prelude Limbs Bytes Words Keccak KeccakFacts TreeHash.

(** ** Reference tree *)

Definition node (a b : list Z) : list Z := keccak256 (a ++ b).

(** The perfect tree of [2^n] leaves. *)
Fixpoint merkle (n : nat) (l : list (list Z)) : list Z :=
  match n with
  | O => l !!! 0%nat
  | S n' => node (merkle n' (take (2 ^ n') l)) (merkle n' (drop (2 ^ n') l))
  end.

(** Hashes of consecutive pairs. *)
Fixpoint pairs (l : list (list Z)) : list (list Z) :=
  match l with
  | a :: b :: l' => node a b :: pairs l'
  | _ => []
  end.

(** [2^k < count <= 2^(k+1)]: the first [2^(k+1) - count] leaves are nodes of
    the level of [2^k] nodes, the others are hashed in pairs. *)
Definition merkle_root (l : list (list Z)) : list Z :=
  let count := length l in
  if (count =? 1)%nat then l !!! 0%nat else
  let k := Nat.log2 (count - 1) in
  let p := (2 ^ (k + 1) - count)%nat in
  merkle k (take p l ++ pairs (drop p l)).

Definition hashes_ok (l : list (list Z)) : Prop := Forall (fun h => bytes h /\ length h = 32%nat) l.

(** ** Digests *)

Lemma length_keccak256 m : length (keccak256 m) = 32%nat.
Proof.
  unfold keccak256, sponge. set (st := foldl _ _ _).
  assert (length st = 25%nat) as Hst.
  { unfold st. generalize (blocks 136 (length (m ++ pad101 136 (length m)) / 136) (m ++ pad101 136 (length m))).
    assert (length (replicate 25 0) = 25%nat) as H by done. revert H. generalize (replicate 25 0).
    intros s Hs l. revert s Hs. induction l as [|b l IH]; intros s Hs; simpl; [done|]. apply IH.
    unfold absorb_block, keccak_f. rewrite seq_S, foldl_app. simpl. done. }
  rewrite length_take, length_words_bytes, Hst. done.
Qed.

Lemma bytes_keccak256 m : bytes (keccak256 m).
Proof. apply bytes_take, bytes_words_bytes. Qed.

Lemma hash_ok_node a b : bytes (node a b) /\ length (node a b) = 32%nat.
Proof. split; [apply bytes_keccak256|apply length_keccak256]. Qed.

Lemma hash_pair_spec l i a b :
  l !! i = Some a -> l !! S i = Some b -> hashes_ok l -> hash_pair l (Z.of_nat i) = Ret (node a b).
Proof.
  intros Ha Hb Hl. unfold hash_pair.
  rewrite (index_lookup _ _ a) by (rewrite ?Nat2Z.id; done || lia). cbn [bind].
  rewrite (index_lookup _ _ b) by (try lia; replace (Z.to_nat (Z.of_nat i + 1)) with (S i) by lia; done). cbn [bind].
  pose proof (Forall_lookup_1 _ _ _ _ Hl Ha) as [Ba La]. pose proof (Forall_lookup_1 _ _ _ _ Hl Hb) as [Bb Lb].
  change 64 with (Z.of_nat 64).
  rewrite cn_fast_hash_spec; [|by apply Forall_app|rewrite length_app; lia|lia].
  rewrite take_ge by (rewrite length_app; lia). done.
Qed.

(** ** The tree level by level *)

Lemma length_pairs n l : length l = (2 * n)%nat -> length (pairs l) = n.
Proof.
  revert l. induction n as [|n IH]; intros l H.
  - destruct l; [done|simpl in H; lia].
  - destruct l as [|a [|b l]]; simpl in H; [lia..|]. simpl. f_equal. apply IH. lia.
Qed.

Lemma pairs_app l1 l2 : Nat.Even (length l1) -> pairs (l1 ++ l2) = pairs l1 ++ pairs l2.
Proof.
  intros [n Hn]. revert l1 Hn. induction n as [|n IH]; intros l1 H.
  - destruct l1; [done|simpl in H; lia].
  - destruct l1 as [|a [|b l1]]; simpl in H; [lia..|]. simpl. f_equal. apply IH. lia.
Qed.

Lemma pairs_lookup l j : (2 * j + 1 < length l)%nat ->
  exists a b, l !! (2 * j)%nat = Some a /\ l !! S (2 * j) = Some b /\ pairs l !! j = Some (node a b).
Proof.
  revert l. induction j as [|j IH]; intros l H.
  - destruct l as [|a [|b l]]; simpl in H; [lia..|]. exists a, b. done.
  - destruct l as [|a [|b l]]; simpl in H; [lia..|]. destruct (IH l ltac:(lia)) as (c & d & H1 & H2 & H3).
    exists c, d. replace (2 * S j)%nat with (S (S (2 * j))) by lia. done.
Qed.

Lemma hashes_ok_pairs l : hashes_ok (pairs l).
Proof.
  remember (length l) as n eqn:E. assert (length l <= n)%nat as H by lia. clear E. revert l H.
  induction n as [|n IH]; intros [|a [|b l]] H; simpl in *; try constructor; try lia.
  - apply hash_ok_node.
  - apply IH. lia.
Qed.

Lemma merkle_pairs n l : length l = (2 ^ S n)%nat -> merkle (S n) l = merkle n (pairs l).
Proof.
  revert l. induction n as [|n IH]; intros l H.
  - destruct l as [|a [|b [|]]]; simpl in H; try lia. done.
  - change (merkle (S (S n)) l) with (node (merkle (S n) (take (2 ^ S n) l)) (merkle (S n) (drop (2 ^ S n) l))).
    simpl in H. rewrite !IH by (rewrite ?length_take, ?length_drop; simpl; lia). cbn [merkle].
    assert (pairs l = pairs (take (2 ^ S n) l) ++ pairs (drop (2 ^ S n) l)) as E.
    { rewrite <- pairs_app by (exists (2 ^ n)%nat; rewrite length_take; simpl; lia). by rewrite take_drop. }
    assert (length (pairs (take (2 ^ S n) l)) = 2 ^ n)%nat as Hl.
    { apply length_pairs. rewrite length_take. simpl. lia. }
    rewrite E, take_app_length', drop_app_length' by done. done.
Qed.

(** Storing node [j] of a level whose first [j] nodes are stored. *)
Lemma store_step src A (x : list Z) B i a b :
  src !! i = Some a -> src !! S i = Some b -> hashes_ok src ->
  store_pair src (A ++ x :: B) (Z.of_nat i) (length A) = Ret ((A ++ [node a b]) ++ B).
Proof.
  intros Ha Hb Hs. unfold store_pair. rewrite (hash_pair_spec src i a b) by done. cbn [bind].
  rewrite (index_lookup _ _ x) by (try lia; rewrite Nat2Z.id, lookup_app_r, Nat.sub_diag by lia; done).
  cbn [bind]. rewrite <- (Nat.add_0_r (length A)), insert_app_r, <- app_assoc. done.
Qed.

(** The first [k] pairs of [hashes], from entry [p] on, stored from position
    [p] of [ints]. *)
Lemma first_level_spec hashes head tl k p :
  hashes_ok hashes -> length head = p -> length tl = k -> (p + 2 * k <= length hashes)%nat ->
  first_level hashes (head ++ tl) p (p + k) =
    Ret (head ++ pairs (take (2 * k) (drop p hashes)), Z.of_nat (p + 2 * k)).
Proof.
  intros Hok Hp Htl Hl. unfold first_level. replace (p + k - p)%nat with k by lia.
  set (f := fun (j : nat) (st : list (list Z) * Z) => _).
  assert (forall m, (m <= k)%nat ->
    foldM f (seq p m) (head ++ tl, Z.of_nat p) =
    Ret ((head ++ pairs (take (2 * m) (drop p hashes))) ++ drop m tl, Z.of_nat (p + 2 * m))) as H.
  2: { rewrite H by lia. rewrite (drop_ge tl), app_nil_r by lia. done. }
  induction m as [|m IH]; intros Hm.
  - cbn [seq foldM]. rewrite Nat.mul_0_r, take_0, drop_0. cbn [pairs]. by rewrite app_nil_r, Nat.add_0_r.
  - rewrite seq_S, foldM_app, IH by lia. cbn [bind foldM]. unfold f.
    destruct (lookup_lt_is_Some_2 tl m ltac:(lia)) as [x Hx]. rewrite (drop_S tl x m Hx).
    set (A := head ++ pairs (take (2 * m) (drop p hashes))).
    assert (length A = p + m)%nat as HA.
    { unfold A. rewrite length_app, (length_pairs m); [lia|]. rewrite length_take, length_drop. lia. }
    destruct (lookup_lt_is_Some_2 hashes (p + 2 * m)%nat ltac:(lia)) as [a Ha].
    destruct (lookup_lt_is_Some_2 hashes (S (p + 2 * m))%nat ltac:(lia)) as [b Hb].
    rewrite <- HA. rewrite (store_step hashes A x _ _ a b Ha Hb Hok). cbn [bind].
    replace (Z.of_nat (p + 2 * m) + 2) with (Z.of_nat (p + 2 * S m)) by lia.
    assert (pairs (take (2 * S m) (drop p hashes)) = pairs (take (2 * m) (drop p hashes)) ++ [node a b]) as ->.
    { replace (2 * S m)%nat with (2 * m + 2)%nat by lia. rewrite <- take_take_drop, drop_drop.
      rewrite pairs_app by (exists m; rewrite length_take, length_drop; lia).
      rewrite (drop_S hashes a _ Ha), (drop_S hashes b _ Hb). done. }
    unfold A. by rewrite app_assoc.
Qed.

(** One level in place: the nodes read lie at or after the ones written. *)
Lemma next_level_spec ints k :
  hashes_ok ints -> (2 * k <= length ints)%nat ->
  next_level ints k = Ret (pairs (take (2 * k) ints) ++ drop k ints).
Proof.
  intros Hok Hl. unfold next_level. set (f := fun (j : nat) (st : list (list Z) * Z) => _).
  assert (forall m, (m <= k)%nat ->
    foldM f (seq 0 m) (ints, 0) = Ret (pairs (take (2 * m) ints) ++ drop m ints, Z.of_nat (2 * m))) as H.
  2: { rewrite H by lia. done. }
  induction m as [|m IH]; intros Hm.
  - cbn [seq foldM]. by rewrite Nat.mul_0_r, take_0, drop_0.
  - rewrite seq_S, foldM_app, IH by lia. cbn [bind foldM]. unfold f. rewrite Nat.add_0_l.
    destruct (lookup_lt_is_Some_2 ints m ltac:(lia)) as [x Hx].
    set (A := pairs (take (2 * m) ints)).
    assert (length A = m) as HA by (unfold A; apply length_pairs; rewrite length_take; lia).
    destruct (lookup_lt_is_Some_2 ints (2 * m)%nat ltac:(lia)) as [a Ha].
    destruct (lookup_lt_is_Some_2 ints (S (2 * m))%nat ltac:(lia)) as [b Hb].
    assert (forall i, (m <= i)%nat -> (A ++ drop m ints) !! i = ints !! i) as Hsrc.
    { intros i Hi. rewrite lookup_app_r, lookup_drop by lia. f_equal. lia. }
    assert (hashes_ok (A ++ drop m ints)) as Hs by (apply Forall_app; split; [apply hashes_ok_pairs|by apply Forall_drop]).
    pose proof (store_step (A ++ drop m ints) A x (drop (S m) ints) (2 * m) a b) as Hst.
    rewrite <- (drop_S ints x m Hx), HA in Hst.
    rewrite Hst by (rewrite ?Hsrc by lia; done). cbn [bind].
    replace (Z.of_nat (2 * m) + 2) with (Z.of_nat (2 * S m)) by lia.
    assert (pairs (take (2 * S m) ints) = A ++ [node a b]) as ->; [|done].
    replace (2 * S m)%nat with (2 * m + 2)%nat by lia. rewrite <- take_take_drop.
    rewrite pairs_app by (exists m; rewrite length_take; lia).
    rewrite (drop_S ints a _ Ha), (drop_S ints b _ Hb). done.
Qed.

(** The [while] loop, then the last hash: the root of a perfect tree. *)
Lemma levels_spec fuel n ints :
  hashes_ok ints -> (n <= fuel)%nat -> (2 ^ S n <= length ints)%nat ->
  (let* ints := levels fuel (Z.of_nat (2 ^ S n)) ints in hash_pair ints 0) =
  Ret (merkle (S n) (take (2 ^ S n) ints)).
Proof.
  revert fuel ints. induction n as [|n IH]; intros fuel ints Hok Hf Hl.
  - assert (levels fuel (Z.of_nat (2 ^ 1)) ints = Ret ints) as -> by (destruct fuel; done). cbn [bind].
    destruct ints as [|a [|b ints]]; simpl in Hl; [lia..|]. exact (hash_pair_spec (a :: b :: ints) 0 a b eq_refl eq_refl Hok).
  - destruct fuel as [|fuel]; [lia|]. cbn [levels].
    assert (0 < 2 ^ n)%nat by (apply Nat.neq_0_lt_0, Nat.pow_nonzero; lia).
    destruct (Z.leb_spec (Z.of_nat (2 ^ S (S n))) 2); [simpl in *; lia|].
    assert (Z.shiftr (Z.of_nat (2 ^ S (S n))) 1 = Z.of_nat (2 ^ S n)) as ->.
    { rewrite Z.shiftr_div_pow2 by lia. change (2 ^ 1) with 2. rewrite Nat.pow_succ_r', Nat2Z.inj_mul, Z.mul_comm.
      apply Z.div_mul. lia. }
    rewrite Nat2Z.id. rewrite Nat.pow_succ_r' in Hl. rewrite next_level_spec by done. cbn [bind].
    set (L := pairs _). assert (length L = 2 ^ S n)%nat as HL by (unfold L; apply length_pairs; rewrite length_take; lia).
    rewrite IH; [|apply Forall_app; split; [apply hashes_ok_pairs|by apply Forall_drop]|lia|rewrite length_app; lia].
    rewrite take_app_length' by done. rewrite (merkle_pairs (S n) (take _ _)) by (rewrite length_take; simpl in *; lia).
    done.
Qed.

(** ** The count of the first level *)

Lemma halvings_spec fuel x jj :
  0 <= x < 2 ^ Z.of_nat fuel -> 0 < x -> halvings fuel x jj = Ret (jj + Z.log2 x + 1).
Proof.
  revert x jj. induction fuel as [|fuel IH]; intros x jj Hx H0; [simpl in Hx; lia|]. cbn [halvings].
  destruct (Z.eqb_spec x 0); [lia|]. rewrite Nat2Z.inj_succ, Z.pow_succ_r in Hx by lia.
  destruct (Z.eq_dec (x / 2) 0) as [E|E].
  - assert (x = 1) as -> by (pose proof (Z.div_mod x 2); pose proof (Z.mod_pos_bound x 2); lia).
    destruct fuel; simpl; f_equal; lia.
  - assert (0 < x / 2) by (pose proof (Z.div_pos x 2); lia).
    rewrite IH; [|split; [lia|apply Z.div_lt_upper_bound; lia]|done].
    assert (1 < x) by (destruct (Z.eq_dec x 1) as [->|]; [done|lia]).
    f_equal. change (x / 2) with (x / 2 ^ 1). rewrite <- (Z.shiftr_div_pow2 x 1) by lia. rewrite Z.log2_shiftr by lia.
    pose proof (Z.log2_pos x). lia.
Qed.

Lemma land_pow2_pred k : 0 <= k -> Z.land (2 ^ k) (2 ^ k - 1) = 0.
Proof. intros Hk. rewrite Z.land_comm, land_mask by lia. rewrite Z.mod_same; [done|]. apply Z.pow_nonzero; lia. Qed.

(** The largest power of two below [count], as long as it fits in an [int]. *)
Lemma tree_hash_cnt_spec count k :
  3 <= count -> 0 <= k < 31 -> 2 ^ k < count <= 2 ^ (k + 1) -> tree_hash_cnt count = Ret (2 ^ k).
Proof.
  intros H3 Hk Hc. unfold tree_hash_cnt, assert. destruct (Z.leb_spec 3 count); [|lia]. cbn [bind].
  assert (2 ^ (k + 1) <= 2 ^ 31) as Hle by (apply Z.pow_le_mono_r; lia).
  rewrite (uwrap_small 64 (count - 1)) by lia.
  assert (Z.log2 (count - 1) = k) as Hlog by (apply Z.log2_unique; rewrite <- ?Z.add_1_r; lia).
  rewrite halvings_spec by (simpl Z.of_nat; lia). cbn [bind]. rewrite Hlog.
  replace (uwrap 64 (1 + k + 1 - 2)) with k by (rewrite uwrap_small; lia).
  destruct (Z.leb_spec 32 k); [lia|].
  assert (0 < 2 ^ k) by (apply Z.pow_pos_nonneg; lia).
  assert (2 ^ (k + 1) = 2 * 2 ^ k) as E by (rewrite Z.pow_add_r by lia; lia).
  assert (uwrap 64 (shl 32 1 k) = 2 ^ k) as ->.
  { unfold shl. rewrite Z.shiftl_1_l, swrap_id, uwrap_small; lia. }
  assert (count / 2 <= 2 ^ k) by (apply Z.div_le_upper_bound; lia).
  destruct (Z.ltb_spec 0 (2 ^ k)), (Z.leb_spec (count / 2) (2 ^ k)), (Z.leb_spec (2 ^ k) count); try lia. cbn [bind].
  unfold ispowerof2_size_t. rewrite uwrap_small by lia.
  destruct (Z.eqb_spec (2 ^ k) 0); [lia|]. rewrite land_pow2_pred by lia. done.
Qed.

(** Beyond 2^31 leaves the shift leaves [int]: an assertion fails, or the shift
    itself is undefined. *)
Lemma tree_hash_cnt_large count :
  2 ^ 31 < count < 2 ^ 64 -> exists e, tree_hash_cnt count = Fault e.
Proof.
  intros Hc. unfold tree_hash_cnt, assert. destruct (Z.leb_spec 3 count); [|lia]. cbn [bind].
  rewrite (uwrap_small 64 (count - 1)) by lia.
  rewrite halvings_spec by (simpl Z.of_nat; lia). cbn [bind].
  assert (31 <= Z.log2 (count - 1)) as Hlog by (apply Z.log2_le_pow2; lia).
  pose proof (Z.log2_lt_pow2 (count - 1) 64).
  set (k := Z.log2 (count - 1)) in *. rewrite (uwrap_small 64 (1 + k + 1 - 2)) by lia.
  replace (1 + k + 1 - 2) with k by lia. destruct (Z.leb_spec 32 k); [eauto|].
  assert (k = 31) as E by lia. rewrite E. change (uwrap 64 (shl 32 1 31)) with (2 ^ 64 - 2 ^ 31).
  destruct (Z.ltb_spec 0 (2 ^ 64 - 2 ^ 31)), (Z.leb_spec (count / 2) (2 ^ 64 - 2 ^ 31)); cbn [bind]; eauto.
  destruct (Z.leb_spec (2 ^ 64 - 2 ^ 31) count); cbn [bind]; [|eauto].
  exfalso. assert (count - 1 < 2 ^ 32); [|lia]. apply Z.log2_lt_pow2; lia.
Qed.

(** ** The whole function *)

Lemma log2_bracket n : (2 <= n)%nat -> (2 ^ Nat.log2 (n - 1) < n <= 2 ^ (Nat.log2 (n - 1) + 1))%nat.
Proof. intros H. pose proof (Nat.log2_spec (n - 1) ltac:(lia)). rewrite Nat.add_1_r. lia. Qed.

Lemma tree_hash_spec hashes n :
  hashes_ok hashes -> (1 <= n <= length hashes)%nat -> Z.of_nat n <= 2 ^ 31 ->
  tree_hash hashes (Z.of_nat n) = Ret (merkle_root (take n hashes)).
Proof.
  intros Hok Hn H31. unfold tree_hash, merkle_root. rewrite length_take, Nat.min_l by lia.
  unfold assert at 1. destruct (Z.ltb_spec 0 (Z.of_nat n)); [|lia]. cbn [bind].
  destruct (Z.eqb_spec (Z.of_nat n) 1) as [E1|E1], (Nat.eqb_spec n 1) as [F1|F1]; try lia.
  { subst n. destruct hashes as [|h hashes]; [simpl in Hn; lia|]. done. }
  destruct (Z.eqb_spec (Z.of_nat n) 2) as [E2|E2].
  { assert (n = 2)%nat as -> by lia. destruct hashes as [|a [|b hashes]]; [simpl in Hn; lia..|].
    exact (hash_pair_spec (a :: b :: hashes) 0 a b eq_refl eq_refl Hok). }
  pose proof (log2_bracket n ltac:(lia)) as Hk. set (k := Nat.log2 (n - 1)) in *.
  assert (1 <= k)%nat as Hk1 by (apply Nat.log2_le_pow2; simpl; lia).
  rewrite Nat.add_1_r, Nat.pow_succ_r' in Hk.
  assert (Z.of_nat (2 ^ k) = 2 ^ Z.of_nat k) as Ek by (rewrite Nat2Z.inj_pow; done).
  assert (Z.of_nat k < 31) as Hk31.
  { apply (Z.pow_lt_mono_r_iff 2); lia. }
  rewrite (tree_hash_cnt_spec _ (Z.of_nat k)) by (rewrite ?Z.pow_add_r by lia; lia). cbn [bind].
  assert (2 ^ Z.of_nat k <= 2 ^ 31) as Hp31 by (apply Z.pow_le_mono_r; lia). rewrite <- Ek in *.
  unfold assert at 1. destruct (Z.ltb_spec (Z.of_nat (2 ^ k)) ((2 ^ 64 - 1) / 2)) as [_|Hb].
  2: { change ((2 ^ 64 - 1) / 2) with (2 ^ 63 - 1) in Hb. lia. }
  cbn [bind]. set (p := (2 * 2 ^ k - n)%nat).
  assert (uwrap 64 (2 * Z.of_nat (2 ^ k) - Z.of_nat n) = Z.of_nat p) as -> by (rewrite uwrap_small; lia).
  replace (_ || _) with false by (symmetry; rewrite orb_false_iff; split; lia).
  rewrite !Nat2Z.id. set (tl := drop p _).
  assert (length tl = n - 2 ^ k)%nat as Htl by (unfold tl; rewrite length_drop, length_replicate; lia).
  replace (2 ^ k)%nat with (p + (n - 2 ^ k))%nat at 1 by lia.
  rewrite first_level_spec by (done || rewrite ?length_take; lia). cbn [bind].
  replace (p + 2 * (n - 2 ^ k))%nat with n by lia. unfold assert at 1. rewrite Z.eqb_refl. cbn [bind].
  destruct k as [|k']; [lia|].
  set (L := take p hashes ++ pairs (take (2 * (n - 2 ^ S k')) (drop p hashes))).
  assert (length L = 2 ^ S k')%nat as HL.
  { unfold L. rewrite length_app, length_take, (length_pairs (n - 2 ^ S k')); [lia|].
    rewrite length_take, length_drop. lia. }
  rewrite levels_spec; [|apply Forall_app; split; [by apply Forall_take|apply hashes_ok_pairs]|lia|lia].
  rewrite take_ge by lia. f_equal. f_equal. unfold L.
  replace (2 ^ (S k' + 1) - n)%nat with p by (unfold p; rewrite Nat.add_1_r, (Nat.pow_succ_r' 2 (S k')); lia).
  rewrite take_take, Nat.min_l by lia. f_equal. rewrite skipn_firstn_comm. f_equal. f_equal. lia.
Qed.

(** ** Binding *)

(** The messages hashed for a level: consecutive pairs, joined. *)
Fixpoint joins (l : list (list Z)) : list (list Z) :=
  match l with
  | a :: b :: l' => (a ++ b) :: joins l'
  | _ => []
  end.

(** All the messages hashed for the tree over [2^n] nodes, level by level. *)
Fixpoint inputs (n : nat) (l : list (list Z)) : list (list Z) :=
  match n with
  | O => []
  | S n' => joins l ++ inputs n' (pairs l)
  end.

(** The messages hashed for the root of any list: the pairs of the lowest
    level, then those of the perfect tree above it. *)
Definition root_inputs (l : list (list Z)) : list (list Z) :=
  let count := length l in
  if (count =? 1)%nat then [] else
  let k := Nat.log2 (count - 1) in
  let p := (2 ^ (k + 1) - count)%nat in
  joins (drop p l) ++ inputs k (take p l ++ pairs (drop p l)).

(** The digests [cn_fast_hash] returns tell apart the messages hashed at the
    same place of two trees. *)
Definition told_apart (ms ms' : list (list Z)) : Prop :=
  Forall (fun '(x, y) => cn_fast_hash x 64 = cn_fast_hash y 64 -> x = y) (zip ms ms').

Definition hash_ok (h : list Z) : Prop := bytes h /\ length h = 32%nat.

Lemma told_apart_app a b a' b' :
  length a = length a' -> told_apart (a ++ b) (a' ++ b') -> told_apart a a' /\ told_apart b b'.
Proof. intros H. unfold told_apart. rewrite zip_with_app by done. apply Forall_app. Qed.

Lemma length_joins n l : length l = (2 * n)%nat -> length (joins l) = n.
Proof.
  revert l. induction n as [|n IH]; intros l H; [by destruct l|].
  destruct l as [|a [|b l]]; simpl in H; try lia. simpl. f_equal. apply IH. lia.
Qed.

Lemma node_inj a b c d :
  hash_ok a -> hash_ok b -> hash_ok c -> hash_ok d ->
  (cn_fast_hash (a ++ b) 64 = cn_fast_hash (c ++ d) 64 -> a ++ b = c ++ d) -> node a b = node c d -> a = c /\ b = d.
Proof.
  intros [Ba La] [Bb Lb] [Bc Lc] [Bd Ld] Ht E.
  assert (forall x y, bytes x -> bytes y -> length x = 32%nat -> length y = 32%nat ->
    cn_fast_hash (x ++ y) 64 = Ret (node x y)) as Hh.
  { intros x y Bx By Lx Ly. change 64 with (Z.of_nat 64). assert (length (x ++ y) = 64%nat) as L by (rewrite length_app; lia).
    rewrite cn_fast_hash_spec by (try (by apply Forall_app); lia). by rewrite take_ge by lia. }
  apply app_inj_1; [lia|]. apply Ht. rewrite !Hh by done. by rewrite E.
Qed.

Lemma pairs_inj n l l' :
  hashes_ok l -> hashes_ok l' -> length l = (2 * n)%nat -> length l' = (2 * n)%nat ->
  told_apart (joins l) (joins l') -> pairs l = pairs l' -> l = l'.
Proof.
  revert l l'. induction n as [|n IH]; intros l l' Hl Hl' En En' Ht E.
  - destruct l, l'; simpl in *; try lia. done.
  - destruct l as [|a [|b l]], l' as [|c [|d l']]; simpl in En, En'; try lia.
    simpl in E. injection E as E1 E2. inversion_clear Hl as [|? ? Ha Hl2]. inversion_clear Hl2 as [|? ? Hb Hl3].
    inversion_clear Hl' as [|? ? Hc Hl2']. inversion_clear Hl2' as [|? ? Hd Hl3'].
    inversion_clear Ht as [|? ? Ht1 Ht2].
    destruct (node_inj a b c d Ha Hb Hc Hd Ht1 E1) as [-> ->]. by rewrite (IH l l' Hl3 Hl3' ltac:(lia) ltac:(lia) Ht2 E2).
Qed.

Lemma merkle_inj n l l' :
  hashes_ok l -> hashes_ok l' -> length l = (2 ^ n)%nat -> length l' = (2 ^ n)%nat ->
  told_apart (inputs n l) (inputs n l') -> merkle n l = merkle n l' -> l = l'.
Proof.
  revert l l'. induction n as [|n IH]; intros l l' Hl Hl' En En' Ht E.
  - destruct l as [|h [|]], l' as [|h' [|]]; simpl in En, En'; try lia. simpl in E. f_equal. exact E.
  - rewrite !merkle_pairs in E by done. rewrite Nat.pow_succ_r' in En, En'. cbn [inputs] in Ht.
    apply told_apart_app in Ht as [Ht1 Ht2]; [|by rewrite !(length_joins (2 ^ n))].
    apply (pairs_inj (2 ^ n) l l'); auto.
    apply IH; auto using hashes_ok_pairs, length_pairs.
Qed.

Lemma merkle_root_inj l l' :
  hashes_ok l -> hashes_ok l' -> (1 <= length l)%nat -> length l = length l' ->
  told_apart (root_inputs l) (root_inputs l') -> merkle_root l = merkle_root l' -> l = l'.
Proof.
  intros Hl Hl' Hn En Ht E. unfold merkle_root, root_inputs in *. rewrite <- En in E, Ht.
  destruct (Nat.eqb_spec (length l) 1) as [E1|E1].
  - by apply (merkle_inj 0); simpl; (done || lia || constructor).
  - pose proof (log2_bracket (length l) ltac:(lia)) as Hk. set (k := Nat.log2 (length l - 1)) in *. cbv zeta in E, Ht.
    rewrite Nat.add_1_r, Nat.pow_succ_r' in Hk, E, Ht. set (p := (2 * 2 ^ k - length l)%nat) in *.
    assert (forall m : list (list Z), length m = length l -> length (drop p m) = 2 * (length l - 2 ^ k))%nat as Hd.
    { intros m Hm. rewrite length_drop. lia. }
    assert (forall m : list (list Z), length m = length l ->
      length (take p m ++ pairs (drop p m)) = 2 ^ k)%nat as Hlen.
    { intros m Hm. rewrite length_app, length_take, (length_pairs _ _ (Hd m Hm)). lia. }
    assert (forall m, hashes_ok m -> hashes_ok (take p m ++ pairs (drop p m))) as Hok.
    { intros m Hm. apply Forall_app. split; [by apply Forall_take|apply hashes_ok_pairs]. }
    apply told_apart_app in Ht as [Ht1 Ht2]; [|by rewrite !(length_joins (length l - 2 ^ k)) by auto].
    pose proof (merkle_inj k _ _ (Hok l Hl) (Hok l' Hl') (Hlen l eq_refl) (Hlen l' (eq_sym En)) Ht2 E) as Eq.
    apply app_inj_1 in Eq as [Et Ep]; [|rewrite !length_take; lia].
    pose proof (pairs_inj _ _ _ (Forall_drop _ p l Hl) (Forall_drop _ p l' Hl') (Hd l eq_refl) (Hd l' (eq_sym En)) Ht1 Ep) as Ed.
    rewrite <- (take_drop p l), <- (take_drop p l'). congruence.
Qed.

(** ** Properties *)

(** C16: [tree_hash] computes the Merkle root: for 1 to 2^31 hashes the loops, which overwrite the
    level they read, give the root of the tree whose level of [2^k] nodes, [2^k < count <= 2^(k+1)],
    holds the first [2^(k+1) - count] leaves and the hashes of the others in pairs; no assertion
    fails, no access leaves the arrays and both loops end. *)
Theorem tree_hash_correct (hashes : list (list Z)) (n : nat) :
  hashes_ok hashes -> (1 <= n <= length hashes)%nat -> Z.of_nat n <= 2 ^ 31 ->
  tree_hash hashes (Z.of_nat n) = Ret (merkle_root (take n hashes)).
Proof. exact (tree_hash_spec hashes n). Qed.

Lemma tree_hash_correct_witness :
  let l := map (fun i => replicate 32 i) [1; 2; 3; 4; 5] in
  tree_hash l (Z.of_nat 5) = Ret (merkle_root (take 5 l)).
Proof.
  apply (tree_hash_correct (map (fun i => replicate 32 i) [1; 2; 3; 4; 5]) 5);
    [|rewrite length_map; simpl; lia|lia].
  repeat (constructor; [split; [by apply bytesb_true|done]|]). constructor.
Defined.

(** C17: the root binds the list.  For two different lists of the same number of hashes, 1 to 2^31,
    [tree_hash] returns different roots, unless [cn_fast_hash] gives one digest for two different
    messages hashed at the same place of the two trees ([root_inputs] lists these messages: at most
    [2^31 - 1] pairs, all determined by the two lists). *)
Theorem tree_hash_binding (l l' : list (list Z)) :
  hashes_ok l -> hashes_ok l' -> length l = length l' -> (1 <= length l)%nat -> Z.of_nat (length l) <= 2 ^ 31 ->
  told_apart (root_inputs l) (root_inputs l') -> l <> l' ->
  exists root root',
    tree_hash l (Z.of_nat (length l)) = Ret root /\ tree_hash l' (Z.of_nat (length l')) = Ret root' /\ root <> root'.
Proof.
  intros Hl Hl' En H1 H31 Ht Hne. exists (merkle_root l), (merkle_root l').
  rewrite !tree_hash_spec by (done || lia). rewrite !take_ge by lia. split_and!; [done..|].
  intros E. by apply Hne, merkle_root_inj.
Qed.

Lemma tree_hash_binding_witness :
  let l := map (replicate 32) [1; 2; 3] in
  let l' := map (replicate 32) [1; 2; 4] in
  exists root root', tree_hash l (Z.of_nat (length l)) = Ret root /\ tree_hash l' (Z.of_nat (length l')) = Ret root' /\ root <> root'.
Proof.
  apply (tree_hash_binding (map (replicate 32) [1; 2; 3]) (map (replicate 32) [1; 2; 4])).
  1, 2: repeat (constructor; [split; [by apply bytesb_true|done]|]); constructor.
  1, 2, 3: simpl; lia.
  2: discriminate.
  unfold told_apart. set (z := zip _ _). vm_compute in z. subst z.
  constructor; [intros H; vm_compute in H; discriminate|constructor; [intros H; vm_compute in H; discriminate|constructor]].
Defined.
