(* ===== verification/ChaCha.v ===== *)
(** The stream cipher of src/src/crypto/chacha8.c.

    The input and output buffers are regions of one memory [mem], given by
    their offsets, so that calls that encrypt in place or into an overlapping
    buffer are covered.  [uint32_t] operations wrap.  The local array [tmp] is
    not initialised: its first contents [junk] are arbitrary. *)

From S2P Require Import Prelude Limbs Bytes Words Memory.

(** ** The block function *)

(** One line of [QUARTERROUND]: [a = PLUS(a,b); d = ROTATE(XOR(d,a),r);] *)
Definition quarter_line (a b d : nat) (r : Z) (x : list Z) : list Z :=
  let x := <[a := addw 32 (x !!! a) (x !!! b)]> x in
  <[d := rol32 (Z.lxor (x !!! d) (x !!! a)) r]> x.

(** [QUARTERROUND(xa, xb, xc, xd)] *)
Definition quarterround (a b c d : nat) (x : list Z) : list Z :=
  let x := quarter_line a b d 16 x in
  let x := quarter_line c d b 12 x in
  let x := quarter_line a b d 8 x in
  quarter_line c d b 7 x.

Definition double_round (x : list Z) : list Z :=
  let x := quarterround 0 4 8 12 x in
  let x := quarterround 1 5 9 13 x in
  let x := quarterround 2 6 10 14 x in
  let x := quarterround 3 7 11 15 x in
  let x := quarterround 0 5 10 15 x in
  let x := quarterround 1 6 11 12 x in
  let x := quarterround 2 7 8 13 x in
  quarterround 3 4 9 14 x.

(** [for (i = 8; i > 0; i -= 2)], then [x += j]. *)
Definition chacha8_block (j : list Z) : list Z :=
  zip_with (addw 32) (Nat.iter 4 double_round j) j.

(** ** The function *)

(** "expand 32-byte k" *)
Definition sigma : list Z := [101; 120; 112; 97; 110; 100; 32; 51; 50; 45; 98; 121; 116; 101; 32; 107].

Definition chacha8_init (key iv : list Z) : outcome (list Z) :=
  let* k := mapM (fun i => load_le 4 (4 * i) key) (seq 0 8) in
  let* v := mapM (fun i => load_le 4 (4 * i) iv) (seq 0 2) in
  Ret (le_words 4 4 sigma ++ k ++ [0; 0] ++ v).

(** [j12 = PLUSONE(j12); if (!j12) j13 = PLUSONE(j13);] *)
Definition next_counter (j : list Z) : list Z :=
  let j := <[12%nat := addw 32 (j !!! 12%nat) 1]> j in
  if j !!! 12%nat =? 0 then <[13%nat := addw 32 (j !!! 13%nat) 1]> j else j.

(** The body of the loop on the 64 bytes at [data]: the 64 bytes stored at [cipher]. *)
Definition chacha8_xor (j : list Z) (blk : list Z) : list Z :=
  words_bytes 4 (xor_list (chacha8_block j) (le_words 4 16 blk)).

Fixpoint chacha8_loop (fuel : nat) (junk : list Z) (data len cipher : nat) (j mem : list Z) : outcome (list Z) :=
  match fuel with
  | O => Fault Diverges
  | S fuel' =>
      if (len <? 64)%nat then
        let* bs := read data len mem in
        let tmp := put 0 bs junk in
        let tmp := chacha8_xor j tmp in
        write cipher (take len tmp) mem
      else
        let* blk := read data 64 mem in
        let* mem := write cipher (chacha8_xor j blk) mem in
        if (len <=? 64)%nat then Ret mem
        else chacha8_loop fuel' junk (data + 64) (len - 64) (cipher + 64) (next_counter j) mem
  end.

Definition chacha8 (junk mem : list Z) (data len : nat) (key iv : list Z) (cipher : nat) : outcome (list Z) :=
  if (len =? 0)%nat then Ret mem else
  let* j := chacha8_init key iv in
  chacha8_loop (S (len / 64)) junk data len cipher j mem.

(** ** Specification *)

(** The state for block [i]: the counter is a 64-bit number in words 12 and 13. *)
Definition block_state (key iv : list Z) (i : Z) : list Z :=
  le_words 4 4 sigma ++ le_words 4 8 key ++ [i mod 2 ^ 32; (i / 2 ^ 32) mod 2 ^ 32] ++ le_words 4 2 iv.

Definition keystream (key iv : list Z) (i : Z) : list Z := words_bytes 4 (chacha8_block (block_state key iv i)).

(** [n] blocks from block [i] on. *)
Fixpoint stream (key iv : list Z) (i : Z) (n : nat) : list Z :=
  match n with
  | O => []
  | S n' => keystream key iv i ++ stream key iv (i + 1) n'
  end.

Definition chacha8_spec (key iv msg : list Z) : list Z :=
  xor_list msg (stream key iv 0 (S (length msg / 64))).

(** ** Lemmas *)

Lemma length_quarterround a b c d x : length (quarterround a b c d x) = length x.
Proof. unfold quarterround, quarter_line. cbv zeta. by rewrite !length_insert. Qed.

Lemma length_double_round x : length (double_round x) = length x.
Proof. unfold double_round. by rewrite !length_quarterround. Qed.

Lemma length_chacha8_block j : length j = 16%nat -> length (chacha8_block j) = 16%nat.
Proof.
  intros H. unfold chacha8_block. rewrite length_zip_with.
  assert (forall n, length (Nat.iter n double_round j) = 16%nat) as Hn.
  { induction n as [|n IH]; [exact H|].
    change (length (double_round (Nat.iter n double_round j)) = 16%nat). by rewrite length_double_round. }
  rewrite Hn. lia.
Qed.

Lemma length_block_state key iv i : length (block_state key iv i) = 16%nat.
Proof. unfold block_state. by rewrite !length_app, !length_le_words. Qed.

Lemma length_keystream key iv i : length (keystream key iv i) = 64%nat.
Proof. unfold keystream. by rewrite length_words_bytes, length_chacha8_block by apply length_block_state. Qed.

Lemma length_stream key iv i n : length (stream key iv i n) = (64 * n)%nat.
Proof. revert i. induction n as [|n IH]; intros i; cbn [stream]; [done|]. rewrite length_app, length_keystream, IH. lia. Qed.

Lemma take_xor_list n a b : take n (xor_list a b) = xor_list (take n a) (take n b).
Proof. revert a b. unfold xor_list. induction n as [|n IH]; intros [|x a] [|y b]; simpl; f_equal; auto. Qed.

Lemma xor_list_prefix a b c : (length a <= length b)%nat -> xor_list a (b ++ c) = xor_list a b.
Proof.
  revert b. unfold xor_list. induction a as [|x a IH]; intros [|y b] H; simpl in *; try lia; [by destruct c|done|].
  rewrite IH by lia. done.
Qed.

Lemma xor_list_take a b n : (length a <= n)%nat -> xor_list a (take n b) = xor_list a b.
Proof.
  revert b n. unfold xor_list. induction a as [|x a IH]; intros [|y b] [|n] H; simpl in *; try lia; [done..|].
  rewrite IH by lia. done.
Qed.

(** On a full block the body of the loop adds the key stream. *)
Lemma chacha8_xor_spec key iv i blk :
  bytes blk -> length blk = 64%nat -> chacha8_xor (block_state key iv i) blk = xor_list blk (keystream key iv i).
Proof.
  intros Hb Hl. unfold chacha8_xor, keystream.
  rewrite words_bytes_xor by (rewrite length_le_words, length_chacha8_block; [done|apply length_block_state]).
  by rewrite xor_list_comm, (words_bytes_le_words 4 16).
Qed.

Lemma bytes_keystream key iv i : bytes (keystream key iv i).
Proof. apply bytes_words_bytes. Qed.

Lemma bytes_stream key iv i n : bytes (stream key iv i n).
Proof.
  revert i. induction n as [|n IH]; intros i; [constructor|]. apply Forall_app. split; [apply bytes_keystream|apply IH].
Qed.

#[local] Opaque keystream chacha8_xor chacha8_block.

(** The counter counts blocks. *)
Lemma next_counter_spec key iv i : next_counter (block_state key iv i) = block_state key iv (i + 1).
Proof.
  unfold next_counter, block_state.
  assert (forall a b v, <[12%nat := v]> (le_words 4 4 sigma ++ le_words 4 8 key ++ [a; b] ++ le_words 4 2 iv) =
    le_words 4 4 sigma ++ le_words 4 8 key ++ [v; b] ++ le_words 4 2 iv) as E12 by done.
  assert (forall a b v, <[13%nat := v]> (le_words 4 4 sigma ++ le_words 4 8 key ++ [a; b] ++ le_words 4 2 iv) =
    le_words 4 4 sigma ++ le_words 4 8 key ++ [a; v] ++ le_words 4 2 iv) as E13 by done.
  assert (forall a b, (le_words 4 4 sigma ++ le_words 4 8 key ++ [a; b] ++ le_words 4 2 iv) !!! 12%nat = a) as L12 by done.
  assert (forall a b, (le_words 4 4 sigma ++ le_words 4 8 key ++ [a; b] ++ le_words 4 2 iv) !!! 13%nat = b) as L13 by done.
  rewrite L12, E12, L12, L13, E13. unfold addw, uwrap.
  rewrite Zplus_mod_idemp_l.
  pose proof (Z.div_mod (i + 1) (2 ^ 32) ltac:(lia)) as D1. pose proof (Z.div_mod i (2 ^ 32) ltac:(lia)) as D0.
  pose proof (Z.mod_pos_bound (i + 1) (2 ^ 32) ltac:(lia)). pose proof (Z.mod_pos_bound i (2 ^ 32) ltac:(lia)).
  destruct (Z.eqb_spec ((i + 1) mod 2 ^ 32) 0) as [E|E].
  - assert ((i + 1) / 2 ^ 32 = i / 2 ^ 32 + 1) as -> by lia. by rewrite Zplus_mod_idemp_l.
  - assert ((i + 1) / 2 ^ 32 = i / 2 ^ 32) as -> by lia. done.
Qed.

Lemma chacha8_init_spec key iv :
  length key = 32%nat -> length iv = 8%nat -> chacha8_init key iv = Ret (block_state key iv 0).
Proof.
  intros Hk Hv. unfold chacha8_init.
  rewrite (mapM_map _ (fun i => le_val (take 4 (drop (4 * i) key)))).
  2: { intros i Hi. apply elem_of_seq in Hi. apply load_le_ok. lia. }
  cbn [bind]. rewrite (mapM_map _ (fun i => le_val (take 4 (drop (4 * i) iv)))).
  2: { intros i Hi. apply elem_of_seq in Hi. apply load_le_ok. lia. }
  cbn [bind]. unfold block_state. f_equal. f_equal.
  cbn [seq map le_words]. rewrite !drop_drop, !drop_0. done.
Qed.

(** ** The loop *)

Lemma chacha8_loop_spec key iv junk fuel data len cipher i mem :
  length junk = 64%nat -> bytes junk -> bytes mem -> (0 < len)%nat -> (len <= 64 * fuel)%nat ->
  (data + len <= length mem)%nat -> (cipher + len <= length mem)%nat ->
  (cipher <= data \/ data + len <= cipher)%nat ->
  chacha8_loop fuel junk data len cipher (block_state key iv i) mem =
  Ret (put cipher (xor_list (take len (drop data mem)) (stream key iv i fuel)) mem).
Proof.
  intros Hjl Hjb. revert data len cipher i mem.
  induction fuel as [|fuel IH]; intros data len cipher i mem Hm H0 Hf Hd Hc Ho; [lia|]. cbn [chacha8_loop stream].
  pose proof (length_block_state key iv i) as Hst. pose proof (length_keystream key iv i) as Hks.
  set (inp := take len (drop data mem)).
  assert (length inp = len) as Hi by (unfold inp; rewrite length_take, length_drop; lia).
  assert (bytes inp) as Hib by (by apply bytes_take, bytes_drop).
  destruct (Nat.ltb_spec len 64) as [H64|H64].
  - rewrite read_ok by lia. cbn [bind]. fold inp. rewrite chacha8_xor_spec; [|by apply bytes_put|].
    2: { rewrite length_put; lia. }
    rewrite write_ok.
    2: { rewrite length_take, length_xor_list; rewrite length_put; lia. }
    do 2 f_equal. rewrite take_xor_list. unfold put. rewrite take_0. cbn [app]. rewrite take_app_length' by done.
    rewrite xor_list_take, xor_list_prefix by lia. done.
  - rewrite read_ok by lia. cbn [bind].
    set (blk := take 64 (drop data mem)).
    assert (bytes blk) as Hbb by (by apply bytes_take, bytes_drop).
    assert (length blk = 64%nat) as Hbl by (unfold blk; rewrite length_take, length_drop; lia).
    rewrite chacha8_xor_spec by done. set (out := xor_list blk _).
    assert (length out = 64%nat) as Hol by (unfold out; rewrite length_xor_list; lia).
    assert (inp = blk ++ take (len - 64) (drop (data + 64) mem)) as Einp.
    { unfold inp, blk. rewrite <- drop_drop, take_take_drop. f_equal. lia. }
    rewrite write_ok by lia. cbn [bind]. rewrite Einp, xor_list_app by lia. fold out.
    destruct (Nat.leb_spec len 64).
    + assert (len = 64)%nat as -> by lia. rewrite Nat.sub_diag, take_0. cbn [xor_list zip_with]. by rewrite app_nil_r.
    + rewrite next_counter_spec, IH; try lia.
      * rewrite slice_put by lia. rewrite <- Hol at 1. rewrite put_put; [done|].
        unfold xor_list. rewrite length_zip_with, length_take. lia.
      * apply bytes_put; [|done]. apply bytes_xor_list; [done|apply bytes_keystream].
      * rewrite length_put; lia.
      * rewrite length_put; lia.
Qed.

Lemma chacha8_ok junk mem data len key iv cipher :
  length junk = 64%nat -> bytes junk -> bytes mem -> length key = 32%nat -> length iv = 8%nat ->
  (data + len <= length mem)%nat -> (cipher + len <= length mem)%nat ->
  (cipher <= data \/ data + len <= cipher)%nat ->
  chacha8 junk mem data len key iv cipher =
  Ret (put cipher (chacha8_spec key iv (take len (drop data mem))) mem).
Proof.
  intros Hjl Hjb Hm Hk Hv Hd Hc Ho. unfold chacha8, chacha8_spec.
  destruct (Nat.eqb_spec len 0) as [->|H0].
  - rewrite take_0. unfold put. cbn [xor_list zip_with app length]. by rewrite Nat.add_0_r, take_drop.
  - rewrite chacha8_init_spec by done. cbn [bind]. rewrite length_take, length_drop, Nat.min_l by lia.
    apply chacha8_loop_spec; try done; [lia|].
    pose proof (Nat.div_mod len 64 ltac:(lia)). pose proof (Nat.mod_upper_bound len 64). lia.
Qed.

Lemma length_chacha8_spec key iv msg : length (chacha8_spec key iv msg) = length msg.
Proof.
  unfold chacha8_spec, xor_list. rewrite length_zip_with, length_stream.
  pose proof (Nat.div_mod (length msg) 64 ltac:(lia)). pose proof (Nat.mod_upper_bound (length msg) 64). lia.
Qed.

Lemma chacha8_spec_involutive key iv msg : chacha8_spec key iv (chacha8_spec key iv msg) = msg.
Proof.
  unfold chacha8_spec at 1. rewrite length_chacha8_spec. unfold chacha8_spec.
  apply xor_list_involutive. rewrite length_stream.
  pose proof (Nat.div_mod (length msg) 64 ltac:(lia)). pose proof (Nat.mod_upper_bound (length msg) 64). lia.
Qed.

(** ** Properties *)

(** C34: [chacha8] writes the message combined with the key stream (block [i] from the 64-bit counter [i])
    over the output buffer and changes nothing else, for every length, whatever the uninitialised
    [tmp] held, also when encrypting in place or into a buffer that overlaps from below. *)
Theorem chacha8_correct (junk mem : list Z) (data len : nat) (key iv : list Z) (cipher : nat) :
  length junk = 64%nat -> bytes junk -> bytes mem -> length key = 32%nat -> length iv = 8%nat ->
  (data + len <= length mem)%nat -> (cipher + len <= length mem)%nat ->
  (cipher <= data \/ data + len <= cipher)%nat ->
  chacha8 junk mem data len key iv cipher =
  Ret (put cipher (chacha8_spec key iv (take len (drop data mem))) mem).
Proof. exact (chacha8_ok junk mem data len key iv cipher). Qed.

Lemma chacha8_correct_witness :
  let mem := replicate 150 5 in
  chacha8 (replicate 64 9) mem 20 100 (replicate 32 1) (replicate 8 2) 10 =
  Ret (put 10 (chacha8_spec (replicate 32 1) (replicate 8 2) (take 100 (drop 20 mem))) mem).
Proof.
  apply (chacha8_correct (replicate 64 9) (replicate 150 5) 20 100 (replicate 32 1) (replicate 8 2) 10);
    [done|by apply bytesb_true|by apply bytesb_true|done|done|rewrite length_replicate; lia..|lia].
Defined.

(** Decryption inverts encryption: encrypting a buffer in place and then encrypting the result in
    place with the same key and iv restores the memory. *)
Theorem chacha8_roundtrip (junk junk' mem : list Z) (data len : nat) (key iv : list Z) :
  length junk = 64%nat -> bytes junk -> length junk' = 64%nat -> bytes junk' -> bytes mem ->
  length key = 32%nat -> length iv = 8%nat -> (data + len <= length mem)%nat ->
  (let* mem' := chacha8 junk mem data len key iv data in chacha8 junk' mem' data len key iv data) = Ret mem.
Proof.
  intros. rewrite chacha8_ok by (done || lia). cbn [bind].
  set (inp := take len (drop data mem)). assert (length inp = len) as Hl by (unfold inp; rewrite length_take, length_drop; lia).
  pose proof (length_chacha8_spec key iv inp) as Hs. set (out := chacha8_spec key iv inp) in *.
  assert (bytes out) as Hb by (apply bytes_xor_list; [by apply bytes_take, bytes_drop|apply bytes_stream]).
  rewrite chacha8_ok by (try apply bytes_put; rewrite ?length_put; (done || lia)).
  replace (take len (drop data (put data out mem))) with out.
  2: { rewrite <- (slice_put_eq data out mem) at 1 by lia. by rewrite Hs, Hl. }
  unfold out at 1. rewrite chacha8_spec_involutive.
  assert (put data inp (put data out mem) = put data inp mem) as ->.
  { unfold put. rewrite take_app_length', drop_app_ge by (rewrite length_take; lia).
    rewrite length_take, drop_app_ge, drop_drop by lia. do 3 f_equal. lia. }
  unfold inp. by rewrite put_slice.
Qed.

Lemma chacha8_roundtrip_witness :
  let mem := replicate 100 5 in
  (let* mem' := chacha8 (replicate 64 0) mem 3 70 (replicate 32 1) (replicate 8 2) 3 in
   chacha8 (replicate 64 9) mem' 3 70 (replicate 32 1) (replicate 8 2) 3) = Ret mem.
Proof.
  apply (chacha8_roundtrip (replicate 64 0) (replicate 64 9) (replicate 100 5) 3 70 (replicate 32 1) (replicate 8 2));
    [done|by apply bytesb_true|done|by apply bytesb_true|by apply bytesb_true|done|done|rewrite length_replicate; lia].
Defined.
