(* ===== verification/Random.v ===== *)
(** The random generator of src/src/crypto/random.c: the seed read from
    /dev/urandom, the static state with its [curstate] marker, and the
    operations [init_random], [generate_random_bytes] and [deinit_random]
    (built without NDEBUG, so with the assertions). *)

From S2P Require Import Prelude Limbs Bytes Words Keccak KeccakFacts.

(** ** Reading the seed (the branch for systems other than Windows) *)

(** What one [read] of at most [n] bytes can do. *)
Inductive read_result :=
| ReadData (bs : list Z)   (* [res = length bs >= 0] *)
| ReadError (eintr : bool) (* [res = -1]; whether [errno == EINTR] *).

(** How the function can end. [err] and [errx] end the process. *)
Inductive sys_result :=
| SysBytes (bs : list Z)
| SysExit
| SysBlocked (* the reads granted so far have not filled the buffer *).

(** The [for (;;)] loop on the results of the successive reads; [got] holds the
    bytes written so far and [n] what is left. *)
Fixpoint read_loop (reads : list read_result) (got : list Z) (n : nat) : sys_result :=
  match reads with
  | [] => SysBlocked
  | ReadData bs :: reads' =>
      if (length bs =? n)%nat then SysBytes (got ++ bs)
      else if (length bs =? 0)%nat then SysExit
      else read_loop reads' (got ++ bs) (n - length bs)
  | ReadError eintr :: reads' => if eintr then read_loop reads' got n else SysExit
  end.

Definition generate_system_random_bytes (opened : bool) (reads : list read_result) (closed : bool) (n : nat)
  : sys_result :=
  if negb opened then SysExit else
  match read_loop reads [] n with
  | SysBytes bs => if closed then SysBytes bs else SysExit
  | r => r
  end.

(** ** The static state *)

Record rng := { state : list Z; curstate : Z }.

(** Before the initialiser runs: static storage is zero. *)
Definition rng_start : rng := {| state := replicate 200 0; curstate := 0 |}.

(** [seed]: the bytes [generate_system_random_bytes] put in the first 32 bytes. *)
Definition init_random (seed : list Z) (r : rng) : outcome rng :=
  let st := seed ++ drop (length seed) (state r) in
  let* _ := assert (curstate r =? 0) in
  Ret {| state := st; curstate := 1 |}.

Definition deinit_random (r : rng) : outcome rng :=
  let* _ := assert (curstate r =? 1) in
  Ret {| state := replicate 200 0; curstate := 0 |}.

(** The [for (;;)] loop: [out] holds the bytes written to [result]. *)
Fixpoint random_loop (fuel : nat) (n : Z) (out : list Z) (r : rng) : outcome (list Z * rng) :=
  match fuel with
  | O => Fault Diverges
  | S fuel' =>
      let* st := hash_permutation (state r) in
      let r := {| state := st; curstate := curstate r |} in
      if n <=? HASH_DATA_AREA then
        let* _ := assert (curstate r =? 2) in
        Ret (out ++ take (Z.to_nat n) st, {| state := st; curstate := 1 |})
      else random_loop fuel' (n - HASH_DATA_AREA) (out ++ take (Z.to_nat HASH_DATA_AREA) st) r
  end.

Definition generate_random_bytes (n : Z) (r : rng) : outcome (list Z * rng) :=
  let* _ := assert (curstate r =? 1) in
  let r := {| state := state r; curstate := 2 |} in
  if n =? 0 then
    let* _ := assert (curstate r =? 2) in
    Ret ([], {| state := state r; curstate := 1 |})
  else random_loop (S (Z.to_nat (n / HASH_DATA_AREA))) n [] r.

(** ** Histories of calls *)

Inductive op :=
| Init (seed : list Z)
| Generate (n : Z)
| Deinit.

(** The bytes a call returns and the state it leaves. *)
Definition run_op (o : op) (r : rng) : outcome (list Z * rng) :=
  match o with
  | Init seed => let* r := init_random seed r in Ret ([], r)
  | Generate n => generate_random_bytes n r
  | Deinit => let* r := deinit_random r in Ret ([], r)
  end.

Fixpoint run (ops : list op) (r : rng) : outcome (list (list Z) * rng) :=
  match ops with
  | [] => Ret ([], r)
  | o :: ops' =>
      let* '(out, r) := run_op o r in
      let* '(outs, r) := run ops' r in
      Ret (out :: outs, r)
  end.

(** ** Specification *)

(** [m] blocks of output, and the state after them. *)
Fixpoint squeeze (m : nat) (s : list Z) : list Z :=
  match m with
  | O => []
  | S m' => take 136 (perm s) ++ squeeze m' (perm s)
  end.

Definition blocks_needed (n : Z) : nat := Z.to_nat ((n + 135) / 136).

(** The calls in the order the initialiser and the finaliser of the process
    impose: [up] tells whether the generator is initialised. *)
Fixpoint ordered (up : bool) (ops : list op) : bool :=
  match ops with
  | [] => true
  | Init _ :: ops' => negb up && ordered true ops'
  | Generate _ :: ops' => up && ordered up ops'
  | Deinit :: ops' => up && ordered false ops'
  end.

Definition op_ok (o : op) : Prop :=
  match o with
  | Init seed => length seed = 32%nat /\ bytes seed
  | Generate n => 0 <= n < 2 ^ 64
  | Deinit => True
  end.

(** The invariant between calls. *)
Definition rng_ok (up : bool) (r : rng) : Prop :=
  length (state r) = 200%nat /\ bytes (state r) /\ curstate r = if up then 1 else 0.

(** ** Lemmas *)

(** The data of a sequence of reads. *)
Definition read_data (reads : list read_result) : list Z :=
  concat (map (fun r => match r with ReadData bs => bs | ReadError _ => [] end) reads).

(** A read that makes progress or was interrupted. *)
Definition read_ok (r : read_result) : Prop :=
  match r with ReadData bs => bs <> [] | ReadError eintr => eintr = true end.

Lemma read_loop_spec reads got n :
  Forall read_ok reads -> (0 < n)%nat -> length (read_data reads) = n ->
  read_loop reads got n = SysBytes (got ++ read_data reads).
Proof.
  intros H. revert got n. induction H as [|r reads Hr H IH]; intros got n Hn Hl.
  - simpl in Hl. lia.
  - unfold read_data in *. cbn [map concat] in *. rewrite length_app in Hl. cbn [read_loop]. destruct r as [bs|e]; simpl in Hr.
    + destruct (Nat.eqb_spec (length bs) n) as [E|E].
      * assert (concat (map (fun r => match r with ReadData bs => bs | ReadError _ => [] end) reads) = []) as ->
          by (apply length_zero_iff_nil; lia).
        by rewrite app_nil_r.
      * destruct (Nat.eqb_spec (length bs) 0) as [E0|E0]; [by apply length_zero_iff_nil in E0|].
        rewrite IH by lia. by rewrite app_assoc.
    + subst e. apply IH; simpl in *; lia.
Qed.

Lemma length_squeeze m s : length (squeeze m s) = (136 * m)%nat.
Proof.
  revert s. induction m as [|m IH]; intros s; [done|]. cbn [squeeze].
  rewrite length_app, IH, length_take, (proj1 (perm_bytes s)). lia.
Qed.

Lemma random_loop_spec fuel m n out r :
  (S m <= fuel)%nat -> 136 * Z.of_nat m < n <= 136 * Z.of_nat (S m) -> bytes (state r) -> curstate r = 2 ->
  random_loop fuel n out r =
  Ret (out ++ take (Z.to_nat n) (squeeze (S m) (state r)), {| state := Nat.iter (S m) perm (state r); curstate := 1 |}).
Proof.
  revert m n out r. induction fuel as [|fuel IH]; intros m n out r Hf Hn Hb Hc; [lia|]. cbn [random_loop].
  rewrite hash_permutation_spec by done. cbn [bind curstate state].
  destruct (perm_bytes (state r)) as [Hl Hb']. destruct m as [|m].
  - destruct (Z.leb_spec n HASH_DATA_AREA); [|unfold HASH_DATA_AREA in *; lia]. unfold assert. rewrite Hc. cbn [bind Z.eqb Pos.eqb].
    do 3 f_equal. cbn [squeeze]. rewrite app_nil_r, take_take. f_equal. lia.
  - destruct (Z.leb_spec n HASH_DATA_AREA) as [H|H]; unfold HASH_DATA_AREA in *; [lia|].
    rewrite (IH m) by (cbn [state curstate]; done || lia). cbn [state].
    change (Z.to_nat 136) with 136%nat. rewrite <- Nat.iter_succ_r, <- app_assoc. do 3 f_equal.
    change (squeeze (S (S m)) (state r)) with (take 136 (perm (state r)) ++ squeeze (S m) (perm (state r))).
    rewrite (take_app_ge (take 136 (perm (state r)))) by (rewrite length_take; lia).
    f_equal. rewrite length_take, Hl. f_equal. lia.
Qed.

(** One call returns the next blocks of the sponge, cut to [n] bytes. *)
Lemma generate_spec n r :
  0 <= n < 2 ^ 64 -> bytes (state r) -> curstate r = 1 ->
  generate_random_bytes n r =
  Ret (take (Z.to_nat n) (squeeze (blocks_needed n) (state r)),
       {| state := Nat.iter (blocks_needed n) perm (state r); curstate := 1 |}).
Proof.
  intros Hn Hb Hc. unfold generate_random_bytes, assert. rewrite Hc. cbn [bind Z.eqb Pos.eqb curstate state].
  destruct (Z.eqb_spec n 0) as [->|H0]; [done|].
  pose proof (Z.div_mod (n + 135) 136 ltac:(lia)) as E. pose proof (Z.mod_pos_bound (n + 135) 136 ltac:(lia)).
  assert (1 <= (n + 135) / 136) by (apply Z.div_le_lower_bound; lia).
  assert ((n + 135) / 136 <= n / 136 + 1).
  { pose proof (Z.div_mod n 136 ltac:(lia)). pose proof (Z.mod_pos_bound n 136 ltac:(lia)). lia. }
  assert (blocks_needed n = S (blocks_needed n - 1)) as Em by (unfold blocks_needed; lia).
  rewrite Em. rewrite (random_loop_spec _ (blocks_needed n - 1)); cbn [state curstate]; try done.
  - unfold blocks_needed, HASH_DATA_AREA. lia.
  - unfold blocks_needed. lia.
Qed.

Lemma iter_perm_ok m s : length s = 200%nat -> bytes s -> length (Nat.iter m perm s) = 200%nat /\ bytes (Nat.iter m perm s).
Proof. intros Hl Hb. destruct m; [done|]. apply perm_bytes. Qed.

(** Calls in order keep the invariant; any other call fails an assertion. *)
Lemma run_op_spec up o r :
  rng_ok up r -> op_ok o ->
  if ordered up [o]
  then yields (run_op o r) (fun res => rng_ok (match o with Init _ => true | Generate _ => up | Deinit => false end) res.2)
  else run_op o r = Fault AssertFailed.
Proof.
  intros (Hl & Hb & Hc) Ho. unfold ordered. destruct o as [seed|n|]; cbn [run_op op_ok] in *.
  - destruct Ho as [Hs Hsb]. unfold init_random, assert. rewrite Hc. destruct up; [done|]. cbn [negb andb Z.eqb bind].
    apply yields_ret. unfold rng_ok. cbn [snd state curstate]. rewrite Hs. split; [|split; [|done]].
    + rewrite length_app, length_drop. lia.
    + apply Forall_app. split; [done|by apply bytes_drop].
  - destruct up.
    + rewrite generate_spec by (done || rewrite Hc; done). apply yields_ret. cbn [snd].
      destruct (iter_perm_ok (blocks_needed n) (state r) Hl Hb). done.
    + unfold generate_random_bytes, assert. by rewrite Hc.
  - unfold deinit_random, assert. rewrite Hc. destruct up; [|done]. cbn [andb Z.eqb Pos.eqb bind].
    apply yields_ret. unfold rng_ok. cbn [snd state curstate]. split; [done|]. split; [|done]. by apply Forall_replicate.
Qed.

Lemma run_spec up ops r :
  rng_ok up r -> Forall op_ok ops ->
  if ordered up ops then yields (run ops r) (fun res => length res.1 = length ops /\ exists up', rng_ok up' res.2)
  else run ops r = Fault AssertFailed.
Proof.
  intros Hr H. revert up r Hr. induction H as [|o ops Ho H IH]; intros up r Hr.
  - simpl. apply yields_ret. split; [done|]. by exists up.
  - pose proof (run_op_spec up o r Hr Ho) as Hop. cbn [run].
    assert (forall up', (yields (run_op o r) (fun res => rng_ok up' res.2)) ->
      if ordered up' ops then yields (let* '(out, r) := run_op o r in let* '(outs, r) := run ops r in Ret (out :: outs, r))
        (fun res => length res.1 = length (o :: ops) /\ exists up', rng_ok up' res.2)
      else (let* '(out, r) := run_op o r in let* '(outs, r) := run ops r in Ret (out :: outs, r)) = Fault AssertFailed) as Hnext.
    { intros up' ([out r'] & E & Hr'). rewrite E. cbn [bind snd] in *. specialize (IH up' r' Hr').
      destruct (ordered up' ops).
      - destruct IH as ([outs r''] & E' & Hlen & Hup). rewrite E'. apply yields_ret. cbn in *. split; [by rewrite Hlen|done].
      - by rewrite IH. }
    destruct o as [seed|n|]; cbn [ordered] in *; destruct up; cbn [negb andb] in *;
      first [by rewrite Hop | by apply Hnext].
Qed.

Lemma read_loop_exit good bad rest got n :
  Forall read_ok good -> (length (read_data good) < n)%nat -> bad = ReadData [] \/ bad = ReadError false ->
  read_loop (good ++ bad :: rest) got n = SysExit.
Proof.
  intros H. revert got n. induction H as [|r good Hr H IH]; intros got n Hl Hbad.
  - destruct Hbad as [-> | ->]; [|done]. destruct n; [simpl in Hl; lia|]. done.
  - unfold read_data in *. cbn [map concat app] in *. rewrite length_app in Hl. cbn [read_loop].
    destruct r as [bs|e]; simpl in Hr.
    + destruct (Nat.eqb_spec (length bs) n); [lia|].
      destruct (Nat.eqb_spec (length bs) 0) as [E0|E0]; [by apply length_zero_iff_nil in E0|]. apply IH; [lia|done].
    + subst e. by apply IH.
Qed.

(** ** Properties *)

(** The seed is complete or the process ends: over any sequence of short and interrupted reads that
    together deliver [n] bytes, [generate_system_random_bytes] returns exactly these bytes in order,
    and an end of file or an error other than EINTR before that ends the process. *)
Theorem system_random_bytes_correct (good rest : list read_result) (bad : read_result) (n : nat) :
  Forall read_ok good -> (0 < n)%nat ->
  (length (read_data good) = n -> generate_system_random_bytes true good true n = SysBytes (read_data good)) /\
  ((length (read_data good) < n)%nat -> bad = ReadData [] \/ bad = ReadError false ->
   generate_system_random_bytes true (good ++ bad :: rest) true n = SysExit).
Proof.
  intros H Hn. unfold generate_system_random_bytes. cbn [negb]. split.
  - intros Hl. by rewrite read_loop_spec.
  - intros Hl Hbad. by rewrite read_loop_exit.
Qed.

Lemma system_random_bytes_correct_witness :
  generate_system_random_bytes true [ReadData [1; 2]; ReadError true; ReadData [3]] true 3 = SysBytes [1; 2; 3].
Proof.
  refine (proj1 (system_random_bytes_correct [ReadData [1; 2]; ReadError true; ReadData [3]] [] (ReadError false) 3 _ _) _);
    [repeat constructor; discriminate|lia|done].
Defined.

(** [generate_random_bytes] returns the next [n] bytes of the sponge: it applies the permutation once per
    136 bytes, outputs only the data area, never the remaining 64 bytes of the state, and leaves
    [curstate] at 1. *)
Theorem generate_random_bytes_correct (n : Z) (r : rng) :
  0 <= n < 2 ^ 64 -> bytes (state r) -> curstate r = 1 ->
  generate_random_bytes n r =
  Ret (take (Z.to_nat n) (squeeze (blocks_needed n) (state r)),
       {| state := Nat.iter (blocks_needed n) perm (state r); curstate := 1 |}).
Proof. exact (generate_spec n r). Qed.

Lemma generate_random_bytes_correct_witness :
  let r := {| state := replicate 200 3; curstate := 1 |} in
  generate_random_bytes 137 r =
  Ret (take (Z.to_nat 137) (squeeze (blocks_needed 137) (state r)),
       {| state := Nat.iter (blocks_needed 137) perm (state r); curstate := 1 |}).
Proof.
  apply (generate_random_bytes_correct 137 {| state := replicate 200 3; curstate := 1 |});
    [lia|by apply bytesb_true|done].
Defined.

(** C35: the state machine of the generator: a history of calls from the start of the process runs without a
    failing assertion exactly when every generation and the finaliser come while the generator is
    initialised and every initialisation comes while it is not; the state then is always 200 bytes
    with [curstate] 0 or 1, and every other history stops at a failed assertion. *)
Theorem random_history (ops : list op) :
  Forall op_ok ops ->
  if ordered false ops
  then yields (run ops rng_start) (fun res => length res.1 = length ops /\ exists up, rng_ok up res.2)
  else run ops rng_start = Fault AssertFailed.
Proof.
  intros H. apply run_spec; [|done]. split; [done|]. split; [|done]. by apply Forall_replicate.
Qed.

Lemma random_history_witness :
  if ordered false [Init (replicate 32 7); Generate 5; Deinit]
  then yields (run [Init (replicate 32 7); Generate 5; Deinit] rng_start)
         (fun res => length res.1 = 3%nat /\ exists up, rng_ok up res.2)
  else run [Init (replicate 32 7); Generate 5; Deinit] rng_start = Fault AssertFailed.
Proof.
  apply (random_history [Init (replicate 32 7); Generate 5; Deinit]).
  repeat constructor; try lia; by apply bytesb_true.
Defined.
