(* ===== verification/Blake.v ===== *)
(** BLAKE-256, BLAKE-224 and their HMACs: src/src/crypto/blake256.c, and
    hash_extra_blake of src/src/crypto/hash-extra-blake.c.

    Message lengths are in bits where the C functions count bits ([uint64_t]);
    [uint32_t] words wrap; [buf] keeps whatever it held before. *)

From S2P Require Import Prelude Limbs Bytes Words.

(** ** Constants *)

Definition sigma : list (list nat) :=
  [[ 0; 1; 2; 3; 4; 5; 6; 7; 8; 9;10;11;12;13;14;15];
   [14;10; 4; 8; 9;15;13; 6; 1;12; 0; 2;11; 7; 5; 3];
   [11; 8;12; 0; 5; 2;15;13;10;14; 3; 6; 7; 1; 9; 4];
   [ 7; 9; 3; 1;13;12;11;14; 2; 6; 5;10; 4; 0;15; 8];
   [ 9; 0; 5; 7; 2; 4;10;15;14; 1;11;12; 6; 8; 3;13];
   [ 2;12; 6;10; 0;11; 8; 3; 4;13; 7; 5;15;14; 1; 9];
   [12; 5; 1;15;14;13; 4;10; 0; 7; 6; 3; 9; 2; 8;11];
   [13;11; 7;14;12; 1; 3; 9; 5; 0;15; 4; 8; 6; 2;10];
   [ 6;15;14; 9;11; 3; 0; 8;12; 2;13; 7; 1; 4;10; 5];
   [10; 2; 8; 4; 7; 6; 1; 5;15;11; 9;14; 3;12;13; 0];
   [ 0; 1; 2; 3; 4; 5; 6; 7; 8; 9;10;11;12;13;14;15];
   [14;10; 4; 8; 9;15;13; 6; 1;12; 0; 2;11; 7; 5; 3];
   [11; 8;12; 0; 5; 2;15;13;10;14; 3; 6; 7; 1; 9; 4];
   [ 7; 9; 3; 1;13;12;11;14; 2; 6; 5;10; 4; 0;15; 8]]%nat.

Definition cst : list Z :=
  [0x243F6A88; 0x85A308D3; 0x13198A2E; 0x03707344;
   0xA4093822; 0x299F31D0; 0x082EFA98; 0xEC4E6C89;
   0x452821E6; 0x38D01377; 0xBE5466CF; 0x34E90C6C;
   0xC0AC29B7; 0xC97C50DD; 0x3F84D5B5; 0xB5470917].

Definition padding : list Z := 0x80 :: replicate 63 0.

(** ** The state *)

Record bstate := {
  bh : list Z;        (* uint32_t h[8] *)
  bs : list Z;        (* uint32_t s[4] *)
  bt0 : Z; bt1 : Z;   (* uint32_t t[2] *)
  buflen : Z;         (* int buflen *)
  nullt : Z;          (* int nullt *)
  bbuf : list Z       (* uint8_t buf[64] *)
}.

Definition with_h h S := {| bh := h; bs := bs S; bt0 := bt0 S; bt1 := bt1 S; buflen := buflen S; nullt := nullt S; bbuf := bbuf S |}.
Definition with_t t0 t1 S := {| bh := bh S; bs := bs S; bt0 := t0; bt1 := t1; buflen := buflen S; nullt := nullt S; bbuf := bbuf S |}.
Definition with_buf buf S := {| bh := bh S; bs := bs S; bt0 := bt0 S; bt1 := bt1 S; buflen := buflen S; nullt := nullt S; bbuf := buf |}.
Definition with_buflen n S := {| bh := bh S; bs := bs S; bt0 := bt0 S; bt1 := bt1 S; buflen := n; nullt := nullt S; bbuf := bbuf S |}.
Definition with_nullt n S := {| bh := bh S; bs := bs S; bt0 := bt0 S; bt1 := bt1 S; buflen := buflen S; nullt := n; bbuf := bbuf S |}.

(** ** Compression *)

(** [U8TO32(p)] and [U32TO8(p, v)]: big-endian. *)
Definition U8TO32 (p : list Z) : Z :=
  Z.lor (Z.lor (Z.lor (uwrap 32 (Z.shiftl (p !!! 0%nat) 24)) (uwrap 32 (Z.shiftl (p !!! 1%nat) 16)))
               (uwrap 32 (Z.shiftl (p !!! 2%nat) 8))) (p !!! 3%nat).
Definition U32TO8 (v : Z) : list Z :=
  [u8 (Z.shiftr v 24); u8 (Z.shiftr v 16); u8 (Z.shiftr v 8); u8 v].

(** [ROT(x,n)] *)
Definition ROT (x n : Z) : Z := rotl 32 x (32 - n).

(** [v[a] += (m[sigma[i][e]] ^ cst[sigma[i][e+1]]) + v[b]; v[d] = ROT(v[d] ^ v[a],r);
     v[c] += v[d]; v[b] = ROT(v[b] ^ v[c],s);] with [x] for the bracket. *)
Definition G_half (a b c d : nat) (x r s : Z) (v : list Z) : list Z :=
  let va := addw 32 (v !!! a) (addw 32 x (v !!! b)) in
  let vd := ROT (Z.lxor (v !!! d) va) r in
  let vc := addw 32 (v !!! c) vd in
  let vb := ROT (Z.lxor (v !!! b) vc) s in
  <[b := vb]> (<[c := vc]> (<[d := vd]> (<[a := va]> v))).

Definition G (m : list Z) (row : list nat) (a b c d e : nat) (v : list Z) : list Z :=
  let v := G_half a b c d (Z.lxor (m !!! (row !!! e)) (cst !!! (row !!! S e))) 16 12 v in
  G_half a b c d (Z.lxor (m !!! (row !!! S e)) (cst !!! (row !!! e))) 8 7 v.

Definition blake_round (m : list Z) (v : list Z) (i : nat) : list Z :=
  let row := sigma !!! i in
  let v := G m row 0 4 8 12 0 v in
  let v := G m row 1 5 9 13 2 v in
  let v := G m row 2 6 10 14 4 v in
  let v := G m row 3 7 11 15 6 v in
  let v := G m row 3 4 9 14 14 v in
  let v := G m row 2 7 8 13 12 v in
  let v := G m row 0 5 10 15 8 v in
  G m row 1 6 11 12 10 v.

Definition blake_v (S : bstate) : list Z :=
  let x := if nullt S =? 0 then bt0 S else 0 in
  let y := if nullt S =? 0 then bt1 S else 0 in
  bh S ++
  [Z.lxor (bs S !!! 0%nat) 0x243F6A88; Z.lxor (bs S !!! 1%nat) 0x85A308D3;
   Z.lxor (bs S !!! 2%nat) 0x13198A2E; Z.lxor (bs S !!! 3%nat) 0x03707344;
   Z.lxor 0xA4093822 x; Z.lxor 0x299F31D0 x; Z.lxor 0x082EFA98 y; Z.lxor 0xEC4E6C89 y].

Definition blake256_compress (S : bstate) (block : list Z) : outcome bstate :=
  if (length block <? 64)%nat then Fault OutOfBounds else
  let m := map (fun i => U8TO32 (drop (i * 4) block)) (seq 0 16) in
  let v := foldl (blake_round m) (blake_v S) (seq 0 14) in
  let h := foldl (fun h i => <[(i mod 8)%nat := Z.lxor (h !!! (i mod 8)%nat) (v !!! i)]> h) (bh S) (seq 0 16) in
  let h := foldl (fun h i => <[i := Z.lxor (h !!! i) (bs S !!! (i mod 4)%nat)]> h) h (seq 0 8) in
  Ret (with_h h S).

(** ** Initialisation *)

Definition blake_init (h : list Z) (S : bstate) : bstate :=
  {| bh := h; bs := [0; 0; 0; 0]; bt0 := 0; bt1 := 0; buflen := 0; nullt := 0; bbuf := bbuf S |}.

Definition blake256_iv : list Z :=
  [0x6A09E667; 0xBB67AE85; 0x3C6EF372; 0xA54FF53A; 0x510E527F; 0x9B05688C; 0x1F83D9AB; 0x5BE0CD19].
Definition blake224_iv : list Z :=
  [0xC1059ED8; 0x367CD507; 0x3070DD17; 0xF70E5939; 0xFFC00B31; 0x68581511; 0x64F98FA7; 0xBEFA4FA4].

Definition blake256_init : bstate -> bstate := blake_init blake256_iv.
Definition blake224_init : bstate -> bstate := blake_init blake224_iv.

(** ** Update: [datalen] in bits *)

(** [S->t[0] += 512; if (S->t[0] == 0) S->t[1]++;] *)
Definition count_block (S : bstate) : bstate :=
  let t0 := addw 32 (bt0 S) 512 in
  with_t t0 (if t0 =? 0 then addw 32 (bt1 S) 1 else bt1 S) S.

(** [memcpy(S->buf + left, data, n)] *)
Definition fill_buf (left n : nat) (data : list Z) (S : bstate) : outcome bstate :=
  if (length data <? n)%nat || (64 <? left + n)%nat then Fault OutOfBounds else
  Ret (with_buf (take left (bbuf S) ++ take n data ++ drop (left + n) (bbuf S)) S).

(** [while (datalen >= 512)] *)
Fixpoint blake_blocks (fuel : nat) (S : bstate) (data : list Z) (datalen : Z) : outcome (bstate * list Z * Z) :=
  if datalen <? 512 then Ret (S, data, datalen) else
  match fuel with
  | O => Fault Diverges
  | S fuel' =>
      let* S := blake256_compress (count_block S) data in
      blake_blocks fuel' S (drop 64 data) (datalen - 512)
  end.

Definition blake256_update (S : bstate) (data : list Z) (datalen : Z) : outcome bstate :=
  let left := Z.shiftr (buflen S) 3 in
  let fill := 64 - left in
  let* '(S, data, datalen, left) :=
    if negb (left =? 0) && (fill <=? Z.land (Z.shiftr datalen 3) 0x3F) then
      let* S := fill_buf (Z.to_nat left) (Z.to_nat fill) data S in
      let S := count_block S in
      let* S := blake256_compress S (bbuf S) in
      Ret (S, drop (Z.to_nat fill) data, uwrap 64 (datalen - shl 32 fill 3), 0)
    else Ret (S, data, datalen, left) in
  let* '(S, data, datalen) := blake_blocks (Z.to_nat (datalen / 512)) S data datalen in
  if 0 <? datalen then
    let* S := fill_buf (Z.to_nat left) (Z.to_nat (Z.shiftr datalen 3)) data S in
    Ret (with_buflen (swrap 32 (shl 32 left 3 + datalen)) S)
  else Ret (with_buflen 0 S).

Definition blake224_update : bstate -> list Z -> Z -> outcome bstate := blake256_update.

(** ** Finalisation *)

(** [S->t[0] -= n;] *)
Definition sub_t (n : Z) (S : bstate) : bstate := with_t (uwrap 32 (bt0 S - n)) (bt1 S) S.

(** The 32 bytes written to [digest]. *)
Definition blake256_final_h (S : bstate) (pa pb : Z) : outcome (list Z) :=
  let lo := uwrap 32 (bt0 S + buflen S) in
  let hi := if lo <? uwrap 32 (buflen S) then addw 32 (bt1 S) 1 else bt1 S in
  let msglen := U32TO8 hi ++ U32TO8 lo in
  let* S :=
    if buflen S =? 440 then
      blake256_update (sub_t 8 S) [pa] 8
    else
      let* S :=
        if buflen S <? 440 then
          let S := if buflen S =? 0 then with_nullt 1 S else S in
          let n := 440 - buflen S in
          blake256_update (sub_t n S) padding n
        else
          let n := 512 - buflen S in
          let* S := blake256_update (sub_t n S) padding n in
          let* S := blake256_update (sub_t 440 S) (drop 1 padding) 440 in
          Ret (with_nullt 1 S) in
      let* S := blake256_update S [pb] 8 in
      Ret (sub_t 8 S) in
  let* S := blake256_update (sub_t 64 S) msglen 64 in
  Ret (concat (map U32TO8 (bh S))).

Definition blake256_final (S : bstate) : outcome (list Z) := blake256_final_h S 0x81 0x01.
Definition blake224_final (S : bstate) : outcome (list Z) := blake256_final_h S 0x80 0x00.

(** [inlen] in bytes; [S0] is the uninitialised local state. *)
Definition blake256_hash (S0 : bstate) (inp : list Z) (inlen : Z) : outcome (list Z) :=
  let* S := blake256_update (blake256_init S0) inp (uwrap 64 (inlen * 8)) in
  blake256_final S.

Definition blake224_hash (S0 : bstate) (inp : list Z) (inlen : Z) : outcome (list Z) :=
  let* S := blake224_update (blake224_init S0) inp (uwrap 64 (inlen * 8)) in
  blake224_final S.

Definition hash_extra_blake (S0 : bstate) (data : list Z) (length : Z) : outcome (list Z) :=
  blake256_hash S0 data length.

(** ** HMAC *)

Record hmac_state := { inner : bstate; outer : bstate }.

(** [memset(pad, byte, 64); for (i = 0; i < keylen; ++i) pad[i] ^= key[i];] *)
Definition hmac_pad (byte : Z) (key : list Z) : list Z :=
  xor_list key (replicate (length key) byte) ++ replicate (64 - length key) byte.

(** [hashed] is the length that replaces that of a hashed key: 32 or 28. *)
Definition hmac_init (init : bstate -> bstate) (hashed : Z) (S0 : bstate) (St : hmac_state) (key : list Z) (keylen : Z)
  : outcome hmac_state :=
  if Z.of_nat (length key) <? keylen then Fault OutOfBounds else
  let* key := (if 64 <? keylen then
                 let* kh := blake256_hash S0 key keylen in Ret (take (Z.to_nat hashed) kh)
               else Ret (take (Z.to_nat keylen) key)) in
  let* i := blake256_update (init (inner St)) (hmac_pad 0x36 key) 512 in
  let* o := blake256_update (init (outer St)) (hmac_pad 0x5c key) 512 in
  Ret {| inner := i; outer := o |}.

Definition hmac_blake256_init := hmac_init blake256_init 32.
Definition hmac_blake224_init := hmac_init blake224_init 28.

Definition hmac_blake256_update (St : hmac_state) (data : list Z) (datalen : Z) : outcome hmac_state :=
  let* i := blake256_update (inner St) data datalen in
  Ret {| inner := i; outer := outer St |}.
Definition hmac_blake224_update := hmac_blake256_update.

Definition hmac_blake256_final (St : hmac_state) : outcome (list Z) :=
  let* ihash := blake256_final (inner St) in
  let* o := blake256_update (outer St) ihash 256 in
  blake256_final o.

Definition hmac_blake224_final (St : hmac_state) : outcome (list Z) :=
  let* ihash := blake224_final (inner St) in
  let* o := blake224_update (outer St) ihash 224 in
  blake224_final o.

Definition hmac_blake256_hash (S0 : bstate) (St : hmac_state) (key : list Z) (keylen : Z) (inp : list Z) (inlen : Z)
  : outcome (list Z) :=
  let* St := hmac_blake256_init S0 St key keylen in
  let* St := hmac_blake256_update St inp (uwrap 64 (inlen * 8)) in
  hmac_blake256_final St.

Definition hmac_blake224_hash (S0 : bstate) (St : hmac_state) (key : list Z) (keylen : Z) (inp : list Z) (inlen : Z)
  : outcome (list Z) :=
  let* St := hmac_blake224_init S0 St key keylen in
  let* St := hmac_blake224_update St inp (uwrap 64 (inlen * 8)) in
  hmac_blake224_final St.
