(* ===== verification/BlakeSpec.v ===== *)
(** BLAKE-256 and BLAKE-224 as their specification defines them, written
    without the definitions that model blake256.c: the constants are computed
    from pi and from the square roots of primes, the step [full_step] acts on four
    words, a round applies it to the columns and then to the diagonals. *)

From S2P Require Import Prelude Bytes Words.

(** ** Constants *)

(** [arctan (1/q)] as the alternating series, in units of [1/one], with [p] for [one/q^k]. *)
Fixpoint arctan_inv (terms : nat) (p q k : Z) : Z :=
  match terms with
  | O => 0
  | S n => p / k - arctan_inv n (p / (q * q)) q (k + 2)
  end.

(** Machin: pi = 4 (4 arctan (1/5) - arctan (1/239)), with 640 bits after the
    point, 128 more than the constants need. *)
Definition pi_640 : Z :=
  let one := 2 ^ 640 in
  4 * (4 * arctan_inv 150 (one / 5) 5 1 - arctan_inv 150 (one / 239) 239 1).

(** The sixteen constants: the first 512 bits of the fraction of pi. *)
Definition pi_words : list Z := map (fun i => (pi_640 / 2 ^ (640 - 32 * (Z.of_nat i + 1))) mod 2 ^ 32) (seq 0 16).

(** The first 32 bits of the fractions of the square roots of the first eight
    primes, and the second 32 bits for the next eight. *)
Definition root_iv256 : list Z := map (fun p => Z.sqrt (p * 2 ^ 64) mod 2 ^ 32) [2; 3; 5; 7; 11; 13; 17; 19].
Definition root_iv224 : list Z := map (fun p => Z.sqrt (p * 2 ^ 128) mod 2 ^ 32) [23; 29; 31; 37; 41; 43; 47; 53].

(** The ten permutations. *)
Definition perms : list (list nat) :=
  [[ 0; 1;  2; 3;  4; 5;  6; 7;  8; 9; 10;11; 12;13; 14;15];
   [14;10;  4; 8;  9;15; 13; 6;  1;12;  0; 2; 11; 7;  5; 3];
   [11; 8; 12; 0;  5; 2; 15;13; 10;14;  3; 6;  7; 1;  9; 4];
   [ 7; 9;  3; 1; 13;12; 11;14;  2; 6;  5;10;  4; 0; 15; 8];
   [ 9; 0;  5; 7;  2; 4; 10;15; 14; 1; 11;12;  6; 8;  3;13];
   [ 2;12;  6;10;  0;11;  8; 3;  4;13;  7; 5; 15;14;  1; 9];
   [12; 5;  1;15; 14;13;  4;10;  0; 7;  6; 3;  9; 2;  8;11];
   [13;11;  7;14; 12; 1;  3; 9;  5; 0; 15; 4;  8; 6;  2;10];
   [ 6;15; 14; 9; 11; 3;  0; 8; 12; 2; 13; 7;  1; 4; 10; 5];
   [10; 2;  8; 4;  7; 6;  1; 5; 15;11;  9;14;  3;12; 13; 0]]%nat.

(** ** Compression *)

(** Addition and rotation to the right of 32-bit words. *)
Definition plus32 (x y : Z) : Z := (x + y) mod 2 ^ 32.
Definition ror32 (x n : Z) : Z := Z.lor (Z.shiftr x n) (Z.shiftl x (32 - n) mod 2 ^ 32).

(** One half of the step: [a + b + z], and the rotations by [r] and [s]. *)
Definition half_step (z r s : Z) (w : Z * Z * Z * Z) : Z * Z * Z * Z :=
  let '(a, b, c, d) := w in
  let a := plus32 (plus32 a b) z in
  let d := ror32 (Z.lxor d a) r in
  let c := plus32 c d in
  let b := ror32 (Z.lxor b c) s in
  (a, b, c, d).

(** The step on four words, [y] and [z] the two words of message and constant. *)
Definition full_step (y z : Z) (w : Z * Z * Z * Z) : Z * Z * Z * Z := half_step z 8 7 (half_step y 16 12 w).

(** [G_i] on the words of [v] at four places. *)
Definition g_step (m : list Z) (perm : list nat) (i : nat) (a b c d : nat) (v : list Z) : list Z :=
  let j := perm !!! (2 * i)%nat in
  let k := perm !!! (2 * i + 1)%nat in
  let '(wa, wb, wc, wd) :=
    full_step (Z.lxor (m !!! j) (pi_words !!! k)) (Z.lxor (m !!! k) (pi_words !!! j)) (v !!! a, v !!! b, v !!! c, v !!! d) in
  <[a := wa]> (<[b := wb]> (<[c := wc]> (<[d := wd]> v))).

(** Round [r] uses permutation [r mod 10]: [G_0] to [G_3] on the columns of
    the 4 by 4 matrix, [G_4] to [G_7] on its diagonals. *)
Definition ref_round (m : list Z) (v : list Z) (r : nat) : list Z :=
  let perm := perms !!! (r mod 10)%nat in
  let v := foldl (fun v i => g_step m perm i i (4 + i) (8 + i) (12 + i) v) v (seq 0 4) in
  foldl (fun v i => g_step m perm (4 + i) i (4 + (i + 1) mod 4) (8 + (i + 2) mod 4) (12 + (i + 3) mod 4) v) v (seq 0 4).

(** Compression with a zero salt and the 64-bit counter [t]. *)
Definition compress (h : list Z) (t : Z) (block : list Z) : list Z :=
  let m := map (fun i => be_val (take 4 (drop (i * 4) block))) (seq 0 16) in
  let lo := t mod 2 ^ 32 in
  let hi := (t / 2 ^ 32) mod 2 ^ 32 in
  let v := h ++ take 4 pi_words ++ [Z.lxor (pi_words !!! 4%nat) lo; Z.lxor (pi_words !!! 5%nat) lo;
                                    Z.lxor (pi_words !!! 6%nat) hi; Z.lxor (pi_words !!! 7%nat) hi] in
  let v := foldl (ref_round m) v (seq 0 14) in
  map (fun i => Z.lxor (Z.lxor (h !!! i) (v !!! i)) (v !!! (i + 8)%nat)) (seq 0 8).

(** ** Blocks and padding *)

(** Full message blocks: the counter is the number of bits up to their end. *)
Fixpoint chain (h : list Z) (t : Z) (m : list Z) (n : nat) : list Z :=
  match n with
  | O => h
  | S n' => chain (compress h (t + 512) (take 64 m)) (t + 512) (drop 64 m) n'
  end.

(** The padding: a bit 1, zeros, and [pb] (1 for BLAKE-256, 0 for BLAKE-224)
    before the 64-bit length. *)
Definition blake_pad (pb : Z) (len : nat) : list Z :=
  let r := (len mod 64)%nat in
  let k := (if (r <=? 55)%nat then 56 - r else 120 - r)%nat in
  (if (k =? 1)%nat then [Z.lor 0x80 pb] else 0x80 :: replicate (k - 2) 0 ++ [pb]) ++ be_bytes 8 (8 * Z.of_nat len).

(** The final chaining value.  After the full blocks the rest of the message
    and the padding fill one block, or two; a block without message bits has
    counter 0. *)
Definition chaining (iv : list Z) (pb : Z) (m : list Z) : list Z :=
  let len := length m in
  let q := (len / 64)%nat in
  let h := chain iv 0 m q in
  let tail := drop (64 * q) m ++ blake_pad pb len in
  let bits := 8 * Z.of_nat len in
  let h := compress h (if (len mod 64 =? 0)%nat then 0 else bits) (take 64 tail) in
  if (length tail =? 64)%nat then h else compress h 0 (drop 64 tail).

(** All eight words of it, in big-endian bytes. *)
Definition blake_words (iv : list Z) (pb : Z) (m : list Z) : list Z := concat (map (be_bytes 4) (chaining iv pb m)).

(** ** The two functions *)

(** BLAKE-256: 32 bytes; BLAKE-224: the first 28. *)
Definition blake256 (m : list Z) : list Z := blake_words root_iv256 1 m.
Definition blake224 (m : list Z) : list Z := take 28 (blake_words root_iv224 0 m).

(** The test vectors of the specification (one and 72 zero bytes), and the empty message of
    tests/hash/tests-extra-blake.txt. *)
Example blake256_kat :
  be_val (blake256 [0]) = 0x0CE8D4EF4DD7CD8D62DFDED9D4EDB0A774AE6A41929A74DA23109E8F11139C87 /\
  be_val (blake256 (replicate 72 0)) = 0xD419BAD32D504FB7D44D460C42C5593FE544FA4C135DEC31E21BD9ABDCC22D41 /\
  be_val (blake256 []) = 0x716f6e863f744b9ac22c97ec7b76ea5f5908bc5b2f67c61510bfc4751384ea7a.
Proof. vm_compute. split_and!; reflexivity. Qed.

Example blake224_kat :
  be_val (blake224 [0]) = 0x4504CB0314FB2A4F7A692E696E487912FE3F2468FE312C73A5278EC5 /\
  be_val (blake224 (replicate 72 0)) = 0xF5AA00DD1CB847E3140372AF7B5C46B4888D82C8C0A917913CFB5D04.
Proof. vm_compute. split_and!; reflexivity. Qed.
