(* ===== verification/BlakeFacts.v ===== *)
(** blake256.c against BlakeSpec.v: the constants, the compression function
    with the diagonal steps in their specified order, the padding, the block
    counter, and the buffering of [blake256_update]. *)

From S2P Require Import Prelude Limbs Bytes Words Blake BlakeSpec.

(** ** Words *)

Lemma U8TO32_be p : bytes p -> (4 <= length p)%nat -> U8TO32 p = be_val (take 4 p).
Proof.
  intros H Hl. destruct p as [|a [|b [|c [|d p]]]]; simpl in Hl; try lia.
  inversion_clear H as [|? ? Ha H']. inversion_clear H' as [|? ? Hb H'']. inversion_clear H'' as [|? ? Hc H3].
  inversion_clear H3 as [|? ? Hd _]. unfold is_byte in *.
  change (U8TO32 (a :: b :: c :: d :: p)) with
    (Z.lor (Z.lor (Z.lor (uwrap 32 (Z.shiftl a 24)) (uwrap 32 (Z.shiftl b 16))) (uwrap 32 (Z.shiftl c 8))) d).
  rewrite !uwrap_small by (rewrite Z.shiftl_mul_pow2 by lia; lia).
  change (be_val (take 4 (a :: b :: c :: d :: p))) with (d + 256 * (c + 256 * (b + 256 * (a + 256 * 0)))).
  transitivity (Z.lor d (Z.shiftl (Z.lor c (Z.shiftl (Z.lor b (Z.shiftl a 8)) 8)) 8)).
  - rewrite !Z.shiftl_lor, !Z.shiftl_shiftl by lia. change (8 + (8 + 8)) with 24. change (8 + 8) with 16.
    apply Z.bits_inj'. intros n Hn. rewrite !Z.lor_spec.
    destruct (Z.testbit d n), (Z.testbit (Z.shiftl c 8) n), (Z.testbit (Z.shiftl b 16) n), (Z.testbit (Z.shiftl a 24) n); done.
  - rewrite !lor_add by lia. lia.
Qed.

Lemma U32TO8_be v : U32TO8 v = be_bytes 4 v.
Proof.
  unfold U32TO8, be_bytes, u8, uwrap. cbn [le_bytes rev app]. rewrite !Z.shiftr_div_pow2 by lia.
  rewrite !Z.div_div by lia. done.
Qed.

(** ** The compression function *)

(** The literals of the source are the constants of the specification. *)
Lemma cst_pi : cst = pi_words.
Proof. vm_compute. reflexivity. Qed.

Lemma iv_sqrt : blake256_iv = root_iv256 /\ blake224_iv = root_iv224.
Proof. vm_compute. done. Qed.

Lemma sigma_perms r : (r < 14)%nat -> sigma !!! r = perms !!! (r mod 10)%nat.
Proof. intros H. do 14 (destruct r as [|r]; [reflexivity|]). lia. Qed.

#[local] Opaque pi_words cst.

Lemma addw_plus32 a x b : addw 32 a (addw 32 x b) = plus32 (plus32 a b) x.
Proof.
  unfold addw, plus32, uwrap. rewrite Zplus_mod_idemp_l, Zplus_mod_idemp_r. f_equal. lia.
Qed.

Lemma ROT_ror32 x n : ROT x n = ror32 x n.
Proof. unfold ROT, rotl, ror32, uwrap. rewrite Z.lor_comm. do 2 f_equal. lia. Qed.

(** The two halves of [G] in the words of the specification. *)
Lemma G_half_step a b c d x r s v :
  G_half a b c d x r s v =
  let '(wa, wb, wc, wd) := half_step x r s (v !!! a, v !!! b, v !!! c, v !!! d) in
  <[b := wb]> (<[c := wc]> (<[d := wd]> (<[a := wa]> v))).
Proof.
  unfold G_half, half_step. cbv zeta. rewrite addw_plus32, !ROT_ror32.
  change (addw 32 (v !!! c)) with (plus32 (v !!! c)). reflexivity.
Qed.

Definition G2 (a b c d : nat) (x y : Z) (v : list Z) : list Z :=
  let '(wa, wb, wc, wd) := full_step x y (v !!! a, v !!! b, v !!! c, v !!! d) in
  <[a := wa]> (<[b := wb]> (<[c := wc]> (<[d := wd]> v))).

(** Four places of the matrix, given by a column or a diagonal. *)
Definition places (p : nat * nat * nat * nat) : Prop :=
  p ∈ [(0, 4, 8, 12); (1, 5, 9, 13); (2, 6, 10, 14); (3, 7, 11, 15);
       (0, 5, 10, 15); (1, 6, 11, 12); (2, 7, 8, 13); (3, 4, 9, 14)]%nat.

Ltac words16 v H :=
  do 16 (destruct v as [|? v]; [discriminate H|]); destruct v; [|discriminate H].

Lemma G_halves_G2 a b c d x y v :
  places (a, b, c, d) -> length v = 16%nat -> G_half a b c d y 8 7 (G_half a b c d x 16 12 v) = G2 a b c d x y v.
Proof.
  intros Hp H. rewrite !G_half_step. unfold G2, full_step.
  words16 v H. unfold places in Hp.
  repeat (apply elem_of_cons in Hp as [[= -> -> -> ->]|Hp]; [cbv -[plus32 ror32 Z.lxor]; reflexivity|]).
  by apply elem_of_nil in Hp.
Qed.

Lemma length_G m row a b c d e v : length (G m row a b c d e v) = length v.
Proof. unfold G, G_half. cbv zeta. by rewrite !length_insert. Qed.

(** [G] with the words of message and constants the specification gives. *)
Definition G_ref (m : list Z) (row : list nat) (a b c d e : nat) (v : list Z) : list Z :=
  G2 a b c d (Z.lxor (m !!! (row !!! e)) (pi_words !!! (row !!! S e)))
             (Z.lxor (m !!! (row !!! S e)) (pi_words !!! (row !!! e))) v.

Lemma G_G_ref m row a b c d e v :
  places (a, b, c, d) -> length v = 16%nat -> G m row a b c d e v = G_ref m row a b c d e v.
Proof. intros Hp H. unfold G, G_ref. rewrite cst_pi. by apply G_halves_G2. Qed.

Lemma length_G2 a b c d x y v : length (G2 a b c d x y v) = length v.
Proof. unfold G2. destruct (full_step _ _ _) as [[[? ?] ?] ?]. by rewrite !length_insert. Qed.

Lemma length_G_ref m row a b c d e v : length (G_ref m row a b c d e v) = length v.
Proof. apply length_G2. Qed.

(** The diagonal steps act on different words: their order does not matter. *)
Lemma diagonals_comm x0 y0 x1 y1 x2 y2 x3 y3 v :
  length v = 16%nat ->
  G2 1 6 11 12 x1 y1 (G2 0 5 10 15 x0 y0 (G2 2 7 8 13 x2 y2 (G2 3 4 9 14 x3 y3 v))) =
  G2 3 4 9 14 x3 y3 (G2 2 7 8 13 x2 y2 (G2 1 6 11 12 x1 y1 (G2 0 5 10 15 x0 y0 v))).
Proof.
  intros H. words16 v H. cbv -[plus32 ror32 Z.lxor]. reflexivity.
Qed.

Lemma g_step_G_ref m perm i a b c d v : g_step m perm i a b c d v = G_ref m perm a b c d (2 * i) v.
Proof. unfold g_step. replace (2 * i + 1)%nat with (S (2 * i)) by lia. reflexivity. Qed.

Lemma ref_round_steps m v r :
  ref_round m v r =
  let G := G_ref m (perms !!! (r mod 10)%nat) in
  G 3%nat 4%nat 9%nat 14%nat 14%nat (G 2%nat 7%nat 8%nat 13%nat 12%nat
    (G 1%nat 6%nat 11%nat 12%nat 10%nat (G 0%nat 5%nat 10%nat 15%nat 8%nat
    (G 3%nat 7%nat 11%nat 15%nat 6%nat (G 2%nat 6%nat 10%nat 14%nat 4%nat
    (G 1%nat 5%nat 9%nat 13%nat 2%nat (G 0%nat 4%nat 8%nat 12%nat 0%nat v))))))).
Proof.
  unfold ref_round. generalize (perms !!! (r mod 10)%nat) as row. intros row. cbv zeta. cbn [seq foldl].
  rewrite !g_step_G_ref. generalize (G_ref m row) as f. intros f. reflexivity.
Qed.

Lemma blake_round_ref m v r : length v = 16%nat -> (r < 14)%nat -> blake_round m v r = ref_round m v r.
Proof.
  intros Hv Hr. rewrite ref_round_steps. unfold blake_round. rewrite sigma_perms by done.
  generalize (perms !!! (r mod 10)%nat) as row. intros row. cbv zeta.
  repeat (rewrite G_G_ref; [|unfold places; repeat constructor|by rewrite ?length_G]).
  unfold G_ref. apply diagonals_comm. by rewrite !length_G2.
Qed.

Lemma length_ref_round m v r : length (ref_round m v r) = length v.
Proof. rewrite ref_round_steps. cbv zeta. by rewrite !length_G_ref. Qed.

Lemma rounds_ref m v n :
  length v = 16%nat -> (n <= 14)%nat ->
  foldl (blake_round m) v (seq 0 n) = foldl (ref_round m) v (seq 0 n) /\
  length (foldl (ref_round m) v (seq 0 n)) = 16%nat.
Proof.
  intros Hv. induction n as [|n IH]; intros Hn; [done|]. destruct (IH ltac:(lia)) as [E Hl].
  rewrite seq_S, !foldl_app, E. cbn [foldl]. rewrite blake_round_ref by (done || lia).
  split; [done|]. by rewrite length_ref_round.
Qed.

(** The state holds eight words, no salt, and the counter [t]. *)
Definition counts (t : Z) (S : bstate) : Prop :=
  nullt S = 0 /\ bt0 S = t mod 2 ^ 32 /\ bt1 S = (t / 2 ^ 32) mod 2 ^ 32 \/ nullt S <> 0 /\ t = 0.

Definition plain (S : bstate) : Prop := length (bh S) = 8%nat /\ bs S = [0; 0; 0; 0].

Lemma compress_spec S t block :
  plain S -> counts t S -> bytes block -> (64 <= length block)%nat ->
  blake256_compress S block = Ret (with_h (compress (bh S) t (take 64 block)) S).
Proof.
  intros [Hh Hs] Ht Hb Hl. unfold blake256_compress. destruct (Nat.ltb_spec (length block) 64); [lia|]. cbv zeta.
  unfold compress. rewrite <- cst_pi.
  assert (map (fun i => U8TO32 (drop (i * 4) block)) (seq 0 16) =
          map (fun i => be_val (take 4 (drop (i * 4) (take 64 block)))) (seq 0 16)) as ->.
  { apply map_ext_in. intros i Hi%in_seq. rewrite U8TO32_be by (try apply bytes_drop; rewrite ?length_drop; auto; lia).
    rewrite skipn_firstn_comm, take_take. do 2 f_equal. lia. }
  set (m := map _ _). clearbody m.
  assert (blake_v S = bh S ++ take 4 cst ++ [Z.lxor (cst !!! 4%nat) (t mod 2 ^ 32); Z.lxor (cst !!! 5%nat) (t mod 2 ^ 32);
    Z.lxor (cst !!! 6%nat) ((t / 2 ^ 32) mod 2 ^ 32); Z.lxor (cst !!! 7%nat) ((t / 2 ^ 32) mod 2 ^ 32)]) as ->.
  { unfold blake_v. rewrite Hs. destruct Ht as [(Hn & H0 & H1)|(Hn & ->)].
    - rewrite Hn, H0, H1. done.
    - destruct (Z.eqb_spec (nullt S) 0); [done|]. done. }
  set (v0 := bh S ++ _). assert (length v0 = 16%nat) as Hv0 by (unfold v0; by rewrite length_app, Hh).
  destruct (rounds_ref m v0 14 Hv0 (le_n 14)) as [-> Hv]. set (v := foldl (ref_round m) v0 (seq 0 14)) in *. clearbody v. clear v0 Hv0.
  rewrite Hs. f_equal. f_equal. destruct S as [h ? ? ? ? ? ?]. cbn [bh] in *. clear Hs Ht.
  do 8 (destruct h as [|? h]; [discriminate|]). destruct h; [|discriminate].
  do 16 (destruct v as [|? v]; [discriminate|]). destruct v; [|discriminate].
  cbv -[Z.lxor]. by rewrite !Z.lxor_0_r.
Qed.

Lemma length_compress h t b : length (compress h t b) = 8%nat.
Proof. unfold compress. by rewrite length_map. Qed.

#[global] Opaque compress.

(** ** The counter *)

(** The unsalted state with the fields the functions change. *)
Definition mk (h : list Z) (t0 t1 len nt : Z) (buf : list Z) : bstate :=
  {| bh := h; bs := [0; 0; 0; 0]; bt0 := t0; bt1 := t1; buflen := len; nullt := nt; bbuf := buf |}.

Definition lo32 (t : Z) : Z := t mod 2 ^ 32.
Definition hi32 (t : Z) : Z := (t / 2 ^ 32) mod 2 ^ 32.

Lemma lo32_block t : t mod 512 = 0 -> 0 <= lo32 t <= 2 ^ 32 - 512 /\ lo32 t mod 512 = 0.
Proof.
  intros H. unfold lo32. pose proof (Z.mod_pos_bound t (2 ^ 32)).
  assert ((t mod 2 ^ 32) mod 512 = 0) as E.
  { rewrite Z.mod_mod_divide; [done|]. by exists (2 ^ 23). }
  pose proof (Z.div_mod (t mod 2 ^ 32) 512). lia.
Qed.

(** Inside a block the low word does not wrap. *)
Lemma lo32_hi32_add t n :
  t mod 512 = 0 -> 0 <= n < 512 -> lo32 (t + n) = lo32 t + n /\ hi32 (t + n) = hi32 t.
Proof.
  intros H Hn. destruct (lo32_block t H) as [Hl _]. unfold lo32, hi32 in *.
  pose proof (Z.div_mod t (2 ^ 32)).
  assert (t + n = 2 ^ 32 * (t / 2 ^ 32) + (t mod 2 ^ 32 + n)) as E by lia. split.
  - symmetry. apply Z.mod_unique_pos with (t / 2 ^ 32); lia.
  - f_equal. symmetry. apply Z.div_unique_pos with (t mod 2 ^ 32 + n); lia.
Qed.

Lemma count_block_mk h t len nt buf :
  t mod 512 = 0 ->
  count_block (mk h (lo32 t) (hi32 t) len nt buf) = mk h (lo32 (t + 512)) (hi32 (t + 512)) len nt buf.
Proof.
  intros H. destruct (lo32_block t H) as [Hl _].
  unfold count_block, with_t, addw, uwrap. cbn [mk bt0 bt1 bh bs buflen nullt bbuf].
  assert ((lo32 t + 512) mod 2 ^ 32 = lo32 (t + 512)) as -> by (unfold lo32; by rewrite Zplus_mod_idemp_l).
  unfold mk. f_equal. unfold lo32, hi32 in *. pose proof (Z.div_mod t (2 ^ 32)).
  destruct (Z.eqb_spec ((t + 512) mod 2 ^ 32) 0) as [E|E].
  - rewrite Zplus_mod_idemp_l. f_equal. apply Z.div_unique_pos with 0; [lia|].
    rewrite <- Zplus_mod_idemp_l in E. destruct (Z.eq_dec (t mod 2 ^ 32) (2 ^ 32 - 512)); [lia|].
    rewrite Z.mod_small in E; lia.
  - f_equal. apply Z.div_unique_pos with (t mod 2 ^ 32 + 512); [|lia].
    destruct (Z.eq_dec (t mod 2 ^ 32) (2 ^ 32 - 512)) as [e|e]; [|lia].
    rewrite <- Zplus_mod_idemp_l, e in E. done.
Qed.

(** [finishing t0 t1 nt t]: the counter that [count_block] gives is [t]. *)
Definition finishing (t0 t1 nt t : Z) : Prop := forall h len buf, counts t (count_block (mk h t0 t1 len nt buf)).

Lemma finishing_null t0 t1 nt : nt <> 0 -> finishing t0 t1 nt 0.
Proof. intros H h len buf. right. done. Qed.

Lemma finishing_block t : t mod 512 = 0 -> finishing (lo32 t) (hi32 t) 0 (t + 512).
Proof. intros H h len buf. rewrite count_block_mk by done. by left. Qed.

(** The subtraction before the last block: a part of a block, whose high word
    is the one before. *)
Lemma finishing_sub t n :
  t mod 512 = 0 -> 0 < n < 512 -> finishing (uwrap 32 (lo32 t - (512 - n))) (hi32 t) 0 (t + n).
Proof.
  intros H Hn h len buf. destruct (lo32_block t H) as [Hl _]. destruct (lo32_hi32_add t n H ltac:(lia)) as [El Eh].
  left. unfold count_block, with_t. cbn [mk bt0 bt1 bh bs buflen nullt bbuf].
  assert (addw 32 (uwrap 32 (lo32 t - (512 - n))) 512 = lo32 t + n) as ->.
  { unfold addw, uwrap. rewrite Zplus_mod_idemp_l, Z.mod_small; lia. }
  destruct (Z.eqb_spec (lo32 t + n) 0); [lia|]. by rewrite <- El, <- Eh.
Qed.

(** ** Update *)

Lemma compress_mk h t t0 t1 len nt buf block :
  length h = 8%nat -> counts t (mk h t0 t1 len nt buf) -> bytes block -> (64 <= length block)%nat ->
  blake256_compress (mk h t0 t1 len nt buf) block = Ret (mk (compress h t (take 64 block)) t0 t1 len nt buf).
Proof. intros Hh Ht Hb Hl. by rewrite (compress_spec _ t) by done. Qed.

(** [memcpy] into the buffer. *)
Definition splice (r n : nat) (D buf : list Z) : list Z := take r buf ++ take n D ++ drop (r + n) buf.

Lemma fill_buf_ok r n D h t0 t1 len nt buf :
  (n <= length D)%nat -> (r + n <= 64)%nat ->
  fill_buf r n D (mk h t0 t1 len nt buf) = Ret (mk h t0 t1 len nt (splice r n D buf)).
Proof.
  intros H1 H2. unfold fill_buf. destruct (Nat.ltb_spec (length D) n); [lia|].
  destruct (Nat.ltb_spec 64 (r + n)); [lia|]. done.
Qed.

Lemma length_splice r n D buf :
  (n <= length D)%nat -> (r + n <= length buf)%nat -> length (splice r n D buf) = length buf.
Proof. intros. unfold splice. rewrite !length_app, !length_take, length_drop. lia. Qed.

Lemma bytes_splice r n D buf : bytes D -> bytes buf -> bytes (splice r n D buf).
Proof.
  intros. unfold splice. apply Forall_app. split; [by apply bytes_take|]. apply Forall_app.
  split; [by apply bytes_take|by apply bytes_drop].
Qed.

Lemma take_splice r n D buf :
  (n <= length D)%nat -> (r + n <= length buf)%nat -> take (r + n) (splice r n D buf) = take r buf ++ take n D.
Proof.
  intros. unfold splice. rewrite app_assoc. apply take_app_length'. rewrite length_app, !length_take. lia.
Qed.

Lemma shiftr3 n : Z.shiftr (8 * Z.of_nat n) 3 = Z.of_nat n.
Proof. rewrite Z.shiftr_div_pow2 by lia. change (2 ^ 3) with 8. rewrite Z.mul_comm, Z.div_mul; lia. Qed.

Lemma land63 n : Z.land (Z.of_nat n) 0x3F = Z.of_nat (n mod 64).
Proof. change 0x3F with (Z.ones 6). rewrite Z.land_ones by lia. by rewrite Nat2Z.inj_mod. Qed.

Lemma shl3 n : (n <= 64)%nat -> shl 32 (Z.of_nat n) 3 = 8 * Z.of_nat n.
Proof. intros. unfold shl. rewrite Z.shiftl_mul_pow2, swrap_id by lia. lia. Qed.

Lemma length_chain h t m n : length h = 8%nat -> length (chain h t m n) = 8%nat.
Proof. revert h t m. induction n as [|n IH]; intros h t m H; [done|]. apply IH, length_compress. Qed.

Lemma chain_app h t m m' n : (64 * n <= length m)%nat -> chain h t (m ++ m') n = chain h t m n.
Proof.
  revert h t m. induction n as [|n IH]; intros h t m H; [done|]. cbn [chain].
  rewrite take_app_le by lia. rewrite drop_app_le by lia. apply IH. rewrite length_drop. lia.
Qed.

Lemma chain_add h t m n k :
  chain h t m (n + k) = chain (chain h t m n) (t + 512 * Z.of_nat n) (drop (64 * n) m) k.
Proof.
  revert h t m. induction n as [|n IH]; intros h t m.
  - cbn [Nat.add chain]. by rewrite Z.add_0_r.
  - cbn [Nat.add chain]. rewrite IH, drop_drop. f_equal; [lia|f_equal; lia].
Qed.

(** The loop over whole blocks. *)
Lemma blake_blocks_ok k h t len buf D n :
  k = (n / 64)%nat -> length h = 8%nat -> t mod 512 = 0 -> bytes D -> (n <= length D)%nat ->
  blake_blocks k (mk h (lo32 t) (hi32 t) len 0 buf) D (8 * Z.of_nat n) =
  let t' := t + 512 * Z.of_nat k in
  Ret (mk (chain h t D k) (lo32 t') (hi32 t') len 0 buf, drop (64 * k) D, 8 * Z.of_nat (n mod 64)).
Proof.
  revert h t D n. induction k as [|k IH]; intros h t D n Hk Hh Ht HD Hn; cbv zeta.
  - assert (n < 64)%nat by (pose proof (Nat.div_mod n 64); pose proof (Nat.mod_upper_bound n 64); lia).
    rewrite Nat.mod_small, Nat.mul_0_r, drop_0, Z.add_0_r by lia. cbn [blake_blocks chain].
    destruct (Z.ltb_spec (8 * Z.of_nat n) 512); [done|lia].
  - assert (64 <= n)%nat by (pose proof (Nat.div_mod n 64); pose proof (Nat.mod_upper_bound n 64); lia).
    cbn [blake_blocks]. destruct (Z.ltb_spec (8 * Z.of_nat n) 512); [lia|].
    rewrite count_block_mk by done. rewrite (compress_mk _ (t + 512)) by (done || lia || by left). cbn [bind].
    replace (8 * Z.of_nat n - 512) with (8 * Z.of_nat (n - 64)) by lia.
    assert (n = (n - 64) + 1 * 64)%nat as E by lia.
    rewrite IH; cbv zeta.
    + cbn [chain]. rewrite drop_drop. rewrite E at 2. rewrite Nat.Div0.mod_add.
      do 3 f_equal; [f_equal; [f_equal; lia..]|f_equal; lia].
    + rewrite E, Nat.div_add in Hk by lia. lia.
    + apply length_compress.
    + rewrite <- Zplus_mod_idemp_l, Ht. done.
    + by apply bytes_drop.
    + rewrite length_drop. lia.
Qed.

(** The message fits the rest of the buffer: it is stored. *)
Lemma update_store h t0 t1 r nt buf D n len dl :
  len = 8 * Z.of_nat r -> dl = 8 * Z.of_nat n -> (0 < n <= length D)%nat -> (r + n < 64)%nat ->
  blake256_update (mk h t0 t1 len nt buf) D dl =
  Ret (mk h t0 t1 (8 * Z.of_nat (r + n)) nt (splice r n D buf)).
Proof.
  intros -> -> Hn Hr. unfold blake256_update. cbn [mk buflen]. rewrite !shiftr3, land63, Nat.mod_small by lia.
  destruct (Z.leb_spec (64 - Z.of_nat r) (Z.of_nat n)); [lia|]. rewrite andb_false_r. cbn [bind].
  rewrite Z.div_small by lia. change (Z.to_nat 0) with 0%nat. cbn [blake_blocks].
  destruct (Z.ltb_spec (8 * Z.of_nat n) 512); [|lia]. cbn [bind].
  destruct (Z.ltb_spec 0 (8 * Z.of_nat n)); [|lia]. rewrite shiftr3, !Nat2Z.id.
  change (Build_bstate _ _ _ _ _ _ _) with (mk h t0 t1 (8 * Z.of_nat r) nt buf).
  rewrite fill_buf_ok by lia. cbn [bind]. rewrite shl3, swrap_id by lia. unfold with_buflen. cbn [mk bh bs bt0 bt1 nullt bbuf].
  unfold mk. do 2 f_equal. lia.
Qed.

(** The message fills the buffer: one compression. *)
Lemma update_fill h t0 t1 t r nt buf D n len dl :
  len = 8 * Z.of_nat r -> dl = 8 * Z.of_nat n ->
  length h = 8%nat -> length buf = 64%nat -> bytes buf -> bytes D ->
  (0 < r < 64)%nat -> (r + n = 64)%nat -> (n <= length D)%nat -> finishing t0 t1 nt t ->
  exists t0' t1',
  blake256_update (mk h t0 t1 len nt buf) D dl =
  Ret (mk (compress h t (take r buf ++ take n D)) t0' t1' 0 nt (splice r n D buf)).
Proof.
  intros -> -> Hh Hb Hbuf HD Hr Hn Hl Hf. unfold blake256_update. cbn [mk buflen]. rewrite !shiftr3, land63, Nat.mod_small by lia.
  destruct (Z.eqb_spec (Z.of_nat r) 0); [lia|]. destruct (Z.leb_spec (64 - Z.of_nat r) (Z.of_nat n)); [|lia]. cbn [negb andb].
  replace (64 - Z.of_nat r) with (Z.of_nat n) by lia. rewrite !Nat2Z.id.
  change (Build_bstate _ _ _ _ _ _ _) with (mk h t0 t1 (8 * Z.of_nat r) nt buf).
  rewrite fill_buf_ok by lia. cbn [bind]. set (S := mk h t0 t1 _ nt (splice r n D buf)).
  pose proof (Hf h (8 * Z.of_nat r) (splice r n D buf)) as Hc. fold S in Hc.
  assert (exists u v, count_block S = mk h u v (8 * Z.of_nat r) nt (splice r n D buf)) as (u & v & E) by (eexists _, _; reflexivity).
  rewrite E in *. cbn [mk bbuf]. change (Build_bstate _ _ _ _ _ _ _) with (mk h u v (8 * Z.of_nat r) nt (splice r n D buf)).
  exists u, v. rewrite (compress_mk _ t) by (done || (by apply bytes_splice) || (rewrite length_splice; lia)).
  cbn [bind]. rewrite shl3, Z.sub_diag by lia. change (uwrap 64 0) with 0. cbn [bind].
  rewrite <- Hn, take_splice by lia. done.
Qed.

(** ** The streaming invariant *)

Definition absorbed (iv M : list Z) (S : bstate) : Prop :=
  exists buf,
    S = mk (chain iv 0 M (length M / 64)) (lo32 (512 * Z.of_nat (length M / 64))) (hi32 (512 * Z.of_nat (length M / 64)))
           (8 * Z.of_nat (length M mod 64)) 0 buf /\
    length buf = 64%nat /\ bytes buf /\ bytes M /\
    take (length M mod 64) buf = drop (64 * (length M / 64)) M.

(** Whole blocks behind a whole number of blocks. *)
Lemma chain_blocks iv M D k q :
  length M = (64 * q)%nat -> (64 * k <= length D)%nat ->
  chain iv 0 (M ++ D) (q + k) = chain (chain iv 0 M q) (512 * Z.of_nat q) D k.
Proof.
  intros HM HD. rewrite chain_add, chain_app by lia. rewrite drop_app_length' by done. f_equal.
Qed.

(** The rest of an update, after whole blocks were absorbed: the whole blocks
    of [D] are compressed, and what is left of it goes behind the [l] bytes
    that [buf] holds. *)
Definition rest (l : nat) (buf D : list Z) (n : nat) : list Z :=
  take (64 * (n / 64)) D ++
  if (n mod 64 =? 0)%nat then [] else take l buf ++ take (n mod 64) (drop (64 * (n / 64)) D).

Lemma absorb_rest iv M D n q len buf l left dl :
  left = Z.of_nat l -> dl = 8 * Z.of_nat n ->
  length iv = 8%nat -> bytes M -> length M = (64 * q)%nat -> bytes D -> (n <= length D)%nat ->
  length buf = 64%nat -> bytes buf -> (l + n mod 64 < 64)%nat ->
  let t := 512 * Z.of_nat q in
  yields
    (let* '(St, data, datalen) :=
       blake_blocks (Z.to_nat (dl / 512)) (mk (chain iv 0 M q) (lo32 t) (hi32 t) len 0 buf) D dl in
     if 0 <? datalen then
       let* St := fill_buf (Z.to_nat left) (Z.to_nat (Z.shiftr datalen 3)) data St in
       Ret (with_buflen (swrap 32 (shl 32 left 3 + datalen)) St)
     else Ret (with_buflen 0 St))
    (absorbed iv (M ++ rest l buf D n)).
Proof.
  intros -> -> Hiv HbM HM HD Hn Hl Hbuf Hlr t.
  assert (Z.to_nat (8 * Z.of_nat n / 512) = (n / 64)%nat) as ->.
  { change 512 with (8 * 64). rewrite Z.div_mul_cancel_l by lia. change 64 with (Z.of_nat 64).
    by rewrite <- Nat2Z.inj_div, Nat2Z.id. }
  pose proof (Nat.div_mod n 64 ltac:(lia)) as En. pose proof (Nat.mod_upper_bound n 64 ltac:(lia)) as Hr.
  rewrite blake_blocks_ok by (done || (by apply length_chain) || (unfold t; change 512 with (512 * 1) at 2;
    rewrite Z.mul_mod_distr_l, Z.mod_1_r by lia; done)).
  cbv zeta. cbn [bind]. unfold rest. set (k := (n / 64)%nat) in *. set (r := (n mod 64)%nat) in *. rewrite app_assoc.
  set (tail := if (r =? 0)%nat then [] else take l buf ++ take r (drop (64 * k) D)).
  set (M1 := M ++ take (64 * k) D).
  assert (length M1 = (64 * (q + k))%nat) as HM1 by (unfold M1; rewrite length_app, length_take; lia).
  assert (chain (chain iv 0 M q) t D k = chain iv 0 M1 (q + k)) as ->.
  { unfold M1. rewrite chain_blocks by (rewrite ?length_take; lia). rewrite <- (take_drop (64 * k) D) at 1.
    apply chain_app. rewrite length_take. lia. }
  assert (bytes M1) as HbM1 by (by apply bytes_app; [|apply bytes_take]).
  replace (t + 512 * Z.of_nat k) with (512 * Z.of_nat (q + k)) by (unfold t; lia).
  assert (length tail = if (r =? 0)%nat then 0%nat else (l + r)%nat) as Htl.
  { unfold tail. destruct (r =? 0)%nat; [done|]. rewrite length_app, !length_take, length_drop. lia. }
  assert (length tail < 64)%nat as Ht64 by (rewrite Htl; destruct (r =? 0)%nat; lia).
  assert ((length (M1 ++ tail) / 64)%nat = (q + k)%nat) as Eq
    by (rewrite length_app, HM1, Nat.mul_comm, Nat.div_add_l, Nat.div_small; lia).
  assert ((length (M1 ++ tail) mod 64)%nat = length tail) as Er
    by (rewrite length_app, HM1, Nat.mul_comm, Nat.add_comm, Nat.Div0.mod_add, Nat.mod_small; lia).
  assert (drop (64 * (q + k)) (M1 ++ tail) = tail) as Ed by (by apply drop_app_length').
  assert (bytes tail) as Hbt.
  { unfold tail. destruct (r =? 0)%nat; [constructor|]. auto using bytes_app, bytes_take, bytes_drop. }
  assert (chain iv 0 (M1 ++ tail) (q + k) = chain iv 0 M1 (q + k)) as Ec by (apply chain_app; lia).
  destruct (Z.ltb_spec 0 (8 * Z.of_nat r)).
  - destruct (Nat.eqb_spec r 0); [lia|]. rewrite shiftr3, !Nat2Z.id, fill_buf_ok by (rewrite ?length_drop; lia).
    cbn [bind]. apply yields_ret. exists (splice l r (drop (64 * k) D) buf). rewrite Eq, Er, Ec, Ed, Htl.
    rewrite length_splice by (rewrite ?length_drop; lia).
    split_and!; auto using bytes_splice, bytes_drop, bytes_app.
    + unfold with_buflen. cbn [mk bh bs bt0 bt1 nullt bbuf]. unfold mk. f_equal.
      rewrite shl3, swrap_id by lia. lia.
    + apply take_splice; rewrite ?length_drop; lia.
  - destruct (Nat.eqb_spec r 0); [|lia]. apply yields_ret. exists buf. rewrite Eq, Er, Ec, Ed, Htl.
    split_and!; auto using bytes_app.
Qed.

Lemma rest_0 buf D n : rest 0 buf D n = take n D.
Proof.
  unfold rest. pose proof (Nat.div_mod n 64 ltac:(lia)). rewrite (take_take_app D (64 * (n / 64)) n) by lia. f_equal.
  replace (n - 64 * (n / 64))%nat with (n mod 64)%nat by lia. destruct (Nat.eqb_spec (n mod 64) 0) as [->|]; done.
Qed.

(** When [blake256_update] loses nothing. *)
Definition update_safe (r n : nat) : Prop :=
  r = 0%nat \/ (0 < n /\ r + n < 64)%nat \/ (64 - r <= n mod 64)%nat.

Lemma update_absorbed iv M S D n :
  length iv = 8%nat -> absorbed iv M S -> bytes D -> (n <= length D)%nat -> 8 * Z.of_nat n < 2 ^ 64 ->
  update_safe (length M mod 64) n ->
  yields (blake256_update S D (8 * Z.of_nat n)) (absorbed iv (M ++ take n D)).
Proof.
  intros Hiv (buf & -> & Hl & Hbuf & HM & Htail) HD Hn H64 Hsafe.
  set (q := (length M / 64)%nat) in *. set (r := (length M mod 64)%nat) in *.
  pose proof (Nat.div_mod (length M) 64 ltac:(lia)) as EM. fold q r in EM.
  assert (r < 64)%nat as Hr by (apply Nat.mod_upper_bound; lia).
  destruct Hsafe as [Hr0|[[Hn0 Hs]|Hf]].
  - unfold blake256_update. rewrite Hr0. cbn [mk buflen].
    change (Build_bstate _ _ _ _ _ _ _) with (mk (chain iv 0 M q) (lo32 (512 * Z.of_nat q)) (hi32 (512 * Z.of_nat q)) 0 0 buf).
    rewrite <- (rest_0 buf). pose proof (Nat.mod_upper_bound n 64). apply absorb_rest; auto; lia.
  - rewrite (update_store _ _ _ r _ _ _ n) by lia. apply yields_ret. exists (splice r n D buf).
    assert (length (M ++ take n D) = (q * 64 + (r + n))%nat) as EL by (rewrite length_app, length_take; lia).
    assert ((length (M ++ take n D) / 64)%nat = q) as -> by (rewrite EL, Nat.div_add_l, Nat.div_small; lia).
    assert ((length (M ++ take n D) mod 64)%nat = (r + n)%nat) as -> by (rewrite EL, Nat.add_comm, Nat.Div0.mod_add, Nat.mod_small; lia).
    rewrite length_splice, take_splice by lia. rewrite chain_app by lia. rewrite Htail, drop_app_le by lia.
    split_and!; auto using bytes_splice, bytes_take, bytes_app.
  - assert (64 - r <= n)%nat by (pose proof (Nat.Div0.mod_le n 64); lia).
    assert (0 < r)%nat by (pose proof (Nat.mod_upper_bound n 64); lia).
    unfold blake256_update. cbn [mk buflen]. rewrite !shiftr3, land63.
    destruct (Z.eqb_spec (Z.of_nat r) 0); [lia|].
    destruct (Z.leb_spec (64 - Z.of_nat r) (Z.of_nat (n mod 64))); [|lia]. cbn [negb andb].
    replace (64 - Z.of_nat r) with (Z.of_nat (64 - r)) by lia. rewrite !Nat2Z.id.
    change (Build_bstate _ _ _ _ _ _ _) with
      (mk (chain iv 0 M q) (lo32 (512 * Z.of_nat q)) (hi32 (512 * Z.of_nat q)) (8 * Z.of_nat r) 0 buf).
    remember (64 - r)%nat as f eqn:Ef. rewrite fill_buf_ok by lia. cbn [bind].
    assert ((512 * Z.of_nat q) mod 512 = 0) as Ht by (rewrite Z.mul_comm; apply Z.mod_mul; lia).
    rewrite count_block_mk by done. cbn [mk bbuf].
    change (Build_bstate _ _ _ _ _ _ _) with
      (mk (chain iv 0 M q) (lo32 (512 * Z.of_nat q + 512)) (hi32 (512 * Z.of_nat q + 512)) (8 * Z.of_nat r) 0 (splice r f D buf)).
    rewrite (compress_mk _ (512 * Z.of_nat q + 512)) by
      ((by apply length_chain) || (by left) || (by apply bytes_splice) || (rewrite length_splice; lia)).
    cbn [bind]. rewrite shl3, uwrap_small by lia. replace (8 * Z.of_nat n - 8 * Z.of_nat f) with (8 * Z.of_nat (n - f)) by lia.
    assert (compress (chain iv 0 M q) (512 * Z.of_nat q + 512) (take 64 (splice r f D buf)) = chain iv 0 (M ++ take f D) (q + 1)) as ->.
    { rewrite chain_add, chain_app by lia. cbn [chain]. rewrite Z.add_0_l, drop_app_le, <- Htail by lia.
      apply (f_equal (compress _ _)).
      replace (take 64 (splice r f D buf)) with (take (r + f) (splice r f D buf)) by (f_equal; lia). rewrite take_splice by lia.
      symmetry. apply take_ge. rewrite length_app, !length_take. lia. }
    replace (512 * Z.of_nat q + 512) with (512 * Z.of_nat (q + 1)) by lia.
    rewrite (take_take_app D f n), app_assoc, <- (rest_0 (splice r f D buf) (drop f D)) by lia.
    pose proof (Nat.mod_upper_bound (n - f) 64).
    apply absorb_rest; auto using bytes_drop, bytes_take, bytes_splice, bytes_app; try lia.
    + rewrite length_app, length_take. lia.
    + rewrite length_drop. lia.
    + rewrite length_splice; lia.
Qed.

(** What it does otherwise: the bytes it had buffered come after the whole
    blocks of the new data, or are lost. *)
Lemma update_unsafe iv M S D n :
  length iv = 8%nat -> absorbed iv M S -> bytes D -> (n <= length D)%nat ->
  (length M mod 64 + n mod 64 < 64)%nat ->
  yields (blake256_update S D (8 * Z.of_nat n))
    (absorbed iv (take (64 * (length M / 64)) M ++ take (64 * (n / 64)) D ++
       if (n mod 64 =? 0)%nat then []
       else drop (64 * (length M / 64)) M ++ take (n mod 64) (drop (64 * (n / 64)) D))).
Proof.
  intros Hiv (buf & -> & Hl & Hbuf & HM & Htail) HD Hn Hf. rewrite <- Htail.
  set (q := (length M / 64)%nat) in *. set (r := (length M mod 64)%nat) in *.
  pose proof (Nat.div_mod (length M) 64 ltac:(lia)) as EM. fold q r in EM.
  unfold blake256_update. cbn [mk buflen]. rewrite !shiftr3, land63.
  destruct (Z.leb_spec (64 - Z.of_nat r) (Z.of_nat (n mod 64))); [lia|]. rewrite andb_false_r. cbn [bind].
  change (Build_bstate _ _ _ _ _ _ _) with
    (mk (chain iv 0 M q) (lo32 (512 * Z.of_nat q)) (hi32 (512 * Z.of_nat q)) (8 * Z.of_nat r) 0 buf).
  replace (chain iv 0 M q) with (chain iv 0 (take (64 * q) M) q).
  - apply (absorb_rest iv (take (64 * q) M) D n q _ buf r); auto using bytes_take. rewrite length_take. lia.
  - rewrite <- (take_drop (64 * q) M) at 2. symmetry. apply chain_app. rewrite length_take. lia.
Qed.

(** ** Finalisation *)

Lemma be_bytes_split t : be_bytes 4 (hi32 t) ++ be_bytes 4 (lo32 t) = be_bytes 8 t.
Proof.
  unfold be_bytes. rewrite <- rev_app_distr. f_equal. apply le_val_inj.
  - apply bytes_app; apply bytes_le_bytes.
  - apply bytes_le_bytes.
  - by rewrite length_app, !length_le_bytes.
  - rewrite le_val_app, !le_val_le_bytes, length_le_bytes. unfold lo32, hi32. rewrite !Z.mod_mod by lia.
    change (2 ^ (8 * Z.of_nat 4)) with (2 ^ 32). change (2 ^ (8 * Z.of_nat 8)) with (2 ^ 32 * 2 ^ 32).
    rewrite Z.rem_mul_r by lia. done.
Qed.

Lemma bytes_padding : bytes padding.
Proof. apply (bool_decide_unpack _). vm_compute. exact Logic.I. Qed.

Lemma padding_take n : (1 <= n <= 64)%nat -> take n padding = 0x80 :: replicate (n - 1) 0.
Proof.
  intros H. destruct n as [|n]; [lia|]. unfold padding. cbn [take]. rewrite take_replicate. do 2 f_equal. lia.
Qed.

(** The digest is the big-endian image of the chaining value. *)
Lemma digest_be h : concat (map U32TO8 h) = concat (map (be_bytes 4) h).
Proof. f_equal. apply map_ext. apply U32TO8_be. Qed.

Section Final.
Context (h : list Z) (t : Z) (r : nat) (buf : list Z) (pb : Z).
Context (Hh : length h = 8%nat) (Ht : t mod 512 = 0) (Hr : (r < 64)%nat) (Hl : length buf = 64%nat) (Hbuf : bytes buf)
        (Hpb : pb = 0 \/ pb = 1).

Let bits : Z := t + 8 * Z.of_nat r.
Let S0 : bstate := mk h (lo32 t) (hi32 t) (8 * Z.of_nat r) 0 buf.
Let msglen : list Z := be_bytes 8 bits.

(** The length field: no carry out of the low word. *)
Lemma final_msglen :
  let lo := uwrap 32 (bt0 S0 + buflen S0) in
  U32TO8 (if lo <? uwrap 32 (buflen S0) then addw 32 (bt1 S0) 1 else bt1 S0) ++ U32TO8 lo = msglen.
Proof.
  cbn [S0 mk bt0 bt1 buflen]. destruct (lo32_block t Ht) as [Hlo _].
  destruct (lo32_hi32_add t (8 * Z.of_nat r) Ht ltac:(lia)) as [El Eh].
  rewrite !uwrap_small by lia. destruct (Z.ltb_spec (lo32 t + 8 * Z.of_nat r) (8 * Z.of_nat r)); [lia|].
  rewrite !U32TO8_be, <- El, <- Eh. apply be_bytes_split.
Qed.

Lemma bytes_pb (x : Z) : x = 0 \/ x = 1 \/ x = 0x80 \/ x = 0x81 -> bytes [x].
Proof. intros H. repeat constructor; unfold is_byte; lia. Qed.

Lemma uwrap_sub_sub x a b : uwrap 32 (uwrap 32 (x - a) - b) = uwrap 32 (x - (a + b)).
Proof. unfold uwrap. rewrite Zminus_mod_idemp_l. f_equal. lia. Qed.

(** The last update: the length fills the block. *)
Lemma final_last g t0 t1 nt u buf' :
  length g = 8%nat -> length buf' = 64%nat -> bytes buf' -> finishing t0 t1 nt u ->
  (let* S := blake256_update (mk g t0 t1 448 nt buf') msglen 64 in Ret (concat (map U32TO8 (bh S)))) =
  Ret (concat (map (be_bytes 4) (compress g u (take 56 buf' ++ msglen)))).
Proof.
  intros Hg Hl' Hb' Hf. assert (bytes msglen) as Hm by apply bytes_be_bytes.
  assert (length msglen = 8%nat) as Hlm by apply length_be_bytes.
  destruct (update_fill g t0 t1 u 56 nt buf' msglen 8 448 64) as (v0 & v1 & E); auto; try lia.
  rewrite E. cbn [bind mk bh]. rewrite digest_be. rewrite (take_ge msglen) by lia. done.
Qed.

Lemma final_55 :
  r = 55%nat ->
  blake256_final_h S0 (Z.lor 0x80 pb) pb =
  Ret (concat (map (be_bytes 4) (compress h bits (take r buf ++ [Z.lor 0x80 pb] ++ msglen)))).
Proof.
  intros E. unfold blake256_final_h. cbv zeta. rewrite final_msglen. unfold S0. cbn [mk buflen].
  destruct (Z.eqb_spec (8 * Z.of_nat r) 440); [|lia]. unfold sub_t, with_t. cbn [mk bt0 bt1 bh bs buflen nullt bbuf].
  change (Build_bstate h [0; 0; 0; 0] ?a ?b ?c ?d ?e) with (mk h a b c d e).
  rewrite (update_store _ _ _ r _ _ _ 1) by (simpl length; lia). cbn [bind mk bt0 bt1 bh bs buflen nullt bbuf].
  change (Build_bstate h [0; 0; 0; 0] ?a ?b ?c ?d ?e) with (mk h a b c d e).
  rewrite uwrap_sub_sub. replace (8 * Z.of_nat (r + 1)) with 448 by lia.
  assert (bytes [Z.lor 0x80 pb]) by (apply bytes_pb; destruct Hpb as [-> | ->]; auto).
  rewrite (final_last _ _ _ _ bits).
  - replace 56%nat with (r + 1)%nat by lia. rewrite take_splice by (simpl length; lia).
    by rewrite <- app_assoc.
  - exact Hh.
  - rewrite length_splice; simpl length; lia.
  - by apply bytes_splice.
  - replace (8 + 64) with (512 - 8 * Z.of_nat r) by lia. apply finishing_sub; [done|lia].
Qed.

Ltac state := cbn [bind mk bt0 bt1 bh bs buflen nullt bbuf];
  change (Build_bstate ?h [0; 0; 0; 0] ?a ?b ?c ?d ?e) with (mk h a b c d e).

Lemma final_lt :
  (r < 55)%nat ->
  blake256_final_h S0 (Z.lor 0x80 pb) pb =
  Ret (concat (map (be_bytes 4)
    (compress h (if (r =? 0)%nat then 0 else bits) (take r buf ++ (0x80 :: replicate (54 - r) 0 ++ [pb]) ++ msglen)))).
Proof.
  intros E. unfold blake256_final_h. cbv zeta. rewrite final_msglen. unfold S0. cbn [mk buflen].
  destruct (Z.eqb_spec (8 * Z.of_nat r) 440); [lia|]. destruct (Z.ltb_spec (8 * Z.of_nat r) 440); [|lia].
  set (nt := if (r =? 0)%nat then 1 else 0).
  replace (if 8 * Z.of_nat r =? 0 then _ else _) with (mk h (lo32 t) (hi32 t) (8 * Z.of_nat r) nt buf)
    by (unfold nt; destruct (Nat.eqb_spec r 0), (Z.eqb_spec (8 * Z.of_nat r) 0); try lia; done).
  unfold sub_t, with_t. state.
  rewrite (update_store _ _ _ r _ _ _ (55 - r)) by (change (length padding) with 64%nat; lia). state.
  rewrite (update_store _ _ _ 55 _ _ _ 1) by (simpl length; lia). state. rewrite !uwrap_sub_sub.
  replace (440 - 8 * Z.of_nat r + (8 + 64)) with (512 - 8 * Z.of_nat r) by lia.
  set (buf1 := splice r (55 - r) padding buf).
  assert (length buf1 = 64%nat) as Hl1 by (unfold buf1; rewrite length_splice; change (length padding) with 64%nat; lia).
  assert (bytes buf1) as Hb1 by (apply bytes_splice; [apply bytes_padding|done]).
  assert (bytes [pb]) by (apply bytes_pb; tauto).
  replace (8 * Z.of_nat (55 + 1)) with 448 by lia.
  rewrite (final_last _ _ _ _ (if (r =? 0)%nat then 0 else bits)).
  - change 56%nat with (55 + 1)%nat. rewrite take_splice by (simpl length; lia).
    replace 55%nat with (r + (55 - r))%nat at 1 by lia. unfold buf1. rewrite take_splice by (change (length padding) with 64%nat; lia).
    rewrite padding_take by lia. replace (55 - r - 1)%nat with (54 - r)%nat by lia. change (take 1 [pb]) with [pb].
    rewrite <- !app_assoc. cbn [app]. rewrite <- !app_assoc. reflexivity.
  - exact Hh.
  - rewrite length_splice; simpl length; lia.
  - by apply bytes_splice.
  - unfold nt. destruct (Nat.eqb_spec r 0); [by apply finishing_null|]. apply finishing_sub; [done|lia].
Qed.

Lemma final_gt :
  (55 < r)%nat ->
  blake256_final_h S0 (Z.lor 0x80 pb) pb =
  Ret (concat (map (be_bytes 4)
    (compress (compress h bits (take r buf ++ 0x80 :: replicate (63 - r) 0)) 0 ((replicate 55 0 ++ [pb]) ++ msglen)))).
Proof.
  intros E. unfold blake256_final_h. cbv zeta. rewrite final_msglen. unfold S0. cbn [mk buflen].
  destruct (Z.eqb_spec (8 * Z.of_nat r) 440); [lia|]. destruct (Z.ltb_spec (8 * Z.of_nat r) 440); [lia|].
  unfold sub_t, with_t. state.
  destruct (update_fill h (uwrap 32 (lo32 t - (512 - 8 * Z.of_nat r))) (hi32 t) bits r 0 buf padding (64 - r)
              (8 * Z.of_nat r) (512 - 8 * Z.of_nat r)) as (v0 & v1 & EF);
    try (done || lia || apply bytes_padding || (change (length padding) with 64%nat; lia)).
  { apply finishing_sub; [done|lia]. }
  rewrite EF. clear EF. rewrite padding_take by lia. state.
  remember (compress h bits (take r buf ++ 0x80 :: replicate (64 - r - 1) 0)) as g eqn:Eg.
  remember (splice r (64 - r) padding buf) as buf1 eqn:Ebuf1.
  assert (length buf1 = 64%nat) as Hl1 by (rewrite Ebuf1, length_splice; change (length padding) with 64%nat; lia).
  assert (bytes buf1) as Hb1 by (rewrite Ebuf1; apply bytes_splice; [apply bytes_padding|done]).
  rewrite (update_store _ _ _ 0 _ _ _ 55) by (simpl length; lia). unfold with_nullt. state.
  rewrite (update_store _ _ _ 55 _ _ _ 1) by (simpl length; lia). state.
  remember (splice 0 55 (drop 1 padding) buf1) as buf2 eqn:Ebuf2.
  assert (length buf2 = 64%nat) as Hl2 by (rewrite Ebuf2, length_splice; rewrite ?Hl1; simpl length; lia).
  assert (bytes buf2) as Hb2 by (rewrite Ebuf2; apply bytes_splice; [apply bytes_drop, bytes_padding|done]).
  assert (bytes [pb]) by (apply bytes_pb; tauto).
  replace (8 * Z.of_nat (55 + 1)) with 448 by lia.
  rewrite (final_last _ _ _ _ 0).
  - change 56%nat with (55 + 1)%nat. rewrite take_splice by (rewrite ?Hl2; simpl length; lia).
    change (take 55 buf2) with (take (0 + 55) buf2). rewrite Ebuf2, take_splice by (rewrite ?Hl1; simpl length; lia).
    rewrite Eg. replace (64 - r - 1)%nat with (63 - r)%nat by lia. reflexivity.
  - rewrite Eg. apply length_compress.
  - rewrite length_splice; rewrite ?Hl2; simpl length; lia.
  - by apply bytes_splice.
  - by apply finishing_null.
Qed.
End Final.

Lemma final_spec iv pb M S :
  length iv = 8%nat -> pb = 0 \/ pb = 1 -> absorbed iv M S ->
  blake256_final_h S (Z.lor 0x80 pb) pb = Ret (blake_words iv pb M).
Proof.
  intros Hiv Hpb (buf & -> & Hl & Hbuf & HM & Htail). unfold blake_words, chaining. cbv zeta.
  set (q := (length M / 64)%nat) in *. set (r := (length M mod 64)%nat) in *.
  pose proof (Nat.div_mod (length M) 64 ltac:(lia)) as EM. fold q r in EM.
  assert (r < 64)%nat as Hr by (apply Nat.mod_upper_bound; lia).
  assert (length (chain iv 0 M q) = 8%nat) as Hc by (by apply length_chain).
  assert ((512 * Z.of_nat q) mod 512 = 0) as Ht by (rewrite Z.mul_comm; apply Z.mod_mul; lia).
  assert (8 * Z.of_nat (length M) = 512 * Z.of_nat q + 8 * Z.of_nat r) as Eb by lia.
  unfold blake_pad. fold r. rewrite !Eb, <- Htail. cbv zeta.
  pose proof (length_be_bytes 8 (512 * Z.of_nat q + 8 * Z.of_nat r)) as Hlb.
  assert (length (take r buf) = r) as Hlt by (rewrite length_take; lia).
  destruct (Nat.eq_dec r 55%nat) as [E|E]; [|destruct (Nat.lt_ge_cases r 55%nat)].
  - rewrite final_55 by done. clearbody r. subst r. cbn [Nat.leb Nat.sub Nat.eqb].
    rewrite !length_app, Hlb, Hlt. cbn [length Nat.add Nat.eqb].
    rewrite (take_ge _ 64) by (rewrite !length_app, Hlb, Hlt; simpl; lia). reflexivity.
  - rewrite final_lt by done. destruct (Nat.leb_spec r 55); [|lia]. destruct (Nat.eqb_spec (56 - r) 1); [lia|].
    replace (56 - r - 2)%nat with (54 - r)%nat by lia.
    set (X := take r buf ++ _).
    assert (length X = 64%nat) as EX by (unfold X; rewrite !length_app, Hlb, Hlt; simpl; rewrite length_app, length_replicate; simpl; lia).
    rewrite EX. cbn [Nat.eqb]. rewrite (take_ge X) by lia. done.
  - rewrite final_gt by (done || lia). destruct (Nat.leb_spec r 55); [lia|]. destruct (Nat.eqb_spec (120 - r) 1); [lia|].
    destruct (Nat.eqb_spec r 0); [lia|].
    replace (120 - r - 2)%nat with ((63 - r) + 55)%nat by lia. rewrite replicate_add.
    set (L := be_bytes 8 _) in *.
    replace (take r buf ++ (0x80 :: (replicate (63 - r) 0 ++ replicate 55 0) ++ [pb]) ++ L)
      with ((take r buf ++ 0x80 :: replicate (63 - r) 0) ++ ((replicate 55 0 ++ [pb]) ++ L))
      by (rewrite <- !app_assoc; cbn [app]; by rewrite <- !app_assoc).
    set (X := take r buf ++ _). set (Y := (replicate 55 0 ++ [pb]) ++ L).
    assert (length X = 64%nat) as EX by (unfold X; rewrite length_app, Hlt; simpl; rewrite length_replicate; lia).
    assert (length Y = 64%nat) as EY by (unfold Y; rewrite !length_app, Hlb; done).
    rewrite length_app, EX, EY. cbn [Nat.add Nat.eqb].
    rewrite take_app_length', drop_app_length' by done. done.
Qed.

(** ** The hash functions *)

Definition state_ok (S : bstate) : Prop := length (bbuf S) = 64%nat /\ bytes (bbuf S).

Lemma absorbed_init iv S : state_ok S -> absorbed iv [] (blake_init iv S).
Proof. intros [Hl Hb]. exists (bbuf S). split_and!; auto. constructor. Qed.

Definition zero_state : bstate := mk (replicate 8 0) 0 0 0 0 (replicate 64 0).

Lemma zero_state_ok : state_ok zero_state.
Proof. apply (bool_decide_unpack (length _ = 64%nat /\ bytes _)). vm_compute. exact Logic.I. Qed.

(** One update and the finalisation. *)
Lemma hash_spec iv pb S D n :
  length iv = 8%nat -> pb = 0 \/ pb = 1 -> state_ok S -> bytes D -> (n <= length D)%nat -> Z.of_nat n < 2 ^ 61 ->
  (let* S := blake256_update (blake_init iv S) D (uwrap 64 (Z.of_nat n * 8)) in blake256_final_h S (Z.lor 0x80 pb) pb) =
  Ret (blake_words iv pb (take n D)).
Proof.
  intros Hiv Hpb HS HD Hn H61. rewrite uwrap_small by lia. rewrite (Z.mul_comm _ 8).
  destruct (update_absorbed iv [] (blake_init iv S) D n) as (S' & -> & HS'); auto using absorbed_init.
  - lia.
  - by left.
  - cbn [bind]. by apply final_spec.
Qed.

Lemma bytes_digest l : bytes (concat (map (be_bytes 4) l)).
Proof. induction l as [|x l IH]; [constructor|]. cbn [map concat]. apply bytes_app; [apply bytes_be_bytes|done]. Qed.

Lemma length_digest l : length (concat (map (be_bytes 4) l)) = (4 * length l)%nat.
Proof. induction l as [|x l IH]; [done|]. cbn [map concat length]. rewrite length_app, length_be_bytes, IH. lia. Qed.

Lemma chaining_8 iv pb m : length (chaining iv pb m) = 8%nat.
Proof. unfold chaining. cbv zeta. destruct (_ =? 64)%nat; apply length_compress. Qed.

Lemma bytes_blake_words iv pb m : bytes (blake_words iv pb m).
Proof. apply bytes_digest. Qed.

Lemma length_blake_words iv pb m : length (blake_words iv pb m) = 32%nat.
Proof.
  unfold blake_words. by rewrite length_digest, chaining_8.
Qed.

Lemma hash_256_spec S D n :
  state_ok S -> bytes D -> (n <= length D)%nat -> Z.of_nat n < 2 ^ 61 ->
  blake256_hash S D (Z.of_nat n) = Ret (blake256 (take n D)) /\
  hash_extra_blake S D (Z.of_nat n) = Ret (blake256 (take n D)).
Proof.
  intros. unfold blake256. rewrite <- (proj1 iv_sqrt). by split; apply (hash_spec blake256_iv 1); auto.
Qed.

(** The last word of the chaining value, which BLAKE-224 does not output. *)
Definition eighth_word (m : list Z) : list Z := be_bytes 4 (chaining root_iv224 0 m !!! 7%nat).

Lemma blake224_words m : blake_words root_iv224 0 m = blake224 m ++ eighth_word m.
Proof.
  unfold blake224, eighth_word, blake_words. pose proof (chaining_8 root_iv224 0 m) as H.
  set (h := chaining root_iv224 0 m) in *. clearbody h. do 8 (destruct h as [|? h]; [discriminate|]).
  destruct h; [|discriminate]. reflexivity.
Qed.

(** C36: BLAKE-256 as one call computes it, buffering, bit counter and padding
    included, is the function of the specification (constants from pi and from
    square roots of primes, its own step, rounds and padding) for every input
    below 2^61 bytes, whatever the uninitialised state holds; so is
    [hash_extra_blake].  [blake224_hash] writes 32 bytes: the 28 of the BLAKE-224
    digest, and behind them the eighth word of the chaining value, which is not
    part of the digest. *)
Theorem blake256_hash_correct S inp n :
  state_ok S -> bytes inp -> (n <= length inp)%nat -> Z.of_nat n < 2 ^ 61 ->
  blake256_hash S inp (Z.of_nat n) = Ret (blake256 (take n inp)) /\
  hash_extra_blake S inp (Z.of_nat n) = Ret (blake256 (take n inp)) /\
  length (blake256 (take n inp)) = 32%nat /\
  blake224_hash S inp (Z.of_nat n) = Ret (blake224 (take n inp) ++ eighth_word (take n inp)) /\
  length (blake224 (take n inp)) = 28%nat.
Proof.
  intros HS Hb Hn H61. destruct (hash_256_spec S inp n HS Hb Hn H61) as [E1 E2]. split_and!; auto.
  - apply length_blake_words.
  - rewrite <- blake224_words. rewrite <- (proj2 iv_sqrt). by apply (hash_spec blake224_iv 0); auto.
  - unfold blake224. rewrite length_take, length_blake_words. lia.
Qed.

Lemma blake256_hash_correct_witness :
  blake256_hash zero_state [0] (Z.of_nat 1) = Ret (blake256 (take 1 [0])) /\
  hash_extra_blake zero_state [0] (Z.of_nat 1) = Ret (blake256 (take 1 [0])) /\
  length (blake256 (take 1 [0])) = 32%nat /\
  blake224_hash zero_state [0] (Z.of_nat 1) = Ret (blake224 (take 1 [0]) ++ eighth_word (take 1 [0])) /\
  length (blake224 (take 1 [0])) = 28%nat.
Proof.
  apply (blake256_hash_correct zero_state [0] 1); [exact zero_state_ok|repeat constructor; done|simpl; lia|reflexivity].
Defined.

(** A stream of updates none of which loses buffered bytes, [r] bytes being
    buffered before the first. *)
Fixpoint stream_safe (r : nat) (chunks : list (list Z)) : Prop :=
  match chunks with
  | [] => True
  | D :: chunks => update_safe r (length D) /\ stream_safe ((r + length D) mod 64) chunks
  end.

Definition blake256_updates (S : bstate) (chunks : list (list Z)) : outcome bstate :=
  foldM (fun D S => blake256_update S D (8 * Z.of_nat (length D))) chunks S.

Definition chunk_ok (D : list Z) : Prop := bytes D /\ 8 * Z.of_nat (length D) < 2 ^ 64.

Lemma updates_absorbed iv chunks M S :
  length iv = 8%nat -> absorbed iv M S -> Forall chunk_ok chunks -> stream_safe (length M mod 64) chunks ->
  yields (blake256_updates S chunks) (absorbed iv (M ++ concat chunks)).
Proof.
  intros Hiv. revert M S. induction chunks as [|D chunks IH]; intros M S HS Hc Hs.
  - rewrite app_nil_r. by apply yields_ret.
  - apply Forall_cons_1 in Hc as [[HD H64] Hc]. destruct Hs as [Hs Hs'].
    eapply yields_bind.
    { apply (update_absorbed iv M S D (length D)); auto. }
    intros S' HS'. rewrite take_ge in HS' by lia. cbn [concat]. rewrite app_assoc. apply IH; auto.
    by rewrite length_app, <- Nat.Div0.add_mod_idemp_l.
Qed.

(** Streaming: splitting a message over several updates gives the digest
    of the whole message, provided every update either starts at a block
    boundary, ends before the buffer is full, or carries enough bytes modulo
    64 to fill it. *)
Theorem blake256_stream_correct S chunks :
  state_ok S -> Forall chunk_ok chunks -> stream_safe 0 chunks ->
  (let* S := blake256_updates (blake256_init S) chunks in blake256_final S) =
  Ret (blake256 (concat chunks)).
Proof.
  intros HS Hc Hs.
  destruct (updates_absorbed blake256_iv chunks [] (blake256_init S)) as (S' & -> & HS'); auto using absorbed_init.
  cbn [bind]. apply (final_spec blake256_iv 1); auto.
Qed.

Lemma blake256_stream_correct_witness :
  (let* S := blake256_updates (blake256_init zero_state) [replicate 100 7; [1; 2]; replicate 30 9] in blake256_final S) =
  Ret (blake256 (concat [replicate 100 7; [1; 2]; replicate 30 9])).
Proof.
  apply blake256_stream_correct; [exact zero_state_ok| |].
  - repeat constructor; try reflexivity; apply (bool_decide_unpack _); vm_compute; exact Logic.I.
  - unfold stream_safe, update_safe. simpl. lia.
Defined.

(** The other updates.  When bytes are buffered and the new data does not
    have enough bytes modulo 64 to fill the buffer, the whole blocks of the
    new data overtake the buffered bytes, and these are dropped when the new
    data is a whole number of blocks (or empty): the final digest is that of
    the message so rearranged. *)
Theorem blake256_update_reorders S M D S1 :
  state_ok S -> chunk_ok M -> chunk_ok D -> (length M mod 64 + length D mod 64 < 64)%nat ->
  blake256_update (blake256_init S) M (8 * Z.of_nat (length M)) = Ret S1 ->
  (let* S2 := blake256_update S1 D (8 * Z.of_nat (length D)) in blake256_final S2) =
  Ret (blake256
    (take (64 * (length M / 64)) M ++ take (64 * (length D / 64)) D ++
     if (length D mod 64 =? 0)%nat then []
     else drop (64 * (length M / 64)) M ++ drop (64 * (length D / 64)) D)).
Proof.
  intros HS [HM HM64] [HD HD64] Hlt E.
  destruct (update_absorbed blake256_iv [] (blake256_init S) M (length M)) as (S' & E' & HS'); auto using absorbed_init.
  { by left. }
  rewrite E in E'. injection E' as <-. rewrite take_ge in HS' by lia. cbn [app] in HS'.
  destruct (update_unsafe blake256_iv M S1 D (length D)) as (S2 & -> & HS2); auto. cbn [bind].
  rewrite (take_ge (drop _ D)) in HS2.
  - apply (final_spec blake256_iv 1); auto.
  - rewrite length_drop. pose proof (Nat.div_mod (length D) 64). lia.
Qed.

Lemma blake256_update_reorders_witness :
  exists S1, blake256_update (blake256_init zero_state) [1] 8 = Ret S1 /\
  (let* S2 := blake256_update S1 (replicate 64 0) 512 in blake256_final S2) =
  Ret (blake256 (replicate 64 0)).
Proof.
  eexists. split; [vm_compute; reflexivity|].
  apply (blake256_update_reorders zero_state [1] (replicate 64 0)); [exact zero_state_ok|..].
  - split; [repeat constructor; done|done].
  - split; [|done]. apply (bool_decide_unpack _). vm_compute. exact Logic.I.
  - simpl. lia.
  - vm_compute. reflexivity.
Defined.

(** ** HMAC *)

(** A key longer than a block is hashed, with BLAKE-256 in both variants, and
    cut to [hashed] bytes. *)
Definition hmac_key (hashed : nat) (key : list Z) : list Z :=
  if (64 <? length key)%nat then take hashed (blake256 key) else key.

(** The key, filled with zeros to a block, exclusive-or the pad byte. *)
Definition hmac_block (byte : Z) (key : list Z) : list Z :=
  xor_list (key ++ replicate (64 - length key) 0) (replicate 64 byte).

(** RFC 2104 with the hash [H], whose inner digest is cut to [hashed] bytes. *)
Definition hmac (H : list Z -> list Z) (hashed : nat) (key m : list Z) : list Z :=
  let k := hmac_key hashed key in
  H (hmac_block 0x5c k ++ take hashed (H (hmac_block 0x36 k ++ m))).

Lemma xor_list_zeros n byte : xor_list (replicate n 0) (replicate n byte) = replicate n byte.
Proof. induction n as [|n IH]; [done|]. unfold xor_list in *. cbn [replicate zip_with]. by rewrite IH. Qed.

Lemma hmac_pad_block byte key : (length key <= 64)%nat -> hmac_pad byte key = hmac_block byte key.
Proof.
  intros H. unfold hmac_pad, hmac_block. replace 64%nat with (length key + (64 - length key))%nat at 3 by lia.
  rewrite replicate_add, xor_list_app by (by rewrite length_replicate). by rewrite xor_list_zeros.
Qed.

Lemma length_hmac_block byte key : (length key <= 64)%nat -> length (hmac_block byte key) = 64%nat.
Proof. intros H. unfold hmac_block. rewrite length_xor_list; rewrite length_app, !length_replicate; lia. Qed.

Lemma bytes_hmac_block byte key : bytes key -> is_byte byte -> bytes (hmac_block byte key).
Proof.
  intros Hk Hb. apply bytes_xor_list; [apply bytes_app; [done|]|]; apply Forall_replicate; [|done].
  unfold is_byte. lia.
Qed.

Section Hmac.
Context (iv : list Z) (pb : Z) (hashed : nat).
Context (Hiv : length iv = 8%nat) (Hpb : pb = 0 \/ pb = 1) (Hhashed : (hashed <= 32)%nat).

Let H : list Z -> list Z := blake_words iv pb.

Lemma hmac_init_spec S0 St key :
  state_ok S0 -> state_ok (inner St) -> state_ok (outer St) -> bytes key -> Z.of_nat (length key) < 2 ^ 61 ->
  yields (hmac_init (blake_init iv) (Z.of_nat hashed) S0 St key (Z.of_nat (length key)))
    (fun St' => absorbed iv (hmac_block 0x36 (hmac_key hashed key)) (inner St') /\
                absorbed iv (hmac_block 0x5c (hmac_key hashed key)) (outer St')).
Proof.
  intros HS0 Hi Ho Hk H61. unfold hmac_init. destruct (Z.ltb_spec (Z.of_nat (length key)) (Z.of_nat (length key))); [lia|].
  set (k := hmac_key hashed key).
  assert (bytes k /\ (length k <= 64)%nat) as [Hbk Hlk].
  { unfold k, hmac_key. destruct (Nat.ltb_spec 64 (length key)); [|done].
    split; [apply bytes_take, bytes_blake_words|]. rewrite length_take. lia. }
  replace (if 64 <? Z.of_nat (length key) then _ else _) with (Ret k).
  - cbn [bind]. rewrite !hmac_pad_block by done.
    assert (forall byte S, state_ok S -> is_byte byte ->
              yields (blake256_update (blake_init iv S) (hmac_block byte k) 512) (absorbed iv (hmac_block byte k))) as Hu.
    { intros byte S HS Hb. rewrite <- (app_nil_l (hmac_block byte k)) at 2. rewrite <- (take_ge (hmac_block byte k) 64) at 2
        by (rewrite length_hmac_block; lia).
      apply (update_absorbed iv [] _ (hmac_block byte k) 64); auto using absorbed_init, bytes_hmac_block.
      - rewrite length_hmac_block; lia.
      - lia.
      - by left. }
    eapply yields_bind; [apply Hu; [done|unfold is_byte; lia]|]. intros i Hi'.
    eapply yields_bind; [apply Hu; [done|unfold is_byte; lia]|]. intros o Ho'. by apply yields_ret.
  - unfold k, hmac_key. destruct (Z.ltb_spec 64 (Z.of_nat (length key))), (Nat.ltb_spec 64 (length key)); try lia.
    + unfold blake256_hash, blake256_init, blake256_final. rewrite (hash_spec blake256_iv 1) by auto. cbn [bind].
      by rewrite Nat2Z.id, (take_ge key).
    + by rewrite Nat2Z.id, take_ge.
Qed.

(** The two finalisations, at any point after whole safe updates. *)
Lemma hmac_final_spec M1 M2 S1 S2 :
  absorbed iv M1 S1 -> absorbed iv M2 S2 -> (length M2 mod 64 = 0)%nat ->
  (let* ihash := blake256_final_h S1 (Z.lor 0x80 pb) pb in
   let* o := blake256_update S2 ihash (8 * Z.of_nat hashed) in
   blake256_final_h o (Z.lor 0x80 pb) pb) = Ret (H (M2 ++ take hashed (H M1))).
Proof.
  intros H1 H2 H0. rewrite (final_spec iv pb M1) by done. cbn [bind].
  destruct (update_absorbed iv M2 S2 (blake_words iv pb M1) hashed) as (o & -> & Ho); auto using bytes_blake_words.
  - rewrite length_blake_words. lia.
  - lia.
  - by left.
  - cbn [bind]. by apply final_spec.
Qed.

Lemma hmac_spec S0 St key inp :
  state_ok S0 -> state_ok (inner St) -> state_ok (outer St) -> bytes key -> Z.of_nat (length key) < 2 ^ 61 ->
  bytes inp -> Z.of_nat (length inp) < 2 ^ 61 ->
  (let* St := hmac_init (blake_init iv) (Z.of_nat hashed) S0 St key (Z.of_nat (length key)) in
   let* St := hmac_blake256_update St inp (uwrap 64 (Z.of_nat (length inp) * 8)) in
   let* ihash := blake256_final_h (inner St) (Z.lor 0x80 pb) pb in
   let* o := blake256_update (outer St) ihash (8 * Z.of_nat hashed) in
   blake256_final_h o (Z.lor 0x80 pb) pb) = Ret (hmac H hashed key inp).
Proof.
  intros HS0 Hi Ho Hk Hk61 Hm Hm61. destruct (hmac_init_spec S0 St key) as (St' & -> & Hi' & Ho'); auto.
  set (k := hmac_key hashed key) in *. cbn [bind]. rewrite uwrap_small by lia. rewrite (Z.mul_comm _ 8).
  assert (length k <= 64)%nat as Hlk.
  { unfold k, hmac_key. destruct (Nat.ltb_spec 64 (length key)); [|done]. rewrite length_take. lia. }
  unfold hmac_blake256_update.
  destruct (update_absorbed iv (hmac_block 0x36 k) (inner St') inp (length inp)) as (i & -> & Hi2); auto.
  - lia.
  - left. by rewrite length_hmac_block.
  - cbn [bind inner outer]. rewrite take_ge in Hi2 by lia.
    rewrite (hmac_final_spec _ _ _ _ Hi2 Ho') by (by rewrite length_hmac_block). done.
Qed.
End Hmac.

(** HMAC: the state machine init/update/final computes RFC 2104's
    construction over BLAKE-256, and over BLAKE-224 with the inner digest cut
    to 28 bytes (where a key longer than a block is hashed with BLAKE-256). *)
Theorem hmac_blake256_correct S0 St key inp :
  state_ok S0 -> state_ok (inner St) -> state_ok (outer St) -> bytes key -> Z.of_nat (length key) < 2 ^ 61 ->
  bytes inp -> Z.of_nat (length inp) < 2 ^ 61 ->
  hmac_blake256_hash S0 St key (Z.of_nat (length key)) inp (Z.of_nat (length inp)) =
    Ret (hmac blake256 32 key inp) /\
  hmac_blake224_hash S0 St key (Z.of_nat (length key)) inp (Z.of_nat (length inp)) =
    Ret (hmac (blake_words root_iv224 0) 28 key inp).
Proof.
  intros. split.
  - apply (hmac_spec blake256_iv 1 32); auto; lia.
  - apply (hmac_spec blake224_iv 0 28); auto; lia.
Qed.

Lemma hmac_blake256_correct_witness :
  hmac_blake256_hash zero_state {| inner := zero_state; outer := zero_state |} [1; 2] (Z.of_nat (length [1; 2])) [3] (Z.of_nat (length [3])) =
    Ret (hmac blake256 32 [1; 2] [3]) /\
  hmac_blake224_hash zero_state {| inner := zero_state; outer := zero_state |} [1; 2] (Z.of_nat (length [1; 2])) [3] (Z.of_nat (length [3])) =
    Ret (hmac (blake_words root_iv224 0) 28 [1; 2] [3]).
Proof.
  apply hmac_blake256_correct; try exact zero_state_ok; try (simpl; lia); repeat constructor; done.
Defined.
