(* ===== verification/Skein.v ===== *)
(** Skein-256, Skein-512 and Skein-1024: src/src/crypto/skein.c with the
    little-endian definitions of skein_port.h, and hash_extra_skein of
    hash-extra-skein.c.

    The three block functions are instances of one definition: a [variant] has
    the number of words, the number of groups of eight rounds, the register
    positions and rotation constants the macros write out, and whether the
    rounds loop with a sliding key schedule (Skein-1024 with the default
    [SKEIN_LOOP]) or are unrolled.  The code under [#if 0] (MAC and tree
    hashing, [Skein_256_Init]) is not compiled and not modelled. *)

From S2P Require Import Prelude Limbs Bytes Words.

(** ** Constants *)

Definition MK_64 (hi32 lo32 : Z) : Z := addw 64 lo32 (uwrap 64 (Z.shiftl hi32 32)).

Definition SKEIN_SCHEMA_VER : Z := MK_64 1 0x33414853.
Definition SKEIN_KS_PARITY : Z := MK_64 0x1BD11BDA 0xA9FC1A22.
Definition SKEIN_CFG_STR_LEN : Z := 32.

Definition SKEIN_T1_FLAG_FIRST : Z := Z.shiftl 1 62.
Definition SKEIN_T1_FLAG_FINAL : Z := Z.shiftl 1 63.
Definition SKEIN_T1_FLAG_BIT_PAD : Z := Z.shiftl 1 55.
Definition SKEIN_T1_BLK_TYPE_CFG : Z := Z.shiftl 4 56.
Definition SKEIN_T1_BLK_TYPE_MSG : Z := Z.shiftl 48 56.
Definition SKEIN_T1_BLK_TYPE_OUT : Z := Z.shiftl 63 56.
Definition SKEIN_T1_BLK_TYPE_CFG_FINAL : Z := Z.lor SKEIN_T1_BLK_TYPE_CFG SKEIN_T1_FLAG_FINAL.
Definition SKEIN_T1_BLK_TYPE_OUT_FINAL : Z := Z.lor SKEIN_T1_BLK_TYPE_OUT SKEIN_T1_FLAG_FINAL.

Definition SKEIN_256_IV_128 : list Z :=
  [MK_64 0xE1111906 0x964D7260; MK_64 0x883DAAA7 0x7C8D811C;
   MK_64 0x10080DF4 0x91960F7A; MK_64 0xCCF7DDE5 0xB45BC1C2].

Definition SKEIN_256_IV_160 : list Z :=
  [MK_64 0x14202314 0x72825E98; MK_64 0x2AC4E9A2 0x5A77E590;
   MK_64 0xD47A5856 0x8838D63E; MK_64 0x2DD2E496 0x8586AB7D].

Definition SKEIN_256_IV_224 : list Z :=
  [MK_64 0xC6098A8C 0x9AE5EA0B; MK_64 0x876D5686 0x08C5191C;
   MK_64 0x99CB88D7 0xD7F53884; MK_64 0x384BDDB1 0xAEDDB5DE].

Definition SKEIN_256_IV_256 : list Z :=
  [MK_64 0xFC9DA860 0xD048B449; MK_64 0x2FCA6647 0x9FA7D833;
   MK_64 0xB33BC389 0x6656840F; MK_64 0x6A54E920 0xFDE8DA69].

Definition SKEIN_512_IV_128 : list Z :=
  [MK_64 0xA8BC7BF3 0x6FBF9F52; MK_64 0x1E9872CE 0xBD1AF0AA;
   MK_64 0x309B1790 0xB32190D3; MK_64 0xBCFBB854 0x3F94805C;
   MK_64 0x0DA61BCD 0x6E31B11B; MK_64 0x1A18EBEA 0xD46A32E3;
   MK_64 0xA2CC5B18 0xCE84AA82; MK_64 0x6982AB28 0x9D46982D].

Definition SKEIN_512_IV_160 : list Z :=
  [MK_64 0x28B81A2A 0xE013BD91; MK_64 0xC2F11668 0xB5BDF78F;
   MK_64 0x1760D8F3 0xF6A56F12; MK_64 0x4FB74758 0x8239904F;
   MK_64 0x21EDE07F 0x7EAF5056; MK_64 0xD908922E 0x63ED70B8;
   MK_64 0xB8EC76FF 0xECCB52FA; MK_64 0x01A47BB8 0xA3F27A6E].

Definition SKEIN_512_IV_224 : list Z :=
  [MK_64 0xCCD06162 0x48677224; MK_64 0xCBA65CF3 0xA92339EF;
   MK_64 0x8CCD69D6 0x52FF4B64; MK_64 0x398AED7B 0x3AB890B4;
   MK_64 0x0F59D1B1 0x457D2BD0; MK_64 0x6776FE65 0x75D4EB3D;
   MK_64 0x99FBC70E 0x997413E9; MK_64 0x9E2CFCCF 0xE1C41EF7].

Definition SKEIN_512_IV_256 : list Z :=
  [MK_64 0xCCD044A1 0x2FDB3E13; MK_64 0xE8359030 0x1A79A9EB;
   MK_64 0x55AEA061 0x4F816E6F; MK_64 0x2A2767A4 0xAE9B94DB;
   MK_64 0xEC06025E 0x74DD7683; MK_64 0xE7A436CD 0xC4746251;
   MK_64 0xC36FBAF9 0x393AD185; MK_64 0x3EEDBA18 0x33EDFC13].

Definition SKEIN_512_IV_384 : list Z :=
  [MK_64 0xA3F6C6BF 0x3A75EF5F; MK_64 0xB0FEF9CC 0xFD84FAA4;
   MK_64 0x9D77DD66 0x3D770CFE; MK_64 0xD798CBF3 0xB468FDDA;
   MK_64 0x1BC4A666 0x8A0E4465; MK_64 0x7ED7D434 0xE5807407;
   MK_64 0x548FC1AC 0xD4EC44D6; MK_64 0x266E1754 0x6AA18FF8].

Definition SKEIN_512_IV_512 : list Z :=
  [MK_64 0x4903ADFF 0x749C51CE; MK_64 0x0D95DE39 0x9746DF03;
   MK_64 0x8FD19341 0x27C79BCE; MK_64 0x9A255629 0xFF352CB1;
   MK_64 0x5DB62599 0xDF6CA7B0; MK_64 0xEABE394C 0xA9D5C3F4;
   MK_64 0x991112C7 0x1A75B523; MK_64 0xAE18A40B 0x660FCC33].

Definition SKEIN1024_IV_384 : list Z :=
  [MK_64 0x5102B6B8 0xC1894A35; MK_64 0xFEEBC9E3 0xFE8AF11A;
   MK_64 0x0C807F06 0xE32BED71; MK_64 0x60C13A52 0xB41A91F6;
   MK_64 0x9716D35D 0xD4917C38; MK_64 0xE780DF12 0x6FD31D3A;
   MK_64 0x797846B6 0xC898303A; MK_64 0xB172C2A8 0xB3572A3B;
   MK_64 0xC9BC8203 0xA6104A6C; MK_64 0x65909338 0xD75624F4;
   MK_64 0x94BCC568 0x4B3F81A0; MK_64 0x3EBBF51E 0x10ECFD46;
   MK_64 0x2DF50F0B 0xEEB08542; MK_64 0x3B5A6530 0x0DBC6516;
   MK_64 0x484B9CD2 0x167BBCE1; MK_64 0x2D136947 0xD4CBAFEA].

Definition SKEIN1024_IV_512 : list Z :=
  [MK_64 0xCAEC0E5D 0x7C1B1B18; MK_64 0xA01B0E04 0x5F03E802;
   MK_64 0x33840451 0xED912885; MK_64 0x374AFB04 0xEAEC2E1C;
   MK_64 0xDF25A0E2 0x813581F7; MK_64 0xE4004093 0x8B12F9D2;
   MK_64 0xA662D539 0xC2ED39B6; MK_64 0xFA8B85CF 0x45D8C75A;
   MK_64 0x8316ED8E 0x29EDE796; MK_64 0x053289C0 0x2E9F91B8;
   MK_64 0xC3F8EF1D 0x6D518B73; MK_64 0xBDCEC3C4 0xD5EF332E;
   MK_64 0x549A7E52 0x22974487; MK_64 0x67070872 0x5B749816;
   MK_64 0xB9CD28FB 0xF0581BD1; MK_64 0x0E2940B8 0x15804974].

Definition SKEIN1024_IV_1024 : list Z :=
  [MK_64 0xD593DA07 0x41E72355; MK_64 0x15B5E511 0xAC73E00C;
   MK_64 0x5180E5AE 0xBAF2C4F0; MK_64 0x03BD41D3 0xFCBCAFAF;
   MK_64 0x1CAEC6FD 0x1983A898; MK_64 0x6E510B8B 0xCDD0589F;
   MK_64 0x77E2BDFD 0xC6394ADA; MK_64 0xC11E1DB5 0x24DCB0A3;
   MK_64 0xD6D14AF9 0xC6329AB5; MK_64 0x6A9B0BFC 0x6EB67E0D;
   MK_64 0x9243C60D 0xCCFF1332; MK_64 0x1A1F1DDE 0x743F02D4;
   MK_64 0x0996753C 0x10ED0BB8; MK_64 0x6572DD22 0xF2B4969A;
   MK_64 0x61FD3062 0xD00A579A; MK_64 0x1DE0536E 0x8682E539].

(** ** The block function *)

Record variant := {
  WCNT : nat;                  (* words of the state *)
  RCNT : nat;                  (* groups of eight rounds *)
  looping : bool;              (* SKEIN_UNROLL_* is 1, not 0 *)
  places : list (list nat);    (* register positions of the rounds 0-3 (and 4-7) of a group *)
  R_ : list (list Z)           (* rotation constants of the rounds 0-7 *)
}.

Definition V256 : variant := {|
  WCNT := 4; RCNT := 9; looping := false;
  places := [[0;1;2;3]; [0;3;2;1]; [0;1;2;3]; [0;3;2;1]]%nat;
  R_ := [[14;16]; [52;57]; [23;40]; [5;37]; [25;33]; [46;12]; [58;22]; [32;32]] |}.

Definition V512 : variant := {|
  WCNT := 8; RCNT := 9; looping := false;
  places := [[0;1;2;3;4;5;6;7]; [2;1;4;7;6;5;0;3]; [4;1;6;3;0;5;2;7]; [6;1;0;7;2;5;4;3]]%nat;
  R_ := [[46;36;19;37]; [33;27;14;42]; [17;49;36;39]; [44;9;54;56];
         [39;30;34;24]; [13;50;10;17]; [25;29;39;43]; [8;35;56;22]] |}.

Definition V1024 : variant := {|
  WCNT := 16; RCNT := 10; looping := true;
  places := [[0;1;2;3;4;5;6;7;8;9;10;11;12;13;14;15];
             [0;9;2;13;6;11;4;15;10;7;12;3;14;5;8;1];
             [0;7;2;5;4;3;6;1;12;15;14;13;8;11;10;9];
             [0;15;2;11;6;13;4;9;14;1;8;5;10;3;12;7]]%nat;
  R_ := [[24;13;8;47;8;17;22;37]; [38;19;10;55;49;18;23;52];
         [33;4;51;13;34;41;59;17]; [5;20;48;41;47;28;16;25];
         [41;9;37;31;12;47;44;30]; [16;34;56;51;4;53;42;41];
         [31;44;47;46;19;42;44;25]; [9;48;35;52;23;31;37;20]] |}.

(** [SKEIN_*_BLOCK_BYTES] *)
Definition BLOCK_BYTES (V : variant) : nat := 8 * WCNT V.

(** [RotL_64(x,N)] *)
Definition RotL_64 (x N : Z) : Z := rotl 64 x N.

(** [X##p += X##q; X##q = RotL_64(X##q,n); X##q ^= X##p;] *)
Definition Mix (p q : nat) (n : Z) (X : list Z) : list Z :=
  let X := <[p := addw 64 (X !!! p) (X !!! q)]> X in
  let X := <[q := RotL_64 (X !!! q) n]> X in
  <[q := Z.lxor (X !!! q) (X !!! p)]> X.

(** [Round256], [Round512], [Round1024] *)
Definition Round (ps : list nat) (ROT : list Z) (X : list Z) : list Z :=
  foldl (fun X j => Mix (ps !!! (2 * j)%nat) (ps !!! (2 * j + 1)%nat) (ROT !!! j) X) X (seq 0 (length ROT)).

(** The array [kw]: [ts] is [kw] and [ks] is [kw + 3]. *)
Definition ts (kw : list Z) (i : nat) : Z := kw !!! i.
Definition ks (kw : list Z) (i : nat) : Z := kw !!! (3 + i)%nat.

(** What the injection adds to word [i], of [W] words: [k], and a tweak word
    or the number of the subkey, [n1 + n2], at the last three words. *)
Definition inject_word (W i : nat) (k t0 t1 n1 n2 : Z) : Z :=
  if (i =? W - 3)%nat then addw 64 k t0
  else if (i =? W - 2)%nat then addw 64 k t1
  else if (i =? W - 1)%nat then addw 64 (addw 64 k n1) n2
  else k.

(** [I256(R)], [I512(R)]: unrolled, with indices modulo [W + 1] and 3. *)
Definition inject_unrolled (W R : nat) (kwX : list Z * list Z) : list Z * list Z :=
  let '(kw, X) := kwX in
  (kw, map (fun i => addw 64 (X !!! i)
         (inject_word W i (ks kw ((R + 1 + i) mod (W + 1))) (ts kw ((R + 1) mod 3)) (ts kw ((R + 2) mod 3))
            (Z.of_nat R) 1)) (seq 0 W)).

(** [I1024(R)] in round group [r]: the key schedule slides through [kw]. *)
Definition inject_looping (W r R : nat) (kwX : list Z * list Z) : list Z * list Z :=
  let '(kw, X) := kwX in
  let X := map (fun i => addw 64 (X !!! i)
         (inject_word W i (ks kw (r + R + i)) (ts kw (r + R)) (ts kw (r + R + 1)) (Z.of_nat r) (Z.of_nat R))) (seq 0 W) in
  let kw := <[(3 + (r + R + W))%nat := ks kw (r + R - 1)]> kw in
  let kw := <[(r + R + 2)%nat := ts kw (r + R - 1)]> kw in
  (kw, X).

(** [R256_8_rounds(R)] and the like; [inject n] is [I..(n)] *)
Definition eight_rounds (V : variant) (inject : nat -> list Z * list Z -> list Z * list Z) (R : nat)
  (kwX : list Z * list Z) : list Z * list Z :=
  let rnd j (kwX : list Z * list Z) := (fst kwX, Round (places V !!! (j mod 4)%nat) (R_ V !!! j) (snd kwX)) in
  let kwX := rnd 3%nat (rnd 2%nat (rnd 1%nat (rnd 0%nat kwX))) in
  let kwX := inject (2 * R)%nat kwX in
  let kwX := rnd 7%nat (rnd 6%nat (rnd 5%nat (rnd 4%nat kwX))) in
  inject (2 * R + 1)%nat kwX.

(** All rounds: unrolled, or [for (r=1; r <= 2*RCNT; r += 2)]. *)
Definition all_rounds (V : variant) (kwX : list Z * list Z) : list Z * list Z :=
  if looping V
  then foldl (fun kwX g => eight_rounds V (inject_looping (WCNT V) (2 * g + 1)) 0 kwX) kwX (seq 0 (RCNT V))
  else foldl (fun kwX R => eight_rounds V (inject_unrolled (WCNT V)) R kwX) kwX (seq 0 (RCNT V)).

(** One block: [X] the chaining words, [w] the block. [junk] is what the words
    of [kw] behind the key hold. *)
Definition process_one (V : variant) (junk : list Z) (ts0 ts1 : Z) (X w : list Z) : list Z :=
  let W := WCNT V in
  let key := X ++ [Z.lxor (foldl Z.lxor (X !!! 0%nat) (drop 1 X)) SKEIN_KS_PARITY] in
  let kw := [ts0; ts1; Z.lxor ts0 ts1] ++ key ++ junk in
  let X0 := map (fun i =>
    let x := addw 64 (w !!! i) (ks kw i) in
    if (i =? W - 3)%nat then addw 64 x (ts kw 0)
    else if (i =? W - 2)%nat then addw 64 x (ts kw 1) else x) (seq 0 W) in
  let '(_, Y) := all_rounds V (kw, X0) in
  xor_list Y w.

(** The context. *)
Record ctx := {
  hashBitLen : Z; bCnt : Z; T0 : Z; T1 : Z;
  cX : list Z;   (* u64b_t X[] *)
  cb : list Z    (* u08b_t b[] *)
}.

Definition set_T t0 t1 c := {| hashBitLen := hashBitLen c; bCnt := bCnt c; T0 := t0; T1 := t1; cX := cX c; cb := cb c |}.
Definition set_X X c := {| hashBitLen := hashBitLen c; bCnt := bCnt c; T0 := T0 c; T1 := T1 c; cX := X; cb := cb c |}.
Definition set_b n b c := {| hashBitLen := hashBitLen c; bCnt := n; T0 := T0 c; T1 := T1 c; cX := cX c; cb := b |}.

(** The [do .. while (--blkCnt)] loop, with the locals [ts[0]], [ts[1]]. *)
Fixpoint block_loop (V : variant) (junk : list Z) (blkCnt : nat) (byteCntAdd : Z) (blk : list Z) (st : Z * Z * list Z)
  : outcome (Z * Z * list Z) :=
  match blkCnt with
  | O => Ret st
  | S n =>
      let '(ts0, ts1, X) := st in
      if (length blk <? BLOCK_BYTES V)%nat then Fault OutOfBounds else
      let ts0 := addw 64 ts0 byteCntAdd in
      let X := process_one V junk ts0 ts1 X (le_words 8 (WCNT V) blk) in
      let ts1 := Z.land ts1 (notw 64 SKEIN_T1_FLAG_FIRST) in
      block_loop V junk n byteCntAdd (drop (BLOCK_BYTES V) blk) (ts0, ts1, X)
  end.

(** A count of 0 would wrap around and run past the buffer. *)
Definition Process_Block (V : variant) (junk : list Z) (c : ctx) (blk : list Z) (blkCnt byteCntAdd : Z) : outcome ctx :=
  if blkCnt =? 0 then Fault OutOfBounds else
  let* '(t0, t1, X) := block_loop V junk (Z.to_nat blkCnt) byteCntAdd blk (T0 c, T1 c, cX c) in
  Ret (set_X X (set_T t0 t1 c)).

Definition Skein_256_Process_Block := Process_Block V256.
Definition Skein_512_Process_Block := Process_Block V512.
Definition Skein1024_Process_Block := Process_Block V1024.

(** ** Init *)

Definition Start_New_Type (type : Z) (c : ctx) : ctx :=
  {| hashBitLen := hashBitLen c; bCnt := 0; T0 := 0; T1 := Z.lor SKEIN_T1_FLAG_FIRST type; cX := cX c; cb := cb c |}.

Definition cfg_block (V : variant) (bitlen : Z) : list Z :=
  words_bytes 8 ([SKEIN_SCHEMA_VER; bitlen; 0] ++ replicate (WCNT V - 3) 0).

(** [iv]: the pre-computed chaining words for the length, if there are any. *)
Definition Init_iv (V : variant) (iv : option (list Z)) (junk : list Z) (c : ctx) (bitlen : Z) : outcome ctx :=
  let c := {| hashBitLen := bitlen; bCnt := bCnt c; T0 := T0 c; T1 := T1 c; cX := cX c; cb := cb c |} in
  let* c :=
    match iv with
    | Some X => Ret (set_X X c)
    | None =>
        let c := Start_New_Type SKEIN_T1_BLK_TYPE_CFG_FINAL c in
        let c := set_X (replicate (WCNT V) 0) c in
        Process_Block V junk c (cfg_block V bitlen) 1 SKEIN_CFG_STR_LEN
    end in
  Ret (Start_New_Type SKEIN_T1_BLK_TYPE_MSG c).

Definition Skein_512_Init (junk : list Z) (c : ctx) (bitlen : Z) : outcome ctx :=
  let iv :=
    if bitlen =? 512 then Some SKEIN_512_IV_512
    else if bitlen =? 384 then Some SKEIN_512_IV_384
    else if bitlen =? 256 then Some SKEIN_512_IV_256
    else if bitlen =? 224 then Some SKEIN_512_IV_224
    else None in
  Init_iv V512 iv junk c bitlen.

Definition Skein1024_Init (junk : list Z) (c : ctx) (bitlen : Z) : outcome ctx :=
  let iv :=
    if bitlen =? 512 then Some SKEIN1024_IV_512
    else if bitlen =? 384 then Some SKEIN1024_IV_384
    else if bitlen =? 1024 then Some SKEIN1024_IV_1024
    else None in
  Init_iv V1024 iv junk c bitlen.

(** ** Update *)

(** [memcpy(&ctx->b[ctx->h.bCnt],msg,n); ctx->h.bCnt += n;] *)
Definition fill_b (V : variant) (msg : list Z) (n : Z) (c : ctx) : outcome ctx :=
  if (Z.of_nat (length msg) <? n) || (Z.of_nat (BLOCK_BYTES V) <? bCnt c + n) then Fault OutOfBounds else
  Ret (set_b (bCnt c + n)
    (take (Z.to_nat (bCnt c)) (cb c) ++ take (Z.to_nat n) msg ++ drop (Z.to_nat (bCnt c + n)) (cb c)) c).

Definition Skein_Update (V : variant) (junk : list Z) (c : ctx) (msg : list Z) (msgByteCnt : Z) : outcome ctx :=
  let BB := Z.of_nat (BLOCK_BYTES V) in
  let* '(c, msg, msgByteCnt) :=
    if BB <? addw 64 msgByteCnt (bCnt c) then
      let* '(c, msg, msgByteCnt) :=
        if negb (bCnt c =? 0) then
          let n := BB - bCnt c in
          let* '(c, msg, msgByteCnt) :=
            if negb (n =? 0) then
              let* c := fill_b V msg n c in
              Ret (c, drop (Z.to_nat n) msg, uwrap 64 (msgByteCnt - n))
            else Ret (c, msg, msgByteCnt) in
          let* c := Process_Block V junk c (cb c) 1 BB in
          Ret (set_b 0 (cb c) c, msg, msgByteCnt)
        else Ret (c, msg, msgByteCnt) in
      if BB <? msgByteCnt then
        let n := (msgByteCnt - 1) / BB in
        let* c := Process_Block V junk c msg n BB in
        Ret (c, drop (Z.to_nat (n * BB)) msg, msgByteCnt - n * BB)
      else Ret (c, msg, msgByteCnt)
    else Ret (c, msg, msgByteCnt) in
  if negb (msgByteCnt =? 0) then fill_b V msg msgByteCnt c else Ret c.

Definition Skein_256_Update := Skein_Update V256.
Definition Skein_512_Update := Skein_Update V512.
Definition Skein1024_Update := Skein_Update V1024.

(** ** Final *)

(** [for (i=0; i*BLOCK_BYTES < byteCnt; i++)]; [key] is the local copy [X]. *)
Fixpoint output_loop (fuel : nat) (V : variant) (junk : list Z) (c : ctx) (key : list Z) (byteCnt i : Z) (out : list Z)
  : outcome (ctx * list Z) :=
  let BB := Z.of_nat (BLOCK_BYTES V) in
  if byteCnt <=? i * BB then Ret (c, out) else
  match fuel with
  | O => Fault Diverges
  | S fuel' =>
      let c := set_b (bCnt c) (le_bytes 8 i ++ drop 8 (cb c)) c in
      let c := Start_New_Type SKEIN_T1_BLK_TYPE_OUT_FINAL c in
      let* c := Process_Block V junk c (cb c) 1 8 in
      let n := byteCnt - i * BB in
      let n := if BB <=? n then BB else n in
      let out := out ++ take (Z.to_nat n) (words_bytes 8 (cX c)) in
      output_loop fuel' V junk (set_X key c) key byteCnt (i + 1) out
  end.

(** The bytes written to [hashVal]. *)
Definition Skein_Final (V : variant) (junk : list Z) (c : ctx) : outcome (list Z) :=
  let BB := Z.of_nat (BLOCK_BYTES V) in
  let c := set_T (T0 c) (Z.lor (T1 c) SKEIN_T1_FLAG_FINAL) c in
  let c := if bCnt c <? BB
           then set_b (bCnt c) (take (Z.to_nat (bCnt c)) (cb c) ++ replicate (Z.to_nat (BB - bCnt c)) 0) c else c in
  let* c := Process_Block V junk c (cb c) 1 (bCnt c) in
  let byteCnt := Z.shiftr (addw 64 (hashBitLen c) 7) 3 in
  let c := set_b (bCnt c) (replicate (BLOCK_BYTES V) 0) c in
  let* '(_, out) := output_loop (S (Z.to_nat (byteCnt / BB))) V junk c (cX c) byteCnt 0 [] in
  Ret out.

Definition Skein_256_Final := Skein_Final V256.
Definition Skein_512_Final := Skein_Final V512.
Definition Skein1024_Final := Skein_Final V1024.

(** ** The NIST interface *)

Definition SKEIN_SUCCESS : Z := 0.
Definition SKEIN_FAIL : Z := 1.

(** The union is the context of the variant [statebits] tells. *)
Record skein_state := { statebits : Z; u : ctx }.

Section Api.
(** The contents of the uninitialised local variables: the words of [kw]
    behind the key, and the context for each variant. *)
Context (junk : variant -> list Z) (uninit : variant -> ctx).

(** [Skein_Assert(hashBitLen > 0, SKEIN_BAD_HASHLEN)] of the initialisers it
    calls expands to nothing unless SKEIN_ERR_CHECK is defined, which the build
    does not do. *)
Definition skein_Init (hashbitlen : Z) : outcome skein_state :=
  if hashbitlen <=? 512 then
    let* c := Skein_512_Init (junk V512) (uninit V512) (uwrap 64 hashbitlen) in
    Ret {| statebits := 512; u := c |}
  else
    let* c := Skein1024_Init (junk V1024) (uninit V1024) (uwrap 64 hashbitlen) in
    Ret {| statebits := 1024; u := c |}.

(** [switch ((state->statebits >> 8) & 3)] *)
Definition select_variant (statebits : Z) : option variant :=
  let k := Z.land (Z.shiftr statebits 8) 3 in
  if k =? 2 then Some V512 else if k =? 1 then Some V256 else if k =? 0 then Some V1024 else None.

Definition skein_Update (s : skein_state) (data : list Z) (databitlen : Z) : outcome (skein_state * Z) :=
  if Z.land databitlen 7 =? 0 then
    match select_variant (statebits s) with
    | Some V =>
        let* c := Skein_Update V (junk V) (u s) data (Z.shiftr databitlen 3) in
        Ret ({| statebits := statebits s; u := c |}, SKEIN_SUCCESS)
    | None => Ret (s, SKEIN_FAIL)
    end
  else
    let bCnt := Z.shiftr databitlen 3 + 1 in
    let mask := u8 (Z.shiftl 1 (7 - Z.land databitlen 7)) in
    let* d := index data (bCnt - 1) in
    let b := u8 (Z.lor (Z.land d (0 - mask)) mask) in
    match select_variant (statebits s) with
    | Some V =>
        let* c := Skein_Update V (junk V) (u s) data (bCnt - 1) in
        let* c := Skein_Update V (junk V) c [b] 1 in
        let c := set_T (T0 c) (Z.lor (T1 c) SKEIN_T1_FLAG_BIT_PAD) c in
        Ret ({| statebits := statebits s; u := c |}, SKEIN_SUCCESS)
    | None => Ret (s, SKEIN_FAIL)
    end.

Definition skein_Final (s : skein_state) : outcome (list Z) :=
  match select_variant (statebits s) with
  | Some V => Skein_Final V (junk V) (u s)
  | None => Ret []
  end.

(** The return code and the bytes written to [hashval]. *)
Definition skein_hash (hashbitlen : Z) (data : list Z) (databitlen : Z) : outcome (Z * list Z) :=
  let* s := skein_Init hashbitlen in
  let* '(s, r) := skein_Update s data databitlen in
  let* out := skein_Final s in
  Ret (r, out).

Definition hash_extra_skein (data : list Z) (length : Z) : outcome (list Z) :=
  let* '(r, out) := skein_hash (8 * 32) data (uwrap 64 (8 * length)) in
  let* _ := assert (r =? SKEIN_SUCCESS) in
  Ret out.
End Api.
