(* ===== verification/SkeinFacts.v ===== *)
(** Skein against its definition: the Threefish block cipher with its key
    schedule and word permutation, the UBI chaining mode with its tweak, and
    the configuration, message and output stages. *)

From S2P Require Import Prelude Limbs Bytes Words Skein.

(** ** Threefish *)

(** The word permutation. *)
Definition word_perm (W : nat) : list nat :=
  match W with
  | 4 => [0;3;2;1]
  | 8 => [2;1;4;7;6;5;0;3]
  | _ => [0;9;2;13;6;11;4;15;10;7;12;3;14;5;8;1]
  end%nat.

(** One round: MIX on each pair of words, then the permutation. *)
Definition tf_round (W : nat) (rots : list Z) (v : list Z) : list Z :=
  let f := concat (map (fun j =>
    let y0 := addw 64 (v !!! (2 * j)%nat) (v !!! (2 * j + 1)%nat) in
    [y0; Z.lxor (RotL_64 (v !!! (2 * j + 1)%nat) (rots !!! j)) y0]) (seq 0 (W / 2))) in
  map (fun i => f !!! (word_perm W !!! i)) (seq 0 W).

(** The extended key and tweak, and the words of subkey [s]. *)
Definition ext_key (K : list Z) : list Z := K ++ [foldl Z.lxor 0x1BD11BDAA9FC1A22 K].
Definition ext_tweak (t0 t1 : Z) : list Z := [t0; t1; Z.lxor t0 t1].

Definition subkey_word (W : nat) (K : list Z) (t0 t1 : Z) (s i : nat) : Z :=
  let k := ext_key K !!! ((s + i) mod (W + 1))%nat in
  if (i =? W - 3)%nat then addw 64 k (ext_tweak t0 t1 !!! (s mod 3)%nat)
  else if (i =? W - 2)%nat then addw 64 k (ext_tweak t0 t1 !!! ((s + 1) mod 3)%nat)
  else if (i =? W - 1)%nat then addw 64 k (Z.of_nat s)
  else k.

Definition add_subkey (W : nat) (K : list Z) (t0 t1 : Z) (s : nat) (v : list Z) : list Z :=
  map (fun i => addw 64 (v !!! i) (subkey_word W K t0 t1 s i)) (seq 0 W).

(** Round [d], with the subkey before every fourth round. *)
Definition tf_step (V : variant) (K : list Z) (t0 t1 : Z) (v : list Z) (d : nat) : list Z :=
  let v := if (d mod 4 =? 0)%nat then add_subkey (WCNT V) K t0 t1 (d / 4) v else v in
  tf_round (WCNT V) (R_ V !!! (d mod 8)%nat) v.

Definition threefish (V : variant) (K : list Z) (t0 t1 : Z) (P : list Z) : list Z :=
  add_subkey (WCNT V) K t0 t1 (2 * RCNT V)
    (foldl (tf_step V K t0 t1) P (seq 0 (8 * RCNT V))).

(** ** The rounds without permutation *)

(** The state as the registers at round [j] of a group see it. *)
Definition view (V : variant) (j : nat) (X : list Z) : list Z :=
  map (fun i => X !!! ((places V !!! j) !!! i)) (seq 0 (WCNT V)).

Ltac explode l H := repeat (destruct l as [|? l]; try discriminate H).

Lemma round_256 j X ROT :
  length X = 4%nat -> length ROT = 2%nat -> (j < 4)%nat ->
  view V256 ((j + 1) mod 4) (Round (places V256 !!! j) ROT X) = tf_round 4 ROT (view V256 j X).
Proof.
  intros HX HR Hj. explode X HX. explode ROT HR.
  do 4 (destruct j as [|j]; [cbv -[addw RotL_64 Z.lxor]; reflexivity|]). lia.
Qed.

Lemma round_512 j X ROT :
  length X = 8%nat -> length ROT = 4%nat -> (j < 4)%nat ->
  view V512 ((j + 1) mod 4) (Round (places V512 !!! j) ROT X) = tf_round 8 ROT (view V512 j X).
Proof.
  intros HX HR Hj. explode X HX. explode ROT HR.
  do 4 (destruct j as [|j]; [cbv -[addw RotL_64 Z.lxor]; reflexivity|]). lia.
Qed.

Lemma round_1024 j X ROT :
  length X = 16%nat -> length ROT = 8%nat -> (j < 4)%nat ->
  view V1024 ((j + 1) mod 4) (Round (places V1024 !!! j) ROT X) = tf_round 16 ROT (view V1024 j X).
Proof.
  intros HX HR Hj. explode X HX. explode ROT HR.
  do 4 (destruct j as [|j]; [cbv -[addw RotL_64 Z.lxor]; reflexivity|]). lia.
Qed.

Lemma length_Mix p q n X : length (Mix p q n X) = length X.
Proof. unfold Mix. cbv zeta. by rewrite !length_insert. Qed.

Lemma length_Round ps ROT X : length (Round ps ROT X) = length X.
Proof.
  unfold Round. generalize (seq 0 (length ROT)) as js. intros js. revert X.
  induction js as [|j js IH]; intros X; [done|]. cbn [foldl]. by rewrite IH, length_Mix.
Qed.

(** What the rest of the development uses of a variant. *)
Class Variant (V : variant) : Prop := {
  variant_W : (4 <= WCNT V <= 16)%nat;
  variant_places0 X : length X = WCNT V -> view V 0 X = X;
  variant_round j X ROT :
    length X = WCNT V -> length ROT = (WCNT V / 2)%nat -> (j < 4)%nat ->
    view V ((j + 1) mod 4) (Round (places V !!! j) ROT X) = tf_round (WCNT V) ROT (view V j X);
  variant_R k : (k < 8)%nat -> length (R_ V !!! k) = (WCNT V / 2)%nat
}.

#[global] Instance variant_256 : Variant V256.
Proof.
  split.
  - simpl. lia.
  - intros X HX. explode X HX. reflexivity.
  - exact round_256.
  - intros k Hk. do 8 (destruct k as [|k]; [reflexivity|]). lia.
Qed.

#[global] Instance variant_512 : Variant V512.
Proof.
  split.
  - simpl. lia.
  - intros X HX. explode X HX. reflexivity.
  - exact round_512.
  - intros k Hk. do 8 (destruct k as [|k]; [reflexivity|]). lia.
Qed.

#[global] Instance variant_1024 : Variant V1024.
Proof.
  split.
  - simpl. lia.
  - intros X HX. explode X HX. reflexivity.
  - exact round_1024.
  - intros k Hk. do 8 (destruct k as [|k]; [reflexivity|]). lia.
Qed.

#[local] Opaque Round tf_round addw.

Lemma addw_assoc a b c : addw 64 (addw 64 a b) c = addw 64 a (addw 64 b c).
Proof.
  Local Transparent addw.
  unfold addw, uwrap. rewrite Zplus_mod_idemp_l, Zplus_mod_idemp_r. f_equal. lia.
Qed.
#[local] Opaque addw.

Lemma addw_add k a b : addw 64 (addw 64 k a) b = addw 64 k (a + b).
Proof.
  Local Transparent addw.
  unfold addw, uwrap. rewrite Zplus_mod_idemp_l. f_equal. lia.
Qed.
#[local] Opaque addw.

Section Rounds.
Context (V : variant) {HV : Variant V}.
#[local] Abbreviation W := (WCNT V).

(** Four rounds from rotation row [k] on, in the code and in the definition. *)
Definition four_code (k : nat) (X : list Z) : list Z :=
  Round (places V !!! 3%nat) (R_ V !!! (k + 3)%nat) (Round (places V !!! 2%nat) (R_ V !!! (k + 2)%nat)
    (Round (places V !!! 1%nat) (R_ V !!! (k + 1)%nat) (Round (places V !!! 0%nat) (R_ V !!! (k + 0)%nat) X))).
Definition four_ref (k : nat) (v : list Z) : list Z :=
  tf_round W (R_ V !!! (k + 3)%nat) (tf_round W (R_ V !!! (k + 2)%nat)
    (tf_round W (R_ V !!! (k + 1)%nat) (tf_round W (R_ V !!! (k + 0)%nat) v))).

Lemma length_four_code k X : length (four_code k X) = length X.
Proof. unfold four_code. by rewrite !length_Round. Qed.

Lemma four_spec k X : length X = W -> (k <= 4)%nat -> four_code k X = four_ref k X.
Proof.
  intros HX Hk. unfold four_ref. rewrite <- (variant_places0 X) at 2 by done.
  assert (forall i, (i < 4)%nat -> length (R_ V !!! (k + i)%nat) = (W / 2)%nat) as HR by (intros; apply variant_R; lia).
  rewrite <- (variant_round 0), <- (variant_round 1), <- (variant_round 2), <- (variant_round 3)
    by first [by rewrite ?length_Round | apply HR; lia | lia].
  change ((3 + 1) mod 4)%nat with 0%nat. rewrite variant_places0 by (by rewrite !length_Round).
  done.
Qed.

Lemma eight_rounds_four inject R kw X :
  eight_rounds V inject R (kw, X) =
  let '(kw, X) := inject (2 * R)%nat (kw, four_code 0 X) in inject (2 * R + 1)%nat (kw, four_code 4 X).
Proof.
  unfold eight_rounds. cbv zeta. cbn [fst snd].
  change (inject (2 * R)%nat (kw, Round _ _ _)) with (inject (2 * R)%nat (kw, four_code 0 X)).
  destruct (inject (2 * R)%nat _) as [kw1 X1]. reflexivity.
Qed.

Lemma tf_step_at K t0 t1 v g j :
  (j < 8)%nat ->
  tf_step V K t0 t1 v (8 * g + j) =
  tf_round W (R_ V !!! j) (if (j mod 4 =? 0)%nat then add_subkey W K t0 t1 (2 * g + j / 4) v else v).
Proof.
  intros Hj. unfold tf_step.
  assert ((8 * g + j) mod 8 = j)%nat as -> by (rewrite Nat.add_comm, Nat.mul_comm, Nat.Div0.mod_add, Nat.mod_small; lia).
  replace (8 * g + j)%nat with (j + (2 * g) * 4)%nat by lia.
  rewrite Nat.Div0.mod_add, Nat.div_add, (Nat.add_comm (j / 4)) by lia. done.
Qed.

Lemma tf_eight K t0 t1 v g :
  foldl (tf_step V K t0 t1) v (seq (8 * g) 8) =
  four_ref 4 (add_subkey W K t0 t1 (2 * g + 1) (four_ref 0 (add_subkey W K t0 t1 (2 * g) v))).
Proof.
  assert (seq (8 * g) 8 = map (fun j => 8 * g + j)%nat [0; 1; 2; 3; 4; 5; 6; 7]%nat) as ->.
  { cbn [seq map]. repeat f_equal; lia. }
  cbn [map foldl]. rewrite !tf_step_at by lia.
  change (0 mod 4 =? 0)%nat with true. change (1 mod 4 =? 0)%nat with false. change (2 mod 4 =? 0)%nat with false.
  change (3 mod 4 =? 0)%nat with false. change (4 mod 4 =? 0)%nat with true. change (5 mod 4 =? 0)%nat with false.
  change (6 mod 4 =? 0)%nat with false. change (7 mod 4 =? 0)%nat with false. cbv iota.
  change (0 / 4)%nat with 0%nat. change (4 / 4)%nat with 1%nat. rewrite Nat.add_0_r. reflexivity.
Qed.

(** ** The key schedule *)

Section Key.
Context (K : list Z) (t0 t1 : Z) (HK : length K = W).

Lemma length_add_subkey s v : length (add_subkey W K t0 t1 s v) = W.
Proof. unfold add_subkey. by rewrite length_map, length_seq. Qed.

Lemma inject_word_spec s i n1 n2 :
  n1 + n2 = Z.of_nat s ->
  inject_word W i (ext_key K !!! ((s + i) mod (W + 1))%nat) (ext_tweak t0 t1 !!! (s mod 3)%nat)
    (ext_tweak t0 t1 !!! ((s + 1) mod 3)%nat) n1 n2 = subkey_word W K t0 t1 s i.
Proof.
  intros E. unfold inject_word, subkey_word. rewrite addw_add, E. done.
Qed.

(** Unrolled: [kw] starts with the extended tweak and the extended key. *)
Definition holds_key (kw : list Z) : Prop :=
  (forall i, (i < 3)%nat -> ts kw i = ext_tweak t0 t1 !!! i) /\
  (forall i, (i < W + 1)%nat -> ks kw i = ext_key K !!! i).

Lemma inject_unrolled_spec kw X R :
  holds_key kw -> inject_unrolled W R (kw, X) = (kw, add_subkey W K t0 t1 (R + 1) X).
Proof.
  intros [Ht Hk]. unfold inject_unrolled, add_subkey. f_equal. apply map_ext. intros i. f_equal.
  rewrite Hk, !Ht by (apply Nat.mod_upper_bound; lia). rewrite <- (inject_word_spec (R + 1) i (Z.of_nat R) 1) by lia.
  by replace (R + 1 + 1)%nat with (R + 2)%nat by lia.
Qed.

(** Looping: before the injection of subkey [s] the words [s-1 ..] of the two
    overlapping arrays hold the schedule. *)
Definition slides (s : nat) (kw : list Z) : Prop :=
  length kw = (W + 4 + 2 * RCNT V)%nat /\
  (forall i, (s <= i + 1 <= s + 2)%nat -> ts kw i = ext_tweak t0 t1 !!! (i mod 3)%nat) /\
  (forall i, (s <= i + 1 <= s + W)%nat -> ks kw i = ext_key K !!! (i mod (W + 1))%nat).

Lemma mod_period (i n : nat) : n <> 0%nat -> ((i + n) mod n = i mod n)%nat.
Proof. intros H. replace (i + n)%nat with (i + 1 * n)%nat by lia. by apply Nat.Div0.mod_add. Qed.

Lemma inject_looping_spec kw X r R :
  let s := (r + R)%nat in
  (1 <= s <= 2 * RCNT V)%nat -> slides s kw ->
  exists kw', inject_looping W r R (kw, X) = (kw', add_subkey W K t0 t1 s X) /\ slides (s + 1) kw'.
Proof.
  intros s Hs (Hl & Ht & Hk). eexists. split.
  - unfold inject_looping. f_equal. apply map_ext_in. intros i Hi%in_seq. f_equal.
    fold s. rewrite Hk, !Ht by lia. apply inject_word_spec. lia.
  - fold s. split; [by rewrite !length_insert|]. pose proof variant_W as HW. split.
    + intros i Hi. unfold ts in *. destruct (Nat.eq_dec i (s + 2)%nat) as [->|].
      * rewrite list_lookup_total_insert_eq by (rewrite length_insert; lia).
        rewrite list_lookup_total_insert_ne by lia. rewrite Ht by lia.
        rewrite <- (mod_period (s - 1) 3) by lia. do 2 f_equal. lia.
      * rewrite !list_lookup_total_insert_ne by lia. apply Ht. lia.
    + intros i Hi. unfold ks in *. rewrite (list_lookup_total_insert_ne _ (s + 2)%nat) by lia.
      destruct (Nat.eq_dec i (s + W)%nat) as [->|].
      * rewrite list_lookup_total_insert_eq by lia. rewrite Hk by lia.
        rewrite <- (mod_period (s - 1) (W + 1)) by lia. do 2 f_equal. lia.
      * rewrite list_lookup_total_insert_ne by lia. apply Hk. lia.
Qed.

(** ** All rounds *)

Lemma unrolled_rounds kw P n :
  holds_key kw -> length P = W ->
  foldl (fun kwX R => eight_rounds V (inject_unrolled W) R kwX) (kw, add_subkey W K t0 t1 0 P) (seq 0 n) =
  (kw, add_subkey W K t0 t1 (2 * n) (foldl (tf_step V K t0 t1) P (seq 0 (8 * n)))).
Proof.
  intros Hkw HP. induction n as [|n IH]; [done|].
  rewrite seq_S, foldl_app, IH. cbn [foldl]. rewrite eight_rounds_four, inject_unrolled_spec by done.
  rewrite inject_unrolled_spec by done. rewrite !four_spec by (rewrite ?length_four_code, ?length_add_subkey; done || lia).
  replace (8 * S n)%nat with (8 * n + 8)%nat by lia. rewrite seq_app, foldl_app. change (0 + 8 * n)%nat with (8 * n)%nat. rewrite tf_eight.
  do 2 f_equal. lia.
Qed.

Lemma looping_rounds kw P n :
  slides 1 kw -> length P = W -> (n <= RCNT V)%nat ->
  exists kw',
    foldl (fun kwX g => eight_rounds V (inject_looping W (2 * g + 1)) 0 kwX) (kw, add_subkey W K t0 t1 0 P) (seq 0 n) =
    (kw', add_subkey W K t0 t1 (2 * n) (foldl (tf_step V K t0 t1) P (seq 0 (8 * n)))) /\ slides (2 * n + 1) kw'.
Proof.
  intros Hkw HP. induction n as [|n IH]; intros Hn; [by eauto|].
  destruct (IH ltac:(lia)) as (kw1 & E & H1). rewrite seq_S, foldl_app, E. cbn [foldl]. change (0 + n)%nat with n. rewrite eight_rounds_four.
  destruct (inject_looping_spec kw1 (four_code 0 (add_subkey W K t0 t1 (2 * n) (foldl (tf_step V K t0 t1) P (seq 0 (8 * n))))) (2 * n + 1) (2 * 0))
    as (kw2 & -> & H2); [lia|by rewrite Nat.mul_0_r, Nat.add_0_r|].
  cbv beta iota.
  match goal with |- context [inject_looping _ _ _ (kw2, ?Y)] => destruct (inject_looping_spec kw2 Y (2 * n + 1) (2 * 0 + 1)) as (kw3 & -> & H3) end;
    [lia|by replace (2 * n + 1 + (2 * 0 + 1))%nat with (2 * n + 1 + 2 * 0 + 1)%nat by lia|].
  exists kw3. split.
  - rewrite !four_spec by (rewrite ?length_four_code, ?length_add_subkey; done || lia).
    replace (8 * S n)%nat with (8 * n + 8)%nat by lia. rewrite seq_app, foldl_app. change (0 + 8 * n)%nat with (8 * n)%nat. rewrite tf_eight.
    replace (2 * n + 1 + (2 * 0 + 1))%nat with (2 * S n)%nat by lia.
    replace (2 * n + 1 + 2 * 0)%nat with (2 * n + 1)%nat by lia. reflexivity.
  - by replace (2 * S n + 1)%nat with (2 * n + 1 + (2 * 0 + 1) + 1)%nat by lia.
Qed.

Lemma parity_spec : Z.lxor (foldl Z.lxor (K !!! 0%nat) (drop 1 K)) SKEIN_KS_PARITY = foldl Z.lxor 0x1BD11BDAA9FC1A22 K.
Proof.
  pose proof variant_W as HW. destruct K as [|k0 K']; [simpl in HK; lia|]. cbn [drop foldl]. rewrite drop_0.
  change ((k0 :: K') !!! 0%nat) with k0. change SKEIN_KS_PARITY with 0x1BD11BDAA9FC1A22. generalize 0x1BD11BDAA9FC1A22 as c.
  clear HK. revert k0. induction K' as [|k K' IH]; intros k0 c; cbn [foldl]; [apply Z.lxor_comm|].
  rewrite IH. by rewrite Z.lxor_assoc.
Qed.

Lemma process_one_spec junk w :
  length w = W -> (if looping V then length junk = (2 * RCNT V)%nat else True) ->
  process_one V junk t0 t1 K w = xor_list (threefish V K t0 t1 w) w.
Proof.
  intros Hw Hj. unfold process_one. rewrite parity_spec. cbv zeta. pose proof variant_W as HW.
  set (kw := [t0; t1; Z.lxor t0 t1] ++ (K ++ [foldl Z.lxor 0x1BD11BDAA9FC1A22 K]) ++ junk).
  assert (forall i, (i < 3)%nat -> ts kw i = ext_tweak t0 t1 !!! i) as Ht.
  { intros i Hi. do 3 (destruct i as [|i]; [done|]). lia. }
  assert (forall i, (i < W + 1)%nat -> ks kw i = ext_key K !!! i) as Hk.
  { intros i Hi. unfold ks, kw, ext_key. rewrite lookup_total_app_r by (simpl; lia). cbn [length].
    replace (3 + i - 3)%nat with i by lia. rewrite lookup_total_app_l by (rewrite length_app, HK; simpl; lia). done. }
  assert (map (fun i =>
    if (i =? W - 3)%nat then addw 64 (addw 64 (w !!! i) (ks kw i)) (ts kw 0)
    else if (i =? W - 2)%nat then addw 64 (addw 64 (w !!! i) (ks kw i)) (ts kw 1) else addw 64 (w !!! i) (ks kw i)) (seq 0 W) =
    add_subkey W K t0 t1 0 w) as ->.
  { unfold add_subkey. apply map_ext_in. intros i Hi%in_seq. unfold subkey_word. rewrite Hk, !Ht by lia.
    rewrite Nat.add_0_l, (Nat.mod_small i) by lia.
    destruct (i =? W - 3)%nat; [by rewrite addw_assoc|]. destruct (i =? W - 2)%nat; [by rewrite addw_assoc|].
    destruct (i =? W - 1)%nat; [|done]. rewrite <- addw_assoc, addw_add. by rewrite Z.add_0_r. }
  unfold all_rounds, threefish. destruct (looping V).
  - destruct (looping_rounds kw w (RCNT V)) as (kw' & -> & _); auto.
    split; [unfold kw; rewrite !length_app, HK; simpl; lia|]. split.
    + intros i Hi. rewrite Ht by lia. rewrite Nat.mod_small by lia. done.
    + intros i Hi. rewrite Hk by lia. rewrite Nat.mod_small by lia. done.
  - by rewrite unrolled_rounds.
Qed.
End Key.
End Rounds.

(** ** UBI and Skein *)

(** The second tweak word: the type, and the flags first, final and bit-pad. *)
Definition ubi_tweak (type : Z) (first final pad : bool) : Z :=
  type * 2 ^ 56 + (if first then 2 ^ 62 else 0) + (if final then 2 ^ 63 else 0) + (if pad then 2 ^ 55 else 0).

Definition ubi_block (V : variant) (G : list Z) (t0 t1 : Z) (blk : list Z) : list Z :=
  let w := le_words 8 (WCNT V) blk in xor_list (threefish V G t0 t1 w) w.

(** [k] whole blocks of [M] that are not the last, [pos] bytes in. *)
Fixpoint ubi_chain (V : variant) (type : Z) (G : list Z) (pos : Z) (M : list Z) (k : nat) : list Z :=
  match k with
  | O => G
  | S k' =>
      let pos' := pos + Z.of_nat (BLOCK_BYTES V) in
      ubi_chain V type (ubi_block V G pos' (ubi_tweak type (pos =? 0) false false) (take (BLOCK_BYTES V) M))
        pos' (drop (BLOCK_BYTES V) M) k'
  end.

(** The number of blocks before the last one, which may be full. *)
Definition blocks_before (V : variant) (len : nat) : nat := (len - 1) / BLOCK_BYTES V.

Definition pad_block (V : variant) (l : list Z) : list Z := l ++ replicate (BLOCK_BYTES V - length l) 0.

Definition ubi (V : variant) (G : list Z) (type : Z) (pad : bool) (M : list Z) : list Z :=
  let k := blocks_before V (length M) in
  ubi_block V (ubi_chain V type G 0 M k) (Z.of_nat (length M)) (ubi_tweak type (k =? 0)%nat true pad)
    (pad_block V (drop (k * BLOCK_BYTES V) M)).

(** The configuration string: schema "SHA3", version 1, output length, no tree. *)
Definition config (bits : Z) : list Z := [0x53; 0x48; 0x41; 0x33; 1; 0; 0; 0] ++ le_bytes 8 bits ++ replicate 16 0.

Definition skein_iv (V : variant) (bits : Z) : list Z := ubi V (replicate (WCNT V) 0) 4 false (config bits).

(** The output stage in counter mode. *)
Definition skein_output (V : variant) (G : list Z) (n : nat) : list Z :=
  take n (concat (map (fun i => words_bytes 8 (ubi V G 63 false (le_bytes 8 (Z.of_nat i))))
    (seq 0 (S (n / BLOCK_BYTES V))))).

Definition skein (V : variant) (bits : Z) (pad : bool) (M : list Z) : list Z :=
  skein_output V (ubi V (skein_iv V bits) 48 pad M) (Z.to_nat ((bits + 7) / 8)).

#[global] Opaque threefish.

(** ** The context *)

Section Ubi.
Context (V : variant) {HV : Variant V} (junk : list Z) (Hjunk : if looping V then length junk = (2 * RCNT V)%nat else True).
#[local] Abbreviation BB := (BLOCK_BYTES V).

Lemma BB_pos : (32 <= BB <= 128)%nat.
Proof. pose proof variant_W. unfold BLOCK_BYTES. lia. Qed.

Lemma length_threefish K t0 t1 w : length (threefish V K t0 t1 w) = WCNT V.
Proof. Local Transparent threefish. unfold threefish. by rewrite length_add_subkey. Qed.
#[local] Opaque threefish.

Lemma length_ubi_block G t0 t1 blk : length (ubi_block V G t0 t1 blk) = WCNT V.
Proof. unfold ubi_block. rewrite length_xor_list; rewrite length_threefish; [done|]. by rewrite length_le_words. Qed.

Lemma length_ubi_chain type G pos M k : length G = WCNT V -> length (ubi_chain V type G pos M k) = WCNT V.
Proof.
  revert G pos M. induction k as [|k IH]; intros G pos M H; [done|]. apply IH, length_ubi_block.
Qed.

Lemma length_ubi G type pad M : length (ubi V G type pad M) = WCNT V.
Proof. apply length_ubi_block. Qed.

Lemma ubi_chain_app type G pos M M' k :
  (k * BB <= length M)%nat -> ubi_chain V type G pos (M ++ M') k = ubi_chain V type G pos M k.
Proof.
  revert G pos M. induction k as [|k IH]; intros G pos M H; [done|]. cbn [ubi_chain].
  rewrite take_app_le, drop_app_le by lia. apply IH. rewrite length_drop. lia.
Qed.

Lemma ubi_chain_add type G pos M k k' :
  ubi_chain V type G pos M (k + k') =
  ubi_chain V type (ubi_chain V type G pos M k) (pos + Z.of_nat (k * BB)) (drop (k * BB) M) k'.
Proof.
  revert G pos M. induction k as [|k IH]; intros G pos M.
  - cbn [Nat.add Nat.mul ubi_chain]. rewrite drop_0. by rewrite Z.add_0_r.
  - cbn [Nat.add ubi_chain]. rewrite IH, drop_drop. f_equal; lia.
Qed.

Definition mktweak (first pad : bool) : Z := ubi_tweak 48 first false pad.

Lemma clear_first first : Z.land (mktweak first false) (notw 64 SKEIN_T1_FLAG_FIRST) = mktweak false false.
Proof. destruct first; reflexivity. Qed.

(** One block, whatever the tweak. *)
Lemma Process_Block_one c blk add :
  length (cX c) = WCNT V -> (BB <= length blk)%nat ->
  exists t1,
  Process_Block V junk c blk 1 add =
  Ret (set_X (ubi_block V (cX c) (addw 64 (T0 c) add) (T1 c) (take BB blk)) (set_T (addw 64 (T0 c) add) t1 c)).
Proof.
  intros HX Hl. unfold Process_Block. change (1 =? 0) with false. cbn [Z.to_nat Pos.to_nat Pos.iter_op block_loop].
  change (Z.to_nat 1) with 1%nat. cbn [block_loop]. destruct (Nat.ltb_spec (length blk) BB); [lia|]. cbn [bind].
  rewrite process_one_spec by (done || by rewrite length_le_words). eexists. unfold ubi_block.
  by rewrite le_words_take.
Qed.

(** Whole message blocks. *)
Lemma block_loop_spec n G pos D :
  length G = WCNT V -> (n * BB <= length D)%nat -> 0 <= pos -> pos + Z.of_nat (n * BB) < 2 ^ 64 ->
  block_loop V junk n (Z.of_nat BB) D (pos, mktweak (pos =? 0) false, G) =
  let pos' := pos + Z.of_nat (n * BB) in
  Ret (pos', mktweak (pos' =? 0) false, ubi_chain V 48 G pos D n).
Proof.
  pose proof BB_pos. revert G pos D. induction n as [|n IH]; intros G pos D HG HD Hp H64; cbv zeta.
  - cbn [block_loop ubi_chain Nat.mul]. by rewrite Z.add_0_r.
  - cbn [block_loop ubi_chain]. destruct (Nat.ltb_spec (length D) BB); [lia|].
    rewrite process_one_spec by (done || by rewrite length_le_words).
    Local Transparent addw. unfold addw. rewrite uwrap_small by lia. Local Opaque addw.
    rewrite clear_first.
    rewrite <- (le_words_take 8 (WCNT V) BB D) by done.
    change (xor_list _ _) with (ubi_block V G (pos + Z.of_nat BB) (mktweak (pos =? 0) false) (take BB D)).
    replace (mktweak false false) with (mktweak (pos + Z.of_nat BB =? 0) false)
      by (destruct (Z.eqb_spec (pos + Z.of_nat BB) 0); [lia|done]).
    rewrite IH by (try apply length_ubi_block; rewrite ?length_drop; lia). cbv zeta.
    replace (pos + Z.of_nat BB + Z.of_nat (n * BB)) with (pos + Z.of_nat (S n * BB)) by lia. done.
Qed.

(** ** The streaming invariant *)

(** [k] blocks of the message [M] are chained from [G], the rest of it is in
    the buffer. *)
Record stream (hb : Z) (G M : list Z) (k : nat) (c : ctx) : Prop := {
  st_bits : hashBitLen c = hb;
  st_M : bytes M;
  st_len : (k * BB <= length M <= (k + 1) * BB)%nat;
  st_cnt : bCnt c = Z.of_nat (length M - k * BB);
  st_T0 : T0 c = Z.of_nat (k * BB);
  st_T1 : T1 c = mktweak (k =? 0)%nat false;
  st_X : cX c = ubi_chain V 48 G 0 M k;
  st_lb : length (cb c) = BB;
  st_b : bytes (cb c);
  st_buf : take (length M - k * BB) (cb c) = drop (k * BB) M
}.

Context (hb : Z) (G : list Z) (HG : length G = WCNT V).

Lemma first_pos k : (Z.of_nat (k * BB) =? 0) = (k =? 0)%nat.
Proof. pose proof BB_pos. destruct (Z.eqb_spec (Z.of_nat (k * BB)) 0), (Nat.eqb_spec k 0); nia || done. Qed.

Lemma stream_fill M k c D n z :
  stream hb G M k c -> z = Z.of_nat n -> bytes D -> (n <= length D)%nat -> (length M - k * BB + n <= BB)%nat ->
  yields (fill_b V D z c) (stream hb G (M ++ take n D) k).
Proof.
  intros [Hb HM Hl Hc H0 H1 HX Hlb Hbb Hbuf] -> HD Hn Hle. unfold fill_b. rewrite Hc.
  destruct (Z.ltb_spec (Z.of_nat (length D)) (Z.of_nat n)); [lia|].
  destruct (Z.ltb_spec (Z.of_nat BB) (Z.of_nat (length M - k * BB) + Z.of_nat n)); [lia|]. cbn [orb].
  rewrite <- Nat2Z.inj_add, !Nat2Z.id. apply yields_ret.
  set (r := (length M - k * BB)%nat) in *.
  assert (length (M ++ take n D) - k * BB = r + n)%nat as El by (rewrite length_app, length_take; lia).
  split; cbn [set_b hashBitLen bCnt T0 T1 cX cb]; auto.
  - auto using bytes_app, bytes_take.
  - rewrite length_app, length_take. lia.
  - by rewrite ubi_chain_app by lia.
  - rewrite !length_app, !length_take, length_drop. lia.
  - auto using bytes_app, bytes_take, bytes_drop.
  - rewrite El, app_assoc, take_app_length' by (rewrite length_app, !length_take; lia).
    by rewrite Hbuf, drop_app_le by lia.
Qed.

Lemma stream_len_chain M k c : stream hb G M k c -> length (cX c) = WCNT V.
Proof. intros H. rewrite (st_X _ _ _ _ _ H). by apply length_ubi_chain. Qed.

(** A full buffer is chained. *)
Lemma stream_block M k c :
  stream hb G M k c -> length M = ((k + 1) * BB)%nat -> Z.of_nat (length M) < 2 ^ 64 ->
  yields (Process_Block V junk c (cb c) 1 (Z.of_nat BB)) (fun c => stream hb G M (k + 1) (set_b 0 (cb c) c)).
Proof.
  intros H El H64. pose proof BB_pos as HBB. pose proof (stream_len_chain _ _ _ H) as HlX.
  destruct H as [Hb HM Hl Hc H0 H1 HX Hlb Hbb Hbuf]. unfold Process_Block. change (1 =? 0) with false. change (Z.to_nat 1) with 1%nat.
  rewrite H0, H1, <- first_pos, block_loop_spec by lia. cbv zeta. cbn [bind]. apply yields_ret.
  replace (Z.of_nat (k * BB) + Z.of_nat (1 * BB)) with (Z.of_nat ((k + 1) * BB)) by lia.
  split; cbn [set_b set_X set_T hashBitLen bCnt T0 T1 cX cb]; auto.
  - lia.
  - rewrite El. f_equal. lia.
  - by rewrite first_pos.
  - rewrite ubi_chain_add, HX, Z.add_0_l. rewrite <- Hbuf. rewrite take_ge by lia. done.
  - rewrite El, Nat.sub_diag. symmetry. apply drop_ge. lia.
Qed.

(** Whole blocks straight from the message. *)
Lemma stream_blocks M k c D j :
  stream hb G M k c -> length M = (k * BB)%nat -> (0 < j)%nat -> (j * BB <= length D)%nat -> bytes D ->
  Z.of_nat ((k + j) * BB) < 2 ^ 64 ->
  yields (Process_Block V junk c D (Z.of_nat j) (Z.of_nat BB)) (stream hb G (M ++ take (j * BB) D) (k + j)).
Proof.
  intros H El Hj HD HbD H64. pose proof BB_pos as HBB. pose proof (stream_len_chain _ _ _ H) as HlX.
  destruct H as [Hb HM Hl Hc H0 H1 HX Hlb Hbb Hbuf]. unfold Process_Block. destruct (Z.eqb_spec (Z.of_nat j) 0); [lia|].
  rewrite Nat2Z.id, H0, H1, <- first_pos, block_loop_spec by lia. cbv zeta. cbn [bind]. apply yields_ret.
  replace (Z.of_nat (k * BB) + Z.of_nat (j * BB)) with (Z.of_nat ((k + j) * BB)) by lia.
  assert (length (M ++ take (j * BB) D) = ((k + j) * BB)%nat) as El' by (rewrite length_app, length_take; lia).
  split; cbn [set_b set_X set_T hashBitLen bCnt T0 T1 cX cb]; auto.
  - auto using bytes_app, bytes_take.
  - lia.
  - rewrite Hc, El'. f_equal. lia.
  - by rewrite first_pos.
  - rewrite ubi_chain_add, Z.add_0_l, ubi_chain_app, <- HX by lia. rewrite drop_app_length' by done.
    rewrite <- (take_drop (j * BB) D) at 1. apply ubi_chain_app. rewrite length_take. lia.
  - rewrite El', Nat.sub_diag. symmetry. apply drop_ge. lia.
Qed.

(** The state between updates: the last block, even a full one, is kept. *)
Definition kept (M : list Z) (c : ctx) : Prop := stream hb G M (blocks_before V (length M)) c.

Lemma blocks_before_unique k n : (k * BB < n <= (k + 1) * BB)%nat -> blocks_before V n = k.
Proof.
  intros H. pose proof BB_pos. unfold blocks_before. replace (n - 1)%nat with (k * BB + (n - 1 - k * BB))%nat by lia.
  rewrite Nat.div_add_l, Nat.div_small by lia. lia.
Qed.

Lemma blocks_before_bounds n : (n = 0%nat /\ blocks_before V n = 0%nat) \/ (blocks_before V n * BB < n <= (blocks_before V n + 1) * BB)%nat.
Proof.
  pose proof BB_pos. unfold blocks_before. destruct n as [|n]; [left; split; [done|]; by rewrite Nat.div_small by lia|]. right.
  replace (S n - 1)%nat with n by lia.
  pose proof (Nat.div_mod n BB ltac:(lia)). pose proof (Nat.mod_upper_bound n BB ltac:(lia)). nia.
Qed.

(** The end of an update. *)
Lemma update_tail M k c D n z :
  stream hb G M k c -> z = Z.of_nat n -> bytes D -> (n <= length D)%nat -> (length M - k * BB + n <= BB)%nat ->
  (k * BB < length M + n \/ k = 0)%nat ->
  yields (if negb (z =? 0) then fill_b V D z c else Ret c) (kept (M ++ take n D)).
Proof.
  intros H -> HD Hn Hle Hk. unfold kept. pose proof BB_pos. pose proof (st_len _ _ _ _ _ H).
  assert (blocks_before V (length (M ++ take n D)) = k) as ->.
  { rewrite length_app, length_take. destruct (Nat.eq_dec (length M + n)%nat (k * BB)%nat) as [E|].
    - assert (k = 0%nat) as -> by lia. destruct (blocks_before_bounds (length M + n `min` length D)) as [[_ ?]|?]; [done|lia].
    - apply blocks_before_unique. lia. }
  destruct (Z.eqb_spec (Z.of_nat n) 0); cbn [negb].
  - assert (n = 0%nat) as -> by lia. rewrite take_0, app_nil_r. by apply yields_ret.
  - by apply stream_fill.
Qed.

Lemma update_spec M c D n :
  kept M c -> bytes D -> (n <= length D)%nat -> Z.of_nat (length M + n + BB) < 2 ^ 64 ->
  yields (Skein_Update V junk c D (Z.of_nat n)) (kept (M ++ take n D)).
Proof.
  intros H HD Hn H64. pose proof BB_pos as HB. unfold Skein_Update. pose proof (st_cnt _ _ _ _ _ H) as Hc.
  pose proof (st_len _ _ _ _ _ H) as Hl. set (k := blocks_before V (length M)) in *.
  Local Transparent addw. unfold addw. rewrite Hc, uwrap_small by lia. Local Opaque addw.
  set (r := (length M - k * BB)%nat) in *.
  destruct (Z.ltb_spec (Z.of_nat BB) (Z.of_nat n + Z.of_nat r)).
  2: { cbn [bind]. apply update_tail with k; auto; [lia|]. destruct (blocks_before_bounds (length M)) as [[? ?]|?]; lia. }
  (* at a block boundary, with [n'] bytes of [D'] left *)
  assert (forall M' k' c' D' n', stream hb G M' k' c' -> length M' = (k' * BB)%nat -> bytes D' -> (0 < n' <= length D')%nat ->
    Z.of_nat (length M' + n' + BB) < 2 ^ 64 ->
    yields (let* '(c, msg, msgByteCnt) :=
       if Z.of_nat BB <? Z.of_nat n' then
         let* c := Process_Block V junk c' D' ((Z.of_nat n' - 1) / Z.of_nat BB) (Z.of_nat BB) in
         Ret (c, drop (Z.to_nat ((Z.of_nat n' - 1) / Z.of_nat BB * Z.of_nat BB)) D', Z.of_nat n' - (Z.of_nat n' - 1) / Z.of_nat BB * Z.of_nat BB)
       else Ret (c', D', Z.of_nat n') in
     if negb (msgByteCnt =? 0) then fill_b V msg msgByteCnt c else Ret c) (kept (M' ++ take n' D'))) as Hrest.
  { intros M' k' c' D' n' H' El HD' Hn' Hs. destruct (Z.ltb_spec (Z.of_nat BB) (Z.of_nat n')); cbn [bind].
    - set (j := ((n' - 1) / BB)%nat).
      assert ((Z.of_nat n' - 1) / Z.of_nat BB = Z.of_nat j) as ->.
      { unfold j. rewrite Nat2Z.inj_div. f_equal. lia. }
      pose proof (Nat.div_mod (n' - 1) BB ltac:(lia)) as Ej. fold j in Ej. pose proof (Nat.mod_upper_bound (n' - 1) BB ltac:(lia)) as Hm.
      assert (0 < j)%nat by (apply Nat.div_str_pos; lia).
      rewrite bind_assoc. eapply yields_bind; [apply (stream_blocks M' k' c' D' j); auto; nia|].
      intros c2 Hc2. cbn [bind]. rewrite <- Nat2Z.inj_mul, Nat2Z.id.
      rewrite <- (take_drop (j * BB) (take n' D')), take_take, Nat.min_l, skipn_firstn_comm, app_assoc by nia.
      apply update_tail with (k' + j)%nat; auto using bytes_drop; rewrite ?length_drop, ?length_app, ?length_take; nia.
    - apply update_tail with k'; auto; lia. }
  destruct (Z.eqb_spec (Z.of_nat r) 0) as [Hr|Hr]; cbn [negb].
  - cbn [bind]. apply Hrest with k; auto; lia.
  - rewrite !bind_assoc. set (f := (BB - r)%nat).
    replace (Z.of_nat BB - Z.of_nat r) with (Z.of_nat f) by lia.
    rewrite (take_take_app D f n), app_assoc by lia.
    assert (Z.of_nat (length (M ++ take f D)) = Z.of_nat (length M) + Z.of_nat f) as El by (rewrite length_app, length_take; lia).
    destruct (Z.eqb_spec (Z.of_nat f) 0) as [Hf|Hf]; cbn [negb bind].
    + assert (f = 0%nat) as Ef by lia. rewrite Ef in *. rewrite take_0, app_nil_r, drop_0, Nat.sub_0_r in *. rewrite bind_assoc.
      eapply yields_bind; [apply (stream_block M k c); auto; lia|]. intros c2 Hc2. cbn [bind]. apply Hrest with (k + 1)%nat; auto; lia.
    + rewrite bind_assoc. eapply yields_bind; [apply (stream_fill M k c D f); auto; lia|]. intros c1 Hc1. cbn [bind].
      rewrite uwrap_small, Nat2Z.id by lia. replace (Z.of_nat n - Z.of_nat f) with (Z.of_nat (n - f)) by lia.
      rewrite bind_assoc. eapply yields_bind; [apply (stream_block (M ++ take f D) k c1); auto; lia|]. intros c2 Hc2. cbn [bind].
      apply Hrest with (k + 1)%nat; auto using bytes_drop; rewrite ?length_drop; lia.
Qed.

(** ** Finalisation *)

Definition with_pad (pad : bool) (c : ctx) : ctx :=
  if pad then set_T (T0 c) (Z.lor (T1 c) SKEIN_T1_FLAG_BIT_PAD) c else c.

Lemma skein_last_block M c pad :
  kept M c -> Z.of_nat (length M) < 2 ^ 64 ->
  let c := set_T (T0 (with_pad pad c)) (Z.lor (T1 (with_pad pad c)) SKEIN_T1_FLAG_FINAL) (with_pad pad c) in
  let c := if bCnt c <? Z.of_nat BB
           then set_b (bCnt c) (take (Z.to_nat (bCnt c)) (cb c) ++ replicate (Z.to_nat (Z.of_nat BB - bCnt c)) 0) c else c in
  yields (Process_Block V junk c (cb c) 1 (bCnt c)) (fun c => hashBitLen c = hb /\ cX c = ubi V G 48 pad M).
Proof.
  intros H H64 c1 c2. pose proof (stream_len_chain _ _ _ H) as HlX. unfold kept in H. unfold ubi.
  set (k := blocks_before V (length M)) in *. destruct H as [Hb HM Hl Hc H0 H1 HX Hlb Hbb Hbuf].
  set (r := (length M - k * BB)%nat) in *.
  assert (hashBitLen c2 = hb /\ cX c2 = cX c /\ bCnt c2 = Z.of_nat r /\ T0 c2 = T0 c /\
          T1 c2 = ubi_tweak 48 (k =? 0)%nat true pad /\ cb c2 = pad_block V (drop (k * BB) M)) as (E1 & E2 & E3 & E4 & E5 & E6).
  { assert (Z.lor (T1 (with_pad pad c)) SKEIN_T1_FLAG_FINAL = ubi_tweak 48 (k =? 0)%nat true pad) as ET.
    { unfold with_pad. destruct pad; cbn [set_T T1]; rewrite H1; destruct (k =? 0)%nat; reflexivity. }
    unfold c2, c1. rewrite ET.
    assert (bCnt (with_pad pad c) = Z.of_nat r /\ hashBitLen (with_pad pad c) = hb /\ cX (with_pad pad c) = cX c /\
      T0 (with_pad pad c) = T0 c /\ cb (with_pad pad c) = cb c) as (F1 & F2 & F3 & F4 & F5) by (by destruct pad).
    cbn [set_T bCnt cb]. rewrite F1, F5, Nat2Z.id. unfold pad_block. rewrite <- Hbuf, length_take.
    destruct (Z.ltb_spec (Z.of_nat r) (Z.of_nat BB)); cbn [set_b set_T hashBitLen cX bCnt T0 T1 cb]; split_and!; auto.
    - do 2 f_equal. lia.
    - rewrite take_ge by lia. replace (BB - r `min` length (cb c))%nat with 0%nat by lia. by rewrite app_nil_r. }
  destruct (Process_Block_one c2 (cb c2) (bCnt c2)) as (t1 & ->).
  - by rewrite E2.
  - rewrite E6. unfold pad_block. rewrite length_app, length_replicate, length_drop. lia.
  - apply yields_ret. cbn [set_X set_T hashBitLen cX]. split; [done|]. rewrite E2, E3, E4, E5, E6, HX, H0.
    Local Transparent addw. unfold addw. Local Opaque addw. rewrite uwrap_small, <- Nat2Z.inj_add by lia.
    rewrite take_ge by (unfold pad_block; rewrite length_app, length_replicate, length_drop; lia).
    do 2 f_equal. lia.
Qed.

Definition out_block (key : list Z) (i : nat) : list Z := words_bytes 8 (ubi V key 63 false (le_bytes 8 (Z.of_nat i))).

Lemma length_out_block key i : length (out_block key i) = BB.
Proof. unfold out_block. by rewrite length_words_bytes, length_ubi. Qed.

Lemma output_loop_spec key nb fuel i c out :
  length key = WCNT V -> cX c = key -> length (cb c) = BB -> drop 8 (cb c) = replicate (BB - 8) 0 ->
  (nb <= (i + fuel) * BB)%nat ->
  yields (output_loop fuel V junk c key (Z.of_nat nb) (Z.of_nat i) out)
    (fun r => r.2 = out ++ take (nb - i * BB) (concat (map (out_block key) (seq i fuel)))).
Proof.
  pose proof BB_pos as HBB. intros Hkey. revert i c out. induction fuel as [|fuel IH]; intros i c out HX Hl H8 Hf; cbn [output_loop].
  - destruct (Z.leb_spec (Z.of_nat nb) (Z.of_nat i * Z.of_nat BB)); [|lia]. apply yields_ret. cbn [snd seq map concat].
    by rewrite take_nil, app_nil_r.
  - destruct (Z.leb_spec (Z.of_nat nb) (Z.of_nat i * Z.of_nat BB)).
    { apply yields_ret. cbn [snd]. replace (nb - i * BB)%nat with 0%nat by lia. by rewrite take_0, app_nil_r. }
    set (c1 := Start_New_Type _ _).
    assert (cb c1 = pad_block V (le_bytes 8 (Z.of_nat i))) as Ecb.
    { cbn [c1 Start_New_Type set_b cb]. rewrite H8. unfold pad_block. by rewrite length_le_bytes. }
    assert (length (cb c1) = BB) as Elb.
    { rewrite Ecb. unfold pad_block. rewrite length_app, length_replicate, length_le_bytes. lia. }
    destruct (Process_Block_one c1 (cb c1) 8) as (t1 & ->); [cbn; by rewrite HX|lia|]. cbn [bind].
    assert (ubi_block V (cX c1) (addw 64 (T0 c1) 8) (T1 c1) (take BB (cb c1)) = ubi V key 63 false (le_bytes 8 (Z.of_nat i))) as ->.
    { rewrite take_ge by lia. unfold ubi. rewrite length_le_bytes.
      assert (blocks_before V 8 = 0%nat) as -> by (unfold blocks_before; apply Nat.div_small; lia).
      cbn [ubi_chain Nat.mul Nat.eqb]. rewrite drop_0, Ecb. cbn [c1 Start_New_Type set_b cX T0 T1]. rewrite HX. reflexivity. }
    cbn [set_X set_T cX]. fold (out_block key i).
    replace (Z.of_nat i + 1) with (Z.of_nat (i + 1)) by lia.
    replace (Z.of_nat nb - Z.of_nat i * Z.of_nat BB) with (Z.of_nat (nb - i * BB)) by lia.
    set (n := if Z.of_nat BB <=? Z.of_nat (nb - i * BB) then Z.of_nat BB else Z.of_nat (nb - i * BB)).
    assert (take (Z.to_nat n) (out_block key i) = take (nb - i * BB) (out_block key i)) as ->.
    { unfold n. destruct (Z.leb_spec (Z.of_nat BB) (Z.of_nat (nb - i * BB))); rewrite Nat2Z.id; [|done].
      rewrite !take_ge; rewrite ?length_out_block; lia || done. }
    eapply yields_mono.
    + apply (IH (i + 1)%nat); [done|exact Elb| |lia]. cbn [set_X set_T cb]. rewrite Ecb. unfold pad_block.
      rewrite drop_app_length' by (by rewrite length_le_bytes). by rewrite length_le_bytes.
    + intros r ->. rewrite <- app_assoc. f_equal. cbn [seq map concat]. rewrite take_app, length_out_block, Nat.add_1_r.
      do 2 f_equal. lia.
Qed.

Lemma skein_final_spec M c pad :
  kept M c -> Z.of_nat (length M) < 2 ^ 64 -> 0 <= hb -> hb + 7 < 2 ^ 64 ->
  Skein_Final V junk (with_pad pad c) = Ret (skein_output V (ubi V G 48 pad M) (Z.to_nat ((hb + 7) / 8))).
Proof.
  intros H H64 Hh0 Hh64. pose proof BB_pos as HBB. unfold Skein_Final.
  destruct (skein_last_block M c pad H H64) as (c3 & -> & E1 & E2). cbn [bind].
  Local Transparent addw. unfold addw. Local Opaque addw. rewrite E1, uwrap_small, Z.shiftr_div_pow2 by lia. change (2 ^ 3) with 8.
  set (nb := Z.to_nat ((hb + 7) / 8)). replace ((hb + 7) / 8) with (Z.of_nat nb) by (unfold nb; rewrite Z2Nat.id; [done|apply Z.div_pos; lia]).
  rewrite <- Nat2Z.inj_div, Nat2Z.id.
  destruct (output_loop_spec (cX c3) nb (S (nb / BB)) 0 (set_b (bCnt c3) (replicate BB 0) c3) []) as ([c4 out] & E & Eo).
  - rewrite E2. apply length_ubi.
  - done.
  - cbn [set_b cb]. by rewrite length_replicate.
  - cbn [set_b cb]. by rewrite drop_replicate.
  - pose proof (Nat.div_mod nb BB ltac:(lia)). pose proof (Nat.mod_upper_bound nb BB ltac:(lia)). lia.
  - change (Z.of_nat 0) with 0 in E. cbn [set_b cX] in *. rewrite E. cbn [bind snd app] in *. rewrite Eo, E2.
    rewrite Nat.mul_0_l, Nat.sub_0_r. reflexivity.
Qed.
End Ubi.

(** ** Initialisation *)

Lemma words_bytes_zeros n : words_bytes 8 (replicate n 0) = replicate (n * 8) 0.
Proof. induction n as [|n IH]; [done|]. unfold words_bytes in *. cbn [replicate map concat Nat.mul]. by rewrite IH. Qed.

Lemma cfg_block_pad V {HV : Variant V} bits : cfg_block V bits = pad_block V (config bits).
Proof.
  pose proof variant_W as HW. unfold cfg_block, pad_block, config. rewrite words_bytes_app, words_bytes_zeros.
  replace (length _) with 32%nat by (rewrite !length_app, length_le_bytes; done).
  change (words_bytes 8 [SKEIN_SCHEMA_VER; bits; 0]) with ([0x53; 0x48; 0x41; 0x33; 1; 0; 0; 0] ++ le_bytes 8 bits ++ replicate 8 0).
  rewrite <- !app_assoc. do 2 f_equal. rewrite <- !replicate_add. f_equal. unfold BLOCK_BYTES. lia.
Qed.

Definition uninit_ok (V : variant) (c : ctx) : Prop := length (cb c) = BLOCK_BYTES V /\ bytes (cb c).

Definition junk_ok (V : variant) (junk : list Z) : Prop := if looping V then length junk = (2 * RCNT V)%nat else True.

Lemma Init_iv_spec V {HV : Variant V} iv junk c bits :
  junk_ok V junk -> uninit_ok V c -> (forall X, iv = Some X -> X = skein_iv V bits) ->
  yields (Init_iv V iv junk c bits) (kept V bits (skein_iv V bits) []).
Proof.
  intros Hj [Hl Hb] Hiv. pose proof (BB_pos V) as HBB. unfold Init_iv.
  set (c0 := {| hashBitLen := bits; bCnt := _; T0 := _; T1 := _; cX := _; cb := _ |}).
  eapply (yields_bind _ _ (fun c' => hashBitLen c' = bits /\ cX c' = skein_iv V bits /\ cb c' = cb c)).
  - destruct iv as [X|]; [apply yields_ret; cbn; rewrite (Hiv X) by done; done|].
    set (c1 := set_X (replicate (WCNT V) 0) (Start_New_Type SKEIN_T1_BLK_TYPE_CFG_FINAL c0)).
    assert (length (config bits) = 32%nat) as Hc by (unfold config; rewrite !length_app, length_le_bytes; done).
    assert (length (cfg_block V bits) = BLOCK_BYTES V) as Hlc.
    { rewrite cfg_block_pad by done. unfold pad_block. rewrite length_app, length_replicate. lia. }
    destruct (Process_Block_one V junk Hj c1 (cfg_block V bits) SKEIN_CFG_STR_LEN) as (t1 & ->).
    + cbn [c1 set_X cX]. by rewrite length_replicate.
    + lia.
    + apply yields_ret. cbn [set_X set_T hashBitLen cX cb]. split; [done|]. split; [|done].
      rewrite take_ge, cfg_block_pad by (done || lia). unfold skein_iv, ubi. rewrite Hc.
      assert (blocks_before V 32 = 0%nat) as -> by (unfold blocks_before; apply Nat.div_small; lia).
      cbn [ubi_chain Nat.mul Nat.eqb]. rewrite drop_0. reflexivity.
  - intros c' (E1 & E2 & E3). apply yields_ret. unfold kept.
    assert (blocks_before V (length (@nil Z)) = 0%nat) as -> by (unfold blocks_before; apply Nat.div_small; simpl; lia).
    split; cbn [Start_New_Type hashBitLen bCnt T0 T1 cX cb]; rewrite ?E3; auto.
    + by apply Forall_nil.
    + simpl. lia.
Qed.

(** The pre-computed chaining values. *)
Definition iv_table : list (variant * Z * list Z) :=
  [(V256, 128, SKEIN_256_IV_128); (V256, 160, SKEIN_256_IV_160); (V256, 224, SKEIN_256_IV_224); (V256, 256, SKEIN_256_IV_256);
   (V512, 128, SKEIN_512_IV_128); (V512, 160, SKEIN_512_IV_160); (V512, 224, SKEIN_512_IV_224); (V512, 256, SKEIN_512_IV_256);
   (V512, 384, SKEIN_512_IV_384); (V512, 512, SKEIN_512_IV_512);
   (V1024, 384, SKEIN1024_IV_384); (V1024, 512, SKEIN1024_IV_512); (V1024, 1024, SKEIN1024_IV_1024)].

Lemma iv_table_spec : Forall (fun e => e.2 = skein_iv e.1.1 e.1.2) iv_table.
Proof. repeat (apply List.Forall_cons; [vm_compute; reflexivity|]). apply List.Forall_nil. Qed.

Lemma iv_at V bits X : In (V, bits, X) iv_table -> X = skein_iv V bits.
Proof. intros H. pose proof iv_table_spec as F. rewrite List.Forall_forall in F. exact (F _ H). Qed.

(** ** The hash function *)

(** The message as bytes: a partial last byte keeps its high bits, followed by
    a bit 1 and zeros. *)
Definition bit_pad (data : list Z) (bits : nat) : list Z :=
  let n := (bits / 8)%nat in
  let m := Z.of_nat (bits mod 8) in
  take n data ++
  if (bits mod 8 =? 0)%nat then [] else [(data !!! n) / 2 ^ (8 - m) * 2 ^ (8 - m) + 2 ^ (7 - m)].

Definition last_byte (d m : Z) : Z :=
  let mask := u8 (Z.shiftl 1 (7 - m)) in u8 (Z.lor (Z.land d (0 - mask)) mask).

Lemma last_byte_spec d m : 0 <= d < 256 -> 1 <= m <= 7 -> last_byte d m = d / 2 ^ (8 - m) * 2 ^ (8 - m) + 2 ^ (7 - m).
Proof.
  intros Hd Hm.
  assert (forallb (fun m => forallb (fun d => last_byte (Z.of_nat d) (Z.of_nat m) =?
    Z.of_nat d / 2 ^ (8 - Z.of_nat m) * 2 ^ (8 - Z.of_nat m) + 2 ^ (7 - Z.of_nat m)) (seq 0 256)) (seq 1 7) = true) as H
    by (vm_compute; reflexivity).
  rewrite forallb_forall in H. specialize (H (Z.to_nat m)). rewrite forallb_forall in H.
  assert (In (Z.to_nat m) (seq 1 7)) as H1 by (apply in_seq; lia).
  assert (In (Z.to_nat d) (seq 0 256)) as H2 by (apply in_seq; lia).
  specialize (H H1 _ H2). rewrite !Z2Nat.id in H by lia. by apply Z.eqb_eq in H.
Qed.

Lemma last_byte_byte d m : is_byte (last_byte d m).
Proof. unfold last_byte, is_byte, u8. apply (uwrap_range 8). lia. Qed.

(** Looks a selected table up in [iv_table]. *)
Ltac find_iv :=
  repeat match goal with
  | |- (if ?b then _ else _) = Some _ -> _ => destruct b eqn:?
  end;
  intros [= <-]; repeat match goal with H : (_ =? _) = true |- _ => apply Z.eqb_eq in H end; subst;
  apply iv_at; unfold iv_table; repeat first [left; reflexivity | right].

Section Hash.
Context (junk : variant -> list Z) (uninit : variant -> ctx).
Context (Hjunk : forall V, junk_ok V (junk V)) (Huninit : forall V, uninit_ok V (uninit V)).

Definition chosen (hashbitlen : Z) : variant := if hashbitlen <=? 512 then V512 else V1024.

#[global] Instance chosen_variant n : Variant (chosen n).
Proof. unfold chosen. destruct (n <=? 512); apply _. Qed.

Lemma skein_Init_spec n :
  0 <= n < 2 ^ 31 ->
  yields (skein_Init junk uninit n) (fun s => select_variant (statebits s) = Some (chosen n) /\
    kept (chosen n) n (skein_iv (chosen n) n) [] (u s)).
Proof.
  intros Hn. unfold skein_Init, chosen. rewrite uwrap_small by lia. destruct (n <=? 512).
  - eapply yields_bind; [|intros c Hc; apply yields_ret; cbn [statebits u]; split; [reflexivity|exact Hc]].
    apply (Init_iv_spec V512); auto. intros X. find_iv.
  - eapply yields_bind; [|intros c Hc; apply yields_ret; cbn [statebits u]; split; [reflexivity|exact Hc]].
    apply (Init_iv_spec V1024); auto. intros X. find_iv.
Qed.

(** One update from the start, then the finalisation, on a number of bits. *)
Lemma skein_Update_Final_spec V {HV : Variant V} hb G s data bits :
  select_variant (statebits s) = Some V -> length G = WCNT V -> kept V hb G [] (u s) -> bytes data ->
  ((bits + 7) / 8 <= length data)%nat -> Z.of_nat bits < 2 ^ 64 -> 0 <= hb < 2 ^ 31 ->
  (let* '(s, r) := skein_Update junk s data (Z.of_nat bits) in let* out := skein_Final junk s in Ret (r, out)) =
  Ret (SKEIN_SUCCESS, skein_output V (ubi V G 48 (negb (bits mod 8 =? 0)%nat) (bit_pad data bits)) (Z.to_nat ((hb + 7) / 8))).
Proof.
  intros Hs HG H HD Hl H64 Hhb. unfold skein_Update, bit_pad. rewrite Hs.
  assert (Z.land (Z.of_nat bits) 7 = Z.of_nat (bits mod 8)) as ->
    by (change 7 with (Z.ones 3); rewrite Z.land_ones by lia; by rewrite Nat2Z.inj_mod).
  rewrite Z.shiftr_div_pow2 by lia. change (2 ^ 3) with (Z.of_nat 8). rewrite <- Nat2Z.inj_div. pose proof (BB_pos V) as HBB.
  pose proof (Nat.div_mod bits 8 ltac:(lia)) as E8. pose proof (Nat.mod_upper_bound bits 8 ltac:(lia)) as Hm.
  set (n := (bits / 8)%nat) in *. set (m := (bits mod 8)%nat) in *.
  assert (if (m =? 0)%nat then n <= length data else n < length data)%nat as Hn.
  { destruct (Nat.eqb_spec m 0); [|apply Nat.lt_le_trans with ((bits + 7) / 8)%nat; [|done]].
    - etrans; [|exact Hl]. apply Nat.Div0.div_le_mono. lia.
    - apply Nat.div_le_lower_bound; lia. }
  destruct (Nat.eqb_spec m 0) as [Em|Em]; cbn [negb].
  - destruct (Z.eqb_spec (Z.of_nat m) 0); [|lia]. rewrite bind_assoc.
    destruct (update_spec V (junk V) (Hjunk V) hb G HG [] (u s) data n) as (c & -> & Hc); auto; [simpl; lia|].
    cbn [bind app] in *. unfold skein_Final. cbn [statebits u]. rewrite Hs.
    pose proof (skein_final_spec V (junk V) (Hjunk V) hb G HG _ c false Hc) as EF. cbn [with_pad] in EF.
    rewrite EF by (rewrite ?length_take; lia). cbn [bind]. by rewrite app_nil_r.
  - destruct (Z.eqb_spec (Z.of_nat m) 0); [lia|]. replace (Z.of_nat n + 1 - 1) with (Z.of_nat n) by lia.
    destruct (lookup_lt_is_Some_2 data n Hn) as [d Ed]. rewrite (index_lookup data (Z.of_nat n) d) by (rewrite ?Nat2Z.id; lia || done).
    cbn [bind]. fold (last_byte d (Z.of_nat m)). rewrite !bind_assoc.
    assert (is_byte d) as Hd by (by apply (Forall_lookup_1 _ _ _ _ HD Ed)).
    destruct (update_spec V (junk V) (Hjunk V) hb G HG [] (u s) data n) as (c & -> & Hc); auto; [lia|simpl; lia|].
    cbn [bind app] in *. rewrite !bind_assoc.
    destruct (update_spec V (junk V) (Hjunk V) hb G HG _ c [last_byte d (Z.of_nat m)] 1 Hc) as (c2 & E2 & Hc2).
    { constructor; [apply last_byte_byte|constructor]. }
    { done. }
    { rewrite length_take. lia. }
    change (Z.of_nat 1) with 1 in E2. rewrite E2. cbn [bind]. unfold skein_Final. cbn [statebits u]. rewrite Hs.
    pose proof (skein_final_spec V (junk V) (Hjunk V) hb G HG _ c2 true Hc2) as EF. unfold with_pad in EF.
    rewrite EF by (rewrite ?length_app, ?length_take; simpl length; lia). cbn [bind take].
    rewrite last_byte_spec by (unfold is_byte in Hd; lia). by rewrite (list_lookup_total_correct _ _ _ Ed).
Qed.

Lemma skein_hash_spec n data bits :
  0 <= n < 2 ^ 31 -> bytes data -> ((bits + 7) / 8 <= length data)%nat -> Z.of_nat bits < 2 ^ 64 ->
  skein_hash junk uninit n data (Z.of_nat bits) =
  Ret (SKEIN_SUCCESS, skein (chosen n) n (negb (bits mod 8 =? 0)%nat) (bit_pad data bits)).
Proof.
  intros Hn HD Hl H64. unfold skein_hash. destruct (skein_Init_spec n Hn) as (s & -> & Hs & Hk). cbn [bind].
  apply skein_Update_Final_spec; auto; [apply _|]. apply length_ubi.
Qed.
End Hash.

(** C37: Skein for every output length of at least one bit and every input of
    bits: the all-in-one call returns success and Skein-512 (up to 512 output
    bits) or Skein-1024 of the message.  The unrolled rounds, the key schedule
    that slides through overlapping arrays, the lazy buffer, the precomputed
    chaining values and the counter-mode output together equal the definition,
    whatever the uninitialised variables hold.  Output length 0 is outside the
    contract: the code asserts [hashBitLen > 0] ([Skein_Assert], skein.c:1395
    and 1594), and only a build with SKEIN_ERR_CHECK checks it. *)
Theorem skein_hash_correct junk uninit n data bits :
  (forall V, junk_ok V (junk V)) -> (forall V, uninit_ok V (uninit V)) ->
  1 <= n < 2 ^ 31 -> bytes data -> ((bits + 7) / 8 <= length data)%nat -> Z.of_nat bits < 2 ^ 64 ->
  skein_hash junk uninit n data (Z.of_nat bits) =
  Ret (SKEIN_SUCCESS, skein (chosen n) n (negb (bits mod 8 =? 0)%nat) (bit_pad data bits)).
Proof. intros Hj Hu Hn. apply skein_hash_spec; auto. lia. Qed.

Definition zero_junk (V : variant) : list Z := replicate (2 * RCNT V) 0.
Definition zero_ctx (V : variant) : ctx :=
  {| hashBitLen := 0; bCnt := 0; T0 := 0; T1 := 0; cX := replicate (WCNT V) 0; cb := replicate (BLOCK_BYTES V) 0 |}.

Lemma zero_junk_ok V : junk_ok V (zero_junk V).
Proof. unfold junk_ok, zero_junk. destruct (looping V); [|done]. by rewrite length_replicate. Qed.

Lemma zero_ctx_ok V : uninit_ok V (zero_ctx V).
Proof. split; [apply length_replicate|]. apply Forall_replicate. unfold is_byte. lia. Qed.

Lemma skein_hash_correct_witness :
  skein_hash zero_junk zero_ctx 1024 [255; 160] (Z.of_nat 11) =
  Ret (SKEIN_SUCCESS, skein (chosen 1024) 1024 (negb (11 mod 8 =? 0)%nat) (bit_pad [255; 160] 11)).
Proof.
  apply (skein_hash_correct zero_junk zero_ctx 1024 [255; 160] 11 zero_junk_ok zero_ctx_ok);
    [lia|repeat constructor; done|simpl; lia|reflexivity].
Defined.

(** The test vectors of the specification for Skein-512-512 and Skein-1024-1024 of the byte 0xFF
    (first eight bytes). *)
Example skein_kat :
  take 8 (skein V512 512 false [255]) = [0x71; 0xB7; 0xBC; 0xE6; 0xFE; 0x64; 0x52; 0x22] /\
  take 8 (skein V1024 1024 false [255]) = [0xE6; 0x2C; 0x05; 0x80; 0x2E; 0xA0; 0x15; 0x24].
Proof. vm_compute. split; reflexivity. Qed.

Lemma hash_extra_skein_spec junk uninit data length :
  (forall V, junk_ok V (junk V)) -> (forall V, uninit_ok V (uninit V)) ->
  bytes data -> 0 <= length <= Z.of_nat (List.length data) ->
  hash_extra_skein junk uninit data length = Ret (skein V512 256 false (take (Z.to_nat (length mod 2 ^ 61)) data)).
Proof.
  intros Hj Hu HD Hl. unfold hash_extra_skein. set (n := Z.to_nat (length mod 2 ^ 61)).
  pose proof (Z.mod_pos_bound length (2 ^ 61) ltac:(lia)). pose proof (Z.mod_le length (2 ^ 61) ltac:(lia) ltac:(lia)).
  assert (uwrap 64 (8 * length) = Z.of_nat (8 * n)) as ->.
  { unfold uwrap. change (2 ^ 64) with (8 * 2 ^ 61). rewrite Z.mul_mod_distr_l by lia. lia. }
  change (8 * 32) with 256.
  assert ((8 * n) / 8 = n)%nat as E by (rewrite Nat.mul_comm; apply Nat.div_mul; lia).
  assert (((8 * n) mod 8 =? 0)%nat = true) as Em by (rewrite Nat.mul_comm, Nat.Div0.mod_mul; done).
  assert ((8 * n + 7) / 8 <= List.length data)%nat
    by (rewrite Nat.mul_comm, Nat.add_comm, Nat.div_add, (Nat.div_small 7) by lia; lia).
  rewrite (skein_hash_spec junk uninit Hj Hu) by (done || lia).
  cbn [bind]. unfold bit_pad. rewrite E, Em, app_nil_r. reflexivity.
Qed.

(** the hash of the proof of work: [hash_extra_skein] is Skein-512-256 of the
    bytes, for every length below 2^61, and its assertion cannot fail; for
    longer inputs the number of bits wraps around. *)
Theorem hash_extra_skein_correct junk uninit data length :
  (forall V, junk_ok V (junk V)) -> (forall V, uninit_ok V (uninit V)) ->
  bytes data -> 0 <= length <= Z.of_nat (List.length data) ->
  hash_extra_skein junk uninit data length = Ret (skein V512 256 false (take (Z.to_nat (length mod 2 ^ 61)) data)).
Proof. exact (hash_extra_skein_spec junk uninit data length). Qed.

Lemma hash_extra_skein_correct_witness :
  hash_extra_skein zero_junk zero_ctx [1; 2; 3] 2 = Ret (skein V512 256 false (take (Z.to_nat (2 mod 2 ^ 61)) [1; 2; 3])).
Proof.
  apply (hash_extra_skein_correct zero_junk zero_ctx [1; 2; 3] 2 zero_junk_ok zero_ctx_ok); [repeat constructor; done|simpl; lia].
Defined.

(** ** Streaming *)

Definition Skein_Updates (V : variant) (junk : list Z) (c : ctx) (chunks : list (list Z)) : outcome ctx :=
  foldM (fun D c => Skein_Update V junk c D (Z.of_nat (length D))) chunks c.

Lemma updates_spec V {HV : Variant V} junk hb G M c chunks :
  junk_ok V junk -> length G = WCNT V -> kept V hb G M c -> Forall bytes chunks ->
  Z.of_nat (length (M ++ concat chunks) + BLOCK_BYTES V) < 2 ^ 64 ->
  yields (Skein_Updates V junk c chunks) (kept V hb G (M ++ concat chunks)).
Proof.
  intros Hj HG. revert M c. induction chunks as [|D chunks IH]; intros M c Hc HD H64.
  - rewrite app_nil_r. by apply yields_ret.
  - apply Forall_cons_1 in HD as [HD HDs]. cbn [concat] in *. rewrite app_assoc in *. rewrite !length_app in H64.
    eapply yields_bind.
    { apply (update_spec V junk Hj hb G HG M c D (length D)); auto; lia. }
    intros c' Hc'. rewrite take_ge in Hc' by lia. apply IH; auto. rewrite !length_app. lia.
Qed.

(** Streaming, for the three block sizes: initialisation, any sequence of
    updates of any lengths, empty ones included, and finalisation give the
    hash of the concatenated message. *)
Theorem skein_stream_correct V junk c bits chunks :
  V ∈ [V256; V512; V1024] -> junk_ok V junk -> uninit_ok V c -> 0 <= bits < 2 ^ 31 -> Forall bytes chunks ->
  Z.of_nat (length (concat chunks)) + 128 < 2 ^ 64 ->
  (let* c := Init_iv V None junk c bits in let* c := Skein_Updates V junk c chunks in Skein_Final V junk c) =
  Ret (skein V bits false (concat chunks)).
Proof.
  intros HV Hj Hc Hb HD H64.
  assert (Variant V) as HV' by (apply list_elem_of_In in HV; destruct HV as [<-|[<-|[<-|[]]]]; apply _).
  destruct (Init_iv_spec V None junk c bits Hj Hc) as (c1 & -> & Hc1); [done|]. cbn [bind].
  pose proof (BB_pos V). assert (length (skein_iv V bits) = WCNT V) as HG by apply length_ubi.
  destruct (updates_spec V junk bits (skein_iv V bits) [] c1 chunks) as (c2 & -> & Hc2); auto; [simpl; lia|]. cbn [bind app] in *.
  apply (skein_final_spec V junk Hj bits _ HG _ c2 false); auto; lia.
Qed.

Lemma skein_stream_correct_witness :
  (let* c := Init_iv V256 None [] (zero_ctx V256) 256 in
   let* c := Skein_Updates V256 [] c [replicate 32 1; []; replicate 33 2] in Skein_Final V256 [] c) =
  Ret (skein V256 256 false (concat [replicate 32 1; []; replicate 33 2])).
Proof.
  apply (skein_stream_correct V256 [] (zero_ctx V256) 256 [replicate 32 1; []; replicate 33 2]).
  - left.
  - exact Logic.I.
  - apply zero_ctx_ok.
  - lia.
  - repeat constructor; done.
  - reflexivity.
Defined.
