(* ===== verification/Gf256.v ===== *)
(** The field with 256 elements and the S-box of AES, which the tables of
    groestl.c and aesb.c hold products of. *)

From S2P Require Import Prelude Limbs Bytes Words.

(** Multiplication by [x] modulo [x^8 + x^4 + x^3 + x + 1]. *)
Definition xtime (a : Z) : Z := let b := 2 * a in if 256 <=? b then Z.lxor b 0x11b else b.

(** The product: the sum of [x^i b] over the bits [i] of [a]. *)
Definition gmul (a b : Z) : Z :=
  foldr (fun i acc => Z.lxor acc (if Z.testbit a (Z.of_nat i) then Nat.iter i xtime b else 0)) 0 (seq 0 8).

(** The inverse, as the power 254 (0 for 0). *)
Definition ginv (a : Z) : Z :=
  let a2 := gmul a a in let a3 := gmul a2 a in let a6 := gmul a3 a3 in let a12 := gmul a6 a6 in
  let a15 := gmul a12 a3 in let a30 := gmul a15 a15 in let a60 := gmul a30 a30 in let a120 := gmul a60 a60 in
  let a240 := gmul a120 a120 in gmul (gmul a240 a12) a2.

(** The affine map of the S-box. *)
Definition sbox (a : Z) : Z :=
  let b := ginv a in
  Z.lxor (Z.lxor (Z.lxor (Z.lxor (Z.lxor b (rotl 8 b 1)) (rotl 8 b 2)) (rotl 8 b 3)) (rotl 8 b 4)) 0x63.

(** The values of the standard, and the inverses. *)
Example sbox_values : map sbox [0; 1; 0x53; 0xff] = [0x63; 0x7c; 0xed; 0x16].
Proof. vm_compute. reflexivity. Qed.

Lemma ginv_spec a : is_byte a -> a <> 0 -> gmul a (ginv a) = 1.
Proof.
  intros Ha H0. pose proof (byte_cases (fun a => (a =? 0) || (gmul a (ginv a) =? 1)) ltac:(vm_compute; reflexivity) a Ha) as H.
  apply orb_true_iff in H as [H|H]; apply Z.eqb_eq in H; done.
Qed.

Lemma sbox_byte a : is_byte a -> is_byte (sbox a).
Proof.
  intros Ha. pose proof (byte_cases (fun a => (0 <=? sbox a) && (sbox a <? 256)) ltac:(vm_compute; reflexivity) a Ha) as H.
  cbv beta in H. unfold is_byte. lia.
Qed.
