(* ===== verification/Groestl.v ===== *)
(** Groestl-256: src/src/crypto/groestl.c with the table of groestl_tables.h and
    the types of groestl.h, and hash_extra_groestl of hash-extra-groestl.c.

    A round reads the bytes of one array of words and writes another one; the
    arrays alternate, and the constants it adds to its input in place are not
    read again.  [uint32_t] words wrap. *)

From S2P Require Import Prelude Limbs Bytes Words.

(** ** The table *)

Definition T : list Z :=
  [0xa5f432c6; 0xc6a597f4; 0x84976ff8; 0xf884eb97; 0x99b05eee; 0xee99c7b0; 0x8d8c7af6; 0xf68df78c;
   0xd17e8ff; 0xff0de517; 0xbddc0ad6; 0xd6bdb7dc; 0xb1c816de; 0xdeb1a7c8; 0x54fc6d91; 0x915439fc;
   0x50f09060; 0x6050c0f0; 0x3050702; 0x2030405; 0xa9e02ece; 0xcea987e0; 0x7d87d156; 0x567dac87;
   0x192bcce7; 0xe719d52b; 0x62a613b5; 0xb56271a6; 0xe6317c4d; 0x4de69a31; 0x9ab559ec; 0xec9ac3b5;
   0x45cf408f; 0x8f4505cf; 0x9dbca31f; 0x1f9d3ebc; 0x40c04989; 0x894009c0; 0x879268fa; 0xfa87ef92;
   0x153fd0ef; 0xef15c53f; 0xeb2694b2; 0xb2eb7f26; 0xc940ce8e; 0x8ec90740; 0xb1de6fb; 0xfb0bed1d;
   0xec2f6e41; 0x41ec822f; 0x67a91ab3; 0xb3677da9; 0xfd1c435f; 0x5ffdbe1c; 0xea256045; 0x45ea8a25;
   0xbfdaf923; 0x23bf46da; 0xf7025153; 0x53f7a602; 0x96a145e4; 0xe496d3a1; 0x5bed769b; 0x9b5b2ded;
   0xc25d2875; 0x75c2ea5d; 0x1c24c5e1; 0xe11cd924; 0xaee9d43d; 0x3dae7ae9; 0x6abef24c; 0x4c6a98be;
   0x5aee826c; 0x6c5ad8ee; 0x41c3bd7e; 0x7e41fcc3; 0x206f3f5; 0xf502f106; 0x4fd15283; 0x834f1dd1;
   0x5ce48c68; 0x685cd0e4; 0xf4075651; 0x51f4a207; 0x345c8dd1; 0xd134b95c; 0x818e1f9; 0xf908e918;
   0x93ae4ce2; 0xe293dfae; 0x73953eab; 0xab734d95; 0x53f59762; 0x6253c4f5; 0x3f416b2a; 0x2a3f5441;
   0xc141c08; 0x80c1014; 0x52f66395; 0x955231f6; 0x65afe946; 0x46658caf; 0x5ee27f9d; 0x9d5e21e2;
   0x28784830; 0x30286078; 0xa1f8cf37; 0x37a16ef8; 0xf111b0a; 0xa0f1411; 0xb5c4eb2f; 0x2fb55ec4;
   0x91b150e; 0xe091c1b; 0x365a7e24; 0x2436485a; 0x9bb6ad1b; 0x1b9b36b6; 0x3d4798df; 0xdf3da547;
   0x266aa7cd; 0xcd26816a; 0x69bbf54e; 0x4e699cbb; 0xcd4c337f; 0x7fcdfe4c; 0x9fba50ea; 0xea9fcfba;
   0x1b2d3f12; 0x121b242d; 0x9eb9a41d; 0x1d9e3ab9; 0x749cc458; 0x5874b09c; 0x2e724634; 0x342e6872;
   0x2d774136; 0x362d6c77; 0xb2cd11dc; 0xdcb2a3cd; 0xee299db4; 0xb4ee7329; 0xfb164d5b; 0x5bfbb616;
   0xf601a5a4; 0xa4f65301; 0x4dd7a176; 0x764decd7; 0x61a314b7; 0xb76175a3; 0xce49347d; 0x7dcefa49;
   0x7b8ddf52; 0x527ba48d; 0x3e429fdd; 0xdd3ea142; 0x7193cd5e; 0x5e71bc93; 0x97a2b113; 0x139726a2;
   0xf504a2a6; 0xa6f55704; 0x68b801b9; 0xb96869b8; 0x0; 0x0; 0x2c74b5c1; 0xc12c9974;
   0x60a0e040; 0x406080a0; 0x1f21c2e3; 0xe31fdd21; 0xc8433a79; 0x79c8f243; 0xed2c9ab6; 0xb6ed772c;
   0xbed90dd4; 0xd4beb3d9; 0x46ca478d; 0x8d4601ca; 0xd9701767; 0x67d9ce70; 0x4bddaf72; 0x724be4dd;
   0xde79ed94; 0x94de3379; 0xd467ff98; 0x98d42b67; 0xe82393b0; 0xb0e87b23; 0x4ade5b85; 0x854a11de;
   0x6bbd06bb; 0xbb6b6dbd; 0x2a7ebbc5; 0xc52a917e; 0xe5347b4f; 0x4fe59e34; 0x163ad7ed; 0xed16c13a;
   0xc554d286; 0x86c51754; 0xd762f89a; 0x9ad72f62; 0x55ff9966; 0x6655ccff; 0x94a7b611; 0x119422a7;
   0xcf4ac08a; 0x8acf0f4a; 0x1030d9e9; 0xe910c930; 0x60a0e04; 0x406080a; 0x819866fe; 0xfe81e798;
   0xf00baba0; 0xa0f05b0b; 0x44ccb478; 0x7844f0cc; 0xbad5f025; 0x25ba4ad5; 0xe33e754b; 0x4be3963e;
   0xf30eaca2; 0xa2f35f0e; 0xfe19445d; 0x5dfeba19; 0xc05bdb80; 0x80c01b5b; 0x8a858005; 0x58a0a85;
   0xadecd33f; 0x3fad7eec; 0xbcdffe21; 0x21bc42df; 0x48d8a870; 0x7048e0d8; 0x40cfdf1; 0xf104f90c;
   0xdf7a1963; 0x63dfc67a; 0xc1582f77; 0x77c1ee58; 0x759f30af; 0xaf75459f; 0x63a5e742; 0x426384a5;
   0x30507020; 0x20304050; 0x1a2ecbe5; 0xe51ad12e; 0xe12effd; 0xfd0ee112; 0x6db708bf; 0xbf6d65b7;
   0x4cd45581; 0x814c19d4; 0x143c2418; 0x1814303c; 0x355f7926; 0x26354c5f; 0x2f71b2c3; 0xc32f9d71;
   0xe13886be; 0xbee16738; 0xa2fdc835; 0x35a26afd; 0xcc4fc788; 0x88cc0b4f; 0x394b652e; 0x2e395c4b;
   0x57f96a93; 0x93573df9; 0xf20d5855; 0x55f2aa0d; 0x829d61fc; 0xfc82e39d; 0x47c9b37a; 0x7a47f4c9;
   0xacef27c8; 0xc8ac8bef; 0xe73288ba; 0xbae76f32; 0x2b7d4f32; 0x322b647d; 0x95a442e6; 0xe695d7a4;
   0xa0fb3bc0; 0xc0a09bfb; 0x98b3aa19; 0x199832b3; 0xd168f69e; 0x9ed12768; 0x7f8122a3; 0xa37f5d81;
   0x66aaee44; 0x446688aa; 0x7e82d654; 0x547ea882; 0xabe6dd3b; 0x3bab76e6; 0x839e950b; 0xb83169e;
   0xca45c98c; 0x8cca0345; 0x297bbcc7; 0xc729957b; 0xd36e056b; 0x6bd3d66e; 0x3c446c28; 0x283c5044;
   0x798b2ca7; 0xa779558b; 0xe23d81bc; 0xbce2633d; 0x1d273116; 0x161d2c27; 0x769a37ad; 0xad76419a;
   0x3b4d96db; 0xdb3bad4d; 0x56fa9e64; 0x6456c8fa; 0x4ed2a674; 0x744ee8d2; 0x1e223614; 0x141e2822;
   0xdb76e492; 0x92db3f76; 0xa1e120c; 0xc0a181e; 0x6cb4fc48; 0x486c90b4; 0xe4378fb8; 0xb8e46b37;
   0x5de7789f; 0x9f5d25e7; 0x6eb20fbd; 0xbd6e61b2; 0xef2a6943; 0x43ef862a; 0xa6f135c4; 0xc4a693f1;
   0xa8e3da39; 0x39a872e3; 0xa4f7c631; 0x31a462f7; 0x37598ad3; 0xd337bd59; 0x8b8674f2; 0xf28bff86;
   0x325683d5; 0xd532b156; 0x43c54e8b; 0x8b430dc5; 0x59eb856e; 0x6e59dceb; 0xb7c218da; 0xdab7afc2;
   0x8c8f8e01; 0x18c028f; 0x64ac1db1; 0xb16479ac; 0xd26df19c; 0x9cd2236d; 0xe03b7249; 0x49e0923b;
   0xb4c71fd8; 0xd8b4abc7; 0xfa15b9ac; 0xacfa4315; 0x709faf3; 0xf307fd09; 0x256fa0cf; 0xcf25856f;
   0xafea20ca; 0xcaaf8fea; 0x8e897df4; 0xf48ef389; 0xe9206747; 0x47e98e20; 0x18283810; 0x10182028;
   0xd5640b6f; 0x6fd5de64; 0x888373f0; 0xf088fb83; 0x6fb1fb4a; 0x4a6f94b1; 0x7296ca5c; 0x5c72b896;
   0x246c5438; 0x3824706c; 0xf1085f57; 0x57f1ae08; 0xc7522173; 0x73c7e652; 0x51f36497; 0x975135f3;
   0x2365aecb; 0xcb238d65; 0x7c8425a1; 0xa17c5984; 0x9cbf57e8; 0xe89ccbbf; 0x21635d3e; 0x3e217c63;
   0xdd7cea96; 0x96dd377c; 0xdc7f1e61; 0x61dcc27f; 0x86919c0d; 0xd861a91; 0x85949b0f; 0xf851e94;
   0x90ab4be0; 0xe090dbab; 0x42c6ba7c; 0x7c42f8c6; 0xc4572671; 0x71c4e257; 0xaae529cc; 0xccaa83e5;
   0xd873e390; 0x90d83b73; 0x50f0906; 0x6050c0f; 0x103f4f7; 0xf701f503; 0x12362a1c; 0x1c123836;
   0xa3fe3cc2; 0xc2a39ffe; 0x5fe18b6a; 0x6a5fd4e1; 0xf910beae; 0xaef94710; 0xd06b0269; 0x69d0d26b;
   0x91a8bf17; 0x17912ea8; 0x58e87199; 0x995829e8; 0x2769533a; 0x3a277469; 0xb9d0f727; 0x27b94ed0;
   0x384891d9; 0xd938a948; 0x1335deeb; 0xeb13cd35; 0xb3cee52b; 0x2bb356ce; 0x33557722; 0x22334455;
   0xbbd604d2; 0xd2bbbfd6; 0x709039a9; 0xa9704990; 0x89808707; 0x7890e80; 0xa7f2c133; 0x33a766f2;
   0xb6c1ec2d; 0x2db65ac1; 0x22665a3c; 0x3c227866; 0x92adb815; 0x15922aad; 0x2060a9c9; 0xc9208960;
   0x49db5c87; 0x874915db; 0xff1ab0aa; 0xaaff4f1a; 0x7888d850; 0x5078a088; 0x7a8e2ba5; 0xa57a518e;
   0x8f8a8903; 0x38f068a; 0xf8134a59; 0x59f8b213; 0x809b9209; 0x980129b; 0x1739231a; 0x1a173439;
   0xda751065; 0x65daca75; 0x315384d7; 0xd731b553; 0xc651d584; 0x84c61351; 0xb8d303d0; 0xd0b8bbd3;
   0xc35edc82; 0x82c31f5e; 0xb0cbe229; 0x29b052cb; 0x7799c35a; 0x5a77b499; 0x11332d1e; 0x1e113c33;
   0xcb463d7b; 0x7bcbf646; 0xfc1fb7a8; 0xa8fc4b1f; 0xd6610c6d; 0x6dd6da61; 0x3a4e622c; 0x2c3a584e].

(** ** Rounds *)

(** [T[2*b]], [T[2*b+1]] *)
Definition lookup_T (b : Z) : Z * Z := (T !!! Z.to_nat (2 * b), T !!! Z.to_nat (2 * b + 1)).

Definition ROTATE_COLUMN_DOWN (amount_bytes : Z) (v : Z * Z) : Z * Z :=
  let '(v1, v2) := v in
  let k := 8 * amount_bytes in
  let l := 8 * (4 - amount_bytes) in
  (Z.lor (uwrap 32 (Z.shiftl v1 k)) (Z.shiftr v2 l), Z.lor (uwrap 32 (Z.shiftl v2 k)) (Z.shiftr v1 l)).

(** [tu ^= tv1; tl ^= tv2;] and, for the rows of the lower word, with the two swapped. *)
Definition xor2 (t v : Z * Z) : Z * Z := (Z.lxor (fst t) (fst v), Z.lxor (snd t) (snd v)).
Definition swap2 (v : Z * Z) : Z * Z := (snd v, fst v).

(** [x]: the bytes of the input; the result is [y[i]], [y[i+1]]. *)
Definition COLUMN (x : list Z) (c0 c1 c2 c3 c4 c5 c6 c7 : nat) : list Z :=
  let t := lookup_T (x !!! (4 * c0 + 0)%nat) in
  let t := xor2 t (ROTATE_COLUMN_DOWN 1 (lookup_T (x !!! (4 * c1 + 1)%nat))) in
  let t := xor2 t (ROTATE_COLUMN_DOWN 2 (lookup_T (x !!! (4 * c2 + 2)%nat))) in
  let t := xor2 t (ROTATE_COLUMN_DOWN 3 (lookup_T (x !!! (4 * c3 + 3)%nat))) in
  let t := xor2 t (swap2 (lookup_T (x !!! (4 * c4 + 0)%nat))) in
  let t := xor2 t (swap2 (ROTATE_COLUMN_DOWN 1 (lookup_T (x !!! (4 * c5 + 1)%nat)))) in
  let t := xor2 t (swap2 (ROTATE_COLUMN_DOWN 2 (lookup_T (x !!! (4 * c6 + 2)%nat)))) in
  let t := xor2 t (swap2 (ROTATE_COLUMN_DOWN 3 (lookup_T (x !!! (4 * c7 + 3)%nat)))) in
  [fst t; snd t].

(** [x32[2j] ^= (j << 4) ^ r] *)
Definition add_constant_P (x32 : list Z) (r : Z) : list Z :=
  foldl (fun x j => <[(2 * j)%nat := Z.lxor (x !!! (2 * j)%nat) (Z.lxor (16 * Z.of_nat j) r)]> x) x32 (seq 0 8).

Definition RND512P (x32 : list Z) (r : Z) : list Z :=
  let x := words_bytes 4 (add_constant_P x32 r) in
  COLUMN x  0  2  4  6  9 11 13 15 ++
  COLUMN x  2  4  6  8 11 13 15  1 ++
  COLUMN x  4  6  8 10 13 15  1  3 ++
  COLUMN x  6  8 10 12 15  1  3  5 ++
  COLUMN x  8 10 12 14  1  3  5  7 ++
  COLUMN x 10 12 14  0  3  5  7  9 ++
  COLUMN x 12 14  0  2  5  7  9 11 ++
  COLUMN x 14  0  2  4  7  9 11 13.

Definition constants_Q : list Z :=
  [0xffffffff; 0xefffffff; 0xdfffffff; 0xcfffffff; 0xbfffffff; 0xafffffff; 0x9fffffff; 0x8fffffff].

(** [x32[2j] = ~x32[2j]; x32[2j+1] ^= c^r;] *)
Definition add_constant_Q (x32 : list Z) (r : Z) : list Z :=
  foldl (fun x j =>
    let x := <[(2 * j)%nat := notw 32 (x !!! (2 * j)%nat)]> x in
    <[(2 * j + 1)%nat := Z.lxor (x !!! (2 * j + 1)%nat) (Z.lxor (constants_Q !!! j) r)]> x) x32 (seq 0 8).

Definition RND512Q (x32 : list Z) (r : Z) : list Z :=
  let x := words_bytes 4 (add_constant_Q x32 r) in
  COLUMN x  2  6 10 14  1  5  9 13 ++
  COLUMN x  4  8 12  0  3  7 11 15 ++
  COLUMN x  6 10 14  2  5  9 13  1 ++
  COLUMN x  8 12  0  4  7 11 15  3 ++
  COLUMN x 10 14  2  6  9 13  1  5 ++
  COLUMN x 12  0  4  8 11 15  3  7 ++
  COLUMN x 14  2  6 10 13  1  5  9 ++
  COLUMN x  0  4  8 12 15  3  7 11.

(** The ten rounds of P and Q with their constants. *)
Definition rounds_P (x32 : list Z) : list Z := foldl (fun x i => RND512P x (Z.of_nat i)) x32 (seq 0 10).
Definition rounds_Q (x32 : list Z) : list Z := foldl (fun x i => RND512Q x (Z.of_nat i * 0x01000000)) x32 (seq 0 10).

Definition F512 (h m : list Z) : list Z :=
  let z := m in
  let Ptmp := xor_list h m in
  let Qtmp := rounds_Q z in
  let Ptmp := rounds_P Ptmp in
  xor_list h (xor_list Ptmp Qtmp).

(** ** The context *)

Record gstate := {
  chaining : list Z;              (* uint32_t chaining[16] *)
  counter1 : Z; counter2 : Z;     (* uint32_t block_counter1, block_counter2 *)
  buffer : list Z;                (* buffer[64] *)
  buf_ptr : Z;                    (* int buf_ptr *)
  bilb : Z                        (* int bits_in_last_byte *)
}.

Definition set_chaining h c := {| chaining := h; counter1 := counter1 c; counter2 := counter2 c; buffer := buffer c; buf_ptr := buf_ptr c; bilb := bilb c |}.
Definition set_buffer n b c := {| chaining := chaining c; counter1 := counter1 c; counter2 := counter2 c; buffer := b; buf_ptr := n; bilb := bilb c |}.
Definition set_bilb n c := {| chaining := chaining c; counter1 := counter1 c; counter2 := counter2 c; buffer := buffer c; buf_ptr := buf_ptr c; bilb := n |}.

(** [block_counter1++; if (block_counter1 == 0) block_counter2++;] *)
Definition count_blocks (c : gstate) : gstate :=
  let c1 := addw 32 (counter1 c) 1 in
  {| chaining := chaining c; counter1 := c1; counter2 := if c1 =? 0 then addw 32 (counter2 c) 1 else counter2 c;
     buffer := buffer c; buf_ptr := buf_ptr c; bilb := bilb c |}.

(** [for (; msglen >= SIZE512; msglen -= SIZE512, input += SIZE512)] *)
Fixpoint Transform_loop (fuel : nat) (c : gstate) (input : list Z) (msglen : Z) : outcome gstate :=
  if msglen <? 64 then Ret c else
  match fuel with
  | O => Fault Diverges
  | S fuel' =>
      if (length input <? 64)%nat then Fault OutOfBounds else
      let c := set_chaining (F512 (chaining c) (le_words 4 16 input)) c in
      Transform_loop fuel' (count_blocks c) (drop 64 input) (msglen - 64)
  end.

Definition Transform (c : gstate) (input : list Z) (msglen : Z) : outcome gstate :=
  Transform_loop (Z.to_nat (msglen / 64)) c input msglen.

(** [h <- P(h) + h] *)
Definition OutputTransformation (c : gstate) : gstate :=
  set_chaining (xor_list (chaining c) (rounds_P (chaining c))) c.

Definition ROTL32 (v n : Z) : Z := rotl 32 v n.
Definition u32BIG (a : Z) : Z := Z.lor (Z.land (ROTL32 a 8) 0x00FF00FF) (Z.land (ROTL32 a 24) 0xFF00FF00).

Definition groestl_Init (c : gstate) : gstate :=
  {| chaining := replicate 15 0 ++ [u32BIG 256]; counter1 := 0; counter2 := 0; buffer := buffer c; buf_ptr := 0; bilb := 0 |}.

(** ** Update *)

(** A loop [while (.. index < msglen) buffer[buf_ptr++] = input[index++]] that runs [k] times. *)
Definition store (c : gstate) (input : list Z) (k : Z) : outcome gstate :=
  if (Z.of_nat (length input) <? k) || (64 <? buf_ptr c + k) then Fault OutOfBounds else
  let p := Z.to_nat (buf_ptr c) in
  let k := Z.to_nat k in
  Ret (set_buffer (buf_ptr c + Z.of_nat k) (take p (buffer c) ++ take k input ++ drop (p + k) (buffer c)) c).

(** [if (rem) { bits_in_last_byte = rem; buffer[buf_ptr++] = input[index]; }] *)
Definition store_rem (c : gstate) (input : list Z) (i rem : Z) : outcome gstate :=
  if rem =? 0 then Ret c
  else if i <? 0 then Fault OutOfBounds
  else store (set_bilb rem c) (drop (Z.to_nat i) input) 1.

Definition groestl_Update (c : gstate) (input : list Z) (databitlen : Z) : outcome gstate :=
  let msglen := swrap 32 (databitlen / 8) in
  let rem := databitlen mod 8 in
  let bulk c input msglen :=
    let* c := Transform c input msglen in
    let k := Z.quot msglen 64 * 64 in
    let* c := store c (drop (Z.to_nat k) input) (Z.max 0 (msglen - k)) in
    store_rem c input (Z.max k msglen) rem in
  if buf_ptr c =? 0 then bulk c input msglen else
  let k := Z.max 0 (Z.min (64 - buf_ptr c) msglen) in
  let* c := store c input k in
  let input := drop (Z.to_nat k) input in
  if buf_ptr c <? 64 then store_rem c input 0 rem else
  let c := set_buffer 0 (buffer c) c in
  let* c := Transform c (buffer c) 64 in
  bulk c input (msglen - k).

(** ** Final *)

(** [buffer[i] = v], faulting outside the buffer. *)
Definition put_byte (i v : Z) (c : gstate) : outcome gstate :=
  let* _ := index (buffer c) i in
  Ret (set_buffer (buf_ptr c) (<[Z.to_nat i := v]> (buffer c)) c).

(** The bytes of the 64-bit block count, most significant first: the two
    [while] loops that run [buf_ptr] down from 64 to 56. *)
Definition length_field (c : gstate) : list Z := be_bytes 4 (counter2 c) ++ be_bytes 4 (counter1 c).

(** The context after these loops, which shift the counters out. *)
Definition put_length (c : gstate) : gstate :=
  {| chaining := chaining c; counter1 := 0; counter2 := 0; buffer := take 56 (buffer c) ++ length_field c; buf_ptr := 56; bilb := bilb c |}.

(** Padding with the bit 1: in the partial last byte, or in a byte of its own. *)
Definition pad_one (c : gstate) : outcome gstate :=
  if negb (bilb c =? 0) then
    let* b := index (buffer c) (buf_ptr c - 1) in
    let b := Z.land b (Z.shiftl (Z.shiftl 1 (bilb c) - 1) (8 - bilb c)) in
    let b := Z.lxor b (Z.shiftl 1 (7 - bilb c)) in
    let* c := put_byte (buf_ptr c - 1) b c in
    Ret (set_bilb 0 c)
  else
    let* c := put_byte (buf_ptr c) 0x80 c in
    Ret (set_buffer (buf_ptr c + 1) (buffer c) c).

(** Padding with zeros up to the length field, through one more block if that is full. *)
Definition pad_zeros (c : gstate) : outcome gstate :=
  let* c :=
    if 56 <? buf_ptr c then
      let* c := store c (replicate 64 0) (64 - buf_ptr c) in
      let* c := Transform c (buffer c) 64 in
      Ret (set_buffer 0 (buffer c) c)
    else Ret c in
  store c (replicate 64 0) (56 - buf_ptr c).

(** The 32 bytes of the digest, and the context left behind. *)
Definition groestl_Final (c : gstate) : outcome (list Z * gstate) :=
  let* c := pad_one c in
  let* c := pad_zeros c in
  let c := count_blocks c in
  let c := put_length c in
  let* c := Transform c (buffer c) 64 in
  let c := OutputTransformation c in
  let s := words_bytes 4 (chaining c) in
  Ret (drop 32 s, set_chaining (replicate 8 0 ++ drop 8 (chaining c)) (set_buffer (buf_ptr c) (replicate 64 0) c)).

(** [c0]: the uninitialised context. *)
Definition groestl (c0 : gstate) (data : list Z) (databitlen : Z) : outcome (list Z) :=
  let* c := groestl_Update (groestl_Init c0) data databitlen in
  let* '(out, _) := groestl_Final c in
  Ret out.

Definition hash_extra_groestl (c0 : gstate) (data : list Z) (length : Z) : outcome (list Z) :=
  groestl c0 data (uwrap 64 (length * 8)).
