(* ===== verification/GroestlFacts.v ===== *)
(** Groestl-256 against its definition on an 8x8 matrix of bytes: the table
    look-ups and word rotations are SubBytes, ShiftBytes and MixBytes; the
    buffered message, its padding and the block counter. *)

From S2P Require Import Prelude Limbs Bytes Words Gf256 Groestl.

(** ** Reference: a state is 64 bytes, row [i] of column [j] at [8 j + i] *)

Definition cells (f : nat -> nat -> Z) : list Z := concat (map (fun j => map (f j) (seq 0 8)) (seq 0 8)).

Definition add_P (r : Z) (s : list Z) : list Z :=
  cells (fun j i => let x := s !!! (8 * j + i)%nat in
    if (i =? 0)%nat then Z.lxor x (Z.lxor (16 * Z.of_nat j) r) else x).

Definition add_Q (r : Z) (s : list Z) : list Z :=
  cells (fun j i => let x := s !!! (8 * j + i)%nat in
    if (i =? 7)%nat then Z.lxor x (Z.lxor 255 (Z.lxor (16 * Z.of_nat j) r)) else Z.lxor x 255).

Definition sub_bytes (s : list Z) : list Z := map sbox s.

(** Row [i] moves [sh !!! i] places to the left. *)
Definition shift_bytes (sh : list nat) (s : list Z) : list Z :=
  cells (fun j i => s !!! (8 * ((j + sh !!! i) mod 8) + i)%nat).

Definition shift_P : list nat := [0;1;2;3;4;5;6;7]%nat.
Definition shift_Q : list nat := [1;3;5;7;0;2;4;6]%nat.

(** The circulant matrix with first row 2 2 3 4 5 3 5 7. *)
Definition mix_row : list Z := [2; 2; 3; 4; 5; 3; 5; 7].

(** The XOR of eight terms. *)
Definition xor8 (f : nat -> Z) : Z :=
  Z.lxor (Z.lxor (Z.lxor (Z.lxor (Z.lxor (Z.lxor (Z.lxor (f 0%nat) (f 1%nat)) (f 2%nat)) (f 3%nat)) (f 4%nat)) (f 5%nat)) (f 6%nat)) (f 7%nat).

Definition mix_bytes (s : list Z) : list Z :=
  cells (fun j i => xor8 (fun k => gmul (mix_row !!! ((k + 8 - i) mod 8)%nat) (s !!! (8 * j + k)%nat))).

Definition ref_P (s : list Z) : list Z :=
  foldl (fun s i => mix_bytes (shift_bytes shift_P (sub_bytes (add_P (Z.of_nat i) s)))) s (seq 0 10).
Definition ref_Q (s : list Z) : list Z :=
  foldl (fun s i => mix_bytes (shift_bytes shift_Q (sub_bytes (add_Q (Z.of_nat i) s)))) s (seq 0 10).

Definition ref_f (h m : list Z) : list Z := xor_list h (xor_list (ref_P (xor_list h m)) (ref_Q m)).

#[local] Abbreviation ref_chain := (fold_blocks ref_f 64).

(** [m] ends with the bit 1: zeros, and the number of blocks in 64 bits. *)
Definition groestl_pad (m : list Z) : list Z :=
  let m := m ++ replicate ((120 - length m mod 64) mod 64) 0 in
  m ++ be_bytes 8 (Z.of_nat (length m / 64 + 1)).

Definition groestl_ref (m : list Z) : list Z :=
  let p := groestl_pad m in
  let h := ref_chain (replicate 62 0 ++ [1; 0]) p (length p / 64) in
  drop 32 (xor_list (ref_P h) h).

(** The test vector for the empty message (first eight bytes). *)
Example groestl_kat : take 8 (groestl_ref [0x80]) = [0x1a; 0x52; 0xd1; 0x1d; 0x55; 0x00; 0x39; 0xbe].
Proof. vm_compute. reflexivity. Qed.

(** ** Columns *)

Definition col (v : Z * Z) : list Z := words_bytes 4 [fst v; snd v].

Definition word2 (v : Z * Z) : Prop := word 32 (fst v) /\ word 32 (snd v).

(** The table: the column of the products of the S-box value. *)
Lemma lookup_T_spec b :
  is_byte b -> col (lookup_T b) = map (fun i => gmul (mix_row !!! ((0 + 8 - i) mod 8)%nat) (sbox b)) (seq 0 8).
Proof.
  intros Hb.
  pose proof (byte_cases (fun b => bool_decide (col (lookup_T b) = map (fun i => gmul (mix_row !!! ((0 + 8 - i) mod 8)%nat) (sbox b)) (seq 0 8)))) as H.
  specialize (H ltac:(vm_compute; reflexivity) b Hb). by apply bool_decide_eq_true in H.
Qed.

Lemma lookup_T_word b : is_byte b -> word2 (lookup_T b).
Proof.
  intros Hb. unfold word2, word.
  pose proof (byte_cases (fun b => (0 <=? (lookup_T b).1) && ((lookup_T b).1 <? 2 ^ 32) && (0 <=? (lookup_T b).2) && ((lookup_T b).2 <? 2 ^ 32))
    ltac:(vm_compute; reflexivity) b Hb) as H. cbv beta in H. lia.
Qed.

Lemma xor2_col t v : col (xor2 t v) = xor_list (col t) (col v).
Proof. unfold col. rewrite <- words_bytes_xor by done. done. Qed.

Lemma swap2_col v : col (swap2 v) = drop 4 (col v) ++ take 4 (col v).
Proof. destruct v as [a b]. reflexivity. Qed.

(** Rotation of the eight bytes by [n] places, towards higher rows. *)
Lemma rotate_col n v :
  (n = 1 \/ n = 2 \/ n = 3)%nat -> word2 v ->
  col (ROTATE_COLUMN_DOWN (Z.of_nat n) v) = drop (8 - n) (col v) ++ take (8 - n) (col v) /\ word2 (ROTATE_COLUMN_DOWN (Z.of_nat n) v).
Proof.
  intros Hn [Ha Hb]. destruct v as [a b]. cbn [fst snd] in *.
  assert (forall x y, word 32 x -> word 32 y ->
    Z.lor (uwrap 32 (Z.shiftl x (8 * Z.of_nat n))) (Z.shiftr y (8 * (4 - Z.of_nat n))) =
    (x mod 2 ^ (8 * (4 - Z.of_nat n))) * 2 ^ (8 * Z.of_nat n) + y / 2 ^ (8 * (4 - Z.of_nat n))) as E.
  { intros x y Hx Hy. unfold word, uwrap in *. rewrite Z.shiftl_mul_pow2, Z.shiftr_div_pow2 by lia.
    pose proof (div_top 32 y (8 * Z.of_nat n) ltac:(lia) Hy) as Hd. replace (32 - 8 * Z.of_nat n) with (8 * (4 - Z.of_nat n)) in Hd by lia.
    replace (2 ^ 32) with (2 ^ (8 * (4 - Z.of_nat n)) * 2 ^ (8 * Z.of_nat n)) by (rewrite <- Z.pow_add_r by lia; f_equal; lia).
    rewrite Z.mul_mod_distr_r by (apply Z.pow_nonzero; lia). rewrite Z.lor_comm, <- (Z.shiftl_mul_pow2 _ (8 * Z.of_nat n)) by lia.
    rewrite lor_add by lia. rewrite Z.shiftl_mul_pow2 by lia. ring. }
  unfold ROTATE_COLUMN_DOWN, col, word2. cbn [fst snd]. rewrite !E by done. unfold word in *.
  assert (forall x y, word 32 x -> word 32 y -> word 32 (x mod 2 ^ (8 * (4 - Z.of_nat n)) * 2 ^ (8 * Z.of_nat n) + y / 2 ^ (8 * (4 - Z.of_nat n)))) as Hw.
  { intros x y Hx Hy. rewrite <- E by done. apply word_lor; [lia|by apply word_uwrap|by apply word_shiftr; [lia|lia|]]. }
  split; [|by split; apply Hw].
  unfold words_bytes. cbn [map concat]. rewrite !app_nil_r.
  clear E Hw.
  destruct Hn as [->|[->| ->]]; cbn [le_bytes app drop take Nat.sub]; pow_consts;
    repeat (apply f_equal2; [by (Z.to_euclidean_division_equations; lia)|]); reflexivity.
Qed.

Lemma xor2_word t v : word2 t -> word2 v -> word2 (xor2 t v).
Proof. intros [? ?] [? ?]. split; cbn [xor2 fst snd]; apply word_lxor; lia || done. Qed.

Lemma swap2_word v : word2 v -> word2 (swap2 v).
Proof. intros [? ?]. by split. Qed.

(** The bytes of a column: MixBytes on the S-box values of the eight bytes it reads. *)
Definition mix_column (b : nat -> Z) : list Z :=
  map (fun i => xor8 (fun k => gmul (mix_row !!! ((k + 8 - i) mod 8)%nat) (sbox (b k)))) (seq 0 8).

Definition picks (x : list Z) (c : list nat) (k : nat) : Z := x !!! (4 * (c !!! k) + k mod 4)%nat.

Lemma rotate1 b : is_byte b -> col (ROTATE_COLUMN_DOWN 1 (lookup_T b)) = drop 7 (col (lookup_T b)) ++ take 7 (col (lookup_T b)) /\ word2 (ROTATE_COLUMN_DOWN 1 (lookup_T b)).
Proof. intros H. apply (rotate_col 1); [lia|by apply lookup_T_word]. Qed.
Lemma rotate2 b : is_byte b -> col (ROTATE_COLUMN_DOWN 2 (lookup_T b)) = drop 6 (col (lookup_T b)) ++ take 6 (col (lookup_T b)) /\ word2 (ROTATE_COLUMN_DOWN 2 (lookup_T b)).
Proof. intros H. apply (rotate_col 2); [lia|by apply lookup_T_word]. Qed.
Lemma rotate3 b : is_byte b -> col (ROTATE_COLUMN_DOWN 3 (lookup_T b)) = drop 5 (col (lookup_T b)) ++ take 5 (col (lookup_T b)) /\ word2 (ROTATE_COLUMN_DOWN 3 (lookup_T b)).
Proof. intros H. apply (rotate_col 3); [lia|by apply lookup_T_word]. Qed.

#[local] Opaque lookup_T ROTATE_COLUMN_DOWN xor2 swap2.

Lemma COLUMN_spec x c0 c1 c2 c3 c4 c5 c6 c7 :
  let c := [c0; c1; c2; c3; c4; c5; c6; c7] in
  (forall k, (k < 8)%nat -> is_byte (picks x c k)) ->
  words_bytes 4 (COLUMN x c0 c1 c2 c3 c4 c5 c6 c7) = mix_column (picks x c) /\ words 32 (COLUMN x c0 c1 c2 c3 c4 c5 c6 c7).
Proof.
  intros c H. unfold COLUMN.
  change (x !!! (4 * c0 + 0)%nat) with (picks x c 0). change (x !!! (4 * c1 + 1)%nat) with (picks x c 1).
  change (x !!! (4 * c2 + 2)%nat) with (picks x c 2). change (x !!! (4 * c3 + 3)%nat) with (picks x c 3).
  change (x !!! (4 * c4 + 0)%nat) with (picks x c 4). change (x !!! (4 * c5 + 1)%nat) with (picks x c 5).
  change (x !!! (4 * c6 + 2)%nat) with (picks x c 6). change (x !!! (4 * c7 + 3)%nat) with (picks x c 7).
  pose proof (H 0%nat ltac:(lia)) as H0. pose proof (H 1%nat ltac:(lia)) as H1. pose proof (H 2%nat ltac:(lia)) as H2.
  pose proof (H 3%nat ltac:(lia)) as H3. pose proof (H 4%nat ltac:(lia)) as H4. pose proof (H 5%nat ltac:(lia)) as H5.
  pose proof (H 6%nat ltac:(lia)) as H6. pose proof (H 7%nat ltac:(lia)) as H7. clear H.
  generalize dependent (picks x c). clear. intros p H0 H1 H2 H3 H4 H5 H6 H7. cbv zeta.
  set (t := xor2 _ (swap2 (ROTATE_COLUMN_DOWN 3 _))). split.
  - change (words_bytes 4 [fst t; snd t]) with (col t). unfold t. rewrite !xor2_col, !swap2_col.
    rewrite (proj1 (rotate1 _ H1)), (proj1 (rotate2 _ H2)), (proj1 (rotate3 _ H3)),
      (proj1 (rotate1 _ H5)), (proj1 (rotate2 _ H6)), (proj1 (rotate3 _ H7)), !lookup_T_spec by done.
    cbv -[gmul sbox Z.lxor]. reflexivity.
  - assert (word2 t) as [? ?].
    { pose proof (lookup_T_word _ H0). pose proof (swap2_word _ (lookup_T_word _ H4)).
      pose proof (proj2 (rotate1 _ H1)). pose proof (proj2 (rotate2 _ H2)). pose proof (proj2 (rotate3 _ H3)).
      pose proof (swap2_word _ (proj2 (rotate1 _ H5))). pose proof (swap2_word _ (proj2 (rotate2 _ H6))).
      pose proof (swap2_word _ (proj2 (rotate3 _ H7))). unfold t. do 7 (apply xor2_word; [|assumption]). assumption. }
    apply List.Forall_cons; [done|]. apply List.Forall_cons; [done|]. apply List.Forall_nil.
Qed.

#[local] Opaque COLUMN.

(** ** Rounds *)

Lemma bytes_64 s : length s = 64%nat -> exists f : nat -> Z, s = map f (seq 0 64).
Proof.
  intros H. exists (fun i => s !!! i). apply list_eq. intros i. rewrite list_lookup_fmap.
  destruct (Nat.lt_ge_cases i 64).
  - rewrite lookup_seq_lt by done. cbn [fmap option_fmap option_map Nat.add].
    destruct (lookup_lt_is_Some_2 s i ltac:(lia)) as [x Hx]. by rewrite Hx, (list_lookup_total_correct _ _ _ Hx).
  - rewrite !lookup_ge_None_2; [done|rewrite length_seq; lia|lia].
Qed.

(** The eight columns of a round read the bytes ShiftBytes moves. *)
Lemma columns_P x :
  length x = 64%nat ->
  mix_column (picks x [ 0; 2; 4; 6; 9;11;13;15]%nat) ++ mix_column (picks x [ 2; 4; 6; 8;11;13;15; 1]%nat) ++
  mix_column (picks x [ 4; 6; 8;10;13;15; 1; 3]%nat) ++ mix_column (picks x [ 6; 8;10;12;15; 1; 3; 5]%nat) ++
  mix_column (picks x [ 8;10;12;14; 1; 3; 5; 7]%nat) ++ mix_column (picks x [10;12;14; 0; 3; 5; 7; 9]%nat) ++
  mix_column (picks x [12;14; 0; 2; 5; 7; 9;11]%nat) ++ mix_column (picks x [14; 0; 2; 4; 7; 9;11;13]%nat) =
  mix_bytes (shift_bytes shift_P (sub_bytes x)).
Proof. intros H. destruct (bytes_64 x H) as [f ->]. cbv -[gmul sbox Z.lxor]. reflexivity. Qed.

Lemma columns_Q x :
  length x = 64%nat ->
  mix_column (picks x [ 2; 6;10;14; 1; 5; 9;13]%nat) ++ mix_column (picks x [ 4; 8;12; 0; 3; 7;11;15]%nat) ++
  mix_column (picks x [ 6;10;14; 2; 5; 9;13; 1]%nat) ++ mix_column (picks x [ 8;12; 0; 4; 7;11;15; 3]%nat) ++
  mix_column (picks x [10;14; 2; 6; 9;13; 1; 5]%nat) ++ mix_column (picks x [12; 0; 4; 8;11;15; 3; 7]%nat) ++
  mix_column (picks x [14; 2; 6;10;13; 1; 5; 9]%nat) ++ mix_column (picks x [ 0; 4; 8;12;15; 3; 7;11]%nat) =
  mix_bytes (shift_bytes shift_Q (sub_bytes x)).
Proof. intros H. destruct (bytes_64 x H) as [f ->]. cbv -[gmul sbox Z.lxor]. reflexivity. Qed.

Lemma notw_lxor a : word 32 a -> notw 32 a = Z.lxor a 0xffffffff.
Proof.
  intros H. apply Z.bits_inj'. intros n Hn. unfold notw, uwrap. destruct (Z.lt_ge_cases n 32).
  - rewrite Z.mod_pow2_bits_low, Z.lnot_spec, Z.lxor_spec by lia. change 0xffffffff with (Z.ones 32).
    rewrite Z.ones_spec_low by lia. by rewrite xorb_true_r.
  - rewrite Z.mod_pow2_bits_high, Z.lxor_spec by lia. change 0xffffffff with (Z.ones 32).
    rewrite Z.ones_spec_high by lia. apply (word_bits 32) in H as [_ H]; [|lia]. by rewrite H.
Qed.

(** A list of sixteen words, its elements named. *)
Ltac sixteen x H := repeat (destruct x as [|? x]; try discriminate H).

(** The round constants as a state. *)
Definition const_P (r : Z) : list Z := cells (fun j i => if (i =? 0)%nat then Z.lxor (16 * Z.of_nat j) r else 0).
Definition const_Q (r : Z) : list Z := cells (fun j i => if (i =? 7)%nat then Z.lxor 255 (Z.lxor (16 * Z.of_nat j) r) else 255).

Lemma add_P_xor r s : length s = 64%nat -> add_P r s = xor_list s (const_P r).
Proof.
  intros H. destruct (bytes_64 s H) as [f ->]. cbv -[Z.lxor Z.mul Z.of_nat]. rewrite !Z.lxor_0_r. reflexivity.
Qed.

Lemma add_Q_xor r s : length s = 64%nat -> add_Q r s = xor_list s (const_Q r).
Proof. intros H. destruct (bytes_64 s H) as [f ->]. cbv -[Z.lxor Z.mul Z.of_nat]. reflexivity. Qed.

Lemma add_constant_P_spec x i :
  length x = 16%nat -> (i < 10)%nat -> words_bytes 4 (add_constant_P x (Z.of_nat i)) = add_P (Z.of_nat i) (words_bytes 4 x).
Proof.
  intros H Hi. assert (length (words_bytes 4 x) = 64%nat) as Hl by (by rewrite length_words_bytes, H).
  assert (add_constant_P x (Z.of_nat i) = xor_list x
    (concat (map (fun j => [Z.lxor (16 * Z.of_nat j) (Z.of_nat i); 0]) (seq 0 8)))) as ->.
  { clear Hl. sixteen x H. cbv -[Z.lxor Z.mul Z.of_nat]. rewrite !Z.lxor_0_r. reflexivity. }
  rewrite words_bytes_xor, add_P_xor by (done || by rewrite H). f_equal.
  clear -Hi. do 10 (destruct i as [|i]; [vm_compute; reflexivity|]). lia.
Qed.

Lemma add_constant_Q_spec x i :
  length x = 16%nat -> words 32 x -> (i < 10)%nat ->
  words_bytes 4 (add_constant_Q x (Z.of_nat i * 0x01000000)) = add_Q (Z.of_nat i) (words_bytes 4 x).
Proof.
  intros H Hw Hi. assert (length (words_bytes 4 x) = 64%nat) as Hl by (by rewrite length_words_bytes, H).
  assert (add_constant_Q x (Z.of_nat i * 0x01000000) = xor_list x
    (concat (map (fun j => [0xffffffff; Z.lxor (constants_Q !!! j) (Z.of_nat i * 0x01000000)]) (seq 0 8)))) as ->.
  { clear Hl. sixteen x H. do 16 (apply Forall_cons_1 in Hw as [? Hw]).
    cbn [add_constant_Q foldl seq insert list_insert Nat.mul Nat.add lookup_total list_lookup_total].
    rewrite !notw_lxor by done. reflexivity. }
  rewrite words_bytes_xor, add_Q_xor by (done || by rewrite H). f_equal.
  clear -Hi. do 10 (destruct i as [|i]; [vm_compute; reflexivity|]). lia.
Qed.

(** ** The two permutations *)

Lemma words_bytes_byte x k : words 32 x -> length x = 16%nat -> (k < 64)%nat -> is_byte (words_bytes 4 x !!! k).
Proof.
  intros Hw H Hk. assert (length (words_bytes 4 x) = 64%nat) as Hl by (by rewrite length_words_bytes, H).
  destruct (lookup_lt_is_Some_2 (words_bytes 4 x) k ltac:(lia)) as [b Hb].
  rewrite (list_lookup_total_correct _ _ _ Hb). exact (Forall_lookup_1 _ _ _ _ (bytes_words_bytes 4 x) Hb).
Qed.

Lemma length_COLUMN x c0 c1 c2 c3 c4 c5 c6 c7 : length (COLUMN x c0 c1 c2 c3 c4 c5 c6 c7) = 2%nat.
Proof. Local Transparent COLUMN. reflexivity. Qed.
#[local] Opaque COLUMN.

Definition reads (x : list Z) (c : list nat) : Prop := forall k, (k < 8)%nat -> is_byte (picks x c k).

Lemma reads_bytes x c : bytes x -> length x = 64%nat -> Forall (fun n => n < 16)%nat c -> length c = 8%nat -> reads x c.
Proof.
  intros Hx Hl Hc Hlc k Hk. unfold picks.
  destruct (lookup_lt_is_Some_2 c k ltac:(lia)) as [n Hn]. rewrite (list_lookup_total_correct _ _ _ Hn).
  pose proof (Forall_lookup_1 _ _ _ _ Hc Hn). pose proof (Nat.mod_upper_bound k 4 ltac:(lia)).
  destruct (lookup_lt_is_Some_2 x (4 * n + k mod 4)%nat ltac:(cbv beta in *; lia)) as [b Hb].
  rewrite (list_lookup_total_correct _ _ _ Hb). exact (Forall_lookup_1 _ _ _ _ Hx Hb).
Qed.

Lemma COLUMN_ok x c0 c1 c2 c3 c4 c5 c6 c7 :
  bytes x -> length x = 64%nat -> forallb (fun n => n <? 16)%nat [c0; c1; c2; c3; c4; c5; c6; c7] = true ->
  words_bytes 4 (COLUMN x c0 c1 c2 c3 c4 c5 c6 c7) = mix_column (picks x [c0; c1; c2; c3; c4; c5; c6; c7]) /\
  words 32 (COLUMN x c0 c1 c2 c3 c4 c5 c6 c7).
Proof.
  intros Hx Hl Hc. apply COLUMN_spec. apply reads_bytes; auto.
  apply List.Forall_forall. intros n Hn. rewrite forallb_forall in Hc. by apply Nat.ltb_lt, Hc.
Qed.

(** A state: sixteen words. *)
Definition state (x : list Z) : Prop := length x = 16%nat /\ words 32 x.

Lemma add_constant_P_state x i : state x -> (i < 10)%nat -> length (add_constant_P x (Z.of_nat i)) = 16%nat.
Proof. intros [H _] _. unfold add_constant_P. cbn [foldl seq]. by rewrite !length_insert. Qed.

Lemma add_constant_Q_state x r : length x = 16%nat -> length (add_constant_Q x r) = 16%nat.
Proof. intros H. unfold add_constant_Q. cbn [foldl seq]. by rewrite !length_insert. Qed.

Lemma RND512P_spec x i :
  state x -> (i < 10)%nat ->
  words_bytes 4 (RND512P x (Z.of_nat i)) = mix_bytes (shift_bytes shift_P (sub_bytes (add_P (Z.of_nat i) (words_bytes 4 x)))) /\
  state (RND512P x (Z.of_nat i)).
Proof.
  intros Hx Hi. pose proof (add_constant_P_state x i Hx Hi) as Hl. destruct Hx as [Hx Hw].
  rewrite <- add_constant_P_spec by done. unfold RND512P. cbv zeta.
  pose proof (bytes_words_bytes 4 (add_constant_P x (Z.of_nat i))) as Hb.
  assert (length (words_bytes 4 (add_constant_P x (Z.of_nat i))) = 64%nat) as Hs by (by rewrite length_words_bytes, Hl).
  revert Hb Hs. generalize (words_bytes 4 (add_constant_P x (Z.of_nat i))) as s. clear. intros s Hb Hs. split.
  - rewrite <- columns_P, !words_bytes_app by done. by rewrite !(fun c0 c1 c2 c3 c4 c5 c6 c7 H => proj1 (COLUMN_ok s c0 c1 c2 c3 c4 c5 c6 c7 Hb Hs H)).
  - split; [by rewrite !length_app, !length_COLUMN|]. unfold words. rewrite !Forall_app.
    repeat split; by apply COLUMN_ok.
Qed.

Lemma RND512Q_spec x i :
  state x -> (i < 10)%nat ->
  words_bytes 4 (RND512Q x (Z.of_nat i * 0x01000000)) = mix_bytes (shift_bytes shift_Q (sub_bytes (add_Q (Z.of_nat i) (words_bytes 4 x)))) /\
  state (RND512Q x (Z.of_nat i * 0x01000000)).
Proof.
  intros [Hx Hw] Hi. pose proof (add_constant_Q_state x (Z.of_nat i * 0x01000000) Hx) as Hl.
  rewrite <- add_constant_Q_spec by done. unfold RND512Q. cbv zeta.
  pose proof (bytes_words_bytes 4 (add_constant_Q x (Z.of_nat i * 0x01000000))) as Hb.
  assert (length (words_bytes 4 (add_constant_Q x (Z.of_nat i * 0x01000000))) = 64%nat) as Hs by (by rewrite length_words_bytes, Hl).
  revert Hb Hs. generalize (words_bytes 4 (add_constant_Q x (Z.of_nat i * 0x01000000))) as s. clear. intros s Hb Hs. split.
  - rewrite <- columns_Q, !words_bytes_app by done. by rewrite !(fun c0 c1 c2 c3 c4 c5 c6 c7 H => proj1 (COLUMN_ok s c0 c1 c2 c3 c4 c5 c6 c7 Hb Hs H)).
  - split; [by rewrite !length_app, !length_COLUMN|]. unfold words. rewrite !Forall_app.
    repeat split; by apply COLUMN_ok.
Qed.

(** A sequence of rounds that simulates one on bytes. *)
Lemma rounds_sim (f g : list Z -> nat -> list Z) n x :
  (forall x i, state x -> (i < n)%nat -> words_bytes 4 (f x i) = g (words_bytes 4 x) i /\ state (f x i)) -> state x ->
  words_bytes 4 (foldl f x (seq 0 n)) = foldl g (words_bytes 4 x) (seq 0 n) /\ state (foldl f x (seq 0 n)).
Proof.
  intros H Hx. assert (forall k, (k <= n)%nat -> words_bytes 4 (foldl f x (seq 0 k)) = foldl g (words_bytes 4 x) (seq 0 k) /\ state (foldl f x (seq 0 k))) as Hk; [|by apply Hk].
  induction k as [|k IH]; intros Hk; [done|]. destruct (IH ltac:(lia)) as [E Hs].
  rewrite !seq_S, !foldl_app, <- E. cbn [foldl]. apply H; [done|lia].
Qed.

#[local] Opaque RND512P RND512Q.

Lemma rounds_P_spec x : state x -> words_bytes 4 (rounds_P x) = ref_P (words_bytes 4 x) /\ state (rounds_P x).
Proof. intros Hx. unfold rounds_P, ref_P. apply (rounds_sim _ (fun s i => mix_bytes _)); [|done]. intros y i Hy Hi. by apply RND512P_spec. Qed.

Lemma rounds_Q_spec x : state x -> words_bytes 4 (rounds_Q x) = ref_Q (words_bytes 4 x) /\ state (rounds_Q x).
Proof. intros Hx. unfold rounds_Q, ref_Q. apply (rounds_sim _ (fun s i => mix_bytes _)); [|done]. intros y i Hy Hi. by apply RND512Q_spec. Qed.

#[local] Opaque rounds_P rounds_Q ref_P ref_Q.

Lemma state_xor x y : state x -> state y -> state (xor_list x y).
Proof. intros [H1 H2] [H3 H4]. split; [by rewrite length_xor_list; [|congruence]|]. apply words_xor_list; lia || done. Qed.

Lemma state_le_words s : bytes s -> state (le_words 4 16 s).
Proof. intros H. split; [apply length_le_words|]. exact (words_le_words 4 16 s H). Qed.

Lemma F512_spec h m : state h -> state m -> words_bytes 4 (F512 h m) = ref_f (words_bytes 4 h) (words_bytes 4 m) /\ state (F512 h m).
Proof.
  intros Hh Hm. unfold F512, ref_f. cbv zeta.
  destruct (rounds_P_spec (xor_list h m)) as [E1 S1]; [by apply state_xor|]. destruct (rounds_Q_spec m Hm) as [E2 S2].
  split; [|apply state_xor; [exact Hh|apply state_xor; [exact S1|exact S2]]].
  assert (forall a b, state a -> state b -> words_bytes 4 (xor_list a b) = xor_list (words_bytes 4 a) (words_bytes 4 b)) as X.
  { intros a b [? _] [? _]. apply words_bytes_xor. congruence. }
  rewrite (X h), (X (rounds_P _)), E1, E2, (X h m) by (assumption || (apply state_xor; assumption)). reflexivity.
Qed.

#[local] Opaque F512 ref_f.

(** ** The context *)

(** A context: its chaining value as bytes, the number of blocks absorbed,
    the buffer, its pointer and the bits of the last byte. *)
Record holds (c : gstate) (h : list Z) (N : Z) (buf : list Z) (p b : Z) : Prop := {
  holds_state : state (chaining c);
  holds_chain : words_bytes 4 (chaining c) = h;
  holds_c1 : word 32 (counter1 c);
  holds_c2 : 0 <= counter2 c;
  holds_count : counter1 c + 2 ^ 32 * counter2 c = N;
  holds_buffer : buffer c = buf;
  holds_ptr : buf_ptr c = p;
  holds_bilb : bilb c = b
}.

Lemma holds_set_buffer c h N buf p b p' buf' : holds c h N buf p b -> holds (set_buffer p' buf' c) h N buf' p' b.
Proof. by destruct 1. Qed.

Lemma holds_set_bilb c h N buf p b b' : holds c h N buf p b -> holds (set_bilb b' c) h N buf p b'.
Proof. by destruct 1. Qed.

Lemma count_blocks_spec c h N buf p b : holds c h N buf p b -> N + 1 < 2 ^ 64 -> holds (count_blocks c) h (N + 1) buf p b.
Proof.
  destruct 1 as [H1 H2 H3 H3' H4 H5 H6 H7]. intros HN. unfold word in H3. unfold count_blocks, addw, uwrap.
  split; cbn [chaining counter1 counter2 buffer buf_ptr bilb]; [done|done|apply word_uwrap; lia| | |done|done|done];
    [destruct (_ =? 0); [apply Z.mod_pos_bound|]; lia|].
  assert (counter1 c + 1 < 2 ^ 32 \/ counter1 c + 1 = 2 ^ 32) as [E|E] by lia.
  - rewrite Z.mod_small by lia. destruct (Z.eqb_spec (counter1 c + 1) 0); lia.
  - rewrite E, Z.mod_same by lia. cbn [Z.eqb]. rewrite Z.mod_small; lia.
Qed.

Lemma holds_F512 c h N buf p b D :
  holds c h N buf p b -> bytes D -> (64 <= length D)%nat ->
  holds (set_chaining (F512 (chaining c) (le_words 4 16 D)) c) (ref_f h (take 64 D)) N buf p b.
Proof.
  destruct 1 as [H1 H2 H3 H3' H4 H5 H6 H7]. intros HD Hl.
  destruct (F512_spec (chaining c) (le_words 4 16 D) H1 (state_le_words D HD)) as [E S].
  split; cbn [set_chaining chaining counter1 counter2 buffer buf_ptr bilb]; try done.
  rewrite E, H2. f_equal. rewrite <- (le_words_take 4 16 64) by lia.
  apply words_bytes_le_words; [by apply bytes_take|]. rewrite length_take. lia.
Qed.

Lemma Transform_loop_spec k r : forall c h N buf p b D,
  holds c h N buf p b -> bytes D -> (64 * k <= length D)%nat -> (r < 64)%nat -> N + Z.of_nat k < 2 ^ 64 ->
  yields (Transform_loop k c D (Z.of_nat (64 * k + r))) (fun c' => holds c' (ref_chain h D k) (N + Z.of_nat k) buf p b).
Proof.
  induction k as [|k IH]; intros c h N buf p b D H HD Hl Hr HN; cbn [Transform_loop].
  - destruct (Z.ltb_spec (Z.of_nat (64 * 0 + r)) 64); [|lia]. apply yields_ret. by rewrite Z.add_0_r.
  - destruct (Z.ltb_spec (Z.of_nat (64 * S k + r)) 64); [lia|].
    destruct (Nat.ltb_spec (length D) 64); [lia|]. cbn [fold_blocks]. cbv zeta.
    replace (Z.of_nat (64 * S k + r) - 64) with (Z.of_nat (64 * k + r)) by lia.
    replace (N + Z.of_nat (S k)) with (N + 1 + Z.of_nat k) by lia.
    apply IH; [|by apply bytes_drop|rewrite length_drop; lia|done|lia].
    apply count_blocks_spec; [|lia]. by apply holds_F512; [|done|lia].
Qed.

Lemma Transform_spec c h N buf p b D n :
  holds c h N buf p b -> bytes D -> (n <= length D)%nat -> N + Z.of_nat (n / 64) < 2 ^ 64 ->
  yields (Transform c D (Z.of_nat n)) (fun c' => holds c' (ref_chain h D (n / 64)) (N + Z.of_nat (n / 64)) buf p b).
Proof.
  intros H HD Hl HN. unfold Transform. change 64 with (Z.of_nat 64) at 1. rewrite <- Nat2Z.inj_div, Nat2Z.id.
  pose proof (Nat.div_mod n 64 ltac:(lia)) as E. pose proof (Nat.mod_upper_bound n 64 ltac:(lia)).
  rewrite E at 2. apply Transform_loop_spec; auto; lia.
Qed.

Lemma store_spec c h N buf p b D k :
  holds c h N buf (Z.of_nat p) b -> (k <= length D)%nat -> (p + k <= 64)%nat ->
  yields (store c D (Z.of_nat k)) (fun c' => holds c' h N (take p buf ++ take k D ++ drop (p + k) buf) (Z.of_nat (p + k)) b).
Proof.
  intros H Hk Hp. unfold store. rewrite (holds_ptr _ _ _ _ _ _ H), (holds_buffer _ _ _ _ _ _ H), !Nat2Z.id.
  destruct (Z.ltb_spec (Z.of_nat (length D)) (Z.of_nat k)); [lia|]. destruct (Z.ltb_spec 64 (Z.of_nat p + Z.of_nat k)); [lia|].
  apply yields_ret. rewrite <- Nat2Z.inj_add. by eapply holds_set_buffer.
Qed.

Definition iv256 : list Z := replicate 62 0 ++ [1; 0].

(** The bytes [M] are absorbed: [q] blocks of them are compressed, the rest is
    in the buffer; [b] is the number of bits of the last byte that count. *)
Definition absorbed (c : gstate) (M : list Z) (q : nat) (b : Z) : Prop :=
  exists buf, holds c (ref_chain iv256 M q) (Z.of_nat q) buf (Z.of_nat (length M - 64 * q)) b /\
    bytes buf /\ length buf = 64%nat /\ (64 * q <= length M <= 64 * q + 64)%nat /\ take (length M - 64 * q) buf = drop (64 * q) M.

Lemma absorbed_store c M q b D k :
  absorbed c M q b -> bytes D -> (k <= length D)%nat -> (length M + k <= 64 * q + 64)%nat ->
  yields (store c D (Z.of_nat k)) (fun c' => absorbed c' (M ++ take k D) q b).
Proof.
  intros (buf & H & Hb & Hl & Hq & E) HD Hk HM. eapply yields_mono; [by eapply store_spec; [exact H|done|lia]|].
  intros c' H'. cbv beta in H'. assert (length (M ++ take k D) = length M + k)%nat as EL by (rewrite length_app, length_take; lia).
  eexists. unfold absorbed. rewrite EL, fold_blocks_prefix by lia.
  replace (length M + k - 64 * q)%nat with (length M - 64 * q + k)%nat by lia.
  split; [exact H'|]. split; [by repeat apply bytes_app; try apply bytes_take; try apply bytes_drop|].
  split; [rewrite !length_app, !length_take, length_drop; lia|]. split; [lia|].
  rewrite app_assoc, take_app_length' by (rewrite length_app, !length_take; lia).
  rewrite drop_app_le by lia. by rewrite E.
Qed.

(** A full buffer is compressed. *)
Lemma absorbed_block c M q b :
  absorbed c M q b -> length M = (64 * q + 64)%nat -> Z.of_nat q + 1 < 2 ^ 64 -> bytes M ->
  yields (let* c := Transform c (buffer c) 64 in Ret (set_buffer 0 (buffer c) c)) (fun c' => absorbed c' M (q + 1) b).
Proof.
  intros (buf & H & Hb & Hl & Hq & E) HM HN HbM. rewrite (holds_buffer _ _ _ _ _ _ H). change 64 with (Z.of_nat 64).
  eapply yields_bind; [eapply Transform_spec; [exact H|done|lia|change (64 / 64)%nat with 1%nat; lia]|].
  intros c' H'. apply yields_ret. cbv beta in H'. change (64 / 64)%nat with 1%nat in H'.
  replace (length M - 64 * q)%nat with 64%nat in * by lia.
  exists buf. replace (length M - 64 * (q + 1))%nat with 0%nat by lia.
  rewrite (holds_buffer _ _ _ _ _ _ H'). split; [|split; [done|split; [done|split; [lia|by rewrite drop_ge by lia]]]].
  replace (ref_chain iv256 M (q + 1)) with (ref_chain (ref_chain iv256 M q) buf 1).
  - rewrite Nat2Z.inj_add. by eapply holds_set_buffer.
  - rewrite <- (take_drop (64 * q) M) at 2. rewrite fold_blocks_app by (rewrite length_take; lia).
    assert (take 64 buf = buf) as Et by (apply take_ge; lia). rewrite <- E, Et. apply (f_equal (fun h => ref_chain h buf 1)).
    rewrite <- (take_drop (64 * q) M) at 1. apply fold_blocks_prefix. rewrite length_take. lia.
Qed.

(** ** Padding *)

Lemma pad_zeros_spec c M q :
  absorbed c M q 0 -> bytes M -> (64 * q < length M)%nat -> Z.of_nat q + 1 < 2 ^ 64 ->
  let Z0 := M ++ replicate ((120 - length M mod 64) mod 64) 0 in
  exists q', (length Z0 = 64 * q' + 56)%nat /\ yields (pad_zeros c) (fun c' => absorbed c' Z0 q' 0).
Proof.
  intros H HM Hl Hq Z0. pose proof H as (buf & Hh & _ & _ & Hr & _). unfold pad_zeros. rewrite (holds_ptr _ _ _ _ _ _ Hh).
  assert (bytes (replicate 64 0)) as Hz by (apply Forall_replicate; unfold is_byte; lia).
  set (t := (length M - 64 * q)%nat) in *. assert (length M = 64 * q + t)%nat as EL by lia.
  destruct (Z.ltb_spec 56 (Z.of_nat t)).
  - assert (Z0 = (M ++ take (64 - t) (replicate 64 0)) ++ take 56 (replicate 64 0)) as ->.
    { unfold Z0. rewrite <- app_assoc, !take_replicate, <- replicate_add. do 2 f_equal. rewrite EL.
      assert (t = 64 \/ t < 64)%nat as [->|] by lia.
      - replace (64 * q + 64)%nat with ((q + 1) * 64)%nat by lia. rewrite Nat.Div0.mod_mul. reflexivity.
      - rewrite (Nat.add_comm (64 * q)), (Nat.mul_comm 64), Nat.Div0.mod_add, (Nat.mod_small t), Nat.mod_small by lia. lia. }
    exists (q + 1)%nat. split; [rewrite !length_app, !take_replicate, !length_replicate; lia|].
    replace (64 - Z.of_nat t) with (Z.of_nat (64 - t)) by lia.
    eapply yields_bind.
    + eapply yields_bind; [eapply absorbed_store; [exact H|exact Hz|rewrite length_replicate; lia|lia]|].
      intros c1 H1. eapply absorbed_block; [exact H1|rewrite length_app, take_replicate, length_replicate; lia|lia|].
      apply bytes_app; [done|by apply bytes_take].
    + intros c2 H2. pose proof H2 as (buf2 & Hh2 & _). rewrite (holds_ptr _ _ _ _ _ _ Hh2).
      replace (56 - _) with (Z.of_nat 56) by (rewrite length_app, take_replicate, length_replicate; lia).
      eapply absorbed_store; [exact H2|exact Hz|rewrite length_replicate; lia|].
      rewrite length_app, take_replicate, length_replicate. lia.
  - assert (Z0 = M ++ take (56 - t) (replicate 64 0)) as ->.
    { unfold Z0. rewrite take_replicate. do 2 f_equal. rewrite EL.
      rewrite (Nat.add_comm (64 * q)), (Nat.mul_comm 64), Nat.Div0.mod_add, (Nat.mod_small t) by lia.
      replace (120 - t)%nat with (56 - t + 1 * 64)%nat by lia. rewrite Nat.Div0.mod_add, Nat.mod_small by lia. lia. }
    exists q. split; [rewrite length_app, take_replicate, length_replicate; lia|]. cbn [bind].
    rewrite (holds_ptr _ _ _ _ _ _ Hh). replace (56 - Z.of_nat t) with (Z.of_nat (56 - t)) by lia.
    eapply absorbed_store; [exact H|exact Hz|rewrite length_replicate; lia|lia].
Qed.

(** The message as it is stored, with its partial last byte. *)
Definition open_bits (data : list Z) (bits : nat) : list Z :=
  take (bits / 8) data ++ if (bits mod 8 =? 0)%nat then [] else [data !!! (bits / 8)%nat].

(** The byte after [A] is overwritten and becomes the last one. *)
Lemma absorbed_put c A tl q b v c' :
  absorbed c (A ++ tl) q b -> (64 * q <= length A < 64 * q + 64)%nat -> is_byte v ->
  c' = set_bilb 0 (set_buffer (Z.of_nat (length A - 64 * q + 1)) (<[(length A - 64 * q)%nat := v]> (buffer c)) c) ->
  absorbed c' (A ++ [v]) q 0.
Proof.
  intros (buf & H & Hb & Hl & Hq & E) HA Hv ->. rewrite (holds_buffer _ _ _ _ _ _ H).
  set (i := (length A - 64 * q)%nat) in *. rewrite length_app in Hq, E. rewrite !fold_blocks_prefix in H by lia.
  assert (length (A ++ [v]) - 64 * q = i + 1)%nat as EL by (rewrite length_app; simpl; lia).
  exists (<[i := v]> buf). rewrite EL, fold_blocks_prefix by lia.
  split; [eapply holds_set_bilb, holds_set_buffer; exact H|].
  split; [by apply Forall_insert|]. split; [by rewrite length_insert|]. split; [rewrite length_app; simpl; lia|].
  assert (take i buf = drop (64 * q) A) as Ei.
  { rewrite drop_app_le in E by lia. apply (f_equal (take i)) in E. rewrite take_take in E. rewrite Nat.min_l in E by lia.
    rewrite E, take_app_length' by (rewrite length_drop; lia). done. }
  rewrite drop_app_le, <- Ei by lia. rewrite insert_take_drop by lia.
  rewrite take_app, length_take, take_take, (Nat.min_l i) by lia.
  replace (i + 1 - i)%nat with 1%nat by lia. rewrite Nat.min_r by lia. done.
Qed.

Lemma mask_spec d m :
  is_byte d -> 1 <= m <= 7 ->
  Z.lxor (Z.land d (Z.shiftl (Z.shiftl 1 m - 1) (8 - m))) (Z.shiftl 1 (7 - m)) = d / 2 ^ (8 - m) * 2 ^ (8 - m) + 2 ^ (7 - m).
Proof.
  intros Hd Hm.
  assert (m = 1 \/ m = 2 \/ m = 3 \/ m = 4 \/ m = 5 \/ m = 6 \/ m = 7) as Hc by lia.
  pose proof (byte_cases (fun d => forallb (fun m =>
    Z.lxor (Z.land d (Z.shiftl (Z.shiftl 1 m - 1) (8 - m))) (Z.shiftl 1 (7 - m)) =? d / 2 ^ (8 - m) * 2 ^ (8 - m) + 2 ^ (7 - m))
    [1; 2; 3; 4; 5; 6; 7]) ltac:(vm_compute; reflexivity) d Hd) as H. cbv beta in H. rewrite forallb_forall in H.
  apply Z.eqb_eq, H. simpl. intuition congruence.
Qed.

Lemma mask_byte d m : is_byte d -> 1 <= m <= 7 -> is_byte (d / 2 ^ (8 - m) * 2 ^ (8 - m) + 2 ^ (7 - m)).
Proof.
  intros Hd Hm. assert (m = 1 \/ m = 2 \/ m = 3 \/ m = 4 \/ m = 5 \/ m = 6 \/ m = 7) as Hc by lia. unfold is_byte in *.
  destruct Hc as [->|[->|[->|[->|[->|[->| ->]]]]]]; pow_consts; Z.to_euclidean_division_equations; lia.
Qed.

Section Message.
Context (data : list Z) (bits : nat) (Hdata : bytes data) (Hlen : ((bits + 7) / 8 <= length data)%nat).
#[local] Abbreviation n := (bits / 8)%nat.
#[local] Abbreviation m := (bits mod 8)%nat.

Lemma n_le : (n <= length data)%nat.
Proof. etrans; [|exact Hlen]. apply Nat.Div0.div_le_mono. lia. Qed.

Lemma n_lt : m <> 0%nat -> (n < length data)%nat.
Proof.
  intros H. apply Nat.lt_le_trans with ((bits + 7) / 8)%nat; [|exact Hlen].
  pose proof (Nat.div_mod bits 8 ltac:(lia)). apply Nat.div_le_lower_bound; lia.
Qed.

Lemma last_is_byte : m <> 0%nat -> is_byte (data !!! n).
Proof.
  intros H. destruct (lookup_lt_is_Some_2 data n (n_lt H)) as [d Ed].
  rewrite (list_lookup_total_correct _ _ _ Ed). exact (Forall_lookup_1 _ _ _ _ Hdata Ed).
Qed.

Lemma length_take_n : length (take n data) = n.
Proof. rewrite length_take. pose proof n_le. lia. Qed.

Lemma blocks_n : (64 * (n / 64) <= n < 64 * (n / 64) + 64)%nat.
Proof. pose proof (Nat.div_mod n 64 ltac:(lia)). pose proof (Nat.mod_upper_bound n 64 ltac:(lia)). lia. Qed.

Lemma pad_one_spec c :
  absorbed c (open_bits data bits) (n / 64) (Z.of_nat m) ->
  yields (pad_one c) (fun c' => absorbed c' (close_bits data bits) (n / 64) 0).
Proof.
  intros H. pose proof H as (buf & Hh & Hb & Hl & Hq & E). unfold pad_one, put_byte, close_bits.
  rewrite (holds_bilb _ _ _ _ _ _ Hh), (holds_ptr _ _ _ _ _ _ Hh). cbv zeta.
  pose proof blocks_n as Hn. pose proof length_take_n as Htn. pose proof (Nat.mod_upper_bound bits 8 ltac:(lia)) as Hm.
  unfold open_bits in *. rewrite length_app, Htn in *.
  set (i := (n - 64 * (n / 64))%nat).
  destruct (lookup_lt_is_Some_2 buf i ltac:(lia)) as [d Ed].
  destruct (Nat.eqb_spec m 0) as [Em|Em]; cbn [length] in *.
  - destruct (Z.eqb_spec (Z.of_nat m) 0) as [Ez|Ez]; [|lia]. cbn [negb].
    rewrite (holds_buffer _ _ _ _ _ _ Hh), (index_lookup buf _ d) by (rewrite ?Nat2Z.id, ?Nat.add_0_r; lia || exact Ed).
    cbn [bind]. apply yields_ret. eapply absorbed_put; [exact H|rewrite Htn; lia|unfold is_byte; lia|].
    rewrite Htn. cbn [set_buffer buf_ptr buffer]. rewrite Nat2Z.id, (holds_buffer _ _ _ _ _ _ Hh).
    unfold set_bilb, set_buffer. cbn [chaining counter1 counter2 buffer buf_ptr bilb].
    rewrite (holds_bilb _ _ _ _ _ _ Hh), Em, !Nat.add_0_r. f_equal. lia.
  - destruct (Z.eqb_spec (Z.of_nat m) 0) as [Ez|Ez]; [lia|]. cbn [negb].
    replace (Z.of_nat (n + 1 - 64 * (n / 64)) - 1) with (Z.of_nat i) by lia.
    assert (d = data !!! n) as ->.
    { apply (f_equal (fun l => l !! i)) in E. rewrite lookup_take_lt, Ed in E by lia.
      rewrite drop_app_le, lookup_app_r in E by (rewrite ?length_drop; lia). rewrite length_drop, Htn in E.
      replace (i - (n - 64 * (n / 64)))%nat with 0%nat in E by lia. by injection E. }
    rewrite (holds_buffer _ _ _ _ _ _ Hh), (index_lookup buf _ (data !!! n)) by (rewrite ?Nat2Z.id; lia || exact Ed).
    cbn [bind]. apply yields_ret. pose proof (last_is_byte Em) as Hd. rewrite mask_spec by (done || lia).
    eapply absorbed_put; [exact H|rewrite Htn; lia|apply mask_byte; [done|lia]|].
    rewrite Htn, Nat2Z.id, (holds_buffer _ _ _ _ _ _ Hh).
    unfold set_bilb, set_buffer. cbn [chaining counter1 counter2 buffer buf_ptr bilb].
    f_equal. lia.
Qed.

Lemma absorbed_bilb c M q b b' : absorbed c M q b -> absorbed (set_bilb b' c) M q b'.
Proof. intros (buf & H & R). exists buf. split; [by eapply holds_set_bilb|done]. Qed.

Lemma Init_holds c0 : holds (groestl_Init c0) iv256 0 (buffer c0) 0 0.
Proof. split; try done. split; [done|]. apply (bool_decide_unpack _). vm_compute. exact Logic.I. Qed.

Lemma Update_spec c0 :
  bytes (buffer c0) -> length (buffer c0) = 64%nat -> Z.of_nat n < 2 ^ 31 ->
  yields (groestl_Update (groestl_Init c0) data (Z.of_nat bits)) (fun c => absorbed c (open_bits data bits) (n / 64) (Z.of_nat m)).
Proof.
  intros Hb0 Hl0 H31. unfold groestl_Update. cbn [groestl_Init buf_ptr Z.eqb]. cbv zeta.
  assert (Z.of_nat bits / 8 = Z.of_nat n) as -> by (rewrite Nat2Z.inj_div; done).
  assert (Z.of_nat bits mod 8 = Z.of_nat m) as -> by (rewrite Nat2Z.inj_mod; done).
  rewrite swrap_id by lia.
  pose proof blocks_n as Hn. pose proof n_le as Hnl. pose proof length_take_n as Htn.
  assert (Z.quot (Z.of_nat n) 64 * 64 = Z.of_nat (64 * (n / 64))) as ->.
  { rewrite Z.quot_div_nonneg by lia. change 64 with (Z.of_nat 64) at 1. rewrite <- Nat2Z.inj_div. lia. }
  rewrite Z.max_r, (Z.max_r (Z.of_nat (64 * (n / 64)))), !Nat2Z.id by lia.
  eapply yields_bind; [eapply Transform_spec; [apply Init_holds|exact Hdata|lia|lia]|]. intros c1 H1. cbv beta in H1.
  assert (absorbed c1 (take (64 * (n / 64)) data) (n / 64) 0) as A1.
  { exists (buffer c0). rewrite length_take, Nat.min_l by lia. rewrite Nat.sub_diag, drop_ge by (rewrite length_take; lia).
    split; [|split; [done|split; [done|split; [lia|done]]]].
    rewrite <- (fold_blocks_prefix _ _ iv256 (take _ data) (drop (64 * (n / 64)) data)) by (rewrite length_take; lia).
    by rewrite take_drop. }
  replace (Z.of_nat n - Z.of_nat (64 * (n / 64))) with (Z.of_nat (n - 64 * (n / 64))) by lia.
  eapply yields_bind; [eapply absorbed_store; [exact A1|by apply bytes_drop|rewrite length_drop; lia|rewrite length_take; lia]|].
  intros c2 H2. cbv beta in H2. rewrite <- take_take_app in H2 by lia. unfold store_rem, open_bits.
  pose proof (Nat.mod_upper_bound bits 8 ltac:(lia)) as Hm.
  destruct (Nat.eqb_spec m 0) as [Em|Em]; destruct (Z.eqb_spec (Z.of_nat m) 0) as [Ez|Ez]; try lia.
  - apply yields_ret. by rewrite app_nil_r, Ez.
  - destruct (Z.ltb_spec (Z.of_nat n) 0); [lia|]. rewrite Nat2Z.id. pose proof (n_lt Em) as Hlt.
    destruct (lookup_lt_is_Some_2 data n Hlt) as [d Ed].
    rewrite (list_lookup_total_correct _ _ _ Ed).
    replace [d] with (take 1 (drop n data)) by (by rewrite (drop_S _ _ _ Ed)).
    apply (absorbed_store _ _ _ _ _ 1); [by eapply absorbed_bilb|by apply bytes_drop|rewrite length_drop; lia|rewrite Htn; lia].
Qed.

Lemma bytes_close_bits : bytes (close_bits data bits).
Proof.
  unfold close_bits. apply bytes_app; [by apply bytes_take|]. apply List.Forall_cons; [|apply List.Forall_nil].
  destruct (Nat.eqb_spec m 0) as [Em|Em]; [unfold is_byte; lia|].
  pose proof (Nat.mod_upper_bound bits 8 ltac:(lia)). apply mask_byte; [by apply last_is_byte|lia].
Qed.

Lemma length_close_bits : length (close_bits data bits) = (n + 1)%nat.
Proof. unfold close_bits. rewrite length_app, length_take_n. done. Qed.

(** The last block, with the number of blocks in its last eight bytes. *)
Lemma last_block c Z0 q :
  absorbed c Z0 q 0 -> bytes Z0 -> (length Z0 = 64 * q + 56)%nat -> Z.of_nat q + 2 < 2 ^ 64 ->
  yields (let c := put_length (count_blocks c) in Transform c (buffer c) 64)
    (fun c' => state (chaining c') /\ words_bytes 4 (chaining c') = ref_chain iv256 (Z0 ++ be_bytes 8 (Z.of_nat (q + 1))) (q + 1)).
Proof.
  intros (buf & H & Hb & Hl & _ & E) HZ HL Hq. replace (length Z0 - 64 * q)%nat with 56%nat in * by lia.
  apply count_blocks_spec in H; [|lia]. destruct H as [H1 H2 H3 H3' H4 H5 H6 H7].
  assert (length_field (count_blocks c) = be_bytes 8 (Z.of_nat (q + 1))) as El.
  { unfold length_field. rewrite (be_bytes_app 4 4) by exact H3. change (2 ^ (8 * Z.of_nat 4)) with (2 ^ 32). rewrite H4. f_equal. lia. }
  set (last := drop (64 * q) Z0 ++ be_bytes 8 (Z.of_nat (q + 1))).
  assert (length last = 64)%nat as Hll by (unfold last; rewrite length_app, length_drop, length_be_bytes; lia).
  assert (bytes last) as Hbl by (apply bytes_app; [by apply bytes_drop|apply bytes_be_bytes]).
  assert (holds (put_length (count_blocks c)) (ref_chain iv256 Z0 q) 0 last 56 0) as Hp.
  { split; try done. cbn [put_length buffer]. by rewrite H5, El, E. }
  cbv zeta. rewrite (holds_buffer _ _ _ _ _ _ Hp). change 64 with (Z.of_nat 64).
  eapply yields_mono; [eapply Transform_spec; [exact Hp|exact Hbl|lia|done]|].
  intros c' H. split; [exact (holds_state _ _ _ _ _ _ H)|]. rewrite (holds_chain _ _ _ _ _ _ H). change (64 / 64)%nat with 1%nat.
  replace (Z0 ++ be_bytes 8 (Z.of_nat (q + 1))) with (take (64 * q) Z0 ++ last) by (unfold last; by rewrite app_assoc, take_drop).
  rewrite fold_blocks_app by (rewrite length_take; lia). apply (f_equal (fun h => ref_chain h last 1)).
  rewrite <- (take_drop (64 * q) Z0) at 1. apply fold_blocks_prefix. rewrite length_take. lia.
Qed.

Lemma Final_spec c :
  absorbed c (open_bits data bits) (n / 64) (Z.of_nat m) -> Z.of_nat n < 2 ^ 31 ->
  yields (groestl_Final c) (fun r => fst r = groestl_ref (close_bits data bits)).
Proof.
  intros H H31. unfold groestl_Final. eapply yields_bind; [by apply pad_one_spec|]. intros c1 H1. cbv beta in H1.
  pose proof blocks_n as Hn. pose proof length_close_bits as Hc. pose proof bytes_close_bits as Hbc.
  destruct (pad_zeros_spec c1 (close_bits data bits) (n / 64) H1 Hbc ltac:(lia) ltac:(lia)) as (q & Hq & H2).
  eapply yields_bind; [exact H2|]. intros c2 H3. cbv beta in H3.
  assert (forall (k : gstate -> outcome (list Z * gstate)) Q, yields (bind (let c := put_length (count_blocks c2) in Transform c (buffer c) 64) k) Q ->
    yields (let c := count_blocks c2 in let c := put_length c in bind (Transform c (buffer c) 64) k) Q) as Hk by (intros k Q HQ; exact HQ).
  apply Hk. clear Hk. unfold groestl_ref, groestl_pad. cbv zeta. set (Z0 := close_bits data bits ++ replicate _ 0) in *.
  assert (bytes Z0) as HZ by (apply bytes_app; [done|apply Forall_replicate; unfold is_byte; lia]).
  assert (length Z0 / 64 = q)%nat as Eq by (rewrite Hq, Nat.add_comm, Nat.mul_comm, Nat.div_add, Nat.div_small by lia; lia).
  assert (length (Z0 ++ be_bytes 8 (Z.of_nat (q + 1))) / 64 = q + 1)%nat as Eq'.
  { rewrite length_app, Hq, length_be_bytes. replace (64 * q + 56 + 8)%nat with ((q + 1) * 64)%nat by lia. by apply Nat.div_mul. }
  assert (Z.of_nat q + 2 < 2 ^ 64) as Hq64.
  { unfold Z0 in Hq. rewrite length_app, length_replicate, Hc in Hq.
    pose proof (Nat.mod_upper_bound (120 - (n + 1) mod 64) 64 ltac:(lia)). lia. }
  eapply yields_bind; [by apply last_block|]. intros c3 [S3 E3]. cbv beta zeta in *. apply yields_ret. cbn [fst].
  rewrite Eq, Eq'. fold iv256. rewrite <- E3. unfold OutputTransformation, set_chaining. cbn [chaining].
  destruct (rounds_P_spec _ S3) as [EP [SP _]]. destruct S3 as [S3 _].
  rewrite words_bytes_xor, EP by congruence. f_equal. apply xor_list_comm.
Qed.
End Message.

Lemma groestl_spec c0 data bits :
  bytes (buffer c0) -> length (buffer c0) = 64%nat -> bytes data -> ((bits + 7) / 8 <= length data)%nat ->
  Z.of_nat bits < 2 ^ 34 -> groestl c0 data (Z.of_nat bits) = Ret (groestl_ref (close_bits data bits)).
Proof.
  intros Hb Hl HD Hn H34. assert (Z.of_nat (bits / 8) < 2 ^ 31) as H31.
  { rewrite Nat2Z.inj_div. apply Z.div_lt_upper_bound; lia. }
  unfold groestl. destruct (Update_spec data bits HD Hn c0 Hb Hl H31) as (c & -> & Hc). cbn [bind].
  destruct (Final_spec data bits HD Hn c Hc H31) as ([out c'] & -> & E). cbn [bind fst] in *. by rewrite E.
Qed.

(** C38: Groestl-256 of a message of bits: the column look-ups with their word
    rotations, the two permutations with alternating buffers, the buffered
    message, the masked last byte, the padding in one or two blocks and the
    two-word block counter give the digest of the definition, for messages
    of fewer than 2^31 bytes and whatever the uninitialised context holds. *)
Theorem groestl_correct c0 data bits :
  bytes (buffer c0) -> length (buffer c0) = 64%nat -> bytes data -> ((bits + 7) / 8 <= length data)%nat ->
  Z.of_nat bits < 2 ^ 34 -> groestl c0 data (Z.of_nat bits) = Ret (groestl_ref (close_bits data bits)).
Proof. apply groestl_spec. Qed.

Definition blank : gstate := {| chaining := replicate 16 7; counter1 := 5; counter2 := 6; buffer := replicate 64 9; buf_ptr := 3; bilb := 2 |}.

Lemma groestl_correct_witness : groestl blank [0xab; 0xcd] (Z.of_nat 13) = Ret (groestl_ref (close_bits [0xab; 0xcd] 13)).
Proof. apply groestl_correct; [by apply bytesb_true|done|by apply bytesb_true|simpl; lia|done]. Defined.

(** [hash_extra_groestl]: the digest of the whole byte string. *)
Theorem hash_extra_groestl_correct c0 data :
  bytes (buffer c0) -> length (buffer c0) = 64%nat -> bytes data -> Z.of_nat (length data) < 2 ^ 31 ->
  hash_extra_groestl c0 data (Z.of_nat (length data)) = Ret (groestl_ref (data ++ [0x80])).
Proof.
  intros Hb Hl HD H31. unfold hash_extra_groestl. rewrite uwrap_small by lia.
  replace (Z.of_nat (length data) * 8) with (Z.of_nat (8 * length data)) by lia.
  assert ((8 * length data) / 8 = length data)%nat as E8 by (rewrite Nat.mul_comm; by apply Nat.div_mul).
  rewrite groestl_spec; auto; [| |lia].
  - unfold close_bits. rewrite E8, Nat.mul_comm, Nat.Div0.mod_mul. cbn [Nat.eqb]. by rewrite take_ge by lia.
  - apply Nat.lt_succ_r. apply Nat.Div0.div_lt_upper_bound. lia.
Qed.

Lemma hash_extra_groestl_correct_witness :
  hash_extra_groestl blank (replicate 60 0xa5) 60 = Ret (groestl_ref (replicate 60 0xa5 ++ [0x80])).
Proof. apply (hash_extra_groestl_correct blank (replicate 60 0xa5)); [by apply bytesb_true|done|by apply bytesb_true|done]. Defined.

(** The byte length is an [int]: lengths that differ by a multiple of
    2^32 bytes give the same digest, whatever the longer message holds. *)
Theorem groestl_length_wraps c0 data bits k :
  0 <= k -> groestl c0 data (bits + 2 ^ 35 * k) = groestl c0 data bits.
Proof.
  intros Hk. unfold groestl, groestl_Update.
  replace (swrap 32 ((bits + 2 ^ 35 * k) / 8)) with (swrap 32 (bits / 8)).
  - replace ((bits + 2 ^ 35 * k) mod 8) with (bits mod 8); [done|].
    replace (2 ^ 35 * k) with (2 ^ 32 * k * 8) by lia. by rewrite Z.mod_add.
  - replace (2 ^ 35 * k) with (2 ^ 32 * k * 8) by lia. rewrite Z.div_add by lia.
    unfold swrap. replace (bits / 8 + 2 ^ 32 * k + 2 ^ (32 - 1)) with (bits / 8 + 2 ^ (32 - 1) + k * 2 ^ 32) by lia.
    by rewrite Z.mod_add.
Qed.

Lemma groestl_length_wraps_witness : groestl blank [] (0 + 2 ^ 35 * 1) = groestl blank [] 0.
Proof. apply groestl_length_wraps. lia. Defined.
