(* ===== verification/JH.v ===== *)
(** JH: src/src/crypto/jh.c, jh.h and hash_extra_jh of hash-extra-jh.c.

    The state [x[8][2]] is the list of its sixteen 64-bit words, [x[i][j]] at
    [2 i + j].  The macros update their arguments in place; here they map the
    old values to the new ones. *)

From S2P Require Import Prelude Limbs Bytes Words.

(** ** Constants *)

Definition JH224_H0 : list Z :=
  [0x2d; 0xfe; 0xdd; 0x62; 0xf9; 0x9a; 0x98; 0xac; 0xae; 0x7c; 0xac; 0xd6; 0x19; 0xd6; 0x34; 0xe7;
   0xa4; 0x83; 0x10; 0x5; 0xbc; 0x30; 0x12; 0x16; 0xb8; 0x60; 0x38; 0xc6; 0xc9; 0x66; 0x14; 0x94;
   0x66; 0xd9; 0x89; 0x9f; 0x25; 0x80; 0x70; 0x6f; 0xce; 0x9e; 0xa3; 0x1b; 0x1d; 0x9b; 0x1a; 0xdc;
   0x11; 0xe8; 0x32; 0x5f; 0x7b; 0x36; 0x6e; 0x10; 0xf9; 0x94; 0x85; 0x7f; 0x2; 0xfa; 0x6; 0xc1;
   0x1b; 0x4f; 0x1b; 0x5c; 0xd8; 0xc8; 0x40; 0xb3; 0x97; 0xf6; 0xa1; 0x7f; 0x6e; 0x73; 0x80; 0x99;
   0xdc; 0xdf; 0x93; 0xa5; 0xad; 0xea; 0xa3; 0xd3; 0xa4; 0x31; 0xe8; 0xde; 0xc9; 0x53; 0x9a; 0x68;
   0x22; 0xb4; 0xa9; 0x8a; 0xec; 0x86; 0xa1; 0xe4; 0xd5; 0x74; 0xac; 0x95; 0x9c; 0xe5; 0x6c; 0xf0;
   0x15; 0x96; 0xd; 0xea; 0xb5; 0xab; 0x2b; 0xbf; 0x96; 0x11; 0xdc; 0xf0; 0xdd; 0x64; 0xea; 0x6e].

Definition JH256_H0 : list Z :=
  [0xeb; 0x98; 0xa3; 0x41; 0x2c; 0x20; 0xd3; 0xeb; 0x92; 0xcd; 0xbe; 0x7b; 0x9c; 0xb2; 0x45; 0xc1;
   0x1c; 0x93; 0x51; 0x91; 0x60; 0xd4; 0xc7; 0xfa; 0x26; 0x0; 0x82; 0xd6; 0x7e; 0x50; 0x8a; 0x3;
   0xa4; 0x23; 0x9e; 0x26; 0x77; 0x26; 0xb9; 0x45; 0xe0; 0xfb; 0x1a; 0x48; 0xd4; 0x1a; 0x94; 0x77;
   0xcd; 0xb5; 0xab; 0x26; 0x2; 0x6b; 0x17; 0x7a; 0x56; 0xf0; 0x24; 0x42; 0xf; 0xff; 0x2f; 0xa8;
   0x71; 0xa3; 0x96; 0x89; 0x7f; 0x2e; 0x4d; 0x75; 0x1d; 0x14; 0x49; 0x8; 0xf7; 0x7d; 0xe2; 0x62;
   0x27; 0x76; 0x95; 0xf7; 0x76; 0x24; 0x8f; 0x94; 0x87; 0xd5; 0xb6; 0x57; 0x47; 0x80; 0x29; 0x6c;
   0x5c; 0x5e; 0x27; 0x2d; 0xac; 0x8e; 0xd; 0x6c; 0x51; 0x84; 0x50; 0xc6; 0x57; 0x5; 0x7a; 0xf;
   0x7b; 0xe4; 0xd3; 0x67; 0x70; 0x24; 0x12; 0xea; 0x89; 0xe3; 0xab; 0x13; 0xd3; 0x1c; 0xd7; 0x69].

Definition JH384_H0 : list Z :=
  [0x48; 0x1e; 0x3b; 0xc6; 0xd8; 0x13; 0x39; 0x8a; 0x6d; 0x3b; 0x5e; 0x89; 0x4a; 0xde; 0x87; 0x9b;
   0x63; 0xfa; 0xea; 0x68; 0xd4; 0x80; 0xad; 0x2e; 0x33; 0x2c; 0xcb; 0x21; 0x48; 0xf; 0x82; 0x67;
   0x98; 0xae; 0xc8; 0x4d; 0x90; 0x82; 0xb9; 0x28; 0xd4; 0x55; 0xea; 0x30; 0x41; 0x11; 0x42; 0x49;
   0x36; 0xf5; 0x55; 0xb2; 0x92; 0x48; 0x47; 0xec; 0xc7; 0x25; 0xa; 0x93; 0xba; 0xf4; 0x3c; 0xe1;
   0x56; 0x9b; 0x7f; 0x8a; 0x27; 0xdb; 0x45; 0x4c; 0x9e; 0xfc; 0xbd; 0x49; 0x63; 0x97; 0xaf; 0xe;
   0x58; 0x9f; 0xc2; 0x7d; 0x26; 0xaa; 0x80; 0xcd; 0x80; 0xc0; 0x8b; 0x8c; 0x9d; 0xeb; 0x2e; 0xda;
   0x8a; 0x79; 0x81; 0xe8; 0xf8; 0xd5; 0x37; 0x3a; 0xf4; 0x39; 0x67; 0xad; 0xdd; 0xd1; 0x7a; 0x71;
   0xa9; 0xb4; 0xd3; 0xbd; 0xa4; 0x75; 0xd3; 0x94; 0x97; 0x6c; 0x3f; 0xba; 0x98; 0x42; 0x73; 0x7f].

Definition JH512_H0 : list Z :=
  [0x6f; 0xd1; 0x4b; 0x96; 0x3e; 0x0; 0xaa; 0x17; 0x63; 0x6a; 0x2e; 0x5; 0x7a; 0x15; 0xd5; 0x43;
   0x8a; 0x22; 0x5e; 0x8d; 0xc; 0x97; 0xef; 0xb; 0xe9; 0x34; 0x12; 0x59; 0xf2; 0xb3; 0xc3; 0x61;
   0x89; 0x1d; 0xa0; 0xc1; 0x53; 0x6f; 0x80; 0x1e; 0x2a; 0xa9; 0x5; 0x6b; 0xea; 0x2b; 0x6d; 0x80;
   0x58; 0x8e; 0xcc; 0xdb; 0x20; 0x75; 0xba; 0xa6; 0xa9; 0xf; 0x3a; 0x76; 0xba; 0xf8; 0x3b; 0xf7;
   0x1; 0x69; 0xe6; 0x5; 0x41; 0xe3; 0x4a; 0x69; 0x46; 0xb5; 0x8a; 0x8e; 0x2e; 0x6f; 0xe6; 0x5a;
   0x10; 0x47; 0xa7; 0xd0; 0xc1; 0x84; 0x3c; 0x24; 0x3b; 0x6e; 0x71; 0xb1; 0x2d; 0x5a; 0xc1; 0x99;
   0xcf; 0x57; 0xf6; 0xec; 0x9d; 0xb1; 0xf8; 0x56; 0xa7; 0x6; 0x88; 0x7c; 0x57; 0x16; 0xb1; 0x56;
   0xe3; 0xc2; 0xfc; 0xdf; 0xe6; 0x85; 0x17; 0xfb; 0x54; 0x5a; 0x46; 0x78; 0xcc; 0x8c; 0xdd; 0x4b].

Definition E8_bitslice_roundconstant : list (list Z) :=
  [[0x72; 0xd5; 0xde; 0xa2; 0xdf; 0x15; 0xf8; 0x67; 0x7b; 0x84; 0x15; 0xa; 0xb7; 0x23; 0x15; 0x57; 0x81; 0xab; 0xd6; 0x90; 0x4d; 0x5a; 0x87; 0xf6; 0x4e; 0x9f; 0x4f; 0xc5; 0xc3; 0xd1; 0x2b; 0x40];
   [0xea; 0x98; 0x3a; 0xe0; 0x5c; 0x45; 0xfa; 0x9c; 0x3; 0xc5; 0xd2; 0x99; 0x66; 0xb2; 0x99; 0x9a; 0x66; 0x2; 0x96; 0xb4; 0xf2; 0xbb; 0x53; 0x8a; 0xb5; 0x56; 0x14; 0x1a; 0x88; 0xdb; 0xa2; 0x31];
   [0x3; 0xa3; 0x5a; 0x5c; 0x9a; 0x19; 0xe; 0xdb; 0x40; 0x3f; 0xb2; 0xa; 0x87; 0xc1; 0x44; 0x10; 0x1c; 0x5; 0x19; 0x80; 0x84; 0x9e; 0x95; 0x1d; 0x6f; 0x33; 0xeb; 0xad; 0x5e; 0xe7; 0xcd; 0xdc];
   [0x10; 0xba; 0x13; 0x92; 0x2; 0xbf; 0x6b; 0x41; 0xdc; 0x78; 0x65; 0x15; 0xf7; 0xbb; 0x27; 0xd0; 0xa; 0x2c; 0x81; 0x39; 0x37; 0xaa; 0x78; 0x50; 0x3f; 0x1a; 0xbf; 0xd2; 0x41; 0x0; 0x91; 0xd3];
   [0x42; 0x2d; 0x5a; 0xd; 0xf6; 0xcc; 0x7e; 0x90; 0xdd; 0x62; 0x9f; 0x9c; 0x92; 0xc0; 0x97; 0xce; 0x18; 0x5c; 0xa7; 0xb; 0xc7; 0x2b; 0x44; 0xac; 0xd1; 0xdf; 0x65; 0xd6; 0x63; 0xc6; 0xfc; 0x23];
   [0x97; 0x6e; 0x6c; 0x3; 0x9e; 0xe0; 0xb8; 0x1a; 0x21; 0x5; 0x45; 0x7e; 0x44; 0x6c; 0xec; 0xa8; 0xee; 0xf1; 0x3; 0xbb; 0x5d; 0x8e; 0x61; 0xfa; 0xfd; 0x96; 0x97; 0xb2; 0x94; 0x83; 0x81; 0x97];
   [0x4a; 0x8e; 0x85; 0x37; 0xdb; 0x3; 0x30; 0x2f; 0x2a; 0x67; 0x8d; 0x2d; 0xfb; 0x9f; 0x6a; 0x95; 0x8a; 0xfe; 0x73; 0x81; 0xf8; 0xb8; 0x69; 0x6c; 0x8a; 0xc7; 0x72; 0x46; 0xc0; 0x7f; 0x42; 0x14];
   [0xc5; 0xf4; 0x15; 0x8f; 0xbd; 0xc7; 0x5e; 0xc4; 0x75; 0x44; 0x6f; 0xa7; 0x8f; 0x11; 0xbb; 0x80; 0x52; 0xde; 0x75; 0xb7; 0xae; 0xe4; 0x88; 0xbc; 0x82; 0xb8; 0x0; 0x1e; 0x98; 0xa6; 0xa3; 0xf4];
   [0x8e; 0xf4; 0x8f; 0x33; 0xa9; 0xa3; 0x63; 0x15; 0xaa; 0x5f; 0x56; 0x24; 0xd5; 0xb7; 0xf9; 0x89; 0xb6; 0xf1; 0xed; 0x20; 0x7c; 0x5a; 0xe0; 0xfd; 0x36; 0xca; 0xe9; 0x5a; 0x6; 0x42; 0x2c; 0x36];
   [0xce; 0x29; 0x35; 0x43; 0x4e; 0xfe; 0x98; 0x3d; 0x53; 0x3a; 0xf9; 0x74; 0x73; 0x9a; 0x4b; 0xa7; 0xd0; 0xf5; 0x1f; 0x59; 0x6f; 0x4e; 0x81; 0x86; 0xe; 0x9d; 0xad; 0x81; 0xaf; 0xd8; 0x5a; 0x9f];
   [0xa7; 0x5; 0x6; 0x67; 0xee; 0x34; 0x62; 0x6a; 0x8b; 0xb; 0x28; 0xbe; 0x6e; 0xb9; 0x17; 0x27; 0x47; 0x74; 0x7; 0x26; 0xc6; 0x80; 0x10; 0x3f; 0xe0; 0xa0; 0x7e; 0x6f; 0xc6; 0x7e; 0x48; 0x7b];
   [0xd; 0x55; 0xa; 0xa5; 0x4a; 0xf8; 0xa4; 0xc0; 0x91; 0xe3; 0xe7; 0x9f; 0x97; 0x8e; 0xf1; 0x9e; 0x86; 0x76; 0x72; 0x81; 0x50; 0x60; 0x8d; 0xd4; 0x7e; 0x9e; 0x5a; 0x41; 0xf3; 0xe5; 0xb0; 0x62];
   [0xfc; 0x9f; 0x1f; 0xec; 0x40; 0x54; 0x20; 0x7a; 0xe3; 0xe4; 0x1a; 0x0; 0xce; 0xf4; 0xc9; 0x84; 0x4f; 0xd7; 0x94; 0xf5; 0x9d; 0xfa; 0x95; 0xd8; 0x55; 0x2e; 0x7e; 0x11; 0x24; 0xc3; 0x54; 0xa5];
   [0x5b; 0xdf; 0x72; 0x28; 0xbd; 0xfe; 0x6e; 0x28; 0x78; 0xf5; 0x7f; 0xe2; 0xf; 0xa5; 0xc4; 0xb2; 0x5; 0x89; 0x7c; 0xef; 0xee; 0x49; 0xd3; 0x2e; 0x44; 0x7e; 0x93; 0x85; 0xeb; 0x28; 0x59; 0x7f];
   [0x70; 0x5f; 0x69; 0x37; 0xb3; 0x24; 0x31; 0x4a; 0x5e; 0x86; 0x28; 0xf1; 0x1d; 0xd6; 0xe4; 0x65; 0xc7; 0x1b; 0x77; 0x4; 0x51; 0xb9; 0x20; 0xe7; 0x74; 0xfe; 0x43; 0xe8; 0x23; 0xd4; 0x87; 0x8a];
   [0x7d; 0x29; 0xe8; 0xa3; 0x92; 0x76; 0x94; 0xf2; 0xdd; 0xcb; 0x7a; 0x9; 0x9b; 0x30; 0xd9; 0xc1; 0x1d; 0x1b; 0x30; 0xfb; 0x5b; 0xdc; 0x1b; 0xe0; 0xda; 0x24; 0x49; 0x4f; 0xf2; 0x9c; 0x82; 0xbf];
   [0xa4; 0xe7; 0xba; 0x31; 0xb4; 0x70; 0xbf; 0xff; 0xd; 0x32; 0x44; 0x5; 0xde; 0xf8; 0xbc; 0x48; 0x3b; 0xae; 0xfc; 0x32; 0x53; 0xbb; 0xd3; 0x39; 0x45; 0x9f; 0xc3; 0xc1; 0xe0; 0x29; 0x8b; 0xa0];
   [0xe5; 0xc9; 0x5; 0xfd; 0xf7; 0xae; 0x9; 0xf; 0x94; 0x70; 0x34; 0x12; 0x42; 0x90; 0xf1; 0x34; 0xa2; 0x71; 0xb7; 0x1; 0xe3; 0x44; 0xed; 0x95; 0xe9; 0x3b; 0x8e; 0x36; 0x4f; 0x2f; 0x98; 0x4a];
   [0x88; 0x40; 0x1d; 0x63; 0xa0; 0x6c; 0xf6; 0x15; 0x47; 0xc1; 0x44; 0x4b; 0x87; 0x52; 0xaf; 0xff; 0x7e; 0xbb; 0x4a; 0xf1; 0xe2; 0xa; 0xc6; 0x30; 0x46; 0x70; 0xb6; 0xc5; 0xcc; 0x6e; 0x8c; 0xe6];
   [0xa4; 0xd5; 0xa4; 0x56; 0xbd; 0x4f; 0xca; 0x0; 0xda; 0x9d; 0x84; 0x4b; 0xc8; 0x3e; 0x18; 0xae; 0x73; 0x57; 0xce; 0x45; 0x30; 0x64; 0xd1; 0xad; 0xe8; 0xa6; 0xce; 0x68; 0x14; 0x5c; 0x25; 0x67];
   [0xa3; 0xda; 0x8c; 0xf2; 0xcb; 0xe; 0xe1; 0x16; 0x33; 0xe9; 0x6; 0x58; 0x9a; 0x94; 0x99; 0x9a; 0x1f; 0x60; 0xb2; 0x20; 0xc2; 0x6f; 0x84; 0x7b; 0xd1; 0xce; 0xac; 0x7f; 0xa0; 0xd1; 0x85; 0x18];
   [0x32; 0x59; 0x5b; 0xa1; 0x8d; 0xdd; 0x19; 0xd3; 0x50; 0x9a; 0x1c; 0xc0; 0xaa; 0xa5; 0xb4; 0x46; 0x9f; 0x3d; 0x63; 0x67; 0xe4; 0x4; 0x6b; 0xba; 0xf6; 0xca; 0x19; 0xab; 0xb; 0x56; 0xee; 0x7e];
   [0x1f; 0xb1; 0x79; 0xea; 0xa9; 0x28; 0x21; 0x74; 0xe9; 0xbd; 0xf7; 0x35; 0x3b; 0x36; 0x51; 0xee; 0x1d; 0x57; 0xac; 0x5a; 0x75; 0x50; 0xd3; 0x76; 0x3a; 0x46; 0xc2; 0xfe; 0xa3; 0x7d; 0x70; 0x1];
   [0xf7; 0x35; 0xc1; 0xaf; 0x98; 0xa4; 0xd8; 0x42; 0x78; 0xed; 0xec; 0x20; 0x9e; 0x6b; 0x67; 0x79; 0x41; 0x83; 0x63; 0x15; 0xea; 0x3a; 0xdb; 0xa8; 0xfa; 0xc3; 0x3b; 0x4d; 0x32; 0x83; 0x2c; 0x83];
   [0xa7; 0x40; 0x3b; 0x1f; 0x1c; 0x27; 0x47; 0xf3; 0x59; 0x40; 0xf0; 0x34; 0xb7; 0x2d; 0x76; 0x9a; 0xe7; 0x3e; 0x4e; 0x6c; 0xd2; 0x21; 0x4f; 0xfd; 0xb8; 0xfd; 0x8d; 0x39; 0xdc; 0x57; 0x59; 0xef];
   [0x8d; 0x9b; 0xc; 0x49; 0x2b; 0x49; 0xeb; 0xda; 0x5b; 0xa2; 0xd7; 0x49; 0x68; 0xf3; 0x70; 0xd; 0x7d; 0x3b; 0xae; 0xd0; 0x7a; 0x8d; 0x55; 0x84; 0xf5; 0xa5; 0xe9; 0xf0; 0xe4; 0xf8; 0x8e; 0x65];
   [0xa0; 0xb8; 0xa2; 0xf4; 0x36; 0x10; 0x3b; 0x53; 0xc; 0xa8; 0x7; 0x9e; 0x75; 0x3e; 0xec; 0x5a; 0x91; 0x68; 0x94; 0x92; 0x56; 0xe8; 0x88; 0x4f; 0x5b; 0xb0; 0x5c; 0x55; 0xf8; 0xba; 0xbc; 0x4c];
   [0xe3; 0xbb; 0x3b; 0x99; 0xf3; 0x87; 0x94; 0x7b; 0x75; 0xda; 0xf4; 0xd6; 0x72; 0x6b; 0x1c; 0x5d; 0x64; 0xae; 0xac; 0x28; 0xdc; 0x34; 0xb3; 0x6d; 0x6c; 0x34; 0xa5; 0x50; 0xb8; 0x28; 0xdb; 0x71];
   [0xf8; 0x61; 0xe2; 0xf2; 0x10; 0x8d; 0x51; 0x2a; 0xe3; 0xdb; 0x64; 0x33; 0x59; 0xdd; 0x75; 0xfc; 0x1c; 0xac; 0xbc; 0xf1; 0x43; 0xce; 0x3f; 0xa2; 0x67; 0xbb; 0xd1; 0x3c; 0x2; 0xe8; 0x43; 0xb0];
   [0x33; 0xa; 0x5b; 0xca; 0x88; 0x29; 0xa1; 0x75; 0x7f; 0x34; 0x19; 0x4d; 0xb4; 0x16; 0x53; 0x5c; 0x92; 0x3b; 0x94; 0xc3; 0xe; 0x79; 0x4d; 0x1e; 0x79; 0x74; 0x75; 0xd7; 0xb6; 0xee; 0xaf; 0x3f];
   [0xea; 0xa8; 0xd4; 0xf7; 0xbe; 0x1a; 0x39; 0x21; 0x5c; 0xf4; 0x7e; 0x9; 0x4c; 0x23; 0x27; 0x51; 0x26; 0xa3; 0x24; 0x53; 0xba; 0x32; 0x3c; 0xd2; 0x44; 0xa3; 0x17; 0x4a; 0x6d; 0xa6; 0xd5; 0xad];
   [0xb5; 0x1d; 0x3e; 0xa6; 0xaf; 0xf2; 0xc9; 0x8; 0x83; 0x59; 0x3d; 0x98; 0x91; 0x6b; 0x3c; 0x56; 0x4c; 0xf8; 0x7c; 0xa1; 0x72; 0x86; 0x60; 0x4d; 0x46; 0xe2; 0x3e; 0xcc; 0x8; 0x6e; 0xc7; 0xf6];
   [0x2f; 0x98; 0x33; 0xb3; 0xb1; 0xbc; 0x76; 0x5e; 0x2b; 0xd6; 0x66; 0xa5; 0xef; 0xc4; 0xe6; 0x2a; 0x6; 0xf4; 0xb6; 0xe8; 0xbe; 0xc1; 0xd4; 0x36; 0x74; 0xee; 0x82; 0x15; 0xbc; 0xef; 0x21; 0x63];
   [0xfd; 0xc1; 0x4e; 0xd; 0xf4; 0x53; 0xc9; 0x69; 0xa7; 0x7d; 0x5a; 0xc4; 0x6; 0x58; 0x58; 0x26; 0x7e; 0xc1; 0x14; 0x16; 0x6; 0xe0; 0xfa; 0x16; 0x7e; 0x90; 0xaf; 0x3d; 0x28; 0x63; 0x9d; 0x3f];
   [0xd2; 0xc9; 0xf2; 0xe3; 0x0; 0x9b; 0xd2; 0xc; 0x5f; 0xaa; 0xce; 0x30; 0xb7; 0xd4; 0xc; 0x30; 0x74; 0x2a; 0x51; 0x16; 0xf2; 0xe0; 0x32; 0x98; 0xd; 0xeb; 0x30; 0xd8; 0xe3; 0xce; 0xf8; 0x9a];
   [0x4b; 0xc5; 0x9e; 0x7b; 0xb5; 0xf1; 0x79; 0x92; 0xff; 0x51; 0xe6; 0x6e; 0x4; 0x86; 0x68; 0xd3; 0x9b; 0x23; 0x4d; 0x57; 0xe6; 0x96; 0x67; 0x31; 0xcc; 0xe6; 0xa6; 0xf3; 0x17; 0xa; 0x75; 0x5];
   [0xb1; 0x76; 0x81; 0xd9; 0x13; 0x32; 0x6c; 0xce; 0x3c; 0x17; 0x52; 0x84; 0xf8; 0x5; 0xa2; 0x62; 0xf4; 0x2b; 0xcb; 0xb3; 0x78; 0x47; 0x15; 0x47; 0xff; 0x46; 0x54; 0x82; 0x23; 0x93; 0x6a; 0x48];
   [0x38; 0xdf; 0x58; 0x7; 0x4e; 0x5e; 0x65; 0x65; 0xf2; 0xfc; 0x7c; 0x89; 0xfc; 0x86; 0x50; 0x8e; 0x31; 0x70; 0x2e; 0x44; 0xd0; 0xb; 0xca; 0x86; 0xf0; 0x40; 0x9; 0xa2; 0x30; 0x78; 0x47; 0x4e];
   [0x65; 0xa0; 0xee; 0x39; 0xd1; 0xf7; 0x38; 0x83; 0xf7; 0x5e; 0xe9; 0x37; 0xe4; 0x2c; 0x3a; 0xbd; 0x21; 0x97; 0xb2; 0x26; 0x1; 0x13; 0xf8; 0x6f; 0xa3; 0x44; 0xed; 0xd1; 0xef; 0x9f; 0xde; 0xe7];
   [0x8b; 0xa0; 0xdf; 0x15; 0x76; 0x25; 0x92; 0xd9; 0x3c; 0x85; 0xf7; 0xf6; 0x12; 0xdc; 0x42; 0xbe; 0xd8; 0xa7; 0xec; 0x7c; 0xab; 0x27; 0xb0; 0x7e; 0x53; 0x8d; 0x7d; 0xda; 0xaa; 0x3e; 0xa8; 0xde];
   [0xaa; 0x25; 0xce; 0x93; 0xbd; 0x2; 0x69; 0xd8; 0x5a; 0xf6; 0x43; 0xfd; 0x1a; 0x73; 0x8; 0xf9; 0xc0; 0x5f; 0xef; 0xda; 0x17; 0x4a; 0x19; 0xa5; 0x97; 0x4d; 0x66; 0x33; 0x4c; 0xfd; 0x21; 0x6a];
   [0x35; 0xb4; 0x98; 0x31; 0xdb; 0x41; 0x15; 0x70; 0xea; 0x1e; 0xf; 0xbb; 0xed; 0xcd; 0x54; 0x9b; 0x9a; 0xd0; 0x63; 0xa1; 0x51; 0x97; 0x40; 0x72; 0xf6; 0x75; 0x9d; 0xbf; 0x91; 0x47; 0x6f; 0xe2]].

(** ** Layers *)

(** [((x & a) << n) | ((x & b) >> n)] on 64 bits. *)
Definition SWAP (a b n x : Z) : Z := Z.lor (uwrap 64 (Z.shiftl (Z.land x a) n)) (Z.shiftr (Z.land x b) n).

Definition SWAP1 (x : Z) : Z := SWAP 0x5555555555555555 0xaaaaaaaaaaaaaaaa 1 x.
Definition SWAP2 (x : Z) : Z := SWAP 0x3333333333333333 0xcccccccccccccccc 2 x.
Definition SWAP4 (x : Z) : Z := SWAP 0x0f0f0f0f0f0f0f0f 0xf0f0f0f0f0f0f0f0 4 x.
Definition SWAP8 (x : Z) : Z := SWAP 0x00ff00ff00ff00ff 0xff00ff00ff00ff00 8 x.
Definition SWAP16 (x : Z) : Z := SWAP 0x0000ffff0000ffff 0xffff0000ffff0000 16 x.
Definition SWAP32 (x : Z) : Z := Z.lor (uwrap 64 (Z.shiftl x 32)) (Z.shiftr x 32).

(** The eight words a layer works on. *)
Definition oct : Type := Z * Z * Z * Z * Z * Z * Z * Z.

(** The MDS transform. *)
Definition L (m : oct) : oct :=
  let '(m0, m1, m2, m3, m4, m5, m6, m7) := m in
  let m4 := Z.lxor m4 m1 in
  let m5 := Z.lxor m5 m2 in
  let m6 := Z.lxor m6 (Z.lxor m0 m3) in
  let m7 := Z.lxor m7 m0 in
  let m0 := Z.lxor m0 m5 in
  let m1 := Z.lxor m1 m6 in
  let m2 := Z.lxor m2 (Z.lxor m4 m7) in
  let m3 := Z.lxor m3 m4 in
  (m0, m1, m2, m3, m4, m5, m6, m7).

(** Two S-boxes in parallel. *)
Definition SS (m : oct) (cc0 cc1 : Z) : oct :=
  let '(m0, m1, m2, m3, m4, m5, m6, m7) := m in
  let not := notw 64 in
  let m3 := not m3 in
  let m7 := not m7 in
  let m0 := Z.lxor m0 (Z.land (not m2) cc0) in
  let m4 := Z.lxor m4 (Z.land (not m6) cc1) in
  let temp0 := Z.lxor cc0 (Z.land m0 m1) in
  let temp1 := Z.lxor cc1 (Z.land m4 m5) in
  let m0 := Z.lxor m0 (Z.land m2 m3) in
  let m4 := Z.lxor m4 (Z.land m6 m7) in
  let m3 := Z.lxor m3 (Z.land (not m1) m2) in
  let m7 := Z.lxor m7 (Z.land (not m5) m6) in
  let m1 := Z.lxor m1 (Z.land m0 m2) in
  let m5 := Z.lxor m5 (Z.land m4 m6) in
  let m2 := Z.lxor m2 (Z.land m0 (not m3)) in
  let m6 := Z.lxor m6 (Z.land m4 (not m7)) in
  let m0 := Z.lxor m0 (Z.lor m1 m3) in
  let m4 := Z.lxor m4 (Z.lor m5 m7) in
  let m3 := Z.lxor m3 (Z.land m1 m2) in
  let m7 := Z.lxor m7 (Z.land m5 m6) in
  let m1 := Z.lxor m1 (Z.land temp0 m0) in
  let m5 := Z.lxor m5 (Z.land temp1 m4) in
  let m2 := Z.lxor m2 temp0 in
  let m6 := Z.lxor m6 temp1 in
  (m0, m1, m2, m3, m4, m5, m6, m7).

(** The words of column [i] in the order of the layers: rows 0 2 4 6 1 3 5 7. *)
Definition get_column (x : list Z) (i : nat) : oct :=
  (x !!! (0 + i)%nat, x !!! (4 + i)%nat, x !!! (8 + i)%nat, x !!! (12 + i)%nat,
   x !!! (2 + i)%nat, x !!! (6 + i)%nat, x !!! (10 + i)%nat, x !!! (14 + i)%nat).

(** ** The permutation E8 *)

(** The swap of the words of the odd rows in rounds [7 g + k], [k < 6]. *)
Definition swap_word (k : nat) (x : Z) : Z :=
  match k with
  | 0 => SWAP1 x | 1 => SWAP2 x | 2 => SWAP4 x | 3 => SWAP8 x | 4 => SWAP16 x | 5 => SWAP32 x | _ => x
  end%nat.

(** Column [i] after S-box, MDS and swapping layer of round [r = 7 g + k]. *)
Definition round_column (x : list Z) (r k i : nat) : oct :=
  let c := le_words 8 4 (E8_bitslice_roundconstant !!! r) in
  let '(m0, m1, m2, m3, m4, m5, m6, m7) := L (SS (get_column x i) (c !!! i) (c !!! (i + 2)%nat)) in
  (m0, m1, m2, m3, swap_word k m4, swap_word k m5, swap_word k m6, swap_word k m7).

(** The round; in the last of seven the columns of the odd rows change places. *)
Definition E8_round (x : list Z) (r k : nat) : list Z :=
  let '(a0, a2, a4, a6, a1, a3, a5, a7) := round_column x r k 0 in
  let '(b0, b2, b4, b6, b1, b3, b5, b7) := round_column x r k 1 in
  if (k =? 6)%nat then [a0; b0; b1; a1; a2; b2; b3; a3; a4; b4; b5; a5; a6; b6; b7; a7]
  else [a0; b0; a1; b1; a2; b2; a3; b3; a4; b4; a5; b5; a6; b6; a7; b7].

Definition E8 (x : list Z) : list Z :=
  foldl (fun x g => foldl (fun x k => E8_round x (7 * g + k) k) x (seq 0 7)) x (seq 0 6).

(** ** The compression function *)

Record jstate := {
  hashbitlen : Z;                 (* int *)
  databitlen : Z;                 (* unsigned long long *)
  datasize_in_buffer : Z;         (* unsigned long long *)
  jx : list Z;                    (* uint64 x[8][2] *)
  jbuffer : list Z                (* unsigned char buffer[64] *)
}.

Definition set_jx x s := {| hashbitlen := hashbitlen s; databitlen := databitlen s; datasize_in_buffer := datasize_in_buffer s; jx := x; jbuffer := jbuffer s |}.
Definition set_jbuffer b s := {| hashbitlen := hashbitlen s; databitlen := databitlen s; datasize_in_buffer := datasize_in_buffer s; jx := jx s; jbuffer := b |}.
Definition set_datasize n s := {| hashbitlen := hashbitlen s; databitlen := databitlen s; datasize_in_buffer := n; jx := jx s; jbuffer := jbuffer s |}.
Definition set_databitlen n s := {| hashbitlen := hashbitlen s; databitlen := n; datasize_in_buffer := datasize_in_buffer s; jx := jx s; jbuffer := jbuffer s |}.

Definition F8 (s : jstate) : jstate :=
  let w := le_words 8 8 (jbuffer s) in
  let x := xor_list (take 8 (jx s)) w ++ drop 8 (jx s) in
  let x := E8 x in
  set_jx (take 8 x ++ xor_list (drop 8 x) w) s.

(** ** The interface *)

Inductive HashReturn := SUCCESS | FAIL | BAD_HASHLEN.

(** [state] as Init leaves it; [s] holds the uninitialised variables. *)
Definition jh_Init (s : jstate) (len : Z) : jstate :=
  let load h := le_words 8 16 h in
  {| hashbitlen := len; databitlen := 0; datasize_in_buffer := 0;
     jx := if len =? 224 then load JH224_H0
           else if len =? 256 then load JH256_H0
           else if len =? 384 then load JH384_H0
           else if len =? 512 then load JH512_H0
           else jx s;
     jbuffer := jbuffer s |}.

(** [memcpy(state->buffer + off, data, n)] *)
Definition copy_in (s : jstate) (off : Z) (data : list Z) (n : Z) : outcome jstate :=
  if (64 <? off + n) || (Z.of_nat (length data) <? n) then Fault OutOfBounds else
  let p := Z.to_nat off in
  let k := Z.to_nat n in
  Ret (set_jbuffer (take p (jbuffer s) ++ take k data ++ drop (p + k) (jbuffer s)) s).

(** [for ( ; databitlen >= 512; index = index+64, databitlen = databitlen - 512)] *)
Fixpoint jh_blocks (fuel : nat) (s : jstate) (data : list Z) (bits : Z) : outcome (jstate * list Z * Z) :=
  if bits <? 512 then Ret (s, data, bits) else
  match fuel with
  | O => Fault Diverges
  | S fuel' =>
      let* s := copy_in s 0 data 64 in
      jh_blocks fuel' (F8 s) (drop 64 data) (bits - 512)
  end.

(** The first branch of Update: buffered data and too little new data. *)
Definition update_short (s : jstate) (data : list Z) (bits : Z) : outcome (jstate * Z) :=
  let p := Z.shiftr (datasize_in_buffer s) 3 in
  if (0 <? datasize_in_buffer s) && (addw 64 (datasize_in_buffer s) bits <? 512) then
    let n := if Z.land bits 7 =? 0 then uwrap 64 (64 - p) else uwrap 64 (64 - p + 1) in
    let* s := copy_in s p data n in
    Ret (set_datasize (addw 64 (datasize_in_buffer s) bits) s, 0)
  else Ret (s, bits).

(** The second branch: the new data completes the buffered block. *)
Definition update_full (s : jstate) (data : list Z) (bits : Z) : outcome (jstate * list Z * Z) :=
  let p := Z.shiftr (datasize_in_buffer s) 3 in
  if (0 <? datasize_in_buffer s) && (512 <=? addw 64 (datasize_in_buffer s) bits) then
    let n := uwrap 64 (64 - p) in
    let* s := copy_in s p data n in
    Ret (set_datasize 0 (F8 s), drop (Z.to_nat n) data, uwrap 64 (bits - uwrap 64 (512 - datasize_in_buffer s)))
  else Ret (s, data, bits).

Definition jh_Update (s : jstate) (data : list Z) (bits : Z) : outcome jstate :=
  let s := set_databitlen (addw 64 (databitlen s) bits) s in
  let* '(s, bits) := update_short s data bits in
  let* '(s, data, bits) := update_full s data bits in
  let* '(s, data, bits) := jh_blocks (Z.to_nat (bits / 512)) s data bits in
  if 0 <? bits then
    let n := Z.shiftr (Z.land bits 0x1ff) 3 in
    let* s := copy_in s 0 data (if Z.land bits 7 =? 0 then n else n + 1) in
    Ret (set_datasize bits s)
  else Ret s.

(** The message length in the last eight bytes of the buffer. *)
Definition length_bytes (s : jstate) : list Z := be_bytes 8 (databitlen s).

(** Padding and the blocks it makes; the state after them. *)
Definition jh_pad (s : jstate) : outcome jstate :=
  if Z.land (databitlen s) 0x1ff =? 0 then
    Ret (F8 (set_jbuffer ([0x80] ++ replicate 55 0 ++ length_bytes s) s))
  else
    let k := Z.shiftr (Z.land (databitlen s) 0x1ff) 3 in
    let i := Z.to_nat (if Z.land (datasize_in_buffer s) 7 =? 0 then k else k + 1) in
    let buf := take i (jbuffer s) ++ replicate (64 - i) 0 in
    let* b := index buf k in
    let buf := <[Z.to_nat k := u8 (Z.lor b (Z.shiftl 1 (7 - Z.land (databitlen s) 7)))]> buf in
    let s := F8 (set_jbuffer buf s) in
    Ret (F8 (set_jbuffer (replicate 56 0 ++ length_bytes s) s)).

(** The bytes written to the digest. *)
Definition jh_Final (s : jstate) : outcome (list Z) :=
  let* s := jh_pad s in
  let h := words_bytes 8 (jx s) in
  let len := hashbitlen s in
  Ret (if len =? 224 then take 28 (drop (64 + 36) h)
       else if len =? 256 then take 32 (drop (64 + 32) h)
       else if len =? 384 then take 48 (drop (64 + 16) h)
       else if len =? 512 then take 64 (drop 64 h)
       else []).

(** [s0]: the uninitialised state. *)
Definition jh_hash (s0 : jstate) (len : Z) (data : list Z) (bits : Z) : outcome (HashReturn * list Z) :=
  if (len =? 224) || (len =? 256) || (len =? 384) || (len =? 512) then
    let* s := jh_Update (jh_Init s0 len) data bits in
    let* out := jh_Final s in
    Ret (SUCCESS, out)
  else Ret (BAD_HASHLEN, []).

Definition hash_extra_jh (s0 : jstate) (data : list Z) (length : Z) : outcome (list Z) :=
  let* '(r, out) := jh_hash s0 (32 * 8) data (uwrap 64 (8 * length)) in
  let* _ := assert (match r with SUCCESS => true | _ => false end) in
  Ret out.
