(* ===== verification/JHFacts.v ===== *)
(** JH against its definition on an array of 256 elements of four bits: the
    S-box, MDS and permutation layers, the round constants derived from the
    square root of 2, the compression function and the padding. *)

From S2P Require Import Prelude Limbs Bytes Words JH.

(** ** Reference: rounds on [N] elements of four bits *)

Definition sbox0 : list Z := [9; 0; 4; 11; 13; 12; 3; 15; 1; 10; 2; 6; 7; 5; 8; 14].
Definition sbox1 : list Z := [3; 12; 6; 13; 5; 7; 1; 9; 15; 2; 0; 4; 11; 10; 14; 8].
Definition sub4 (c : bool) (a : Z) : Z := (if c then sbox1 else sbox0) !!! Z.to_nat a.

(** Multiplication by 2 modulo [x^4 + x + 1], and the MDS code. *)
Definition double4 (a : Z) : Z := if a <? 8 then 2 * a else Z.lxor (2 * a) 0x13.
Definition mds (a b : Z) : Z * Z := let d := Z.lxor b (double4 a) in (Z.lxor a (double4 d), d).

(** The permutation: where the element at [j] comes from. *)
Definition perm_pi (j : Z) : Z := if j mod 4 <? 2 then j else Z.lxor j 1.
Definition perm_half (N j : Z) : Z := if j <? N / 2 then 2 * j else 2 * (j - N / 2) + 1.
Definition perm_phi (N j : Z) : Z := if j <? N / 2 then j else Z.lxor j 1.
Definition perm_src (N j : Z) : Z := perm_pi (perm_half N (perm_phi N j)).

Definition jh_layers (N : nat) (c : Z -> bool) (a : list Z) : list Z :=
  concat (map (fun i =>
    let '(x, y) := mds (sub4 (c (2 * Z.of_nat i)) (a !!! (2 * i)%nat)) (sub4 (c (2 * Z.of_nat i + 1)) (a !!! (2 * i + 1)%nat)) in [x; y])
    (seq 0 (N / 2))).

Definition jh_round (N : nat) (c : Z -> bool) (a : list Z) : list Z :=
  let w := jh_layers N c a in map (fun j => w !!! Z.to_nat (perm_src (Z.of_nat N) (Z.of_nat j))) (seq 0 N).

(** The round constants: the fraction of the square root of 2, then rounds on
    64 elements without constants. *)
Definition const0 : list Z :=
  [0x6;0xa;0x0;0x9;0xe;0x6;0x6;0x7;0xf;0x3;0xb;0xc;0xc;0x9;0x0;0x8;0xb;0x2;0xf;0xb;0x1;0x3;0x6;0x6;0xe;0xa;0x9;0x5;0x7;0xd;0x3;0xe;
   0x3;0xa;0xd;0xe;0xc;0x1;0x7;0x5;0x1;0x2;0x7;0x7;0x5;0x0;0x9;0x9;0xd;0xa;0x2;0xf;0x5;0x9;0x0;0xb;0x0;0x6;0x6;0x7;0x3;0x2;0x2;0xa].

Definition const_nibbles (r : nat) : list Z := Nat.iter r (jh_round 64 (fun _ => false)) const0.
Definition const_bit (ns : list Z) (j : Z) : bool := Z.testbit (ns !!! Z.to_nat (j / 4)) (3 - j mod 4).

(** Bit [t] of a byte string, the most significant bit of a byte first. *)
Definition bit (H : list Z) (t : nat) : bool := Z.testbit (H !!! (t / 8)%nat) (7 - Z.of_nat (t mod 8)).

Definition nib4 (b0 b1 b2 b3 : bool) : Z := 8 * Z.b2z b0 + 4 * Z.b2z b1 + 2 * Z.b2z b2 + Z.b2z b3.

(** Grouping of the 1024 bits into elements and back. *)
Definition group (H : list Z) : list Z :=
  map (fun j => let o := (j / 2 + 128 * (j mod 2))%nat in nib4 (bit H o) (bit H (o + 256)) (bit H (o + 512)) (bit H (o + 768))) (seq 0 256).

Definition degroup_bit (q : list Z) (t : nat) : bool :=
  Z.testbit (q !!! (2 * (t mod 128) + t / 128 mod 2)%nat) (3 - Z.of_nat (t / 256)).

Definition byte_of (f : nat -> bool) : Z := foldl (fun a s => 2 * a + Z.b2z (f s)) 0 (seq 0 8).

Definition degroup (q : list Z) : list Z := map (fun j => byte_of (fun s => degroup_bit q (8 * j + s))) (seq 0 128).

Definition ref_E8 (H : list Z) : list Z :=
  degroup (foldl (fun q r => jh_round 256 (const_bit (const_nibbles r)) q) (group H) (seq 0 42)).

(** The compression function, the chaining and the padding. *)
Definition ref_F8 (H M : list Z) : list Z :=
  let H := ref_E8 (xor_list (take 64 H) M ++ drop 64 H) in take 64 H ++ xor_list (drop 64 H) M.

#[local] Abbreviation jh_chain := (fold_blocks ref_F8 64).

Definition jh_iv (len : Z) : list Z := ref_F8 (be_bytes 2 len ++ replicate 126 0) (replicate 64 0).

Definition jh_padded (data : list Z) (bits : nat) : list Z :=
  let m := close_bits data bits in
  m ++ replicate (64 * ((bits + 511) / 512) + 48 - length m) 0 ++ be_bytes 16 (Z.of_nat bits).

Definition jh_ref (len : Z) (data : list Z) (bits : nat) : list Z :=
  let p := jh_padded data bits in
  drop (128 - Z.to_nat (len / 8)) (jh_chain (jh_iv len) p (length p / 64)).

(** ** Layers, bit by bit *)

Lemma notw_bit a z : 0 <= z < 64 -> Z.testbit (notw 64 a) z = negb (Z.testbit a z).
Proof. intros H. unfold notw, uwrap. rewrite Z.mod_pow2_bits_low by lia. apply Z.lnot_spec. lia. Qed.

Definition oct_nibbles (m : oct) (z : Z) : Z * Z :=
  let '(m0, m1, m2, m3, m4, m5, m6, m7) := m in
  (nib4 (Z.testbit m0 z) (Z.testbit m1 z) (Z.testbit m2 z) (Z.testbit m3 z),
   nib4 (Z.testbit m4 z) (Z.testbit m5 z) (Z.testbit m6 z) (Z.testbit m7 z)).

Ltac all_bits z :=
  repeat match goal with |- context [Z.testbit ?a z] => is_var a; let b := fresh "b" in generalize (Z.testbit a z) as b; intros b end.

Lemma SS_bits m c0 c1 z :
  0 <= z < 64 ->
  oct_nibbles (SS m c0 c1) z =
  (sub4 (Z.testbit c0 z) (fst (oct_nibbles m z)), sub4 (Z.testbit c1 z) (snd (oct_nibbles m z))).
Proof.
  intros Hz. destruct m as [[[[[[[m0 m1] m2] m3] m4] m5] m6] m7]. unfold SS, oct_nibbles. cbn [fst snd].
  repeat first [rewrite Z.lxor_spec | rewrite Z.land_spec | rewrite Z.lor_spec | rewrite (notw_bit _ z Hz)].
  all_bits z. f_equal;
    repeat match goal with b : bool |- context [?x] => constr_eq b x; destruct b end; reflexivity.
Qed.

Lemma L_bits m z :
  oct_nibbles (L m) z = mds (fst (oct_nibbles m z)) (snd (oct_nibbles m z)).
Proof.
  destruct m as [[[[[[[m0 m1] m2] m3] m4] m5] m6] m7]. unfold L, oct_nibbles. cbn [fst snd].
  repeat rewrite Z.lxor_spec. all_bits z. 
  repeat match goal with b : bool |- context [?x] => constr_eq b x; destruct b end; reflexivity.
Qed.

(** A swap of blocks of [2^k] bits: bit [z] comes from [z] with its bit [k] flipped. *)
Definition swap_at (k : nat) (z : Z) : Z := Z.lxor z (2 ^ Z.of_nat k).

Definition masks_ok (a b : Z) (k : nat) : bool :=
  forallb (fun i => let z := Z.of_nat i in let n := 2 ^ Z.of_nat k in
    if Z.testbit z (Z.of_nat k) then (swap_at k z =? z - n) && Z.testbit a (z - n) && negb (Z.testbit b (z + n))
    else (swap_at k z =? z + n) && Z.testbit b (z + n) && negb (Z.testbit a (z - n))) (seq 0 64).

Lemma SWAP_bits a b k x z :
  masks_ok a b k = true -> 0 <= z < 64 -> Z.testbit (SWAP a b (2 ^ Z.of_nat k) x) z = Z.testbit x (swap_at k z).
Proof.
  intros H Hz. unfold masks_ok in H. rewrite forallb_forall in H. specialize (H (Z.to_nat z) ltac:(apply in_seq; lia)).
  cbv zeta in H. rewrite Z2Nat.id in H by lia. assert (0 < 2 ^ Z.of_nat k) by (apply Z.pow_pos_nonneg; lia).
  unfold SWAP, uwrap. rewrite Z.lor_spec, Z.mod_pow2_bits_low, Z.shiftl_spec, Z.shiftr_spec, !Z.land_spec by lia.
  destruct (Z.testbit z (Z.of_nat k)); rewrite !andb_true_iff, Z.eqb_eq, negb_true_iff in H; destruct H as [[-> ->] ->];
    by rewrite ?andb_true_r, ?andb_false_r, ?orb_false_r.
Qed.

Lemma swap_word_bits k x z :
  (k < 6)%nat -> word 64 x -> 0 <= z < 64 -> Z.testbit (swap_word k x) z = Z.testbit x (swap_at k z).
Proof.
  intros Hk Hx Hz. destruct k as [|[|[|[|[|[|k]]]]]]; [..|lia]; cbn [swap_word];
    [apply (SWAP_bits _ _ 0); [vm_compute; reflexivity|done]|apply (SWAP_bits _ _ 1); [vm_compute; reflexivity|done]
    |apply (SWAP_bits _ _ 2); [vm_compute; reflexivity|done]|apply (SWAP_bits _ _ 3); [vm_compute; reflexivity|done]
    |apply (SWAP_bits _ _ 4); [vm_compute; reflexivity|done]|].
  rewrite <- (SWAP_bits (2 ^ 32 - 1) (2 ^ 64 - 2 ^ 32) 5 x z) by (done || (vm_compute; reflexivity)).
  unfold SWAP, SWAP32, uwrap. change (2 ^ Z.of_nat 5) with 32.
  rewrite !Z.lor_spec, !Z.mod_pow2_bits_low, !Z.shiftl_spec, !Z.shiftr_spec, !Z.land_spec by lia.
  change (2 ^ 32 - 1) with (Z.ones 32). change (2 ^ 64 - 2 ^ 32) with (Z.shiftl (Z.ones 32) 32). f_equal.
  - destruct (Z.lt_ge_cases z 32); [by rewrite !(Z.testbit_neg_r _ (z - 32)) by lia|]. rewrite Z.ones_spec_low by lia. by rewrite andb_true_r.
  - rewrite Z.shiftl_spec by lia. replace (z + 32 - 32) with z by lia. destruct (Z.lt_ge_cases z 32).
    + rewrite Z.ones_spec_low by lia. by rewrite andb_true_r.
    + apply word_bits in Hx as [_ Hx]; [|lia]. by rewrite Hx by lia.
Qed.

(** ** Words *)

Definition oct_words (m : oct) : Prop :=
  let '(m0, m1, m2, m3, m4, m5, m6, m7) := m in
  word 64 m0 /\ word 64 m1 /\ word 64 m2 /\ word 64 m3 /\ word 64 m4 /\ word 64 m5 /\ word 64 m6 /\ word 64 m7.

Ltac word_tac := repeat first [assumption | apply (word_notw 64); lia | apply (word_lxor 64); [lia| |] | apply (word_lor 64); [lia| |] | apply (word_land_l 64); [lia|]].

Lemma SS_words m c0 c1 : oct_words m -> word 64 c0 -> word 64 c1 -> oct_words (SS m c0 c1).
Proof.
  destruct m as [[[[[[[m0 m1] m2] m3] m4] m5] m6] m7]. intros (? & ? & ? & ? & ? & ? & ? & ?) ? ?. unfold SS, oct_words.
  cbv zeta. repeat split; word_tac.
Qed.

Lemma L_words m : oct_words m -> oct_words (L m).
Proof.
  destruct m as [[[[[[[m0 m1] m2] m3] m4] m5] m6] m7]. intros (? & ? & ? & ? & ? & ? & ? & ?). unfold L, oct_words.
  cbv zeta. repeat split; word_tac.
Qed.

Lemma SWAP_word a b n x : 0 <= n -> word 64 x -> word 64 (SWAP a b n x).
Proof. intros Hn Hx. unfold SWAP. apply word_lor; [lia|apply word_uwrap; lia|]. apply word_shiftr; [lia|lia|]. apply word_land_l; [lia|done]. Qed.

Lemma swap_word_word k x : word 64 x -> word 64 (swap_word k x).
Proof.
  intros Hx. destruct k as [|[|[|[|[|[|k]]]]]]; cbn [swap_word]; try (apply SWAP_word; [lia|done]); [|done].
  unfold SWAP32. apply word_lor; [lia|apply word_uwrap; lia|]. apply word_shiftr; [lia|lia|done].
Qed.

(** ** Columns and lanes *)

Definition consts (r : nat) : list Z := le_words 8 4 (E8_bitslice_roundconstant !!! r).

(** The pair of elements at bit [z] of column [i] after the layers. *)
Definition column_pair (x : list Z) (r i : nat) (z : Z) : Z * Z :=
  let '(a, b) := oct_nibbles (get_column x i) z in
  mds (sub4 (Z.testbit (consts r !!! i) z) a) (sub4 (Z.testbit (consts r !!! (i + 2)%nat) z) b).

Definition jwords (x : list Z) : Prop := length x = 16%nat /\ words 64 x.

Lemma jwords_at x i : jwords x -> (i < 16)%nat -> word 64 (x !!! i).
Proof.
  intros [Hl Hw] Hi. destruct (lookup_lt_is_Some_2 x i ltac:(lia)) as [w Ew].
  rewrite (list_lookup_total_correct _ _ _ Ew). exact (Forall_lookup_1 _ _ _ _ Hw Ew).
Qed.

Lemma get_column_words x i : jwords x -> (i < 2)%nat -> oct_words (get_column x i).
Proof. intros H Hi. unfold get_column, oct_words. repeat match goal with |- _ /\ _ => split end; apply jwords_at; done || lia. Qed.

Lemma consts_words r i : (r < 42)%nat -> (i < 4)%nat -> word 64 (consts r !!! i).
Proof.
  intros Hr Hi.
  assert (forallb (fun r => forallb (fun i => bool_decide (word 64 (consts r !!! i))) (seq 0 4)) (seq 0 42) = true) as H by (vm_compute; reflexivity).
  rewrite forallb_forall in H. specialize (H r ltac:(apply in_seq; lia)). rewrite forallb_forall in H.
  specialize (H i ltac:(apply in_seq; lia)). by apply bool_decide_eq_true in H.
Qed.

Lemma round_column_spec x r k i :
  jwords x -> (r < 42)%nat -> (i < 2)%nat ->
  oct_words (round_column x r k i) /\
  forall z, 0 <= z < 64 ->
    oct_nibbles (round_column x r k i) z =
    (fst (column_pair x r i z), snd (column_pair x r i (if (k <? 6)%nat then swap_at k z else z))).
Proof.
  intros Hx Hr Hi. unfold round_column. fold (consts r). cbv zeta.
  pose proof (get_column_words x i Hx Hi) as Hc.
  assert (oct_words (L (SS (get_column x i) (consts r !!! i) (consts r !!! (i + 2)%nat)))) as Hw
    by (apply L_words, SS_words; [done|apply consts_words; lia..]).
  assert (forall z, 0 <= z < 64 -> oct_nibbles (L (SS (get_column x i) (consts r !!! i) (consts r !!! (i + 2)%nat))) z = column_pair x r i z) as Hb.
  { intros z Hz. rewrite L_bits, SS_bits by done. unfold column_pair. by destruct (oct_nibbles (get_column x i) z). }
  revert Hw Hb. generalize (L (SS (get_column x i) (consts r !!! i) (consts r !!! (i + 2)%nat))) as m.
  intros m Hw Hb. destruct m as [[[[[[[m0 m1] m2] m3] m4] m5] m6] m7].
  destruct Hw as (? & ? & ? & ? & ? & ? & ? & ?). split.
  - unfold oct_words. repeat match goal with |- _ /\ _ => split end; try assumption; by apply swap_word_word.
  - intros z Hz. destruct (Nat.ltb_spec k 6).
    + assert (0 <= swap_at k z < 64) as Hs.
      { apply (word_lxor 6); [lia|done|]. unfold word. split; [lia|]. apply Z.pow_lt_mono_r; lia. }
      rewrite <- (Hb z Hz), <- (Hb _ Hs). unfold oct_nibbles. cbn [fst snd]. by rewrite !swap_word_bits.
    + rewrite <- (Hb z Hz). destruct k as [|[|[|[|[|[|k]]]]]]; try lia. reflexivity.
Qed.

(** Lane [p] of the 128: bit [zb p] of column [p / 64]. *)
Definition zb (p : Z) : Z := Z.lxor (p mod 64) 7.
Definition lanes (x : list Z) (p : Z) : Z * Z := oct_nibbles (get_column x (Z.to_nat (p / 64))) (zb p).
Definition lane_pair (x : list Z) (r : nat) (p : Z) : Z * Z := column_pair x r (Z.to_nat (p / 64)) (zb p).

(** A statement about every lane, by evaluation. *)
Lemma lane_cases (f : Z -> bool) : forallb (fun p => f (Z.of_nat p)) (seq 0 128) = true -> forall p, 0 <= p < 128 -> f p = true.
Proof. intros H p Hp. rewrite forallb_forall in H. rewrite <- (Z2Nat.id p) by lia. apply H, in_seq. lia. Qed.

Definition lane_ok (k : nat) (p : Z) : bool :=
  (zb p <? 64) && (Z.lxor p (2 ^ Z.of_nat k) <? 128) &&
  (zb (Z.lxor p (2 ^ Z.of_nat k)) =? (if (k <? 6)%nat then swap_at k (zb p) else zb p)) &&
  (Z.lxor p (2 ^ Z.of_nat k) / 64 =? (if (k <? 6)%nat then p / 64 else 1 - p / 64)).

Lemma lane_facts k p :
  (k < 7)%nat -> 0 <= p < 128 -> 0 <= zb p < 64 /\ 0 <= Z.lxor p (2 ^ Z.of_nat k) < 128 /\
  zb (Z.lxor p (2 ^ Z.of_nat k)) = (if (k <? 6)%nat then swap_at k (zb p) else zb p) /\
  Z.lxor p (2 ^ Z.of_nat k) / 64 = (if (k <? 6)%nat then p / 64 else 1 - p / 64).
Proof.
  intros Hk Hp.
  assert (forallb (fun k => forallb (fun p => lane_ok k (Z.of_nat p)) (seq 0 128)) (seq 0 7) = true) as H by (vm_compute; reflexivity).
  rewrite forallb_forall in H. specialize (H k ltac:(apply in_seq; lia)). pose proof (lane_cases _ H p Hp) as H'. unfold lane_ok in H'.
  rewrite !andb_true_iff, !Z.ltb_lt, !Z.eqb_eq in H'. destruct H' as [[[H1 H2] H3] H4].
  assert (0 <= zb p) by (unfold zb; apply Z.lxor_nonneg; pose proof (Z.mod_pos_bound p 64); lia).
  assert (0 <= Z.lxor p (2 ^ Z.of_nat k)) by (apply Z.lxor_nonneg; pose proof (Z.pow_nonneg 2 (Z.of_nat k)); lia). lia.
Qed.

#[local] Opaque round_column column_pair.

Lemma E8_round_lanes x r k p :
  jwords x -> (r < 42)%nat -> (k < 7)%nat -> 0 <= p < 128 ->
  lanes (E8_round x r k) p = (fst (lane_pair x r p), snd (lane_pair x r (Z.lxor p (2 ^ Z.of_nat k)))).
Proof.
  intros Hx Hr Hk Hp. destruct (lane_facts k p Hk Hp) as (Hz & _ & Ez & Ei).
  unfold lanes, lane_pair. rewrite Ez, Ei. assert (p / 64 = 0 \/ p / 64 = 1) as Hi by (Z.to_euclidean_division_equations; lia).
  revert Hz Hi. generalize (zb p) as z. generalize (p / 64) as i. intros i z Hz Hi.
  unfold E8_round. pose proof (round_column_spec x r k 0 Hx Hr ltac:(lia)) as [_ H0]. pose proof (round_column_spec x r k 1 Hx Hr ltac:(lia)) as [_ H1].
  specialize (H0 z Hz). specialize (H1 z Hz). revert H0 H1. 
  destruct (round_column x r k 0) as [[[[[[[a0 a1] a2] a3] a4] a5] a6] a7]. destruct (round_column x r k 1) as [[[[[[[b0 b1] b2] b3] b4] b5] b6] b7].
  unfold oct_nibbles at 1 2. intros H0 H1. injection H0 as H0 H0'. injection H1 as H1 H1'.
  destruct Hi as [-> | ->]; destruct (Nat.eqb_spec k 6), (Nat.ltb_spec k 6); try lia;
    change (Z.to_nat (1 - 0)) with 1%nat; change (Z.to_nat (1 - 1)) with 0%nat;
    change (Z.to_nat 0) with 0%nat; change (Z.to_nat 1) with 1%nat; rewrite <- ?H0, <- ?H0', <- ?H1, <- ?H1'; reflexivity.
Qed.

Lemma E8_round_words x r k : jwords x -> (r < 42)%nat -> jwords (E8_round x r k).
Proof.
  intros Hx Hr. unfold E8_round. pose proof (round_column_spec x r k 0 Hx Hr ltac:(lia)) as [H0 _]. pose proof (round_column_spec x r k 1 Hx Hr ltac:(lia)) as [H1 _].
  destruct (round_column x r k 0) as [[[[[[[a0 a1] a2] a3] a4] a5] a6] a7]. destruct (round_column x r k 1) as [[[[[[[b0 b1] b2] b3] b4] b5] b6] b7].
  destruct H0 as (? & ? & ? & ? & ? & ? & ? & ?), H1 as (? & ? & ? & ? & ? & ? & ? & ?).
  destruct (k =? 6)%nat; (split; [reflexivity|]); repeat (apply List.Forall_cons; [assumption|]); apply List.Forall_nil.
Qed.

(** ** Positions

    After [k] of seven rounds, the element at lane [p] of the even ([par] = 0)
    or odd rows is the one at [pos k par p] of the definition. *)
Definition perm_dst (a : Z) : Z :=
  let b := perm_pi a in
  perm_phi 256 (if Z.even b then b / 2 else b / 2 + 128).

Definition moved (k : nat) (par p : Z) : Z := if par =? 0 then p else Z.lxor p (2 ^ Z.of_nat k).

Fixpoint pos (k : nat) (par p : Z) : Z :=
  match k with
  | O => 2 * p + par
  | S k' => perm_dst (pos k' par (moved k' par p))
  end.

Definition pos_ok (k : nat) (p : Z) : bool :=
  let src par := perm_src 256 (pos (k + 1) par p) =? pos k par (moved k par p) in
  let low x := (0 <=? x) && (x <? 256) in
  let a := pos k 0 p in
  src 0 && src 1 && low a && low (pos (k + 1) 0 p) && low (pos (k + 1) 1 p) && Z.even a && (pos k 1 p =? a + 1) &&
  (pos 7 0 p =? pos 0 0 p) && (pos 7 1 p =? pos 0 1 p).

Lemma pos_facts k p :
  (k < 7)%nat -> 0 <= p < 128 ->
  (forall par, par = 0 \/ par = 1 ->
    perm_src 256 (pos (k + 1) par p) = pos k par (moved k par p) /\ 0 <= pos (k + 1) par p < 256 /\ pos 7 par p = pos 0 par p) /\
  (exists i, (i < 128)%nat /\ pos k 0 p = 2 * Z.of_nat i /\ pos k 1 p = 2 * Z.of_nat i + 1).
Proof.
  intros Hk Hp.
  assert (forallb (fun k => forallb (fun p => pos_ok k (Z.of_nat p)) (seq 0 128)) (seq 0 7) = true) as H by (vm_compute; reflexivity).
  rewrite forallb_forall in H. specialize (H k ltac:(apply in_seq; lia)). pose proof (lane_cases _ H p Hp) as H'. unfold pos_ok in H'. cbv zeta in H'.
  rewrite !andb_true_iff, !Z.eqb_eq, !Z.leb_le, !Z.ltb_lt, Z.even_spec in H'.
  destruct H' as [[[[[[[[H1 H2] H3] H4] H5] [i Hi]] H7] H8] H9]. split.
  - intros par [-> | ->]; (split; [|split]); assumption.
  - exists (Z.to_nat i). lia.
Qed.

(** The table holds the constants of the definition, at these positions. *)
Definition const_ok (r : nat) (c ns : list Z) (p : Z) : bool :=
  eqb (Z.testbit (c !!! Z.to_nat (p / 64)) (zb p)) (const_bit ns (pos (r mod 7) 0 p)) &&
  eqb (Z.testbit (c !!! (Z.to_nat (p / 64) + 2)%nat) (zb p)) (const_bit ns (pos (r mod 7) 1 p)).

Definition row_ok (r : nat) (ns : list Z) : bool :=
  let c := consts r in forallb (fun p => const_ok r c ns (Z.of_nat p)) (seq 0 128).

Fixpoint rows_ok (n r : nat) (ns : list Z) : bool :=
  match n with
  | O => true
  | S n' => row_ok r ns && rows_ok n' (S r) (jh_round 64 (fun _ => false) ns)
  end.

Lemma rows_ok_row n r ns i : rows_ok n r ns = true -> (i < n)%nat -> row_ok (r + i) (Nat.iter i (jh_round 64 (fun _ => false)) ns) = true.
Proof.
  revert r ns i. induction n as [|n IH]; intros r ns i H Hi; [lia|]. cbn [rows_ok] in H. apply andb_true_iff in H as [H1 H2].
  destruct i as [|i]; [by rewrite Nat.add_0_r|]. rewrite Nat.iter_succ_r. replace (r + S i)%nat with (S r + i)%nat by lia. apply IH; [done|lia].
Qed.

Lemma consts_facts r p :
  (r < 42)%nat -> 0 <= p < 128 ->
  Z.testbit (consts r !!! Z.to_nat (p / 64)) (zb p) = const_bit (const_nibbles r) (pos (r mod 7) 0 p) /\
  Z.testbit (consts r !!! (Z.to_nat (p / 64) + 2)%nat) (zb p) = const_bit (const_nibbles r) (pos (r mod 7) 1 p).
Proof.
  intros Hr Hp.
  assert (rows_ok 42 0 const0 = true) as H by (vm_compute; reflexivity).
  pose proof (rows_ok_row 42 0 const0 r H Hr) as H1. pose proof (lane_cases (const_ok _ _ _) H1 p Hp) as H2. unfold const_ok in H2.
  by rewrite andb_true_iff, !eqb_true_iff in H2.
Qed.

#[local] Opaque pos const_nibbles consts perm_src.

(** ** Rounds *)

Lemma nibble_pairs_lookup (f : nat -> Z * Z) n i :
  (i < n)%nat ->
  concat (map (fun i => let '(x, y) := f i in [x; y]) (seq 0 n)) !!! (2 * i)%nat = fst (f i) /\
  concat (map (fun i => let '(x, y) := f i in [x; y]) (seq 0 n)) !!! (2 * i + 1)%nat = snd (f i).
Proof.
  assert (forall s, (i < n)%nat ->
    concat (map (fun i => let '(x, y) := f i in [x; y]) (seq s n)) !!! (2 * i)%nat = fst (f (s + i)%nat) /\
    concat (map (fun i => let '(x, y) := f i in [x; y]) (seq s n)) !!! (2 * i + 1)%nat = snd (f (s + i)%nat)) as H; [|by apply (H 0%nat)].
  revert i. induction n as [|n IH]; intros i s Hi; [lia|]. cbn [seq map concat]. destruct (f s) as [a b] eqn:E.
  destruct i as [|i].
  - rewrite Nat.add_0_r, E. done.
  - replace (2 * S i)%nat with (S (S (2 * i))) by lia. cbn [app].
    change ((a :: b :: ?l) !!! S (S ?j)) with (l !!! j). replace (s + S i)%nat with (S s + i)%nat by lia. apply IH. lia.
Qed.

Definition represents (k : nat) (x q : list Z) : Prop :=
  jwords x /\ forall p, 0 <= p < 128 -> (q !!! Z.to_nat (pos k 0 p), q !!! Z.to_nat (pos k 1 p)) = lanes x p.

Lemma layers_lane x q r p :
  represents (r mod 7) x q -> (r < 42)%nat -> 0 <= p < 128 ->
  let w := jh_layers 256 (const_bit (const_nibbles r)) q in
  (w !!! Z.to_nat (pos (r mod 7) 0 p), w !!! Z.to_nat (pos (r mod 7) 1 p)) = lane_pair x r p.
Proof.
  Local Transparent column_pair.
  intros [Hx H] Hr Hp w. pose proof (Nat.mod_upper_bound r 7 ltac:(lia)) as Hk.
  destruct (pos_facts (r mod 7) p Hk Hp) as (_ & (i & Hi & E0 & E1)). specialize (H p Hp).
  destruct (consts_facts r p Hr Hp) as [C0 C1]. unfold lane_pair, column_pair. rewrite C0, C1.
  change (oct_nibbles (get_column x (Z.to_nat (p / 64))) (zb p)) with (lanes x p). rewrite <- H. rewrite E0, E1.
  replace (Z.to_nat (2 * Z.of_nat i)) with (2 * i)%nat by lia. replace (Z.to_nat (2 * Z.of_nat i + 1)) with (2 * i + 1)%nat by lia.
  unfold w, jh_layers. change (256 / 2)%nat with 128%nat.
  destruct (nibble_pairs_lookup (fun i => mds (sub4 (const_bit (const_nibbles r) (2 * Z.of_nat i)) (q !!! (2 * i)%nat))
    (sub4 (const_bit (const_nibbles r) (2 * Z.of_nat i + 1)) (q !!! (2 * i + 1)%nat))) 128 i Hi) as [-> ->].
  by destruct (mds _ _).
Qed.
#[local] Opaque column_pair jh_layers.

Lemma map_seq_total {A} `{Inhabited A} (f : nat -> A) n j : (j < n)%nat -> map f (seq 0 n) !!! j = f j.
Proof. intros Hj. apply list_lookup_total_correct. by rewrite list_lookup_fmap, lookup_seq_lt. Qed.

Lemma round_represents x q r :
  represents (r mod 7) x q -> (r < 42)%nat ->
  represents (S r mod 7) (E8_round x r (r mod 7)) (jh_round 256 (const_bit (const_nibbles r)) q).
Proof.
  intros H Hr. pose proof (Nat.mod_upper_bound r 7 ltac:(lia)) as Hk. pose proof H as [Hx _].
  split; [by apply E8_round_words|]. intros p Hp.
  assert (forall par, par = 0 \/ par = 1 -> pos (S r mod 7) par p = pos (r mod 7 + 1) par p) as Epos.
  { intros par Hpar. assert (S r mod 7 = r mod 7 + 1 \/ S r mod 7 = 0 /\ r mod 7 + 1 = 7)%nat as [-> | [-> ->]].
    - pose proof (Nat.div_mod r 7 ltac:(lia)) as E. destruct (Nat.eq_dec (r mod 7)%nat 6%nat) as [E6|E6].
      + right. split; [|lia]. replace (S r) with ((r / 7 + 1) * 7)%nat by lia. by apply Nat.Div0.mod_mul.
      + left. replace (S r) with (r mod 7 + 1 + (r / 7) * 7)%nat by lia. rewrite Nat.Div0.mod_add. apply Nat.mod_small. lia.
    - done.
    - symmetry. by apply (pos_facts 0 p ltac:(lia) Hp). }
  rewrite !Epos by lia. destruct (pos_facts (r mod 7) p Hk Hp) as (Hp1 & _).
  destruct (Hp1 0 ltac:(lia)) as (S0 & L0 & _). destruct (Hp1 1 ltac:(lia)) as (S1 & L1 & _).
  unfold jh_round. cbv zeta. rewrite !map_seq_total, !Z2Nat.id by lia. change (Z.of_nat 256) with 256. rewrite S0, S1. cbn [moved Z.eqb].
  destruct (lane_facts (r mod 7) p Hk Hp) as (_ & Hm & _).
  rewrite E8_round_lanes by done. rewrite <- (layers_lane x q r p), <- (layers_lane x q r (Z.lxor p (2 ^ Z.of_nat (r mod 7)))) by done.
  done.
Qed.

Lemma E8_rounds x : E8 x = foldl (fun x r => E8_round x r (r mod 7)) x (seq 0 42).
Proof. reflexivity. Qed.

Lemma E8_represents x q :
  represents 0 x q ->
  represents 0 (E8 x) (foldl (fun q r => jh_round 256 (const_bit (const_nibbles r)) q) q (seq 0 42)).
Proof.
  intros H. rewrite E8_rounds.
  assert (forall n, (n <= 42)%nat -> represents (n mod 7) (foldl (fun x r => E8_round x r (r mod 7)) x (seq 0 n))
    (foldl (fun q r => jh_round 256 (const_bit (const_nibbles r)) q) q (seq 0 n))) as Hn; [|by apply (Hn 42%nat)].
  induction n as [|n IH]; intros Hn; [exact H|].
  rewrite seq_S, !foldl_app. cbn [foldl]. change (0 + n)%nat with n. apply round_represents; [apply IH; lia|lia].
Qed.

(** ** Bytes *)

Lemma bit_words x w t :
  length x = 16%nat -> (w < 16)%nat -> (t < 64)%nat -> bit (words_bytes 8 x) (64 * w + t) = Z.testbit (x !!! w) (zb (Z.of_nat t)).
Proof.
  intros Hl Hw Ht. unfold bit.
  assert ((64 * w + t) / 8 = 8 * w + t / 8)%nat as ->.
  { replace (64 * w + t)%nat with (t + (8 * w) * 8)%nat by lia. rewrite Nat.div_add by lia. lia. }
  assert ((64 * w + t) mod 8 = t mod 8)%nat as ->.
  { replace (64 * w + t)%nat with (t + (8 * w) * 8)%nat by lia. by rewrite Nat.Div0.mod_add. }
  assert (t / 8 < 8)%nat as H8 by (apply Nat.Div0.div_lt_upper_bound; lia). pose proof (Nat.mod_upper_bound t 8 ltac:(lia)) as Hm.
  rewrite lookup_words_bytes by lia. change 256 with (2 ^ 8).
  rewrite Z.mod_pow2_bits_low, Z.div_pow2_bits by lia. f_equal. clear -Ht.
  do 64 (destruct t as [|t]; [reflexivity|]). lia.
Qed.

Lemma zb_mod p : 0 <= p -> zb p = zb (p mod 64).
Proof. intros H. unfold zb. by rewrite Z.mod_mod. Qed.

(** Bit [128 row + p] is the one of row [row] at lane [p]. *)
Lemma bit_row x row p :
  length x = 16%nat -> (row < 8)%nat -> (p < 128)%nat ->
  bit (words_bytes 8 x) (128 * row + p) = Z.testbit (x !!! (2 * row + Z.to_nat (Z.of_nat p / 64))%nat) (zb (Z.of_nat p)).
Proof.
  intros Hl Hr Hp. pose proof (Nat.div_mod p 64 ltac:(lia)) as E. pose proof (Nat.mod_upper_bound p 64 ltac:(lia)) as Hm.
  assert (p / 64 < 2)%nat as Hd by (apply Nat.Div0.div_lt_upper_bound; lia).
  replace (128 * row + p)%nat with (64 * (2 * row + p / 64) + p mod 64)%nat by lia.
  rewrite bit_words by lia. change 64 with (Z.of_nat 64). rewrite <- Nat2Z.inj_div, Nat2Z.id.
  rewrite (zb_mod (Z.of_nat p)), Nat2Z.inj_mod by lia. done.
Qed.

#[local] Opaque bit zb words_bytes.

Lemma group_represents x : jwords x -> represents 0 x (group (words_bytes 8 x)).
Proof.
  intros Hx. split; [done|]. intros p Hp. Local Transparent pos. cbn [pos].
  assert (exists n, (n < 128)%nat /\ p = Z.of_nat n) as (n & Hn & ->) by (exists (Z.to_nat p); lia).
  replace (Z.to_nat (2 * Z.of_nat n + 0)) with (n * 2)%nat by lia. replace (Z.to_nat (2 * Z.of_nat n + 1)) with (1 + n * 2)%nat by lia.
  unfold group. rewrite !map_seq_total by lia. cbv zeta.
  rewrite Nat.div_mul, Nat.Div0.mod_mul, Nat.div_add, Nat.Div0.mod_add by lia. change (1 / 2)%nat with 0%nat. change (1 mod 2)%nat with 1%nat.
  destruct Hx as [Hl _]. unfold lanes, get_column, oct_nibbles.
  rewrite !(Nat.mul_0_r 128), !Nat.mul_1_r, !Nat.add_0_r, !Nat.add_0_l.
  replace (n + 128 + 256)%nat with (128 * 3 + n)%nat by lia. replace (n + 128 + 512)%nat with (128 * 5 + n)%nat by lia.
  replace (n + 128 + 768)%nat with (128 * 7 + n)%nat by lia. replace (n + 128)%nat with (128 * 1 + n)%nat by lia.
  replace (n + 256)%nat with (128 * 2 + n)%nat by lia. replace (n + 512)%nat with (128 * 4 + n)%nat by lia.
  replace (n + 768)%nat with (128 * 6 + n)%nat by lia.
  rewrite !bit_row by lia. replace (bit (words_bytes 8 x) n) with (bit (words_bytes 8 x) (128 * 0 + n)) by done. rewrite bit_row by lia. done.
Qed.

Lemma nib4_bits b0 b1 b2 b3 :
  Z.testbit (nib4 b0 b1 b2 b3) 3 = b0 /\ Z.testbit (nib4 b0 b1 b2 b3) 2 = b1 /\
  Z.testbit (nib4 b0 b1 b2 b3) 1 = b2 /\ Z.testbit (nib4 b0 b1 b2 b3) 0 = b3.
Proof. destruct b0, b1, b2, b3; auto. Qed.

Lemma degroup_bit_row q x row p :
  represents 0 x q -> (row < 8)%nat -> (p < 128)%nat -> degroup_bit q (128 * row + p) = bit (words_bytes 8 x) (128 * row + p).
Proof.
  intros [[Hl _] H] Hr Hp. rewrite bit_row by done. specialize (H (Z.of_nat p) ltac:(lia)).
  unfold degroup_bit. cbn [pos] in H.
  replace (Z.to_nat (2 * Z.of_nat p + 0)) with (2 * p + 0)%nat in H by lia. replace (Z.to_nat (2 * Z.of_nat p + 1)) with (2 * p + 1)%nat in H by lia.
  rewrite (Nat.add_comm (128 * row)), (Nat.mul_comm 128), Nat.Div0.mod_add, Nat.div_add, (Nat.mod_small p), (Nat.div_small p) by lia.
  replace ((p + row * 128) / 256)%nat with (row / 2)%nat.
  2: { pose proof (Nat.div_mod row 2 ltac:(lia)). pose proof (Nat.mod_upper_bound row 2 ltac:(lia)).
       apply (Nat.div_unique _ _ _ (p + 128 * (row mod 2))); lia. }
  unfold lanes, get_column, oct_nibbles in H. injection H as H0 H1.
  do 8 (destruct row as [|row]; [cbn [Nat.add Nat.div Nat.modulo Nat.divmod Nat.sub Nat.mul fst snd]; simpl (3 - Z.of_nat _); rewrite ?Nat.add_0_r in *; first [rewrite H0 | rewrite H1]; apply nib4_bits|]). lia.
Qed.

Lemma byte_of_bits b : is_byte b -> byte_of (fun s => Z.testbit b (7 - Z.of_nat s)) = b.
Proof.
  intros Hb. apply Z.eqb_eq. apply (byte_cases (fun b => byte_of (fun s => Z.testbit b (7 - Z.of_nat s)) =? b)); [|done].
  vm_compute. reflexivity.
Qed.

Lemma byte_of_ext f g : (forall s, (s < 8)%nat -> f s = g s) -> byte_of f = byte_of g.
Proof. intros H. unfold byte_of. cbn [seq foldl]. by rewrite !H by lia. Qed.

Lemma degroup_spec q x : represents 0 x q -> degroup q = words_bytes 8 x.
Proof.
  intros H. pose proof H as [[Hl _] _].
  assert (length (words_bytes 8 x) = 128%nat) as HL by (by rewrite length_words_bytes, Hl).
  apply list_eq. intros j. destruct (Nat.lt_ge_cases j 128).
  - destruct (lookup_lt_is_Some_2 (words_bytes 8 x) j ltac:(lia)) as [b Hb]. rewrite Hb. unfold degroup.
    rewrite list_lookup_fmap, lookup_seq_lt by done. cbn [fmap option_fmap option_map]. f_equal.
    assert (is_byte b) as Hbyte by exact (Forall_lookup_1 _ _ _ _ (bytes_words_bytes 8 x) Hb).
    rewrite <- (byte_of_bits b Hbyte). apply byte_of_ext. intros s Hs. change (0 + j)%nat with j.
    pose proof (Nat.div_mod (8 * j + s) 128 ltac:(lia)) as E. pose proof (Nat.mod_upper_bound (8 * j + s) 128 ltac:(lia)) as Hm.
    rewrite E, (degroup_bit_row q x) by (try done; apply Nat.Div0.div_lt_upper_bound; lia). rewrite <- E.
    Local Transparent bit. unfold bit.
    rewrite (Nat.add_comm (8 * j)), (Nat.mul_comm 8), Nat.div_add, Nat.Div0.mod_add, Nat.div_small, Nat.mod_small by lia.
    by rewrite (list_lookup_total_correct _ _ _ Hb : words_bytes 8 x !!! (0 + j)%nat = b).
  - rewrite !lookup_ge_None_2; [done|lia|]. unfold degroup. by rewrite length_map, length_seq.
Qed.
#[local] Opaque bit degroup group.

Lemma E8_spec x : jwords x -> words_bytes 8 (E8 x) = ref_E8 (words_bytes 8 x) /\ jwords (E8 x).
Proof.
  intros Hx. pose proof (E8_represents x _ (group_represents x Hx)) as H. split; [|exact (proj1 H)].
  unfold ref_E8. symmetry. by apply degroup_spec.
Qed.

#[local] Opaque E8 ref_E8.
#[local] Transparent words_bytes.

Lemma jwords_le_words h : bytes h -> jwords (le_words 8 16 h).
Proof. intros H. split; [apply length_le_words|]. exact (words_le_words 8 16 h H). Qed.

(** The compression of a full buffer. *)
Lemma F8_spec s :
  jwords (jx s) -> bytes (jbuffer s) -> length (jbuffer s) = 64%nat ->
  words_bytes 8 (jx (F8 s)) = ref_F8 (words_bytes 8 (jx s)) (jbuffer s) /\ jwords (jx (F8 s)).
Proof.
  intros Hx Hb Hl. unfold F8. cbn [set_jx jx]. set (w := le_words 8 8 (jbuffer s)).
  assert (words_bytes 8 w = jbuffer s) as Ew by (by apply words_bytes_le_words).
  assert (length w = 8%nat) as Hlw by apply length_le_words.
  assert (words 64 w) as Hw by exact (words_le_words 8 8 _ Hb). destruct Hx as [Hlx Hwx].
  assert (jwords (xor_list (take 8 (jx s)) w ++ drop 8 (jx s))) as H1.
  { split; [rewrite length_app, length_xor_list, length_take, length_drop by (rewrite length_take; lia); lia|].
    apply Forall_app. split; [|by apply Forall_drop]. apply words_xor_list; [lia| |done]. by apply Forall_take. }
  destruct (E8_spec _ H1) as [E [H2 H3]].
  assert (words_bytes 8 (xor_list (take 8 (jx s)) w ++ drop 8 (jx s)) = xor_list (take 64 (words_bytes 8 (jx s))) (jbuffer s) ++ drop 64 (words_bytes 8 (jx s))) as E1.
  { rewrite words_bytes_app, words_bytes_xor by (rewrite length_take; lia).
    by rewrite Ew, <- (take_words_bytes 8 8), <- (drop_words_bytes 8 8). }
  unfold ref_F8. rewrite <- E1, <- E. set (y := E8 _) in *. split; [|split].
  - rewrite words_bytes_app, words_bytes_xor by (rewrite length_drop; lia).
    by rewrite Ew, <- (take_words_bytes 8 8), <- (drop_words_bytes 8 8).
  - rewrite length_app, length_xor_list, length_take, length_drop by (rewrite length_drop; lia). lia.
  - apply Forall_app. split; [by apply Forall_take|]. apply words_xor_list; [lia| |done]. by apply Forall_drop.
Qed.

(** ** Initial values *)

Lemma iv_of len h :
  words_bytes 8 (jx (F8 {| hashbitlen := 0; databitlen := 0; datasize_in_buffer := 0;
    jx := le_words 8 16 (be_bytes 2 len ++ replicate 126 0); jbuffer := replicate 64 0 |})) = h -> jh_iv len = h.
Proof.
  intros H. unfold jh_iv.
  assert (bytes (be_bytes 2 len ++ replicate 126 0)) as Hb
    by (apply bytes_app; [apply bytes_be_bytes|apply Forall_replicate; unfold is_byte; lia]).
  match type of H with words_bytes 8 (jx (F8 ?s)) = _ => rewrite (proj1 (F8_spec s (jwords_le_words _ Hb)
    ltac:(apply Forall_replicate; unfold is_byte; lia) eq_refl)) in H end.
  cbn [jx jbuffer] in H. rewrite words_bytes_le_words in H; [exact H|exact Hb|].
  rewrite length_app, length_be_bytes, length_replicate. done.
Qed.

Lemma iv_224 : jh_iv 224 = JH224_H0.
Proof. apply iv_of. vm_compute. reflexivity. Qed.
Lemma iv_256 : jh_iv 256 = JH256_H0.
Proof. apply iv_of. vm_compute. reflexivity. Qed.
Lemma iv_384 : jh_iv 384 = JH384_H0.
Proof. apply iv_of. vm_compute. reflexivity. Qed.
Lemma iv_512 : jh_iv 512 = JH512_H0.
Proof. apply iv_of. vm_compute. reflexivity. Qed.

#[local] Opaque F8 ref_F8 jh_iv.

(** ** Buffering *)

Lemma copy_in_full s D : (64 <= length D)%nat -> length (jbuffer s) = 64%nat -> copy_in s 0 D 64 = Ret (set_jbuffer (take 64 D) s).
Proof.
  intros HD Hl. unfold copy_in. destruct (Z.ltb_spec (Z.of_nat (length D)) 64); [lia|]. cbn [Z.ltb Z.compare orb Z.add].
  change (64 <? 64) with false. cbn [orb]. change (Z.to_nat 0) with 0%nat. change (Z.to_nat 64) with 64%nat.
  rewrite (drop_ge (jbuffer s)), app_nil_r by lia. done.
Qed.

(** The blocks of an update. *)
Lemma jh_blocks_spec q r : forall s D,
  jwords (jx s) -> length (jbuffer s) = 64%nat -> bytes D -> (64 * q <= length D)%nat -> 0 <= r < 512 ->
  exists x buf, jh_blocks q s D (512 * Z.of_nat q + r) = Ret (set_jx x (set_jbuffer buf s), drop (64 * q) D, r) /\
    jwords x /\ words_bytes 8 x = jh_chain (words_bytes 8 (jx s)) D q /\ length buf = 64%nat.
Proof.
  induction q as [|q IH]; intros s D Hx Hl HD Hq Hr; cbn [jh_blocks].
  - destruct (Z.ltb_spec (512 * Z.of_nat 0 + r) 512); [|lia]. exists (jx s), (jbuffer s). split; [|done]. by destruct s.
  - destruct (Z.ltb_spec (512 * Z.of_nat (S q) + r) 512); [lia|]. rewrite copy_in_full by lia. cbn [bind].
    assert (length (take 64 D) = 64%nat) as Ht by (rewrite length_take; lia).
    destruct (F8_spec (set_jbuffer (take 64 D) s) Hx (bytes_take 64 D HD) Ht) as [EF HF].
    replace (512 * Z.of_nat (S q) + r - 512) with (512 * Z.of_nat q + r) by lia.
    destruct (IH (F8 (set_jbuffer (take 64 D) s)) (drop 64 D)) as (x & buf & E & H1 & H2 & H3).
    + exact HF.
    + Local Transparent F8. exact Ht.
    + by apply bytes_drop.
    + rewrite length_drop. lia.
    + done.
    + rewrite E. exists x, buf. split; [|split; [done|split; [|done]]].
      * rewrite drop_drop. replace (64 + 64 * q)%nat with (64 * S q)%nat by lia. reflexivity.
      * rewrite H2. cbn [fold_blocks]. by rewrite EF.
Qed.
#[local] Opaque F8.

Lemma land_511 n : 0 <= n -> Z.land n 0x1ff = n mod 512.
Proof. intros H. change 0x1ff with (Z.ones 9). by rewrite Z.land_ones. Qed.

Lemma land_7 n : 0 <= n -> Z.land n 7 = n mod 8.
Proof. intros H. change 7 with (Z.ones 3). by rewrite Z.land_ones. Qed.

Section Message.
Context (data : list Z) (bits : nat) (Hdata : bytes data) (Hlen : ((bits + 7) / 8 <= length data)%nat) (H64 : Z.of_nat bits < 2 ^ 64).
#[local] Abbreviation q := (bits / 512)%nat.
#[local] Abbreviation r := (bits mod 512)%nat.
(** Whole bytes, and all bytes, of the last block. *)
#[local] Abbreviation k := (r / 8)%nat.
#[local] Abbreviation c := ((r + 7) / 8)%nat.

Lemma split_bits : bits = (512 * q + r)%nat /\ (r < 512)%nat /\ (k < 64)%nat /\ (c = if (r mod 8 =? 0)%nat then k else k + 1)%nat /\
  (64 * q + c <= length data)%nat /\ (bits / 8 = 64 * q + k)%nat /\ (bits mod 8 = r mod 8)%nat /\ (k <= c)%nat /\ r = (8 * k + r mod 8)%nat /\ (r mod 8 < 8)%nat.
Proof.
  pose proof (Nat.div_mod bits 512 ltac:(lia)) as E. pose proof (Nat.mod_upper_bound bits 512 ltac:(lia)) as Hr.
  pose proof (Nat.div_mod r 8 ltac:(lia)) as E8. pose proof (Nat.mod_upper_bound r 8 ltac:(lia)) as Hr8.
  assert (k < 64)%nat as Hk by (apply Nat.Div0.div_lt_upper_bound; lia).
  assert (c = if (r mod 8 =? 0)%nat then k else k + 1)%nat as Hc.
  { symmetry. destruct (Nat.eqb_spec (r mod 8) 0) as [E0|E0].
    - apply (Nat.div_unique _ _ _ 7); lia.
    - apply (Nat.div_unique _ _ _ (r mod 8 - 1)); lia. }
  assert ((bits + 7) / 8 = 64 * q + c)%nat as E7.
  { replace (bits + 7)%nat with (r + 7 + (64 * q) * 8)%nat by lia. rewrite Nat.div_add by lia. lia. }
  assert (bits / 8 = 64 * q + k)%nat as Eb.
  { rewrite E at 1. replace (512 * q + r)%nat with (r + (64 * q) * 8)%nat by lia. rewrite Nat.div_add by lia. lia. }
  assert (bits mod 8 = r mod 8)%nat as Em.
  { rewrite E at 1. replace (512 * q + r)%nat with (r + (64 * q) * 8)%nat by lia. by rewrite Nat.Div0.mod_add. }
  repeat split; try done; try lia. destruct (r mod 8 =? 0)%nat; lia.
Qed.

(** The state after one update from the start. *)
Definition updated (s : jstate) (len : Z) : Prop :=
  hashbitlen s = len /\ databitlen s = Z.of_nat bits /\ datasize_in_buffer s = Z.of_nat r /\ jwords (jx s) /\
  words_bytes 8 (jx s) = jh_chain (jh_iv len) data q /\ length (jbuffer s) = 64%nat /\ take c (jbuffer s) = take c (drop (64 * q) data).

Lemma jh_Update_spec s len :
  hashbitlen s = len -> databitlen s = 0 -> datasize_in_buffer s = 0 -> jwords (jx s) -> words_bytes 8 (jx s) = jh_iv len ->
  length (jbuffer s) = 64%nat -> yields (jh_Update s data (Z.of_nat bits)) (fun s' => updated s' len).
Proof.
  intros H1 H2 H3 H4 H5 H6. destruct split_bits as (Eb & Hr & Hk & Hc & Hl & _ & _ & _ & Er8 & Hr8). unfold jh_Update. cbv zeta.
  unfold update_short, update_full. cbn [set_databitlen datasize_in_buffer]. rewrite H3. cbn [Z.ltb Z.compare andb bind set_databitlen datasize_in_buffer]. rewrite ?H3. cbn [Z.ltb Z.compare andb bind].
  rewrite H2. assert (addw 64 0 (Z.of_nat bits) = Z.of_nat bits) as -> by (unfold addw, uwrap; apply Z.mod_small; lia).
  assert (Z.to_nat (Z.of_nat bits / 512) = q) as -> by (change 512 with (Z.of_nat 512); rewrite <- Nat2Z.inj_div; apply Nat2Z.id).
  set (s1 := set_databitlen (Z.of_nat bits) s).
  assert (Z.of_nat bits = 512 * Z.of_nat q + Z.of_nat r) as Eq by lia.
  replace (jh_blocks q s1 data (Z.of_nat bits)) with (jh_blocks q s1 data (512 * Z.of_nat q + Z.of_nat r)) by (by rewrite <- Eq).
  destruct (jh_blocks_spec q (Z.of_nat r) s1 data H4 H6 Hdata ltac:(lia) ltac:(lia)) as (x & buf & -> & Hx & Ex & Hb). cbn [bind].
  destruct (Z.ltb_spec 0 (Z.of_nat r)).
  - assert ((if Z.land (Z.of_nat r) 7 =? 0 then Z.shiftr (Z.land (Z.of_nat r) 511) 3 else Z.shiftr (Z.land (Z.of_nat r) 511) 3 + 1) = Z.of_nat c) as ->.
    { rewrite land_7, land_511, Z.shiftr_div_pow2, (Z.mod_small _ 512) by lia. change (2 ^ 3) with (Z.of_nat 8). rewrite <- Nat2Z.inj_div.
      change 8 with (Z.of_nat 8) at 1. rewrite <- Nat2Z.inj_mod, Hc.
      destruct (Nat.eqb_spec (r mod 8) 0), (Z.eqb_spec (Z.of_nat (r mod 8)) 0); lia. }
    assert (c <= 64)%nat as Hc64 by (rewrite Hc; destruct (r mod 8 =? 0)%nat; lia).
    unfold copy_in. destruct (Z.ltb_spec 64 (0 + Z.of_nat c)); [lia|].
    destruct (Z.ltb_spec (Z.of_nat (length (drop (64 * q) data))) (Z.of_nat c)); [rewrite length_drop in *; lia|].
    cbn [orb bind]. apply yields_ret. rewrite Nat2Z.id. change (Z.to_nat 0) with 0%nat. rewrite take_0. cbn [app Nat.add].
    split; [done|]. split; [done|]. split; [done|]. split; [done|]. split; [etransitivity; [exact Ex|]; change (jx s1) with (jx s); by rewrite H5|].
    cbn [set_datasize set_jbuffer set_jx jbuffer].
    assert (length (take c (drop (64 * q) data)) = c) as Ht by (rewrite length_take, length_drop; lia).
    split; [rewrite length_app, Ht, length_drop; lia|]. by rewrite take_app_length'.
  - apply yields_ret. assert (r = 0)%nat as E0 by lia.
    split; [done|]. split; [done|]. split; [cbn [set_jx set_jbuffer datasize_in_buffer s1 set_databitlen]; rewrite H3, E0; done|].
    split; [done|]. split; [etransitivity; [exact Ex|]; change (jx s1) with (jx s); by rewrite H5|]. split; [done|]. rewrite E0. done.
Qed.

(** The unused bits of the last byte are zero, as Update assumes. *)
Definition clean : Prop := (bits mod 8 <> 0)%nat -> (data !!! (bits / 8)%nat) mod 2 ^ (8 - Z.of_nat (bits mod 8)) = 0.

Lemma length_closed : length (close_bits data bits) = (64 * q + k + 1)%nat.
Proof.
  destruct split_bits as (_ & _ & _ & _ & Hl & E8 & _ & Hkc & _). unfold close_bits. rewrite length_app, length_take, E8.
  rewrite Nat.min_l by lia. simpl. lia.
Qed.

Lemma padded_whole :
  r = 0%nat -> jh_padded data bits = take (64 * q) data ++ [0x80] ++ replicate 55 0 ++ be_bytes 8 (Z.of_nat bits).
Proof.
  intros E0. destruct split_bits as (Eb & _ & _ & _ & _ & E8 & Em & _). unfold jh_padded. cbv zeta. rewrite length_closed, E0.
  assert ((bits + 511) / 512 = q)%nat as -> by (rewrite Eb at 1; rewrite E0; symmetry; apply (Nat.div_unique _ _ _ 511); lia).
  replace (64 * q + 48 - (64 * q + 0 / 8 + 1))%nat with 47%nat by (change (0 / 8)%nat with 0%nat; lia).
  unfold close_bits. rewrite Em, E8, E0. change (0 mod 8 =? 0)%nat with true. change (0 / 8)%nat with 0%nat.
  rewrite Nat.add_0_r, <- !app_assoc. do 2 f_equal.
  rewrite <- (Z.add_0_r (Z.of_nat bits)) at 1. change 0 with (2 ^ (8 * Z.of_nat 8) * 0) at 2.
  rewrite <- (be_bytes_app 8 8) by (unfold word; lia). rewrite app_assoc. reflexivity.
Qed.

Lemma padded_partial :
  r <> 0%nat -> jh_padded data bits =
  take (64 * q) data ++ (drop (64 * q) (close_bits data bits) ++ replicate (63 - k) 0) ++ replicate 56 0 ++ be_bytes 8 (Z.of_nat bits).
Proof.
  intros E0. destruct split_bits as (Eb & Hr & Hk & _ & Hl & E8 & Em & Hkc & _). unfold jh_padded. cbv zeta. rewrite length_closed.
  assert ((bits + 511) / 512 = q + 1)%nat as -> by (rewrite Eb at 1; symmetry; apply (Nat.div_unique _ _ _ (r - 1)); lia).
  replace (64 * (q + 1) + 48 - (64 * q + k + 1))%nat with (63 - k + 48)%nat by lia. rewrite replicate_add.
  rewrite <- (take_drop (64 * q) (close_bits data bits)) at 1.
  assert (take (64 * q) (close_bits data bits) = take (64 * q) data) as ->.
  { unfold close_bits. rewrite take_app_le, take_take, Nat.min_l by (rewrite ?length_take; lia). done. }
  rewrite <- !app_assoc. do 3 f_equal.
  rewrite <- (Z.add_0_r (Z.of_nat bits)) at 1. change 0 with (2 ^ (8 * Z.of_nat 8) * 0) at 2.
  rewrite <- (be_bytes_app 8 8) by (unfold word; lia). rewrite app_assoc. reflexivity.
Qed.

(** The buffer with the bit 1 and zeros. *)
Definition close_byte (d : Z) : Z := u8 (Z.lor d (Z.shiftl 1 (7 - Z.of_nat (r mod 8)))).

Lemma close_byte_spec :
  clean -> (if (r mod 8 =? 0)%nat then close_byte 0 else close_byte (data !!! (64 * q + k)%nat)) :: [] =
  drop (64 * q + k) (close_bits data bits).
Proof.
  intros Hz. destruct split_bits as (Eb & Hr & Hk & Hc & Hl & E8 & Em & Hkc & _ & Hr8). unfold close_bits, clean in *. rewrite E8, Em in *.
  rewrite drop_app_length' by (rewrite length_take; lia). f_equal. unfold close_byte.
  destruct (Nat.eqb_spec (r mod 8) 0) as [E0|E0]; [by rewrite E0|]. specialize (Hz E0).
  destruct (lookup_lt_is_Some_2 data (64 * q + k)%nat ltac:(lia)) as [d Ed]. rewrite (list_lookup_total_correct _ _ _ Ed) in *.
  assert (is_byte d) as Hd by exact (Forall_lookup_1 _ _ _ _ Hdata Ed).
  revert E0 Hr8 Hz. generalize (r mod 8)%nat as m. intros m E0 Hm Hz.
  pose proof (byte_cases (fun d => forallb (fun m => let m := Z.of_nat m in negb (d mod 2 ^ (8 - m) =? 0) ||
    (u8 (Z.lor d (Z.shiftl 1 (7 - m))) =? d / 2 ^ (8 - m) * 2 ^ (8 - m) + 2 ^ (7 - m))) (seq 1 7)) ltac:(vm_compute; reflexivity) d Hd) as H.
  cbv beta in H. rewrite forallb_forall in H. specialize (H m ltac:(apply in_seq; lia)). cbv zeta in H. rewrite Hz in H.
  cbn [Z.eqb negb orb] in H. by apply Z.eqb_eq in H.
Qed.

Lemma pad_buffer buf :
  clean -> length buf = 64%nat -> take c buf = take c (drop (64 * q) data) ->
  let b0 := take c buf ++ replicate (64 - c) 0 in
  exists d, b0 !! k = Some d /\ <[k := close_byte d]> b0 = drop (64 * q) (close_bits data bits) ++ replicate (63 - k) 0.
Proof.
  intros Hz Hl E b0. pose proof (close_byte_spec Hz) as Hcb. destruct split_bits as (Eb & Hr & Hk & Hc & Hlen' & E8 & Em & Hkc & _).
  assert (exists d, b0 = take k (drop (64 * q) data) ++ d :: replicate (63 - k) 0 /\ d = if (r mod 8 =? 0)%nat then 0 else data !!! (64 * q + k)%nat) as (d & Eb0 & Ed).
  { unfold b0. rewrite E. rewrite Hc. destruct (r mod 8 =? 0)%nat eqn:Er.
    - exists 0. split; [|done]. f_equal. by replace (64 - k)%nat with (S (63 - k)) by lia.
    - exists (data !!! (64 * q + k)%nat). split; [|done].
      destruct (lookup_lt_is_Some_2 data (64 * q + k)%nat ltac:(lia)) as [d Ed]. rewrite (list_lookup_total_correct _ _ _ Ed).
      replace (k + 1)%nat with (S k) by lia. rewrite (take_S_r _ _ d) by (rewrite lookup_drop; done). rewrite <- app_assoc.
      by replace (64 - S k)%nat with (63 - k)%nat by lia. }
  assert (length (take k (drop (64 * q) data)) = k) as Ht by (rewrite length_take, length_drop; lia).
  exists d. rewrite Eb0. split; [rewrite lookup_app_r by lia; by rewrite Ht, Nat.sub_diag|].
  rewrite insert_app_r_alt by lia. rewrite Ht, Nat.sub_diag. cbn [insert list_insert].
  rewrite <- (take_drop k (drop (64 * q) (close_bits data bits))), drop_drop, <- Hcb, <- app_assoc. f_equal.
  - unfold close_bits. rewrite E8, drop_app_le by (rewrite length_take; lia). rewrite skipn_firstn_comm.
    rewrite take_app_le, take_take by (rewrite length_take, length_drop; lia). f_equal. lia.
  - rewrite Ed. by destruct (r mod 8 =? 0)%nat.
Qed.

(** One more block. *)
Lemma F8_block s M n blk h :
  jwords (jx s) -> words_bytes 8 (jx s) = jh_chain h M n -> length M = (64 * n)%nat -> bytes blk -> length blk = 64%nat ->
  let s' := F8 (set_jbuffer blk s) in jwords (jx s') /\ words_bytes 8 (jx s') = jh_chain h (M ++ blk) (n + 1).
Proof.
  intros Hx E HM Hb Hl s'. destruct (F8_spec (set_jbuffer blk s) Hx Hb Hl) as [E1 H1]. split; [exact H1|].
  rewrite fold_blocks_app by done. cbn [fold_blocks]. rewrite take_ge by lia. rewrite <- E. exact E1.
Qed.

Lemma length_fields s blk : databitlen (F8 (set_jbuffer blk s)) = databitlen s /\ hashbitlen (F8 (set_jbuffer blk s)) = hashbitlen s.
Proof. Local Transparent F8. done. Qed.
#[local] Opaque F8.

Lemma bytes_zeros n : bytes (replicate n 0).
Proof. apply Forall_replicate. unfold is_byte. lia. Qed.

Lemma bytes_closed : bytes (close_bits data bits).
Proof.
  destruct split_bits as (_ & _ & _ & _ & Hl & E8 & Em & Hkc & _ & Hr8). unfold close_bits. apply bytes_app; [by apply bytes_take|].
  apply List.Forall_cons; [|apply List.Forall_nil]. destruct (Nat.eqb_spec (bits mod 8) 0) as [E0|E0]; [unfold is_byte; lia|].
  rewrite Em in *. rewrite E8. assert (64 * q + k < length data)%nat as Hlt.
  { destruct split_bits as (_ & _ & _ & Hc & _). destruct (Nat.eqb_spec (r mod 8) 0); lia. }
  destruct (lookup_lt_is_Some_2 data (64 * q + k)%nat Hlt) as [d Ed]. rewrite (list_lookup_total_correct _ _ _ Ed).
  assert (is_byte d) as Hd by exact (Forall_lookup_1 _ _ _ _ Hdata Ed).
  assert (r mod 8 = 1 \/ r mod 8 = 2 \/ r mod 8 = 3 \/ r mod 8 = 4 \/ r mod 8 = 5 \/ r mod 8 = 6 \/ r mod 8 = 7)%nat as Hm by lia.
  unfold is_byte in *. destruct Hm as [-> | [-> | [-> | [-> | [-> | [-> | ->]]]]]];
    match goal with |- context [Z.of_nat ?n] => let z := eval vm_compute in (Z.of_nat n) in change (Z.of_nat n) with z end;
    pow_consts; Z.to_euclidean_division_equations; lia.
Qed.

Lemma jh_pad_spec s len :
  updated s len -> clean ->
  yields (jh_pad s) (fun s' => hashbitlen s' = len /\ jwords (jx s') /\
    words_bytes 8 (jx s') = jh_chain (jh_iv len) (jh_padded data bits) (length (jh_padded data bits) / 64)).
Proof.
  intros (H1 & H2 & H3 & H4 & H5 & H6 & H7) Hz. unfold jh_pad. rewrite land_511 by lia. rewrite H2, H3. unfold length_bytes.
  change 512 with (Z.of_nat 512). rewrite <- Nat2Z.inj_mod.
  destruct split_bits as (Eb & Hr & Hk & Hc & Hl & E8 & Em & Hkc & _ & Hr8).
  assert (words_bytes 8 (jx s) = jh_chain (jh_iv len) (take (64 * q) data) q) as H5' by (by rewrite fold_blocks_take).
  assert (length (take (64 * q) data) = 64 * q)%nat as Htq by (rewrite length_take; lia).
  destruct (Z.eqb_spec (Z.of_nat r) 0) as [E0|E0].
  - apply yields_ret. rewrite H2, padded_whole by lia.
    set (blk := [0x80] ++ replicate 55 0 ++ be_bytes 8 (Z.of_nat bits)).
    assert (bytes blk) as Hb by (apply bytes_app; [by apply bytesb_true|apply bytes_app; [apply bytes_zeros|apply bytes_be_bytes]]).
    assert (length blk = 64%nat) as Hlb by (unfold blk; by rewrite !length_app, length_replicate, length_be_bytes).
    destruct (F8_block s _ q blk _ H4 H5' Htq Hb Hlb) as [HA HB].
    rewrite length_app, Htq, Hlb. replace (64 * q + 64)%nat with ((q + 1) * 64)%nat by lia. rewrite Nat.div_mul by lia.
    split; [by rewrite (proj2 (length_fields s blk))|]. done.
  - assert (Z.shiftr (Z.of_nat r) 3 = Z.of_nat k) as -> by (rewrite Z.shiftr_div_pow2 by lia; change (2 ^ 3) with (Z.of_nat 8); by rewrite Nat2Z.inj_div).
    assert (Z.to_nat (if Z.land (Z.of_nat r) 7 =? 0 then Z.of_nat k else Z.of_nat k + 1) = c) as ->.
    { rewrite land_7 by lia. change 8 with (Z.of_nat 8). rewrite <- Nat2Z.inj_mod, Hc.
      destruct (Nat.eqb_spec (r mod 8) 0), (Z.eqb_spec (Z.of_nat (r mod 8)) 0); lia. }
    destruct (pad_buffer (jbuffer s) Hz H6 H7) as (d & Ed & Eins). rewrite (index_lookup _ _ d) by (rewrite ?Nat2Z.id; lia || done).
    cbn [bind]. apply yields_ret. rewrite Nat2Z.id, land_7 by lia.
    assert (Z.of_nat bits mod 8 = Z.of_nat (r mod 8)) as Em' by (change 8 with (Z.of_nat 8) at 1; by rewrite <- Nat2Z.inj_mod, Em).
    rewrite Em'. fold (close_byte d). rewrite Eins. set (b1 := drop (64 * q) (close_bits data bits) ++ replicate (63 - k) 0).
    assert (bytes b1) as Hb1 by (apply bytes_app; [apply bytes_drop, bytes_closed|apply bytes_zeros]).
    assert (length b1 = 64%nat) as Hl1 by (unfold b1; rewrite length_app, length_drop, length_closed, length_replicate; lia).
    destruct (F8_block s _ q b1 _ H4 H5' Htq Hb1 Hl1) as [HA HB]. destruct (length_fields s b1) as [HC HD].
    set (s1 := F8 (set_jbuffer b1 s)) in *. rewrite HC, H2.
    set (b2 := replicate 56 0 ++ be_bytes 8 (Z.of_nat bits)).
    assert (bytes b2) as Hb2 by (apply bytes_app; [apply bytes_zeros|apply bytes_be_bytes]).
    assert (length b2 = 64%nat) as Hl2 by (unfold b2; by rewrite length_app, length_replicate, length_be_bytes).
    assert (length (take (64 * q) data ++ b1) = 64 * (q + 1))%nat as HT1 by (rewrite length_app; lia).
    destruct (F8_block s1 _ (q + 1) b2 _ HA HB HT1 Hb2 Hl2) as [HE HF].
    rewrite padded_partial by lia. fold b1 b2. rewrite app_assoc, length_app, HT1, Hl2.
    replace (64 * (q + 1) + 64)%nat with ((q + 1 + 1) * 64)%nat by lia. rewrite Nat.div_mul by lia.
    split; [by rewrite (proj2 (length_fields s1 b2)), HD|]. done.
Qed.

Lemma jh_hash_spec s0 len :
  len = 224 \/ len = 256 \/ len = 384 \/ len = 512 -> length (jbuffer s0) = 64%nat -> clean ->
  jh_hash s0 len data (Z.of_nat bits) = Ret (SUCCESS, jh_ref len data bits).
Proof.
  intros Hlen' Hl Hz. unfold jh_hash.
  assert (jwords (jx (jh_Init s0 len)) /\ words_bytes 8 (jx (jh_Init s0 len)) = jh_iv len) as [Hx E].
  { destruct Hlen' as [-> | [-> | [-> | ->]]]; (split; [apply jwords_le_words; by apply bytesb_true|]);
      rewrite ?iv_224, ?iv_256, ?iv_384, ?iv_512; vm_compute; reflexivity. }
  assert ((len =? 224) || (len =? 256) || (len =? 384) || (len =? 512) = true) as -> by (destruct Hlen' as [-> | [-> | [-> | ->]]]; done).
  destruct (jh_Update_spec (jh_Init s0 len) len) as (s & -> & Hs); [done..|]. cbn [bind].
  destruct (jh_pad_spec s len Hs Hz) as (s' & E' & H1 & H2 & H3). unfold jh_Final. rewrite E'. cbn [bind]. rewrite H1, H3. unfold jh_ref. cbv zeta.
  assert (length (jh_chain (jh_iv len) (jh_padded data bits) (length (jh_padded data bits) / 64)) = 128%nat) as HL
    by (rewrite <- H3, length_words_bytes, (proj1 H2); done).
  do 2 f_equal. destruct Hlen' as [-> | [-> | [-> | ->]]]; cbn [Z.eqb Pos.eqb]; rewrite take_ge by (rewrite length_drop, HL; lia); reflexivity.
Qed.
End Message.

(** C29: JH with 224, 256, 384 and 512 bits: the bitsliced rounds with their
    seven alternating swaps and table of constants, the compression, the
    buffering of bits and the padding in one or two blocks give the digest of
    the definition on 256 four-bit elements, for every message of fewer than
    2^64 bits whose unused bits in the last byte are zero (as Update assumes);
    every other digest length is refused. *)
Theorem jh_hash_correct s0 data bits :
  length (jbuffer s0) = 64%nat -> bytes data -> ((bits + 7) / 8 <= length data)%nat -> Z.of_nat bits < 2 ^ 64 -> clean data bits ->
  forall len, jh_hash s0 len data (Z.of_nat bits) =
    if decide (len ∈ [224; 256; 384; 512]) then Ret (SUCCESS, jh_ref len data bits) else Ret (BAD_HASHLEN, []).
Proof.
  intros Hl HD Hn H64 Hz len. destruct (decide _) as [H|H].
  - apply jh_hash_spec; auto. rewrite !elem_of_cons in H. rewrite elem_of_nil in H. intuition.
  - rewrite !not_elem_of_cons in H. destruct H as (H1 & H2 & H3 & H4 & _). unfold jh_hash.
    by destruct (Z.eqb_spec len 224), (Z.eqb_spec len 256), (Z.eqb_spec len 384), (Z.eqb_spec len 512).
Qed.

Definition jh_blank : jstate := {| hashbitlen := 1; databitlen := 3; datasize_in_buffer := 7; jx := replicate 16 5; jbuffer := replicate 64 9 |}.

Lemma jh_hash_correct_witness : jh_hash jh_blank 256 [0xab; 0xc8] (Z.of_nat 13) = Ret (SUCCESS, jh_ref 256 [0xab; 0xc8] 13).
Proof.
  assert (clean [0xab; 0xc8] 13) as H by (intros _; reflexivity).
  exact (jh_hash_correct jh_blank [0xab; 0xc8] 13 eq_refl ltac:(by apply bytesb_true) ltac:(simpl; lia) ltac:(done) H 256).
Defined.

(** [hash_extra_jh]: JH-256 of the byte string; its assertion holds. *)
Theorem hash_extra_jh_correct s0 data :
  length (jbuffer s0) = 64%nat -> bytes data -> Z.of_nat (length data) < 2 ^ 61 ->
  hash_extra_jh s0 data (Z.of_nat (length data)) = Ret (jh_ref 256 data (8 * length data)).
Proof.
  intros Hl HD H61. unfold hash_extra_jh. rewrite uwrap_small by lia.
  replace (8 * Z.of_nat (length data)) with (Z.of_nat (8 * length data)) by lia.
  assert ((8 * length data + 7) / 8 <= length data)%nat as Hn by (apply Nat.lt_succ_r, Nat.Div0.div_lt_upper_bound; lia).
  assert (clean data (8 * length data)) as Hz by (intros H; rewrite Nat.mul_comm, Nat.Div0.mod_mul in H; done).
  change (32 * 8) with 256. by rewrite (jh_hash_spec data (8 * length data) HD Hn ltac:(lia) s0 256 ltac:(auto) Hl Hz).
Qed.

(** Buffered data and an update too short to complete the block: memcpy is
    given the free size of the buffer instead of the size of the data.  It
    reads past the end of data that is shorter than the free space, and with a
    partial last byte it writes one byte past the buffer. *)
Theorem jh_update_short_faults s data bits :
  0 < datasize_in_buffer s < 512 -> 0 <= bits -> datasize_in_buffer s + bits < 512 ->
  (bits mod 8 <> 0 \/ Z.of_nat (length data) < 64 - datasize_in_buffer s / 8) ->
  jh_Update s data bits = Fault OutOfBounds.
Proof.
  intros Hs Hb Hsum H. unfold jh_Update, update_short. cbn [set_databitlen datasize_in_buffer].
  destruct (Z.ltb_spec 0 (datasize_in_buffer s)); [|lia]. 
  assert (addw 64 (datasize_in_buffer s) bits = datasize_in_buffer s + bits) as -> by (unfold addw; apply uwrap_small; lia).
  destruct (Z.ltb_spec (datasize_in_buffer s + bits) 512); [|lia]. cbn [andb]. rewrite land_7, Z.shiftr_div_pow2 by lia. change (2 ^ 3) with 8.
  assert (0 <= datasize_in_buffer s / 8 < 64) as Hd by (Z.to_euclidean_division_equations; lia).
  rewrite !uwrap_small by lia. unfold copy_in.
  destruct (Z.eqb_spec (bits mod 8) 0).
  - destruct H as [H|H]; [done|]. destruct (Z.ltb_spec (Z.of_nat (length data)) (64 - datasize_in_buffer s / 8)); [|lia]. by rewrite orb_true_r.
  - destruct (Z.ltb_spec 64 (datasize_in_buffer s / 8 + (64 - datasize_in_buffer s / 8 + 1))); [done|lia].
Qed.

Lemma jh_update_short_faults_witness :
  jh_Update {| hashbitlen := 256; databitlen := 8; datasize_in_buffer := 8; jx := replicate 16 0; jbuffer := replicate 64 0 |} [1; 2] 16 = Fault OutOfBounds.
Proof. apply jh_update_short_faults; [by split|lia|done|right; vm_compute; reflexivity]. Defined.
