(* ===== verification/Aes.v ===== *)
(** AES as FIPS 197 defines it: a block is 16 bytes, row [r] of column [c] at
    [4 c + r]; the layers and their inverses, the key expansion, the cipher and
    the inverse cipher.  This is the reference for aesb.c and oaes_lib.c. *)

From S2P Require Import Prelude Limbs Bytes Words Gf256.

(** ** Layers *)

Definition aes_sub (s : list Z) : list Z := map sbox s.

Definition affine_inv (b : Z) : Z := Z.lxor (Z.lxor (Z.lxor (rotl 8 b 1) (rotl 8 b 3)) (rotl 8 b 6)) 5.
Definition inv_sbox (b : Z) : Z := ginv (affine_inv b).
Definition aes_inv_sub (s : list Z) : list Z := map inv_sbox s.

Definition block_map (f : nat -> nat -> Z) : list Z := concat (map (fun c => map (f c) (seq 0 4)) (seq 0 4)).

(** Row [r] moves [r] places to the left (to the right). *)
Definition aes_shift (s : list Z) : list Z := block_map (fun c r => s !!! (4 * ((c + r) mod 4) + r)%nat).
Definition aes_inv_shift (s : list Z) : list Z := block_map (fun c r => s !!! (4 * ((c + 4 - r) mod 4) + r)%nat).

Definition xor4 (f : nat -> Z) : Z := Z.lxor (Z.lxor (Z.lxor (f 0%nat) (f 1%nat)) (f 2%nat)) (f 3%nat).

(** A column times the circulant matrix with first row [m]. *)
Definition mix_col (m w : list Z) : list Z :=
  map (fun i => xor4 (fun j => gmul (m !!! ((j + 4 - i) mod 4)%nat) (w !!! j))) (seq 0 4).

Definition columns4 (f : list Z -> list Z) (s : list Z) : list Z :=
  f (take 4 s) ++ f (take 4 (drop 4 s)) ++ f (take 4 (drop 8 s)) ++ f (take 4 (drop 12 s)).

Definition aes_mix (s : list Z) : list Z := columns4 (mix_col [2; 3; 1; 1]) s.
Definition aes_inv_mix (s : list Z) : list Z := columns4 (mix_col [0xe; 0xb; 0xd; 9]) s.

Definition aes_round (k s : list Z) : list Z := xor_list (aes_mix (aes_shift (aes_sub s))) k.

(** ** Key expansion *)

Definition rot_word (w : list Z) : list Z := drop 1 w ++ take 1 w.
Definition rcon (j : nat) : list Z := [Nat.iter (j - 1) xtime 1; 0; 0; 0].

(** The word after the words [ws], for a key of [Nk] words. *)
Definition next_word (Nk : nat) (ws : list (list Z)) : list Z :=
  let i := length ws in
  let temp := ws !!! (i - 1)%nat in
  let temp :=
    if (i mod Nk =? 0)%nat then xor_list (aes_sub (rot_word temp)) (rcon (i / Nk))
    else if (6 <? Nk)%nat && (i mod Nk =? 4)%nat then aes_sub temp
    else temp in
  xor_list (ws !!! (i - Nk)%nat) temp.

Fixpoint words4 (n : nat) (l : list Z) : list (list Z) :=
  match n with
  | O => []
  | S n' => take 4 l :: words4 n' (drop 4 l)
  end.

(** All words of the schedule: the key, then [Nk + 7] times 4 words in all. *)
Definition key_words (Nk : nat) (key : list Z) : list (list Z) :=
  Nat.iter (4 * (Nk + 7) - Nk) (fun ws => ws ++ [next_word Nk ws]) (words4 Nk key).

Definition key_schedule (Nk : nat) (key : list Z) : list Z := concat (key_words Nk key).

Definition round_key (ks : list Z) (r : nat) : list Z := take 16 (drop (16 * r) ks).

(** ** Cipher *)

(** [Nr] rounds with the schedule [ks]; the last one has no MixColumns. *)
Definition aes_cipher (Nr : nat) (ks s : list Z) : list Z :=
  let s := xor_list s (round_key ks 0) in
  let s := foldl (fun s r => aes_round (round_key ks r) s) s (seq 1 (Nr - 1)) in
  xor_list (aes_shift (aes_sub s)) (round_key ks Nr).

Definition aes_inv_cipher (Nr : nat) (ks s : list Z) : list Z :=
  let s := xor_list s (round_key ks Nr) in
  let s := foldr (fun r s => aes_inv_mix (xor_list (aes_inv_sub (aes_inv_shift s)) (round_key ks r))) s (seq 1 (Nr - 1)) in
  xor_list (aes_inv_sub (aes_inv_shift s)) (round_key ks 0).

(** The vectors of FIPS 197, appendix C, for 128 and 256 bits. *)
Definition kat_input : list Z := map (fun i => Z.of_nat (17 * i)) (seq 0 16).
Definition kat_key (n : nat) : list Z := map Z.of_nat (seq 0 n).

Example aes128_kat :
  aes_cipher 10 (key_schedule 4 (kat_key 16)) kat_input =
  [0x69; 0xc4; 0xe0; 0xd8; 0x6a; 0x7b; 0x04; 0x30; 0xd8; 0xcd; 0xb7; 0x80; 0x70; 0xb4; 0xc5; 0x5a].
Proof. vm_compute. reflexivity. Qed.

Example aes256_kat :
  aes_cipher 14 (key_schedule 8 (kat_key 32)) kat_input =
  [0x8e; 0xa2; 0xb7; 0xca; 0x51; 0x67; 0x45; 0xbf; 0xea; 0xfc; 0x49; 0x90; 0x4b; 0x49; 0x60; 0x89].
Proof. vm_compute. reflexivity. Qed.

(** ** The layers are invertible *)

Definition block (s : list Z) : Prop := bytes s /\ length s = 16%nat.

#[global] Instance block_dec s : Decision (block s).
Proof. unfold block. apply _. Defined.

(** A list of known length, its elements named. *)
Ltac name_bytes s H := repeat (destruct s as [|? s]; try discriminate H).

Lemma inv_sbox_sbox b : is_byte b -> inv_sbox (sbox b) = b /\ is_byte (sbox b).
Proof.
  intros Hb. split; [|by apply sbox_byte].
  apply Z.eqb_eq, (byte_cases (fun b => inv_sbox (sbox b) =? b)); [vm_compute; reflexivity|done].
Qed.

Lemma inv_sbox_byte b : is_byte b -> is_byte (inv_sbox b).
Proof.
  intros Ha. pose proof (byte_cases (fun a => (0 <=? inv_sbox a) && (inv_sbox a <? 256)) ltac:(vm_compute; reflexivity) b Ha) as H.
  cbv beta in H. unfold is_byte. lia.
Qed.

Lemma aes_sub_inv s : bytes s -> aes_inv_sub (aes_sub s) = s.
Proof.
  unfold aes_inv_sub, aes_sub. induction 1 as [|b s Hb Hs IH]; [done|]. cbn [map]. by rewrite (proj1 (inv_sbox_sbox b Hb)), IH.
Qed.

Lemma aes_shift_inv s : length s = 16%nat -> aes_inv_shift (aes_shift s) = s.
Proof. intros H. name_bytes s H. reflexivity. Qed.

(** Multiplication by a constant is linear. *)
Lemma xtime_lxor a b : is_byte a -> is_byte b -> xtime (Z.lxor a b) = Z.lxor (xtime a) (xtime b) /\ is_byte (xtime a).
Proof.
  intros Ha Hb.
  assert (forall x, is_byte x -> xtime x = Z.lxor (Z.shiftl x 1) (if Z.testbit x 7 then 0x11b else 0)) as E.
  { intros x Hx. apply Z.eqb_eq, (byte_cases (fun x => xtime x =? Z.lxor (Z.shiftl x 1) (if Z.testbit x 7 then 0x11b else 0))); [vm_compute; reflexivity|done]. }
  assert (is_byte (Z.lxor a b)) as Hab by (apply (word_lxor 8); [lia|done|done]). split.
  - rewrite !E, Z.lxor_spec, Z.shiftl_lxor by done. apply Z.bits_inj'. intros n Hn.
    destruct (Z.testbit a 7), (Z.testbit b 7); cbn [xorb]; rewrite !Z.lxor_spec, ?Z.bits_0;
      destruct (Z.testbit (Z.shiftl a 1) n), (Z.testbit (Z.shiftl b 1) n), (Z.testbit 0x11b n); reflexivity.
  - pose proof (byte_cases (fun a => (0 <=? xtime a) && (xtime a <? 256)) ltac:(vm_compute; reflexivity) a Ha) as H. cbv beta in H. unfold is_byte. lia.
Qed.

Lemma xtime_iter n a b :
  is_byte a -> is_byte b ->
  Nat.iter n xtime (Z.lxor a b) = Z.lxor (Nat.iter n xtime a) (Nat.iter n xtime b) /\ is_byte (Nat.iter n xtime a) /\ is_byte (Nat.iter n xtime b).
Proof.
  intros Ha Hb. induction n as [|n (E & H1 & H2)]; [done|]. rewrite !Nat.iter_succ, E.
  split; [by apply xtime_lxor|]. split; [exact (proj2 (xtime_lxor _ _ H1 H1))|exact (proj2 (xtime_lxor _ _ H2 H2))].
Qed.

Lemma gmul_linear c a b : is_byte a -> is_byte b -> gmul c (Z.lxor a b) = Z.lxor (gmul c a) (gmul c b).
Proof.
  intros Ha Hb. unfold gmul. generalize (seq 0 8) as l. induction l as [|i l IH]; [done|]. cbn [foldr]. rewrite IH.
  destruct (Z.testbit c (Z.of_nat i)).
  - rewrite (proj1 (xtime_iter i a b Ha Hb)). rewrite !Z.lxor_assoc. f_equal. rewrite <- !Z.lxor_assoc. f_equal. apply Z.lxor_comm.
  - by rewrite !Z.lxor_0_r.
Qed.

Lemma gmul_byte c a : is_byte a -> is_byte (gmul c a).
Proof.
  intros Ha. unfold gmul. generalize (seq 0 8) as l. induction l as [|i l IH]; [unfold is_byte; simpl; lia|]. cbn [foldr].
  apply (word_lxor 8); [lia|exact IH|]. destruct (Z.testbit c (Z.of_nat i)); [exact (proj1 (proj2 (xtime_iter i a a Ha Ha)))|unfold word; lia].
Qed.

Lemma xor4_byte f : (forall j, (j < 4)%nat -> is_byte (f j)) -> is_byte (xor4 f).
Proof. intros H. unfold xor4. repeat (apply (word_lxor 8); [lia| |]); apply H; lia. Qed.

Lemma gmul_xor4 c f : (forall j, (j < 4)%nat -> is_byte (f j)) -> gmul c (xor4 f) = xor4 (fun j => gmul c (f j)).
Proof.
  intros H. unfold xor4. pose proof (H 0%nat ltac:(lia)). pose proof (H 1%nat ltac:(lia)). pose proof (H 2%nat ltac:(lia)). pose proof (H 3%nat ltac:(lia)).
  rewrite !gmul_linear; try done; repeat (apply (word_lxor 8); [lia| |]); done.
Qed.

Lemma lxor_swap a b c d : Z.lxor (Z.lxor a b) (Z.lxor c d) = Z.lxor (Z.lxor a c) (Z.lxor b d).
Proof. rewrite !Z.lxor_assoc. f_equal. rewrite <- !Z.lxor_assoc. f_equal. apply Z.lxor_comm. Qed.

Lemma xor4_lxor f g : xor4 (fun k => Z.lxor (f k) (g k)) = Z.lxor (xor4 f) (xor4 g).
Proof.
  unfold xor4. rewrite (lxor_swap (f 0%nat)). rewrite (lxor_swap (Z.lxor (f 0%nat) (f 1%nat))).
  by rewrite (lxor_swap (Z.lxor (Z.lxor (f 0%nat) (f 1%nat)) (f 2%nat))).
Qed.

Lemma xor4_exchange (g : nat -> nat -> Z) : xor4 (fun j => xor4 (g j)) = xor4 (fun k => xor4 (fun j => g j k)).
Proof. unfold xor4 at 1. rewrite <- !xor4_lxor. done. Qed.

(** The product of the two matrices is the identity, entry by entry. *)
Definition mix_entry (i k : nat) (b : Z) : Z :=
  xor4 (fun j => gmul ([0xe; 0xb; 0xd; 9] !!! ((j + 4 - i) mod 4)%nat) (gmul ([2; 3; 1; 1] !!! ((k + 4 - j) mod 4)%nat) b)).

Definition mix_entries_ok (b : Z) : bool :=
  forallb (fun i => forallb (fun k => mix_entry i k b =? if (i =? k)%nat then b else 0) (seq 0 4)) (seq 0 4).

Lemma mix_entries i k b : (i < 4)%nat -> (k < 4)%nat -> is_byte b -> mix_entry i k b = if (i =? k)%nat then b else 0.
Proof.
  intros Hi Hk Hb. assert (mix_entries_ok b = true) as H by (apply byte_cases; [vm_compute; reflexivity|done]).
  unfold mix_entries_ok in H. rewrite forallb_forall in H. specialize (H i ltac:(apply in_seq; lia)). rewrite forallb_forall in H.
  apply Z.eqb_eq, H, in_seq. lia.
Qed.

Lemma lookup_byte w i : bytes w -> (i < length w)%nat -> is_byte (w !!! i).
Proof.
  intros Hw Hi. destruct (lookup_lt_is_Some_2 w i Hi) as [b Hb].
  rewrite (list_lookup_total_correct _ _ _ Hb). exact (Forall_lookup_1 _ _ _ _ Hw Hb).
Qed.

Lemma mix_col_at m w i : (i < 4)%nat -> mix_col m w !!! i = xor4 (fun j => gmul (m !!! ((j + 4 - i) mod 4)%nat) (w !!! j)).
Proof. intros Hi. do 4 (destruct i as [|i]; [reflexivity|]). lia. Qed.

Lemma xor4_ext f g : (forall j, (j < 4)%nat -> f j = g j) -> xor4 f = xor4 g.
Proof. intros H. unfold xor4. by rewrite !H by lia. Qed.

Lemma mix_col_bytes m w : bytes w -> length w = 4%nat -> bytes (mix_col m w) /\ length (mix_col m w) = 4%nat.
Proof.
  intros Hw Hl. split; [|done]. unfold mix_col. apply Forall_forall. intros x Hx. apply in_map_iff in Hx as (i & <- & _).
  apply xor4_byte. intros j Hj. apply gmul_byte, lookup_byte; [done|lia].
Qed.

Lemma mix_col_inv w : bytes w -> length w = 4%nat -> mix_col [0xe; 0xb; 0xd; 9] (mix_col [2; 3; 1; 1] w) = w.
Proof.
  intros Hw Hl. apply list_eq_same_length with 4%nat; [done|done|]. intros i x y Hi Hx Hy.
  apply list_lookup_total_correct in Hx, Hy. subst x y. rewrite mix_col_at by done.
  rewrite (xor4_ext _ (fun j => xor4 (fun k => gmul ([0xe; 0xb; 0xd; 9] !!! ((j + 4 - i) mod 4)%nat) (gmul ([2; 3; 1; 1] !!! ((k + 4 - j) mod 4)%nat) (w !!! k))))).
  2: { intros j Hj. rewrite mix_col_at by done. apply gmul_xor4. intros k Hk. apply gmul_byte, lookup_byte; [done|lia]. }
  rewrite xor4_exchange. rewrite (xor4_ext _ (fun k => if (i =? k)%nat then w !!! k else 0)).
  2: { intros k Hk. apply (mix_entries i k (w !!! k)); [done|done|]. apply lookup_byte; [done|lia]. }
  unfold xor4. do 4 (destruct i as [|i]; [cbn [Nat.eqb]; by rewrite ?Z.lxor_0_r, ?Z.lxor_0_l|]). lia.
Qed.

Lemma columns4_block f s :
  (forall w, bytes w -> length w = 4%nat -> bytes (f w) /\ length (f w) = 4%nat) -> block s -> block (columns4 f s).
Proof.
  intros Hf [Hb Hl]. unfold columns4, block.
  assert (forall n, (n <= 12)%nat -> bytes (f (take 4 (drop n s))) /\ length (f (take 4 (drop n s))) = 4%nat) as H.
  { intros n Hn. apply Hf; [by apply bytes_take, bytes_drop|]. rewrite length_take, length_drop. lia. }
  pose proof (H 0%nat ltac:(lia)) as H0. rewrite drop_0 in H0. pose proof (H 4%nat ltac:(lia)). pose proof (H 8%nat ltac:(lia)). pose proof (H 12%nat ltac:(lia)).
  split; [repeat apply bytes_app; tauto|]. rewrite !length_app. lia.
Qed.

Lemma columns4_inv f g s :
  (forall w, bytes w -> length w = 4%nat -> length (f w) = 4%nat /\ g (f w) = w) -> block s -> columns4 g (columns4 f s) = s.
Proof.
  intros H [Hb Hl]. unfold columns4 at 2.
  assert (forall n, (n <= 12)%nat -> length (f (take 4 (drop n s))) = 4%nat /\ g (f (take 4 (drop n s))) = take 4 (drop n s)) as Hn.
  { intros n Hn. apply H; [by apply bytes_take, bytes_drop|]. rewrite length_take, length_drop. lia. }
  pose proof (Hn 0%nat ltac:(lia)) as [L0 E0]. rewrite drop_0 in L0, E0. pose proof (Hn 4%nat ltac:(lia)) as [L1 E1].
  pose proof (Hn 8%nat ltac:(lia)) as [L2 E2]. pose proof (Hn 12%nat ltac:(lia)) as [L3 E3].
  set (a := f (take 4 s)) in *. set (b := f (take 4 (drop 4 s))) in *. set (c := f (take 4 (drop 8 s))) in *. set (d := f (take 4 (drop 12 s))) in *.
  clearbody a b c d. unfold columns4. name_bytes a L0. name_bytes b L1. name_bytes c L2. name_bytes d L3.
  cbn [app take drop]. rewrite E0, E1, E2, E3. clear -Hl. name_bytes s Hl. reflexivity.
Qed.

Lemma aes_mix_inv s : block s -> aes_inv_mix (aes_mix s) = s.
Proof. apply columns4_inv. intros w Hw Hl. split; [done|]. by apply mix_col_inv. Qed.

(** ** Blocks stay blocks *)

Lemma block_sub s : block s -> block (aes_sub s).
Proof.
  intros [Hb Hl]. split; [|unfold aes_sub; by rewrite length_map]. unfold aes_sub. apply Forall_fmap.
  eapply Forall_impl; [|exact Hb]. intros b Hbb. exact (sbox_byte b Hbb).
Qed.

Lemma block_map_bytes f : (forall c r, (c < 4)%nat -> (r < 4)%nat -> is_byte (f c r)) -> block (block_map f).
Proof.
  intros H. split; [|done]. unfold block_map. cbn [seq map concat app]. repeat (apply List.Forall_cons; [apply H; lia|]). apply List.Forall_nil.
Qed.

Lemma block_shift s : block s -> block (aes_shift s).
Proof.
  intros [Hb Hl]. apply block_map_bytes. intros c r Hc Hr. apply lookup_byte; [done|].
  pose proof (Nat.mod_upper_bound (c + r) 4 ltac:(lia)). lia.
Qed.

Lemma block_mix s : block s -> block (aes_mix s).
Proof. apply columns4_block. intros w. apply mix_col_bytes. Qed.

Lemma block_xor s k : block s -> block k -> block (xor_list s k).
Proof. intros [H1 H2] [H3 H4]. split; [by apply bytes_xor_list|]. rewrite length_xor_list; congruence. Qed.

#[export] Hint Resolve block_sub block_shift block_mix block_xor : word.

Lemma block_round k s : block k -> block s -> block (aes_round k s).
Proof. unfold aes_round. auto with word. Qed.

(** ** Decryption inverts encryption *)

Lemma aes_round_inv k s : block k -> block s -> aes_inv_sub (aes_inv_shift (aes_inv_mix (xor_list (aes_round k s) k))) = s.
Proof.
  intros Hk Hs. unfold aes_round.
  assert (block (aes_shift (aes_sub s))) as H1 by auto with word. pose proof (block_mix _ H1) as H2.
  rewrite xor_list_involutive by (destruct Hk as [_ ->], H2 as [_ ->]; lia).
  rewrite aes_mix_inv by done. rewrite aes_shift_inv by (apply block_sub; done). apply aes_sub_inv, Hs.
Qed.

Section Schedule.
Context (ks : list Z) (Nr : nat) (HNr : (1 <= Nr)%nat) (Hks : forall r, (r <= Nr)%nat -> block (round_key ks r)).

Lemma rounds_block s n : block s -> (n < Nr)%nat -> block (foldl (fun s r => aes_round (round_key ks r) s) s (seq 1 n)).
Proof.
  intros Hs. induction n as [|n IH]; intros Hn; [done|]. rewrite seq_S, foldl_app. cbn [foldl]. apply block_round; [apply Hks; lia|]. apply IH. lia.
Qed.

(** Undoing the last [n] rounds, from the state before the last key addition on. *)
Lemma rounds_inv s n :
  block s -> (n < Nr)%nat ->
  foldr (fun r s => aes_inv_mix (xor_list (aes_inv_sub (aes_inv_shift s)) (round_key ks r)))
    (aes_shift (aes_sub (foldl (fun s r => aes_round (round_key ks r) s) s (seq 1 n)))) (seq 1 n) = aes_shift (aes_sub s).
Proof.
  intros Hs. induction n as [|n IH]; intros Hn; [done|]. rewrite seq_S, foldl_app, foldr_app. cbn [foldl foldr].
  assert (block (round_key ks (1 + n))) as Hk by (apply Hks; lia).
  pose proof (rounds_block s n Hs ltac:(lia)) as Hb. set (t := foldl _ s (seq 1 n)) in *.
  pose proof (block_round _ _ Hk Hb) as Hb'. rewrite aes_shift_inv by (apply block_sub; done). rewrite aes_sub_inv by apply Hb'.
  unfold aes_round at 1. assert (block (aes_shift (aes_sub t))) as Hst by auto with word. pose proof (block_mix _ Hst) as H2.
  rewrite xor_list_involutive by (destruct Hk as [_ ->], H2 as [_ ->]; lia). rewrite aes_mix_inv by done. apply IH. lia.
Qed.

Lemma aes_inv_cipher_cipher s : block s -> aes_inv_cipher Nr ks (aes_cipher Nr ks s) = s.
Proof.
  intros Hs. unfold aes_inv_cipher, aes_cipher. cbv zeta.
  assert (block (xor_list s (round_key ks 0))) as H0 by (apply block_xor; [done|apply Hks; lia]).
  pose proof (rounds_block _ (Nr - 1) H0 ltac:(lia)) as Hb. set (t := foldl _ _ (seq 1 (Nr - 1))) in Hb |- * at 1.
  assert (block (aes_shift (aes_sub t))) as Ht by auto with word. pose proof (Hks Nr ltac:(lia)) as Hk.
  rewrite xor_list_involutive by (destruct Hk as [_ ->], Ht as [_ ->]; lia). unfold t. rewrite rounds_inv by (done || lia).
  rewrite aes_shift_inv by (apply block_sub; done). rewrite aes_sub_inv by apply H0.
  pose proof (Hks 0%nat ltac:(lia)) as Hk0. apply xor_list_involutive. destruct Hk0 as [_ ->], Hs as [_ ->]. lia.
Qed.
End Schedule.
