(* ===== verification/Aesb.v ===== *)
(** The AES rounds of src/src/crypto/aesb.c, with its four look-up tables, and
    their equality with rounds of AES. *)

From S2P Require Import Prelude Limbs Bytes Words Gf256 Aes.

(** ** Tables *)

Definition sb_data : list Z :=
  [0x63; 0x7c; 0x77; 0x7b; 0xf2; 0x6b; 0x6f; 0xc5; 0x30; 0x01; 0x67; 0x2b; 0xfe; 0xd7; 0xab; 0x76;
   0xca; 0x82; 0xc9; 0x7d; 0xfa; 0x59; 0x47; 0xf0; 0xad; 0xd4; 0xa2; 0xaf; 0x9c; 0xa4; 0x72; 0xc0;
   0xb7; 0xfd; 0x93; 0x26; 0x36; 0x3f; 0xf7; 0xcc; 0x34; 0xa5; 0xe5; 0xf1; 0x71; 0xd8; 0x31; 0x15;
   0x04; 0xc7; 0x23; 0xc3; 0x18; 0x96; 0x05; 0x9a; 0x07; 0x12; 0x80; 0xe2; 0xeb; 0x27; 0xb2; 0x75;
   0x09; 0x83; 0x2c; 0x1a; 0x1b; 0x6e; 0x5a; 0xa0; 0x52; 0x3b; 0xd6; 0xb3; 0x29; 0xe3; 0x2f; 0x84;
   0x53; 0xd1; 0x00; 0xed; 0x20; 0xfc; 0xb1; 0x5b; 0x6a; 0xcb; 0xbe; 0x39; 0x4a; 0x4c; 0x58; 0xcf;
   0xd0; 0xef; 0xaa; 0xfb; 0x43; 0x4d; 0x33; 0x85; 0x45; 0xf9; 0x02; 0x7f; 0x50; 0x3c; 0x9f; 0xa8;
   0x51; 0xa3; 0x40; 0x8f; 0x92; 0x9d; 0x38; 0xf5; 0xbc; 0xb6; 0xda; 0x21; 0x10; 0xff; 0xf3; 0xd2;
   0xcd; 0x0c; 0x13; 0xec; 0x5f; 0x97; 0x44; 0x17; 0xc4; 0xa7; 0x7e; 0x3d; 0x64; 0x5d; 0x19; 0x73;
   0x60; 0x81; 0x4f; 0xdc; 0x22; 0x2a; 0x90; 0x88; 0x46; 0xee; 0xb8; 0x14; 0xde; 0x5e; 0x0b; 0xdb;
   0xe0; 0x32; 0x3a; 0x0a; 0x49; 0x06; 0x24; 0x5c; 0xc2; 0xd3; 0xac; 0x62; 0x91; 0x95; 0xe4; 0x79;
   0xe7; 0xc8; 0x37; 0x6d; 0x8d; 0xd5; 0x4e; 0xa9; 0x6c; 0x56; 0xf4; 0xea; 0x65; 0x7a; 0xae; 0x08;
   0xba; 0x78; 0x25; 0x2e; 0x1c; 0xa6; 0xb4; 0xc6; 0xe8; 0xdd; 0x74; 0x1f; 0x4b; 0xbd; 0x8b; 0x8a;
   0x70; 0x3e; 0xb5; 0x66; 0x48; 0x03; 0xf6; 0x0e; 0x61; 0x35; 0x57; 0xb9; 0x86; 0xc1; 0x1d; 0x9e;
   0xe1; 0xf8; 0x98; 0x11; 0x69; 0xd9; 0x8e; 0x94; 0x9b; 0x1e; 0x87; 0xe9; 0xce; 0x55; 0x28; 0xdf;
   0x8c; 0xa1; 0x89; 0x0d; 0xbf; 0xe6; 0x42; 0x68; 0x41; 0x99; 0x2d; 0x0f; 0xb0; 0x54; 0xbb; 0x16].

Definition WPOLY : Z := 0x011b.
Definition f2 (x : Z) : Z := Z.lxor (Z.shiftl x 1) (Z.land (Z.shiftr x 7) 1 * WPOLY).
Definition f3 (x : Z) : Z := Z.lxor (f2 x) x.

Definition bytes2word (b0 b1 b2 b3 : Z) : Z :=
  Z.lor (Z.lor (Z.lor (uwrap 32 (Z.shiftl b3 24)) (uwrap 32 (Z.shiftl b2 16))) (uwrap 32 (Z.shiftl b1 8))) b0.

Definition u0 (p : Z) : Z := bytes2word (f2 p) p p (f3 p).
Definition u1 (p : Z) : Z := bytes2word (f3 p) (f2 p) p p.
Definition u2 (p : Z) : Z := bytes2word p (f3 p) (f2 p) p.
Definition u3 (p : Z) : Z := bytes2word p p (f3 p) (f2 p).

(** [t_fn[4][256]] *)
Definition t_fn : list (list Z) := [map u0 sb_data; map u1 sb_data; map u2 sb_data; map u3 sb_data].

(** ** Rounds *)

Definition bval (x n : Z) : Z := Z.land (Z.shiftr x (8 * n)) 0xff.

(** The column that row [r] of column [c] comes from. *)
Definition fwd_var (x : list Z) (r c : nat) : Z := x !!! ((c + r) mod 4)%nat.

Definition four_tables (x : list Z) (c : nat) : Z :=
  let t r := (t_fn !!! r) !!! Z.to_nat (bval (fwd_var x r c) (Z.of_nat r)) in
  Z.lxor (Z.lxor (Z.lxor (t 0%nat) (t 1%nat)) (t 2%nat)) (t 3%nat).

(** [round(fwd_rnd, y, x, k)] *)
Definition fwd_rnd (x k : list Z) : list Z := map (fun c => Z.lxor (k !!! c) (four_tables x c)) (seq 0 4).

(** The four words at [in], and at [expandedKey + 16 r]; both fault outside the buffer. *)
Definition state_in (s : list Z) : outcome (list Z) :=
  if (length s <? 16)%nat then Fault OutOfBounds else Ret (le_words 4 4 s).

Definition aesb_single_round (inp expandedKey : list Z) : outcome (list Z) :=
  let* b0 := state_in inp in
  let* kp := state_in expandedKey in
  Ret (words_bytes 4 (fwd_rnd b0 kp)).

Definition aesb_pseudo_round (inp expandedKey : list Z) : outcome (list Z) :=
  let* b := state_in inp in
  let* b := foldM (fun r b => let* k := state_in (drop (16 * r) expandedKey) in Ret (fwd_rnd b k)) (seq 0 10) b in
  Ret (words_bytes 4 b).

(** ** A round is a round of AES *)

(** What a table contributes to the bytes of a column. *)
Definition table_column (r : nat) (b : Z) : list Z := map (fun i => gmul ([2; 3; 1; 1] !!! ((r + 4 - i) mod 4)%nat) (sbox b)) (seq 0 4).

Definition tables_ok (b : Z) : bool :=
  forallb (fun r => bool_decide (le_bytes 4 ((t_fn !!! r) !!! Z.to_nat b) = table_column r b) && bool_decide (word 32 ((t_fn !!! r) !!! Z.to_nat b))) (seq 0 4).

Lemma tables_spec r b : (r < 4)%nat -> is_byte b -> le_bytes 4 ((t_fn !!! r) !!! Z.to_nat b) = table_column r b /\ word 32 ((t_fn !!! r) !!! Z.to_nat b).
Proof.
  intros Hr Hb. assert (tables_ok b = true) as H by (apply byte_cases; [vm_compute; reflexivity|done]).
  unfold tables_ok in H. rewrite forallb_forall in H. specialize (H r ltac:(apply in_seq; lia)).
  rewrite andb_true_iff, !bool_decide_eq_true in H. exact H.
Qed.

Lemma bval_word s c n :
  bytes s -> length s = 16%nat -> (c < 4)%nat -> (n < 4)%nat -> bval (le_words 4 4 s !!! c) (Z.of_nat n) = s !!! (4 * c + n)%nat.
Proof.
  intros Hb Hl Hc Hn. unfold bval. rewrite Z.shiftr_div_pow2 by lia. change 0xff with (Z.ones 8). rewrite Z.land_ones by lia. change (2 ^ 8) with 256.
  rewrite <- (lookup_words_bytes 4) by (rewrite ?length_le_words; lia). by rewrite words_bytes_le_words.
Qed.

#[local] Opaque gmul sbox t_fn.

(** The words of a state, and back. *)
Definition wstate (x : list Z) : Prop := length x = 4%nat /\ words 32 x.

Lemma wstate_block s : block s -> wstate (le_words 4 4 s) /\ words_bytes 4 (le_words 4 4 s) = s.
Proof. intros [Hb Hl]. split; [split; [apply length_le_words|exact (words_le_words 4 4 s Hb)]|by apply words_bytes_le_words]. Qed.

Lemma four_tables_spec s c :
  block s -> (c < 4)%nat ->
  le_bytes 4 (four_tables (le_words 4 4 s) c) = mix_col [2; 3; 1; 1] (map (fun r => sbox (s !!! (4 * ((c + r) mod 4) + r)%nat)) (seq 0 4)) /\
  word 32 (four_tables (le_words 4 4 s) c).
Proof.
  intros [Hb Hl] Hc. unfold four_tables, fwd_var.
  assert (forall r, (r < 4)%nat -> bval (le_words 4 4 s !!! ((c + r) mod 4)%nat) (Z.of_nat r) = s !!! (4 * ((c + r) mod 4) + r)%nat /\
    is_byte (s !!! (4 * ((c + r) mod 4) + r)%nat)) as H.
  { intros r Hr. pose proof (Nat.mod_upper_bound (c + r) 4 ltac:(lia)). split; [by apply bval_word|]. apply lookup_byte; [done|lia]. }
  destruct (H 0%nat ltac:(lia)) as [-> B0]. destruct (H 1%nat ltac:(lia)) as [-> B1].
  destruct (H 2%nat ltac:(lia)) as [-> B2]. destruct (H 3%nat ltac:(lia)) as [-> B3]. clear H. cbn [map seq].
  revert B0 B1 B2 B3. generalize (s !!! (4 * ((c + 0) mod 4) + 0)%nat) (s !!! (4 * ((c + 1) mod 4) + 1)%nat)
    (s !!! (4 * ((c + 2) mod 4) + 2)%nat) (s !!! (4 * ((c + 3) mod 4) + 3)%nat). clear. intros x0 x1 x2 x3 B0 B1 B2 B3.
  destruct (tables_spec 0 x0 ltac:(lia) B0) as [E0 W0]. destruct (tables_spec 1 x1 ltac:(lia) B1) as [E1 W1].
  destruct (tables_spec 2 x2 ltac:(lia) B2) as [E2 W2]. destruct (tables_spec 3 x3 ltac:(lia) B3) as [E3 W3]. split.
  - rewrite !le_bytes_lxor, E0, E1, E2, E3. reflexivity.
  - repeat (apply (word_lxor 32); [lia| |]); assumption.
Qed.

#[local] Opaque four_tables.

Lemma mix_columns s : length s = 16%nat ->
  aes_mix (aes_shift (aes_sub s)) =
  concat (map (fun c => mix_col [2; 3; 1; 1] (map (fun r => sbox (s !!! (4 * ((c + r) mod 4) + r)%nat)) (seq 0 4))) (seq 0 4)).
Proof. intros H. name_bytes s H. reflexivity. Qed.

Lemma fwd_rnd_spec s k :
  block s -> block k ->
  words_bytes 4 (fwd_rnd (le_words 4 4 s) (le_words 4 4 k)) = aes_round k s /\ wstate (fwd_rnd (le_words 4 4 s) (le_words 4 4 k)).
Proof.
  intros Hs Hk. destruct (wstate_block k Hk) as [[Lk Wk] Ek].
  assert (forall c, (c < 4)%nat -> word 32 (le_words 4 4 k !!! c)) as Hkc.
  { intros c Hc. destruct (lookup_lt_is_Some_2 (le_words 4 4 k) c ltac:(lia)) as [w Ew].
    rewrite (list_lookup_total_correct _ _ _ Ew). exact (Forall_lookup_1 _ _ _ _ Wk Ew). }
  pose proof (four_tables_spec s 0 Hs ltac:(lia)) as [E0 W0]. pose proof (four_tables_spec s 1 Hs ltac:(lia)) as [E1 W1].
  pose proof (four_tables_spec s 2 Hs ltac:(lia)) as [E2 W2]. pose proof (four_tables_spec s 3 Hs ltac:(lia)) as [E3 W3]. split.
  - unfold aes_round. rewrite mix_columns by apply Hs. rewrite <- Ek at 2. rewrite xor_list_comm.
    assert (concat (map (fun c => mix_col [2; 3; 1; 1] (map (fun r => sbox (s !!! (4 * ((c + r) mod 4) + r)%nat)) (seq 0 4))) (seq 0 4)) =
      words_bytes 4 (map (four_tables (le_words 4 4 s)) (seq 0 4))) as ->.
    { unfold words_bytes. cbn [map seq concat]. cbn [map seq] in E0, E1, E2, E3. by rewrite E0, E1, E2, E3. }
    rewrite <- words_bytes_xor by done. f_equal.
  - split; [done|]. unfold fwd_rnd. cbn [map seq]. repeat (apply List.Forall_cons; [apply (word_lxor 32); [lia|apply Hkc; lia|assumption]|]). apply List.Forall_nil.
Qed.

#[local] Opaque fwd_rnd.

Lemma state_in_block s : block s -> state_in s = Ret (le_words 4 4 s).
Proof. intros [_ Hl]. unfold state_in. by destruct (Nat.ltb_spec (length s) 16); [lia|]. Qed.

Lemma state_in_take s : (16 <= length s)%nat -> state_in s = Ret (le_words 4 4 (take 16 s)).
Proof. intros Hl. unfold state_in. destruct (Nat.ltb_spec (length s) 16); [lia|]. by rewrite (le_words_take 4 4 16). Qed.

Lemma le_words_block x : wstate x -> le_words 4 4 (words_bytes 4 x) = x.
Proof. intros [Hl Hw]. pose proof (le_words_words_bytes 4 x [] Hw) as E. by rewrite app_nil_r, Hl in E. Qed.

Lemma aesb_single_round_spec s k : block s -> bytes k -> (16 <= length k)%nat -> aesb_single_round s k = Ret (aes_round (take 16 k) s).
Proof.
  intros Hs Hk Hl. unfold aesb_single_round. rewrite state_in_block, state_in_take by done. cbn [bind].
  assert (block (take 16 k)) as Hb by (split; [by apply bytes_take|rewrite length_take; lia]). by rewrite (proj1 (fwd_rnd_spec s _ Hs Hb)).
Qed.

(** Ten rounds with the first ten round keys, each with MixColumns. *)
Definition aes_ten (ks s : list Z) : list Z := foldl (fun s r => aes_round (round_key ks r) s) s (seq 0 10).

Lemma round_key_block ks r : bytes ks -> (16 * r + 16 <= length ks)%nat -> block (round_key ks r).
Proof. intros Hb Hl. split; [by apply bytes_take, bytes_drop|]. unfold round_key. rewrite length_take, length_drop. lia. Qed.

Lemma aes_ten_block ks s : bytes ks -> (160 <= length ks)%nat -> block s -> block (aes_ten ks s).
Proof.
  intros Hb Hl Hs. unfold aes_ten. cbn [foldl seq]. repeat (apply block_round; [apply round_key_block; [done|lia]|]). done.
Qed.

Lemma aesb_pseudo_round_spec s ks : block s -> bytes ks -> (160 <= length ks)%nat -> aesb_pseudo_round s ks = Ret (aes_ten ks s).
Proof.
  intros Hs Hk Hl. unfold aesb_pseudo_round. rewrite state_in_block by done. cbn [bind].
  assert (forall l s, Forall (fun r => r < 10)%nat l -> block s ->
    foldM (fun r b => let* k := state_in (drop (16 * r) ks) in Ret (fwd_rnd b k)) l (le_words 4 4 s) =
    Ret (le_words 4 4 (foldl (fun s r => aes_round (round_key ks r) s) s l)) /\
    block (foldl (fun s r => aes_round (round_key ks r) s) s l)) as H.
  { clear s Hs. induction l as [|r l IH]; intros s Hl10 Hs; [done|]. apply Forall_cons_1 in Hl10 as [Hr Hl10]. cbn [foldM foldl].
    rewrite state_in_take by (rewrite length_drop; lia). cbn [bind]. fold (round_key ks r).
    assert (block (round_key ks r)) as Hb by (apply round_key_block; [done|lia]).
    destruct (fwd_rnd_spec s _ Hs Hb) as [E W]. rewrite <- (le_words_block _ W), E. apply IH; [done|]. by apply block_round. }
  destruct (H (seq 0 10) s) as [-> Hb]; [|done|].
  - apply List.Forall_forall. intros r Hr%in_seq. lia.
  - cbn [bind]. unfold aes_ten. by rewrite (proj2 (wstate_block _ Hb)).
Qed.

(** Aesb.c: the table look-ups of one round are SubBytes, ShiftRows,
    MixColumns and AddRoundKey on every block and key, and the pseudo round is
    ten of them with the successive round keys, without an access outside the
    buffers. *)
Theorem aesb_rounds_correct s ks :
  block s -> bytes ks -> (160 <= length ks)%nat ->
  aesb_single_round s ks = Ret (aes_round (round_key ks 0) s) /\
  aesb_pseudo_round s ks = Ret (foldl (fun s r => aes_round (round_key ks r) s) s (seq 0 10)).
Proof.
  intros Hs Hk Hl. split; [|by apply aesb_pseudo_round_spec]. unfold round_key. rewrite drop_0. apply aesb_single_round_spec; [done|done|lia].
Qed.

Lemma aesb_rounds_correct_witness :
  aesb_single_round kat_input (key_schedule 4 (kat_key 16)) = Ret (aes_round (round_key (key_schedule 4 (kat_key 16)) 0) kat_input).
Proof.
  assert (bytes (key_schedule 4 (kat_key 16))) as H by (apply bytesb_true; vm_compute; reflexivity).
  apply (aesb_rounds_correct kat_input (key_schedule 4 (kat_key 16))); [split; [by apply bytesb_true|done]|exact H|].
  apply Nat.leb_le. vm_compute. reflexivity.
Defined.
