(* ===== verification/Oaes.v ===== *)
(** The AES library of src/src/crypto/oaes_lib.c (oaes_lib.h), in its build
    configuration: neither OAES_HAVE_ISAAC nor OAES_DEBUG is defined.

    A pointer that may be null is an [option]; the static helpers are only
    called with addresses of their callers' buffers, so that their tests for
    null cannot fire, and they work on the buffer's contents.  A buffer is a
    list as long as the object it stands for, beside the size the caller
    claims for it.  Whether a [calloc] succeeds, and what [rand] returns, are
    inputs.  The buffers of one call do not overlap. *)

From S2P Require Import Prelude Limbs Bytes Words Memory.

(** ** Tables *)

Definition oaes_sub_byte_value : list (list Z) :=
  [[0x63; 0x7c; 0x77; 0x7b; 0xf2; 0x6b; 0x6f; 0xc5; 0x30; 0x01; 0x67; 0x2b; 0xfe; 0xd7; 0xab; 0x76];
   [0xca; 0x82; 0xc9; 0x7d; 0xfa; 0x59; 0x47; 0xf0; 0xad; 0xd4; 0xa2; 0xaf; 0x9c; 0xa4; 0x72; 0xc0];
   [0xb7; 0xfd; 0x93; 0x26; 0x36; 0x3f; 0xf7; 0xcc; 0x34; 0xa5; 0xe5; 0xf1; 0x71; 0xd8; 0x31; 0x15];
   [0x04; 0xc7; 0x23; 0xc3; 0x18; 0x96; 0x05; 0x9a; 0x07; 0x12; 0x80; 0xe2; 0xeb; 0x27; 0xb2; 0x75];
   [0x09; 0x83; 0x2c; 0x1a; 0x1b; 0x6e; 0x5a; 0xa0; 0x52; 0x3b; 0xd6; 0xb3; 0x29; 0xe3; 0x2f; 0x84];
   [0x53; 0xd1; 0x00; 0xed; 0x20; 0xfc; 0xb1; 0x5b; 0x6a; 0xcb; 0xbe; 0x39; 0x4a; 0x4c; 0x58; 0xcf];
   [0xd0; 0xef; 0xaa; 0xfb; 0x43; 0x4d; 0x33; 0x85; 0x45; 0xf9; 0x02; 0x7f; 0x50; 0x3c; 0x9f; 0xa8];
   [0x51; 0xa3; 0x40; 0x8f; 0x92; 0x9d; 0x38; 0xf5; 0xbc; 0xb6; 0xda; 0x21; 0x10; 0xff; 0xf3; 0xd2];
   [0xcd; 0x0c; 0x13; 0xec; 0x5f; 0x97; 0x44; 0x17; 0xc4; 0xa7; 0x7e; 0x3d; 0x64; 0x5d; 0x19; 0x73];
   [0x60; 0x81; 0x4f; 0xdc; 0x22; 0x2a; 0x90; 0x88; 0x46; 0xee; 0xb8; 0x14; 0xde; 0x5e; 0x0b; 0xdb];
   [0xe0; 0x32; 0x3a; 0x0a; 0x49; 0x06; 0x24; 0x5c; 0xc2; 0xd3; 0xac; 0x62; 0x91; 0x95; 0xe4; 0x79];
   [0xe7; 0xc8; 0x37; 0x6d; 0x8d; 0xd5; 0x4e; 0xa9; 0x6c; 0x56; 0xf4; 0xea; 0x65; 0x7a; 0xae; 0x08];
   [0xba; 0x78; 0x25; 0x2e; 0x1c; 0xa6; 0xb4; 0xc6; 0xe8; 0xdd; 0x74; 0x1f; 0x4b; 0xbd; 0x8b; 0x8a];
   [0x70; 0x3e; 0xb5; 0x66; 0x48; 0x03; 0xf6; 0x0e; 0x61; 0x35; 0x57; 0xb9; 0x86; 0xc1; 0x1d; 0x9e];
   [0xe1; 0xf8; 0x98; 0x11; 0x69; 0xd9; 0x8e; 0x94; 0x9b; 0x1e; 0x87; 0xe9; 0xce; 0x55; 0x28; 0xdf];
   [0x8c; 0xa1; 0x89; 0x0d; 0xbf; 0xe6; 0x42; 0x68; 0x41; 0x99; 0x2d; 0x0f; 0xb0; 0x54; 0xbb; 0x16]].

Definition oaes_inv_sub_byte_value : list (list Z) :=
  [[0x52; 0x09; 0x6a; 0xd5; 0x30; 0x36; 0xa5; 0x38; 0xbf; 0x40; 0xa3; 0x9e; 0x81; 0xf3; 0xd7; 0xfb];
   [0x7c; 0xe3; 0x39; 0x82; 0x9b; 0x2f; 0xff; 0x87; 0x34; 0x8e; 0x43; 0x44; 0xc4; 0xde; 0xe9; 0xcb];
   [0x54; 0x7b; 0x94; 0x32; 0xa6; 0xc2; 0x23; 0x3d; 0xee; 0x4c; 0x95; 0x0b; 0x42; 0xfa; 0xc3; 0x4e];
   [0x08; 0x2e; 0xa1; 0x66; 0x28; 0xd9; 0x24; 0xb2; 0x76; 0x5b; 0xa2; 0x49; 0x6d; 0x8b; 0xd1; 0x25];
   [0x72; 0xf8; 0xf6; 0x64; 0x86; 0x68; 0x98; 0x16; 0xd4; 0xa4; 0x5c; 0xcc; 0x5d; 0x65; 0xb6; 0x92];
   [0x6c; 0x70; 0x48; 0x50; 0xfd; 0xed; 0xb9; 0xda; 0x5e; 0x15; 0x46; 0x57; 0xa7; 0x8d; 0x9d; 0x84];
   [0x90; 0xd8; 0xab; 0x00; 0x8c; 0xbc; 0xd3; 0x0a; 0xf7; 0xe4; 0x58; 0x05; 0xb8; 0xb3; 0x45; 0x06];
   [0xd0; 0x2c; 0x1e; 0x8f; 0xca; 0x3f; 0x0f; 0x02; 0xc1; 0xaf; 0xbd; 0x03; 0x01; 0x13; 0x8a; 0x6b];
   [0x3a; 0x91; 0x11; 0x41; 0x4f; 0x67; 0xdc; 0xea; 0x97; 0xf2; 0xcf; 0xce; 0xf0; 0xb4; 0xe6; 0x73];
   [0x96; 0xac; 0x74; 0x22; 0xe7; 0xad; 0x35; 0x85; 0xe2; 0xf9; 0x37; 0xe8; 0x1c; 0x75; 0xdf; 0x6e];
   [0x47; 0xf1; 0x1a; 0x71; 0x1d; 0x29; 0xc5; 0x89; 0x6f; 0xb7; 0x62; 0x0e; 0xaa; 0x18; 0xbe; 0x1b];
   [0xfc; 0x56; 0x3e; 0x4b; 0xc6; 0xd2; 0x79; 0x20; 0x9a; 0xdb; 0xc0; 0xfe; 0x78; 0xcd; 0x5a; 0xf4];
   [0x1f; 0xdd; 0xa8; 0x33; 0x88; 0x07; 0xc7; 0x31; 0xb1; 0x12; 0x10; 0x59; 0x27; 0x80; 0xec; 0x5f];
   [0x60; 0x51; 0x7f; 0xa9; 0x19; 0xb5; 0x4a; 0x0d; 0x2d; 0xe5; 0x7a; 0x9f; 0x93; 0xc9; 0x9c; 0xef];
   [0xa0; 0xe0; 0x3b; 0x4d; 0xae; 0x2a; 0xf5; 0xb0; 0xc8; 0xeb; 0xbb; 0x3c; 0x83; 0x53; 0x99; 0x61];
   [0x17; 0x2b; 0x04; 0x7e; 0xba; 0x77; 0xd6; 0x26; 0xe1; 0x69; 0x14; 0x63; 0x55; 0x21; 0x0c; 0x7d]].

Definition oaes_gf_mul_2 : list (list Z) :=
  [[0x00; 0x02; 0x04; 0x06; 0x08; 0x0a; 0x0c; 0x0e; 0x10; 0x12; 0x14; 0x16; 0x18; 0x1a; 0x1c; 0x1e];
   [0x20; 0x22; 0x24; 0x26; 0x28; 0x2a; 0x2c; 0x2e; 0x30; 0x32; 0x34; 0x36; 0x38; 0x3a; 0x3c; 0x3e];
   [0x40; 0x42; 0x44; 0x46; 0x48; 0x4a; 0x4c; 0x4e; 0x50; 0x52; 0x54; 0x56; 0x58; 0x5a; 0x5c; 0x5e];
   [0x60; 0x62; 0x64; 0x66; 0x68; 0x6a; 0x6c; 0x6e; 0x70; 0x72; 0x74; 0x76; 0x78; 0x7a; 0x7c; 0x7e];
   [0x80; 0x82; 0x84; 0x86; 0x88; 0x8a; 0x8c; 0x8e; 0x90; 0x92; 0x94; 0x96; 0x98; 0x9a; 0x9c; 0x9e];
   [0xa0; 0xa2; 0xa4; 0xa6; 0xa8; 0xaa; 0xac; 0xae; 0xb0; 0xb2; 0xb4; 0xb6; 0xb8; 0xba; 0xbc; 0xbe];
   [0xc0; 0xc2; 0xc4; 0xc6; 0xc8; 0xca; 0xcc; 0xce; 0xd0; 0xd2; 0xd4; 0xd6; 0xd8; 0xda; 0xdc; 0xde];
   [0xe0; 0xe2; 0xe4; 0xe6; 0xe8; 0xea; 0xec; 0xee; 0xf0; 0xf2; 0xf4; 0xf6; 0xf8; 0xfa; 0xfc; 0xfe];
   [0x1b; 0x19; 0x1f; 0x1d; 0x13; 0x11; 0x17; 0x15; 0x0b; 0x09; 0x0f; 0x0d; 0x03; 0x01; 0x07; 0x05];
   [0x3b; 0x39; 0x3f; 0x3d; 0x33; 0x31; 0x37; 0x35; 0x2b; 0x29; 0x2f; 0x2d; 0x23; 0x21; 0x27; 0x25];
   [0x5b; 0x59; 0x5f; 0x5d; 0x53; 0x51; 0x57; 0x55; 0x4b; 0x49; 0x4f; 0x4d; 0x43; 0x41; 0x47; 0x45];
   [0x7b; 0x79; 0x7f; 0x7d; 0x73; 0x71; 0x77; 0x75; 0x6b; 0x69; 0x6f; 0x6d; 0x63; 0x61; 0x67; 0x65];
   [0x9b; 0x99; 0x9f; 0x9d; 0x93; 0x91; 0x97; 0x95; 0x8b; 0x89; 0x8f; 0x8d; 0x83; 0x81; 0x87; 0x85];
   [0xbb; 0xb9; 0xbf; 0xbd; 0xb3; 0xb1; 0xb7; 0xb5; 0xab; 0xa9; 0xaf; 0xad; 0xa3; 0xa1; 0xa7; 0xa5];
   [0xdb; 0xd9; 0xdf; 0xdd; 0xd3; 0xd1; 0xd7; 0xd5; 0xcb; 0xc9; 0xcf; 0xcd; 0xc3; 0xc1; 0xc7; 0xc5];
   [0xfb; 0xf9; 0xff; 0xfd; 0xf3; 0xf1; 0xf7; 0xf5; 0xeb; 0xe9; 0xef; 0xed; 0xe3; 0xe1; 0xe7; 0xe5]].

Definition oaes_gf_mul_3 : list (list Z) :=
  [[0x00; 0x03; 0x06; 0x05; 0x0c; 0x0f; 0x0a; 0x09; 0x18; 0x1b; 0x1e; 0x1d; 0x14; 0x17; 0x12; 0x11];
   [0x30; 0x33; 0x36; 0x35; 0x3c; 0x3f; 0x3a; 0x39; 0x28; 0x2b; 0x2e; 0x2d; 0x24; 0x27; 0x22; 0x21];
   [0x60; 0x63; 0x66; 0x65; 0x6c; 0x6f; 0x6a; 0x69; 0x78; 0x7b; 0x7e; 0x7d; 0x74; 0x77; 0x72; 0x71];
   [0x50; 0x53; 0x56; 0x55; 0x5c; 0x5f; 0x5a; 0x59; 0x48; 0x4b; 0x4e; 0x4d; 0x44; 0x47; 0x42; 0x41];
   [0xc0; 0xc3; 0xc6; 0xc5; 0xcc; 0xcf; 0xca; 0xc9; 0xd8; 0xdb; 0xde; 0xdd; 0xd4; 0xd7; 0xd2; 0xd1];
   [0xf0; 0xf3; 0xf6; 0xf5; 0xfc; 0xff; 0xfa; 0xf9; 0xe8; 0xeb; 0xee; 0xed; 0xe4; 0xe7; 0xe2; 0xe1];
   [0xa0; 0xa3; 0xa6; 0xa5; 0xac; 0xaf; 0xaa; 0xa9; 0xb8; 0xbb; 0xbe; 0xbd; 0xb4; 0xb7; 0xb2; 0xb1];
   [0x90; 0x93; 0x96; 0x95; 0x9c; 0x9f; 0x9a; 0x99; 0x88; 0x8b; 0x8e; 0x8d; 0x84; 0x87; 0x82; 0x81];
   [0x9b; 0x98; 0x9d; 0x9e; 0x97; 0x94; 0x91; 0x92; 0x83; 0x80; 0x85; 0x86; 0x8f; 0x8c; 0x89; 0x8a];
   [0xab; 0xa8; 0xad; 0xae; 0xa7; 0xa4; 0xa1; 0xa2; 0xb3; 0xb0; 0xb5; 0xb6; 0xbf; 0xbc; 0xb9; 0xba];
   [0xfb; 0xf8; 0xfd; 0xfe; 0xf7; 0xf4; 0xf1; 0xf2; 0xe3; 0xe0; 0xe5; 0xe6; 0xef; 0xec; 0xe9; 0xea];
   [0xcb; 0xc8; 0xcd; 0xce; 0xc7; 0xc4; 0xc1; 0xc2; 0xd3; 0xd0; 0xd5; 0xd6; 0xdf; 0xdc; 0xd9; 0xda];
   [0x5b; 0x58; 0x5d; 0x5e; 0x57; 0x54; 0x51; 0x52; 0x43; 0x40; 0x45; 0x46; 0x4f; 0x4c; 0x49; 0x4a];
   [0x6b; 0x68; 0x6d; 0x6e; 0x67; 0x64; 0x61; 0x62; 0x73; 0x70; 0x75; 0x76; 0x7f; 0x7c; 0x79; 0x7a];
   [0x3b; 0x38; 0x3d; 0x3e; 0x37; 0x34; 0x31; 0x32; 0x23; 0x20; 0x25; 0x26; 0x2f; 0x2c; 0x29; 0x2a];
   [0x0b; 0x08; 0x0d; 0x0e; 0x07; 0x04; 0x01; 0x02; 0x13; 0x10; 0x15; 0x16; 0x1f; 0x1c; 0x19; 0x1a]].

Definition oaes_gf_mul_9 : list (list Z) :=
  [[0x00; 0x09; 0x12; 0x1b; 0x24; 0x2d; 0x36; 0x3f; 0x48; 0x41; 0x5a; 0x53; 0x6c; 0x65; 0x7e; 0x77];
   [0x90; 0x99; 0x82; 0x8b; 0xb4; 0xbd; 0xa6; 0xaf; 0xd8; 0xd1; 0xca; 0xc3; 0xfc; 0xf5; 0xee; 0xe7];
   [0x3b; 0x32; 0x29; 0x20; 0x1f; 0x16; 0x0d; 0x04; 0x73; 0x7a; 0x61; 0x68; 0x57; 0x5e; 0x45; 0x4c];
   [0xab; 0xa2; 0xb9; 0xb0; 0x8f; 0x86; 0x9d; 0x94; 0xe3; 0xea; 0xf1; 0xf8; 0xc7; 0xce; 0xd5; 0xdc];
   [0x76; 0x7f; 0x64; 0x6d; 0x52; 0x5b; 0x40; 0x49; 0x3e; 0x37; 0x2c; 0x25; 0x1a; 0x13; 0x08; 0x01];
   [0xe6; 0xef; 0xf4; 0xfd; 0xc2; 0xcb; 0xd0; 0xd9; 0xae; 0xa7; 0xbc; 0xb5; 0x8a; 0x83; 0x98; 0x91];
   [0x4d; 0x44; 0x5f; 0x56; 0x69; 0x60; 0x7b; 0x72; 0x05; 0x0c; 0x17; 0x1e; 0x21; 0x28; 0x33; 0x3a];
   [0xdd; 0xd4; 0xcf; 0xc6; 0xf9; 0xf0; 0xeb; 0xe2; 0x95; 0x9c; 0x87; 0x8e; 0xb1; 0xb8; 0xa3; 0xaa];
   [0xec; 0xe5; 0xfe; 0xf7; 0xc8; 0xc1; 0xda; 0xd3; 0xa4; 0xad; 0xb6; 0xbf; 0x80; 0x89; 0x92; 0x9b];
   [0x7c; 0x75; 0x6e; 0x67; 0x58; 0x51; 0x4a; 0x43; 0x34; 0x3d; 0x26; 0x2f; 0x10; 0x19; 0x02; 0x0b];
   [0xd7; 0xde; 0xc5; 0xcc; 0xf3; 0xfa; 0xe1; 0xe8; 0x9f; 0x96; 0x8d; 0x84; 0xbb; 0xb2; 0xa9; 0xa0];
   [0x47; 0x4e; 0x55; 0x5c; 0x63; 0x6a; 0x71; 0x78; 0x0f; 0x06; 0x1d; 0x14; 0x2b; 0x22; 0x39; 0x30];
   [0x9a; 0x93; 0x88; 0x81; 0xbe; 0xb7; 0xac; 0xa5; 0xd2; 0xdb; 0xc0; 0xc9; 0xf6; 0xff; 0xe4; 0xed];
   [0x0a; 0x03; 0x18; 0x11; 0x2e; 0x27; 0x3c; 0x35; 0x42; 0x4b; 0x50; 0x59; 0x66; 0x6f; 0x74; 0x7d];
   [0xa1; 0xa8; 0xb3; 0xba; 0x85; 0x8c; 0x97; 0x9e; 0xe9; 0xe0; 0xfb; 0xf2; 0xcd; 0xc4; 0xdf; 0xd6];
   [0x31; 0x38; 0x23; 0x2a; 0x15; 0x1c; 0x07; 0x0e; 0x79; 0x70; 0x6b; 0x62; 0x5d; 0x54; 0x4f; 0x46]].

Definition oaes_gf_mul_b : list (list Z) :=
  [[0x00; 0x0b; 0x16; 0x1d; 0x2c; 0x27; 0x3a; 0x31; 0x58; 0x53; 0x4e; 0x45; 0x74; 0x7f; 0x62; 0x69];
   [0xb0; 0xbb; 0xa6; 0xad; 0x9c; 0x97; 0x8a; 0x81; 0xe8; 0xe3; 0xfe; 0xf5; 0xc4; 0xcf; 0xd2; 0xd9];
   [0x7b; 0x70; 0x6d; 0x66; 0x57; 0x5c; 0x41; 0x4a; 0x23; 0x28; 0x35; 0x3e; 0x0f; 0x04; 0x19; 0x12];
   [0xcb; 0xc0; 0xdd; 0xd6; 0xe7; 0xec; 0xf1; 0xfa; 0x93; 0x98; 0x85; 0x8e; 0xbf; 0xb4; 0xa9; 0xa2];
   [0xf6; 0xfd; 0xe0; 0xeb; 0xda; 0xd1; 0xcc; 0xc7; 0xae; 0xa5; 0xb8; 0xb3; 0x82; 0x89; 0x94; 0x9f];
   [0x46; 0x4d; 0x50; 0x5b; 0x6a; 0x61; 0x7c; 0x77; 0x1e; 0x15; 0x08; 0x03; 0x32; 0x39; 0x24; 0x2f];
   [0x8d; 0x86; 0x9b; 0x90; 0xa1; 0xaa; 0xb7; 0xbc; 0xd5; 0xde; 0xc3; 0xc8; 0xf9; 0xf2; 0xef; 0xe4];
   [0x3d; 0x36; 0x2b; 0x20; 0x11; 0x1a; 0x07; 0x0c; 0x65; 0x6e; 0x73; 0x78; 0x49; 0x42; 0x5f; 0x54];
   [0xf7; 0xfc; 0xe1; 0xea; 0xdb; 0xd0; 0xcd; 0xc6; 0xaf; 0xa4; 0xb9; 0xb2; 0x83; 0x88; 0x95; 0x9e];
   [0x47; 0x4c; 0x51; 0x5a; 0x6b; 0x60; 0x7d; 0x76; 0x1f; 0x14; 0x09; 0x02; 0x33; 0x38; 0x25; 0x2e];
   [0x8c; 0x87; 0x9a; 0x91; 0xa0; 0xab; 0xb6; 0xbd; 0xd4; 0xdf; 0xc2; 0xc9; 0xf8; 0xf3; 0xee; 0xe5];
   [0x3c; 0x37; 0x2a; 0x21; 0x10; 0x1b; 0x06; 0x0d; 0x64; 0x6f; 0x72; 0x79; 0x48; 0x43; 0x5e; 0x55];
   [0x01; 0x0a; 0x17; 0x1c; 0x2d; 0x26; 0x3b; 0x30; 0x59; 0x52; 0x4f; 0x44; 0x75; 0x7e; 0x63; 0x68];
   [0xb1; 0xba; 0xa7; 0xac; 0x9d; 0x96; 0x8b; 0x80; 0xe9; 0xe2; 0xff; 0xf4; 0xc5; 0xce; 0xd3; 0xd8];
   [0x7a; 0x71; 0x6c; 0x67; 0x56; 0x5d; 0x40; 0x4b; 0x22; 0x29; 0x34; 0x3f; 0x0e; 0x05; 0x18; 0x13];
   [0xca; 0xc1; 0xdc; 0xd7; 0xe6; 0xed; 0xf0; 0xfb; 0x92; 0x99; 0x84; 0x8f; 0xbe; 0xb5; 0xa8; 0xa3]].

Definition oaes_gf_mul_d : list (list Z) :=
  [[0x00; 0x0d; 0x1a; 0x17; 0x34; 0x39; 0x2e; 0x23; 0x68; 0x65; 0x72; 0x7f; 0x5c; 0x51; 0x46; 0x4b];
   [0xd0; 0xdd; 0xca; 0xc7; 0xe4; 0xe9; 0xfe; 0xf3; 0xb8; 0xb5; 0xa2; 0xaf; 0x8c; 0x81; 0x96; 0x9b];
   [0xbb; 0xb6; 0xa1; 0xac; 0x8f; 0x82; 0x95; 0x98; 0xd3; 0xde; 0xc9; 0xc4; 0xe7; 0xea; 0xfd; 0xf0];
   [0x6b; 0x66; 0x71; 0x7c; 0x5f; 0x52; 0x45; 0x48; 0x03; 0x0e; 0x19; 0x14; 0x37; 0x3a; 0x2d; 0x20];
   [0x6d; 0x60; 0x77; 0x7a; 0x59; 0x54; 0x43; 0x4e; 0x05; 0x08; 0x1f; 0x12; 0x31; 0x3c; 0x2b; 0x26];
   [0xbd; 0xb0; 0xa7; 0xaa; 0x89; 0x84; 0x93; 0x9e; 0xd5; 0xd8; 0xcf; 0xc2; 0xe1; 0xec; 0xfb; 0xf6];
   [0xd6; 0xdb; 0xcc; 0xc1; 0xe2; 0xef; 0xf8; 0xf5; 0xbe; 0xb3; 0xa4; 0xa9; 0x8a; 0x87; 0x90; 0x9d];
   [0x06; 0x0b; 0x1c; 0x11; 0x32; 0x3f; 0x28; 0x25; 0x6e; 0x63; 0x74; 0x79; 0x5a; 0x57; 0x40; 0x4d];
   [0xda; 0xd7; 0xc0; 0xcd; 0xee; 0xe3; 0xf4; 0xf9; 0xb2; 0xbf; 0xa8; 0xa5; 0x86; 0x8b; 0x9c; 0x91];
   [0x0a; 0x07; 0x10; 0x1d; 0x3e; 0x33; 0x24; 0x29; 0x62; 0x6f; 0x78; 0x75; 0x56; 0x5b; 0x4c; 0x41];
   [0x61; 0x6c; 0x7b; 0x76; 0x55; 0x58; 0x4f; 0x42; 0x09; 0x04; 0x13; 0x1e; 0x3d; 0x30; 0x27; 0x2a];
   [0xb1; 0xbc; 0xab; 0xa6; 0x85; 0x88; 0x9f; 0x92; 0xd9; 0xd4; 0xc3; 0xce; 0xed; 0xe0; 0xf7; 0xfa];
   [0xb7; 0xba; 0xad; 0xa0; 0x83; 0x8e; 0x99; 0x94; 0xdf; 0xd2; 0xc5; 0xc8; 0xeb; 0xe6; 0xf1; 0xfc];
   [0x67; 0x6a; 0x7d; 0x70; 0x53; 0x5e; 0x49; 0x44; 0x0f; 0x02; 0x15; 0x18; 0x3b; 0x36; 0x21; 0x2c];
   [0x0c; 0x01; 0x16; 0x1b; 0x38; 0x35; 0x22; 0x2f; 0x64; 0x69; 0x7e; 0x73; 0x50; 0x5d; 0x4a; 0x47];
   [0xdc; 0xd1; 0xc6; 0xcb; 0xe8; 0xe5; 0xf2; 0xff; 0xb4; 0xb9; 0xae; 0xa3; 0x80; 0x8d; 0x9a; 0x97]].

Definition oaes_gf_mul_e : list (list Z) :=
  [[0x00; 0x0e; 0x1c; 0x12; 0x38; 0x36; 0x24; 0x2a; 0x70; 0x7e; 0x6c; 0x62; 0x48; 0x46; 0x54; 0x5a];
   [0xe0; 0xee; 0xfc; 0xf2; 0xd8; 0xd6; 0xc4; 0xca; 0x90; 0x9e; 0x8c; 0x82; 0xa8; 0xa6; 0xb4; 0xba];
   [0xdb; 0xd5; 0xc7; 0xc9; 0xe3; 0xed; 0xff; 0xf1; 0xab; 0xa5; 0xb7; 0xb9; 0x93; 0x9d; 0x8f; 0x81];
   [0x3b; 0x35; 0x27; 0x29; 0x03; 0x0d; 0x1f; 0x11; 0x4b; 0x45; 0x57; 0x59; 0x73; 0x7d; 0x6f; 0x61];
   [0xad; 0xa3; 0xb1; 0xbf; 0x95; 0x9b; 0x89; 0x87; 0xdd; 0xd3; 0xc1; 0xcf; 0xe5; 0xeb; 0xf9; 0xf7];
   [0x4d; 0x43; 0x51; 0x5f; 0x75; 0x7b; 0x69; 0x67; 0x3d; 0x33; 0x21; 0x2f; 0x05; 0x0b; 0x19; 0x17];
   [0x76; 0x78; 0x6a; 0x64; 0x4e; 0x40; 0x52; 0x5c; 0x06; 0x08; 0x1a; 0x14; 0x3e; 0x30; 0x22; 0x2c];
   [0x96; 0x98; 0x8a; 0x84; 0xae; 0xa0; 0xb2; 0xbc; 0xe6; 0xe8; 0xfa; 0xf4; 0xde; 0xd0; 0xc2; 0xcc];
   [0x41; 0x4f; 0x5d; 0x53; 0x79; 0x77; 0x65; 0x6b; 0x31; 0x3f; 0x2d; 0x23; 0x09; 0x07; 0x15; 0x1b];
   [0xa1; 0xaf; 0xbd; 0xb3; 0x99; 0x97; 0x85; 0x8b; 0xd1; 0xdf; 0xcd; 0xc3; 0xe9; 0xe7; 0xf5; 0xfb];
   [0x9a; 0x94; 0x86; 0x88; 0xa2; 0xac; 0xbe; 0xb0; 0xea; 0xe4; 0xf6; 0xf8; 0xd2; 0xdc; 0xce; 0xc0];
   [0x7a; 0x74; 0x66; 0x68; 0x42; 0x4c; 0x5e; 0x50; 0x0a; 0x04; 0x16; 0x18; 0x32; 0x3c; 0x2e; 0x20];
   [0xec; 0xe2; 0xf0; 0xfe; 0xd4; 0xda; 0xc8; 0xc6; 0x9c; 0x92; 0x80; 0x8e; 0xa4; 0xaa; 0xb8; 0xb6];
   [0x0c; 0x02; 0x10; 0x1e; 0x34; 0x3a; 0x28; 0x26; 0x7c; 0x72; 0x60; 0x6e; 0x44; 0x4a; 0x58; 0x56];
   [0x37; 0x39; 0x2b; 0x25; 0x0f; 0x01; 0x13; 0x1d; 0x47; 0x49; 0x5b; 0x55; 0x7f; 0x71; 0x63; 0x6d];
   [0xd7; 0xd9; 0xcb; 0xc5; 0xef; 0xe1; 0xf3; 0xfd; 0xa7; 0xa9; 0xbb; 0xb5; 0x9f; 0x91; 0x83; 0x8d]].

Definition oaes_header : list Z := [0x4f; 0x41; 0x45; 0x53; 0x01; 0x02; 0x00; 0x00; 0x00; 0x00; 0x00; 0x00; 0x00; 0x00; 0x00; 0x00].

Definition oaes_gf_8 : list Z := [0x01; 0x02; 0x04; 0x08; 0x10; 0x20; 0x40; 0x80; 0x1b; 0x36].

(** [table[_y][_x]], the digits of the byte. *)
Definition lookup16 (table : list (list Z)) (b : Z) : Z :=
  let x := Z.land b 0x0f in
  let y := Z.shiftr (Z.land b 0xf0) 4 in
  (table !!! Z.to_nat y) !!! Z.to_nat x.

(** ** Layers *)

Definition oaes_sub_byte (byte : Z) : Z := lookup16 oaes_sub_byte_value byte.
Definition oaes_inv_sub_byte (byte : Z) : Z := lookup16 oaes_inv_sub_byte_value byte.

Definition oaes_word_rot_left (word : list Z) : list Z := take 3 (drop 1 word) ++ [word !!! 0%nat].

Definition oaes_shift_rows (block : list Z) : list Z :=
  map (fun i => block !!! i) [0x00; 0x05; 0x0a; 0x0f; 0x04; 0x09; 0x0e; 0x03; 0x08; 0x0d; 0x02; 0x07; 0x0c; 0x01; 0x06; 0x0b]%nat.

Definition oaes_inv_shift_rows (block : list Z) : list Z :=
  map (fun i => block !!! i) [0x00; 0x0d; 0x0a; 0x07; 0x04; 0x01; 0x0e; 0x0b; 0x08; 0x05; 0x02; 0x0f; 0x0c; 0x09; 0x06; 0x03]%nat.

Definition oaes_gf_mul (left right : Z) : Z :=
  match right with
  | 0x02 => lookup16 oaes_gf_mul_2 left
  | 0x03 => lookup16 oaes_gf_mul_3 left
  | 0x09 => lookup16 oaes_gf_mul_9 left
  | 0x0b => lookup16 oaes_gf_mul_b left
  | 0x0d => lookup16 oaes_gf_mul_d left
  | 0x0e => lookup16 oaes_gf_mul_e left
  | _ => left
  end.

(** [a ^ b ^ c ^ d] *)
Definition lxor4 (a b c d : Z) : Z := Z.lxor (Z.lxor (Z.lxor a b) c) d.

Definition oaes_mix_cols (word : list Z) : list Z :=
  let w i := word !!! i in
  [lxor4 (oaes_gf_mul (w 0%nat) 0x02) (oaes_gf_mul (w 1%nat) 0x03) (w 2%nat) (w 3%nat);
   lxor4 (w 0%nat) (oaes_gf_mul (w 1%nat) 0x02) (oaes_gf_mul (w 2%nat) 0x03) (w 3%nat);
   lxor4 (w 0%nat) (w 1%nat) (oaes_gf_mul (w 2%nat) 0x02) (oaes_gf_mul (w 3%nat) 0x03);
   lxor4 (oaes_gf_mul (w 0%nat) 0x03) (w 1%nat) (w 2%nat) (oaes_gf_mul (w 3%nat) 0x02)].

Definition oaes_inv_mix_cols (word : list Z) : list Z :=
  let w i := word !!! i in
  let m := oaes_gf_mul in
  [lxor4 (m (w 0%nat) 0x0e) (m (w 1%nat) 0x0b) (m (w 2%nat) 0x0d) (m (w 3%nat) 0x09);
   lxor4 (m (w 0%nat) 0x09) (m (w 1%nat) 0x0e) (m (w 2%nat) 0x0b) (m (w 3%nat) 0x0d);
   lxor4 (m (w 0%nat) 0x0d) (m (w 1%nat) 0x09) (m (w 2%nat) 0x0e) (m (w 3%nat) 0x0b);
   lxor4 (m (w 0%nat) 0x0b) (m (w 1%nat) 0x0d) (m (w 2%nat) 0x09) (m (w 3%nat) 0x0e)].

(** [f(c); f(c + 4); f(c + 8); f(c + 12);] *)
Definition each_column (f : list Z -> list Z) (c : list Z) : list Z :=
  f (take 4 c) ++ f (take 4 (drop 4 c)) ++ f (take 4 (drop 8 c)) ++ f (take 4 (drop 12 c)).

(** ** Contexts *)

Inductive OAES_RET :=
| OAES_RET_SUCCESS | OAES_RET_UNKNOWN | OAES_RET_ARG1 | OAES_RET_ARG2 | OAES_RET_ARG3 | OAES_RET_ARG4 | OAES_RET_ARG5
| OAES_RET_NOKEY | OAES_RET_MEM | OAES_RET_BUF | OAES_RET_HEADER.

#[global] Instance OAES_RET_eq_dec : EqDecision OAES_RET.
Proof. solve_decision. Defined.

(** [_rc || rc]: the logical or of two codes is 0 or 1. *)
Definition ret_or (a b : OAES_RET) : OAES_RET :=
  match a, b with OAES_RET_SUCCESS, OAES_RET_SUCCESS => OAES_RET_SUCCESS | _, _ => OAES_RET_UNKNOWN end.

Definition OAES_OPTION_ECB : Z := 1.
Definition OAES_OPTION_CBC : Z := 2.
Definition OAES_FLAG_PAD : Z := 1.

Record oaes_key := {
  data_len : Z; data : list Z;
  exp_data_len : Z; exp_data : list Z;
  num_keys : Z; key_base : Z
}.

Record oaes_ctx := { key : option oaes_key; options : Z; civ : list Z }.

Definition set_key k c := {| key := k; options := options c; civ := civ c |}.
Definition set_options o c := {| key := key c; options := o; civ := civ c |}.
Definition set_civ v c := {| key := key c; options := options c; civ := v |}.

(** The key a [calloc] makes. *)
Definition zero_key (n : Z) (d : list Z) : oaes_key :=
  {| data_len := n; data := d; exp_data_len := 0; exp_data := []; num_keys := 0; key_base := 0 |}.

(** ** Key expansion *)

(** One turn of the loop; [kb] is [key_base]. *)
Definition expand_step (kb : Z) (i : nat) (exp : list Z) : outcome (list Z) :=
  let* temp := read ((i - 1) * 4) 4 exp in
  let* temp :=
    if Z.of_nat i mod kb =? 0 then
      let temp := map oaes_sub_byte (oaes_word_rot_left temp) in
      let* g := index oaes_gf_8 (Z.of_nat i / kb - 1) in
      Ret (<[0%nat := Z.lxor (temp !!! 0%nat) g]> temp)
    else if (6 <? kb) && (Z.of_nat i mod kb =? 4) then Ret (map oaes_sub_byte temp)
    else Ret temp in
  let* old := read ((i - Z.to_nat kb) * 4) 4 exp in
  write (i * 4) (xor_list old temp) exp.

(** [mem]: whether the [calloc] of [exp_data] succeeds. *)
Definition oaes_key_expand (mem : bool) (ctx : option oaes_ctx) : outcome (OAES_RET * option oaes_ctx) :=
  match ctx with
  | None => Ret (OAES_RET_ARG1, ctx)
  | Some c =>
      match key c with
      | None => Ret (OAES_RET_NOKEY, ctx)
      | Some k =>
          let kb := data_len k / 4 in
          let nk := kb + 7 in
          let len := uwrap 64 (nk * 4 * 4) in
          let k e := {| data_len := data_len k; data := data k; exp_data_len := len; exp_data := e; num_keys := nk; key_base := kb |} in
          if negb mem then Ret (OAES_RET_MEM, Some (set_key (Some (k [])) c)) else
          let exp := replicate (Z.to_nat len) 0 in
          let* d := read 0 (Z.to_nat (data_len (k []))) (data (k [])) in
          let* exp := write 0 d exp in
          let* exp := foldM (expand_step kb) (seq (Z.to_nat kb) (Z.to_nat (nk * 4) - Z.to_nat kb)) exp in
          Ret (OAES_RET_SUCCESS, Some (set_key (Some (k exp)) c))
      end
  end.

(** [_rc = _rc || oaes_key_expand( ctx ); if( _rc != OAES_RET_SUCCESS ) {...}] *)
Definition expand_or_destroy (mem : bool) (c : oaes_ctx) : outcome (OAES_RET * option oaes_ctx) :=
  let* '(r, ctx) := oaes_key_expand mem (Some c) in
  match ret_or OAES_RET_SUCCESS r with
  | OAES_RET_SUCCESS => Ret (OAES_RET_SUCCESS, ctx)
  | rc => Ret (rc, option_map (set_key None) ctx)
  end.

(** ** Keys *)

(** [rnd]: the results of [rand()]; [mem1] .. [mem3]: the three allocations. *)
Definition oaes_key_gen (rnd : nat -> Z) (mem1 mem2 mem3 : bool) (ctx : option oaes_ctx) (key_size : Z) : outcome (OAES_RET * option oaes_ctx) :=
  match ctx with
  | None => Ret (OAES_RET_ARG1, ctx)
  | Some c =>
      if negb mem1 then Ret (OAES_RET_MEM, ctx) else
      let c := set_key None c in
      if negb mem2 then Ret (OAES_RET_MEM, Some c) else
      let d := map (fun i => u8 (rnd i)) (seq 0 (Z.to_nat key_size)) in
      expand_or_destroy mem3 (set_key (Some (zero_key key_size d)) c)
  end.

Definition oaes_key_gen_128 (rnd : nat -> Z) (mem1 mem2 mem3 : bool) (ctx : option oaes_ctx) := oaes_key_gen rnd mem1 mem2 mem3 ctx 16.
Definition oaes_key_gen_192 (rnd : nat -> Z) (mem1 mem2 mem3 : bool) (ctx : option oaes_ctx) := oaes_key_gen rnd mem1 mem2 mem3 ctx 24.
Definition oaes_key_gen_256 (rnd : nat -> Z) (mem1 mem2 mem3 : bool) (ctx : option oaes_ctx) := oaes_key_gen rnd mem1 mem2 mem3 ctx 32.

(** The buffer and the length left behind. *)
Definition oaes_key_export (ctx : option oaes_ctx) (buf : option (list Z)) (len : option Z)
  : outcome (OAES_RET * option (list Z) * option Z) :=
  match ctx with
  | None => Ret (OAES_RET_ARG1, buf, len)
  | Some c =>
      match key c, len with
      | None, _ => Ret (OAES_RET_NOKEY, buf, len)
      | _, None => Ret (OAES_RET_ARG3, buf, len)
      | Some k, Some len_in =>
          let n := uwrap 64 (data_len k + 16) in
          match buf with
          | None => Ret (OAES_RET_SUCCESS, buf, Some n)
          | Some b =>
              if len_in <? n then Ret (OAES_RET_BUF, buf, Some n) else
              let* b := write 0 oaes_header b in
              let* b := write 5 [0x01] b in
              let* b := write 7 [u8 (data_len k)] b in
              let* d := read 0 (Z.to_nat (data_len k)) (data k) in
              let* b := write 16 d b in
              Ret (OAES_RET_SUCCESS, Some b, Some n)
          end
      end
  end.

Definition oaes_key_export_data (ctx : option oaes_ctx) (buf : option (list Z)) (len : option Z)
  : outcome (OAES_RET * option (list Z) * option Z) :=
  match ctx with
  | None => Ret (OAES_RET_ARG1, buf, len)
  | Some c =>
      match key c, len with
      | None, _ => Ret (OAES_RET_NOKEY, buf, len)
      | _, None => Ret (OAES_RET_ARG3, buf, len)
      | Some k, Some len_in =>
          let n := data_len k in
          match buf with
          | None => Ret (OAES_RET_SUCCESS, buf, Some n)
          | Some b =>
              if len_in <? n then Ret (OAES_RET_BUF, buf, Some n) else
              let* d := read 0 (Z.to_nat n) (data k) in
              let* b := write 0 d b in
              Ret (OAES_RET_SUCCESS, Some b, Some n)
          end
      end
  end.

(** The common end of the two imports: [src] holds the key bytes. *)
Definition import_bytes (mem1 mem2 mem3 : bool) (c : oaes_ctx) (src : list Z) (len : Z) : outcome (OAES_RET * option oaes_ctx) :=
  let c := set_key None c in
  if negb mem1 then Ret (OAES_RET_MEM, Some c) else
  if negb mem2 then Ret (OAES_RET_MEM, Some c) else
  let* d := read 0 (Z.to_nat len) src in
  expand_or_destroy mem3 (set_key (Some (zero_key len d)) c).

Definition oaes_key_import (mem1 mem2 mem3 : bool) (ctx : option oaes_ctx) (buf : option (list Z)) (len : Z) : outcome (OAES_RET * option oaes_ctx) :=
  match ctx, buf with
  | None, _ => Ret (OAES_RET_ARG1, ctx)
  | _, None => Ret (OAES_RET_ARG2, ctx)
  | Some c, Some b =>
      if negb ((len =? 16 + 16) || (len =? 24 + 16) || (len =? 32 + 16)) then Ret (OAES_RET_ARG3, ctx) else
      let* h := read 0 4 b in
      if negb (bool_decide (h = take 4 oaes_header)) then Ret (OAES_RET_HEADER, ctx) else
      let* b4 := index b 4 in
      if negb (b4 =? 0x01) then Ret (OAES_RET_HEADER, ctx) else
      let* b5 := index b 5 in
      if negb (b5 =? 0x01) then Ret (OAES_RET_HEADER, ctx) else
      let* key_length := index b 7 in
      if negb ((key_length =? 16) || (key_length =? 24) || (key_length =? 32)) then Ret (OAES_RET_HEADER, ctx) else
      if negb (swrap 32 len =? key_length + 16) then Ret (OAES_RET_ARG3, ctx) else
      import_bytes mem1 mem2 mem3 c (drop 16 b) key_length
  end.

Definition oaes_key_import_data (mem1 mem2 mem3 : bool) (ctx : option oaes_ctx) (buf : option (list Z)) (len : Z) : outcome (OAES_RET * option oaes_ctx) :=
  match ctx, buf with
  | None, _ => Ret (OAES_RET_ARG1, ctx)
  | _, None => Ret (OAES_RET_ARG2, ctx)
  | Some c, Some b =>
      if negb ((len =? 16) || (len =? 24) || (len =? 32)) then Ret (OAES_RET_ARG3, ctx) else
      import_bytes mem1 mem2 mem3 c b len
  end.

(** ** Life of a context *)

Definition oaes_set_option (rnd : nat -> Z) (ctx : option oaes_ctx) (opt : Z) (value : option (list Z)) : outcome (OAES_RET * option oaes_ctx) :=
  match ctx with
  | None => Ret (OAES_RET_ARG1, ctx)
  | Some c =>
      if opt =? OAES_OPTION_ECB then
        let o := Z.land (options c) (Z.lnot OAES_OPTION_CBC) in
        Ret (OAES_RET_SUCCESS, Some (set_options (Z.lor o opt) (set_civ (replicate 16 0) c)))
      else if opt =? OAES_OPTION_CBC then
        let o := Z.land (options c) (Z.lnot OAES_OPTION_ECB) in
        let* v := match value with Some v => read 0 16 v | None => Ret (map (fun i => u8 (rnd i)) (seq 0 16)) end in
        Ret (OAES_RET_SUCCESS, Some (set_options (Z.lor o opt) (set_civ v c)))
      else Ret (OAES_RET_ARG2, ctx)
  end.

(** [srand] with a seed from the clock decides what [rnd] is. *)
Definition oaes_alloc (rnd : nat -> Z) (mem : bool) : outcome (option oaes_ctx) :=
  if negb mem then Ret None else
  let* '(_, ctx) := oaes_set_option rnd (Some {| key := None; options := 0; civ := replicate 16 0 |}) OAES_OPTION_CBC None in
  Ret ctx.

(** [ctx] points to the caller's pointer. *)
Definition oaes_free (ctx : option (option oaes_ctx)) : OAES_RET * option (option oaes_ctx) :=
  match ctx with
  | None => (OAES_RET_ARG1, None)
  | Some _ => (OAES_RET_SUCCESS, Some None)
  end.

(** ** Blocks *)

(** [c[_i] = c[_i] ^ exp_data[off + _i]] for the 16 bytes of a block. *)
Definition add_key (k : oaes_key) (off : Z) (c : list Z) : outcome (list Z) :=
  let* rk := read (Z.to_nat off) 16 (exp_data k) in
  Ret (xor_list c rk).

Definition encrypt_rounds (k : oaes_key) (c : list Z) : outcome (list Z) :=
  let* c := add_key k 0 c in
  let* c := foldM (fun i c => add_key k (Z.of_nat i * 4 * 4) (each_column oaes_mix_cols (oaes_shift_rows (map oaes_sub_byte c))))
    (seq 1 (Z.to_nat (num_keys k - 1) - 1)) c in
  add_key k ((num_keys k - 1) * 4 * 4) (oaes_shift_rows (map oaes_sub_byte c)).

Definition decrypt_rounds (k : oaes_key) (c : list Z) : outcome (list Z) :=
  let* c := add_key k ((num_keys k - 1) * 4 * 4) c in
  let* c := foldM (fun i c =>
      let* c := add_key k (Z.of_nat i * 4 * 4) (map oaes_inv_sub_byte (oaes_inv_shift_rows c)) in
      Ret (each_column oaes_inv_mix_cols c))
    (rev (seq 1 (Z.to_nat (num_keys k - 2)))) c in
  add_key k 0 (map oaes_inv_sub_byte (oaes_inv_shift_rows c)).

(** [c]: the block; the guards, then the rounds on 16 bytes. *)
Definition block_op (rounds : oaes_key -> list Z -> outcome (list Z)) (ctx : option oaes_ctx) (c : option (list Z)) (c_len : Z)
  : outcome (OAES_RET * option (list Z)) :=
  match ctx, c with
  | None, _ => Ret (OAES_RET_ARG1, c)
  | _, None => Ret (OAES_RET_ARG2, c)
  | Some x, Some b =>
      if negb (c_len =? 16) then Ret (OAES_RET_ARG3, c) else
      match key x with
      | None => Ret (OAES_RET_NOKEY, c)
      | Some k =>
          let* s := read 0 16 b in
          let* s := rounds k s in
          Ret (OAES_RET_SUCCESS, Some (put 0 s b))
      end
  end.

Definition oaes_encrypt_block := block_op encrypt_rounds.
Definition oaes_decrypt_block := block_op decrypt_rounds.

Definition oaes_encryption_round (key c : option (list Z)) : outcome (OAES_RET * option (list Z)) :=
  match key, c with
  | None, _ => Ret (OAES_RET_ARG1, c)
  | _, None => Ret (OAES_RET_ARG2, c)
  | Some k, Some b =>
      let* s := read 0 16 b in
      let s := each_column oaes_mix_cols (oaes_shift_rows (map oaes_sub_byte s)) in
      let* k := read 0 16 k in
      Ret (OAES_RET_SUCCESS, Some (put 0 (xor_list s k) b))
  end.

Definition oaes_pseudo_encrypt_ecb (ctx : option oaes_ctx) (c : option (list Z)) : outcome (OAES_RET * option (list Z)) :=
  match ctx, c with
  | None, _ => Ret (OAES_RET_ARG1, c)
  | _, None => Ret (OAES_RET_ARG2, c)
  | Some x, Some b =>
      match key x with
      | None => Ret (OAES_RET_NOKEY, c)
      | Some k =>
          let* c := foldM (fun i c => let* '(_, c) := oaes_encryption_round (Some (drop (i * 4 * 4) (exp_data k))) c in Ret c) (seq 0 10) c in
          Ret (OAES_RET_SUCCESS, c)
      end
  end.

(** ** Messages *)

(** One block of [oaes_encrypt] at offset [i] of the message; [rc], the context and the output. *)
Definition encrypt_step (m_len : Z) (j : nat) (s : OAES_RET * oaes_ctx * list Z) : outcome (OAES_RET * oaes_ctx * list Z) :=
  let '(rc, c, out) := s in
  let i := (16 * j)%nat in
  let block_size := Z.to_nat (Z.min (m_len - Z.of_nat i) 16) in
  let* block := read (32 + i) block_size out in
  let block := block ++ map (fun j => Z.of_nat j + 1) (seq 0 (16 - block_size)) in
  let cbc := negb (Z.land (options c) OAES_OPTION_CBC =? 0) in
  let block := if cbc then xor_list block (civ c) else block in
  let* '(rc, block) :=
    match rc with
    | OAES_RET_SUCCESS =>
        let* '(r, b) := oaes_encrypt_block (Some c) (Some block) 16 in
        Ret (ret_or rc r, match b with Some b => b | None => block end)
    | _ => Ret (OAES_RET_UNKNOWN, block)
    end in
  let* out := write (32 + i) block out in
  Ret (rc, if cbc then set_civ block c else c, out).

(** The code, the context, the output buffer and its length. *)
Definition oaes_encrypt (ctx : option oaes_ctx) (m : option (list Z)) (m_len : Z) (out : option (list Z)) (c_len : option Z)
  : outcome (OAES_RET * option oaes_ctx * option (list Z) * option Z) :=
  let pad_len := if m_len mod 16 =? 0 then 0 else 16 - m_len mod 16 in
  let flags := if pad_len =? 0 then 0 else OAES_FLAG_PAD in
  match ctx, m, c_len with
  | None, _, _ => Ret (OAES_RET_ARG1, ctx, out, c_len)
  | _, None, _ => Ret (OAES_RET_ARG2, ctx, out, c_len)
  | _, _, None => Ret (OAES_RET_ARG5, ctx, out, c_len)
  | Some c, Some m, Some c_len_in =>
      let c_data_len := uwrap 64 (m_len + pad_len) in
      let n := uwrap 64 (2 * 16 + m_len + pad_len) in
      match out with
      | None => Ret (OAES_RET_SUCCESS, ctx, out, Some n)
      | Some o =>
          if c_len_in <? n then Ret (OAES_RET_BUF, ctx, out, Some n) else
          match key c with
          | None => Ret (OAES_RET_NOKEY, ctx, out, Some n)
          | Some _ =>
              let* o := write 0 oaes_header o in
              let* o := write 6 (le_bytes 2 (options c)) o in
              let* o := write 8 [flags] o in
              let* o := write 16 (civ c) o in
              let* m := read 0 (Z.to_nat m_len) m in
              let* o := write 32 m o in
              let* '(rc, c, o) := foldM (encrypt_step m_len) (seq 0 (Z.to_nat (c_data_len / 16))) (OAES_RET_SUCCESS, c, o) in
              Ret (rc, Some c, Some o, Some n)
          end
      end
  end.

(** One block of [oaes_decrypt] at offset [i]: [rc], the local iv and the output. *)
Definition decrypt_step (c : oaes_ctx) (cbc : bool) (inp : list Z) (m_len : Z) (j : nat) (s : OAES_RET * list Z * list Z)
  : outcome (OAES_RET * list Z * list Z) :=
  let '(rc, iv, m) := s in
  let i := (16 * j)%nat in
  let* iv := if cbc && (0 <? i)%nat then read (16 + i) 16 inp else Ret iv in
  let* '(rc, m) :=
    match rc with
    | OAES_RET_SUCCESS =>
        let* '(r, b) := oaes_decrypt_block (Some c) (Some (drop i m)) (Z.min (m_len - Z.of_nat i) 16) in
        Ret (ret_or rc r, match b with Some b => take i m ++ b | None => m end)
    | _ => Ret (OAES_RET_UNKNOWN, m)
    end in
  let* m := if cbc then let* b := read i 16 m in write i (xor_list b iv) m else Ret m in
  Ret (rc, iv, m).

(** The padding at the end of [m]: the code, the buffer and the length without it. *)
Definition remove_pad (m : list Z) (m_len : Z) : outcome (OAES_RET * list Z * Z) :=
  let* temp := index m (m_len - 1) in
  if (temp <=? 0x00) || (0x0f <? temp) then Ret (OAES_RET_HEADER, m, m_len) else
  let* is_pad := foldM (fun i is_pad =>
    let* b := index m (m_len - 1 - Z.of_nat i) in Ret (is_pad && (b =? temp - Z.of_nat i))) (seq 0 (Z.to_nat temp)) true in
  if (is_pad : bool) then
    let* m := write (Z.to_nat (m_len - temp)) (replicate (Z.to_nat temp) 0) m in
    Ret (OAES_RET_SUCCESS, m, m_len - temp)
  else Ret (OAES_RET_HEADER, m, m_len).

(** The checks on the first 16 bytes: options and flags, if they are valid. *)
Definition check_header (inp : list Z) : outcome (option (Z * Z)) :=
  let* h := read 0 4 inp in
  if negb (bool_decide (h = take 4 oaes_header)) then Ret None else
  let* c4 := index inp 4 in
  if negb (c4 =? 0x01) then Ret None else
  let* c5 := index inp 5 in
  if negb (c5 =? 0x02) then Ret None else
  let* o := read 6 2 inp in
  let opts := le_val o in
  if negb (Z.land opts (Z.lnot (Z.lor OAES_OPTION_ECB OAES_OPTION_CBC)) =? 0) then Ret None else
  if negb (Z.land opts OAES_OPTION_ECB =? 0) && negb (Z.land opts OAES_OPTION_CBC =? 0) then Ret None else
  if opts =? 0 then Ret None else
  let* flags := index inp 8 in
  if negb (Z.land flags (Z.lnot OAES_FLAG_PAD) =? 0) then Ret None else
  Ret (Some (opts, flags)).

(** The code, the message buffer and its length. *)
Definition oaes_decrypt (ctx : option oaes_ctx) (inp : option (list Z)) (c_len : Z) (out : option (list Z)) (m_len : option Z)
  : outcome (OAES_RET * option (list Z) * option Z) :=
  match ctx, inp with
  | None, _ => Ret (OAES_RET_ARG1, out, m_len)
  | _, None => Ret (OAES_RET_ARG2, out, m_len)
  | Some c, Some inp =>
      if negb (c_len mod 16 =? 0) then Ret (OAES_RET_ARG3, out, m_len) else
      match m_len with
      | None => Ret (OAES_RET_ARG5, out, m_len)
      | Some m_len_in =>
          let n := uwrap 64 (c_len - 2 * 16) in
          match out with
          | None => Ret (OAES_RET_SUCCESS, out, Some n)
          | Some m =>
              if m_len_in <? n then Ret (OAES_RET_BUF, out, Some n) else
              match key c with
              | None => Ret (OAES_RET_NOKEY, out, Some n)
              | Some _ =>
                  let* h := check_header inp in
                  match h with
                  | None => Ret (OAES_RET_HEADER, out, Some n)
                  | Some (opts, flags) =>
                      let* iv := read 16 16 inp in
                      let* d := read 32 (Z.to_nat n) inp in
                      let* m := write 0 d m in
                      let cbc := negb (Z.land opts OAES_OPTION_CBC =? 0) in
                      let* '(_, _, m) := foldM (decrypt_step c cbc inp n) (seq 0 (Z.to_nat (n / 16))) (OAES_RET_SUCCESS, iv, m) in
                      if negb (Z.land flags OAES_FLAG_PAD =? 0) then
                        let* '(r, m, n) := remove_pad m n in
                        Ret (r, Some m, Some n)
                      else Ret (OAES_RET_SUCCESS, Some m, Some n)
                  end
              end
          end
      end
  end.

(** ** Printing *)

Definition hex_digit (d : Z) : Z := if d <? 10 then 48 + d else 87 + d.

(** ["%02x "] *)
Definition hex_byte (b : Z) : list Z := [hex_digit (b / 16); hex_digit (b mod 16); 32].

(** The characters [strcat] has collected, without the final 0. *)
Definition sprintf_text (d : list Z) : list Z :=
  concat (imap (fun i b => hex_byte b ++ (if negb (i =? 0)%nat && ((i + 1) mod 16 =? 0)%nat then [10] else [])) d).

(** The buffer and the length left behind; the text ends with a 0. *)
Definition oaes_sprintf (buf : option (list Z)) (buf_len : option Z) (d : option (list Z)) (d_len : Z)
  : outcome (OAES_RET * option (list Z) * option Z) :=
  match buf_len with
  | None => Ret (OAES_RET_ARG2, buf, buf_len)
  | Some len_in =>
      let n := uwrap 64 (d_len * 3 + d_len / 16 + 1) in
      match buf, d with
      | None, _ => Ret (OAES_RET_SUCCESS, buf, Some n)
      | Some b, d =>
          if len_in <? n then Ret (OAES_RET_BUF, buf, Some n) else
          match d with
          | None => Ret (OAES_RET_ARG3, buf, Some n)
          | Some d =>
              let* d := read 0 (Z.to_nat d_len) d in
              let* b := write 0 (sprintf_text d ++ [0]) b in
              Ret (OAES_RET_SUCCESS, Some b, Some n)
          end
      end
  end.
