(* ===== verification/OaesFacts.v ===== *)
(** oaes_lib.c against AES: the tables and layers, the key expansion, the block
    cipher and its inverse, the message format with its two modes and padding,
    and the key format. *)

From S2P Require Import Prelude Limbs Bytes Words Memory Gf256 Aes Aesb Oaes.

(** ** Layers *)

Definition tables_agree (b : Z) : bool :=
  (oaes_sub_byte b =? sbox b) && (oaes_inv_sub_byte b =? inv_sbox b) &&
  forallb (fun m => oaes_gf_mul b m =? gmul m b) [0x02; 0x03; 0x09; 0x0b; 0x0d; 0x0e] && (gmul 1 b =? b).

Lemma tables_agree_all b : is_byte b -> tables_agree b = true.
Proof. apply byte_cases. vm_compute. reflexivity. Qed.

Lemma oaes_sub_spec b : is_byte b -> oaes_sub_byte b = sbox b /\ oaes_inv_sub_byte b = inv_sbox b.
Proof. intros Hb. pose proof (tables_agree_all b Hb) as H. unfold tables_agree in H. rewrite !andb_true_iff, !Z.eqb_eq in H. tauto. Qed.

Lemma oaes_gf_mul_spec b m : is_byte b -> m ∈ [0x02; 0x03; 0x09; 0x0b; 0x0d; 0x0e] -> oaes_gf_mul b m = gmul m b.
Proof.
  intros Hb Hm. pose proof (tables_agree_all b Hb) as H. unfold tables_agree in H. rewrite !andb_true_iff, forallb_forall in H.
  apply Z.eqb_eq. apply H. by apply list_elem_of_In.
Qed.

Lemma gmul_1 b : is_byte b -> gmul 1 b = b.
Proof. intros Hb. pose proof (tables_agree_all b Hb) as H. unfold tables_agree in H. rewrite !andb_true_iff, !Z.eqb_eq in H. tauto. Qed.

#[local] Opaque oaes_sub_byte oaes_inv_sub_byte oaes_gf_mul sbox inv_sbox gmul.

Lemma map_sub s : bytes s -> map oaes_sub_byte s = aes_sub s /\ map oaes_inv_sub_byte s = aes_inv_sub s.
Proof.
  unfold aes_sub, aes_inv_sub. induction 1 as [|b s Hb Hs [IH1 IH2]]; [done|]. cbn [map]. destruct (oaes_sub_spec b Hb) as [-> ->]. by rewrite IH1, IH2.
Qed.

Lemma shift_rows_spec s : length s = 16%nat -> oaes_shift_rows s = aes_shift s /\ oaes_inv_shift_rows s = aes_inv_shift s.
Proof. intros H. name_bytes s H. done. Qed.

Lemma mix_cols_spec w : bytes w -> length w = 4%nat -> oaes_mix_cols w = mix_col [2; 3; 1; 1] w /\ oaes_inv_mix_cols w = mix_col [0xe; 0xb; 0xd; 9] w.
Proof.
  intros Hb Hl. name_bytes w Hl. do 4 (apply Forall_cons_1 in Hb as [? Hb]).
  unfold oaes_mix_cols, oaes_inv_mix_cols, mix_col, xor4, lxor4. cbn [lookup_total list_lookup_total seq map Nat.add Nat.sub Nat.modulo Nat.divmod fst snd].
  rewrite !oaes_gf_mul_spec by (done || (apply list_elem_of_In; simpl; tauto)). rewrite !gmul_1 by done. done.
Qed.

Lemma each_column_spec s : block s -> each_column oaes_mix_cols s = aes_mix s /\ each_column oaes_inv_mix_cols s = aes_inv_mix s.
Proof.
  intros [Hb Hl]. unfold each_column, aes_mix, aes_inv_mix, columns4.
  assert (forall n, (n <= 12)%nat -> bytes (take 4 (drop n s)) /\ length (take 4 (drop n s)) = 4%nat) as H.
  { intros n Hn. split; [by apply bytes_take, bytes_drop|]. rewrite length_take, length_drop. lia. }
  destruct (H 0%nat ltac:(lia)) as [B0 L0]. rewrite drop_0 in B0, L0. destruct (H 4%nat ltac:(lia)), (H 8%nat ltac:(lia)), (H 12%nat ltac:(lia)).
  split; by rewrite !(fun w Hb Hl => proj1 (mix_cols_spec w Hb Hl)) || by rewrite !(fun w Hb Hl => proj2 (mix_cols_spec w Hb Hl)).
Qed.

(** ** The key expansion *)

Definition is_word (w : list Z) : Prop := bytes w /\ length w = 4%nat.

Lemma length_words_concat ws : Forall is_word ws -> length (concat ws) = (4 * length ws)%nat.
Proof. induction 1 as [|w ws [_ Hw] H IH]; [done|]. cbn [concat length]. rewrite length_app, IH, Hw. lia. Qed.

Lemma bytes_words_concat ws : Forall is_word ws -> bytes (concat ws).
Proof. induction 1 as [|w ws [Hw _] H IH]; [apply List.Forall_nil|]. by apply bytes_app. Qed.

Lemma read_word ws rest j : Forall is_word ws -> (j < length ws)%nat -> read (j * 4) 4 (concat ws ++ rest) = Ret (ws !!! j).
Proof.
  intros H Hj. destruct (lookup_lt_is_Some_2 ws j Hj) as [w Ew]. rewrite (list_lookup_total_correct _ _ _ Ew).
  rewrite <- (take_drop_middle ws j w Ew) in H |- *. apply Forall_app in H as [H1 H2]. apply Forall_cons_1 in H2 as [[Hb Hl] H2].
  pose proof (length_words_concat _ H1) as L1. rewrite length_take, Nat.min_l in L1 by lia.
  rewrite concat_app. cbn [concat]. rewrite read_ok by (rewrite !length_app; lia). f_equal.
  rewrite <- !app_assoc, drop_app_length', take_app_length' by lia. done.
Qed.

Lemma is_word_xor a b : is_word a -> is_word b -> is_word (xor_list a b).
Proof. intros [H1 H2] [H3 H4]. split; [by apply bytes_xor_list|]. rewrite length_xor_list; congruence. Qed.

Lemma is_word_sub a : is_word a -> is_word (aes_sub a).
Proof.
  intros [Hb Hl]. split; [|unfold aes_sub; by rewrite length_map]. unfold aes_sub. apply Forall_fmap.
  eapply Forall_impl; [|exact Hb]. intros b Hbb. exact (sbox_byte b Hbb).
Qed.

Lemma is_word_rot a : is_word a -> is_word (rot_word a).
Proof.
  intros [Hb Hl]. split; [unfold rot_word; apply bytes_app; [by apply bytes_drop|by apply bytes_take]|].
  unfold rot_word. rewrite length_app, length_drop, length_take. lia.
Qed.

Lemma is_word_lookup ws j : Forall is_word ws -> (j < length ws)%nat -> is_word (ws !!! j).
Proof.
  intros H Hj. destruct (lookup_lt_is_Some_2 ws j Hj) as [w Ew]. rewrite (list_lookup_total_correct _ _ _ Ew). exact (Forall_lookup_1 _ _ _ _ H Ew).
Qed.

(** The constants of the expansion, ten of them. *)
Lemma rcon_spec j : (1 <= j <= 10)%nat -> index oaes_gf_8 (Z.of_nat j - 1) = Ret (rcon j !!! 0%nat) /\ is_word (rcon j).
Proof.
  intros Hj. do 11 (destruct j as [|j]; [first [lia|split; [vm_compute; reflexivity|split; [apply bytesb_true; vm_compute; reflexivity|done]]]|]). lia.
Qed.

Lemma word_rot_left_spec w : length w = 4%nat -> oaes_word_rot_left w = rot_word w.
Proof. intros H. name_bytes w H. done. Qed.

Lemma rcon_xor t j : is_word t -> <[0%nat := Z.lxor (t !!! 0%nat) (rcon j !!! 0%nat)]> t = xor_list t (rcon j).
Proof. intros [_ H]. name_bytes t H. unfold rcon, xor_list. cbn. by rewrite !Z.lxor_0_r. Qed.

#[local] Opaque rcon.

Definition key_size (Nk : nat) : Prop := Nk = 4%nat \/ Nk = 6%nat \/ Nk = 8%nat.

Section Expansion.
Context (Nk : nat) (HNk : key_size Nk).

Lemma round_constant_range i : (Nk <= i < 4 * (Nk + 7))%nat -> (1 <= i / Nk <= 10)%nat.
Proof.
  intros Hi. pose proof (Nat.div_mod i Nk ltac:(destruct HNk as [->|[->| ->]]; lia)) as E.
  pose proof (Nat.mod_upper_bound i Nk ltac:(destruct HNk as [->|[->| ->]]; lia)). destruct HNk as [->|[->| ->]]; lia.
Qed.

Lemma next_word_word ws : Forall is_word ws -> (Nk <= length ws < 4 * (Nk + 7))%nat -> is_word (next_word Nk ws).
Proof.
  intros H Hl. assert (0 < Nk)%nat as Hp by (destruct HNk as [->|[->| ->]]; lia). unfold next_word.
  apply is_word_xor; [apply is_word_lookup; [done|lia]|]. assert (is_word (ws !!! (length ws - 1)%nat)) as Hw by (apply is_word_lookup; [done|lia]).
  destruct (_ =? _)%nat; [|destruct (_ && _)]; [|by apply is_word_sub|done].
  apply is_word_xor; [by apply is_word_sub, is_word_rot|]. apply rcon_spec, round_constant_range. lia.
Qed.

(** One turn of the loop appends the next word. *)
Lemma expand_step_spec ws rest :
  Forall is_word ws -> (Nk <= length ws < 4 * (Nk + 7))%nat -> (4 <= length rest)%nat ->
  expand_step (Z.of_nat Nk) (length ws) (concat ws ++ rest) = Ret (concat (ws ++ [next_word Nk ws]) ++ drop 4 rest).
Proof.
  intros H Hl Hr. assert (0 < Nk)%nat as Hp by (destruct HNk as [->|[->| ->]]; lia).
  pose proof (next_word_word ws H Hl) as Hn. unfold expand_step. rewrite read_word by (done || lia). cbn [bind].
  assert (is_word (ws !!! (length ws - 1)%nat)) as Hw by (apply is_word_lookup; [done|lia]). unfold next_word in *.
  set (w := ws !!! (length ws - 1)%nat) in *. set (i := length ws) in *.
  assert ((Z.of_nat i mod Z.of_nat Nk =? 0) = (i mod Nk =? 0)%nat) as -> by (rewrite <- Nat2Z.inj_mod; destruct (Nat.eqb_spec (i mod Nk) 0), (Z.eqb_spec (Z.of_nat (i mod Nk)) 0); lia).
  assert ((Z.of_nat i mod Z.of_nat Nk =? 4) = (i mod Nk =? 4)%nat) as -> by (rewrite <- Nat2Z.inj_mod; destruct (Nat.eqb_spec (i mod Nk) 4), (Z.eqb_spec (Z.of_nat (i mod Nk)) 4); lia).
  assert ((6 <? Z.of_nat Nk) = (6 <? Nk)%nat) as -> by (destruct (Nat.ltb_spec 6 Nk), (Z.ltb_spec 6 (Z.of_nat Nk)); lia).
  match goal with |- bind ?m _ = _ => assert (m = Ret (if (i mod Nk =? 0)%nat then xor_list (aes_sub (rot_word w)) (rcon (i / Nk))
    else if (6 <? Nk)%nat && (i mod Nk =? 4)%nat then aes_sub w else w)) as -> end.
  { destruct (i mod Nk =? 0)%nat; [|destruct (_ && _); [|done]; by rewrite (proj1 (map_sub w (proj1 Hw)))].
    rewrite <- Nat2Z.inj_div. destruct (rcon_spec (i / Nk) (round_constant_range i Hl)) as [-> [_ Hrc]]. cbn [bind].
    rewrite word_rot_left_spec by apply Hw. rewrite (proj1 (map_sub _ (proj1 (is_word_rot w Hw)))). f_equal.
    apply rcon_xor. apply is_word_sub, is_word_rot, Hw. }
  cbn [bind]. rewrite Nat2Z.id, read_word by (done || lia). cbn [bind]. set (v := xor_list _ _) in *.
  pose proof (length_words_concat ws H) as Lc. fold i in Lc. destruct Hn as [_ Hn].
  rewrite write_ok by (rewrite length_app; lia). f_equal. unfold put. rewrite concat_app. cbn [concat]. rewrite app_nil_r, Hn.
  rewrite take_app_length', drop_app_ge, <- app_assoc by lia. do 3 f_equal. lia.
Qed.

Lemma words4_words n l : bytes l -> (4 * n <= length l)%nat -> Forall is_word (words4 n l) /\ concat (words4 n l) = take (4 * n) l /\ length (words4 n l) = n.
Proof.
  revert l. induction n as [|n IH]; intros l Hb Hl; [by repeat split|]. cbn [words4 concat length].
  destruct (IH (drop 4 l)) as (H1 & H2 & H3); [by apply bytes_drop|rewrite length_drop; lia|]. split; [|split; [|by rewrite H3]].
  - apply List.Forall_cons; [|done]. split; [by apply bytes_take|]. rewrite length_take. lia.
  - rewrite H2. replace (4 * S n)%nat with (4 + 4 * n)%nat by lia. rewrite (take_take_app l 4 (4 + 4 * n)) by lia. do 2 f_equal. lia.
Qed.

Lemma iter_words n ws :
  Forall is_word ws -> (Nk <= length ws)%nat -> (length ws + n <= 4 * (Nk + 7))%nat ->
  Forall is_word (Nat.iter n (fun ws => ws ++ [next_word Nk ws]) ws) /\ length (Nat.iter n (fun ws => ws ++ [next_word Nk ws]) ws) = (length ws + n)%nat.
Proof.
  intros H Hl. induction n as [|n IH]; intros Hn; [split; [done|simpl; lia]|]. destruct (IH ltac:(lia)) as [H1 H2]. rewrite Nat.iter_succ.
  split; [|rewrite length_app, H2; simpl; lia]. apply Forall_app. split; [done|]. apply List.Forall_cons; [|apply List.Forall_nil]. apply next_word_word; [done|lia].
Qed.

Lemma expand_loop n ws rest :
  Forall is_word ws -> (Nk <= length ws)%nat -> (length ws + n <= 4 * (Nk + 7))%nat -> (4 * n <= length rest)%nat ->
  foldM (expand_step (Z.of_nat Nk)) (seq (length ws) n) (concat ws ++ rest) =
  Ret (concat (Nat.iter n (fun ws => ws ++ [next_word Nk ws]) ws) ++ drop (4 * n) rest).
Proof.
  revert ws rest. induction n as [|n IH]; intros ws rest H Hl Hn Hr; [by rewrite Nat.mul_0_r, drop_0|]. cbn [seq foldM].
  rewrite expand_step_spec by (done || lia). cbn [bind]. rewrite Nat.iter_succ_r.
  assert (S (length ws) = length (ws ++ [next_word Nk ws])) as E by (rewrite length_app; simpl; lia). rewrite E, IH.
  - do 2 f_equal. rewrite drop_drop. f_equal. lia.
  - apply Forall_app. split; [done|]. apply List.Forall_cons; [|apply List.Forall_nil]. apply next_word_word; [done|lia].
  - lia.
  - lia.
  - rewrite length_drop. lia.
Qed.

Lemma key_schedule_bytes d : bytes d -> (4 * Nk <= length d)%nat -> bytes (key_schedule Nk d) /\ length (key_schedule Nk d) = (16 * (Nk + 7))%nat.
Proof.
  intros Hb Hl. destruct (words4_words Nk d Hb Hl) as (H1 & H2 & H3). unfold key_schedule, key_words.
  destruct (iter_words (4 * (Nk + 7) - Nk) (words4 Nk d) H1) as [H4 H5]; [lia|destruct HNk as [->|[->| ->]]; lia|]. split; [by apply bytes_words_concat|].
  rewrite length_words_concat by done. rewrite H5, H3. destruct HNk as [->|[->| ->]]; lia.
Qed.

(** The key the library holds after the expansion of the bytes [d]. *)
Definition expanded (d : list Z) : oaes_key :=
  {| data_len := 4 * Z.of_nat Nk; data := d; exp_data_len := 16 * Z.of_nat (Nk + 7); exp_data := key_schedule Nk d;
     num_keys := Z.of_nat (Nk + 7); key_base := Z.of_nat Nk |}.

Lemma oaes_key_expand_spec c k d :
  key c = Some k -> data_len k = 4 * Z.of_nat Nk -> data k = d -> bytes d -> length d = (4 * Nk)%nat ->
  oaes_key_expand true (Some c) = Ret (OAES_RET_SUCCESS, Some (set_key (Some (expanded d)) c)).
Proof.
  intros Hk Hdl Hd Hb Hl. unfold oaes_key_expand. rewrite Hk. cbn [data_len data]. rewrite Hdl, Hd. cbn [negb].
  replace (4 * Z.of_nat Nk / 4) with (Z.of_nat Nk) by (rewrite Z.mul_comm, Z.div_mul; lia).
  rewrite (uwrap_small 64) by (pow_consts; destruct HNk as [->|[->| ->]]; lia).
  replace (Z.to_nat ((Z.of_nat Nk + 7) * 4 * 4)) with (16 * (Nk + 7))%nat by lia. replace (Z.to_nat (4 * Z.of_nat Nk)) with (4 * Nk)%nat by lia.
  replace (Z.to_nat ((Z.of_nat Nk + 7) * 4)) with (4 * (Nk + 7))%nat by lia. rewrite Nat2Z.id.
  rewrite read_ok by lia. cbn [bind]. rewrite drop_0, take_ge by lia. rewrite write_ok by (rewrite length_replicate; lia). cbn [bind].
  destruct (words4_words Nk d Hb ltac:(lia)) as (H1 & H2 & H3). unfold put. rewrite take_0. cbn [app]. rewrite (take_ge d) in H2 by lia. 
  assert (foldM (expand_step (Z.of_nat Nk)) (seq Nk (4 * (Nk + 7) - Nk)) (d ++ drop (0 + length d) (replicate (16 * (Nk + 7)) 0)) =
    Ret (key_schedule Nk d)) as ->.
  { rewrite <- H2 at 1. rewrite <- H3 at 2. rewrite (expand_loop (4 * (Nk + 7) - Nk)) by (rewrite ?H3, ?length_drop, ?length_replicate; done || destruct HNk as [->|[->| ->]]; lia).
    unfold key_schedule, key_words. rewrite (drop_ge (drop _ _)), app_nil_r by (rewrite length_drop, length_replicate; lia). done. }
  cbn [bind].
  unfold expanded.
  do 3 f_equal. unfold set_key. do 2 f_equal. f_equal; lia.
Qed.
End Expansion.

(** ** Blocks *)

Lemma block_inv_sub s : block s -> block (aes_inv_sub s).
Proof.
  intros [Hb Hl]. split; [|unfold aes_inv_sub; by rewrite length_map]. unfold aes_inv_sub. apply Forall_fmap.
  eapply Forall_impl; [|exact Hb]. intros b Hbb. exact (inv_sbox_byte b Hbb).
Qed.

Lemma block_inv_shift s : block s -> block (aes_inv_shift s).
Proof.
  intros [Hb Hl]. apply block_map_bytes. intros c r Hc Hr. apply lookup_byte; [done|].
  pose proof (Nat.mod_upper_bound (c + 4 - r) 4 ltac:(lia)). lia.
Qed.

Lemma block_inv_mix s : block s -> block (aes_inv_mix s).
Proof. apply columns4_block. intros w. apply mix_col_bytes. Qed.

#[export] Hint Resolve block_inv_sub block_inv_shift block_inv_mix : word.

(** The layers of the library on a block. *)
Lemma enc_layers s : block s -> oaes_shift_rows (map oaes_sub_byte s) = aes_shift (aes_sub s).
Proof. intros Hs. rewrite (proj1 (map_sub s (proj1 Hs))). apply shift_rows_spec. apply (block_sub s Hs). Qed.

Lemma dec_layers s : block s -> map oaes_inv_sub_byte (oaes_inv_shift_rows s) = aes_inv_sub (aes_inv_shift s).
Proof. intros Hs. rewrite (proj2 (shift_rows_spec s (proj2 Hs))). apply map_sub, (block_inv_shift s Hs). Qed.

Lemma foldl_rev_foldr {A B} (f : A -> B -> B) s l : foldl (fun s r => f r s) s (rev l) = foldr f s l.
Proof. induction l as [|x l IH]; [done|]. cbn [rev foldr]. by rewrite foldl_app, IH. Qed.

Section Cipher.
Context (k : oaes_key) (Nr : nat) (HNr : (1 <= Nr)%nat) (Hn : num_keys k = Z.of_nat Nr + 1)
  (Hb : bytes (exp_data k)) (Hl : length (exp_data k) = (16 * (Nr + 1))%nat).

Lemma add_key_spec off r s : (r <= Nr)%nat -> off = 16 * Z.of_nat r -> add_key k off s = Ret (xor_list s (round_key (exp_data k) r)).
Proof. intros Hr ->. unfold add_key. replace (Z.to_nat (16 * Z.of_nat r)) with (16 * r)%nat by lia. by rewrite read_ok by lia. Qed.

Lemma exp_block r : (r <= Nr)%nat -> block (round_key (exp_data k) r).
Proof. intros Hr. apply round_key_block; [done|lia]. Qed.

Lemma encrypt_loop s l :
  block s -> Forall (fun r => r <= Nr)%nat l ->
  foldM (fun i c => add_key k (Z.of_nat i * 4 * 4) (each_column oaes_mix_cols (oaes_shift_rows (map oaes_sub_byte c)))) l s =
  Ret (foldl (fun s r => aes_round (round_key (exp_data k) r) s) s l) /\ block (foldl (fun s r => aes_round (round_key (exp_data k) r) s) s l).
Proof.
  intros Hs Hr. revert s Hs. induction Hr as [|r l Hr _ IH]; intros s Hs; [done|]. cbn [foldM foldl].
  rewrite (add_key_spec _ r) by lia. cbn [bind]. rewrite enc_layers by done.
  assert (block (aes_shift (aes_sub s))) as H by auto with word. rewrite (proj1 (each_column_spec _ H)). apply IH, block_round; [by apply exp_block|done].
Qed.

Lemma encrypt_rounds_spec s : block s -> encrypt_rounds k s = Ret (aes_cipher Nr (exp_data k) s) /\ block (aes_cipher Nr (exp_data k) s).
Proof.
  intros Hs. unfold encrypt_rounds, aes_cipher. cbv zeta. rewrite (add_key_spec 0 0) by lia. cbn [bind].
  replace (Z.to_nat (num_keys k - 1) - 1)%nat with (Nr - 1)%nat by lia.
  destruct (encrypt_loop (xor_list s (round_key (exp_data k) 0)) (seq 1 (Nr - 1))) as [-> Ht];
    [apply block_xor; [done|apply exp_block; lia]|apply List.Forall_forall; intros r Hr%in_seq; lia|].
  cbn [bind]. rewrite enc_layers by done. split; [apply add_key_spec; lia|]. apply block_xor; [auto with word|by apply exp_block].
Qed.

Definition inv_round (r : nat) (s : list Z) : list Z := aes_inv_mix (xor_list (aes_inv_sub (aes_inv_shift s)) (round_key (exp_data k) r)).

Lemma decrypt_loop s l :
  block s -> Forall (fun r => r <= Nr)%nat l ->
  foldM (fun i c =>
      let* c := add_key k (Z.of_nat i * 4 * 4) (map oaes_inv_sub_byte (oaes_inv_shift_rows c)) in
      Ret (each_column oaes_inv_mix_cols c)) l s =
  Ret (foldl (fun s r => inv_round r s) s l) /\ block (foldl (fun s r => inv_round r s) s l).
Proof.
  intros Hs Hr. revert s Hs. induction Hr as [|r l Hr _ IH]; intros s Hs; [done|]. cbn [foldM foldl].
  rewrite (add_key_spec _ r) by lia. cbn [bind]. rewrite dec_layers by done.
  assert (block (xor_list (aes_inv_sub (aes_inv_shift s)) (round_key (exp_data k) r))) as H by (apply block_xor; [auto with word|by apply exp_block]).
  rewrite (proj2 (each_column_spec _ H)). apply IH. unfold inv_round. auto with word.
Qed.

Lemma decrypt_rounds_spec s : block s -> decrypt_rounds k s = Ret (aes_inv_cipher Nr (exp_data k) s) /\ block (aes_inv_cipher Nr (exp_data k) s).
Proof.
  intros Hs. unfold decrypt_rounds, aes_inv_cipher. cbv zeta. rewrite (add_key_spec _ Nr) by lia. cbn [bind].
  replace (Z.to_nat (num_keys k - 2)) with (Nr - 1)%nat by lia.
  destruct (decrypt_loop (xor_list s (round_key (exp_data k) Nr)) (rev (seq 1 (Nr - 1)))) as [E Ht];
    [apply block_xor; [done|by apply exp_block]|apply Forall_rev, List.Forall_forall; intros r Hr%in_seq; lia|].
  rewrite E. cbn [bind]. rewrite (foldl_rev_foldr inv_round) in Ht |- *. fold inv_round. rewrite dec_layers by done.
  split; [rewrite (add_key_spec 0 0) by lia; done|]. apply block_xor; [auto with word|apply exp_block; lia].
Qed.
End Cipher.

(** A context with an expanded key: the bytes [d], 16, 24 or 32 of them. *)
Record keyed (c : oaes_ctx) (Nk : nat) (d : list Z) : Prop := {
  keyed_size : key_size Nk;
  keyed_bytes : bytes d;
  keyed_length : length d = (4 * Nk)%nat;
  keyed_key : key c = Some (expanded Nk d)
}.

(** AES with that key, and its inverse. *)
Definition E (Nk : nat) (d s : list Z) : list Z := aes_cipher (Nk + 6) (key_schedule Nk d) s.
Definition D (Nk : nat) (d s : list Z) : list Z := aes_inv_cipher (Nk + 6) (key_schedule Nk d) s.

Section Keyed.
Context (c : oaes_ctx) (Nk : nat) (d : list Z) (Hc : keyed c Nk d).

Lemma keyed_schedule : bytes (key_schedule Nk d) /\ length (key_schedule Nk d) = (16 * (Nk + 6 + 1))%nat.
Proof.
  destruct Hc as [H1 H2 H3 _]. destruct (key_schedule_bytes Nk H1 d H2 ltac:(lia)) as [H4 H5]. split; [done|]. rewrite H5. lia.
Qed.

Lemma E_D s : block s -> D Nk d (E Nk d s) = s /\ block (E Nk d s) /\ block (D Nk d s).
Proof.
  intros Hs. destruct keyed_schedule as [H1 H2]. unfold E, D. split; [|split].
  - apply aes_inv_cipher_cipher; [lia| |done]. intros r Hr. apply round_key_block; [done|lia].
  - apply (encrypt_rounds_spec (expanded Nk d) (Nk + 6)); [lia|cbn [num_keys expanded]; lia|done|done|done].
  - apply (decrypt_rounds_spec (expanded Nk d) (Nk + 6)); [lia|cbn [num_keys expanded]; lia|done|done|done].
Qed.

Lemma put_block s s' rest : length s = 16%nat -> length s' = 16%nat -> put 0 s' (s ++ rest) = s' ++ rest.
Proof. intros H1 H2. unfold put. rewrite take_0, H2. cbn [app]. by rewrite Nat.add_0_l, drop_app_length' by done. Qed.

Lemma oaes_encrypt_block_spec s rest : block s -> oaes_encrypt_block (Some c) (Some (s ++ rest)) 16 = Ret (OAES_RET_SUCCESS, Some (E Nk d s ++ rest)).
Proof.
  intros Hs. unfold oaes_encrypt_block, block_op. cbn [Z.eqb negb]. rewrite (keyed_key _ _ _ Hc). destruct keyed_schedule as [H1 H2].
  rewrite read_ok by (rewrite length_app; destruct Hs; lia). cbn [bind]. rewrite drop_0, take_app_length' by (by destruct Hs).
  destruct (encrypt_rounds_spec (expanded Nk d) (Nk + 6) ltac:(lia) ltac:(cbn [num_keys expanded]; lia) H1 H2 s Hs) as [-> Hb].
  cbn [bind]. by rewrite put_block by (apply Hs || apply Hb).
Qed.

Lemma oaes_decrypt_block_spec s rest : block s -> oaes_decrypt_block (Some c) (Some (s ++ rest)) 16 = Ret (OAES_RET_SUCCESS, Some (D Nk d s ++ rest)).
Proof.
  intros Hs. unfold oaes_decrypt_block, block_op. cbn [Z.eqb negb]. rewrite (keyed_key _ _ _ Hc). destruct keyed_schedule as [H1 H2].
  rewrite read_ok by (rewrite length_app; destruct Hs; lia). cbn [bind]. rewrite drop_0, take_app_length' by (by destruct Hs).
  destruct (decrypt_rounds_spec (expanded Nk d) (Nk + 6) ltac:(lia) ltac:(cbn [num_keys expanded]; lia) H1 H2 s Hs) as [-> Hb].
  cbn [bind]. by rewrite put_block by (apply Hs || apply Hb).
Qed.
End Keyed.

(** ** Messages: the modes *)

(** The blocks of an encrypted message and the chaining value after them:
    cipher block chaining, or every block by itself. *)
Fixpoint enc_msg (Nk : nat) (d : list Z) (cbc : bool) (iv P : list Z) (n : nat) : list Z * list Z :=
  match n with
  | O => ([], iv)
  | S n' =>
      let x := E Nk d (if cbc then xor_list (take 16 P) iv else take 16 P) in
      let '(C, v) := enc_msg Nk d cbc (if cbc then x else iv) (drop 16 P) n' in
      (x ++ C, v)
  end.

Fixpoint dec_msg (Nk : nat) (d : list Z) (cbc : bool) (iv C : list Z) (n : nat) : list Z :=
  match n with
  | O => []
  | S n' =>
      let x := D Nk d (take 16 C) in
      (if cbc then xor_list x iv else x) ++ dec_msg Nk d cbc (take 16 C) (drop 16 C) n'
  end.

(** The padding 1, 2, 3, ... up to a multiple of the block size. *)
Definition pad_len (m : list Z) : nat := if (length m mod 16 =? 0)%nat then 0 else (16 - length m mod 16)%nat.
Definition padded (m : list Z) : list Z := m ++ map (fun j => Z.of_nat j + 1) (seq 0 (pad_len m)).

Definition cbc_of (o : Z) : bool := negb (Z.land o OAES_OPTION_CBC =? 0).

(** What [oaes_encrypt] writes: header, options, flag, initial value, blocks. *)
Definition msg_header (o : Z) (m : list Z) : list Z :=
  [0x4f; 0x41; 0x45; 0x53; 0x01; 0x02; o; 0; (if (pad_len m =? 0)%nat then 0 else 1); 0; 0; 0; 0; 0; 0; 0].

Lemma pad_len_spec m : (pad_len m < 16)%nat /\ exists n, (length m + pad_len m)%nat = (16 * n)%nat.
Proof.
  unfold pad_len. pose proof (Nat.mod_upper_bound (length m) 16 ltac:(lia)). pose proof (Nat.div_mod (length m) 16 ltac:(lia)).
  destruct (Nat.eqb_spec (length m mod 16) 0); split; try lia; [exists (length m / 16)%nat|exists (length m / 16 + 1)%nat]; lia.
Qed.

Definition msg_blocks (m : list Z) : nat := ((length m + pad_len m) / 16)%nat.

Lemma msg_blocks_spec m : (length m + pad_len m)%nat = (16 * msg_blocks m)%nat.
Proof. destruct (pad_len_spec m) as [_ [n E]]. unfold msg_blocks. by rewrite E, Nat.mul_comm, Nat.div_mul, Nat.mul_comm by lia. Qed.

Lemma length_padded m : length (padded m) = (16 * msg_blocks m)%nat.
Proof. unfold padded. rewrite length_app, length_map, length_seq. apply msg_blocks_spec. Qed.

Lemma bytes_padded m : bytes m -> bytes (padded m).
Proof.
  intros Hm. apply bytes_app; [done|]. apply List.Forall_forall. intros x Hx. apply in_map_iff in Hx as (j & <- & Hj%in_seq).
  destruct (pad_len_spec m) as [Hp _]. unfold is_byte. lia.
Qed.

(** The block the loop assembles at [16 * j] is the one of the padded message. *)
Lemma padded_block m j :
  (j < msg_blocks m)%nat ->
  take (Z.to_nat (Z.min (Z.of_nat (length m) - Z.of_nat (16 * j)) 16)) (drop (16 * j) m) ++
  map (fun j => Z.of_nat j + 1) (seq 0 (16 - Z.to_nat (Z.min (Z.of_nat (length m) - Z.of_nat (16 * j)) 16))) = take 16 (drop (16 * j) (padded m)).
Proof.
  intros Hj. pose proof (msg_blocks_spec m) as Hs. destruct (pad_len_spec m) as [Hp _]. unfold padded. rewrite drop_app_le by lia.
  destruct (Nat.le_gt_cases (16 * j + 16) (length m)).
  - replace (Z.to_nat (Z.min (Z.of_nat (length m) - Z.of_nat (16 * j)) 16)) with 16%nat by lia.
    rewrite take_app_le by (rewrite length_drop; lia). by rewrite app_nil_r.
  - replace (Z.to_nat (Z.min (Z.of_nat (length m) - Z.of_nat (16 * j)) 16)) with (length m - 16 * j)%nat by lia.
    rewrite take_ge by (rewrite length_drop; lia). replace (16 - (length m - 16 * j))%nat with (pad_len m) by lia.
    rewrite take_ge by (rewrite length_app, length_drop, length_map, length_seq; lia). done.
Qed.

Section Messages.
Context (Nk : nat) (d : list Z).

Lemma block_at P j n : bytes P -> (16 * n <= length P)%nat -> (j < n)%nat -> block (take 16 (drop (16 * j) P)).
Proof. intros HP Hl Hj. split; [by apply bytes_take, bytes_drop|]. rewrite length_take, length_drop. lia. Qed.

Lemma enc_msg_spec c cbc iv P n :
  keyed c Nk d -> bytes P -> (16 * n <= length P)%nat -> block iv ->
  bytes (fst (enc_msg Nk d cbc iv P n)) /\ length (fst (enc_msg Nk d cbc iv P n)) = (16 * n)%nat /\
  block (snd (enc_msg Nk d cbc iv P n)) /\
  dec_msg Nk d cbc iv (fst (enc_msg Nk d cbc iv P n)) n = take (16 * n) P.
Proof.
  intros Hc. revert iv P. induction n as [|n IH]; intros iv P HP Hl Hiv; [split; [apply List.Forall_nil|done]|]. cbn [enc_msg].
  pose proof (block_at P 0 (S n) HP Hl ltac:(lia)) as HB. rewrite Nat.mul_0_r, drop_0 in HB.
  set (x := if cbc then xor_list (take 16 P) iv else take 16 P).
  assert (block x) as Hx by (subst x; destruct cbc; [by apply block_xor|done]).
  destruct (E_D c Nk d Hc x Hx) as (Hed & [Heb Hel] & _).
  destruct (IH (if cbc then E Nk d x else iv) (drop 16 P)) as (H1 & H2 & H3 & H4); [by apply bytes_drop|rewrite length_drop; lia|by destruct cbc|].
  destruct (enc_msg Nk d cbc (if cbc then E Nk d x else iv) (drop 16 P) n) as [C v]. cbn [fst snd] in *.
  split; [by apply bytes_app|]. split; [rewrite length_app; lia|]. split; [done|]. cbn [dec_msg].
  rewrite take_app_length', drop_app_length' by done. rewrite Hed.
  assert (dec_msg Nk d cbc (E Nk d x) C n = dec_msg Nk d cbc (if cbc then E Nk d x else iv) C n) as ->.
  { destruct cbc; [done|]. destruct n; [done|]. cbn [dec_msg]. done. }
  rewrite H4, (take_take_app P 16 (16 * S n)) by lia. f_equal; [|f_equal; lia].
  subst x. destruct cbc; [|done]. apply xor_list_involutive. destruct HB as [_ ->], Hiv as [_ ->]. lia.
Qed.

Lemma set_civ_id c : set_civ (civ c) c = c.
Proof. by destruct c. Qed.

(** One turn of the loop of [oaes_encrypt]. *)
Lemma encrypt_step_spec c m R H j :
  keyed c Nk d -> bytes m -> block (civ c) -> (j < msg_blocks m)%nat -> (pad_len m <= length R)%nat -> length H = (32 + 16 * j)%nat ->
  let cbc := cbc_of (options c) in
  let P := take 16 (drop (16 * j) (padded m)) in
  let x := E Nk d (if cbc then xor_list P (civ c) else P) in
  encrypt_step (Z.of_nat (length m)) j (OAES_RET_SUCCESS, c, H ++ drop (16 * j) (m ++ R)) =
  Ret (OAES_RET_SUCCESS, set_civ (if cbc then x else civ c) c, (H ++ x) ++ drop (16 * S j) (m ++ R)).
Proof.
  intros Hc Hm Hv Hj HR HH cbc P x. pose proof (msg_blocks_spec m) as Hs. unfold encrypt_step.
  pose proof (block_at (padded m) j (msg_blocks m) (bytes_padded m Hm) ltac:(rewrite length_padded; lia) Hj) as HB. fold P in HB.
  set (bs := Z.to_nat (Z.min (Z.of_nat (length m) - Z.of_nat (16 * j)) 16)).
  destruct (pad_len_spec m) as [Hp _]. assert (16 * j <= length m /\ bs <= length m - 16 * j)%nat as [Hjm Hbs] by lia.
  rewrite read_ok by (rewrite length_app, length_drop, length_app; lia). cbn [bind].
  rewrite drop_app_length', (drop_app_le m R), take_app_le by (rewrite ?length_drop; lia).
  unfold bs. rewrite padded_block by done. fold P. fold (cbc_of (options c)). fold cbc.
  set (y := if cbc then xor_list P (civ c) else P) in *.
  assert (block y) as Hy by (subst y; destruct cbc; [by apply block_xor|done]).
  pose proof (oaes_encrypt_block_spec c Nk d Hc y [] Hy) as Ey. rewrite !app_nil_r in Ey. rewrite Ey. cbn [bind ret_or].
  fold x. destruct (E_D c Nk d Hc y Hy) as (_ & [_ Hxl] & _). fold x in Hxl.
  rewrite write_ok by (rewrite length_app, length_app, length_drop; lia). cbn [bind]. do 2 f_equal.
  - f_equal. destruct cbc; [done|]. by rewrite set_civ_id.
  - unfold put. rewrite take_app_length', drop_app_ge by lia. rewrite app_assoc. f_equal. rewrite <- (drop_app_le m R) by lia. rewrite drop_drop. f_equal. lia.
Qed.

Lemma encrypt_loop_spec n : forall c m R H j,
  keyed c Nk d -> bytes m -> block (civ c) -> (j + n <= msg_blocks m)%nat -> (pad_len m <= length R)%nat -> length H = (32 + 16 * j)%nat ->
  let r := enc_msg Nk d (cbc_of (options c)) (civ c) (drop (16 * j) (padded m)) n in
  foldM (encrypt_step (Z.of_nat (length m))) (seq j n) (OAES_RET_SUCCESS, c, H ++ drop (16 * j) (m ++ R)) =
  Ret (OAES_RET_SUCCESS, set_civ (snd r) c, (H ++ fst r) ++ drop (16 * (j + n)) (m ++ R)).
Proof.
  induction n as [|n IH]; intros c m R H j Hc Hm Hv Hj HR HH r.
  - subst r. cbn [enc_msg fst snd seq foldM]. by rewrite set_civ_id, app_nil_r, Nat.add_0_r.
  - cbn [seq foldM]. rewrite encrypt_step_spec by (done || lia). cbn [bind]. subst r. cbn [enc_msg].
    set (P := take 16 (drop (16 * j) (padded m))). set (cbc := cbc_of (options c)). set (x := E Nk d (if cbc then xor_list P (civ c) else P)).
    pose proof (block_at (padded m) j (msg_blocks m) (bytes_padded m Hm) ltac:(rewrite length_padded; lia) ltac:(lia)) as HB. fold P in HB.
    assert (block (if cbc then xor_list P (civ c) else P)) as Hy by (destruct cbc; [by apply block_xor|done]).
    destruct (E_D c Nk d Hc _ Hy) as (_ & Hx & _). fold x in Hx.
    rewrite (IH (set_civ (if cbc then x else civ c) c)); [|by destruct Hc; split|done|by destruct cbc|lia|done|rewrite length_app; destruct Hx; lia].
    cbn [civ options set_civ]. rewrite drop_drop. fold cbc. replace (16 * S j)%nat with (16 * j + 16)%nat by lia.
    destruct (enc_msg Nk d cbc (if cbc then x else civ c) (drop (16 * j + 16) (padded m)) n) as [C v]. cbn [fst snd].
    do 2 f_equal. rewrite <- !app_assoc. do 5 f_equal. lia.
Qed.
(** One turn of the loop of [oaes_decrypt]: [inp] keeps the encrypted blocks. *)
Lemma decrypt_step_spec c cbc inp iv C M R n j :
  keyed c Nk d -> bytes inp -> bytes C -> (j < n)%nat -> length C = (16 * n)%nat -> length M = (16 * j)%nat ->
  (32 + 16 * n <= length inp)%nat -> (j = 0%nat -> iv = take 16 (drop 16 inp)) ->
  exists iv',
  decrypt_step c cbc inp (16 * Z.of_nat n) j (OAES_RET_SUCCESS, iv, M ++ drop (16 * j) (C ++ R)) =
  Ret (OAES_RET_SUCCESS, iv',
    (M ++ (if cbc then xor_list (D Nk d (take 16 (drop (16 * j) C))) (take 16 (drop (16 + 16 * j) inp)) else D Nk d (take 16 (drop (16 * j) C)))) ++
    drop (16 * S j) (C ++ R)).
Proof.
  intros Hc Hi HC Hj HlC HM Hin Hiv. unfold decrypt_step. pose proof (block_at C j n HC ltac:(lia) Hj) as HB.
  set (B := take 16 (drop (16 * j) C)) in *. destruct (E_D c Nk d Hc B HB) as (_ & _ & [_ HD]).
  assert (drop (16 * j) (C ++ R) = B ++ drop (16 * S j) (C ++ R)) as EB.
  { rewrite (drop_app_le C R), (drop_app_le C R) by lia. rewrite app_assoc. f_equal. unfold B. rewrite <- (take_drop 16 (drop (16 * j) C)) at 1.
    f_equal. rewrite drop_drop. f_equal. lia. }
  assert ((if cbc && (0 <? 16 * j)%nat then read (16 + 16 * j) 16 inp else Ret iv) =
    Ret (if cbc then take 16 (drop (16 + 16 * j) inp) else iv)) as ->.
  { destruct cbc; [|done]. cbn [andb]. destruct (Nat.ltb_spec 0 (16 * j)); [by rewrite read_ok by lia|].
    rewrite (Hiv ltac:(lia)). replace j with 0%nat by lia. done. }
  cbn [bind]. rewrite drop_app_length' by lia. rewrite Z.min_r by lia. rewrite EB, (oaes_decrypt_block_spec c Nk d Hc) by done.
  cbn [bind ret_or]. rewrite take_app_length' by lia. exists (if cbc then take 16 (drop (16 + 16 * j) inp) else iv). destruct cbc.
  - rewrite read_ok by (rewrite !length_app; lia). cbn [bind]. rewrite drop_app_length', take_app_length' by lia.
    assert (length (xor_list (D Nk d B) (take 16 (drop (16 + 16 * j) inp))) = 16%nat) as Hx by (rewrite length_xor_list; rewrite ?length_take, ?length_drop; lia).
    rewrite write_ok by (rewrite !length_app; lia). cbn [bind]. do 2 f_equal. unfold put. rewrite take_app_length', Hx by lia.
    rewrite app_assoc, drop_app_ge by lia. rewrite drop_app_length' by lia. done.
  - cbn [bind]. by rewrite app_assoc.
Qed.

Lemma decrypt_loop_spec c cbc inp C R N k :
  keyed c Nk d -> bytes inp -> bytes C -> length C = (16 * N)%nat -> (32 + 16 * N <= length inp)%nat -> take (16 * N) (drop 32 inp) = C ->
  forall n iv M j, (j + n)%nat = N -> length M = (16 * j)%nat -> (j = 0%nat -> iv = take 16 (drop 16 inp)) -> k = drop (16 * j) C ->
  exists iv',
  foldM (decrypt_step c cbc inp (16 * Z.of_nat N)) (seq j n) (OAES_RET_SUCCESS, iv, M ++ drop (16 * j) (C ++ R)) =
  Ret (OAES_RET_SUCCESS, iv', (M ++ dec_msg Nk d cbc (take 16 (drop (16 + 16 * j) inp)) k n) ++ R).
Proof.
  intros Hc Hi HC HlC Hin EC n. revert k. induction n as [|n IH]; intros k iv M j Hj HM Hiv Ek.
  - exists iv. cbn [seq foldM dec_msg]. rewrite app_nil_r, drop_app_length' by lia. done.
  - cbn [seq foldM]. destruct (decrypt_step_spec c cbc inp iv C M R N j Hc Hi HC ltac:(lia) HlC HM Hin Hiv) as [iv1 ->]. cbn [bind].
    set (p := if cbc then _ else _).
    pose proof (block_at C j N HC ltac:(lia) ltac:(lia)) as HB. destruct (E_D c Nk d Hc _ HB) as (_ & _ & [_ HD]).
    assert (length p = 16%nat) as Hp by (subst p; destruct cbc; [rewrite length_xor_list; rewrite ?length_take, ?length_drop; lia|done]).
    destruct (IH (drop (16 * S j) C) iv1 (M ++ p) (S j)) as [iv2 ->]; [lia|rewrite length_app; lia|lia|done|]. exists iv2. cbn [dec_msg].
    do 3 f_equal. rewrite Ek, <- !app_assoc. do 2 f_equal.
    assert (take 16 (drop (16 + 16 * S j) inp) = take 16 (drop (16 * j) C)) as ->.
    { rewrite <- EC, skipn_firstn_comm, take_take, drop_drop. f_equal; [lia|]. f_equal. lia. }
    rewrite drop_drop. do 2 f_equal. lia.
Qed.
End Messages.

(** ** Messages: the format *)

Lemma header_written o m iv ecb :
  (ecb = OAES_OPTION_ECB \/ ecb = OAES_OPTION_CBC) -> length iv = 16%nat -> (32 + length m <= length o)%nat ->
  (let* o := write 0 oaes_header o in
   let* o := write 6 (le_bytes 2 ecb) o in
   let* o := write 8 [if (pad_len m =? 0)%nat then 0 else 1] o in
   let* o := write 16 iv o in
   let* m := read 0 (length m) m in
   write 32 m o) = Ret ((msg_header ecb m ++ iv) ++ m ++ drop (32 + length m) o).
Proof.
  intros He Hiv Hl. do 32 (destruct o as [|? o]; [simpl in Hl; lia|]). name_bytes iv Hiv.
  rewrite read_ok by lia. rewrite drop_0, take_ge by lia. unfold msg_header. set (f := if (pad_len m =? 0)%nat then 0 else 1).
  change (le_bytes 2 ecb) with [ecb mod 256; ecb / 256 mod 256].
  assert (ecb mod 256 = ecb /\ ecb / 256 mod 256 = 0) as [-> ->] by (by destruct He as [-> | ->]).
  unfold oaes_header. do 4 (rewrite write_ok by (cbn [length] in *; lia); cbn [bind put take drop app length Nat.add]).
  rewrite drop_0, write_ok by (cbn [length] in *; lia). done.
Qed.

Lemma pad_flag m :
  (if Z.of_nat (length m) mod 16 =? 0 then 0 else 16 - Z.of_nat (length m) mod 16) = Z.of_nat (pad_len m).
Proof.
  unfold pad_len. pose proof (Nat2Z.inj_mod (length m) 16) as E. change (Z.of_nat 16) with 16 in E. rewrite <- E.
  pose proof (Nat.mod_upper_bound (length m) 16 ltac:(lia)).
  destruct (Nat.eqb_spec (length m mod 16) 0), (Z.eqb_spec (Z.of_nat (length m mod 16)) 0); lia.
Qed.

Section Format.
Context (Nk : nat) (d : list Z).

Definition is_mode (c : oaes_ctx) : Prop := options c = OAES_OPTION_ECB \/ options c = OAES_OPTION_CBC.

(** The encrypted message. *)
Definition message (c : oaes_ctx) (m : list Z) : list Z :=
  msg_header (options c) m ++ civ c ++ fst (enc_msg Nk d (cbc_of (options c)) (civ c) (padded m) (msg_blocks m)).

Definition message_iv (c : oaes_ctx) (m : list Z) : list Z :=
  snd (enc_msg Nk d (cbc_of (options c)) (civ c) (padded m) (msg_blocks m)).

Definition message_len (m : list Z) : nat := (32 + 16 * msg_blocks m)%nat.

Lemma message_spec c m : keyed c Nk d -> bytes m -> block (civ c) -> is_mode c ->
  bytes (message c m) /\ length (message c m) = message_len m /\ block (message_iv c m).
Proof.
  intros Hc Hm Hv Ho. destruct (enc_msg_spec Nk d c (cbc_of (options c)) (civ c) (padded m) (msg_blocks m) Hc (bytes_padded m Hm)
    ltac:(rewrite length_padded; lia) Hv) as (H1 & H2 & H3 & _). unfold message, message_len, message_iv. split; [|split; [|done]].
  - apply bytes_app; [|apply bytes_app; [apply Hv|done]]. apply bytesb_true. unfold msg_header. by destruct (pad_len m =? 0)%nat, Ho as [-> | ->].
  - rewrite !length_app, H2. destruct Hv as [_ ->]. cbn [length msg_header]. lia.
Qed.

Lemma oaes_encrypt_spec c m out len :
  keyed c Nk d -> bytes m -> block (civ c) -> is_mode c ->
  Z.of_nat (message_len m) < 2 ^ 64 -> (message_len m <= length out)%nat -> Z.of_nat (message_len m) <= len ->
  oaes_encrypt (Some c) (Some m) (Z.of_nat (length m)) (Some out) (Some len) =
  Ret (OAES_RET_SUCCESS, Some (set_civ (message_iv c m) c), Some (message c m ++ drop (message_len m) out), Some (Z.of_nat (message_len m))).
Proof.
  intros Hc Hm Hv Ho Hw Hl Hn. unfold message_len in *. pose proof (msg_blocks_spec m) as Hs. unfold oaes_encrypt. rewrite pad_flag.
  replace (if Z.of_nat (pad_len m) =? 0 then 0 else OAES_FLAG_PAD) with (if (pad_len m =? 0)%nat then 0 else 1)
    by (destruct (Nat.eqb_spec (pad_len m) 0), (Z.eqb_spec (Z.of_nat (pad_len m)) 0); done || lia).
  rewrite !(uwrap_small 64) by lia. destruct (Z.ltb_spec len (2 * 16 + Z.of_nat (length m) + Z.of_nat (pad_len m))); [lia|].
  rewrite (keyed_key _ _ _ Hc). rewrite Nat2Z.id.
  pose proof (header_written out m (civ c) (options c) Ho (proj2 Hv) ltac:(lia)) as HW.
  destruct (write 0 oaes_header out) as [o1|] eqn:E1; cbn [bind] in HW |- *; [|done].
  destruct (write 6 _ o1) as [o2|] eqn:E2; cbn [bind] in HW |- *; [|done]. destruct (write 8 _ o2) as [o3|] eqn:E3; cbn [bind] in HW |- *; [|done].
  destruct (write 16 _ o3) as [o4|] eqn:E4; cbn [bind] in HW |- *; [|done]. destruct (read 0 _ m) as [m1|] eqn:E5; cbn [bind] in HW |- *; [|done].
  rewrite HW. cbn [bind]. replace (Z.to_nat ((Z.of_nat (length m) + Z.of_nat (pad_len m)) / 16)) with (msg_blocks m)
    by (rewrite <- Nat2Z.inj_add, Hs, Nat2Z.inj_mul, Z.mul_comm, Z.div_mul; lia).
  pose proof (encrypt_loop_spec Nk d (msg_blocks m) c m (drop (32 + length m) out) (msg_header (options c) m ++ civ c) 0 Hc Hm Hv ltac:(lia)
    ltac:(rewrite length_drop; lia) ltac:(rewrite length_app; destruct Hv as [_ ->]; done)) as HL.
  rewrite Nat.mul_0_r, !drop_0 in HL. rewrite HL. cbn [bind]. unfold message_iv, message. do 2 f_equal; [|f_equal; lia]. do 2 f_equal.
  rewrite <- !app_assoc. do 3 f_equal. rewrite drop_app_ge, drop_drop by lia. f_equal. lia.
Qed.

Lemma check_header_spec c m tl : is_mode c -> check_header (msg_header (options c) m ++ tl) = Ret (Some (options c, if (pad_len m =? 0)%nat then 0 else 1)).
Proof.
  intros Ho. unfold check_header, msg_header. rewrite !read_ok by (rewrite length_app; cbn [length]; lia).
  cbn [bind app take drop]. rewrite bool_decide_true by done. by destruct Ho as [-> | ->], (pad_len m =? 0)%nat.
Qed.
Lemma index_pad m R i : (i < pad_len m)%nat -> index (padded m ++ R) (16 * Z.of_nat (msg_blocks m) - 1 - Z.of_nat i) = Ret (Z.of_nat (pad_len m) - Z.of_nat i).
Proof.
  intros Hi. pose proof (msg_blocks_spec m). apply index_lookup; [lia|].
  replace (Z.to_nat (16 * Z.of_nat (msg_blocks m) - 1 - Z.of_nat i)) with (length m + (pad_len m - 1 - i))%nat by lia.
  unfold padded. rewrite <- app_assoc, lookup_app_r by lia. replace (length m + (pad_len m - 1 - i) - length m)%nat with (pad_len m - 1 - i)%nat by lia.
  rewrite lookup_app_l by (rewrite length_map, length_seq; lia). rewrite list_lookup_fmap, lookup_seq_lt by lia. simpl. f_equal. lia.
Qed.

Lemma remove_pad_spec m R :
  pad_len m <> 0%nat ->
  remove_pad (padded m ++ R) (16 * Z.of_nat (msg_blocks m)) = Ret (OAES_RET_SUCCESS, m ++ replicate (pad_len m) 0 ++ R, Z.of_nat (length m)).
Proof.
  intros Hp. destruct (pad_len_spec m) as [Hp' _]. pose proof (msg_blocks_spec m) as Hs. unfold remove_pad.
  pose proof (index_pad m R 0 ltac:(lia)) as Ei. rewrite !Z.sub_0_r in Ei. rewrite Ei. cbn [bind].
  destruct (Z.leb_spec (Z.of_nat (pad_len m)) 0), (Z.ltb_spec 15 (Z.of_nat (pad_len m))); try lia. cbn [orb]. rewrite Nat2Z.id.
  assert (forall l, Forall (fun i => i < pad_len m)%nat l -> foldM (fun i is_pad =>
    let* b := index (padded m ++ R) (16 * Z.of_nat (msg_blocks m) - 1 - Z.of_nat i) in
    Ret (is_pad && (b =? Z.of_nat (pad_len m) - Z.of_nat i))) l true = Ret true) as ->.
  { induction 1 as [|i l Hi Hl IH]; [done|]. cbn [foldM]. rewrite index_pad by done. cbn [bind]. by rewrite Z.eqb_refl. }
  2: { apply List.Forall_forall. intros i Hi%in_seq. lia. }
  cbn [bind]. rewrite write_ok by (rewrite length_app, length_padded, length_replicate; lia). cbn [bind].
  replace (Z.to_nat (16 * Z.of_nat (msg_blocks m) - Z.of_nat (pad_len m))) with (length m) by lia. f_equal. f_equal; [|lia]. f_equal.
  unfold put, padded. rewrite length_replicate, drop_app_length' by (rewrite length_app, length_map, length_seq; lia).
  by rewrite <- app_assoc, take_app_length.
Qed.

Lemma oaes_decrypt_spec c c' m out tl len :
  keyed c Nk d -> keyed c' Nk d -> bytes m -> bytes tl -> block (civ c) -> is_mode c ->
  Z.of_nat (message_len m) < 2 ^ 64 -> (16 * msg_blocks m <= length out)%nat -> 16 * Z.of_nat (msg_blocks m) <= len ->
  oaes_decrypt (Some c') (Some (message c m ++ tl)) (Z.of_nat (message_len m)) (Some out) (Some len) =
  Ret (OAES_RET_SUCCESS, Some (m ++ replicate (pad_len m) 0 ++ drop (16 * msg_blocks m) out), Some (Z.of_nat (length m))).
Proof.
  intros Hc Hc' Hm Htl Hv Ho Hw Hl Hn. destruct (message_spec c m Hc Hm Hv Ho) as (HB & HL & _). unfold message_len in *. unfold oaes_decrypt.
  pose proof (msg_blocks_spec m) as Hs. set (N := msg_blocks m) in *. replace (Z.of_nat (32 + 16 * N)) with ((2 + Z.of_nat N) * 16) by lia.
  rewrite Z.mod_mul by lia. cbn [Z.eqb negb]. rewrite (uwrap_small 64) by (pow_consts; lia).
  replace ((2 + Z.of_nat N) * 16 - 2 * 16) with (16 * Z.of_nat N) by lia. destruct (Z.ltb_spec len (16 * Z.of_nat N)); [lia|].
  rewrite (keyed_key _ _ _ Hc'). unfold message at 1. rewrite <- app_assoc, check_header_spec by done. cbn [bind].
  rewrite !read_ok by (rewrite length_app, HL; lia). cbn [bind].
  destruct (enc_msg_spec Nk d c (cbc_of (options c)) (civ c) (padded m) N Hc (bytes_padded m Hm) ltac:(rewrite length_padded; lia) Hv) as (HC & HlC & _ & Hdec).
  set (C := fst _) in HC, HlC, Hdec.
  assert (drop 16 (message c m ++ tl) = civ c ++ C ++ tl) as E16 by (unfold message; rewrite <- !app_assoc; done).
  assert (drop 32 (message c m ++ tl) = C ++ tl) as E32 by (rewrite <- (drop_drop _ 16 16), E16; apply drop_app_length'; by destruct Hv).
  rewrite E16, E32. replace (Z.to_nat (16 * Z.of_nat N)) with (16 * N)%nat by lia. rewrite (take_app_length' (civ c)) by (by destruct Hv).
  rewrite take_app_length' by lia. rewrite write_ok by lia. cbn [bind].
  unfold put. rewrite take_0. cbn [app]. rewrite HlC, Nat.add_0_l. fold (cbc_of (options c)).
  replace (Z.to_nat (16 * Z.of_nat N / 16)) with N by (rewrite Z.mul_comm, Z.div_mul; lia).
  destruct (decrypt_loop_spec Nk d c' (cbc_of (options c)) (message c m ++ tl) C (drop (16 * N) out) N C Hc' ltac:(by apply bytes_app) HC HlC
    ltac:(rewrite length_app, HL; lia) ltac:(rewrite E32; apply take_app_length'; lia) N (civ c) [] 0 ltac:(lia) ltac:(done)
    ltac:(intros _; rewrite E16; symmetry; apply take_app_length'; by destruct Hv) ltac:(done)) as [iv' ED].
  rewrite Nat.mul_0_r, Nat.add_0_r, drop_0, E16, take_app_length' in ED by (by destruct Hv). cbn [app] in ED. rewrite ED. cbn [bind].
  rewrite Hdec, take_ge by (rewrite length_padded; fold N; lia). destruct (Nat.eqb_spec (pad_len m) 0) as [E0|E0].
  - cbn [Z.land Z.eqb negb]. unfold padded. rewrite E0. cbn [seq map replicate app]. rewrite app_nil_r. do 3 f_equal. lia.
  - cbn. rewrite remove_pad_spec by done. done.
Qed.
End Format.

(** ** Keys *)

Lemma expand_or_destroy_spec mem c Nk d :
  key_size Nk -> bytes d -> length d = (4 * Nk)%nat ->
  expand_or_destroy mem (set_key (Some (zero_key (4 * Z.of_nat Nk) d)) c) =
  Ret (if mem then (OAES_RET_SUCCESS, Some (set_key (Some (expanded Nk d)) c)) else (OAES_RET_UNKNOWN, Some (set_key None c))).
Proof.
  intros Hs Hb Hl. unfold expand_or_destroy. destruct mem; [|done].
  by rewrite (oaes_key_expand_spec Nk Hs _ (zero_key (4 * Z.of_nat Nk) d) d) by done.
Qed.

(** The sizes the library accepts. *)
Lemma key_size_cases len : (len =? 16) || (len =? 24) || (len =? 32) = true -> exists Nk, key_size Nk /\ len = 4 * Z.of_nat Nk.
Proof.
  rewrite !orb_true_iff, !Z.eqb_eq. unfold key_size. intros [[-> | ->] | ->]; [exists 4%nat|exists 6%nat|exists 8%nat]; lia.
Qed.

Lemma key_size_ok Nk : key_size Nk -> (4 * Z.of_nat Nk =? 16) || (4 * Z.of_nat Nk =? 24) || (4 * Z.of_nat Nk =? 32) = true.
Proof. by intros [-> | [-> | ->]]. Qed.

Lemma import_bytes_spec mem1 mem2 mem3 c src Nk :
  key_size Nk -> bytes src -> (4 * Nk <= length src)%nat ->
  import_bytes mem1 mem2 mem3 c src (4 * Z.of_nat Nk) =
  Ret (if negb mem1 || negb mem2 then (OAES_RET_MEM, Some (set_key None c)) else
       if negb mem3 then (OAES_RET_UNKNOWN, Some (set_key None c)) else
       (OAES_RET_SUCCESS, Some (set_key (Some (expanded Nk (take (4 * Nk) src))) c))).
Proof.
  intros Hs Hb Hl. unfold import_bytes. destruct mem1; [|done]. destruct mem2; [|done]. cbn [negb orb].
  replace (Z.to_nat (4 * Z.of_nat Nk)) with (4 * Nk)%nat by lia. rewrite read_ok by lia. cbn [bind]. rewrite drop_0.
  rewrite (expand_or_destroy_spec mem3 (set_key None c) Nk) by (done || (by apply bytes_take) || (rewrite length_take; lia)). by destruct mem3.
Qed.

Lemma keyed_set c Nk d : key_size Nk -> bytes d -> length d = (4 * Nk)%nat -> keyed (set_key (Some (expanded Nk d)) c) Nk d.
Proof. by split. Qed.

(** The exported key. *)
Definition key_file (Nk : nat) (d : list Z) : list Z := [0x4f; 0x41; 0x45; 0x53; 0x01; 0x01; 0x00; 4 * Z.of_nat Nk; 0; 0; 0; 0; 0; 0; 0; 0] ++ d.

Lemma oaes_key_export_spec c Nk d buf len :
  keyed c Nk d -> (16 + 4 * Nk <= length buf)%nat -> 16 + 4 * Z.of_nat Nk <= len ->
  oaes_key_export (Some c) (Some buf) (Some len) =
  Ret (OAES_RET_SUCCESS, Some (key_file Nk d ++ drop (16 + 4 * Nk) buf), Some (16 + 4 * Z.of_nat Nk)).
Proof.
  intros [Hs Hb Hl Hk] Hbuf Hlen. unfold oaes_key_export. rewrite Hk. cbn [expanded data_len data].
  assert (0 <= 4 * Z.of_nat Nk < 256) as Hr by (destruct Hs as [-> | [-> | ->]]; lia).
  rewrite (uwrap_small 64) by (pow_consts; lia). destruct (Z.ltb_spec len (4 * Z.of_nat Nk + 16)); [lia|].
  do 16 (destruct buf as [|? buf]; [simpl in Hbuf; lia|]). unfold oaes_header.
  do 3 (rewrite write_ok by (cbn [length] in *; lia); cbn [bind put take drop app length Nat.add]).
  replace (Z.to_nat (4 * Z.of_nat Nk)) with (4 * Nk)%nat by lia. rewrite read_ok, drop_0, take_ge by lia. cbn [bind].
  rewrite drop_0, write_ok by (cbn [length] in *; lia). cbn [bind]. unfold put. rewrite Hl. unfold u8, uwrap. change (2 ^ 8) with 256. rewrite Z.mod_small by done.
  cbn [take drop app Nat.add]. unfold key_file. do 2 f_equal. f_equal. lia.
Qed.

Lemma oaes_key_import_spec mem1 mem2 mem3 c Nk d tl :
  key_size Nk -> bytes d -> bytes tl -> length d = (4 * Nk)%nat ->
  oaes_key_import mem1 mem2 mem3 (Some c) (Some (key_file Nk d ++ tl)) (16 + 4 * Z.of_nat Nk) =
  import_bytes mem1 mem2 mem3 c (d ++ tl) (4 * Z.of_nat Nk).
Proof.
  intros Hs Hb Htl Hl. unfold oaes_key_import, key_file. rewrite <- app_assoc.
  assert (negb ((16 + 4 * Z.of_nat Nk =? 16 + 16) || (16 + 4 * Z.of_nat Nk =? 24 + 16) || (16 + 4 * Z.of_nat Nk =? 32 + 16)) = false) as ->
    by (by destruct Hs as [-> | [-> | ->]]).
  rewrite read_ok by (rewrite length_app; cbn [length]; lia). cbn [bind app take drop]. rewrite bool_decide_true by done.
  destruct Hs as [-> | [-> | ->]]; reflexivity.
Qed.
