(* ===== verification/OaesContext.v ===== *)
(** The life of an oaes_lib.c context as a state machine: what every reachable
    context satisfies, and the theorems on its keys, blocks and messages. *)

From S2P Require Import Prelude Limbs Bytes Words Memory Gf256 Aes Aesb Oaes OaesFacts.

(** ** The state machine *)

Definition option_bytes (v : option (list Z)) : Prop := match v with Some v => bytes v | None => True end.

(** A call that changes a context.  The caller's buffers are as long as he
    says, and no longer than the address space holds together with the header. *)
Inductive ctx_step : oaes_ctx -> oaes_ctx -> Prop :=
| step_set_option rnd c opt value r c' :
    option_bytes value -> oaes_set_option rnd (Some c) opt value = Ret (r, Some c') -> ctx_step c c'
| step_key_gen gen rnd mem1 mem2 mem3 c r c' :
    gen = oaes_key_gen_128 \/ gen = oaes_key_gen_192 \/ gen = oaes_key_gen_256 ->
    gen rnd mem1 mem2 mem3 (Some c) = Ret (r, Some c') -> ctx_step c c'
| step_key_import mem1 mem2 mem3 c buf len r c' :
    option_bytes buf -> oaes_key_import mem1 mem2 mem3 (Some c) buf len = Ret (r, Some c') -> ctx_step c c'
| step_key_import_data mem1 mem2 mem3 c buf len r c' :
    option_bytes buf -> oaes_key_import_data mem1 mem2 mem3 (Some c) buf len = Ret (r, Some c') -> ctx_step c c'
| step_encrypt c m out len r c' out' len' :
    bytes m -> Z.of_nat (message_len m) < 2 ^ 64 -> (match out with Some o => len <= Z.of_nat (length o) | None => True end) ->
    oaes_encrypt (Some c) (Some m) (Z.of_nat (length m)) out (Some len) = Ret (r, Some c', out', len') -> ctx_step c c'.

Inductive reachable : oaes_ctx -> Prop :=
| reachable_alloc rnd c : oaes_alloc rnd true = Ret (Some c) -> reachable c
| reachable_step c c' : reachable c -> ctx_step c c' -> reachable c'.

(** The invariant: one mode is set, the chaining value is a block, and a key
    is there with the schedule of its bytes or not at all. *)
Definition ctx_ok (c : oaes_ctx) : Prop := is_mode c /\ block (civ c) /\ (key c = None \/ exists Nk d, keyed c Nk d).

Lemma block_random (rnd : nat -> Z) : block (map (fun i => u8 (rnd i)) (seq 0 16)).
Proof.
  split; [|by rewrite length_map, length_seq]. apply List.Forall_forall. intros x Hx. apply in_map_iff in Hx as (i & <- & _). apply u8_byte.
Qed.

Lemma keyed_same_key c c' Nk d : key c' = key c -> keyed c Nk d -> keyed c' Nk d.
Proof. intros E [H1 H2 H3 H4]. split; [done|done|done|]. congruence. Qed.

Lemma ctx_ok_key_none c : is_mode c -> block (civ c) -> ctx_ok (set_key None c).
Proof. intros H1 H2. split; [done|]. split; [done|by left]. Qed.

Lemma ctx_ok_keyed c Nk d : is_mode c -> block (civ c) -> key_size Nk -> bytes d -> length d = (4 * Nk)%nat -> ctx_ok (set_key (Some (expanded Nk d)) c).
Proof. intros H1 H2 H3 H4 H5. split; [done|]. split; [done|]. right. exists Nk, d. by apply keyed_set. Qed.

Lemma is_mode_land o a b : o = a \/ o = b \/ o = 0 -> (a = 1 /\ b = 2) -> Z.lor (Z.land o (Z.lnot 2)) 1 = 1 /\ Z.lor (Z.land o (Z.lnot 1)) 2 = 2.
Proof. by intros [-> | [-> | ->]] [-> ->]. Qed.

Lemma set_option_ok rnd c opt value r c' :
  (is_mode c \/ options c = 0) -> block (civ c) -> (key c = None \/ exists Nk d, keyed c Nk d) -> option_bytes value ->
  oaes_set_option rnd (Some c) opt value = Ret (r, Some c') -> ctx_ok c' \/ c' = c.
Proof.
  intros Ho Hv Hk Hval. destruct (is_mode_land (options c) 1 2) as [E1 E2]; [destruct Ho as [[?|?]|?]; auto|done|]. unfold oaes_set_option.
  destruct (opt =? OAES_OPTION_ECB) eqn:Ee; [|destruct (opt =? OAES_OPTION_CBC) eqn:Ec]; [| |intros [= _ <-]; by right].
  - apply Z.eqb_eq in Ee as ->. intros [= _ <-]. left. split; [left; exact E1|]. split; [split; [by apply bytesb_true|done]|].
    destruct Hk as [Hk|(Nk & d & Hk)]; [by left|right; exists Nk, d; by apply (keyed_same_key c)].
  - apply Z.eqb_eq in Ec as ->. intros H. left.
    assert (forall v, block v -> ctx_ok (set_options (Z.lor (Z.land (options c) (Z.lnot OAES_OPTION_ECB)) OAES_OPTION_CBC) (set_civ v c))) as G.
    { intros v Hb. split; [right; exact E2|]. split; [done|]. destruct Hk as [Hk|(Nk & d & Hk)]; [by left|right; exists Nk, d; by apply (keyed_same_key c)]. }
    destruct value as [v|].
    + unfold read in H. destruct (Nat.leb_spec (0 + 16) (length v)); [|done]. injection H as _ <-. apply G.
      split; [by apply bytes_take, bytes_drop|]. rewrite length_take, length_drop. lia.
    + injection H as _ <-. apply G, block_random.
Qed.

Lemma import_ok mem1 mem2 mem3 c src len r c' :
  ctx_ok c -> bytes src -> (len =? 16) || (len =? 24) || (len =? 32) = true -> import_bytes mem1 mem2 mem3 c src len = Ret (r, Some c') -> ctx_ok c'.
Proof.
  intros (H1 & H2 & _) Hb Hl. destruct (key_size_cases len Hl) as (Nk & Hs & ->).
  destruct (Nat.le_gt_cases (4 * Nk) (length src)) as [Hle|Hgt].
  - rewrite import_bytes_spec by done. destruct (negb mem1 || negb mem2); [|destruct (negb mem3)]; intros [= _ <-].
    + by apply ctx_ok_key_none.
    + by apply ctx_ok_key_none.
    + apply ctx_ok_keyed; [done|done|done|by apply bytes_take|]. rewrite length_take. lia.
  - unfold import_bytes. destruct mem1; [|intros [= _ <-]; by apply ctx_ok_key_none]. destruct mem2; [|intros [= _ <-]; by apply ctx_ok_key_none].
    cbn [negb]. unfold read. destruct (Nat.leb_spec (0 + Z.to_nat (4 * Z.of_nat Nk)) (length src)); [lia|done].
Qed.

Lemma key_gen_ok rnd mem1 mem2 mem3 c Nk r c' :
  ctx_ok c -> key_size Nk -> oaes_key_gen rnd mem1 mem2 mem3 (Some c) (4 * Z.of_nat Nk) = Ret (r, Some c') -> ctx_ok c'.
Proof.
  intros Hc Hs. destruct Hc as (H1 & H2 & H3). unfold oaes_key_gen. destruct mem1; [|intros [= _ <-]; done].
  destruct mem2; [|intros [= _ <-]; by apply ctx_ok_key_none]. cbn [negb].
  set (d := map _ _). assert (bytes d /\ length d = (4 * Nk)%nat) as [Hb Hl].
  { split; [|unfold d; rewrite length_map, length_seq; lia]. apply List.Forall_forall. intros x Hx. apply in_map_iff in Hx as (i & <- & _). apply u8_byte. }
  rewrite (expand_or_destroy_spec mem3 (set_key None c) Nk d) by done. destruct mem3; intros [= _ <-]; [by apply ctx_ok_keyed|by apply ctx_ok_key_none].
Qed.

Lemma encrypt_ok c m out len r c' out' len' :
  ctx_ok c -> bytes m -> Z.of_nat (message_len m) < 2 ^ 64 -> (match out with Some o => len <= Z.of_nat (length o) | None => True end) ->
  oaes_encrypt (Some c) (Some m) (Z.of_nat (length m)) out (Some len) = Ret (r, Some c', out', len') -> ctx_ok c'.
Proof.
  intros Hc Hm Hw Ho. destruct out as [o|]; [|intros [= _ <- _ _]; done]. destruct (Z.le_gt_cases (Z.of_nat (message_len m)) len) as [Hl|Hl].
  - destruct Hc as (H1 & H2 & [Hk|(Nk & d & Hk)]).
    + unfold oaes_encrypt. rewrite Hk. destruct (_ <? _); intros [= _ <- _ _]; (split; [done|split; [done|by left]]).
    + rewrite (oaes_encrypt_spec Nk d) by (done || lia). intros [= _ <- _ _].
      destruct (message_spec Nk d c m Hk Hm H2 H1) as (_ & _ & Hv). split; [done|]. split; [done|]. right. exists Nk, d. by apply (keyed_same_key c).
  - unfold oaes_encrypt. rewrite pad_flag. pose proof (msg_blocks_spec m). unfold message_len in *.
    rewrite !(uwrap_small 64) by lia. destruct (Z.ltb_spec len (2 * 16 + Z.of_nat (length m) + Z.of_nat (pad_len m))); [|lia]. intros [= _ <- _ _]. done.
Qed.

Lemma ctx_step_ok c c' : ctx_ok c -> ctx_step c c' -> ctx_ok c'.
Proof.
  intros Hc Hs. destruct Hs as [rnd c opt value r c' Hv H|gen rnd mem1 mem2 mem3 c r c' Hg H|mem1 mem2 mem3 c buf len r c' Hb H|mem1 mem2 mem3 c buf len r c' Hb H|c m out len r c' out' len' Hm Hw Ho H].
  - destruct Hc as (H1 & H2 & H3). destruct (set_option_ok rnd c opt value r c' (or_introl H1) H2 H3 Hv H) as [G| ->]; [done|]. done.
  - destruct Hg as [-> | [-> | ->]]; [apply (key_gen_ok rnd mem1 mem2 mem3 c 4 r)|apply (key_gen_ok rnd mem1 mem2 mem3 c 6 r)|apply (key_gen_ok rnd mem1 mem2 mem3 c 8 r)];
      (done || (unfold key_size; lia)).
  - unfold oaes_key_import in H. destruct buf as [b|]; [|injection H as _ <-; done].
    destruct (negb _); [injection H as _ <-; done|]. destruct (read 0 4 b); cbn [bind] in H; [|done].
    destruct (negb _); [injection H as _ <-; done|]. destruct (index b 4); cbn [bind] in H; [|done].
    destruct (negb _); [injection H as _ <-; done|]. destruct (index b 5); cbn [bind] in H; [|done].
    destruct (negb _); [injection H as _ <-; done|]. destruct (index b 7) as [kl|]; cbn [bind] in H; [|done].
    destruct ((kl =? 16) || (kl =? 24) || (kl =? 32)) eqn:Ek; cbn [negb] in H; [|injection H as _ <-; done].
    destruct (negb _); [injection H as _ <-; done|]. apply (import_ok mem1 mem2 mem3 c (drop 16 b) kl r); [done|by apply bytes_drop|done|done].
  - unfold oaes_key_import_data in H. destruct buf as [b|]; [|injection H as _ <-; done].
    destruct ((len =? 16) || (len =? 24) || (len =? 32)) eqn:Ek; cbn [negb] in H; [|injection H as _ <-; done].
    by apply (import_ok mem1 mem2 mem3 c b len r).
  - by apply (encrypt_ok c m out len r c' out' len').
Qed.

Lemma reachable_spec c : reachable c -> ctx_ok c.
Proof.
  induction 1 as [rnd c H|c c' _ IH Hs]; [|exact (ctx_step_ok c c' IH Hs)]. unfold oaes_alloc in H. cbn [negb] in H.
  set (c0 := {| key := None; options := 0; civ := replicate 16 0 |}) in H.
  destruct (oaes_set_option rnd (Some c0) OAES_OPTION_CBC None) as [[r [c1|]]|] eqn:E; cbn [bind] in H; [|done|done].
  injection H as ->. destruct (set_option_ok rnd c0 OAES_OPTION_CBC None r c) as [G| ->]; try done.
  - by right.
  - split; [by apply bytesb_true|done].
  - by left.
Qed.

(** ** Theorems *)

(** C20: oaes_lib.c: every context that calls to the library can produce from
    [oaes_alloc] has exactly one of the modes ECB and CBC, a chaining value of
    16 bytes, and either no key or a key of 16, 24 or 32 bytes whose expanded
    data is the AES key schedule of these bytes, whatever allocations fail. *)
Theorem oaes_reachable_ok c :
  reachable c ->
  (options c = OAES_OPTION_ECB \/ options c = OAES_OPTION_CBC) /\ block (civ c) /\
  (key c = None \/
   exists Nk k, (Nk = 4 \/ Nk = 6 \/ Nk = 8)%nat /\ key c = Some k /\ bytes (data k) /\ length (data k) = (4 * Nk)%nat /\
     data_len k = 4 * Z.of_nat Nk /\ num_keys k = Z.of_nat Nk + 7 /\ key_base k = Z.of_nat Nk /\ exp_data k = key_schedule Nk (data k)).
Proof.
  intros H. destruct (reachable_spec c H) as (H1 & H2 & H3). split; [done|]. split; [done|]. destruct H3 as [H3|(Nk & d & [K1 K2 K3 K4])]; [by left|].
  right. exists Nk, (expanded Nk d). cbn [expanded data data_len num_keys key_base exp_data]. repeat (split; [done || lia|]). done.
Qed.

(** A context with the key bytes [d]. *)
Definition sample_ctx (o : Z) (d : list Z) : oaes_ctx := {| key := Some (expanded 4 d); options := o; civ := replicate 16 7 |}.

Lemma sample_keyed o d : bytes d -> length d = 16%nat -> keyed (sample_ctx o d) 4 d.
Proof. intros Hb Hl. split; [by left|done|done|done]. Qed.

Lemma oaes_reachable_ok_witness :
  exists c, oaes_alloc (fun i => Z.of_nat i) true = Ret (Some c) /\ (options c = OAES_OPTION_ECB \/ options c = OAES_OPTION_CBC).
Proof.
  eexists. split; [reflexivity|]. refine (proj1 (oaes_reachable_ok _ _)). exact (reachable_alloc (fun i => Z.of_nat i) _ eq_refl).
Defined.

(** C19: oaes_lib.c: a key imported from its 16, 24 or 32 bytes encrypts every
    block with AES of the corresponding number of rounds, on its FIPS 197 key
    schedule, and decryption of a block inverts it; no access is outside the
    buffers, and the bytes after the block stay. *)
Theorem oaes_block_correct c Nk d s rest :
  (Nk = 4 \/ Nk = 6 \/ Nk = 8)%nat -> bytes d -> length d = (4 * Nk)%nat -> block s ->
  exists c', oaes_key_import_data true true true (Some c) (Some d) (4 * Z.of_nat Nk) = Ret (OAES_RET_SUCCESS, Some c') /\
    oaes_encrypt_block (Some c') (Some (s ++ rest)) 16 = Ret (OAES_RET_SUCCESS, Some (aes_cipher (Nk + 6) (key_schedule Nk d) s ++ rest)) /\
    oaes_decrypt_block (Some c') (Some (aes_cipher (Nk + 6) (key_schedule Nk d) s ++ rest)) 16 = Ret (OAES_RET_SUCCESS, Some (s ++ rest)).
Proof.
  intros Hs Hb Hl Hblk. exists (set_key (Some (expanded Nk d)) c). pose proof (keyed_set c Nk d Hs Hb Hl) as Hk.
  destruct (E_D _ Nk d Hk s Hblk) as (HD & HE & _). split; [|split].
  - unfold oaes_key_import_data. rewrite (key_size_ok Nk Hs). cbn [negb]. rewrite import_bytes_spec by (done || lia). cbn [negb orb].
    by rewrite take_ge by lia.
  - by apply oaes_encrypt_block_spec.
  - change (aes_cipher (Nk + 6) (key_schedule Nk d) s) with (E Nk d s). rewrite (oaes_decrypt_block_spec _ Nk d Hk) by done. by rewrite HD.
Qed.

Lemma oaes_block_correct_witness :
  exists c', oaes_key_import_data true true true (Some (sample_ctx 1 (kat_key 16))) (Some (kat_key 32)) 32 = Ret (OAES_RET_SUCCESS, Some c').
Proof.
  destruct (oaes_block_correct (sample_ctx 1 (kat_key 16)) 8 (kat_key 32) kat_input []) as (c' & H & _).
  - right. by right.
  - by apply bytesb_true.
  - done.
  - split; [by apply bytesb_true|done].
  - exists c'. exact H.
Defined.

(** C18: oaes_lib.c: a message of any length that [oaes_encrypt] has encrypted
    in ECB or CBC mode comes back from [oaes_decrypt], under any context with
    the same key, with its length; the padding is overwritten with zeros and
    the rest of the caller's buffer stays. *)
Theorem oaes_message_roundtrip c c' Nk d m out buf len len' :
  keyed c Nk d -> keyed c' Nk d -> bytes m -> bytes out -> block (civ c) ->
  (options c = OAES_OPTION_ECB \/ options c = OAES_OPTION_CBC) ->
  Z.of_nat (message_len m) < 2 ^ 64 ->
  (message_len m <= length out)%nat -> Z.of_nat (message_len m) <= len ->
  (message_len m - 32 <= length buf)%nat -> Z.of_nat (message_len m) - 32 <= len' ->
  exists c1 enc n,
    oaes_encrypt (Some c) (Some m) (Z.of_nat (length m)) (Some out) (Some len) = Ret (OAES_RET_SUCCESS, Some c1, Some enc, Some n) /\
    oaes_decrypt (Some c') (Some enc) n (Some buf) (Some len') =
    Ret (OAES_RET_SUCCESS, Some (m ++ replicate (pad_len m) 0 ++ drop (length m + pad_len m) buf), Some (Z.of_nat (length m))).
Proof.
  intros Hc Hc' Hm Ho Hv Hmode Hw Hl Hn Hb Hn'. rewrite (oaes_encrypt_spec Nk d) by done. do 3 eexists. split; [reflexivity|].
  unfold message_len in Hb, Hn'. rewrite (oaes_decrypt_spec Nk d c c') by (done || lia || by apply bytes_drop). by rewrite msg_blocks_spec.
Qed.

Lemma oaes_message_roundtrip_witness :
  exists c1 enc n,
    oaes_encrypt (Some (sample_ctx 2 (kat_key 16))) (Some [1; 2; 3]) 3 (Some (replicate 50 9)) (Some 50) = Ret (OAES_RET_SUCCESS, Some c1, Some enc, Some n) /\
    oaes_decrypt (Some (sample_ctx 1 (kat_key 16))) (Some enc) n (Some (replicate 20 5)) (Some 20) =
    Ret (OAES_RET_SUCCESS, Some ([1; 2; 3] ++ replicate 13 0 ++ [5; 5; 5; 5]), Some 3).
Proof.
  apply (oaes_message_roundtrip (sample_ctx 2 (kat_key 16)) (sample_ctx 1 (kat_key 16)) 4 (kat_key 16) [1; 2; 3] (replicate 50 9) (replicate 20 5) 50 20).
  - apply sample_keyed; [by apply bytesb_true|done].
  - apply sample_keyed; [by apply bytesb_true|done].
  - by apply bytesb_true.
  - by apply bytesb_true.
  - split; [by apply bytesb_true|done].
  - by right.
  - done.
  - apply Nat.leb_le. reflexivity.
  - done.
  - apply Nat.leb_le. reflexivity.
  - done.
Defined.

(** Oaes_lib.c: a key exported into a buffer that holds it is imported
    again, by any context, as the same key with the same schedule. *)
Theorem oaes_key_roundtrip c c0 Nk d buf len :
  keyed c Nk d -> bytes buf -> (16 + 4 * Nk <= length buf)%nat -> 16 + 4 * Z.of_nat Nk <= len ->
  exists file n,
    oaes_key_export (Some c) (Some buf) (Some len) = Ret (OAES_RET_SUCCESS, Some file, Some n) /\
    oaes_key_import true true true (Some c0) (Some file) n = Ret (OAES_RET_SUCCESS, Some (set_key (key c) c0)).
Proof.
  intros Hc Hb Hl Hn. rewrite (oaes_key_export_spec c Nk d) by done. do 2 eexists. split; [reflexivity|]. destruct Hc as [H1 H2 H3 H4].
  rewrite oaes_key_import_spec by (done || by apply bytes_drop).
  rewrite import_bytes_spec by (done || (apply bytes_app; [done|by apply bytes_drop]) || (rewrite length_app; lia)). cbn [negb orb].
  by rewrite take_app_length', H4 by done.
Qed.

Lemma oaes_key_roundtrip_witness :
  exists file n,
    oaes_key_export (Some (sample_ctx 2 (kat_key 16))) (Some (replicate 40 0)) (Some 40) = Ret (OAES_RET_SUCCESS, Some file, Some n) /\
    oaes_key_import true true true (Some (sample_ctx 1 (kat_key 16))) (Some file) n =
    Ret (OAES_RET_SUCCESS, Some (set_key (key (sample_ctx 2 (kat_key 16))) (sample_ctx 1 (kat_key 16)))).
Proof.
  apply (oaes_key_roundtrip (sample_ctx 2 (kat_key 16)) (sample_ctx 1 (kat_key 16)) 4 (kat_key 16) (replicate 40 0) 40).
  - apply sample_keyed; [by apply bytesb_true|done].
  - by apply bytesb_true.
  - apply Nat.leb_le. reflexivity.
  - done.
Defined.

(** ** The rounds the slow hash uses *)

Lemma oaes_encryption_round_spec k s rest :
  block s -> bytes k -> (16 <= length k)%nat ->
  oaes_encryption_round (Some k) (Some (s ++ rest)) = Ret (OAES_RET_SUCCESS, Some (aes_round (take 16 k) s ++ rest)).
Proof.
  intros Hs Hk Hl. unfold oaes_encryption_round. rewrite read_ok by (rewrite length_app; destruct Hs; lia). cbn [bind].
  rewrite drop_0, take_app_length' by (by destruct Hs). rewrite enc_layers by done.
  assert (block (aes_shift (aes_sub s))) as H by auto with word. rewrite (proj1 (each_column_spec _ H)). rewrite read_ok by lia. cbn [bind]. rewrite drop_0.
  assert (block (take 16 k)) as Hb by (split; [by apply bytes_take|rewrite length_take; lia]). fold (aes_round (take 16 k) s).
  rewrite put_block; [done|apply Hs|apply (block_round _ _ Hb Hs)].
Qed.

Lemma oaes_pseudo_spec c Nk d s rest :
  keyed c Nk d -> block s ->
  oaes_pseudo_encrypt_ecb (Some c) (Some (s ++ rest)) = Ret (OAES_RET_SUCCESS, Some (aes_ten (key_schedule Nk d) s ++ rest)).
Proof.
  intros Hc Hs. destruct (keyed_schedule c Nk d Hc) as [Hb Hl]. unfold oaes_pseudo_encrypt_ecb. rewrite (keyed_key _ _ _ Hc). cbn [expanded exp_data].
  set (ks := key_schedule Nk d) in *. assert (160 <= length ks)%nat as Hl' by (destruct (keyed_size _ _ _ Hc) as [-> | [-> | ->]]; lia).
  assert (forall l s, Forall (fun r => r < 10)%nat l -> block s ->
    foldM (fun i c => let* '(_, c) := oaes_encryption_round (Some (drop (i * 4 * 4) ks)) c in Ret c) l (Some (s ++ rest)) =
    Ret (Some (foldl (fun s r => aes_round (round_key ks r) s) s l ++ rest))) as H.
  { clear s Hs. induction l as [|r l IH]; intros s Hr Hs; [done|]. apply Forall_cons_1 in Hr as [Hr Hrl]. cbn [foldM foldl].
    rewrite oaes_encryption_round_spec by (done || (by apply bytes_drop) || (rewrite length_drop; lia)). cbn [bind].
    replace (r * 4 * 4)%nat with (16 * r)%nat by lia. fold (round_key ks r). apply IH; [done|]. apply block_round; [apply round_key_block; [done|lia]|done]. }
  rewrite H; [done| |done]. apply List.Forall_forall. intros r Hr%in_seq. lia.
Qed.

(** Oaes_lib.c and aesb.c: the two implementations of the pseudo round,
    byte by byte and by tables, compute the same block for every key in a
    context and every block, without a fault. *)
Theorem oaes_pseudo_aesb c Nk d k s rest :
  keyed c Nk d -> key c = Some k -> block s ->
  exists t, oaes_pseudo_encrypt_ecb (Some c) (Some (s ++ rest)) = Ret (OAES_RET_SUCCESS, Some (t ++ rest)) /\
    aesb_pseudo_round s (exp_data k) = Ret t /\ block t.
Proof.
  intros Hc Hk Hs. rewrite (keyed_key _ _ _ Hc) in Hk. injection Hk as <-. destruct (keyed_schedule c Nk d Hc) as [Hb Hl].
  assert (160 <= length (key_schedule Nk d))%nat as Hl' by (destruct (keyed_size _ _ _ Hc) as [-> | [-> | ->]]; lia).
  exists (aes_ten (key_schedule Nk d) s). split; [by apply oaes_pseudo_spec|]. split; [by apply aesb_pseudo_round_spec|by apply aes_ten_block].
Qed.

Lemma oaes_pseudo_aesb_witness :
  exists t, oaes_pseudo_encrypt_ecb (Some (sample_ctx 1 (kat_key 16))) (Some (kat_input ++ [])) = Ret (OAES_RET_SUCCESS, Some (t ++ [])).
Proof.
  destruct (oaes_pseudo_aesb (sample_ctx 1 (kat_key 16)) 4 (kat_key 16) (expanded 4 (kat_key 16)) kat_input []) as (t & H & _).
  - apply sample_keyed; [by apply bytesb_true|done].
  - done.
  - split; [by apply bytesb_true|done].
  - exists t. exact H.
Defined.

(** ** Errors *)

(** Oaes_lib.c, [oaes_decrypt]: a message that consists of a valid header
    with the padding flag and an initial value, and no block, makes the removal
    of the padding read the byte before the caller's buffer, whatever the key. *)
Theorem oaes_decrypt_empty_padded_faults c k o iv out len :
  key c = Some k -> (o = OAES_OPTION_ECB \/ o = OAES_OPTION_CBC) -> length iv = 16%nat -> 0 <= len ->
  oaes_decrypt (Some c) (Some ([0x4f; 0x41; 0x45; 0x53; 0x01; 0x02; o; 0; 1; 0; 0; 0; 0; 0; 0; 0] ++ iv)) 32 (Some out) (Some len) = Fault OutOfBounds.
Proof.
  intros Hk Ho Hiv Hl. unfold oaes_decrypt. cbn [Z.modulo Z.div_eucl Z.pos_div_eucl Z.eqb negb]. change (uwrap 64 (32 - 2 * 16)) with 0.
  destruct (Z.ltb_spec len 0); [lia|]. rewrite Hk.
  pose proof (check_header_spec {| key := None; options := o; civ := iv |} [0] iv Ho) as E. cbn [options] in E. unfold msg_header in E.
  change (pad_len [0]) with 15%nat in E. cbn [Nat.eqb] in E. rewrite E. cbn [bind].
  rewrite !read_ok by (rewrite length_app, Hiv; cbn [length Z.to_nat]; lia). cbn [bind]. change (Z.to_nat 0) with 0%nat. rewrite take_0.
  rewrite write_ok by (cbn [length]; lia). cbn [bind]. change (Z.to_nat (0 / 16)) with 0%nat. cbn [seq foldM bind]. done.
Qed.

Lemma oaes_decrypt_empty_padded_faults_witness :
  oaes_decrypt (Some (sample_ctx 2 (kat_key 16))) (Some ([0x4f; 0x41; 0x45; 0x53; 0x01; 0x02; 2; 0; 1; 0; 0; 0; 0; 0; 0; 0] ++ replicate 16 0)) 32
    (Some [1; 2; 3]) (Some 3) = Fault OutOfBounds.
Proof.
  apply (oaes_decrypt_empty_padded_faults _ (expanded 4 (kat_key 16))); [done|by right|done|done].
Defined.

(** Oaes_lib.c: when an allocation of an import fails the old key is gone
    and the context has none; a failure for the key reports OAES_RET_MEM, one
    for the expanded key OAES_RET_UNKNOWN, since the codes are joined by a
    logical or. *)
Theorem oaes_import_alloc_failure mem1 mem2 mem3 c Nk d :
  (Nk = 4 \/ Nk = 6 \/ Nk = 8)%nat -> bytes d -> length d = (4 * Nk)%nat -> mem1 && mem2 && mem3 = false ->
  oaes_key_import_data mem1 mem2 mem3 (Some c) (Some d) (4 * Z.of_nat Nk) =
  Ret (if mem1 && mem2 then OAES_RET_UNKNOWN else OAES_RET_MEM, Some (set_key None c)).
Proof.
  intros Hs Hb Hl Hm. unfold oaes_key_import_data. rewrite (key_size_ok Nk Hs). cbn [negb]. rewrite import_bytes_spec by (done || lia).
  destruct mem1, mem2, mem3; done.
Qed.

Lemma oaes_import_alloc_failure_witness :
  oaes_key_import_data true true false (Some (sample_ctx 2 (kat_key 16))) (Some (kat_key 24)) 24 =
  Ret (OAES_RET_UNKNOWN, Some (set_key None (sample_ctx 2 (kat_key 16)))).
Proof.
  apply (oaes_import_alloc_failure true true false (sample_ctx 2 (kat_key 16)) 6 (kat_key 24)); [right; by left|by apply bytesb_true|done|done].
Defined.

(** ** Printing *)

Definition line_end (i : nat) : nat := if negb (i =? 0)%nat && ((i + 1) mod 16 =? 0)%nat then 1%nat else 0%nat.

Lemma line_end_spec i : ((i + 1) / 16 = i / 16 + line_end i)%nat.
Proof.
  unfold line_end. pose proof (Nat.div_mod (i + 1) 16 ltac:(lia)) as E1. pose proof (Nat.div_mod i 16 ltac:(lia)) as E2.
  pose proof (Nat.mod_upper_bound (i + 1) 16 ltac:(lia)). pose proof (Nat.mod_upper_bound i 16 ltac:(lia)).
  destruct (Nat.eqb_spec i 0) as [->|]; [done|]. cbn [negb andb]. destruct (Nat.eqb_spec ((i + 1) mod 16) 0); lia.
Qed.

Lemma length_sprintf_text d : length (sprintf_text d) = (length d * 3 + length d / 16)%nat.
Proof.
  unfold sprintf_text. induction d as [|b d IH] using rev_ind; [done|]. rewrite imap_app, concat_app, length_app, IH. cbn [imap concat].
  rewrite app_nil_r, !length_app. cbn [hex_byte length]. rewrite Nat.add_0_r. pose proof (line_end_spec (length d)) as E. unfold line_end in E.
  cbn [compose]. destruct (_ && _); cbn [length] in *; lia.
Qed.

(** Oaes_lib.c, [oaes_sprintf]: the length the function asks for is the
    exact size of the text with its final 0, so that the text of any data is
    written inside a buffer of that size, and the rest of the buffer stays. *)
Theorem oaes_sprintf_fits d buf len :
  let n := (length d * 3 + length d / 16 + 1)%nat in
  Z.of_nat n < 2 ^ 64 -> (n <= length buf)%nat -> Z.of_nat n <= len ->
  length (sprintf_text d ++ [0]) = n /\
  oaes_sprintf (Some buf) (Some len) (Some d) (Z.of_nat (length d)) =
  Ret (OAES_RET_SUCCESS, Some ((sprintf_text d ++ [0]) ++ drop n buf), Some (Z.of_nat n)).
Proof.
  intros n Hw Hb Hl. assert (length (sprintf_text d ++ [0]) = n) as Hn by (rewrite length_app, length_sprintf_text; done). split; [done|].
  unfold oaes_sprintf. pose proof (Nat2Z.inj_div (length d) 16) as Ed. change (Z.of_nat 16) with 16 in Ed. rewrite <- Ed.
  replace (Z.of_nat (length d) * 3 + Z.of_nat (length d / 16) + 1) with (Z.of_nat n) by (unfold n; lia). rewrite uwrap_small by lia.
  destruct (Z.ltb_spec len (Z.of_nat n)); [lia|]. rewrite Nat2Z.id, read_ok by lia. cbn [bind]. rewrite drop_0, take_ge by lia.
  rewrite write_ok by lia. cbn [bind]. unfold put. rewrite take_0, Hn. done.
Qed.

Lemma oaes_sprintf_fits_witness :
  oaes_sprintf (Some (replicate 8 1)) (Some 8) (Some [0x0f; 0xa0]) 2 = Ret (OAES_RET_SUCCESS, Some ([48; 102; 32; 97; 48; 32; 0] ++ [1]), Some 7).
Proof. apply (oaes_sprintf_fits [0x0f; 0xa0] (replicate 8 1) 8); [done|apply Nat.leb_le; reflexivity|done]. Defined.
