(* ===== verification/IntUtil.v ===== *)
(** The wide arithmetic of src/src/common/int-util.h: the 128-bit product of
    two 64-bit words and the division of a 128-bit number by a 32-bit one. *)

From S2P Require Import Prelude Limbs Bytes Words.

Definition hi_dword (val : Z) : Z := Z.shiftr val 32.
Definition lo_dword (val : Z) : Z := Z.land val 0xFFFFFFFF.

(** The low word, and the high word [*product_hi]. *)
Definition mul128 (multiplier multiplicand : Z) : outcome (Z * Z) :=
  let a := hi_dword multiplier in
  let b := lo_dword multiplier in
  let c := hi_dword multiplicand in
  let d := lo_dword multiplicand in
  let ac := uwrap 64 (a * c) in
  let ad := uwrap 64 (a * d) in
  let bc := uwrap 64 (b * c) in
  let bd := uwrap 64 (b * d) in
  let adbc := addw 64 ad bc in
  let adbc_carry := if adbc <? ad then 1 else 0 in
  let product_lo := addw 64 bd (uwrap 64 (Z.shiftl adbc 32)) in
  let product_lo_carry := if product_lo <? bd then 1 else 0 in
  let product_hi := addw 64 (addw 64 (addw 64 ac (Z.shiftr adbc 32)) (uwrap 64 (Z.shiftl adbc_carry 32))) product_lo_carry in
  let* _ := assert (ac <=? product_hi) in
  Ret (product_lo, product_hi).

(** The quotient, and the new [*remainder]. *)
Definition div_with_reminder (dividend divisor remainder : Z) : Z * Z :=
  let dividend := Z.lor dividend (uwrap 64 (Z.shiftl remainder 32)) in
  (dividend / divisor, uwrap 32 (dividend mod divisor)).

(** The remainder, the high and the low word of the quotient. *)
Definition div128_32 (dividend_hi dividend_lo divisor : Z) : Z * Z * Z :=
  let '(q3, remainder) := div_with_reminder (hi_dword dividend_hi) divisor 0 in
  let quotient_hi := uwrap 64 (Z.shiftl q3 32) in
  let '(q2, remainder) := div_with_reminder (lo_dword dividend_hi) divisor remainder in
  let quotient_hi := Z.lor quotient_hi q2 in
  let '(q1, remainder) := div_with_reminder (hi_dword dividend_lo) divisor remainder in
  let quotient_lo := uwrap 64 (Z.shiftl q1 32) in
  let '(q0, remainder) := div_with_reminder (lo_dword dividend_lo) divisor remainder in
  let quotient_lo := Z.lor quotient_lo q0 in
  (remainder, quotient_hi, quotient_lo).

(** ** Facts *)

Lemma dwords x : word 64 x -> x = 2 ^ 32 * hi_dword x + lo_dword x /\ word 32 (hi_dword x) /\ word 32 (lo_dword x).
Proof.
  intros Hx. unfold hi_dword, lo_dword, word in *. change 0xFFFFFFFF with (Z.ones 32). rewrite Z.land_ones, Z.shiftr_div_pow2 by lia.
  pose proof (Z.div_mod x (2 ^ 32) ltac:(lia)). pose proof (Z.mod_pos_bound x (2 ^ 32) ltac:(lia)). split; [done|]. split; [|done]. split; [apply Z.div_pos; lia|].
  apply Z.div_lt_upper_bound; lia.
Qed.

(** A sum that wraps is below its summands, one that does not is the sum. *)
Lemma addw_carry x y : word 64 x -> word 64 y -> x + y = addw 64 x y + 2 ^ 64 * (if addw 64 x y <? x then 1 else 0) /\ word 64 (addw 64 x y).
Proof.
  unfold word, addw, uwrap. intros Hx Hy. pose proof (Z.mod_pos_bound (x + y) (2 ^ 64) ltac:(lia)). split; [|lia].
  destruct (Z.lt_ge_cases (x + y) (2 ^ 64)).
  - rewrite Z.mod_small by lia. destruct (Z.ltb_spec (x + y) x); lia.
  - replace ((x + y) mod 2 ^ 64) with (x + y - 2 ^ 64) by (apply Z.mod_unique with 1; lia). destruct (Z.ltb_spec (x + y - 2 ^ 64) x); lia.
Qed.

Lemma mul_dwords x y : word 32 x -> word 32 y -> 0 <= x * y <= (2 ^ 32 - 1) * (2 ^ 32 - 1).
Proof. unfold word. intros. split; [nia|]. apply Z.mul_le_mono_nonneg; lia. Qed.

Lemma mul128_spec x y :
  word 64 x -> word 64 y ->
  exists lo hi, mul128 x y = Ret (lo, hi) /\ word 64 lo /\ word 64 hi /\ 2 ^ 64 * hi + lo = x * y.
Proof.
  intros Hx Hy. destruct (dwords x Hx) as (Ex & Ha & Hb). destruct (dwords y Hy) as (Ey & Hc & Hd). unfold mul128.
  set (a := hi_dword x) in *. set (b := lo_dword x) in *. set (c := hi_dword y) in *. set (d := lo_dword y) in *. clearbody a b c d.
  pose proof (mul_dwords a c Ha Hc) as Bac. pose proof (mul_dwords a d Ha Hd) as Bad.
  pose proof (mul_dwords b c Hb Hc) as Bbc. pose proof (mul_dwords b d Hb Hd) as Bbd.
  assert (x * y = 2 ^ 64 * (a * c) + 2 ^ 32 * (a * d + b * c) + b * d) as Exy by (rewrite Ex, Ey; ring).
  rewrite !(uwrap_small 64 (_ * _)) by (pow_consts; lia).
  destruct (addw_carry (a * d) (b * c)) as [E1 W1]; [unfold word; pow_consts; lia..|].
  set (adbc := addw 64 (a * d) (b * c)) in *. set (k1 := if adbc <? a * d then 1 else 0) in *.
  destruct (dwords adbc W1) as (E2 & W2 & W3). fold (hi_dword adbc). set (h := hi_dword adbc) in *. set (l := lo_dword adbc) in *.
  assert (uwrap 64 (Z.shiftl adbc 32) = 2 ^ 32 * l) as ->.
  { unfold uwrap. rewrite Z.shiftl_mul_pow2, E2 by lia. replace ((2 ^ 32 * h + l) * 2 ^ 32) with (2 ^ 32 * l + h * 2 ^ 64) by ring.
    rewrite Z.mod_add by lia. apply Z.mod_small. unfold word in *. pow_consts. lia. }
  assert (0 <= k1 <= 1) as Hk1 by (subst k1; destruct (adbc <? a * d); lia).
  rewrite (uwrap_small 64 (Z.shiftl k1 32)) by (rewrite Z.shiftl_mul_pow2 by lia; pow_consts; lia). rewrite Z.shiftl_mul_pow2 by lia.
  destruct (addw_carry (b * d) (2 ^ 32 * l)) as [E4 W4]; [unfold word in *; pow_consts; lia..|].
  set (lo := addw 64 (b * d) (2 ^ 32 * l)) in *. set (k2 := if lo <? b * d then 1 else 0) in *.
  assert (0 <= k2 <= 1) as Hk2 by (subst k2; destruct (lo <? b * d); lia).
  set (hi := a * c + h + k1 * 2 ^ 32 + k2).
  assert (2 ^ 64 * hi + lo = x * y) as E by (rewrite Exy, E1, E2; unfold hi; pow_consts; lia).
  assert (x * y < 2 ^ 64 * 2 ^ 64) as Bxy by (unfold word in *; nia).
  assert (0 <= hi < 2 ^ 64) as Bh by (split; [unfold hi, word in *; pow_consts; lia|clear - E Bxy W4; unfold word in *; pow_consts; lia]).
  assert (addw 64 (addw 64 (addw 64 (a * c) h) (k1 * 2 ^ 32)) k2 = hi) as ->.
  { unfold addw. rewrite (uwrap_small 64 (a * c + h)), (uwrap_small 64 (a * c + h + _)), (uwrap_small 64 (_ + k2)) by (unfold word, hi in *; pow_consts; lia). done. }
  exists lo, hi. unfold assert. destruct (Z.leb_spec (a * c) hi) as [_|H]; [done|]. unfold word, hi in *. pow_consts. lia.
Qed.

(** One digit of a long division in base 2^32. *)
Lemma div_with_reminder_spec x r divisor :
  word 32 x -> 0 < divisor < 2 ^ 32 -> 0 <= r < divisor ->
  exists q r', div_with_reminder x divisor r = (q, r') /\ x + 2 ^ 32 * r = q * divisor + r' /\ 0 <= r' < divisor /\ word 32 q.
Proof.
  unfold word. intros Hx Hd Hr. unfold div_with_reminder. rewrite uwrap_small by (rewrite Z.shiftl_mul_pow2 by lia; pow_consts; lia).
  rewrite lor_add by lia. set (n := x + 2 ^ 32 * r). pose proof (Z.div_mod n divisor ltac:(lia)). pose proof (Z.mod_pos_bound n divisor ltac:(lia)).
  rewrite uwrap_small by (pow_consts; lia). exists (n / divisor), (n mod divisor). split; [done|]. split; [lia|]. split; [done|].
  split; [apply Z.div_pos; lia|]. apply Z.div_lt_upper_bound; [lia|]. unfold n. pow_consts. nia.
Qed.

Lemma quotient_word q1 q0 : word 32 q1 -> word 32 q0 -> Z.lor (uwrap 64 (Z.shiftl q1 32)) q0 = 2 ^ 32 * q1 + q0.
Proof.
  unfold word. intros H1 H0. rewrite uwrap_small by (rewrite Z.shiftl_mul_pow2 by lia; pow_consts; lia). rewrite Z.lor_comm, lor_add by lia. lia.
Qed.

(** Int-util.h: [mul128] returns the two words of the exact product and its
    assertion cannot fail, and [div128_32] the quotient and the remainder of a
    128-bit number, for all operands. *)
Theorem wide_arithmetic_correct x y hi lo divisor :
  word 64 x -> word 64 y -> word 64 hi -> word 64 lo -> 0 < divisor < 2 ^ 32 ->
  mul128 x y = Ret (x * y mod 2 ^ 64, x * y / 2 ^ 64) /\
  div128_32 hi lo divisor =
    ((2 ^ 64 * hi + lo) mod divisor, (2 ^ 64 * hi + lo) / divisor / 2 ^ 64, (2 ^ 64 * hi + lo) / divisor mod 2 ^ 64).
Proof.
  intros Hx Hy Hhi Hlo Hd. split.
  - destruct (mul128_spec x y Hx Hy) as (l & h & -> & Hl & _ & E). unfold word in Hl. rewrite <- E. f_equal. f_equal.
    + by rewrite Z.mul_comm, Z.add_comm, Z.mod_add, Z.mod_small by lia.
    + by rewrite Z.mul_comm, Z.add_comm, Z.div_add, Z.div_small by lia.
  - destruct (dwords hi Hhi) as (E1 & W3 & W2). destruct (dwords lo Hlo) as (E0 & W1 & W0). unfold div128_32.
    destruct (div_with_reminder_spec (hi_dword hi) 0 divisor W3 Hd ltac:(lia)) as (q3 & r3 & -> & D3 & B3 & V3).
    destruct (div_with_reminder_spec (lo_dword hi) r3 divisor W2 Hd B3) as (q2 & r2 & -> & D2 & B2 & V2).
    destruct (div_with_reminder_spec (hi_dword lo) r2 divisor W1 Hd B2) as (q1 & r1 & -> & D1 & B1 & V1).
    destruct (div_with_reminder_spec (lo_dword lo) r1 divisor W0 Hd B1) as (q0 & r0 & -> & D0 & B0 & V0).
    rewrite !quotient_word by done. set (qh := 2 ^ 32 * q3 + q2). set (ql := 2 ^ 32 * q1 + q0).
    assert (2 ^ 64 * hi + lo = (2 ^ 64 * qh + ql) * divisor + r0) as E by (unfold qh, ql; rewrite E1, E0; pow_consts; lia).
    assert (0 <= ql < 2 ^ 64) as Bl by (unfold ql, word in *; pow_consts; lia).
    assert ((2 ^ 64 * hi + lo) / divisor = 2 ^ 64 * qh + ql) as -> by (rewrite E, Z.div_add_l, Z.div_small by lia; lia).
    assert ((2 ^ 64 * hi + lo) mod divisor = r0) as -> by (rewrite E, Z.add_comm, Z.mod_add, Z.mod_small by lia; lia).
    f_equal; [f_equal|].
    + by rewrite Z.mul_comm, Z.add_comm, Z.div_add, Z.div_small by lia.
    + by rewrite Z.mul_comm, Z.add_comm, Z.mod_add, Z.mod_small by lia.
Qed.

Lemma wide_arithmetic_correct_witness :
  mul128 (2 ^ 64 - 1) (2 ^ 64 - 1) = Ret (1, 2 ^ 64 - 2) /\ div128_32 (2 ^ 63) 5 1000 = ((2 ^ 127 + 5) mod 1000, (2 ^ 127 + 5) / 1000 / 2 ^ 64, (2 ^ 127 + 5) / 1000 mod 2 ^ 64).
Proof.
  apply (wide_arithmetic_correct (2 ^ 64 - 1) (2 ^ 64 - 1) (2 ^ 63) 5 1000); try (split; done). 
Defined.
