(* ===== verification/SlowHash.v ===== *)
(** The CryptoNight hash of src/src/crypto/slow-hash.c: the portable version,
    and the version for x86 processors with and without the AES instructions.

    Sizes are a parameter, so that the definitions can be run on small ones;
    [cn_sizes] holds those of the code.  What the environment decides is an
    input: which allocations succeed, what [rand], [mmap], [malloc] and
    [cpuid] return, and what uninitialised variables hold.  The mappings of
    the scratchpad are aligned to 16 bytes, as [malloc] and [mmap] promise. *)

From S2P Require Import Prelude Limbs Bytes Words Memory IntUtil Keccak Blake Groestl JH Skein Aesb Oaes.

Record sizes := { MEMORY : Z; ITER : Z }.

Definition cn_sizes : sizes := {| MEMORY := Z.shiftl 1 21; ITER := Z.shiftl 1 20 |}.

(** The uninitialised contexts of the four final hashes. *)
Record stack := {
  stack_blake : bstate; stack_groestl : gstate; stack_jh : jstate;
  stack_junk : variant -> list Z; stack_skein : variant -> ctx
}.

Definition extra_hashes (st : stack) : list (list Z -> Z -> outcome (list Z)) :=
  [hash_extra_blake (stack_blake st); hash_extra_groestl (stack_groestl st); hash_extra_jh (stack_jh st);
   hash_extra_skein (stack_junk st) (stack_skein st)].

(** What a call meets: [rand()], the results of its allocations, its stack. *)
Record env := {
  env_rand : nat -> Z; env_alloc : bool;
  env_key1 : bool * bool * bool; env_key2 : bool * bool * bool;
  env_stack : stack
}.

(** [aes_ctx->key->exp_data] *)
Definition exp_data_of (aes_ctx : option oaes_ctx) : outcome (list Z) :=
  match aes_ctx with
  | Some c => match key c with Some k => Ret (exp_data k) | None => Fault NullPointer end
  | None => Fault NullPointer
  end.

(** [oaes_key_import_data(aes_ctx, key, AES_KEY_SIZE)], its result ignored. *)
Definition import_key (mem : bool * bool * bool) (aes_ctx : option oaes_ctx) (k : list Z) : outcome (option oaes_ctx) :=
  let '(mem1, mem2, mem3) := mem in
  let* '(_, aes_ctx) := oaes_key_import_data mem1 mem2 mem3 aes_ctx (Some k) 32 in
  Ret aes_ctx.

(** [aesb_pseudo_round(&text[AES_BLOCK_SIZE * j], &text[AES_BLOCK_SIZE * j], aes_ctx->key->exp_data)] *)
Definition pseudo_block (aes_ctx : option oaes_ctx) (j : nat) (text : list Z) : outcome (list Z) :=
  let* k := exp_data_of aes_ctx in
  let* b := read (16 * j) 16 text in
  let* b := aesb_pseudo_round b k in
  write (16 * j) b text.

(** One turn of the loop that fills the scratchpad. *)
Definition fill_step (aes_ctx : option oaes_ctx) (i : nat) (s : list Z * list Z) : outcome (list Z * list Z) :=
  let '(text, long_state) := s in
  let* text := foldM (pseudo_block aes_ctx) (seq 0 8) text in
  let* long_state := write (i * 128) text long_state in
  Ret (text, long_state).

Definition xor_blocks (a b : list Z) : list Z := xor_list a b.

(** One turn of the loop that reads it back. *)
Definition squeeze_step (aes_ctx : option oaes_ctx) (long_state : list Z) (i : nat) (text : list Z) : outcome (list Z) :=
  foldM (fun j text =>
    let* b := read (16 * j) 16 text in
    let* s := read (i * 128 + 16 * j) 16 long_state in
    let* text := write (16 * j) (xor_blocks b s) text in
    pseudo_block aes_ctx j text) (seq 0 8) text.

(** [memcpy(text, state.init, INIT_SIZE_BYTE)] and back. *)
Definition state_init (state : list Z) : list Z := take 128 (drop 64 state).
Definition set_init (text state : list Z) : list Z := put 64 text state.

(** The end: the permutation and the final hash. *)
Definition finish (st : stack) (text state : list Z) : outcome (list Z) :=
  let state := set_init text state in
  let* state := hash_permutation state in
  let* b0 := index state 0 in
  let* h := index (extra_hashes st) (Z.land b0 3) in
  h state 200.

(** ** The portable version *)

Module Portable.

Definition e2i (a : list Z) (count : Z) : Z := Z.land (le_val (take 8 a) / 16) (count - 1).

Definition mul (a b : list Z) : outcome (list Z) :=
  let a0 := le_val (take 8 a) in
  let b0 := le_val (take 8 b) in
  let* '(lo, hi) := mul128 a0 b0 in
  Ret (le_bytes 8 hi ++ le_bytes 8 lo).

Definition sum_half_blocks (a b : list Z) : list Z :=
  let a0 := le_val (take 8 a) in
  let a1 := le_val (take 8 (drop 8 a)) in
  let b0 := le_val (take 8 b) in
  let b1 := le_val (take 8 (drop 8 b)) in
  le_bytes 8 (addw 64 a0 b0) ++ le_bytes 8 (addw 64 a1 b1).

(** The new [a] and [b]. *)
Definition swap_blocks (a b : list Z) : list Z * list Z := (b, a).

(** One turn of the main loop: [a], [b] and the scratchpad.  [c] and [d] are
    written before they are read. *)
Definition mix_step (sz : sizes) (s : list Z * list Z * list Z) : outcome (list Z * list Z * list Z) :=
  let '(a, b, long_state) := s in
  (* Iteration 1 *)
  let j := e2i a (MEMORY sz / 16) in
  let* c := read (Z.to_nat (j * 16)) 16 long_state in
  let* c := aesb_single_round c a in
  let b := xor_blocks b c in
  let '(b, c) := swap_blocks b c in
  let* long_state := write (Z.to_nat (j * 16)) c long_state in
  let* _ := assert (j =? e2i a (MEMORY sz / 16)) in
  let '(a, b) := swap_blocks a b in
  (* Iteration 2 *)
  let j := e2i a (MEMORY sz / 16) in
  let* c := read (Z.to_nat (j * 16)) 16 long_state in
  let* d := mul a c in
  let b := sum_half_blocks b d in
  let '(b, c) := swap_blocks b c in
  let b := xor_blocks b c in
  let* long_state := write (Z.to_nat (j * 16)) c long_state in
  let* _ := assert (j =? e2i a (MEMORY sz / 16)) in
  let '(a, b) := swap_blocks a b in
  Ret (a, b, long_state).

(** [long_state]: what the array holds at first. *)
Definition cn_slow_hash (sz : sizes) (e : env) (long_state : list Z) (data : list Z) (length : Z) : outcome (list Z) :=
  let* state := hash_process data length in
  let text := state_init state in
  let aes_key := take 32 state in
  let* aes_ctx := oaes_alloc (env_rand e) (env_alloc e) in
  let* aes_ctx := import_key (env_key1 e) aes_ctx aes_key in
  let* '(text, long_state) := foldM (fill_step aes_ctx) (seq 0 (Z.to_nat (MEMORY sz / 128))) (text, long_state) in
  let a := xor_list (take 16 state) (take 16 (drop 32 state)) in
  let b := xor_list (take 16 (drop 16 state)) (take 16 (drop 48 state)) in
  let* '(a, b, long_state) := foldM (fun _ => mix_step sz) (seq 0 (Z.to_nat (ITER sz / 2))) (a, b, long_state) in
  let text := state_init state in
  let* aes_ctx := import_key (env_key2 e) aes_ctx (drop 32 state) in
  let* text := foldM (squeeze_step aes_ctx long_state) (seq 0 (Z.to_nat (MEMORY sz / 128))) text in
  finish (env_stack e) text state.

End Portable.

(** ** The version for x86 *)

(** The AES instructions, [_mm_aesenc_si128] and [_mm_aeskeygenassist_si128]. *)
Class AESNI := {
  mm_aesenc : list Z -> list Z -> list Z;
  mm_aeskeygenassist : list Z -> Z -> list Z
}.

Module X86.

(** SSE2 on the 16 bytes of a register. *)
Definition mm_xor (x y : list Z) : list Z := xor_list x y.
Definition mm_slli (x : list Z) (n : nat) : list Z := replicate n 0 ++ take (16 - n) x.
Definition mm_shuffle_epi32 (x : list Z) (imm : Z) : list Z :=
  concat (map (fun i => take 4 (drop (4 * Z.to_nat (Z.land (Z.shiftr imm (2 * Z.of_nat i)) 3)) x)) (seq 0 4)).

Section Aes.
Context `{AESNI}.

Definition aes_256_assist1 (t1 t2 : list Z) : list Z :=
  let t2 := mm_shuffle_epi32 t2 0xff in
  let t4 := mm_slli t1 4 in
  let t1 := mm_xor t1 t4 in
  let t4 := mm_slli t4 4 in
  let t1 := mm_xor t1 t4 in
  let t4 := mm_slli t4 4 in
  let t1 := mm_xor t1 t4 in
  mm_xor t1 t2.

Definition aes_256_assist2 (t1 t3 : list Z) : list Z :=
  let t4 := mm_aeskeygenassist t1 0x00 in
  let t2 := mm_shuffle_epi32 t4 0xaa in
  let t4 := mm_slli t3 4 in
  let t3 := mm_xor t3 t4 in
  let t4 := mm_slli t4 4 in
  let t3 := mm_xor t3 t4 in
  let t4 := mm_slli t4 4 in
  let t3 := mm_xor t3 t4 in
  mm_xor t3 t2.

(** [ek[n] = t1; ek[n + 1] = t3;] after one stanza with the constant [imm]. *)
Definition expand_pair (imm : Z) (n : nat) (s : list Z * list Z * list Z) : outcome (list Z * list Z * list Z) :=
  let '(t1, t3, ek) := s in
  let t2 := mm_aeskeygenassist t3 imm in
  let t1 := aes_256_assist1 t1 t2 in
  let* ek := write (16 * n) t1 ek in
  let t3 := aes_256_assist2 t1 t3 in
  let* ek := write (16 * (n + 1)) t3 ek in
  Ret (t1, t3, ek).

Definition aes_expand_key (key expandedKey : list Z) : outcome (list Z) :=
  let* t1 := read 0 16 key in
  let* t3 := read 16 16 key in
  let* ek := write 0 t1 expandedKey in
  let* ek := write 16 t3 ek in
  let* s := expand_pair 0x01 2 (t1, t3, ek) in
  let* s := expand_pair 0x02 4 s in
  let* s := expand_pair 0x04 6 s in
  let* '(t1, t3, ek) := expand_pair 0x08 8 s in
  let t2 := mm_aeskeygenassist t3 0x10 in
  let t1 := aes_256_assist1 t1 t2 in
  write (16 * 10) t1 ek.

(** The ten [_mm_aesenc_si128] on one block. *)
Definition ten_aesenc (expandedKey d : list Z) : outcome (list Z) :=
  foldM (fun r d => let* k := read (16 * r) 16 expandedKey in Ret (mm_aesenc d k)) (seq 0 10) d.

(** [in] and [out] are the same buffer. *)
Definition aes_pseudo_round (text expandedKey : list Z) (nblocks : nat) : outcome (list Z) :=
  foldM (fun i text =>
    let* d := read (i * 16) 16 text in
    let* d := ten_aesenc expandedKey d in
    write (i * 16) d text) (seq 0 nblocks) text.

(** [x]: the memory behind the pointer [xor]. *)
Definition aes_pseudo_round_xor (text expandedKey x : list Z) (nblocks : nat) : outcome (list Z) :=
  foldM (fun i text =>
    let* d := read (i * 16) 16 text in
    let* b := read (i * 16) 16 x in
    let* d := ten_aesenc expandedKey (mm_xor d b) in
    write (i * 16) d text) (seq 0 nblocks) text.
End Aes.

(** The thread's scratchpad. *)
Record hp := { hp_state : option (list Z); hp_allocated : bool }.

(** [mmap], [malloc]: the memory they return, [None] when they fail. *)
Definition slow_hash_allocate_state (mmap malloc : option (list Z)) (h : hp) : hp :=
  match hp_state h with
  | Some _ => h
  | None =>
      match mmap with
      | Some m => {| hp_state := Some m; hp_allocated := true |}
      | None => {| hp_state := malloc; hp_allocated := false |}
      end
  end.

Definition slow_hash_free_state (h : hp) : hp :=
  match hp_state h with
  | None => h
  | Some _ => {| hp_state := None; hp_allocated := false |}
  end.

(** [supported]: the static variable, -1 at first; the result is its new value. *)
Definition check_aes_hw (cpuid_results : list Z) (supported : Z) : Z :=
  if 0 <=? supported then supported else Z.land (cpuid_results !!! 2%nat) (Z.shiftl 1 25).

Definition state_index (sz : sizes) (x : Z) : Z := Z.shiftl (Z.land (Z.shiftr x 4) (MEMORY sz / 16 - 1)) 4.

(** [mulq]: the high and the low word. *)
Definition mulq (x y : Z) : Z * Z := (x * y / 2 ^ 64, x * y mod 2 ^ 64).

(** One turn of the main loop: [pre_aes(); _c = ...; post_aes();].  [a] is an
    array of two words, [_b] a register, the scratchpad is memory. *)
Definition mix_step_x86 (sz : sizes) (enc : list Z -> list Z -> outcome (list Z)) (s : list Z * list Z * list Z)
  : outcome (list Z * list Z * list Z) :=
  let '(a, _b, hp_state) := s in
  let j := state_index sz (a !!! 0%nat) in
  let* _c := read (Z.to_nat j) 16 hp_state in
  let _a := words_bytes 8 a in
  let* _c := enc _c _a in
  let c := le_words 8 2 _c in
  let _b := mm_xor _b _c in
  let* hp_state := write (Z.to_nat j) _b hp_state in
  let j := state_index sz (c !!! 0%nat) in
  let* p := read (Z.to_nat j) 16 hp_state in
  let b := le_words 8 2 p in
  let '(hi, lo) := mulq (c !!! 0%nat) (b !!! 0%nat) in
  let a := [addw 64 (a !!! 0%nat) hi; addw 64 (a !!! 1%nat) lo] in
  let* hp_state := write (Z.to_nat j) (words_bytes 8 a) hp_state in
  let a := xor_list a b in
  Ret (a, _c, hp_state).

(** What the x86 version meets beyond [env]. *)
Record x86_env := {
  x_env : env; x_mmap : option (list Z); x_malloc : option (list Z);
  x_cpuid : list Z; x_expandedKey : list Z (* uint8_t expandedKey[240] *)
}.

Section Hash.
Context `{AESNI} (sz : sizes) (x : x86_env).

(** Step 2: the context, the expanded key, the text and the filled scratchpad. *)
Definition fill_pad (useAes : bool) (state text hp_state : list Z) : outcome (option oaes_ctx * list Z * list Z * list Z) :=
  if useAes then
    let* ek := aes_expand_key state (x_expandedKey x) in
    let* '(text, hp_state) := foldM (fun i '(text, hp_state) =>
      let* text := aes_pseudo_round text ek 8 in
      let* hp_state := write (i * 128) text hp_state in
      Ret (text, hp_state)) (seq 0 (Z.to_nat (MEMORY sz / 128))) (text, hp_state) in
    Ret (None, ek, text, hp_state)
  else
    let* aes_ctx := oaes_alloc (env_rand (x_env x)) (env_alloc (x_env x)) in
    let* aes_ctx := import_key (env_key1 (x_env x)) aes_ctx state in
    let* '(text, hp_state) := foldM (fill_step aes_ctx) (seq 0 (Z.to_nat (MEMORY sz / 128))) (text, hp_state) in
    Ret (aes_ctx, x_expandedKey x, text, hp_state).

(** Step 4. *)
Definition squeeze_pad (useAes : bool) (aes_ctx : option oaes_ctx) (expandedKey state text hp_state : list Z) : outcome (list Z) :=
  if useAes then
    let* ek := aes_expand_key (drop 32 state) expandedKey in
    foldM (fun i text => aes_pseudo_round_xor text ek (drop (i * 128) hp_state) 8) (seq 0 (Z.to_nat (MEMORY sz / 128))) text
  else
    let* aes_ctx := import_key (env_key2 (x_env x)) aes_ctx (drop 32 state) in
    foldM (squeeze_step aes_ctx hp_state) (seq 0 (Z.to_nat (MEMORY sz / 128))) text.

(** The hash, the scratchpad and [supported] left behind. *)
Definition cn_slow_hash_x86 (h : hp) (supported : Z) (data : list Z) (length : Z) : outcome (list Z * hp * Z) :=
  let supported := check_aes_hw (x_cpuid x) supported in
  let useAes := negb (supported =? 0) in
  let h := match hp_state h with None => slow_hash_allocate_state (x_mmap x) (x_malloc x) h | Some _ => h end in
  let* state := hash_process data length in
  let text := state_init state in
  match hp_state h with
  | None => Fault NullPointer
  | Some m =>
      let* '(aes_ctx, ek, text, m) := fill_pad useAes state text m in
      let w n := le_words 8 2 (drop n state) in
      let a := xor_list (w 0%nat) (w 32%nat) in
      let b := xor_list (w 16%nat) (w 48%nat) in
      let enc c a := if useAes then Ret (mm_aesenc c a) else aesb_single_round c a in
      let* '(_, _, m) := foldM (fun _ => mix_step_x86 sz enc) (seq 0 (Z.to_nat (ITER sz / 2))) (a, words_bytes 8 b, m) in
      let text := state_init state in
      let* text := squeeze_pad useAes aes_ctx ek state text m in
      let* hash := finish (env_stack (x_env x)) text state in
      Ret (hash, {| hp_state := Some m; hp_allocated := hp_allocated h |}, supported)
  end.
End Hash.

End X86.
