(* ===== verification/SlowHashAes.v ===== *)
(** The AES instructions of the x86 version of slow-hash.c: what they compute,
    and the key expansion built from them. *)

From S2P Require Import Prelude Limbs Bytes Words Memory Gf256 Aes Aesb Oaes OaesFacts SlowHash.

(** [_mm_aesenc_si128] is a round of AES; [_mm_aeskeygenassist_si128] applies
    SubWord and RotWord to the second and the fourth word. *)
Class AESNI_laws `{AESNI} : Prop := {
  aesenc_law s k : block s -> block k -> mm_aesenc s k = aes_round k s;
  keygen_law w0 w1 w2 w3 imm :
    is_word w0 -> is_word w1 -> is_word w2 -> is_word w3 ->
    mm_aeskeygenassist (concat [w0; w1; w2; w3]) imm =
    concat [aes_sub w1; xor_list (rot_word (aes_sub w1)) [imm; 0; 0; 0]; aes_sub w3; xor_list (rot_word (aes_sub w3)) [imm; 0; 0; 0]]
}.

(** The instructions as the processor manual defines them. *)
#[global] Instance fips_aesni : AESNI := {
  mm_aesenc s k := aes_round k s;
  mm_aeskeygenassist x imm :=
    let w i := aes_sub (take 4 (drop (4 * i) x)) in
    concat [w 1%nat; xor_list (rot_word (w 1%nat)) [imm; 0; 0; 0]; w 3%nat; xor_list (rot_word (w 3%nat)) [imm; 0; 0; 0]]
}.

#[global] Instance fips_aesni_laws : @AESNI_laws fips_aesni.
Proof.
  split; [done|]. intros w0 w1 w2 w3 imm [_ H0] [_ H1] [_ H2] [_ H3]. name_bytes w0 H0. name_bytes w1 H1. name_bytes w2 H2. name_bytes w3 H3. reflexivity.
Qed.

(** ** The schedule of a key of 8 words, 8 words at a time *)

(** Four words, each added to the one before it. *)
Definition chain4 (g w0 w1 w2 w3 : list Z) : list (list Z) :=
  let x0 := xor_list w0 g in
  let x1 := xor_list w1 x0 in
  let x2 := xor_list w2 x1 in
  [x0; x1; x2; xor_list w3 x2].

(** The word added first: for the first four and for the last four words. *)
Definition first_g (m : nat) (w7 : list Z) : list Z := xor_list (aes_sub (rot_word w7)) (rcon (m + 1)).

Abbreviation sched := (fun ws : list (list Z) => ws ++ [next_word 8 ws]).

Lemma next_at m A tail j :
  length A = (8 * m)%nat -> length tail = (8 + j)%nat -> (j < 8)%nat ->
  next_word 8 (A ++ tail) = xor_list (tail !!! j)
    (if (j =? 0)%nat then first_g m (tail !!! 7%nat) else if (j =? 4)%nat then aes_sub (tail !!! (7 + j)%nat) else tail !!! (7 + j)%nat).
Proof.
  intros HA Ht Hj. unfold next_word. rewrite length_app, HA, Ht.
  assert ((8 * m + (8 + j)) mod 8 = j)%nat as -> by (replace (8 * m + (8 + j))%nat with (j + (m + 1) * 8)%nat by lia; rewrite Nat.Div0.mod_add; apply Nat.mod_small; lia).
  rewrite !lookup_total_app_r by lia. rewrite HA. cbn [Nat.ltb Nat.leb andb].
  replace (8 * m + (8 + j) - 8 - 8 * m)%nat with j by lia. replace (8 * m + (8 + j) - 1 - 8 * m)%nat with (7 + j)%nat by lia. f_equal.
  destruct (Nat.eqb_spec j 0) as [->|]; [|done]. unfold first_g. f_equal. f_equal.
  replace (8 * m + (8 + 0))%nat with ((m + 1) * 8)%nat by lia. apply Nat.div_mul. lia.
Qed.

Lemma sched_at m A tail j :
  length A = (8 * m)%nat -> length tail = (8 + j)%nat -> (j < 8)%nat ->
  sched (A ++ tail) = A ++ tail ++ [xor_list (tail !!! j)
    (if (j =? 0)%nat then first_g m (tail !!! 7%nat) else if (j =? 4)%nat then aes_sub (tail !!! (7 + j)%nat) else tail !!! (7 + j)%nat)].
Proof. intros HA Ht Hj. cbv beta. by rewrite (next_at m A tail j), <- app_assoc. Qed.

Lemma sched_half m A w0 w1 w2 w3 w4 w5 w6 w7 :
  length A = (8 * m)%nat ->
  Nat.iter 4 sched (A ++ [w0; w1; w2; w3; w4; w5; w6; w7]) =
  A ++ [w0; w1; w2; w3; w4; w5; w6; w7] ++ chain4 (first_g m w7) w0 w1 w2 w3.
Proof.
  intros HA.
  rewrite Nat.iter_succ_r, (sched_at m _ _ 0 HA) by (done || lia). cbn [app Nat.eqb lookup_total list_lookup_total Nat.add].
  rewrite Nat.iter_succ_r, (sched_at m _ _ 1 HA) by (done || lia). cbn [app Nat.eqb lookup_total list_lookup_total Nat.add].
  rewrite Nat.iter_succ_r, (sched_at m _ _ 2 HA) by (done || lia). cbn [app Nat.eqb lookup_total list_lookup_total Nat.add].
  rewrite Nat.iter_succ_r, (sched_at m _ _ 3 HA) by (done || lia). cbn [app Nat.eqb lookup_total list_lookup_total Nat.add].
  done.
Qed.

Lemma sched_half2 m A w0 w1 w2 w3 w4 w5 w6 w7 x0 x1 x2 x3 :
  length A = (8 * m)%nat ->
  Nat.iter 4 sched (A ++ [w0; w1; w2; w3; w4; w5; w6; w7; x0; x1; x2; x3]) =
  A ++ [w0; w1; w2; w3; w4; w5; w6; w7; x0; x1; x2; x3] ++ chain4 (aes_sub x3) w4 w5 w6 w7.
Proof.
  intros HA.
  rewrite Nat.iter_succ_r, (sched_at m _ _ 4 HA) by (done || lia). cbn [app Nat.eqb lookup_total list_lookup_total Nat.add].
  rewrite Nat.iter_succ_r, (sched_at m _ _ 5 HA) by (done || lia). cbn [app Nat.eqb lookup_total list_lookup_total Nat.add].
  rewrite Nat.iter_succ_r, (sched_at m _ _ 6 HA) by (done || lia). cbn [app Nat.eqb lookup_total list_lookup_total Nat.add].
  rewrite Nat.iter_succ_r, (sched_at m _ _ 7 HA) by (done || lia). cbn [app Nat.eqb lookup_total list_lookup_total Nat.add].
  done.
Qed.

(** ** The chain of shifts and additions *)

Lemma xor_list_assoc a b c : xor_list a (xor_list b c) = xor_list (xor_list a b) c.
Proof.
  revert b c. induction a as [|x a IH]; intros [|y b] [|z c]; try done. unfold xor_list in *. cbn [zip_with]. f_equal; [apply Z.lxor_assoc || (symmetry; apply Z.lxor_assoc)|apply IH].
Qed.

Definition shift_chain (t g : list Z) : list Z :=
  let t4 := X86.mm_slli t 4 in
  let t := X86.mm_xor t t4 in
  let t4 := X86.mm_slli t4 4 in
  let t := X86.mm_xor t t4 in
  let t4 := X86.mm_slli t4 4 in
  let t := X86.mm_xor t t4 in
  X86.mm_xor t g.

Lemma xor_zero4 w : length w = 4%nat -> xor_list w [0; 0; 0; 0] = w.
Proof. intros H. name_bytes w H. unfold xor_list. cbn. by rewrite !Z.lxor_0_r. Qed.

Lemma xor_concat4 a0 a1 a2 a3 b0 b1 b2 b3 :
  length a0 = length b0 -> length a1 = length b1 -> length a2 = length b2 ->
  xor_list (concat [a0; a1; a2; a3]) (concat [b0; b1; b2; b3]) = concat [xor_list a0 b0; xor_list a1 b1; xor_list a2 b2; xor_list a3 b3].
Proof. intros H0 H1 H2. cbn [concat]. rewrite !app_nil_r. by rewrite !xor_list_app. Qed.

Lemma slli_concat w0 w1 w2 w3 : is_word w0 -> is_word w1 -> is_word w2 -> is_word w3 -> X86.mm_slli (concat [w0; w1; w2; w3]) 4 = concat [[0; 0; 0; 0]; w0; w1; w2].
Proof. intros [_ H0] [_ H1] [_ H2] [_ H3]. name_bytes w0 H0. name_bytes w1 H1. name_bytes w2 H2. name_bytes w3 H3. reflexivity. Qed.

Lemma zero_word : is_word [0; 0; 0; 0].
Proof. split; [by apply bytesb_true|done]. Qed.

Lemma shift_chain_spec w0 w1 w2 w3 g :
  is_word w0 -> is_word w1 -> is_word w2 -> is_word w3 -> is_word g ->
  shift_chain (concat [w0; w1; w2; w3]) (concat [g; g; g; g]) = concat (chain4 g w0 w1 w2 w3).
Proof.
  intros H0 H1 H2 H3 Hg. pose proof zero_word as Hz. unfold shift_chain, X86.mm_xor. rewrite !slli_concat by auto.
  assert (forall a b, is_word a -> is_word b -> length a = length b) as L by (intros a b [_ Ha] [_ Hb]; congruence).
  rewrite !xor_concat4 by (apply L; auto using is_word_xor). rewrite !xor_zero4 by (match goal with |- length ?x = _ => assert (is_word x) as [_ ?] by auto 10 using is_word_xor; done end).
  unfold chain4. rewrite !xor_list_assoc. done.
Qed.

Lemma shuffle_ff w0 w1 w2 w3 : is_word w0 -> is_word w1 -> is_word w2 -> is_word w3 -> X86.mm_shuffle_epi32 (concat [w0; w1; w2; w3]) 0xff = concat [w3; w3; w3; w3].
Proof. intros [_ H0] [_ H1] [_ H2] [_ H3]. name_bytes w0 H0. name_bytes w1 H1. name_bytes w2 H2. name_bytes w3 H3. reflexivity. Qed.

Lemma shuffle_aa w0 w1 w2 w3 : is_word w0 -> is_word w1 -> is_word w2 -> is_word w3 -> X86.mm_shuffle_epi32 (concat [w0; w1; w2; w3]) 0xaa = concat [w2; w2; w2; w2].
Proof. intros [_ H0] [_ H1] [_ H2] [_ H3]. name_bytes w0 H0. name_bytes w1 H1. name_bytes w2 H2. name_bytes w3 H3. reflexivity. Qed.

Section Instructions.
Context `{AESNI_laws}.

Lemma rot_sub w : is_word w -> rot_word (aes_sub w) = aes_sub (rot_word w).
Proof. intros [_ Hw]. name_bytes w Hw. reflexivity. Qed.

Lemma is_word_rcon m : (m < 5)%nat -> is_word (rcon (m + 1)).
Proof. intros Hm. apply rcon_spec. lia. Qed.

Lemma is_word_first m w : (m < 5)%nat -> is_word w -> is_word (first_g m w).
Proof. intros Hm Hw. apply is_word_xor; [by apply is_word_sub, is_word_rot|by apply is_word_rcon]. Qed.

Lemma chain4_words g w0 w1 w2 w3 : is_word g -> is_word w0 -> is_word w1 -> is_word w2 -> is_word w3 -> Forall is_word (chain4 g w0 w1 w2 w3).
Proof. intros. unfold chain4. repeat (apply List.Forall_cons; [auto 10 using is_word_xor|]). apply List.Forall_nil. Qed.

Lemma assist1_spec m imm w0 w1 w2 w3 w4 w5 w6 w7 :
  (m < 5)%nat -> rcon (m + 1) = [imm; 0; 0; 0] -> Forall is_word [w0; w1; w2; w3; w4; w5; w6; w7] ->
  X86.aes_256_assist1 (concat [w0; w1; w2; w3]) (mm_aeskeygenassist (concat [w4; w5; w6; w7]) imm) = concat (chain4 (first_g m w7) w0 w1 w2 w3).
Proof.
  intros Hm Hr Hw. repeat (apply Forall_cons_1 in Hw as [? Hw]).
  change (X86.aes_256_assist1 (concat [w0; w1; w2; w3]) ?t) with (shift_chain (concat [w0; w1; w2; w3]) (X86.mm_shuffle_epi32 t 0xff)).
  rewrite keygen_law by done. rewrite <- Hr, !rot_sub by done. pose proof (is_word_rcon m Hm).
  rewrite shuffle_ff by auto using is_word_sub, is_word_xor, is_word_rot. apply shift_chain_spec; try done. by apply is_word_first.
Qed.

Lemma assist2_spec w4 w5 w6 w7 x0 x1 x2 x3 :
  Forall is_word [w4; w5; w6; w7; x0; x1; x2; x3] ->
  X86.aes_256_assist2 (concat [x0; x1; x2; x3]) (concat [w4; w5; w6; w7]) = concat (chain4 (aes_sub x3) w4 w5 w6 w7).
Proof.
  intros Hw. repeat (apply Forall_cons_1 in Hw as [? Hw]).
  change (X86.aes_256_assist2 ?t (concat [w4; w5; w6; w7])) with (shift_chain (concat [w4; w5; w6; w7]) (X86.mm_shuffle_epi32 (mm_aeskeygenassist t 0) 0xaa)).
  rewrite keygen_law by done. pose proof zero_word. rewrite shuffle_aa by auto using is_word_sub, is_word_xor, is_word_rot.
  apply shift_chain_spec; try done. by apply is_word_sub.
Qed.

Lemma write_words ws v R n : Forall is_word ws -> Forall is_word v -> (4 * n)%nat = length ws -> length v = 4%nat -> (16 <= length R)%nat ->
  write (16 * n) (concat v) (concat ws ++ R) = Ret (concat (ws ++ v) ++ drop 16 R).
Proof.
  intros Hw Hv Hn Hl HR. pose proof (length_words_concat ws Hw). pose proof (length_words_concat v Hv). rewrite write_ok by (rewrite length_app; lia). f_equal.
  unfold put. rewrite concat_app, <- app_assoc, take_app_length', drop_app_ge by lia. do 3 f_equal. lia.
Qed.

(** The last eight words of the schedule so far are in [t1] and [t3]. *)
Definition expanding (ek0 : list Z) (n : nat) (ws : list (list Z)) (s : list Z * list Z * list Z) : Prop :=
  exists A w0 w1 w2 w3 w4 w5 w6 w7,
    length A = (8 * n)%nat /\ ws = A ++ [w0; w1; w2; w3; w4; w5; w6; w7] /\ Forall is_word ws /\
    s = (concat [w0; w1; w2; w3], concat [w4; w5; w6; w7], concat ws ++ drop (32 * (n + 1)) ek0).

Lemma half_step ek0 n ws t1 t3 ek imm :
  expanding ek0 n ws (t1, t3, ek) -> (n < 5)%nat -> rcon (n + 1) = [imm; 0; 0; 0] -> length ek0 = 240%nat ->
  let ws' := Nat.iter 4 sched ws in
  let t1' := X86.aes_256_assist1 t1 (mm_aeskeygenassist t3 imm) in
  exists A w4 w5 w6 w7 x0 x1 x2 x3, length A = (8 * n + 4)%nat /\ ws' = A ++ [w4; w5; w6; w7; x0; x1; x2; x3] /\ Forall is_word ws' /\
    t1' = concat [x0; x1; x2; x3] /\ t3 = concat [w4; w5; w6; w7] /\
    write (16 * (2 * n + 2)) t1' ek = Ret (concat ws' ++ drop (32 * (n + 1) + 16) ek0).
Proof.
  intros (A & w0 & w1 & w2 & w3 & w4 & w5 & w6 & w7 & HA & -> & Hw & Es) Hn Hr Hl. cbv zeta.
  assert (t1 = concat [w0; w1; w2; w3]) as -> by congruence. assert (t3 = concat [w4; w5; w6; w7]) as -> by congruence.
  assert (ek = concat (A ++ [w0; w1; w2; w3; w4; w5; w6; w7]) ++ drop (32 * (n + 1)) ek0) as -> by congruence. clear Es.
  rewrite (sched_half n) by done. assert (Forall is_word [w0; w1; w2; w3; w4; w5; w6; w7]) as H8 by (by apply Forall_app in Hw as [_ Hw]).
  rewrite (assist1_spec n) by done. assert (Forall is_word (chain4 (first_g n w7) w0 w1 w2 w3)) as HC.
  { repeat (apply Forall_cons_1 in H8 as [? H8]). apply chain4_words; try done. by apply is_word_first. }
  rewrite write_words; [|done|done|rewrite length_app; cbn [length]; lia|done|rewrite length_drop; lia].
  exists (A ++ [w0; w1; w2; w3]), w4, w5, w6, w7. unfold chain4 in *. do 4 eexists. split; [rewrite length_app; cbn [length]; lia|]. rewrite <- !app_assoc. cbn [app].
  split; [reflexivity|]. split; [|split; [done|]].
  - apply Forall_app in Hw as [HwA _]. apply Forall_app. split; [done|]. change (Forall is_word ([w0; w1; w2; w3; w4; w5; w6; w7] ++ chain4 (first_g n w7) w0 w1 w2 w3)). by apply Forall_app.
  - split; [done|]. rewrite drop_drop. done.
Qed.

Lemma expand_pair_spec ek0 n ws s imm :
  expanding ek0 n ws s -> (n < 5)%nat -> rcon (n + 1) = [imm; 0; 0; 0] -> length ek0 = 240%nat ->
  exists s', X86.expand_pair imm (2 * n + 2) s = Ret s' /\ expanding ek0 (n + 1) (Nat.iter 8 sched ws) s'.
Proof.
  destruct s as [[t1 t3] ek]. intros Hs Hn Hr Hl.
  destruct (half_step ek0 n ws t1 t3 ek imm Hs Hn Hr Hl) as (B & w4 & w5 & w6 & w7 & x0 & x1 & x2 & x3 & HB & Ews & Hw & E1 & E3 & EW).
  unfold X86.expand_pair. cbv zeta in EW, E1. rewrite EW. cbn [bind]. rewrite E1, E3.
  assert (Forall is_word [w4; w5; w6; w7; x0; x1; x2; x3]) as H8 by (rewrite Ews in Hw; by apply Forall_app in Hw as [_ Hw]).
  rewrite assist2_spec by done. assert (Forall is_word (chain4 (aes_sub x3) w4 w5 w6 w7)) as HC.
  { repeat (apply Forall_cons_1 in H8 as [? H8]). apply chain4_words; try done. by apply is_word_sub. }
  replace (2 * n + 2 + 1)%nat with (2 * n + 3)%nat by lia.
  rewrite write_words; [|done|done|rewrite Ews, length_app; cbn [length]; lia|done|rewrite length_drop; lia]. cbn [bind].
  eexists. split; [reflexivity|]. change 8%nat with (4 + 4)%nat at 1. rewrite Nat.iter_add.
  assert (exists A v0 v1 v2 v3, B = A ++ [v0; v1; v2; v3] /\ length A = (8 * n)%nat) as (A & u0 & u1 & u2 & u3 & EB & HA).
  { pose proof (take_drop (8 * n) B) as ET. assert (length (drop (8 * n) B) = 4%nat) as L by (rewrite length_drop; lia).
    destruct (drop (8 * n) B) as [|u0 [|u1 [|u2 [|u3 [|? ?]]]]]; try discriminate L. exists (take (8 * n) B), u0, u1, u2, u3. split; [done|]. rewrite length_take. lia. }
  exists (A ++ [u0; u1; u2; u3; w4; w5; w6; w7]), x0, x1, x2, x3. unfold chain4 in *. do 4 eexists.
  split; [rewrite length_app; cbn [length]; lia|]. rewrite Ews, EB, <- !app_assoc. cbn [app]. rewrite (sched_half2 n) by done. split; [reflexivity|].
  split; [|rewrite drop_drop; unfold chain4; cbn [app]; do 3 f_equal; lia].
  rewrite Ews, EB, <- app_assoc in Hw. apply Forall_app in Hw as [HwA Hw]. apply Forall_app. split; [done|].
  apply (Forall_app _ [u0; u1; u2; u3; w4; w5; w6; w7; x0; x1; x2; x3]). split; [exact Hw|exact HC].
Qed.
Lemma concat_words4 n l : (4 * n <= length l)%nat -> concat (words4 n l) = take (4 * n) l.
Proof.
  revert l. induction n as [|n IH]; intros l Hl; [done|]. cbn [words4 concat]. rewrite IH by (rewrite length_drop; lia).
  rewrite (take_take_app l 4 (4 * S n)) by lia. do 2 f_equal. lia.
Qed.

Lemma expanding_start k ek0 :
  bytes k -> (32 <= length k)%nat -> length ek0 = 240%nat ->
  exists t1 t3 ek, read 0 16 k = Ret t1 /\ read 16 16 k = Ret t3 /\ (let* e := write 0 t1 ek0 in write 16 t3 e) = Ret ek /\
    expanding ek0 0 (words4 8 k) (t1, t3, ek).
Proof.
  intros Hb Hl Hek. exists (take 16 k), (take 16 (drop 16 k)), (take 32 k ++ drop 32 ek0).
  rewrite !read_ok by lia. rewrite drop_0. split; [done|]. split; [done|]. split.
  - rewrite write_ok by (rewrite length_take; lia). cbn [bind]. assert (length (take 16 k) = 16%nat) as L by (rewrite length_take; lia).
    rewrite write_ok by (rewrite length_put; rewrite ?length_take, ?length_drop; lia). f_equal.
    rewrite <- L at 1. rewrite <- (Nat.add_0_l (length (take 16 k))), put_put by (rewrite !length_take, ?length_drop; lia).
    pose proof (take_take_app k 16 32 ltac:(lia)) as ET. change (32 - 16)%nat with 16%nat in ET. rewrite <- ET. unfold put. rewrite take_0, length_take. cbn [app]. f_equal. f_equal. lia.
  - destruct (words4_words 8 k Hb ltac:(lia)) as (H1 & H2 & _). exists [].
    pose proof (concat_words4 4 k ltac:(lia)) as E1. pose proof (concat_words4 4 (drop 16 k) ltac:(rewrite length_drop; lia)) as E3.
    change (4 * 4)%nat with 16%nat in E1, E3. pose proof (concat_words4 8 k ltac:(lia)) as E8. change (4 * 8)%nat with 32%nat in E8. rewrite <- E1, <- E3, <- E8. clear E1 E3 E8 H2. cbn [words4] in *. rewrite !drop_drop in *. cbn [Nat.add] in *.
    do 8 eexists. split; [done|]. split; [reflexivity|]. split; [done|]. done.
Qed.

Lemma aes_expand_key_spec k ek0 :
  bytes k -> (32 <= length k)%nat -> length ek0 = 240%nat ->
  X86.aes_expand_key k ek0 = Ret (concat (Nat.iter 36 sched (words4 8 k)) ++ drop 176 ek0).
Proof.
  intros Hb Hl Hek. destruct (expanding_start k ek0 Hb Hl Hek) as (t1 & t3 & ek & R1 & R3 & EW & G0). unfold X86.aes_expand_key.
  rewrite R1, R3. cbn [bind]. destruct (write 0 t1 ek0) as [e|]; cbn [bind] in EW |- *; [|done]. rewrite EW. cbn [bind].
  destruct (expand_pair_spec ek0 0 _ _ 1 G0 ltac:(lia) eq_refl Hek) as (s1 & E1 & G1).
  destruct (expand_pair_spec ek0 1 _ _ 2 G1 ltac:(lia) eq_refl Hek) as (s2 & E2 & G2).
  destruct (expand_pair_spec ek0 2 _ _ 4 G2 ltac:(lia) eq_refl Hek) as (s3 & E3 & G3).
  destruct (expand_pair_spec ek0 3 _ _ 8 G3 ltac:(lia) eq_refl Hek) as ([[u1 u3] ek4] & E4 & G4).
  cbn [Nat.mul Nat.add] in E1, E2, E3, E4. rewrite E1. cbn [bind]. rewrite E2. cbn [bind]. rewrite E3. cbn [bind]. rewrite E4. cbn [bind].
  destruct (half_step ek0 4 _ _ _ _ 16 G4 ltac:(lia) eq_refl Hek) as (B & ? & ? & ? & ? & ? & ? & ? & ? & _ & _ & _ & _ & _ & EH).
  cbv zeta in EH. change (2 * 4 + 2)%nat with 10%nat in EH. rewrite EH. rewrite <- !Nat.iter_add. cbn [Nat.add Nat.mul]. reflexivity.
Qed.

(** The round keys of the full schedule, ten of them. *)
Lemma sched_prefix a b ws : exists t, Nat.iter (a + b) sched ws = Nat.iter b sched ws ++ t.
Proof.
  induction a as [|a [t E]]; [exists []; by rewrite app_nil_r|]. cbn [Nat.add]. rewrite Nat.iter_succ, E. eexists. by rewrite <- app_assoc.
Qed.

Lemma expanded_round_key k ek0 r :
  bytes k -> (32 <= length k)%nat -> (r < 10)%nat ->
  round_key (concat (Nat.iter 36 sched (words4 8 k)) ++ drop 176 ek0) r = round_key (key_schedule 8 (take 32 k)) r.
Proof.
  intros Hb Hl Hr. unfold key_schedule, key_words. assert (words4 8 (take 32 k) = words4 8 k) as ->.
  { cbn [words4]. rewrite !skipn_firstn_comm, !take_take. done. }
  change (4 * (8 + 7) - 8)%nat with (16 + 36)%nat. destruct (sched_prefix 16 36 (words4 8 k)) as [t ->]. rewrite concat_app.
  destruct (words4_words 8 k Hb ltac:(lia)) as (H1 & _ & H3). assert (key_size 8) as Hs by (right; by right).
  destruct (iter_words 8 Hs 36 (words4 8 k) H1) as [H4 H5]; [lia|lia|]. pose proof (length_words_concat _ H4) as LC. rewrite H5, H3 in LC.
  unfold round_key. rewrite !drop_app_le, !take_app_le; [done|rewrite ?length_drop; lia..].
Qed.

Lemma expanded_spec k ek0 :
  bytes k -> (32 <= length k)%nat -> length ek0 = 240%nat -> bytes ek0 ->
  exists ek, X86.aes_expand_key k ek0 = Ret ek /\ bytes ek /\ length ek = 240%nat /\ forall r, (r < 10)%nat -> round_key ek r = round_key (key_schedule 8 (take 32 k)) r.
Proof.
  intros Hb Hl Hek Heb. eexists. split; [by apply aes_expand_key_spec|].
  destruct (words4_words 8 k Hb ltac:(lia)) as (H1 & _ & H3). assert (key_size 8) as Hs by (right; by right).
  destruct (iter_words 8 Hs 36 (words4 8 k) H1) as [H4 H5]; [lia|lia|]. pose proof (length_words_concat _ H4) as LC. rewrite H5, H3 in LC.
  split; [apply bytes_app; [by apply bytes_words_concat|by apply bytes_drop]|]. split; [rewrite length_app, length_drop; lia|].
  intros r Hr. by apply expanded_round_key.
Qed.

(** Ten rounds with these round keys. *)
Lemma aes_ten_keys ks ks' s : (forall r, (r < 10)%nat -> round_key ks r = round_key ks' r) -> aes_ten ks s = aes_ten ks' s.
Proof. intros E. unfold aes_ten. cbn [foldl seq]. by rewrite !E by lia. Qed.

Lemma ten_aesenc_spec ek s : bytes ek -> (160 <= length ek)%nat -> block s -> X86.ten_aesenc ek s = Ret (aes_ten ek s).
Proof.
  intros Hb Hl Hs. unfold X86.ten_aesenc, aes_ten.
  assert (forall l s, Forall (fun r => r < 10)%nat l -> block s ->
    foldM (fun r d => let* k := read (16 * r) 16 ek in Ret (mm_aesenc d k)) l s = Ret (foldl (fun s r => aes_round (round_key ek r) s) s l)) as G.
  { clear s Hs. induction l as [|r l IH]; intros s Hr Hs; [done|]. apply Forall_cons_1 in Hr as [Hr Hrl]. cbn [foldM foldl]. rewrite read_ok by lia. cbn [bind].
    fold (round_key ek r). assert (block (round_key ek r)) as Hk by (apply round_key_block; [done|lia]). rewrite aesenc_law by done.
    apply IH; [done|]. by apply block_round. }
  apply G; [|done]. apply List.Forall_forall. intros r Hr%in_seq. lia.
Qed.
End Instructions.
