(* ===== verification/SlowHashFacts.v ===== *)
(** CryptoNight as a function of the message, on a scratchpad of blocks, and
    the proof that the three versions of slow-hash.c compute it. *)

From S2P Require Import Prelude Limbs Bytes Words Memory IntUtil Keccak KeccakFacts Blake BlakeSpec BlakeFacts Groestl GroestlFacts JH JHFacts Skein SkeinFacts.
From S2P Require Import Gf256 Aes Aesb Oaes OaesFacts OaesContext SlowHash SlowHashAes.

(** ** The function *)

(** The scratchpad: the text, encrypted again and again, 8 blocks at a time. *)
Fixpoint cn_fill (ks : list Z) (n : nat) (text : list (list Z)) : list (list Z) :=
  match n with
  | O => []
  | S n' => let t := map (aes_ten ks) text in t ++ cn_fill ks n' t
  end.

(** The half [n] of a block, a 64-bit number. *)
Definition half (n : nat) (x : list Z) : Z := le_val (take 8 (drop (8 * n) x)).

(** The product of the first halves, high word first; the sum of the halves. *)
Definition mul8 (x y : list Z) : list Z :=
  let p := half 0 x * half 0 y in le_bytes 8 (p / 2 ^ 64) ++ le_bytes 8 (p mod 2 ^ 64).
Definition add8 (x y : list Z) : list Z := le_bytes 8 (half 0 x + half 0 y) ++ le_bytes 8 (half 1 x + half 1 y).

(** The block of the scratchpad that a value selects. *)
Definition addr (N : Z) (a : list Z) : nat := Z.to_nat ((half 0 a / 16) mod N).

Definition mixing : Type := list Z * list Z * list (list Z).

Definition cn_mix (N : Z) (s : mixing) : mixing :=
  let '(a, b, P) := s in
  let c := aes_round a (P !!! addr N a) in
  let P := <[addr N a := xor_list b c]> P in
  let d := P !!! addr N c in
  let a := add8 a (mul8 c d) in
  let P := <[addr N c := a]> P in
  (xor_list a d, c, P).

(** The text absorbs the scratchpad, 8 blocks at a time. *)
Fixpoint cn_absorb (ks : list Z) (n : nat) (text P : list (list Z)) : list (list Z) :=
  match n with
  | O => text
  | S n' => cn_absorb ks n' (map (aes_ten ks) (zip_with xor_list text (take 8 P))) (drop 8 P)
  end.

(** The final hash, selected by two bits. *)
Definition cn_final (sel : Z) (s : list Z) : list Z :=
  match sel with
  | 0 => blake256 s
  | 1 => groestl_ref (s ++ [0x80])
  | 2 => jh_ref 256 s (8 * length s)
  | _ => skein V512 256 false s
  end.

Definition cn_text (state : list Z) : list (list Z) := KeccakFacts.blocks 16 8 (state_init state).
Definition cn_a (state : list Z) : list Z := xor_list (take 16 state) (take 16 (drop 32 state)).
Definition cn_b (state : list Z) : list Z := xor_list (take 16 (drop 16 state)) (take 16 (drop 48 state)).
Definition cn_key (n : nat) (state : list Z) : list Z := key_schedule 8 (take 32 (drop n state)).

Definition cn_pad (sz : sizes) (state : list Z) : list (list Z) :=
  snd (Nat.iter (Z.to_nat (ITER sz / 2)) (cn_mix (MEMORY sz / 16))
    (cn_a state, cn_b state, cn_fill (cn_key 0 state) (Z.to_nat (MEMORY sz / 128)) (cn_text state))).

Definition cn_end (state : list Z) (text : list (list Z)) : list Z :=
  let state := perm (set_init (concat text) state) in
  cn_final (Z.land (state !!! 0%nat) 3) state.

Definition cryptonight (sz : sizes) (m : list Z) : list Z :=
  let state := sponge 136 m 200 in
  cn_end state (cn_absorb (cn_key 32 state) (Z.to_nat (MEMORY sz / 128)) (cn_text state) (cn_pad sz state)).

(** ** Blocks in memory *)

Definition pad (S : list (list Z)) : Prop := Forall block S.

Lemma length_concat16 S : pad S -> length (concat S) = (16 * length S)%nat.
Proof. induction 1 as [|b S [_ Hb] _ IH]; [done|]. cbn [concat length]. rewrite length_app, IH, Hb. lia. Qed.

Lemma bytes_concat16 S : pad S -> bytes (concat S).
Proof. induction 1 as [|b S [Hb _] _ IH]; [apply List.Forall_nil|]. by apply bytes_app. Qed.

Lemma pad_lookup S i : pad S -> (i < length S)%nat -> block (S !!! i).
Proof.
  intros H Hi. destruct (lookup_lt_is_Some_2 S i Hi) as [b Eb]. rewrite (list_lookup_total_correct _ _ _ Eb). exact (Forall_lookup_1 _ _ _ _ H Eb).
Qed.

Lemma pad_insert S i b : pad S -> block b -> pad (<[i := b]> S).
Proof. intros. by apply Forall_insert. Qed.

Lemma pad_split S i : pad S -> (i < length S)%nat ->
  exists A B, S = A ++ (S !!! i) :: B /\ length A = i /\ length (concat A) = (16 * i)%nat.
Proof.
  intros H Hi. destruct (lookup_lt_is_Some_2 S i Hi) as [b Eb]. exists (take i S), (drop (i + 1) S). rewrite (list_lookup_total_correct _ _ _ Eb).
  replace (i + 1)%nat with (Datatypes.S i) by lia. rewrite (take_drop_middle S i b Eb). split; [done|].
  assert (length (take i S) = i) as L by (rewrite length_take; lia). split; [done|]. rewrite length_concat16 by (by apply Forall_take). by rewrite L.
Qed.

Lemma read_block S rest i : pad S -> (i < length S)%nat -> read (16 * i) 16 (concat S ++ rest) = Ret (S !!! i).
Proof.
  intros H Hi. pose proof (pad_lookup S i H Hi) as [_ Hl]. destruct (pad_split S i H Hi) as (A & B & E & LA & LC). set (b := S !!! i) in *. clearbody b. subst S.
  rewrite concat_app. cbn [concat]. rewrite read_ok by (rewrite !length_app; lia). f_equal.
  rewrite <- !app_assoc, drop_app_length', take_app_length' by lia. done.
Qed.

Lemma write_block S rest i b :
  pad S -> (i < length S)%nat -> block b -> write (16 * i) b (concat S ++ rest) = Ret (concat (<[i := b]> S) ++ rest).
Proof.
  intros H Hi [_ Hb]. pose proof (pad_lookup S i H Hi) as [_ Hl]. destruct (pad_split S i H Hi) as (A & B & E & LA & LC). set (o := S !!! i) in *. clearbody o. subst S.
  rewrite write_ok by (rewrite length_app, length_concat16 by done; rewrite length_app in *; cbn [length] in *; lia). f_equal. subst i.
  rewrite insert_app_r_alt, Nat.sub_diag by lia. cbn [insert list_insert]. rewrite !concat_app. cbn [concat]. unfold put.
  rewrite <- !app_assoc, take_app_length' by lia. do 2 f_equal. rewrite Hb, drop_app_ge, drop_app_length' by lia. done.
Qed.

(** A loop over the blocks of a buffer that rewrites each of them. *)
Lemma blocks_loop (step : nat -> list Z -> outcome (list Z)) (f : nat -> list Z -> list Z) n :
  (forall j T, pad T -> length T = n -> (j < n)%nat -> step j (concat T) = Ret (concat (<[j := f j (T !!! j)]> T)) /\ block (f j (T !!! j))) ->
  forall T, pad T -> length T = n -> foldM step (seq 0 n) (concat T) = Ret (concat (imap f T)) /\ pad (imap f T).
Proof.
  intros Hstep.
  assert (forall m k A B, (k + m)%nat = n -> pad (A ++ B) -> length A = k -> length B = m ->
    foldM step (seq k m) (concat (A ++ B)) = Ret (concat (A ++ imap (fun j => f (k + j)%nat) B)) /\ pad (A ++ imap (fun j => f (k + j)%nat) B)) as G.
  { induction m as [|m IH]; intros k A B Hk HP HA HB.
    - destruct B; [|done]. done.
    - destruct B as [|b B]; [done|]. injection HB as HB. cbn [seq foldM].
      destruct (Hstep k (A ++ b :: B)) as [E Hb]; [done|rewrite length_app; cbn [length]; lia|lia|]. rewrite E. cbn [bind].
      rewrite lookup_total_app_r in * by lia. replace (k - length A)%nat with 0%nat in * by lia. cbn [lookup_total list_lookup_total] in *.
      rewrite insert_app_r_alt by lia. replace (k - length A)%nat with 0%nat by lia. cbn [insert list_insert].
      replace (A ++ f k b :: B) with ((A ++ [f k b]) ++ B) by (by rewrite <- app_assoc).
      destruct (IH (S k) (A ++ [f k b]) B) as [E1 H1]; [lia| |rewrite length_app; simpl; lia|done|].
      + apply Forall_app in HP as [HP1 HP2]. apply Forall_cons_1 in HP2 as [_ HP2]. rewrite <- app_assoc.
        apply Forall_app. split; [done|]. by apply List.Forall_cons.
      + rewrite E1. cbn [imap]. rewrite Nat.add_0_r. rewrite <- app_assoc in H1 |- *. cbn [app] in *.
        assert (imap ((fun j => f (k + j)%nat) ∘ Datatypes.S) B = imap (fun j => f (Datatypes.S k + j)%nat) B) as E2.
        { apply imap_ext. intros i x _. cbn [compose]. f_equal. lia. }
        rewrite E2. done. }
  intros T HT Hn. exact (G n 0%nat [] T eq_refl HT eq_refl Hn).
Qed.

(** ** Words of a block *)

Lemma half_word n x : block x -> (n < 2)%nat -> word 64 (half n x).
Proof. intros [Hb Hl] Hn. apply (le_val_word 8); [by apply bytes_take, bytes_drop|]. rewrite length_take. lia. Qed.

Lemma le_bytes_uwrap k x : le_bytes k (uwrap (8 * Z.of_nat k) x) = le_bytes k x.
Proof.
  revert x. induction k as [|k IH]; intros x; [done|]. cbn [le_bytes]. unfold uwrap in *.
  replace (8 * Z.of_nat (S k)) with (8 + 8 * Z.of_nat k) by lia. rewrite Z.pow_add_r by lia. change (2 ^ 8) with 256.
  assert (0 < 2 ^ (8 * Z.of_nat k)) by (apply Z.pow_pos_nonneg; lia). rewrite Z.rem_mul_r by lia. f_equal.
  - rewrite (Z.mul_comm 256), Z.mod_add, Z.mod_mod by lia. done.
  - rewrite (Z.mul_comm 256), Z.div_add, (Z.div_small (x mod 256)) by (try lia; apply Z.mod_pos_bound; lia). apply IH.
Qed.

Lemma block_halves x y : block (le_bytes 8 x ++ le_bytes 8 y).
Proof. split; [apply bytes_app; apply bytes_le_bytes|]. by rewrite length_app, !length_le_bytes. Qed.

Lemma block_add8 x y : block (add8 x y).
Proof. apply block_halves. Qed.

Lemma mul_spec x y : block x -> block y -> Portable.mul x y = Ret (mul8 x y).
Proof.
  intros Hx Hy. unfold Portable.mul. pose proof (half_word 0 x Hx ltac:(lia)) as W1. pose proof (half_word 0 y Hy ltac:(lia)) as W2.
  unfold mul8. unfold half in *. change (8 * 0)%nat with 0%nat in *. rewrite !drop_0 in *.
  destruct (mul128_spec _ _ W1 W2) as (lo & hi & -> & Hlo & Hhi & E). cbn [bind]. rewrite <- E. unfold word in *. do 3 f_equal.
  - by rewrite Z.mul_comm, Z.add_comm, Z.div_add, Z.div_small by lia.
  - by rewrite Z.mul_comm, Z.add_comm, Z.mod_add, Z.mod_small by lia.
Qed.

Lemma sum_half_spec x y : Portable.sum_half_blocks x y = add8 x y.
Proof. unfold Portable.sum_half_blocks, add8, addw. rewrite !(le_bytes_uwrap 8). unfold half. change (8 * 0)%nat with 0%nat. by rewrite !drop_0. Qed.

(** A scratchpad of [2 ^ k] blocks, at least 8. *)
Definition size_ok (sz : sizes) : Prop := exists k, 3 <= k /\ MEMORY sz = 16 * 2 ^ k.

Definition nblocks (sz : sizes) : nat := Z.to_nat (MEMORY sz / 16).

Lemma land_mod x k : 0 <= k -> Z.land x (2 ^ k - 1) = x mod 2 ^ k.
Proof. intros Hk. rewrite <- Z.land_ones by done. by rewrite Z.ones_equiv, <- Z.sub_1_r. Qed.

Section Sizes.
Context (sz : sizes) (Hsz : size_ok sz).

Lemma size_blocks : exists k, 0 <= k /\ MEMORY sz / 16 = 2 ^ k /\ nblocks sz = (8 * Z.to_nat (MEMORY sz / 128))%nat.
Proof.
  destruct Hsz as (k & Hk & E). exists k. assert (2 ^ k = 8 * 2 ^ (k - 3)) as E8 by (change 8 with (2 ^ 3); rewrite <- Z.pow_add_r by lia; f_equal; lia).
  assert (0 < 2 ^ (k - 3)) by (apply Z.pow_pos_nonneg; lia). unfold nblocks. rewrite E. split; [lia|]. rewrite Z.mul_comm, Z.div_mul by lia. split; [done|].
  replace (2 ^ k * 16) with (2 ^ (k - 3) * 128) by lia. rewrite Z.div_mul by lia. lia.
Qed.

Lemma addr_bound a : (addr (MEMORY sz / 16) a < nblocks sz)%nat.
Proof.
  destruct size_blocks as (k & Hk & E & _). unfold addr, nblocks. rewrite E. assert (0 < 2 ^ k) by (apply Z.pow_pos_nonneg; lia).
  pose proof (Z.mod_pos_bound (half 0 a / 16) (2 ^ k) ltac:(lia)). lia.
Qed.

Lemma e2i_spec a : Z.to_nat (Portable.e2i a (MEMORY sz / 16) * 16) = (16 * addr (MEMORY sz / 16) a)%nat.
Proof.
  destruct size_blocks as (k & Hk & E & _). unfold Portable.e2i, addr, half. rewrite E, land_mod by done. change (8 * 0)%nat with 0%nat. rewrite drop_0.
  assert (0 < 2 ^ k) by (apply Z.pow_pos_nonneg; lia). pose proof (Z.mod_pos_bound (le_val (take 8 a) / 16) (2 ^ k) ltac:(lia)). lia.
Qed.

Lemma state_index_spec a : Z.to_nat (X86.state_index sz (half 0 a)) = (16 * addr (MEMORY sz / 16) a)%nat.
Proof.
  destruct size_blocks as (k & Hk & E & _). unfold X86.state_index, addr. rewrite E, land_mod by done. rewrite Z.shiftr_div_pow2, Z.shiftl_mul_pow2 by lia.
  change (2 ^ 4) with 16. assert (0 < 2 ^ k) by (apply Z.pow_pos_nonneg; lia). pose proof (Z.mod_pos_bound (half 0 a / 16) (2 ^ k) ltac:(lia)). lia.
Qed.

(** ** The main loop *)

Definition mixing_ok (s : mixing) : Prop := let '(a, b, P) := s in block a /\ block b /\ pad P /\ length P = nblocks sz.

Definition step_ok (s : mixing) : Prop := mixing_ok (cn_mix (MEMORY sz / 16) s).

Lemma cn_mix_ok s : mixing_ok s -> step_ok s.
Proof.
  destruct s as [[a b] P]. intros (Ha & Hb & HP & Hl). unfold step_ok, cn_mix, mixing_ok. cbv zeta.
  set (c := aes_round a (P !!! addr (MEMORY sz / 16) a)).
  assert (block c) as Hc by (apply block_round; [done|]; apply pad_lookup; [done|rewrite Hl; apply addr_bound]).
  set (Q := <[_ := xor_list b c]> P). assert (pad Q) as HQ by (apply pad_insert; [done|by apply block_xor]).
  assert (length Q = nblocks sz) as HlQ by (unfold Q; by rewrite length_insert).
  split; [|split; [done|split]].
  - apply block_xor; [apply block_add8|]. apply pad_lookup; [done|rewrite HlQ; apply addr_bound].
  - apply pad_insert; [done|apply block_add8].
  - by rewrite length_insert.
Qed.

Definition in_memory (s : mixing) : list Z * list Z * list Z := let '(a, b, P) := s in (a, b, concat P).

Lemma portable_mix_step s : mixing_ok s -> Portable.mix_step sz (in_memory s) = Ret (in_memory (cn_mix (MEMORY sz / 16) s)).
Proof.
  destruct s as [[a b] P]. intros (Ha & Hb & HP & Hl). unfold Portable.mix_step, in_memory, cn_mix, Portable.swap_blocks, xor_blocks. cbv zeta.
  pose proof (read_block P [] (addr (MEMORY sz / 16) a) HP ltac:(rewrite Hl; apply addr_bound)) as R1. rewrite app_nil_r in R1.
  rewrite e2i_spec, R1. cbn [bind]. pose proof (pad_lookup P _ HP ltac:(rewrite Hl; exact (addr_bound a))) as Hs. destruct Ha as [Hab Hal].
  rewrite aesb_single_round_spec, take_ge by (done || lia). cbn [bind].
  set (c := aes_round a (P !!! addr (MEMORY sz / 16) a)). assert (block c) as Hc by (by apply block_round).
  assert (block (xor_list b c)) as Hbc by (by apply block_xor).
  pose proof (write_block P [] (addr (MEMORY sz / 16) a) (xor_list b c) HP ltac:(rewrite Hl; apply addr_bound) Hbc) as W1. rewrite !app_nil_r in W1.
  rewrite W1. cbn [bind]. unfold assert. rewrite Z.eqb_refl. cbn [bind].
  set (Q := <[_ := xor_list b c]> P). assert (pad Q) as HQ by (by apply pad_insert). assert (length Q = nblocks sz) as HlQ by (unfold Q; by rewrite length_insert).
  pose proof (read_block Q [] (addr (MEMORY sz / 16) c) HQ ltac:(rewrite HlQ; apply addr_bound)) as R2. rewrite app_nil_r in R2.
  rewrite e2i_spec, R2. cbn [bind]. pose proof (pad_lookup Q _ HQ ltac:(rewrite HlQ; exact (addr_bound c))) as Hd. set (d := Q !!! _) in *.
  rewrite mul_spec by done. cbn [bind]. rewrite sum_half_spec.
  pose proof (write_block Q [] (addr (MEMORY sz / 16) c) (add8 a (mul8 c d)) HQ ltac:(rewrite HlQ; apply addr_bound) (block_add8 _ _)) as W2.
  rewrite !app_nil_r in W2. rewrite W2. cbn [bind]. rewrite Z.eqb_refl. cbn [bind]. do 3 f_equal. apply xor_list_comm.
Qed.

(** On x86, [a] is two words. *)
Definition in_memory_x86 (s : mixing) : list Z * list Z * list Z := let '(a, b, P) := s in (le_words 8 2 a, b, concat P).

Lemma le_words_halves x : length x = 16%nat -> le_words 8 2 x = [half 0 x; half 1 x].
Proof. intros _. cbn [le_words]. unfold half. change (8 * 0)%nat with 0%nat. by rewrite drop_0. Qed.

Lemma words_halves x : block x -> words_bytes 8 [half 0 x; half 1 x] = x.
Proof. intros [Hb Hl]. rewrite <- le_words_halves by done. by apply words_bytes_le_words. Qed.

Lemma le_words_words_bytes2 x y : word 64 x -> word 64 y -> le_words 8 2 (words_bytes 8 [x; y]) = [x; y].
Proof.
  intros Hx Hy. pose proof (le_words_words_bytes 8 [x; y] []) as E. rewrite app_nil_r in E. apply E.
  apply List.Forall_cons; [done|]. apply List.Forall_cons; [done|apply List.Forall_nil].
Qed.

Lemma le_words_xor x y : block x -> block y -> le_words 8 2 (xor_list x y) = xor_list (le_words 8 2 x) (le_words 8 2 y).
Proof.
  intros [B1 B2] [B3 B4]. pose proof (words_bytes_le_words 8 2 x B1 (eq_sym B2)) as Ex. pose proof (words_bytes_le_words 8 2 y B3 (eq_sym B4)) as Ey.
  pose proof (words_le_words 8 2 x B1) as Wu. pose proof (words_le_words 8 2 y B3) as Wv. revert Ex Ey Wu Wv.
  generalize (eq_refl (length (le_words 8 2 x))). rewrite (length_le_words 8 2 x) at 2. generalize (eq_refl (length (le_words 8 2 y))).
  rewrite (length_le_words 8 2 y) at 2. generalize (le_words 8 2 x) (le_words 8 2 y). intros u v Lv Lu <- <- Wu Wv.
  rewrite <- words_bytes_xor by congruence. pose proof (le_words_words_bytes 8 (xor_list u v) []) as E. rewrite app_nil_r in E.
  rewrite length_xor_list in E by congruence. rewrite Lu in E. apply E. apply words_xor_list; [lia|done|done].
Qed.

Lemma x86_mix_step enc s :
  mixing_ok s -> (forall c a, block c -> block a -> enc c a = Ret (aes_round a c)) ->
  X86.mix_step_x86 sz enc (in_memory_x86 s) = Ret (in_memory_x86 (cn_mix (MEMORY sz / 16) s)).
Proof.
  destruct s as [[a b] P]. intros (Ha & Hb & HP & Hl) Henc. unfold X86.mix_step_x86, in_memory_x86, cn_mix, X86.mm_xor, X86.mulq. cbv zeta.
  rewrite !(le_words_halves a) by apply Ha. cbn [lookup_total list_lookup_total].
  pose proof (read_block P [] (addr (MEMORY sz / 16) a) HP ltac:(rewrite Hl; apply addr_bound)) as R1. rewrite app_nil_r in R1.
  rewrite state_index_spec, R1. cbn [bind]. pose proof (pad_lookup P _ HP ltac:(rewrite Hl; exact (addr_bound a))) as Hs.
  rewrite words_halves, Henc by done. cbn [bind].
  set (c := aes_round a (P !!! addr (MEMORY sz / 16) a)). assert (block c) as Hc by (by apply block_round).
  assert (block (xor_list b c)) as Hbc by (by apply block_xor).
  pose proof (write_block P [] (addr (MEMORY sz / 16) a) (xor_list b c) HP ltac:(rewrite Hl; apply addr_bound) Hbc) as W1. rewrite !app_nil_r in W1.
  rewrite W1. cbn [bind]. rewrite !(le_words_halves c) by apply Hc. cbn [lookup_total list_lookup_total].
  set (Q := <[_ := xor_list b c]> P). assert (pad Q) as HQ by (by apply pad_insert). assert (length Q = nblocks sz) as HlQ by (unfold Q; by rewrite length_insert).
  pose proof (read_block Q [] (addr (MEMORY sz / 16) c) HQ ltac:(rewrite HlQ; apply addr_bound)) as R2. rewrite app_nil_r in R2.
  rewrite state_index_spec, R2. cbn [bind]. pose proof (pad_lookup Q _ HQ ltac:(rewrite HlQ; exact (addr_bound c))) as Hd. set (d := Q !!! _) in *.
  rewrite !(le_words_halves d) by apply Hd. cbn [lookup_total list_lookup_total].
  set (p := half 0 c * half 0 d).
  assert (add8 a (mul8 c d) = words_bytes 8 [addw 64 (half 0 a) (p / 2 ^ 64); addw 64 (half 1 a) (p mod 2 ^ 64)]) as Ea.
  { unfold add8, words_bytes, addw. cbn [map concat]. rewrite app_nil_r, !(le_bytes_uwrap 8). unfold mul8. fold p.
    assert (0 <= p < 2 ^ 64 * 2 ^ 64) as Bp.
    { pose proof (half_word 0 c Hc ltac:(lia)). pose proof (half_word 0 d Hd ltac:(lia)). unfold word, p in *. nia. }
    assert (forall x y, word 64 x -> word 64 y -> half 0 (le_bytes 8 x ++ le_bytes 8 y) = x /\ half 1 (le_bytes 8 x ++ le_bytes 8 y) = y) as Hh.
    { intros x y Hx Hy. pose proof (le_words_words_bytes2 x y Hx Hy) as E. unfold words_bytes in E. cbn [map concat] in E.
      rewrite app_nil_r, le_words_halves in E by (by rewrite length_app, !length_le_bytes). by injection E. }
    destruct (Hh (p / 2 ^ 64) (p mod 2 ^ 64)) as [-> ->]; [| |done].
    - split; [apply Z.div_pos; lia|apply Z.div_lt_upper_bound; lia].
    - apply Z.mod_pos_bound. lia. }
  rewrite <- Ea.
  pose proof (write_block Q [] (addr (MEMORY sz / 16) c) (add8 a (mul8 c d)) HQ ltac:(rewrite HlQ; apply addr_bound) (block_add8 _ _)) as W2.
  rewrite !app_nil_r in W2. rewrite W2. cbn [bind]. do 3 f_equal.
  rewrite <- (le_words_words_bytes2 (addw 64 (half 0 a) _) (addw 64 (half 1 a) _)) by (apply word_addw; lia). rewrite <- Ea, <- (le_words_halves d) by apply Hd.
  symmetry. apply le_words_xor; [apply block_add8|done].
Qed.
End Sizes.

(** A loop that ignores its counter. *)
Lemma foldM_iter {A B} (step : A -> outcome A) (f : B -> B) (rep : B -> A) (ok : B -> Prop) n :
  (forall s, ok s -> step (rep s) = Ret (rep (f s)) /\ ok (f s)) ->
  forall k s, ok s -> foldM (fun _ : nat => step) (seq k n) (rep s) = Ret (rep (Nat.iter n f s)) /\ ok (Nat.iter n f s).
Proof.
  intros H. induction n as [|n IH]; intros k s Hs; [done|]. cbn [seq foldM]. destruct (H s Hs) as [-> Hf]. cbn [bind]. rewrite Nat.iter_succ_r. by apply IH.
Qed.

(** ** Filling and absorbing the scratchpad *)

Lemma imap_map {A B} (f : A -> B) l : imap (fun _ => f) l = map f l.
Proof. exact (imap_const f l). Qed.

Lemma imap_zip (f : list Z -> list Z) (T Q : list (list Z)) :
  (length T <= length Q)%nat -> imap (fun j b => f (xor_list b (Q !!! j))) T = map f (zip_with xor_list T Q).
Proof.
  revert Q. induction T as [|t T IH]; intros Q H; [done|]. destruct Q as [|q Q]; [simpl in H; lia|]. cbn [imap zip_with map]. f_equal.
  simpl in H. rewrite <- (IH Q) by lia. apply imap_ext. done.
Qed.

Lemma pad_app A B : pad A -> pad B -> pad (A ++ B).
Proof. intros. by apply Forall_app. Qed.

Lemma pad_map f T : pad T -> (forall b, block b -> block (f b)) -> pad (map f T).
Proof. intros HT Hf. apply Forall_fmap. eapply Forall_impl; [|exact HT]. exact Hf. Qed.

Lemma pad_xor T Q : pad T -> pad Q -> pad (zip_with xor_list T Q).
Proof.
  intros HT. revert Q. induction HT as [|t T Ht HT IH]; intros Q HQ; [apply List.Forall_nil|]. destruct HQ as [|q Q Hq HQ]; [apply List.Forall_nil|].
  cbn [zip_with]. apply List.Forall_cons; [by apply block_xor|]. by apply IH.
Qed.

Section Text.
Context (ks : list Z) (Hks : bytes ks) (Hkl : (160 <= length ks)%nat).

Lemma ten_block b : block b -> block (aes_ten ks b).
Proof. by apply aes_ten_block. Qed.

(** What one version does with the text: encrypt every block, after adding
    blocks of the scratchpad or not. *)
Definition encrypts (F : list Z -> outcome (list Z)) : Prop :=
  forall T, pad T -> length T = 8%nat -> F (concat T) = Ret (concat (map (aes_ten ks) T)).

Definition absorbs (F : nat -> list Z -> outcome (list Z)) (P : list (list Z)) : Prop :=
  forall i T, pad T -> length T = 8%nat -> (8 * i + 8 <= length P)%nat ->
  F i (concat T) = Ret (concat (map (aes_ten ks) (zip_with xor_list T (take 8 (drop (8 * i) P))))).

Lemma cn_fill_ok n T : pad T -> length T = 8%nat -> pad (cn_fill ks n T) /\ length (cn_fill ks n T) = (8 * n)%nat.
Proof.
  revert T. induction n as [|n IH]; intros T HT Hl; [split; [apply List.Forall_nil|done]|]. cbn [cn_fill].
  assert (pad (map (aes_ten ks) T)) as HT' by (apply pad_map; [done|exact ten_block]).
  destruct (IH (map (aes_ten ks) T) HT' ltac:(by rewrite length_map)) as [H1 H2]. split; [by apply pad_app|]. rewrite length_app, length_map, H2. lia.
Qed.

Lemma fill_loop F n : encrypts F -> forall k T A R,
  pad T -> length T = 8%nat -> length A = (128 * k)%nat -> (128 * n <= length R)%nat ->
  exists T', foldM (fun i '(text, mem) => let* text := F text in let* mem := write (i * 128) text mem in Ret (text, mem)) (seq k n) (concat T, A ++ R) =
  Ret (T', (A ++ concat (cn_fill ks n T)) ++ drop (128 * n) R).
Proof.
  intros HF. induction n as [|n IH]; intros k T A R HT Hl HA HR.
  - exists (concat T). cbn [seq foldM cn_fill concat]. by rewrite app_nil_r, Nat.mul_0_r, drop_0.
  - cbn [seq foldM]. rewrite HF by done. cbn [bind]. set (T1 := map (aes_ten ks) T).
    assert (pad T1) as HT1 by (apply pad_map; [done|exact ten_block]). assert (length T1 = 8%nat) as Hl1 by (unfold T1; by rewrite length_map).
    pose proof (length_concat16 T1 HT1) as LC. rewrite Hl1 in LC.
    rewrite write_ok by (rewrite length_app; lia). cbn [bind].
    assert (put (k * 128) (concat T1) (A ++ R) = (A ++ concat T1) ++ drop 128 R) as ->.
    { unfold put. rewrite take_app_length', drop_app_ge by lia. rewrite <- app_assoc. do 2 f_equal. f_equal. lia. }
    destruct (IH (S k) T1 (A ++ concat T1) (drop 128 R) HT1 Hl1) as [T' ->]; [rewrite length_app; lia|rewrite length_drop; lia|]. exists T'.
    cbn [cn_fill]. cbv zeta. fold T1. rewrite concat_app, drop_drop, <- !app_assoc. do 6 f_equal. lia.
Qed.

Lemma absorb_loop F P n : absorbs F P -> pad P -> forall k T,
  pad T -> length T = 8%nat -> (8 * (k + n) <= length P)%nat ->
  foldM F (seq k n) (concat T) = Ret (concat (cn_absorb ks n T (drop (8 * k) P))) /\
  pad (cn_absorb ks n T (drop (8 * k) P)) /\ length (cn_absorb ks n T (drop (8 * k) P)) = 8%nat.
Proof.
  intros HF HP. induction n as [|n IH]; intros k T HT Hl Hk; [done|]. cbn [seq foldM cn_absorb]. rewrite HF by (done || lia). cbn [bind].
  rewrite drop_drop. replace (8 * k + 8)%nat with (8 * S k)%nat by lia. apply IH; [| |lia].
  - apply pad_map; [|exact ten_block]. apply pad_xor; [done|]. by apply Forall_take, Forall_drop.
  - rewrite length_map, length_zip_with, length_take, length_drop. lia.
Qed.

(** Software AES. *)
Context (aes_ctx : option oaes_ctx) (Hctx : exp_data_of aes_ctx = Ret ks).

Lemma pseudo_block_spec j T : pad T -> (j < length T)%nat ->
  pseudo_block aes_ctx j (concat T) = Ret (concat (<[j := aes_ten ks (T !!! j)]> T)) /\ block (aes_ten ks (T !!! j)).
Proof.
  intros HT Hj. unfold pseudo_block. rewrite Hctx. cbn [bind]. pose proof (read_block T [] j HT Hj) as R. rewrite app_nil_r in R. rewrite R. cbn [bind].
  pose proof (pad_lookup T j HT Hj) as Hb. rewrite aesb_pseudo_round_spec by done. cbn [bind]. pose proof (ten_block _ Hb) as Hb'.
  pose proof (write_block T [] j _ HT Hj Hb') as W. rewrite !app_nil_r in W. done.
Qed.

Lemma soft_encrypts : encrypts (foldM (pseudo_block aes_ctx) (seq 0 8)).
Proof.
  intros T HT Hl. rewrite <- imap_map. apply (blocks_loop (pseudo_block aes_ctx) (fun _ => aes_ten ks) 8); [|done|done].
  intros j T' HT' Hl' Hj. apply pseudo_block_spec; [done|lia].
Qed.

Lemma soft_absorbs P : pad P -> absorbs (squeeze_step aes_ctx (concat P)) P.
Proof.
  intros HP i T HT Hl Hi. unfold squeeze_step. set (Q := take 8 (drop (8 * i) P)).
  rewrite <- imap_zip by (unfold Q; rewrite length_take, length_drop; lia).
  refine (proj1 (blocks_loop _ (fun j b => aes_ten ks (xor_list b (Q !!! j))) 8 _ T HT Hl)). clear T HT Hl. intros j T HT Hl Hj.
  pose proof (read_block T [] j HT ltac:(lia)) as R. rewrite app_nil_r in R. rewrite R. cbn [bind].
  pose proof (read_block P [] (8 * i + j) HP ltac:(lia)) as R2. rewrite app_nil_r in R2.
  replace (i * 128 + 16 * j)%nat with (16 * (8 * i + j))%nat by lia. rewrite R2. cbn [bind].
  assert (P !!! (8 * i + j)%nat = Q !!! j) as ->.
  { unfold Q. rewrite lookup_total_take_lt by lia. by rewrite lookup_total_drop. }
  assert (block (Q !!! j)) as Hq.
  { apply pad_lookup; [by apply Forall_take, Forall_drop|]. unfold Q. rewrite length_take, length_drop. lia. }
  pose proof (pad_lookup T j HT ltac:(lia)) as Hb. unfold xor_blocks. assert (block (xor_list (T !!! j) (Q !!! j))) as Hx by (by apply block_xor).
  pose proof (write_block T [] j _ HT ltac:(lia) Hx) as W. rewrite !app_nil_r in W. rewrite W. cbn [bind].
  destruct (pseudo_block_spec j (<[j:=xor_list (T !!! j) (Q !!! j)]> T)) as [E HE]; [by apply pad_insert|rewrite length_insert; lia|].
  rewrite list_lookup_total_insert_eq in E, HE by lia. rewrite list_insert_insert_eq in E. exact (conj E HE).
Qed.
End Text.

(** The AES instructions. *)
Lemma drop_concat16 P n : pad P -> drop (16 * n) (concat P) = concat (drop n P).
Proof.
  intros HP. revert n. induction HP as [|b P [_ Hb] HP IH]; intros n; [cbn [concat]; by rewrite !drop_nil|]. destruct n as [|n]; [done|].
  cbn [concat drop]. replace (16 * S n)%nat with (length b + 16 * n)%nat by lia. rewrite drop_app_add. apply IH.
Qed.

Section Hard.
Context `{AESNI_laws} (ks ek : list Z) (Heb : bytes ek) (Hel : (160 <= length ek)%nat)
  (Hek : forall r, (r < 10)%nat -> round_key ek r = round_key ks r).

Lemma ten_hard b : block b -> X86.ten_aesenc ek b = Ret (aes_ten ks b) /\ block (aes_ten ks b).
Proof.
  intros Hb. rewrite ten_aesenc_spec by done. rewrite (aes_ten_keys ek ks) by done. split; [done|]. rewrite <- (aes_ten_keys ek ks) by done. by apply aes_ten_block.
Qed.

Lemma hard_encrypts : encrypts ks (fun text => X86.aes_pseudo_round text ek 8).
Proof.
  intros T HT Hl. rewrite <- imap_map. refine (proj1 (blocks_loop _ (fun _ => aes_ten ks) 8 _ T HT Hl)). clear T HT Hl. intros j T HT Hl Hj.
  pose proof (read_block T [] j HT ltac:(lia)) as R. rewrite app_nil_r, Nat.mul_comm in R. rewrite R. cbn [bind].
  destruct (ten_hard _ (pad_lookup T j HT ltac:(lia))) as [-> Hb]. cbn [bind]. split; [|done].
  pose proof (write_block T [] j _ HT ltac:(lia) Hb) as W. by rewrite !app_nil_r, Nat.mul_comm in W.
Qed.

Lemma hard_absorbs P : pad P -> absorbs ks (fun i text => X86.aes_pseudo_round_xor text ek (drop (i * 128) (concat P)) 8) P.
Proof.
  intros HP i T HT Hl Hi. replace (i * 128)%nat with (16 * (8 * i))%nat by lia. rewrite drop_concat16 by done. set (D := drop (8 * i) P).
  assert (pad D) as HD by (by apply Forall_drop). assert (8 <= length D)%nat as HlD by (unfold D; rewrite length_drop; lia).
  rewrite <- imap_zip by (rewrite length_take; lia).
  refine (proj1 (blocks_loop _ (fun j b => aes_ten ks (xor_list b (take 8 D !!! j))) 8 _ T HT Hl)). clear T HT Hl. intros j T HT Hl Hj.
  pose proof (read_block T [] j HT ltac:(lia)) as R. rewrite app_nil_r, Nat.mul_comm in R. rewrite R. cbn [bind].
  pose proof (read_block D [] j HD ltac:(lia)) as R2. rewrite app_nil_r, Nat.mul_comm in R2. rewrite R2. cbn [bind].
  rewrite lookup_total_take_lt by lia. unfold X86.mm_xor.
  destruct (ten_hard (xor_list (T !!! j) (D !!! j))) as [-> Hb]; [apply block_xor; apply pad_lookup; (done || lia)|]. cbn [bind]. split; [|done].
  pose proof (write_block T [] j _ HT ltac:(lia) Hb) as W. by rewrite !app_nil_r, Nat.mul_comm in W.
Qed.
End Hard.

(** ** The final hashes *)

(** What the slow hash needs of a final hash: the digest of the 200 bytes of the
    state, whatever is on the stack. *)
Class FinalHash (h : list Z -> Z -> outcome (list Z)) (ref : list Z -> list Z) : Prop :=
  final_hash s : bytes s -> length s = 200%nat -> h s 200 = Ret (ref s).

Record stack_ok (st : stack) : Prop := {
  blake_ok : state_ok (stack_blake st);
  groestl_ok : bytes (buffer (stack_groestl st)) /\ length (buffer (stack_groestl st)) = 64%nat;
  jh_ok : length (jbuffer (stack_jh st)) = 64%nat;
  skein_ok : (forall V, junk_ok V (stack_junk st V)) /\ (forall V, uninit_ok V (stack_skein st V))
}.

Section Final.
Context (st : stack) (Hst : stack_ok st).

#[local] Instance final_blake : FinalHash (hash_extra_blake (stack_blake st)) blake256.
Proof.
  intros s Hb Hl. change 200 with (Z.of_nat 200). 
  rewrite <- (take_ge s 200) at 2 by lia. apply hash_256_spec; [apply Hst|done|lia|done].
Qed.

#[local] Instance final_groestl : FinalHash (hash_extra_groestl (stack_groestl st)) (fun s => groestl_ref (s ++ [0x80])).
Proof. intros s Hb Hl. change 200 with (Z.of_nat 200). rewrite <- Hl. apply hash_extra_groestl_correct; [apply (groestl_ok _ Hst)..|done|by rewrite Hl]. Qed.

#[local] Instance final_jh : FinalHash (hash_extra_jh (stack_jh st)) (fun s => jh_ref 256 s (8 * length s)).
Proof. intros s Hb Hl. change 200 with (Z.of_nat 200). rewrite <- Hl at 1. apply hash_extra_jh_correct; [apply Hst|done|by rewrite Hl]. Qed.

#[local] Instance final_skein : FinalHash (hash_extra_skein (stack_junk st) (stack_skein st)) (skein V512 256 false).
Proof.
  intros s Hb Hl. destruct (skein_ok _ Hst) as [H1 H2]. rewrite hash_extra_skein_spec by (done || lia). change (Z.to_nat (200 mod 2 ^ 61)) with 200%nat.
  by rewrite take_ge by lia.
Qed.

Lemma extra_hashes_spec sel s :
  0 <= sel < 4 -> bytes s -> length s = 200%nat -> (let* h := index (extra_hashes st) sel in h s 200) = Ret (cn_final sel s).
Proof.
  intros Hs Hb Hl. assert (sel = 0 \/ sel = 1 \/ sel = 2 \/ sel = 3) as [-> | [-> | [-> | ->]]] by lia; cbn [index Z.ltb Z.compare Z.to_nat extra_hashes];
    [apply (final_hash (FinalHash := final_blake))|apply (final_hash (FinalHash := final_groestl))|apply (final_hash (FinalHash := final_jh))|apply (final_hash (FinalHash := final_skein))]; done.
Qed.

Lemma finish_spec T s : pad T -> length T = 8%nat -> bytes s -> length s = 200%nat -> finish st (concat T) s = Ret (cn_end s T).
Proof.
  intros HT Hl Hb Hs. unfold finish, cn_end. cbv zeta. rewrite hash_permutation_spec by (apply bytes_put; [by apply bytes_concat16|done]). cbn [bind].
  destruct (perm_bytes (set_init (concat T) s)) as [Lp Bp]. set (p := perm _) in *. destruct p as [|b0 p']; [done|].
  cbn [index Z.ltb Z.compare Z.to_nat lookup list_lookup bind lookup_total list_lookup_total]. apply extra_hashes_spec; [|done|done].
  change 3 with (Z.ones 2). rewrite Z.land_ones by lia. apply Z.mod_pos_bound. lia.
Qed.
End Final.

(** ** The beginning *)

Lemma blocks_kstate r q m st : bytes m -> (r <= 200)%nat -> kstate st -> kstate (foldl absorb_block st (KeccakFacts.blocks r q m)).
Proof.
  intros Hb Hr. revert m st Hb. induction q as [|q IH]; intros m st Hb Hst; [done|]. cbn [KeccakFacts.blocks foldl]. apply IH; [by apply bytes_drop|].
  apply kstate_absorb; [done|by apply bytes_take|]. rewrite length_take. lia.
Qed.

Lemma hash_process_spec data n :
  bytes data -> (n <= length data)%nat -> Z.of_nat n < 2 ^ 31 ->
  hash_process data (Z.of_nat n) = Ret (sponge 136 (take n data) 200) /\ bytes (sponge 136 (take n data) 200) /\ length (sponge 136 (take n data) 200) = 200%nat.
Proof.
  intros Hb Hl Hn. split; [|split].
  - unfold hash_process, keccak1600. rewrite swrap_id by lia. change 200 with (Z.of_nat 200). apply (keccak_spec data n 200); [done|done|done|by left].
  - unfold sponge. apply bytes_take, bytes_words_bytes.
  - unfold sponge. cbv zeta. rewrite length_take, length_words_bytes.
    assert (bytes (take n data ++ pad101 136 (length (take n data)))) as Hp by (apply bytes_app; [by apply bytes_take|apply bytes_pad101]).
    destruct (blocks_kstate 136 (length (take n data ++ pad101 136 (length (take n data))) / 136) _ (replicate 25 0) Hp) as [-> _]; [lia| |done].
    split; [done|]. apply Forall_replicate. by split.
Qed.

Lemma import_key_spec rnd k :
  bytes k -> (32 <= length k)%nat ->
  exists c c', oaes_alloc rnd true = Ret (Some c) /\ import_key (true, true, true) (Some c) k = Ret (Some c') /\ exp_data_of (Some c') = Ret (key_schedule 8 (take 32 k)).
Proof.
  intros Hb Hl. eexists. eexists. split; [reflexivity|]. unfold import_key, oaes_key_import_data. cbn [Z.eqb Pos.eqb orb negb].
  change 32 with (4 * Z.of_nat 8). rewrite (import_bytes_spec true true true _ k 8) by (done || (right; by right)). cbn [negb orb bind]. done.
Qed.

Lemma import_key_again c k :
  bytes k -> (32 <= length k)%nat ->
  exists c', import_key (true, true, true) (Some c) k = Ret (Some c') /\ exp_data_of (Some c') = Ret (key_schedule 8 (take 32 k)).
Proof.
  intros Hb Hl. eexists. unfold import_key, oaes_key_import_data. cbn [Z.eqb Pos.eqb orb negb].
  change 32 with (4 * Z.of_nat 8). rewrite (import_bytes_spec true true true _ k 8) by (done || (right; by right)). cbn [negb orb bind]. done.
Qed.

Lemma schedule_ok k : bytes k -> (32 <= length k)%nat -> bytes (key_schedule 8 (take 32 k)) /\ (160 <= length (key_schedule 8 (take 32 k)))%nat.
Proof.
  intros Hb Hl. assert (key_size 8) as Hs by (right; by right).
  destruct (key_schedule_bytes 8 Hs (take 32 k)) as [H1 H2]; [by apply bytes_take|rewrite length_take; lia|]. split; [done|lia].
Qed.

Section State.
Context (s : list Z) (Hb : bytes s) (Hl : length s = 200%nat).

Lemma block_of n : (n + 16 <= 200)%nat -> block (take 16 (drop n s)).
Proof. intros Hn. split; [by apply bytes_take, bytes_drop|]. rewrite length_take, length_drop. lia. Qed.

Lemma cn_a_block : block (cn_a s).
Proof. apply block_xor; [rewrite <- (drop_0 s) at 1; apply block_of; lia|apply block_of; lia]. Qed.

Lemma cn_b_block : block (cn_b s).
Proof. apply block_xor; apply block_of; lia. Qed.

Lemma blocks_pad n l : bytes l -> (16 * n <= length l)%nat ->
  pad (KeccakFacts.blocks 16 n l) /\ length (KeccakFacts.blocks 16 n l) = n /\ concat (KeccakFacts.blocks 16 n l) = take (16 * n) l.
Proof.
  revert l. induction n as [|n IH]; intros l Hbl Hll; [by split; [apply List.Forall_nil|]|]. cbn [KeccakFacts.blocks].
  destruct (IH (drop 16 l)) as (H1 & H2 & H3); [by apply bytes_drop|rewrite length_drop; lia|]. split; [|split].
  - apply List.Forall_cons; [|done]. split; [by apply bytes_take|]. rewrite length_take. lia.
  - cbn [length]. lia.
  - cbn [concat]. rewrite H3, (take_take_app l 16 (16 * S n)) by lia. do 2 f_equal. lia.
Qed.

Lemma cn_text_ok : pad (cn_text s) /\ length (cn_text s) = 8%nat /\ concat (cn_text s) = state_init s.
Proof.
  assert (length (state_init s) = 128%nat) as Hi by (unfold state_init; rewrite length_take, length_drop; lia).
  destruct (blocks_pad 8 (state_init s)) as (H1 & H2 & H3); [by apply bytes_take, bytes_drop|lia|]. split; [done|]. split; [done|]. unfold cn_text. rewrite H3. apply take_ge. lia.
Qed.

Lemma key_bytes n : (n + 32 <= 200)%nat -> bytes (drop n s) /\ (32 <= length (drop n s))%nat.
Proof. intros Hn. split; [by apply bytes_drop|]. rewrite length_drop. lia. Qed.
End State.

(** ** The versions *)

(** All allocations succeed; the stack holds anything of the right sizes. *)
Record env_ok (e : env) : Prop := {
  alloc_ok : env_alloc e = true;
  key1_ok : env_key1 e = (true, true, true);
  key2_ok : env_key2 e = (true, true, true);
  env_stack_ok : stack_ok (env_stack e)
}.

Section Versions.
Context (sz : sizes) (Hsz : size_ok sz) (s : list Z) (Hb : bytes s) (Hl : length s = 200%nat).

Let n := Z.to_nat (MEMORY sz / 128).

Lemma fill_memory F mem :
  encrypts (cn_key 0 s) F -> length mem = (128 * n)%nat ->
  exists t, foldM (fun i '(text, mem) => let* text := F text in let* mem := write (i * 128) text mem in Ret (text, mem)) (seq 0 n) (state_init s, mem) =
  Ret (t, concat (cn_fill (cn_key 0 s) n (cn_text s))).
Proof.
  intros HF Hm. destruct (cn_text_ok s Hb Hl) as (T1 & T2 & <-). destruct (schedule_ok s Hb ltac:(lia)) as [K1 K2].
  destruct (fill_loop (cn_key 0 s) K1 K2 F n HF 0 (cn_text s) [] mem T1 T2) as [t E]; [done|lia|]. exists t. cbn [app] in E. rewrite E.
  rewrite (drop_ge mem) by lia. by rewrite app_nil_r.
Qed.

(** The scratchpad after the main loop. *)
Lemma pad_after :
  mixing_ok sz (cn_a s, cn_b s, cn_fill (cn_key 0 s) n (cn_text s)) /\ pad (cn_pad sz s) /\ length (cn_pad sz s) = (8 * n)%nat.
Proof.
  destruct (cn_text_ok s Hb Hl) as (T1 & T2 & _). destruct (schedule_ok s Hb ltac:(lia)) as [K1 K2]. destruct (size_blocks sz Hsz) as (k & _ & _ & En).
  destruct (cn_fill_ok (cn_key 0 s) K1 K2 n (cn_text s) T1 T2) as [P1 P2].
  assert (mixing_ok sz (cn_a s, cn_b s, cn_fill (cn_key 0 s) n (cn_text s))) as H0
    by (split; [by apply cn_a_block|split; [by apply cn_b_block|split; [done|by rewrite En]]]).
  split; [done|]. assert (forall m x, mixing_ok sz x -> mixing_ok sz (Nat.iter m (cn_mix (MEMORY sz / 16)) x)) as G.
  { induction m as [|m IH]; intros x Hx; [done|]. rewrite Nat.iter_succ. apply (cn_mix_ok sz Hsz), IH, Hx. }
  specialize (G (Z.to_nat (ITER sz / 2)) _ H0). unfold cn_pad. fold n. destruct (Nat.iter _ _ _) as [[a b] P]. destruct G as (_ & _ & G1 & G2). cbn [snd].
  split; [done|]. by rewrite G2, En.
Qed.

Lemma absorb_memory F :
  absorbs (cn_key 32 s) F (cn_pad sz s) ->
  foldM F (seq 0 n) (state_init s) = Ret (concat (cn_absorb (cn_key 32 s) n (cn_text s) (cn_pad sz s))) /\
  pad (cn_absorb (cn_key 32 s) n (cn_text s) (cn_pad sz s)) /\ length (cn_absorb (cn_key 32 s) n (cn_text s) (cn_pad sz s)) = 8%nat.
Proof.
  intros HF. destruct (cn_text_ok s Hb Hl) as (T1 & T2 & <-). destruct (key_bytes s Hb Hl 32 ltac:(lia)) as [B1 B2].
  destruct (schedule_ok (drop 32 s) B1 B2) as [K1 K2]. destruct pad_after as (_ & P1 & P2).
  exact (absorb_loop (cn_key 32 s) K1 K2 F (cn_pad sz s) n HF P1 0 (cn_text s) T1 T2 ltac:(lia)).
Qed.

(** The main loop in memory. *)
Lemma portable_mixing :
  exists a b, foldM (fun _ : nat => Portable.mix_step sz) (seq 0 (Z.to_nat (ITER sz / 2))) (cn_a s, cn_b s, concat (cn_fill (cn_key 0 s) n (cn_text s))) =
  Ret (a, b, concat (cn_pad sz s)).
Proof.
  destruct pad_after as (H0 & _). unfold cn_pad. fold n.
  destruct (foldM_iter (Portable.mix_step sz) (cn_mix (MEMORY sz / 16)) in_memory (mixing_ok sz) (Z.to_nat (ITER sz / 2))
    (fun x Hx => conj (portable_mix_step sz Hsz x Hx) (cn_mix_ok sz Hsz x Hx)) 0 _ H0) as [E _].
  cbn [in_memory] in E. rewrite E. destruct (Nat.iter _ _ _) as [[a b] P]. exists a, b. done.
Qed.

Lemma x86_mixing enc :
  (forall c a, block c -> block a -> enc c a = Ret (aes_round a c)) ->
  exists a b, foldM (fun _ : nat => X86.mix_step_x86 sz enc) (seq 0 (Z.to_nat (ITER sz / 2)))
    (le_words 8 2 (cn_a s), cn_b s, concat (cn_fill (cn_key 0 s) n (cn_text s))) = Ret (a, b, concat (cn_pad sz s)).
Proof.
  intros Henc. destruct pad_after as (H0 & _). unfold cn_pad. fold n.
  destruct (foldM_iter (X86.mix_step_x86 sz enc) (cn_mix (MEMORY sz / 16)) in_memory_x86 (mixing_ok sz) (Z.to_nat (ITER sz / 2))
    (fun x Hx => conj (x86_mix_step sz Hsz enc x Hx Henc) (cn_mix_ok sz Hsz x Hx)) 0 _ H0) as [E _].
  cbn [in_memory_x86] in E. rewrite E. destruct (Nat.iter _ _ _) as [[a b] P]. do 2 eexists. done.
Qed.
End Versions.

Lemma memory_length sz : size_ok sz -> Z.to_nat (MEMORY sz) = (128 * Z.to_nat (MEMORY sz / 128))%nat.
Proof.
  intros (k & Hk & E). assert (2 ^ k = 8 * 2 ^ (k - 3)) as E8 by (change 8 with (2 ^ 3); rewrite <- Z.pow_add_r by lia; f_equal; lia).
  assert (0 < 2 ^ (k - 3)) by (apply Z.pow_pos_nonneg; lia). rewrite E. replace (16 * 2 ^ k) with (2 ^ (k - 3) * 128) by lia. rewrite Z.div_mul by lia. lia.
Qed.

Lemma portable_spec sz e mem data n :
  size_ok sz -> env_ok e -> length mem = Z.to_nat (MEMORY sz) -> bytes data -> (n <= length data)%nat -> Z.of_nat n < 2 ^ 31 ->
  Portable.cn_slow_hash sz e mem data (Z.of_nat n) = Ret (cryptonight sz (take n data)).
Proof.
  intros Hsz [He1 He2 He3 He4] Hm Hb Hl Hn. destruct (hash_process_spec data n Hb Hl Hn) as (EH & Hsb & Hsl). unfold Portable.cn_slow_hash, cryptonight.
  rewrite EH. cbn [bind]. cbv zeta. set (s := sponge 136 (take n data) 200) in *. clearbody s. rewrite He1, He2, He3.
  destruct (import_key_spec (env_rand e) (take 32 s)) as (c & c1 & -> & E1 & X1); [by apply bytes_take|rewrite length_take; lia|]. cbn [bind]. rewrite E1. cbn [bind].
  rewrite take_take in X1. destruct (schedule_ok s Hsb ltac:(lia)) as [K1 K2]. destruct (key_bytes s Hsb Hsl 32 ltac:(lia)) as [B1 B2].
  destruct (fill_memory sz s Hsb Hsl _ mem (soft_encrypts (cn_key 0 s) K1 K2 (Some c1) X1)) as [t EF]; [rewrite Hm; by apply memory_length|].
  change (foldM (fill_step (Some c1))) with (foldM (fun i '(text, mem) =>
    let* text := foldM (pseudo_block (Some c1)) (seq 0 8) text in let* mem := write (i * 128) text mem in Ret (text, mem))). rewrite EF. cbn [bind].
  destruct (portable_mixing sz Hsz s Hsb Hsl) as (a & b & EM). unfold cn_a, cn_b in EM. rewrite EM. cbn [bind].
  destruct (import_key_again c1 (drop 32 s) B1 B2) as (c2 & -> & X2). cbn [bind]. destruct (schedule_ok (drop 32 s) B1 B2) as [K3 K4].
  destruct (pad_after sz Hsz s Hsb Hsl) as (_ & HP & _).
  destruct (absorb_memory sz Hsz s Hsb Hsl _ (soft_absorbs (cn_key 32 s) K3 K4 (Some c2) X2 (cn_pad sz s) HP)) as (-> & T1 & T2). cbn [bind].
  by apply finish_spec.
Qed.

Section X86.
Context `{AESNI_laws} (sz : sizes) (Hsz : size_ok sz) (x : X86.x86_env) (Hx : env_ok (X86.x_env x))
  (Hek : bytes (X86.x_expandedKey x)) (Hel : length (X86.x_expandedKey x) = 240%nat) (s : list Z) (Hb : bytes s) (Hl : length s = 200%nat).

Lemma x86_fill useAes mem :
  length mem = Z.to_nat (MEMORY sz) ->
  exists c ek t, X86.fill_pad sz x useAes s (state_init s) mem = Ret (c, ek, t, concat (cn_fill (cn_key 0 s) (Z.to_nat (MEMORY sz / 128)) (cn_text s))) /\
    bytes ek /\ length ek = 240%nat /\ (useAes = false -> exists c', c = Some c').
Proof.
  intros Hm. rewrite (memory_length sz Hsz) in Hm. destruct (schedule_ok s Hb ltac:(lia)) as [K1 K2]. destruct Hx as [He1 He2 He3 He4]. unfold X86.fill_pad. destruct useAes.
  - destruct (expanded_spec s (X86.x_expandedKey x) Hb ltac:(lia) Hel Hek) as (ek & -> & E1 & E2 & E3). cbn [bind].
    destruct (fill_memory sz s Hb Hl _ mem (hard_encrypts (cn_key 0 s) ek E1 ltac:(lia) E3) Hm) as [t EF]. rewrite EF. cbn [bind].
    exists None, ek, t. done.
  - rewrite He1, He2. destruct (import_key_spec (env_rand (X86.x_env x)) s) as (c & c1 & -> & E1 & X1); [done|lia|]. cbn [bind]. rewrite E1. cbn [bind].
    destruct (fill_memory sz s Hb Hl _ mem (soft_encrypts (cn_key 0 s) K1 K2 (Some c1) X1) Hm) as [t EF].
    change (foldM (fill_step (Some c1))) with (foldM (fun i '(text, mem) =>
      let* text := foldM (pseudo_block (Some c1)) (seq 0 8) text in let* mem := write (i * 128) text mem in Ret (text, mem))). rewrite EF. cbn [bind].
    exists (Some c1), (X86.x_expandedKey x), t. split; [done|]. split; [done|]. split; [done|]. intros _. by exists c1.
Qed.

Lemma x86_squeeze useAes c ek :
  bytes ek -> length ek = 240%nat -> (useAes = false -> exists c', c = Some c') ->
  let T := cn_absorb (cn_key 32 s) (Z.to_nat (MEMORY sz / 128)) (cn_text s) (cn_pad sz s) in
  X86.squeeze_pad sz x useAes c ek s (state_init s) (concat (cn_pad sz s)) = Ret (concat T) /\ pad T /\ length T = 8%nat.
Proof.
  intros Hb' Hl' Hc. destruct (key_bytes s Hb Hl 32 ltac:(lia)) as [B1 B2]. destruct (schedule_ok (drop 32 s) B1 B2) as [K3 K4].
  destruct (pad_after sz Hsz s Hb Hl) as (_ & HP & _). destruct Hx as [He1 He2 He3 He4]. unfold X86.squeeze_pad. destruct useAes.
  - destruct (expanded_spec (drop 32 s) ek B1 B2 Hl' Hb') as (ek' & -> & E1 & E2 & E3). cbn [bind].
    exact (absorb_memory sz Hsz s Hb Hl _ (hard_absorbs (cn_key 32 s) ek' E1 ltac:(lia) E3 (cn_pad sz s) HP)).
  - destruct (Hc eq_refl) as [c' ->]. rewrite He3. destruct (import_key_again c' (drop 32 s) B1 B2) as (c2 & -> & X2). cbn [bind].
    exact (absorb_memory sz Hsz s Hb Hl _ (soft_absorbs (cn_key 32 s) K3 K4 (Some c2) X2 (cn_pad sz s) HP)).
Qed.
End X86.

Lemma x86_spec `{AESNI_laws} sz x h supported mem data n :
  size_ok sz -> env_ok (X86.x_env x) -> bytes (X86.x_expandedKey x) -> length (X86.x_expandedKey x) = 240%nat ->
  X86.hp_state (X86.slow_hash_allocate_state (X86.x_mmap x) (X86.x_malloc x) h) = Some mem -> length mem = Z.to_nat (MEMORY sz) ->
  bytes data -> (n <= length data)%nat -> Z.of_nat n < 2 ^ 31 ->
  exists h', X86.cn_slow_hash_x86 sz x h supported data (Z.of_nat n) = Ret (cryptonight sz (take n data), h', X86.check_aes_hw (X86.x_cpuid x) supported) /\
    exists mem', X86.hp_state h' = Some mem' /\ length mem' = Z.to_nat (MEMORY sz) /\
      X86.hp_allocated h' = X86.hp_allocated (X86.slow_hash_allocate_state (X86.x_mmap x) (X86.x_malloc x) h).
Proof.
  intros Hsz Hx Hek Hel Hh Hm Hb Hl Hn. destruct (hash_process_spec data n Hb Hl Hn) as (EH & Hsb & Hsl). unfold X86.cn_slow_hash_x86, cryptonight.
  assert ((match X86.hp_state h with None => X86.slow_hash_allocate_state (X86.x_mmap x) (X86.x_malloc x) h | Some _ => h end) =
    X86.slow_hash_allocate_state (X86.x_mmap x) (X86.x_malloc x) h) as ->.
  { unfold X86.slow_hash_allocate_state. by destruct (X86.hp_state h). }
  rewrite EH. cbn [bind]. cbv zeta. set (s := sponge 136 (take n data) 200) in *. clearbody s. rewrite Hh.
  set (u := negb (X86.check_aes_hw (X86.x_cpuid x) supported =? 0)).
  destruct (x86_fill sz Hsz x Hx Hek Hel s Hsb Hsl u mem Hm) as (c & ek & t & -> & E1 & E2 & E3). cbn [bind].
  assert (words_bytes 8 (xor_list (le_words 8 2 (drop 16 s)) (le_words 8 2 (drop 48 s))) = cn_b s /\
    xor_list (le_words 8 2 (drop 0 s)) (le_words 8 2 (drop 32 s)) = le_words 8 2 (cn_a s)) as [-> ->].
  { assert (forall k, le_words 8 2 (drop k s) = le_words 8 2 (take 16 (drop k s))) as Et by (intros k; symmetry; apply le_words_take; lia).
    rewrite !Et. unfold cn_a, cn_b. rewrite <- (drop_0 s) at 5.
    pose proof (block_of s Hsb Hsl 0 ltac:(lia)). pose proof (block_of s Hsb Hsl 16 ltac:(lia)).
    pose proof (block_of s Hsb Hsl 32 ltac:(lia)). pose proof (block_of s Hsb Hsl 48 ltac:(lia)).
    rewrite <- !le_words_xor by done. split; [|done].
    destruct (block_xor (take 16 (drop 16 s)) (take 16 (drop 48 s))) as [X1 X2]; [done|done|]. by apply words_bytes_le_words. }
  destruct (x86_mixing sz Hsz s Hsb Hsl (fun c a => if u then Ret (mm_aesenc c a) else aesb_single_round c a)) as (a & b & EM).
  { intros c0 a0 Hc Ha. destruct u; [by rewrite aesenc_law|]. destruct Ha as [Ha1 Ha2]. rewrite aesb_single_round_spec by (done || lia). by rewrite take_ge by lia. }
  rewrite EM. cbn [bind]. destruct (x86_squeeze sz Hsz x Hx Hel s Hsb Hsl u c ek E1 E2 E3) as (-> & T1 & T2). cbn [bind].
  rewrite finish_spec by (done || apply Hx). cbn [bind]. eexists. split; [reflexivity|]. exists (concat (cn_pad sz s)). split; [done|].
  destruct (pad_after sz Hsz s Hsb Hsl) as (_ & P1 & P2). split; [|done]. rewrite length_concat16, P2, (memory_length sz Hsz) by done. lia.
Qed.
