(* ===== verification/CryptoNight.v ===== *)
(** The theorems on the slow hash. *)

From S2P Require Import Prelude Limbs Bytes Words Memory Keccak KeccakFacts Blake BlakeSpec BlakeFacts Groestl GroestlFacts JH JHFacts Skein SkeinFacts.
From S2P Require Import Gf256 Aes Aesb Oaes OaesFacts OaesContext SlowHash SlowHashAes SlowHashFacts.

Lemma cn_sizes_ok : size_ok cn_sizes.
Proof. exists 17. split; [lia|reflexivity]. Qed.

(** A stack and an environment. *)
Definition sample_stack : stack := {|
  stack_blake := zero_state; stack_groestl := blank;
  stack_jh := {| hashbitlen := 0; databitlen := 0; datasize_in_buffer := 0; jx := replicate 16 0; jbuffer := replicate 64 0 |};
  stack_junk := zero_junk; stack_skein := zero_ctx |}.

Lemma sample_stack_ok : stack_ok sample_stack.
Proof. split; [exact zero_state_ok|split; [by apply bytesb_true|done]|done|split; [exact zero_junk_ok|exact zero_ctx_ok]]. Qed.

Definition sample_env : env := {|
  env_rand := fun i => Z.of_nat i; env_alloc := true; env_key1 := (true, true, true); env_key2 := (true, true, true); env_stack := sample_stack |}.

Lemma sample_env_ok : env_ok sample_env.
Proof. split; [done|done|done|exact sample_stack_ok]. Qed.

Definition zeros : list Z := replicate (Z.to_nat (MEMORY cn_sizes)) 0.

Lemma length_zeros : length zeros = Z.to_nat (MEMORY cn_sizes).
Proof. apply length_replicate. Qed.

#[local] Opaque zeros cn_sizes.

(** C1: slow-hash.c, portable version: for every message below 2^31 bytes, when
    the allocations it makes succeed ([env_ok]; the code does not check them), the
    code computes CryptoNight: Keccak, a scratchpad filled with AES, the mixing
    of its blocks by AES rounds and 64-bit products, the absorption of the
    scratchpad, and one of four final hashes; every access is inside its
    buffer, no assertion fails, and what the stack held does not matter. *)
Theorem cn_slow_hash_correct e long_state data n :
  env_ok e -> length long_state = Z.to_nat (MEMORY cn_sizes) -> bytes data -> (n <= length data)%nat -> Z.of_nat n < 2 ^ 31 ->
  Portable.cn_slow_hash cn_sizes e long_state data (Z.of_nat n) = Ret (cryptonight cn_sizes (take n data)).
Proof. intros. apply portable_spec; [exact cn_sizes_ok|done..]. Qed.

Lemma cn_slow_hash_correct_witness :
  Portable.cn_slow_hash cn_sizes sample_env zeros [1; 2; 3] (Z.of_nat 3) = Ret (cryptonight cn_sizes (take 3 [1; 2; 3])).
Proof. apply (cn_slow_hash_correct sample_env zeros [1; 2; 3] 3); [exact sample_env_ok|exact length_zeros|by apply bytesb_true|done|done]. Defined.

(** C2: slow-hash.c, version for x86: with the AES instructions or without them,
    with a scratchpad from an earlier call or a new mapping, the hash is the
    one the portable version computes, and the scratchpad stays allocated. *)
Theorem cn_slow_hash_x86_portable `{AESNI_laws} e x h supported mem long_state data n :
  env_ok e -> env_ok (X86.x_env x) -> bytes (X86.x_expandedKey x) -> length (X86.x_expandedKey x) = 240%nat ->
  X86.hp_state (X86.slow_hash_allocate_state (X86.x_mmap x) (X86.x_malloc x) h) = Some mem ->
  length mem = Z.to_nat (MEMORY cn_sizes) -> length long_state = Z.to_nat (MEMORY cn_sizes) ->
  bytes data -> (n <= length data)%nat -> Z.of_nat n < 2 ^ 31 ->
  exists hash h' mem',
    X86.cn_slow_hash_x86 cn_sizes x h supported data (Z.of_nat n) = Ret (hash, h', X86.check_aes_hw (X86.x_cpuid x) supported) /\
    Portable.cn_slow_hash cn_sizes e long_state data (Z.of_nat n) = Ret hash /\
    X86.hp_state h' = Some mem' /\ length mem' = Z.to_nat (MEMORY cn_sizes).
Proof.
  intros He Hx Hek Hel Hh Hm Hls Hb Hl Hn.
  destruct (x86_spec cn_sizes x h supported mem data n cn_sizes_ok Hx Hek Hel Hh Hm Hb Hl Hn) as (h' & E & mem' & E1 & E2 & _).
  exists (cryptonight cn_sizes (take n data)), h', mem'. split; [done|]. split; [|done]. apply portable_spec; [exact cn_sizes_ok|done..].
Qed.

Definition sample_x86 : X86.x86_env := {|
  X86.x_env := sample_env; X86.x_mmap := None; X86.x_malloc := Some zeros; X86.x_cpuid := [0; 0; 2 ^ 25; 0]; X86.x_expandedKey := replicate 240 0 |}.

Lemma cn_slow_hash_x86_portable_witness :
  exists hash h',
    X86.cn_slow_hash_x86 cn_sizes sample_x86 {| X86.hp_state := None; X86.hp_allocated := false |} (-1) [1; 2; 3] (Z.of_nat 3) =
      Ret (hash, h', X86.check_aes_hw (X86.x_cpuid sample_x86) (-1)) /\
    Portable.cn_slow_hash cn_sizes sample_env zeros [1; 2; 3] (Z.of_nat 3) = Ret hash.
Proof.
  destruct (cn_slow_hash_x86_portable sample_env sample_x86 {| X86.hp_state := None; X86.hp_allocated := false |} (-1) zeros zeros [1; 2; 3] 3) as (hash & h' & mem' & H1 & H2 & _).
  - exact sample_env_ok.
  - exact sample_env_ok.
  - by apply bytesb_true.
  - done.
  - reflexivity.
  - exact length_zeros.
  - exact length_zeros.
  - by apply bytesb_true.
  - done.
  - done.
  - exists hash, h'. split; [exact H1|exact H2].
Defined.

(** ** Failing allocations *)

Lemma first_turn {A} (f : nat -> A -> outcome A) n s : (0 < n)%nat -> f 0%nat s = Fault NullPointer -> foldM f (seq 0 n) s = Fault NullPointer.
Proof. intros Hn E. destruct n as [|n]; [lia|]. cbn [seq foldM]. by rewrite E. Qed.

Lemma fill_null aes_ctx n text mem : exp_data_of aes_ctx = Fault NullPointer -> (0 < n)%nat -> foldM (fill_step aes_ctx) (seq 0 n) (text, mem) = Fault NullPointer.
Proof.
  intros E Hn. apply first_turn; [done|]. unfold fill_step. cbn [seq foldM]. unfold pseudo_block at 1. by rewrite E.
Qed.

Lemma blocks_positive sz : size_ok sz -> (0 < Z.to_nat (MEMORY sz / 128))%nat.
Proof.
  intros (k & Hk & E). assert (2 ^ k = 8 * 2 ^ (k - 3)) as E8 by (change 8 with (2 ^ 3); rewrite <- Z.pow_add_r by lia; f_equal; lia).
  assert (0 < 2 ^ (k - 3)) by (apply Z.pow_pos_nonneg; lia). rewrite E. replace (16 * 2 ^ k) with (2 ^ (k - 3) * 128) by lia. rewrite Z.div_mul by lia. lia.
Qed.

(** Slow-hash.c: the results of oaes_alloc, oaes_key_import_data, mmap and
    malloc are not checked: when one of the allocations for the first key fails
    the portable version dereferences a null pointer, and so does the x86
    version when there is no memory for its scratchpad. *)
Theorem cn_slow_hash_alloc_failure e long_state data n :
  env_alloc e = false \/ env_key1 e <> (true, true, true) ->
  bytes data -> (n <= length data)%nat -> Z.of_nat n < 2 ^ 31 ->
  Portable.cn_slow_hash cn_sizes e long_state data (Z.of_nat n) = Fault NullPointer /\
  (forall `{AESNI} x supported, X86.x_mmap x = None -> X86.x_malloc x = None ->
   X86.cn_slow_hash_x86 cn_sizes x {| X86.hp_state := None; X86.hp_allocated := false |} supported data (Z.of_nat n) = Fault NullPointer).
Proof.
  intros Hfail Hb Hl Hn. destruct (hash_process_spec data n Hb Hl Hn) as (EH & Hsb & Hsl). split.
  2: { intros HN x supported E1 E2. unfold X86.cn_slow_hash_x86, X86.slow_hash_allocate_state. cbn [X86.hp_state]. rewrite E1, E2, EH. done. }
  unfold Portable.cn_slow_hash. rewrite EH. cbn [bind]. cbv zeta. set (s := sponge 136 (take n data) 200) in *. clearbody s.
  pose proof (blocks_positive cn_sizes cn_sizes_ok) as Hp. destruct (env_alloc e) eqn:Ea.
  - destruct Hfail as [Hf|Hf]; [done|]. destruct (import_key_spec (env_rand e) (take 32 s)) as (c & _ & -> & _); [by apply bytes_take|rewrite length_take; lia|]. cbn [bind].
    destruct (env_key1 e) as [[m1 m2] m3] eqn:Ek. assert (import_key (m1, m2, m3) (Some c) (take 32 s) = Ret (Some (set_key None c))) as ->.
    { unfold import_key, oaes_key_import_data. cbn [Z.eqb Pos.eqb orb negb]. change 32 with (4 * Z.of_nat 8).
      rewrite (import_bytes_spec m1 m2 m3 c (take 32 s) 8); [|right; by right|by apply bytes_take|rewrite length_take; lia]. destruct m1, m2, m3; done. }
    cbn [bind]. rewrite fill_null by done. done.
  - cbn [oaes_alloc negb bind]. unfold import_key. destruct (env_key1 e) as [[m1 m2] m3]. cbn [oaes_key_import_data bind]. by rewrite fill_null.
Qed.

Lemma cn_slow_hash_alloc_failure_witness :
  Portable.cn_slow_hash cn_sizes {| env_rand := fun i => Z.of_nat i; env_alloc := true; env_key1 := (true, false, true); env_key2 := (true, true, true); env_stack := sample_stack |}
    zeros [1; 2; 3] (Z.of_nat 3) = Fault NullPointer.
Proof.
  apply (cn_slow_hash_alloc_failure {| env_rand := fun i => Z.of_nat i; env_alloc := true; env_key1 := (true, false, true); env_key2 := (true, true, true); env_stack := sample_stack |}
    zeros [1; 2; 3] 3); [right; discriminate|by apply bytesb_true|done|done].
Defined.
