(* ===== verification/Czmq.v ===== *)
(** CZMQ and libzmq, the libraries the wallet protocol is carried by, as an
    interface: [Czmq] has the operations the sources call, with the types they
    work on, [CzmqLaws] what their documentation promises of them and
    [CzmqMemory] that their allocations succeed.  The codec (file WapProto)
    and the server (file WapServer) are proved against the interface; the
    module [Queue] is an implementation of it by lists, which shows that the
    laws can hold and makes the codec executable. *)

From S2P Require Import Prelude Limbs Bytes Words Memory.

(** ** Containers with a cursor

    [x = first (l); while (x) { f; x = next (l); }], with at most [fuel] turns. *)
Section Walk.
Context {L A S : Type} (next : L -> option A * L).

Fixpoint walk (f : A -> S -> outcome S) (fuel : nat) (cur : option A) (l : L) (s : S) : outcome (L * S) :=
  match cur, fuel with
  | None, _ => Ret (l, s)
  | Some _, O => Fault Diverges
  | Some x, Datatypes.S fuel' =>
      let* s' := f x s in
      let '(cur', l') := next l in walk f fuel' cur' l' s'
  end.
End Walk.

(** What [first] and [next] promise: [items] are the contents, [rest] the
    contents after the cursor.  Nothing is said of the cursor once [next] has
    returned NULL. *)
Record walks {L A} (items rest : L -> list A) (first next : L -> option A * L) : Prop := {
  walk_first l : exists l', first l = (head (items l), l') /\ items l' = items l /\ rest l' = tail (items l);
  walk_next l x xs : rest l = x :: xs -> exists l', next l = (Some x, l') /\ items l' = items l /\ rest l' = xs;
  walk_end l : rest l = [] -> exists l', next l = (None, l') /\ items l' = items l }.

(** The loop runs its body on the contents, in order, and keeps them. *)
Lemma walk_rest {L A S} (items rest : L -> list A) first next (f : A -> S -> outcome S) :
  walks items rest first next -> forall xs x l s s' fuel, rest l = xs -> (length xs < fuel)%nat ->
  foldM f (x :: xs) s = Ret s' -> exists l', walk next f fuel (Some x) l s = Ret (l', s') /\ items l' = items l.
Proof.
  intros W xs. induction xs as [|y xs IH]; intros x l s s' [|fuel] Hr Hf; simpl in Hf; try lia; cbn [foldM walk].
  - destruct (f x s) as [s1|] eqn:Ef; [|done]. simpl. intros [= ->].
    destruct (walk_end _ _ _ _ W l Hr) as (l' & -> & Hi). exists l'. by destruct fuel.
  - destruct (f x s) as [s1|] eqn:Ef; [|done]. cbn [bind]. intros H.
    destruct (walk_next _ _ _ _ W l y xs Hr) as (l' & -> & Hi & Hr').
    destruct (IH y l' s1 s' fuel Hr' ltac:(lia) H) as (l2 & -> & Hi'). exists l2. split; [done|congruence].
Qed.

Lemma walk_items {L A S} (items rest : L -> list A) first next (f : A -> S -> outcome S) l s s' fuel :
  walks items rest first next -> (length (items l) <= fuel)%nat -> foldM f (items l) s = Ret s' ->
  exists l', (let '(cur, l0) := first l in walk next f fuel cur l0 s) = Ret (l', s') /\ items l' = items l.
Proof.
  intros W Hf H. destruct (walk_first _ _ _ _ W l) as (l0 & -> & Hi & Hr).
  destruct (items l) as [|x xs] eqn:Ei; simpl in *.
  - injection H as ->. exists l0. by destruct fuel.
  - destruct (walk_rest _ _ _ _ f W xs x l0 s s' fuel Hr ltac:(lia) H) as (l' & -> & Hi'). exists l'. split; [done|congruence].
Qed.

(** When the body faults, the loop faults as it does. *)
Lemma walk_rest_fault {L A S} (items rest : L -> list A) first next (f : A -> S -> outcome S) e :
  walks items rest first next -> forall xs x l s fuel, rest l = xs -> (length xs < fuel)%nat ->
  foldM f (x :: xs) s = Fault e -> walk next f fuel (Some x) l s = Fault e.
Proof.
  intros W xs. induction xs as [|y xs IH]; intros x l s [|fuel] Hr Hf; simpl in Hf; try lia; cbn [foldM walk].
  - destruct (f x s) as [s1|]; [done|]. by intros [= ->].
  - destruct (f x s) as [s1|]; [|by intros [= ->]]. cbn [bind]. intros H.
    destruct (walk_next _ _ _ _ W l y xs Hr) as (l' & -> & _ & Hr'). apply IH; [done|lia|done].
Qed.

Lemma walk_items_fault {L A S} (items rest : L -> list A) first next (f : A -> S -> outcome S) l s e fuel :
  walks items rest first next -> (length (items l) <= fuel)%nat -> foldM f (items l) s = Fault e ->
  (let '(cur, l0) := first l in walk next f fuel cur l0 s) = Fault e.
Proof.
  intros W Hf H. destruct (walk_first _ _ _ _ W l) as (l0 & -> & Hi & Hr).
  destruct (items l) as [|x xs] eqn:Ei; simpl in *; [done|].
  eapply (walk_rest_fault _ _ _ _ f); [exact W|done|lia|done].
Qed.

(** ** The operations

    A pointer that may be NULL is an [option].  A frame is sent with a flag:
    [true] for ZMQ_SNDMORE or ZFRAME_MORE.  A C string is the list of its
    characters, without the terminator. *)
Class Czmq := {
  zframe : Type; zchunk : Type; zlist : Type; zmsg : Type; zsock : Type;
  zframe_recv : zsock -> option zframe * zsock;
  zframe_send : option zframe -> bool -> zsock -> zsock;
  zframe_dup : option zframe -> option zframe;
  zchunk_new : list Z -> option zchunk;
  zchunk_data : zchunk -> list Z;          (* the [zchunk_size] octets of the chunk *)
  zlist_new : zlist;                       (* with [zlist_autofree]: items are copied *)
  zlist_append : zlist -> list Z -> zlist;
  zlist_size : zlist -> nat;
  zlist_first : zlist -> option (list Z) * zlist;
  zlist_next : zlist -> option (list Z) * zlist;
  zmsg_new : zmsg;
  zmsg_recv : zsock -> option zmsg * zsock;
  zmsg_size : zmsg -> nat;
  zmsg_first : zmsg -> option zframe * zmsg;
  zmsg_next : zmsg -> option zframe * zmsg;
  zsock_type : zsock -> Z;
  zsock_rcvmore : zsock -> bool;
  zmq_msg_recv : zsock -> option (list Z) * zsock;       (* [None]: interrupted *)
  zmq_msg_init_size : nat -> option (list Z);            (* [None]: out of memory *)
  zmq_msg_send : list Z -> bool -> zsock -> zsock;
  zmq_send : list Z -> bool -> zsock -> zsock;
  malloc : nat -> bool }.

(** The values of [zsock_type]. *)
Definition ZMQ_DEALER := 5.
Definition ZMQ_ROUTER := 6.

(** ** The laws

    [inbox] has the frames that wait on a socket and [outbox] those it was
    given to send, each with its "more" flag. *)
Class CzmqLaws `{Czmq} := {
  zframe_data : zframe -> list Z;
  zlist_items : zlist -> list (list Z);
  zlist_rest : zlist -> list (list Z);
  zmsg_items : zmsg -> list zframe;
  zmsg_rest : zmsg -> list zframe;
  inbox : zsock -> list (list Z * bool);
  outbox : zsock -> list (list Z * bool);
  zlist_new_items : zlist_items zlist_new = [];
  zlist_append_items l s : zlist_items (zlist_append l s) = zlist_items l ++ [s];
  zlist_size_items l : zlist_size l = length (zlist_items l);
  zlist_walks : walks zlist_items zlist_rest zlist_first zlist_next;
  zmsg_new_items : zmsg_items zmsg_new = [];
  zmsg_size_items m : zmsg_size m = length (zmsg_items m);
  zmsg_walks : walks zmsg_items zmsg_rest zmsg_first zmsg_next;
  zmq_msg_recv_bytes s d s' : zmq_msg_recv s = (Some d, s') -> bytes d;
  zmq_msg_recv_ok s d m r : inbox s = (d, m) :: r ->
    exists s', zmq_msg_recv s = (Some d, s') /\ inbox s' = r /\ zsock_rcvmore s' = m;
  zframe_recv_ok s d m r : inbox s = (d, m) :: r ->
    exists f s', zframe_recv s = (Some f, s') /\ zframe_data f = d /\ inbox s' = r /\ zsock_rcvmore s' = m;
  zmsg_recv_ok s ds d r : inbox s = map (fun x => (x, true)) ds ++ (d, false) :: r ->
    exists m s', zmsg_recv s = (Some m, s') /\ map zframe_data (zmsg_items m) = ds ++ [d] /\
      inbox s' = r /\ zsock_rcvmore s' = false;
  zmq_msg_send_ok d m s : outbox (zmq_msg_send d m s) = outbox s ++ [(d, m)];
  zmq_send_ok d m s : outbox (zmq_send d m s) = outbox s ++ [(d, m)];
  zframe_send_ok f m s : outbox (zframe_send (Some f) m s) = outbox s ++ [(zframe_data f, m)];
  zframe_dup_ok f : exists g, zframe_dup (Some f) = Some g /\ zframe_data g = zframe_data f;
  zmq_msg_recv_keeps s : zsock_type (snd (zmq_msg_recv s)) = zsock_type s /\ outbox (snd (zmq_msg_recv s)) = outbox s;
  zframe_recv_keeps s : zsock_type (snd (zframe_recv s)) = zsock_type s /\ outbox (snd (zframe_recv s)) = outbox s;
  zmsg_recv_keeps s : zsock_type (snd (zmsg_recv s)) = zsock_type s /\ outbox (snd (zmsg_recv s)) = outbox s;
  zmq_msg_send_keeps d m s : zsock_type (zmq_msg_send d m s) = zsock_type s /\ inbox (zmq_msg_send d m s) = inbox s;
  zmq_send_keeps d m s : zsock_type (zmq_send d m s) = zsock_type s /\ inbox (zmq_send d m s) = inbox s;
  zframe_send_keeps f m s : zsock_type (zframe_send f m s) = zsock_type s /\ inbox (zframe_send f m s) = inbox s }.

(** What a receiver and a sender leave alone. *)
Definition received `{CzmqLaws} (s s' : zsock) : Prop := zsock_type s' = zsock_type s /\ outbox s' = outbox s.
Definition sent_on `{CzmqLaws} (s s' : zsock) : Prop := zsock_type s' = zsock_type s /\ inbox s' = inbox s.

#[export] Instance received_preorder `{CzmqLaws} : PreOrder received.
Proof. split; [done|]. intros s1 s2 s3 [] []. split; congruence. Qed.
#[export] Instance sent_on_preorder `{CzmqLaws} : PreOrder sent_on.
Proof. split; [done|]. intros s1 s2 s3 [] []. split; congruence. Qed.

(** Allocations succeed. *)
Class CzmqMemory `{Czmq} : Prop := {
  malloc_ok n : malloc n = true;
  zmq_msg_init_size_ok n : exists b, zmq_msg_init_size n = Some b /\ length b = n;
  zchunk_new_ok d : exists c, zchunk_new d = Some c /\ zchunk_data c = d }.

(** [zsock_events & ZMQ_POLLIN]: whether a message waits. *)
Class CzmqPoll `{Czmq} := { zsock_pollin : zsock -> bool }.

(** ** An implementation by lists *)
Module Queue.

(** A container: its contents and those after the cursor. *)
Definition cur_first {A} (l : list A * list A) : option A * (list A * list A) :=
  (head (fst l), (fst l, tail (fst l))).
Definition cur_next {A} (l : list A * list A) : option A * (list A * list A) :=
  (head (snd l), (fst l, tail (snd l))).

Lemma cur_walks {A} : walks (@fst (list A) (list A)) snd cur_first cur_next.
Proof.
  constructor; unfold cur_first, cur_next.
  - intros l. eexists. done.
  - intros [l r] x xs E. simpl in *. subst. eexists. done.
  - intros [l r] E. simpl in *. subst. eexists. done.
Qed.

Record qsock := QSock {
  q_type : Z; q_in : list (list Z * bool); q_more : bool; q_out : list (list Z * bool) }.

(** What waits is octets. *)
Definition octets (f : list Z * bool) : list Z * bool := (map u8 (fst f), snd f).

Definition q_recv (s : qsock) : option (list Z) * qsock :=
  match map octets (q_in s) with
  | [] => (None, s)
  | (d, m) :: r => (Some d, QSock (q_type s) r m (q_out s))
  end.

Fixpoint q_message (q : list (list Z * bool)) : list (list Z) * list (list Z * bool) :=
  match q with
  | [] => ([], [])
  | (d, true) :: r => let '(ds, r') := q_message r in (d :: ds, r')
  | (d, false) :: r => ([d], r)
  end.

Definition q_recv_msg (s : qsock) : option (list (list Z) * list (list Z)) * qsock :=
  let '(ds, r) := q_message (map octets (q_in s)) in
  (Some (ds, ds), QSock (q_type s) r false (q_out s)).

Definition q_send (d : list Z) (m : bool) (s : qsock) : qsock :=
  QSock (q_type s) (q_in s) (q_more s) (q_out s ++ [(d, m)]).

#[export] Instance queue_czmq : Czmq := {
  zframe := list Z; zchunk := list Z;
  zlist := list (list Z) * list (list Z); zmsg := list (list Z) * list (list Z);
  zsock := qsock;
  zframe_recv := q_recv;
  zframe_send f m s := match f with Some d => q_send d m s | None => s end;
  zframe_dup f := f;
  zchunk_new := Some; zchunk_data c := c;
  zlist_new := ([], []); zlist_append l x := (fst l ++ [x], snd l);
  zlist_size l := length (fst l); zlist_first := cur_first; zlist_next := cur_next;
  zmsg_new := ([], []); zmsg_recv := q_recv_msg; zmsg_size m := length (fst m);
  zmsg_first := cur_first; zmsg_next := cur_next;
  zsock_type := q_type; zsock_rcvmore := q_more;
  zmq_msg_recv := q_recv; zmq_msg_init_size n := Some (replicate n 0);
  zmq_msg_send := q_send; zmq_send := q_send;
  malloc _ := true }.

Lemma octets_octets q : map octets (map octets q) = map octets q.
Proof.
  rewrite map_map. apply map_ext. intros [d m]. unfold octets. cbn [fst snd]. f_equal. rewrite map_map.
  apply map_ext. intros b. unfold u8, uwrap. apply Z.mod_mod. done.
Qed.

Lemma q_message_app ds d r : q_message (map (fun x => (x, true)) ds ++ (d, false) :: r) = (ds ++ [d], r).
Proof. induction ds as [|x ds IH]; [done|]. cbn. by rewrite IH. Qed.

Lemma octets_inv q d m r : map octets q = (d, m) :: r -> map octets r = r.
Proof.
  destruct q as [|f q]; [done|]. cbn [map]. intros H. assert (map octets q = r) as <- by congruence.
  apply octets_octets.
Qed.

Lemma octets_tail q l d m r : map octets q = l ++ (d, m) :: r -> map octets r = r.
Proof.
  intros H. assert (map octets (l ++ (d, m) :: r) = l ++ (d, m) :: r) as E by (rewrite <- H; apply octets_octets).
  rewrite map_app in E. cbn [map] in E. apply app_inj_1 in E; [|by rewrite length_map]. destruct E as [_ E]. congruence.
Qed.

Lemma q_recv_bytes s d s' : q_recv s = (Some d, s') -> bytes d.
Proof.
  unfold q_recv. destruct (q_in s) as [|[x m] q]; [done|]. intros [= <- _]. unfold bytes.
  apply Forall_map, Forall_true. intros b. apply u8_byte.
Qed.

Lemma q_recv_ok s d m r : map octets (q_in s) = (d, m) :: r ->
  exists s', q_recv s = (Some d, s') /\ map octets (q_in s') = r /\ q_more s' = m.
Proof.
  intros H. unfold q_recv. rewrite H. eexists. split; [done|]. split; [|done]. by eapply octets_inv.
Qed.

Lemma q_recv_frame_ok s d m r : map octets (q_in s) = (d, m) :: r ->
  exists f s', q_recv s = (Some f, s') /\ f = d /\ map octets (q_in s') = r /\ q_more s' = m.
Proof. intros (s' & E & H)%q_recv_ok. exists d, s'. auto. Qed.

Lemma q_recv_msg_ok s ds d r : map octets (q_in s) = map (fun x => (x, true)) ds ++ (d, false) :: r ->
  exists m s', q_recv_msg s = (Some m, s') /\ map (fun f => f) (fst m) = ds ++ [d] /\
    map octets (q_in s') = r /\ q_more s' = false.
Proof.
  intros H. unfold q_recv_msg. rewrite H, q_message_app. do 2 eexists. split; [done|]. cbn [fst q_in q_more].
  rewrite map_id. split; [done|]. split; [|done]. by eapply octets_tail.
Qed.

Lemma q_recv_keeps s : q_type (snd (q_recv s)) = q_type s /\ q_out (snd (q_recv s)) = q_out s.
Proof. unfold q_recv. by destruct (map octets (q_in s)) as [|[d m] r]. Qed.

Lemma q_recv_msg_keeps s : q_type (snd (q_recv_msg s)) = q_type s /\ q_out (snd (q_recv_msg s)) = q_out s.
Proof. unfold q_recv_msg. by destruct (q_message (map octets (q_in s))) as [ds r]. Qed.

Lemma q_send_keeps f m s :
  q_type (match f with Some d => q_send d m s | None => s end) = q_type s /\
  map octets (q_in (match f with Some d => q_send d m s | None => s end)) = map octets (q_in s).
Proof. by destruct f. Qed.

#[export] Instance queue_laws : CzmqLaws := {
  zframe_data f := f; zlist_items := fst; zlist_rest := snd; zmsg_items := fst; zmsg_rest := snd;
  inbox s := map octets (q_in s); outbox := q_out;
  zlist_new_items := eq_refl; zlist_append_items l s := eq_refl; zlist_size_items l := eq_refl;
  zlist_walks := cur_walks; zmsg_new_items := eq_refl; zmsg_size_items m := eq_refl; zmsg_walks := cur_walks;
  zmq_msg_recv_bytes := q_recv_bytes; zmq_msg_recv_ok := q_recv_ok; zframe_recv_ok := q_recv_frame_ok;
  zmsg_recv_ok := q_recv_msg_ok; zmq_msg_send_ok d m s := eq_refl; zmq_send_ok d m s := eq_refl;
  zframe_send_ok f m s := eq_refl; zframe_dup_ok f := ex_intro _ f (conj eq_refl eq_refl);
  zmq_msg_recv_keeps := q_recv_keeps; zframe_recv_keeps := q_recv_keeps; zmsg_recv_keeps := q_recv_msg_keeps;
  zmq_msg_send_keeps d := q_send_keeps (Some d); zmq_send_keeps d := q_send_keeps (Some d);
  zframe_send_keeps := q_send_keeps }.

#[export] Instance queue_memory : CzmqMemory.
Proof.
  split; [done| |].
  - intros n. eexists. split; [done|]. apply length_replicate.
  - intros d. by eexists.
Qed.

#[export] Instance queue_poll : CzmqPoll := { zsock_pollin s := match q_in s with [] => false | _ => true end }.

End Queue.
