(* ===== verification/WapProto.v ===== *)
(** src/ipc/wap_proto.c: the codec of the wallet access protocol.  The struct
    [wap_proto_t], the macros that read and write a frame, [wap_proto_recv],
    [wap_proto_send], the accessors of the fields, and the grammar of the
    messages as the head of wap_proto.h documents it.

    The frame that is read or written is a list of octets and [needle] an
    offset into it; [ceiling] is the length of the frame.  Both fields point
    into a frame that is closed when the function returns, so they are part
    of the state of the two functions and not of the message. *)

From S2P Require Import Prelude Limbs Bytes Words Memory Czmq.

(** ** Message identifiers *)
#[global] Abbreviation WAP_PROTO_OPEN := 1 (only parsing).
#[global] Abbreviation WAP_PROTO_OPEN_OK := 2 (only parsing).
#[global] Abbreviation WAP_PROTO_BLOCKS := 3 (only parsing).
#[global] Abbreviation WAP_PROTO_BLOCKS_OK := 4 (only parsing).
#[global] Abbreviation WAP_PROTO_PUT := 5 (only parsing).
#[global] Abbreviation WAP_PROTO_PUT_OK := 6 (only parsing).
#[global] Abbreviation WAP_PROTO_OUTPUT_INDEXES := 7 (only parsing).
#[global] Abbreviation WAP_PROTO_OUTPUT_INDEXES_OK := 8 (only parsing).
#[global] Abbreviation WAP_PROTO_RANDOM_OUTS := 9 (only parsing).
#[global] Abbreviation WAP_PROTO_RANDOM_OUTS_OK := 10 (only parsing).
#[global] Abbreviation WAP_PROTO_GET_HEIGHT := 11 (only parsing).
#[global] Abbreviation WAP_PROTO_GET_HEIGHT_OK := 12 (only parsing).
#[global] Abbreviation WAP_PROTO_GET := 13 (only parsing).
#[global] Abbreviation WAP_PROTO_GET_OK := 14 (only parsing).
#[global] Abbreviation WAP_PROTO_SAVE_BC := 15 (only parsing).
#[global] Abbreviation WAP_PROTO_SAVE_BC_OK := 16 (only parsing).
#[global] Abbreviation WAP_PROTO_START := 17 (only parsing).
#[global] Abbreviation WAP_PROTO_START_OK := 18 (only parsing).
#[global] Abbreviation WAP_PROTO_GET_INFO := 19 (only parsing).
#[global] Abbreviation WAP_PROTO_GET_INFO_OK := 20 (only parsing).
#[global] Abbreviation WAP_PROTO_GET_PEER_LIST := 21 (only parsing).
#[global] Abbreviation WAP_PROTO_GET_PEER_LIST_OK := 22 (only parsing).
#[global] Abbreviation WAP_PROTO_GET_MINING_STATUS := 23 (only parsing).
#[global] Abbreviation WAP_PROTO_GET_MINING_STATUS_OK := 24 (only parsing).
#[global] Abbreviation WAP_PROTO_SET_LOG_HASH_RATE := 25 (only parsing).
#[global] Abbreviation WAP_PROTO_SET_LOG_HASH_RATE_OK := 26 (only parsing).
#[global] Abbreviation WAP_PROTO_SET_LOG_LEVEL := 27 (only parsing).
#[global] Abbreviation WAP_PROTO_SET_LOG_LEVEL_OK := 28 (only parsing).
#[global] Abbreviation WAP_PROTO_START_SAVE_GRAPH := 29 (only parsing).
#[global] Abbreviation WAP_PROTO_START_SAVE_GRAPH_OK := 30 (only parsing).
#[global] Abbreviation WAP_PROTO_STOP_SAVE_GRAPH := 31 (only parsing).
#[global] Abbreviation WAP_PROTO_STOP_SAVE_GRAPH_OK := 32 (only parsing).
#[global] Abbreviation WAP_PROTO_GET_BLOCK_HASH := 33 (only parsing).
#[global] Abbreviation WAP_PROTO_GET_BLOCK_HASH_OK := 34 (only parsing).
#[global] Abbreviation WAP_PROTO_GET_BLOCK_TEMPLATE := 35 (only parsing).
#[global] Abbreviation WAP_PROTO_GET_BLOCK_TEMPLATE_OK := 36 (only parsing).
#[global] Abbreviation WAP_PROTO_STOP := 37 (only parsing).
#[global] Abbreviation WAP_PROTO_STOP_OK := 38 (only parsing).
#[global] Abbreviation WAP_PROTO_CLOSE := 39 (only parsing).
#[global] Abbreviation WAP_PROTO_CLOSE_OK := 40 (only parsing).
#[global] Abbreviation WAP_PROTO_PING := 41 (only parsing).
#[global] Abbreviation WAP_PROTO_PING_OK := 42 (only parsing).
#[global] Abbreviation WAP_PROTO_ERROR := 43 (only parsing).

(** ** The struct

    The fields of one C type are a function of the field's name. *)
Inductive number :=                                      (* uint64_t *)
| start_height | status | curr_height | outs_count | height | thread_count | target_height | difficulty
| tx_count | tx_pool_size | alt_blocks_count | outgoing_connections_count | incoming_connections_count
| white_peerlist_size | grey_peerlist_size | speed | reserve_size | reserved_offset.
Inductive octet := active | visible | level.             (* byte *)
Inductive chunk_field := tx_as_hex | tx_id | tx_data | address | hash | prev_hash | block_template_blob.
Inductive frame_field := o_indexes | amounts | random_outputs | white_list | gray_list.
Inductive string_field := identity | reason.             (* char [256] *)

#[global] Instance number_eq_dec : EqDecision number.
Proof. solve_decision. Defined.
#[global] Instance octet_eq_dec : EqDecision octet.
Proof. solve_decision. Defined.
#[global] Instance chunk_field_eq_dec : EqDecision chunk_field.
Proof. solve_decision. Defined.
#[global] Instance frame_field_eq_dec : EqDecision frame_field.
Proof. solve_decision. Defined.
#[global] Instance string_field_eq_dec : EqDecision string_field.
Proof. solve_decision. Defined.

(** Assignment to one field of a type. *)
Definition upd {K A} `{EqDecision K} (f : K -> A) (k : K) (a : A) : K -> A :=
  fun j => if decide (j = k) then a else f j.

Section Codec.
Context `{Czmq}.

Record wap_proto_t := WapProto {
  routing_id : option zframe;
  id : Z;
  strings : string_field -> list Z;
  block_ids : option zlist;
  numbers : number -> Z;
  block_data : option zmsg;
  chunks : chunk_field -> option zchunk;
  frames : frame_field -> option zframe;
  octets : octet -> Z }.

Definition with_routing_id r (p : wap_proto_t) : wap_proto_t :=
  WapProto r (id p) (strings p) (block_ids p) (numbers p) (block_data p) (chunks p) (frames p) (octets p).
Definition with_id i (p : wap_proto_t) : wap_proto_t :=
  WapProto (routing_id p) i (strings p) (block_ids p) (numbers p) (block_data p) (chunks p) (frames p) (octets p).
Definition with_string s v (p : wap_proto_t) : wap_proto_t :=
  WapProto (routing_id p) (id p) (upd (strings p) s v) (block_ids p) (numbers p) (block_data p) (chunks p) (frames p) (octets p).
Definition with_block_ids l (p : wap_proto_t) : wap_proto_t :=
  WapProto (routing_id p) (id p) (strings p) l (numbers p) (block_data p) (chunks p) (frames p) (octets p).
Definition with_number n v (p : wap_proto_t) : wap_proto_t :=
  WapProto (routing_id p) (id p) (strings p) (block_ids p) (upd (numbers p) n v) (block_data p) (chunks p) (frames p) (octets p).
Definition with_block_data m (p : wap_proto_t) : wap_proto_t :=
  WapProto (routing_id p) (id p) (strings p) (block_ids p) (numbers p) m (chunks p) (frames p) (octets p).
Definition with_chunk c v (p : wap_proto_t) : wap_proto_t :=
  WapProto (routing_id p) (id p) (strings p) (block_ids p) (numbers p) (block_data p) (upd (chunks p) c v) (frames p) (octets p).
Definition with_frame f v (p : wap_proto_t) : wap_proto_t :=
  WapProto (routing_id p) (id p) (strings p) (block_ids p) (numbers p) (block_data p) (chunks p) (upd (frames p) f v) (octets p).
Definition with_octet o v (p : wap_proto_t) : wap_proto_t :=
  WapProto (routing_id p) (id p) (strings p) (block_ids p) (numbers p) (block_data p) (chunks p) (frames p) (upd (octets p) o v).

(** [zmalloc] clears the memory. *)
Definition wap_proto_new : wap_proto_t :=
  WapProto None 0 (fun _ => replicate 256 0) None (fun _ => 0) None (fun _ => None) (fun _ => None) (fun _ => 0).

(** ** Strings in memory *)

(** The characters before the terminator. *)
Fixpoint cstr (buf : list Z) : list Z :=
  match buf with
  | [] => []
  | b :: buf' => if b =? 0 then [] else b :: cstr buf'
  end.

(** [strlen], which reads past a buffer without a terminator. *)
Fixpoint strlen (buf : list Z) : outcome nat :=
  match buf with
  | [] => Fault OutOfBounds
  | b :: buf' => if b =? 0 then Ret O else let* n := strlen buf' in Ret (S n)
  end.

(** ** Reading a frame

    A reader runs on the frame, with the message, the needle and the socket
    as its state; [None] is [goto malformed]. *)
Record rstate := RState { r_self : wap_proto_t; r_needle : nat; r_input : zsock }.

Definition reader A := list Z -> rstate -> outcome (option A * rstate).

Definition rret {A} (a : A) : reader A := fun _ st => Ret (Some a, st).
Definition malformed {A} : reader A := fun _ st => Ret (None, st).
Definition rbind {A B} (m : reader A) (k : A -> reader B) : reader B := fun data st =>
  let* '(a, st') := m data st in
  match a with Some a => k a data st' | None => Ret (None, st') end.
Definition lift {A} (m : outcome A) : reader A := fun _ st => let* a := m in Ret (Some a, st).
Definition modify (f : wap_proto_t -> wap_proto_t) : reader unit := fun _ st =>
  Ret (Some tt, RState (f (r_self st)) (r_needle st) (r_input st)).

End Codec.

Notation "'let?' x := m 'in' k" := (rbind m (fun x => k))
  (at level 10, x name, m at level 100, k at level 200,
   format "'[v' 'let?'  x  :=  m  'in' '/' k ']'") : c_scope.
Notation "m ';;;' k" := (rbind m (fun _ => k)) (at level 100, k at level 200, right associativity) : c_scope.

Section Readers.
Context `{Czmq}.

(** The check all the GET_ macros begin with: [n] octets left; reads them and
    advances the needle. *)
Definition GET_OCTETS (n : nat) : reader (list Z) := fun data st =>
  if (r_needle st + n <=? length data)%nat
  then let* bs := read (r_needle st) n data in
       Ret (Some bs, RState (r_self st) (r_needle st + n) (r_input st))
  else Ret (None, st).

Definition GET_NUMBER1 : reader Z :=
  let? n := GET_OCTETS 1 in
  lift (index n 0).

Definition GET_NUMBER2 : reader Z :=
  let? n := GET_OCTETS 2 in
  lift (let* n0 := index n 0 in
        let* n1 := index n 1 in
        Ret (Z.shiftl n0 8 + n1)).

Definition GET_NUMBER4 : reader Z :=
  let? n := GET_OCTETS 4 in
  lift (let* n0 := index n 0 in
        let* n1 := index n 1 in
        let* n2 := index n 2 in
        let* n3 := index n 3 in
        Ret (Z.shiftl n0 24 + Z.shiftl n1 16 + Z.shiftl n2 8 + n3)).

Definition GET_NUMBER8 : reader Z :=
  let? n := GET_OCTETS 8 in
  lift (let* n0 := index n 0 in
        let* n1 := index n 1 in
        let* n2 := index n 2 in
        let* n3 := index n 3 in
        let* n4 := index n 4 in
        let* n5 := index n 5 in
        let* n6 := index n 6 in
        let* n7 := index n 7 in
        Ret (Z.shiftl n0 56 + Z.shiftl n1 48 + Z.shiftl n2 40 + Z.shiftl n3 32
             + Z.shiftl n4 24 + Z.shiftl n5 16 + Z.shiftl n6 8 + n7)).

(** Into the buffer [host], of fixed size: the characters and the terminator. *)
Definition GET_STRING (host : list Z) : reader (list Z) :=
  let? string_size := GET_NUMBER1 in
  let? bs := GET_OCTETS (Z.to_nat string_size) in
  lift (let* host := write 0 bs host in write (length bs) [0] host).

(** Into a new buffer. *)
Definition GET_LONGSTR : reader (list Z) :=
  let? string_size := GET_NUMBER4 in
  let? bs := GET_OCTETS (Z.to_nat string_size) in
  if malloc (S (length bs)) then rret (bs ++ [0]) else lift (Fault NullPointer).

(** ** The fields, as the cases of [wap_proto_recv] read them *)

Definition self_number8 (n : number) : reader unit := let? v := GET_NUMBER8 in modify (with_number n v).
Definition self_number2 (n : number) : reader unit := let? v := GET_NUMBER2 in modify (with_number n v).
Definition self_number1 (o : octet) : reader unit := let? v := GET_NUMBER1 in modify (with_octet o v).

Definition self_string (s : string_field) : reader unit := fun data st =>
  (let? v := GET_STRING (strings (r_self st) s) in modify (with_string s v)) data st.

Definition read_protocol (junk : list Z) : reader unit :=
  let? protocol := GET_STRING junk in
  if bool_decide (cstr protocol = [87; 65; 80]) then rret tt else malformed.

Definition read_version : reader unit :=
  let? version := GET_NUMBER2 in
  if negb (version =? 1) then malformed else rret tt.

Definition self_chunk (c : chunk_field) : reader unit :=
  let? chunk_size := GET_NUMBER4 in
  let? bs := GET_OCTETS (Z.to_nat chunk_size) in
  modify (with_chunk c (zchunk_new bs)).

Definition self_frame (f : frame_field) : reader unit := fun data st =>
  if negb (zsock_rcvmore (r_input st)) then Ret (None, st)
  else let '(fr, input) := zframe_recv (r_input st) in
       Ret (Some tt, RState (with_frame f fr (r_self st)) (r_needle st) input).

Definition self_block_data : reader unit := fun data st =>
  if zsock_rcvmore (r_input st)
  then let '(m, input) := zmsg_recv (r_input st) in
       Ret (Some tt, RState (with_block_data m (r_self st)) (r_needle st) input)
  else Ret (Some tt, RState (with_block_data (Some zmsg_new) (r_self st)) (r_needle st) (r_input st)).

Definition append_block_id (s : list Z) (p : wap_proto_t) : wap_proto_t :=
  with_block_ids (option_map (fun l => zlist_append l (cstr s)) (block_ids p)) p.

(** [while (list_size--)], at most [fuel] turns. *)
Fixpoint block_ids_loop (fuel : nat) (list_size : Z) : reader unit :=
  if list_size =? 0 then rret tt
  else match fuel with
       | O => lift (Fault Diverges)
       | S fuel' =>
           let? string := GET_LONGSTR in
           modify (append_block_id string) ;;;
           block_ids_loop fuel' (list_size - 1)
       end.

Definition self_block_ids : reader unit := fun data =>
  (let? list_size := GET_NUMBER4 in
   modify (with_block_ids (Some zlist_new)) ;;;
   block_ids_loop (S (length data)) list_size) data.

(** The switch of [wap_proto_recv]. *)
Definition recv_switch (junk : list Z) (id : Z) : reader unit :=
  let break := rret tt in
  match id with
  | WAP_PROTO_OPEN => read_protocol junk ;;; read_version ;;; self_string identity ;;; break
  | WAP_PROTO_OPEN_OK => break
  | WAP_PROTO_BLOCKS => self_block_ids ;;; self_number8 start_height ;;; break
  | WAP_PROTO_BLOCKS_OK =>
      self_number8 status ;;; self_number8 start_height ;;; self_number8 curr_height ;;; self_block_data ;;; break
  | WAP_PROTO_PUT => self_chunk tx_as_hex ;;; break
  | WAP_PROTO_PUT_OK => self_number8 status ;;; break
  | WAP_PROTO_OUTPUT_INDEXES => self_chunk tx_id ;;; break
  | WAP_PROTO_OUTPUT_INDEXES_OK => self_number8 status ;;; self_frame o_indexes ;;; break
  | WAP_PROTO_RANDOM_OUTS => self_number8 outs_count ;;; self_frame amounts ;;; break
  | WAP_PROTO_RANDOM_OUTS_OK => self_number8 status ;;; self_frame random_outputs ;;; break
  | WAP_PROTO_GET_HEIGHT => break
  | WAP_PROTO_GET_HEIGHT_OK => self_number8 status ;;; self_number8 height ;;; break
  | WAP_PROTO_GET => self_chunk tx_id ;;; break
  | WAP_PROTO_GET_OK => self_chunk tx_data ;;; break
  | WAP_PROTO_SAVE_BC => break
  | WAP_PROTO_SAVE_BC_OK => self_number8 status ;;; break
  | WAP_PROTO_START => self_chunk address ;;; self_number8 thread_count ;;; break
  | WAP_PROTO_START_OK => self_number8 status ;;; break
  | WAP_PROTO_GET_INFO => break
  | WAP_PROTO_GET_INFO_OK =>
      self_number8 status ;;; self_number8 height ;;; self_number8 target_height ;;; self_number8 difficulty ;;;
      self_number8 tx_count ;;; self_number8 tx_pool_size ;;; self_number8 alt_blocks_count ;;;
      self_number8 outgoing_connections_count ;;; self_number8 incoming_connections_count ;;;
      self_number8 white_peerlist_size ;;; self_number8 grey_peerlist_size ;;; break
  | WAP_PROTO_GET_PEER_LIST => break
  | WAP_PROTO_GET_PEER_LIST_OK => self_number8 status ;;; self_frame white_list ;;; self_frame gray_list ;;; break
  | WAP_PROTO_GET_MINING_STATUS => break
  | WAP_PROTO_GET_MINING_STATUS_OK =>
      self_number8 status ;;; self_number1 active ;;; self_number8 speed ;;; self_number8 thread_count ;;;
      self_chunk address ;;; break
  | WAP_PROTO_SET_LOG_HASH_RATE => self_number1 visible ;;; break
  | WAP_PROTO_SET_LOG_HASH_RATE_OK => self_number8 status ;;; break
  | WAP_PROTO_SET_LOG_LEVEL => self_number1 level ;;; break
  | WAP_PROTO_SET_LOG_LEVEL_OK => self_number8 status ;;; break
  | WAP_PROTO_START_SAVE_GRAPH => break
  | WAP_PROTO_START_SAVE_GRAPH_OK => self_number8 status ;;; break
  | WAP_PROTO_STOP_SAVE_GRAPH => break
  | WAP_PROTO_STOP_SAVE_GRAPH_OK => self_number8 status ;;; break
  | WAP_PROTO_GET_BLOCK_HASH => self_number8 height ;;; break
  | WAP_PROTO_GET_BLOCK_HASH_OK => self_number8 status ;;; self_chunk hash ;;; break
  | WAP_PROTO_GET_BLOCK_TEMPLATE => self_number8 reserve_size ;;; self_chunk address ;;; break
  | WAP_PROTO_GET_BLOCK_TEMPLATE_OK =>
      self_number8 status ;;; self_number8 reserved_offset ;;; self_number8 height ;;; self_number8 difficulty ;;;
      self_chunk prev_hash ;;; self_chunk block_template_blob ;;; break
  | WAP_PROTO_STOP => break
  | WAP_PROTO_STOP_OK => break
  | WAP_PROTO_CLOSE => break
  | WAP_PROTO_CLOSE_OK => break
  | WAP_PROTO_PING => break
  | WAP_PROTO_PING_OK => break
  | WAP_PROTO_ERROR => self_number2 status ;;; self_string reason ;;; break
  | _ => malformed
  end.

(** [wap_proto_recv]: the return code, the message and the socket.  [junk] is
    what the local array [protocol] holds before it is filled. *)
Definition recv_frame (junk : list Z) : reader unit :=
  let? signature := GET_NUMBER2 in
  if negb (signature =? Z.lor 0xAAA0 0) then malformed
  else
    let? i := GET_NUMBER1 in
    modify (with_id i) ;;;
    recv_switch junk i.

Definition recv_data (junk : list Z) (self : wap_proto_t) (input : zsock) : outcome (Z * wap_proto_t * zsock) :=
  let '(frame, input) := zmq_msg_recv input in
  match frame with
  | None => Ret (-1, self, input)
  | Some data =>
      let* '(r, st) := recv_frame junk data (RState self 0 input) in
      Ret (match r with Some _ => 0 | None => -1 end, r_self st, r_input st)
  end.

Definition wap_proto_recv (junk : list Z) (self : wap_proto_t) (input : zsock) : outcome (Z * wap_proto_t * zsock) :=
  if zsock_type input =? ZMQ_ROUTER
  then let '(rid, input) := zframe_recv input in
       let self := with_routing_id rid self in
       if negb (match rid with Some _ => true | None => false end) || negb (zsock_rcvmore input)
       then Ret (-1, self, input)
       else recv_data junk self input
  else recv_data junk self input.

End Readers.

Section Writers.
Context `{Czmq}.

(** ** Writing a frame

    The state of the second half of [wap_proto_send]: the message, the needle,
    the frame, [nbr_frames] and [have_block_data]. *)
Record wstate := WState {
  w_self : wap_proto_t; w_needle : nat; w_frame : list Z; w_nbr_frames : Z; w_have_block_data : bool }.

Definition writer := wstate -> outcome wstate.

Definition wseq (m k : writer) : writer := fun st => bind (m st) k.
Definition wskip : writer := fun st => Ret st.

Definition PUT_OCTETS (bs : list Z) : writer := fun st =>
  let* frame := write (w_needle st) bs (w_frame st) in
  Ret (WState (w_self st) (w_needle st + length bs) frame (w_nbr_frames st) (w_have_block_data st)).

Definition PUT_NUMBER1 (host : Z) : writer := PUT_OCTETS [u8 host].

Definition PUT_NUMBER2 (host : Z) : writer :=
  PUT_OCTETS [Z.land (Z.shiftr host 8) 255; Z.land host 255].

Definition PUT_NUMBER4 (host : Z) : writer :=
  PUT_OCTETS [Z.land (Z.shiftr host 24) 255; Z.land (Z.shiftr host 16) 255; Z.land (Z.shiftr host 8) 255; Z.land host 255].

Definition PUT_NUMBER8 (host : Z) : writer :=
  PUT_OCTETS [Z.land (Z.shiftr host 56) 255; Z.land (Z.shiftr host 48) 255; Z.land (Z.shiftr host 40) 255;
              Z.land (Z.shiftr host 32) 255; Z.land (Z.shiftr host 24) 255; Z.land (Z.shiftr host 16) 255;
              Z.land (Z.shiftr host 8) 255; Z.land host 255].

(** [host] is the memory the string is in. *)
Definition PUT_STRING (host : list Z) : writer := fun st =>
  let* string_size := strlen host in
  let* st := PUT_NUMBER1 (Z.of_nat string_size) st in
  let* bs := read 0 string_size host in
  PUT_OCTETS bs st.

(** [host] is an item of a [zlist]: a C string. *)
Definition PUT_LONGSTR (host : list Z) : writer := fun st =>
  let* st := PUT_NUMBER4 (Z.of_nat (length host)) st in
  PUT_OCTETS host st.

(** ** The fields, as the cases of [wap_proto_send] write them *)

Definition put_number8 (n : number) : writer := fun st => PUT_NUMBER8 (numbers (w_self st) n) st.
Definition put_number2 (n : number) : writer := fun st => PUT_NUMBER2 (numbers (w_self st) n) st.
Definition put_number1 (o : octet) : writer := fun st => PUT_NUMBER1 (octets (w_self st) o) st.
Definition put_string (s : string_field) : writer := fun st => PUT_STRING (strings (w_self st) s) st.
Definition put_protocol : writer := PUT_STRING [87; 65; 80; 0].
Definition put_version : writer := PUT_NUMBER2 1.

Definition put_chunk (c : chunk_field) : writer := fun st =>
  match chunks (w_self st) c with
  | Some k => let* st := PUT_NUMBER4 (Z.of_nat (length (zchunk_data k))) st in PUT_OCTETS (zchunk_data k) st
  | None => PUT_NUMBER4 0 st
  end.

Definition put_block_ids : writer := fun st =>
  match block_ids (w_self st) with
  | Some l =>
      let* st := PUT_NUMBER4 (Z.of_nat (zlist_size l)) st in
      let '(cur, l0) := zlist_first l in
      let* '(l', st) := walk zlist_next PUT_LONGSTR (zlist_size l) cur l0 st in
      Ret (WState (with_block_ids (Some l') (w_self st)) (w_needle st) (w_frame st) (w_nbr_frames st) (w_have_block_data st))
  | None => PUT_NUMBER4 0 st
  end.

(** [nbr_frames++] *)
Definition one_more_frame : writer := fun st =>
  Ret (WState (w_self st) (w_needle st) (w_frame st) (w_nbr_frames st + 1) (w_have_block_data st)).

Definition more_block_data : writer := fun st =>
  let n := match block_data (w_self st) with Some m => Z.of_nat (zmsg_size m) | None => 1 end in
  Ret (WState (w_self st) (w_needle st) (w_frame st) (w_nbr_frames st + n) true).

End Writers.

Notation "m '>>>' k" := (wseq m k) (at level 101, right associativity) : c_scope.

Section Send.
Context `{Czmq}.

(** The second switch of [wap_proto_send]. *)
Definition send_switch (id : Z) : writer :=
  let break := wskip in
  match id with
  | WAP_PROTO_OPEN => put_protocol >>> put_version >>> put_string identity >>> break
  | WAP_PROTO_BLOCKS => put_block_ids >>> put_number8 start_height >>> break
  | WAP_PROTO_BLOCKS_OK =>
      put_number8 status >>> put_number8 start_height >>> put_number8 curr_height >>> more_block_data >>> break
  | WAP_PROTO_PUT => put_chunk tx_as_hex >>> break
  | WAP_PROTO_PUT_OK => put_number8 status >>> break
  | WAP_PROTO_OUTPUT_INDEXES => put_chunk tx_id >>> break
  | WAP_PROTO_OUTPUT_INDEXES_OK => put_number8 status >>> one_more_frame >>> break
  | WAP_PROTO_RANDOM_OUTS => put_number8 outs_count >>> one_more_frame >>> break
  | WAP_PROTO_RANDOM_OUTS_OK => put_number8 status >>> one_more_frame >>> break
  | WAP_PROTO_GET_HEIGHT_OK => put_number8 status >>> put_number8 height >>> break
  | WAP_PROTO_GET => put_chunk tx_id >>> break
  | WAP_PROTO_GET_OK => put_chunk tx_data >>> break
  | WAP_PROTO_SAVE_BC_OK => put_number8 status >>> break
  | WAP_PROTO_START => put_chunk address >>> put_number8 thread_count >>> break
  | WAP_PROTO_START_OK => put_number8 status >>> break
  | WAP_PROTO_GET_INFO_OK =>
      put_number8 status >>> put_number8 height >>> put_number8 target_height >>> put_number8 difficulty >>>
      put_number8 tx_count >>> put_number8 tx_pool_size >>> put_number8 alt_blocks_count >>>
      put_number8 outgoing_connections_count >>> put_number8 incoming_connections_count >>>
      put_number8 white_peerlist_size >>> put_number8 grey_peerlist_size >>> break
  | WAP_PROTO_GET_PEER_LIST_OK => put_number8 status >>> one_more_frame >>> one_more_frame >>> break
  | WAP_PROTO_GET_MINING_STATUS_OK =>
      put_number8 status >>> put_number1 active >>> put_number8 speed >>> put_number8 thread_count >>>
      put_chunk address >>> break
  | WAP_PROTO_SET_LOG_HASH_RATE => put_number1 visible >>> break
  | WAP_PROTO_SET_LOG_HASH_RATE_OK => put_number8 status >>> break
  | WAP_PROTO_SET_LOG_LEVEL => put_number1 level >>> break
  | WAP_PROTO_SET_LOG_LEVEL_OK => put_number8 status >>> break
  | WAP_PROTO_START_SAVE_GRAPH_OK => put_number8 status >>> break
  | WAP_PROTO_STOP_SAVE_GRAPH_OK => put_number8 status >>> break
  | WAP_PROTO_GET_BLOCK_HASH => put_number8 height >>> break
  | WAP_PROTO_GET_BLOCK_HASH_OK => put_number8 status >>> put_chunk hash >>> break
  | WAP_PROTO_GET_BLOCK_TEMPLATE => put_number8 reserve_size >>> put_chunk address >>> break
  | WAP_PROTO_GET_BLOCK_TEMPLATE_OK =>
      put_number8 status >>> put_number8 reserved_offset >>> put_number8 height >>> put_number8 difficulty >>>
      put_chunk prev_hash >>> put_chunk block_template_blob >>> break
  | WAP_PROTO_ERROR => put_number2 status >>> put_string reason >>> break
  | _ => break
  end.

(** *** The size of the frame, the first switch

    The sizes the cases add up; the walk over [block_ids] moves the cursor of
    the list. *)
Definition sizer := wap_proto_t -> outcome (nat * wap_proto_t).

Definition plus (n : nat) : sizer := fun p => Ret (n, p).
Definition sadd (m k : sizer) : sizer := fun p =>
  let* '(a, p) := m p in let* '(b, p) := k p in Ret ((a + b)%nat, p).

Definition size_string (s : string_field) : sizer := fun p =>
  let* n := strlen (strings p s) in Ret ((1 + n)%nat, p).
Definition size_chunk (c : chunk_field) : sizer := fun p =>
  Ret ((4 + match chunks p c with Some k => length (zchunk_data k) | None => 0 end)%nat, p).
Definition size_block_ids : sizer := fun p =>
  match block_ids p with
  | Some l =>
      let '(cur, l0) := zlist_first l in
      let* '(l', n) := walk zlist_next (fun s n => Ret (n + (4 + length s))%nat) (zlist_size l) cur l0 4%nat in
      Ret (n, with_block_ids (Some l') p)
  | None => Ret (4%nat, p)
  end.

End Send.

Notation "m '<+>' k" := (sadd m k) (at level 60, right associativity) : c_scope.

Section Send2.
Context `{Czmq}.

Definition size_switch (id : Z) : sizer :=
  let break := plus 0 in
  match id with
  | WAP_PROTO_OPEN => plus (1 + 3) <+> plus 2 <+> size_string identity <+> break
  | WAP_PROTO_BLOCKS => size_block_ids <+> plus 8 <+> break
  | WAP_PROTO_BLOCKS_OK => plus 8 <+> plus 8 <+> plus 8 <+> break
  | WAP_PROTO_PUT => size_chunk tx_as_hex <+> break
  | WAP_PROTO_PUT_OK => plus 8 <+> break
  | WAP_PROTO_OUTPUT_INDEXES => size_chunk tx_id <+> break
  | WAP_PROTO_OUTPUT_INDEXES_OK => plus 8 <+> break
  | WAP_PROTO_RANDOM_OUTS => plus 8 <+> break
  | WAP_PROTO_RANDOM_OUTS_OK => plus 8 <+> break
  | WAP_PROTO_GET_HEIGHT_OK => plus 8 <+> plus 8 <+> break
  | WAP_PROTO_GET => size_chunk tx_id <+> break
  | WAP_PROTO_GET_OK => size_chunk tx_data <+> break
  | WAP_PROTO_SAVE_BC_OK => plus 8 <+> break
  | WAP_PROTO_START => size_chunk address <+> plus 8 <+> break
  | WAP_PROTO_START_OK => plus 8 <+> break
  | WAP_PROTO_GET_INFO_OK =>
      plus 8 <+> plus 8 <+> plus 8 <+> plus 8 <+> plus 8 <+> plus 8 <+> plus 8 <+> plus 8 <+> plus 8 <+> plus 8 <+>
      plus 8 <+> break
  | WAP_PROTO_GET_PEER_LIST_OK => plus 8 <+> break
  | WAP_PROTO_GET_MINING_STATUS_OK => plus 8 <+> plus 1 <+> plus 8 <+> plus 8 <+> size_chunk address <+> break
  | WAP_PROTO_SET_LOG_HASH_RATE => plus 1 <+> break
  | WAP_PROTO_SET_LOG_HASH_RATE_OK => plus 8 <+> break
  | WAP_PROTO_SET_LOG_LEVEL => plus 1 <+> break
  | WAP_PROTO_SET_LOG_LEVEL_OK => plus 8 <+> break
  | WAP_PROTO_START_SAVE_GRAPH_OK => plus 8 <+> break
  | WAP_PROTO_STOP_SAVE_GRAPH_OK => plus 8 <+> break
  | WAP_PROTO_GET_BLOCK_HASH => plus 8 <+> break
  | WAP_PROTO_GET_BLOCK_HASH_OK => plus 8 <+> size_chunk hash <+> break
  | WAP_PROTO_GET_BLOCK_TEMPLATE => plus 8 <+> size_chunk address <+> break
  | WAP_PROTO_GET_BLOCK_TEMPLATE_OK =>
      plus 8 <+> plus 8 <+> plus 8 <+> plus 8 <+> size_chunk prev_hash <+> size_chunk block_template_blob <+> break
  | WAP_PROTO_ERROR => plus 2 <+> size_string reason <+> break
  | _ => break
  end.

(** *** The frames after the first *)

(** [--nbr_frames? ZMQ_SNDMORE: 0] *)
Definition send_frame (p : wap_proto_t) (f : frame_field) (st : Z * zsock) : Z * zsock :=
  let '(nbr_frames, output) := st in
  let nbr_frames := nbr_frames - 1 in
  (nbr_frames, match frames p f with
               | Some fr => zframe_send (Some fr) (negb (nbr_frames =? 0)) output
               | None => zmq_send [] (negb (nbr_frames =? 0)) output
               end).

Definition send_fields (p : wap_proto_t) (st : Z * zsock) : Z * zsock :=
  let st := if id p =? WAP_PROTO_OUTPUT_INDEXES_OK then send_frame p o_indexes st else st in
  let st := if id p =? WAP_PROTO_RANDOM_OUTS then send_frame p amounts st else st in
  let st := if id p =? WAP_PROTO_RANDOM_OUTS_OK then send_frame p random_outputs st else st in
  if id p =? WAP_PROTO_GET_PEER_LIST_OK then send_frame p gray_list (send_frame p white_list st) else st.

Definition send_block_frame (fr : zframe) (st : Z * zsock) : outcome (Z * zsock) :=
  let '(nbr_frames, output) := st in
  let nbr_frames := nbr_frames - 1 in
  Ret (nbr_frames, zframe_send (Some fr) (negb (nbr_frames =? 0)) output).

Definition send_block_data (p : wap_proto_t) (st : Z * zsock) : outcome (wap_proto_t * zsock) :=
  match block_data p with
  | Some m =>
      let '(cur, m0) := zmsg_first m in
      let* '(m', st) := walk zmsg_next send_block_frame (zmsg_size m) cur m0 st in
      Ret (with_block_data (Some m') p, snd st)
  | None => Ret (p, zmq_send [] false (snd st))
  end.

(** [wap_proto_send]: the return code, the message and the socket. *)
Definition wap_proto_send (self : wap_proto_t) (output : zsock) : outcome (Z * wap_proto_t * zsock) :=
  let output := if zsock_type output =? ZMQ_ROUTER then zframe_send (routing_id self) true output else output in
  let* '(frame_size, self) := (plus (2 + 1) <+> size_switch (id self)) self in
  match zmq_msg_init_size frame_size with
  | None => Fault NullPointer
  | Some frame =>
      let* st := (PUT_NUMBER2 (Z.lor 0xAAA0 0) >>> PUT_NUMBER1 (id self) >>> send_switch (id self))
                   (WState self 0 frame 1 false) in
      let self := w_self st in
      let nbr_frames := w_nbr_frames st - 1 in
      let output := zmq_msg_send (w_frame st) (negb (nbr_frames =? 0)) output in
      let '(nbr_frames, output) := send_fields self (nbr_frames, output) in
      if w_have_block_data st
      then let* '(self, output) := send_block_data self (nbr_frames, output) in Ret (0, self, output)
      else Ret (0, self, output)
  end.

End Send2.
