(* ===== verification/WapGrammar.v ===== *)
(** The messages of the wallet access protocol as the head of wap_proto.h
    documents them, the octets and frames they are, what a message in memory
    holds of them, and the invariant of a message in memory.  The file
    WapSend shows that [wap_proto_send] writes this grammar and the file
    WapRecv that [wap_proto_recv] reads it. *)

From S2P Require Import Prelude Limbs Bytes Words Memory Czmq WapProto.

(** ** The grammar *)
Inductive field :=
| FProtocol                    (* string "WAP" *)
| FVersion                     (* number 2, 1 *)
| FNumber8 (n : number)
| FNumber2 (n : number)
| FNumber1 (o : octet)
| FString (s : string_field)
| FStrings                     (* block_ids *)
| FChunk (c : chunk_field)
| FFrame (f : frame_field)
| FMsg                         (* block_data, the frames that remain *).

#[global] Instance field_eq_dec : EqDecision field.
Proof. solve_decision. Defined.

Definition layout (id : Z) : option (list field) :=
  match id with
  | WAP_PROTO_OPEN => Some [FProtocol; FVersion; FString identity]
  | WAP_PROTO_OPEN_OK => Some []
  | WAP_PROTO_BLOCKS => Some [FStrings; FNumber8 start_height]
  | WAP_PROTO_BLOCKS_OK => Some [FNumber8 status; FNumber8 start_height; FNumber8 curr_height; FMsg]
  | WAP_PROTO_PUT => Some [FChunk tx_as_hex]
  | WAP_PROTO_PUT_OK => Some [FNumber8 status]
  | WAP_PROTO_OUTPUT_INDEXES => Some [FChunk tx_id]
  | WAP_PROTO_OUTPUT_INDEXES_OK => Some [FNumber8 status; FFrame o_indexes]
  | WAP_PROTO_RANDOM_OUTS => Some [FNumber8 outs_count; FFrame amounts]
  | WAP_PROTO_RANDOM_OUTS_OK => Some [FNumber8 status; FFrame random_outputs]
  | WAP_PROTO_GET_HEIGHT => Some []
  | WAP_PROTO_GET_HEIGHT_OK => Some [FNumber8 status; FNumber8 height]
  | WAP_PROTO_GET => Some [FChunk tx_id]
  | WAP_PROTO_GET_OK => Some [FChunk tx_data]
  | WAP_PROTO_SAVE_BC => Some []
  | WAP_PROTO_SAVE_BC_OK => Some [FNumber8 status]
  | WAP_PROTO_START => Some [FChunk address; FNumber8 thread_count]
  | WAP_PROTO_START_OK => Some [FNumber8 status]
  | WAP_PROTO_GET_INFO => Some []
  | WAP_PROTO_GET_INFO_OK =>
      Some [FNumber8 status; FNumber8 height; FNumber8 target_height; FNumber8 difficulty; FNumber8 tx_count;
            FNumber8 tx_pool_size; FNumber8 alt_blocks_count; FNumber8 outgoing_connections_count;
            FNumber8 incoming_connections_count; FNumber8 white_peerlist_size; FNumber8 grey_peerlist_size]
  | WAP_PROTO_GET_PEER_LIST => Some []
  | WAP_PROTO_GET_PEER_LIST_OK => Some [FNumber8 status; FFrame white_list; FFrame gray_list]
  | WAP_PROTO_GET_MINING_STATUS => Some []
  | WAP_PROTO_GET_MINING_STATUS_OK =>
      Some [FNumber8 status; FNumber1 active; FNumber8 speed; FNumber8 thread_count; FChunk address]
  | WAP_PROTO_SET_LOG_HASH_RATE => Some [FNumber1 visible]
  | WAP_PROTO_SET_LOG_HASH_RATE_OK => Some [FNumber8 status]
  | WAP_PROTO_SET_LOG_LEVEL => Some [FNumber1 level]
  | WAP_PROTO_SET_LOG_LEVEL_OK => Some [FNumber8 status]
  | WAP_PROTO_START_SAVE_GRAPH => Some []
  | WAP_PROTO_START_SAVE_GRAPH_OK => Some [FNumber8 status]
  | WAP_PROTO_STOP_SAVE_GRAPH => Some []
  | WAP_PROTO_STOP_SAVE_GRAPH_OK => Some [FNumber8 status]
  | WAP_PROTO_GET_BLOCK_HASH => Some [FNumber8 height]
  | WAP_PROTO_GET_BLOCK_HASH_OK => Some [FNumber8 status; FChunk hash]
  | WAP_PROTO_GET_BLOCK_TEMPLATE => Some [FNumber8 reserve_size; FChunk address]
  | WAP_PROTO_GET_BLOCK_TEMPLATE_OK =>
      Some [FNumber8 status; FNumber8 reserved_offset; FNumber8 height; FNumber8 difficulty; FChunk prev_hash;
            FChunk block_template_blob]
  | WAP_PROTO_STOP | WAP_PROTO_STOP_OK | WAP_PROTO_CLOSE | WAP_PROTO_CLOSE_OK
  | WAP_PROTO_PING | WAP_PROTO_PING_OK => Some []
  | WAP_PROTO_ERROR => Some [FNumber2 status; FString reason]
  | _ => None
  end.

(** The fields of a message; an unknown one has none. *)
Definition fields (id : Z) : list field := match layout id with Some fs => fs | None => [] end.

(** ** Octets and frames of a field *)
Inductive value := Num (v : Z) | Octets (bs : list Z) | Items (xs : list (list Z)).

Definition longstr (s : list Z) : list Z := be_bytes 4 (Z.of_nat (length s)) ++ s.

Definition enc (f : field) (v : value) : list Z :=
  match f, v with
  | FProtocol, Octets s => be_bytes 1 (Z.of_nat (length s)) ++ s
  | FVersion, Num n => be_bytes 2 n
  | FNumber8 _, Num n => be_bytes 8 n
  | FNumber2 _, Num n => be_bytes 2 n
  | FNumber1 _, Num n => be_bytes 1 n
  | FString _, Octets s => be_bytes 1 (Z.of_nat (length s)) ++ s
  | FStrings, Items xs => be_bytes 4 (Z.of_nat (length xs)) ++ concat (map longstr xs)
  | FChunk _, Octets s => longstr s
  | _, _ => []
  end.

Definition enc_frames (f : field) (v : value) : list (list Z) :=
  match f, v with
  | FFrame _, Octets s => [s]
  | FMsg, Items xs => xs
  | _, _ => []
  end.

(** What a field can carry. *)
Definition valid (f : field) (v : value) : Prop :=
  match f, v with
  | FProtocol, Octets s => Z.of_nat (length s) < 2 ^ 8 /\ cstr s = [87; 65; 80]
  | FVersion, Num n => n = 1
  | FNumber8 _, Num n => 0 <= n < 2 ^ 64
  | FNumber2 _, Num n => 0 <= n < 2 ^ 16
  | FNumber1 _, Num n => 0 <= n < 2 ^ 8
  | FString _, Octets s => Z.of_nat (length s) < 2 ^ 8
  | FStrings, Items xs => Z.of_nat (length xs) < 2 ^ 32 /\ Forall (fun s => Z.of_nat (length s) < 2 ^ 32) xs
  | FChunk _, Octets s => Z.of_nat (length s) < 2 ^ 32
  | FFrame _, Octets _ => True
  | FMsg, Items _ => True
  | _, _ => False
  end.

(** What the receiver keeps: a string ends at its first NUL. *)
Definition stored (f : field) (v : value) : value :=
  match f, v with
  | FProtocol, Octets s | FString _, Octets s => Octets (cstr s)
  | FStrings, Items xs => Items (map cstr xs)
  | _, _ => v
  end.

(** ** Reading a field of the data frame

    The value of the field and the octets after it. *)
Definition dec_octets (n : nat) (bs : list Z) : option (list Z * list Z) :=
  if (n <=? length bs)%nat then Some (take n bs, drop n bs) else None.

Definition dec_number (n : nat) (bs : list Z) : option (Z * list Z) :=
  match dec_octets n bs with Some (s, tl) => Some (be_val s, tl) | None => None end.

(** A length of [n] octets and as many octets as it says. *)
Definition dec_string (n : nat) (bs : list Z) : option (list Z * list Z) :=
  match dec_number n bs with Some (k, tl) => dec_octets (Z.to_nat k) tl | None => None end.

Fixpoint dec_strings (k : nat) (bs : list Z) : option (list (list Z) * list Z) :=
  match k with
  | O => Some ([], bs)
  | S k' =>
      match dec_string 4 bs with
      | Some (s, tl) => match dec_strings k' tl with Some (ss, tl) => Some (s :: ss, tl) | None => None end
      | None => None
      end
  end.

Definition as_num (r : option (Z * list Z)) : option (value * list Z) :=
  match r with Some (n, tl) => Some (Num n, tl) | None => None end.
Definition as_octets (r : option (list Z * list Z)) : option (value * list Z) :=
  match r with Some (s, tl) => Some (Octets s, tl) | None => None end.

Definition dec (f : field) (bs : list Z) : option (value * list Z) :=
  match f with
  | FProtocol =>
      match dec_string 1 bs with
      | Some (s, tl) => if bool_decide (cstr s = [87; 65; 80]) then Some (Octets s, tl) else None
      | None => None
      end
  | FVersion =>
      match dec_number 2 bs with
      | Some (n, tl) => if n =? 1 then Some (Num n, tl) else None
      | None => None
      end
  | FNumber8 _ => as_num (dec_number 8 bs)
  | FNumber2 _ => as_num (dec_number 2 bs)
  | FNumber1 _ => as_num (dec_number 1 bs)
  | FString _ => as_octets (dec_string 1 bs)
  | FStrings =>
      match dec_number 4 bs with
      | Some (k, tl) => match dec_strings (Z.to_nat k) tl with Some (ss, tl) => Some (Items ss, tl) | None => None end
      | None => None
      end
  | FChunk _ => as_octets (dec_string 4 bs)
  | FFrame _ | FMsg => None
  end.

(** The fields that are in the data frame. *)
Definition data_field (f : field) : bool := match f with FFrame _ | FMsg => false | _ => true end.
Definition is_msg (f : field) : bool := match f with FMsg => true | _ => false end.

(** The data frame of a message and the frames that follow it. *)
Definition header (id : Z) : list Z := be_bytes 2 0xAAA0 ++ be_bytes 1 id.
Definition data_frame (id : Z) (fvs : list (field * value)) : list Z :=
  header id ++ concat (map (fun fv => enc (fst fv) (snd fv)) fvs).
Definition more_frames (fvs : list (field * value)) : list (list Z) :=
  concat (map (fun fv => enc_frames (fst fv) (snd fv)) fvs).

(** The frames of one message with their "more" flags. *)
Fixpoint mark (fs : list (list Z)) : list (list Z * bool) :=
  match fs with
  | [] => []
  | f :: fs' => (f, match fs' with [] => false | _ => true end) :: mark fs'
  end.

(** ** [enc] and [dec] are inverse *)

Lemma be_val_be_bytes k v : be_val (be_bytes k v) = v mod 2 ^ (8 * Z.of_nat k).
Proof. unfold be_val, be_bytes. rewrite rev_involutive. apply le_val_le_bytes. Qed.

Lemma be_bytes_be_val s : bytes s -> be_bytes (length s) (be_val s) = s.
Proof.
  intros Hs. unfold be_val, be_bytes. rewrite <- (length_rev s), le_bytes_le_val; [apply rev_involutive|].
  by apply Forall_rev.
Qed.

Lemma be_val_range s : bytes s -> 0 <= be_val s < 2 ^ (8 * Z.of_nat (length s)).
Proof. intros Hs. unfold be_val. rewrite <- (length_rev s). apply le_val_bound. by apply Forall_rev. Qed.

Lemma dec_octets_app s tl : dec_octets (length s) (s ++ tl) = Some (s, tl).
Proof.
  unfold dec_octets. rewrite length_app. destruct (Nat.leb_spec (length s) (length s + length tl)); [|lia].
  by rewrite take_app_length, drop_app_length.
Qed.

Lemma dec_octets_inv n bs s tl : dec_octets n bs = Some (s, tl) -> bs = s ++ tl /\ length s = n.
Proof.
  unfold dec_octets. destruct (Nat.leb_spec n (length bs)); [|done]. intros [= <- <-].
  rewrite take_drop, length_take. split; [done|lia].
Qed.

Lemma dec_number_app n v tl : 0 <= v < 2 ^ (8 * Z.of_nat n) -> dec_number n (be_bytes n v ++ tl) = Some (v, tl).
Proof.
  intros Hv. unfold dec_number. pose proof (dec_octets_app (be_bytes n v) tl) as E. rewrite length_be_bytes in E.
  rewrite E, be_val_be_bytes, Z.mod_small by done. done.
Qed.

Lemma dec_number_inv n bs v tl : bytes bs -> dec_number n bs = Some (v, tl) ->
  bs = be_bytes n v ++ tl /\ 0 <= v < 2 ^ (8 * Z.of_nat n) /\ bytes tl.
Proof.
  intros Hb. unfold dec_number. destruct (dec_octets n bs) as [[s t]|] eqn:E; [|done]. intros [= <- <-].
  apply dec_octets_inv in E as [-> <-]. apply Forall_app in Hb as [Hs Ht].
  split; [by rewrite be_bytes_be_val|]. split; [by apply be_val_range|done].
Qed.

Lemma dec_string_app n s tl : Z.of_nat (length s) < 2 ^ (8 * Z.of_nat n) ->
  dec_string n ((be_bytes n (Z.of_nat (length s)) ++ s) ++ tl) = Some (s, tl).
Proof.
  intros Hs. unfold dec_string. rewrite <- app_assoc, dec_number_app by lia. rewrite Nat2Z.id. apply dec_octets_app.
Qed.

Lemma dec_string_inv n bs s tl : bytes bs -> dec_string n bs = Some (s, tl) ->
  bs = (be_bytes n (Z.of_nat (length s)) ++ s) ++ tl /\ Z.of_nat (length s) < 2 ^ (8 * Z.of_nat n) /\ bytes tl.
Proof.
  intros Hb. unfold dec_string. destruct (dec_number n bs) as [[k t]|] eqn:E; [|done].
  apply (dec_number_inv _ _ _ _ Hb) in E as (-> & Hk & Ht). intros (-> & Hl)%dec_octets_inv.
  apply Forall_app in Ht as [_ Ht]. rewrite Hl, Z2Nat.id, app_assoc by lia. split; [done|]. split; [lia|done].
Qed.

Lemma dec_strings_app xs tl : Forall (fun s => Z.of_nat (length s) < 2 ^ 32) xs ->
  dec_strings (length xs) (concat (map longstr xs) ++ tl) = Some (xs, tl).
Proof.
  induction 1 as [|s xs Hs Hxs IH]; [done|]. cbn [map concat length dec_strings]. unfold longstr at 1.
  rewrite <- app_assoc, dec_string_app by done. by rewrite IH.
Qed.

Lemma dec_strings_inv k bs xs tl : bytes bs -> dec_strings k bs = Some (xs, tl) ->
  bs = concat (map longstr xs) ++ tl /\ length xs = k /\ Forall (fun s => Z.of_nat (length s) < 2 ^ 32) xs /\ bytes tl.
Proof.
  revert bs xs. induction k as [|k IH]; intros bs xs Hb; cbn [dec_strings].
  - intros [= <- <-]. done.
  - destruct (dec_string 4 bs) as [[s t]|] eqn:E; [|done].
    apply (dec_string_inv _ _ _ _ Hb) in E as (-> & Hs & Ht).
    destruct (dec_strings k t) as [[ss t']|] eqn:E; [|done]. intros [= <- <-].
    destruct (IH _ _ Ht E) as (-> & <- & Hss & Hb'). cbn [map concat length]. rewrite <- (app_assoc (longstr s)).
    split; [done|]. split; [done|]. split; [|done]. by apply List.Forall_cons.
Qed.

Lemma dec_enc f v tl : data_field f = true -> valid f v -> dec f (enc f v ++ tl) = Some (v, tl).
Proof.
  destruct f, v; try done; intros _ Hv; cbn [enc dec valid] in *.
  - destruct Hv as [Hl Hc]. rewrite dec_string_app by done. by rewrite bool_decide_true.
  - rewrite Hv, dec_number_app by done. done.
  - by rewrite dec_number_app.
  - by rewrite dec_number_app.
  - by rewrite dec_number_app.
  - by rewrite dec_string_app.
  - destruct Hv as [Hl Hs]. rewrite <- app_assoc, dec_number_app by lia. by rewrite Nat2Z.id, dec_strings_app.
  - unfold longstr. by rewrite dec_string_app.
Qed.

Lemma enc_dec f bs v tl : bytes bs -> dec f bs = Some (v, tl) -> bs = enc f v ++ tl /\ valid f v /\ bytes tl.
Proof.
  intros Hb. destruct f; cbn [dec]; try done.
  - destruct (dec_string 1 bs) as [[s t]|] eqn:E; [|done]. apply (dec_string_inv _ _ _ _ Hb) in E as (-> & Hs & Ht).
    destruct (bool_decide_reflect (cstr s = [87; 65; 80])); [|done]. by intros [= <- <-].
  - destruct (dec_number 2 bs) as [[n t]|] eqn:E; [|done]. apply (dec_number_inv _ _ _ _ Hb) in E as (-> & Hn & Ht).
    destruct (Z.eqb_spec n 1); [|done]. by intros [= <- <-].
  - destruct (dec_number 8 bs) as [[n' t]|] eqn:E; [|done]. intros [= <- <-]. by apply dec_number_inv.
  - destruct (dec_number 2 bs) as [[n' t]|] eqn:E; [|done]. intros [= <- <-]. by apply dec_number_inv.
  - destruct (dec_number 1 bs) as [[n' t]|] eqn:E; [|done]. intros [= <- <-]. by apply dec_number_inv.
  - destruct (dec_string 1 bs) as [[s' t]|] eqn:E; [|done]. intros [= <- <-]. by apply dec_string_inv.
  - destruct (dec_number 4 bs) as [[k t]|] eqn:E; [|done]. apply (dec_number_inv _ _ _ _ Hb) in E as (-> & Hk & Ht).
    destruct (dec_strings (Z.to_nat k) t) as [[ss t']|] eqn:E; [|done]. intros [= <- <-].
    apply (dec_strings_inv _ _ _ _ Ht) in E as (-> & Hl & Hs & Hb'). cbn [enc valid].
    rewrite Hl, Z2Nat.id, <- app_assoc by lia. split; [done|]. split; [|done]. split; [exact (proj2 Hk)|done].
  - destruct (dec_string 4 bs) as [[s' t]|] eqn:E; [|done]. intros [= <- <-]. by apply dec_string_inv.
Qed.

(** ** A message in memory *)
Section Message.
Context `{CzmqLaws}.

(** What a message in memory holds of a field: nothing where the pointer is
    NULL.  The protocol and its version are constants of the code. *)
Definition in_memory (p : wap_proto_t) (f : field) : option value :=
  match f with
  | FProtocol => Some (Octets [87; 65; 80])
  | FVersion => Some (Num 1)
  | FNumber8 n | FNumber2 n => Some (Num (numbers p n))
  | FNumber1 o => Some (Num (octets p o))
  | FString s => Some (Octets (cstr (strings p s)))
  | FStrings => option_map (fun l => Items (zlist_items l)) (block_ids p)
  | FChunk c => option_map (fun k => Octets (zchunk_data k)) (chunks p c)
  | FFrame f => option_map (fun fr => Octets (zframe_data fr)) (frames p f)
  | FMsg => option_map (fun m => Items (map zframe_data (zmsg_items m))) (block_data p)
  end.

(** What a message carries of a field when it is sent: a NULL list, chunk or
    frame goes as an empty one and NULL block data as one empty frame; 2 octets
    carry a number modulo 2^16. *)
Definition field_value (p : wap_proto_t) (f : field) : value :=
  match f with
  | FProtocol => Octets [87; 65; 80]
  | FVersion => Num 1
  | FNumber8 n => Num (numbers p n)
  | FNumber2 n => Num (numbers p n mod 2 ^ 16)
  | FNumber1 o => Num (octets p o)
  | FString s => Octets (cstr (strings p s))
  | FStrings => Items (match block_ids p with Some l => zlist_items l | None => [] end)
  | FChunk c => Octets (match chunks p c with Some k => zchunk_data k | None => [] end)
  | FFrame f => Octets (match frames p f with Some fr => zframe_data fr | None => [] end)
  | FMsg => Items (match block_data p with Some m => map zframe_data (zmsg_items m) | None => [[]] end)
  end.

(** The value sent for a NULL pointer. *)
Definition null_value (f : field) : value :=
  match f with
  | FStrings => Items []
  | FMsg => Items [[]]
  | _ => Octets []
  end.

Definition carries (f : field) (v : value) : value :=
  match f, v with
  | FNumber2 _, Num n => Num (n mod 2 ^ 16)
  | _, _ => v
  end.

Lemma field_value_memory p f :
  field_value p f = match in_memory p f with Some v => carries f v | None => null_value f end.
Proof.
  destruct f; try reflexivity; cbn.
  - by destruct (block_ids p).
  - by destruct (chunks p c).
  - by destruct (frames p f).
  - by destruct (block_data p).
Qed.

(** The fields a message carries, with their values. *)
Definition carried (p : wap_proto_t) (fs : list field) : list (field * value) :=
  map (fun f => (f, field_value p f)) fs.

(** The invariant of the struct: terminated strings, numbers in their range. *)
Record wf (p : wap_proto_t) : Prop := {
  wf_strings s : length (strings p s) = 256%nat /\ (0 ∈ strings p s);
  wf_numbers n : 0 <= numbers p n < 2 ^ 64;
  wf_octets o : 0 <= octets p o < 2 ^ 8 }.

(** Lengths and counts that fit the 4 octets they are sent in, and items that
    are C strings. *)
Record fits (p : wap_proto_t) : Prop := {
  fits_chunks c k : chunks p c = Some k -> Z.of_nat (length (zchunk_data k)) < 2 ^ 32;
  fits_ids l : block_ids p = Some l ->
    Z.of_nat (length (zlist_items l)) < 2 ^ 32 /\
    Forall (fun s => (0 ∉ s) /\ Z.of_nat (length s) < 2 ^ 32) (zlist_items l) }.

(** The same message, up to the cursors of its containers. *)
Record same (p q : wap_proto_t) : Prop := {
  same_routing_id : routing_id q = routing_id p;
  same_id : id q = id p;
  same_strings : strings q = strings p;
  same_numbers : numbers q = numbers p;
  same_octets : octets q = octets p;
  same_chunks : chunks q = chunks p;
  same_frames : frames q = frames p;
  same_block_ids : option_map zlist_items (block_ids q) = option_map zlist_items (block_ids p);
  same_block_data : option_map zmsg_items (block_data q) = option_map zmsg_items (block_data p) }.

#[export] Instance same_equiv : Equivalence same.
Proof.
  split.
  - intros p. by split.
  - intros p q []. by split.
  - intros p q r [] []. split; congruence.
Qed.

Lemma field_value_same p q f : same p q -> field_value q f = field_value p f.
Proof.
  intros S. destruct f; simpl; rewrite ?(same_numbers _ _ S), ?(same_octets _ _ S), ?(same_strings _ _ S),
    ?(same_chunks _ _ S), ?(same_frames _ _ S); try done.
  - pose proof (same_block_ids _ _ S) as E. destruct (block_ids q), (block_ids p); simpl in E; congruence.
  - pose proof (same_block_data _ _ S) as E. destruct (block_data q), (block_data p); simpl in E; congruence.
Qed.

Lemma wf_same p q : same p q -> wf p -> wf q.
Proof.
  intros S [W1 W2 W3]. split; intros; rewrite ?(same_numbers _ _ S), ?(same_octets _ _ S), ?(same_strings _ _ S); auto.
Qed.

Lemma carried_same p q fs : same p q -> carried q fs = carried p fs.
Proof. intros S. apply map_ext. intros f. by rewrite (field_value_same p q f S). Qed.

Lemma cstr_id s : 0 ∉ s -> cstr s = s.
Proof.
  induction s as [|b s IH]; intros Hz; [done|]. simpl. rewrite not_elem_of_cons in Hz. destruct Hz as [Hb Hz].
  destruct (Z.eqb_spec b 0); [congruence|]. by rewrite IH.
Qed.

Lemma cstr_no_nul s : 0 ∉ cstr s.
Proof.
  induction s as [|b s IH]; simpl; [apply not_elem_of_nil|].
  destruct (Z.eqb_spec b 0); [apply not_elem_of_nil|]. rewrite not_elem_of_cons. auto.
Qed.

(** A terminated buffer: its string, the terminator and what follows. *)
Lemma cstr_split buf : 0 ∈ buf -> exists tl, buf = cstr buf ++ 0 :: tl.
Proof.
  induction buf as [|b buf IH]; intros Hz; [by apply not_elem_of_nil in Hz|]. simpl.
  destruct (Z.eqb_spec b 0) as [->|Hb]; [by exists buf|].
  apply elem_of_cons in Hz as [?|Hz]; [congruence|]. destruct (IH Hz) as (tl & E). exists tl. simpl. congruence.
Qed.

Lemma length_cstr buf : 0 ∈ buf -> (length (cstr buf) < length buf)%nat.
Proof. intros (tl & E)%cstr_split. rewrite E at 2. rewrite length_app. simpl. lia. Qed.

Lemma strlen_spec buf : 0 ∈ buf -> strlen buf = Ret (length (cstr buf)).
Proof.
  induction buf as [|b buf IH]; intros Hz; [by apply not_elem_of_nil in Hz|]. simpl.
  destruct (Z.eqb_spec b 0) as [->|Hb]; [done|].
  apply elem_of_cons in Hz as [?|Hz]; [congruence|]. by rewrite (IH Hz).
Qed.

(** What a well-formed message sends can be carried, and comes back unchanged. *)
Lemma field_value_valid p f : wf p -> fits p -> valid f (field_value p f).
Proof.
  intros W F. destruct f; simpl; try done.
  - apply W.
  - apply Z.mod_pos_bound. lia.
  - apply W.
  - destruct (wf_strings p W s) as [Hl Hz]. pose proof (length_cstr _ Hz). lia.
  - destruct (block_ids p) as [l|] eqn:E; [|by split].
    destruct (fits_ids p F l E) as [Hl Hi]. split; [done|]. eapply Forall_impl; [|exact Hi]. by intros s [_ ?].
  - destruct (chunks p c) as [k|] eqn:E; [|done]. by eapply fits_chunks.
Qed.

Lemma field_value_stored p f : fits p -> stored f (field_value p f) = field_value p f.
Proof.
  intros F. destruct f; simpl; try done.
  - by rewrite cstr_id by apply cstr_no_nul.
  - destruct (block_ids p) as [l|] eqn:E; [|done]. f_equal. destruct (fits_ids p F l E) as [_ Hi].
    induction Hi as [|s ss [Hs _] Hi IH]; [done|]. simpl. by rewrite IH, (cstr_id s Hs).
Qed.

End Message.
