(* ===== verification/WapSend.v ===== *)
(** [wap_proto_send] writes the grammar: the frame it allocates has exactly
    the size of what it writes, and the frames it sends are those of the
    message, with the flags of one multipart message. *)

From S2P Require Import Prelude Limbs Bytes Words Memory Czmq WapProto WapGrammar.

(** ** Numbers, most significant octet first *)

Lemma land_255 x : Z.land x 255 = x mod 256.
Proof. change 255 with (Z.ones 8). by rewrite Z.land_ones. Qed.

Lemma shiftr_byte x k : 0 <= k -> Z.land (Z.shiftr x k) 255 = (x / 2 ^ k) mod 256.
Proof. intros. by rewrite land_255, Z.shiftr_div_pow2. Qed.

Lemma be_bytes_2 x : be_bytes 2 x = [Z.land (Z.shiftr x 8) 255; Z.land x 255].
Proof. rewrite shiftr_byte, land_255 by done. done. Qed.

Lemma be_bytes_4 x :
  be_bytes 4 x = [Z.land (Z.shiftr x 24) 255; Z.land (Z.shiftr x 16) 255; Z.land (Z.shiftr x 8) 255; Z.land x 255].
Proof.
  rewrite !shiftr_byte, land_255 by done. unfold be_bytes. cbn [le_bytes rev app].
  by rewrite !Z.div_div by done.
Qed.

Lemma be_bytes_8 x :
  be_bytes 8 x = [Z.land (Z.shiftr x 56) 255; Z.land (Z.shiftr x 48) 255; Z.land (Z.shiftr x 40) 255;
                  Z.land (Z.shiftr x 32) 255; Z.land (Z.shiftr x 24) 255; Z.land (Z.shiftr x 16) 255;
                  Z.land (Z.shiftr x 8) 255; Z.land x 255].
Proof.
  rewrite !shiftr_byte, land_255 by done. unfold be_bytes. cbn [le_bytes rev app].
  by rewrite !Z.div_div by done.
Qed.

Section Send.
Context `{CzmqLaws}.

(** ** The size of the frame *)

Definition size_field (f : field) : sizer :=
  match f with
  | FProtocol => plus (1 + 3)
  | FVersion => plus 2
  | FNumber8 _ => plus 8
  | FNumber2 _ => plus 2
  | FNumber1 _ => plus 1
  | FString s => size_string s
  | FStrings => size_block_ids
  | FChunk c => size_chunk c
  | FFrame _ | FMsg => plus 0
  end.

Definition size_fields (fs : list field) : sizer := foldr (fun f k => size_field f <+> k) (plus 0) fs.

Lemma size_switch_spec i : size_switch i = size_fields (List.filter data_field (fields i)).
Proof. destruct i as [|i|i]; [done| |done]. by repeat (destruct i as [i|i|]; try done). Qed.

Lemma length_longstr s : length (longstr s) = (4 + length s)%nat.
Proof. unfold longstr. by rewrite length_app, length_be_bytes. Qed.

Lemma sizes_fold xs n :
  foldM (fun s n => Ret (n + (4 + length s))%nat) xs n = Ret (n + length (concat (map longstr xs)))%nat.
Proof.
  revert n. induction xs as [|x xs IH]; intros n; cbn [foldM map concat bind]; [by rewrite Nat.add_0_r|].
  rewrite IH, length_app, length_longstr. f_equal. lia.
Qed.

Lemma same_with_block_ids p l l' :
  block_ids p = Some l -> zlist_items l' = zlist_items l -> same p (with_block_ids (Some l') p).
Proof. intros E Hi. split; try done. rewrite E. simpl. by rewrite Hi. Qed.

Lemma size_field_ok p f : wf p ->
  exists p', size_field f p = Ret (length (enc f (field_value p f)), p') /\ same p p'.
Proof.
  intros W. destruct f; cbn [size_field enc field_value]; unfold plus; try (exists p; by rewrite ?length_be_bytes).
  - unfold size_string. destruct (wf_strings p W s) as [_ Hz]. rewrite (strlen_spec _ Hz). exists p.
    by rewrite length_app, length_be_bytes.
  - unfold size_block_ids. destruct (block_ids p) as [l|] eqn:E; [|by exists p].
    pose proof (sizes_fold (zlist_items l) 4) as Hf.
    destruct (walk_items _ _ _ _ _ l _ _ (zlist_size l) zlist_walks ltac:(rewrite zlist_size_items; lia) Hf)
      as (l' & Hw & Hi).
    destruct (zlist_first l) as [cur l0]. rewrite Hw. exists (with_block_ids (Some l') p).
    split; [by rewrite length_app, length_be_bytes|by eapply same_with_block_ids].
  - unfold size_chunk. exists p. rewrite length_longstr. by destruct (chunks p c).
Qed.

Lemma enc_no_data f v : data_field f = false -> enc f v = [].
Proof. by destruct f, v. Qed.

Lemma size_fields_ok fs p : wf p ->
  exists p', size_fields (List.filter data_field fs) p =
    Ret (length (concat (map (fun fv => enc (fst fv) (snd fv)) (carried p fs))), p') /\ same p p'.
Proof.
  revert p. induction fs as [|f fs IH]; intros p W; [by exists p|]. cbn [List.filter carried map fst snd concat].
  destruct (data_field f) eqn:Ef.
  - change (size_fields (f :: ?fs')) with (size_field f <+> size_fields fs'). unfold sadd at 1. destruct (size_field_ok p f W) as (p1 & -> & S1). cbn [bind].
    destruct (IH p1 (wf_same _ _ S1 W)) as (p2 & E & S2). rewrite E. cbn [bind].
    exists p2. split; [|by transitivity p1]. rewrite (carried_same p p1 fs S1), length_app. done.
  - rewrite (enc_no_data f _ Ef). apply IH, W.
Qed.

(** ** Writing the frame *)

Definition put_field (f : field) : writer :=
  match f with
  | FProtocol => put_protocol
  | FVersion => put_version
  | FNumber8 n => put_number8 n
  | FNumber2 n => put_number2 n
  | FNumber1 o => put_number1 o
  | FString s => put_string s
  | FStrings => put_block_ids
  | FChunk c => put_chunk c
  | FFrame _ => one_more_frame
  | FMsg => more_block_data
  end.

Definition put_fields (fs : list field) : writer := foldr (fun f k => put_field f >>> k) wskip fs.

Lemma send_switch_spec i : send_switch i = put_fields (fields i).
Proof. destruct i as [|i|i]; [done| |done]. by repeat (destruct i as [i|i|]; try done). Qed.

(** [wrote st bs n m st']: from [st] to [st'], the octets [bs] were written at
    the needle, [n] frames counted and, if [m], the block data. *)
Record wrote (st : wstate) (bs : list Z) (n : nat) (m : bool) (st' : wstate) : Prop := {
  wrote_frame : w_frame st' = put (w_needle st) bs (w_frame st);
  wrote_needle : w_needle st' = (w_needle st + length bs)%nat;
  wrote_nbr : w_nbr_frames st' = w_nbr_frames st + Z.of_nat n;
  wrote_have : w_have_block_data st' = w_have_block_data st || m;
  wrote_self : same (w_self st) (w_self st') }.

Definition room (st : wstate) (n : nat) : Prop := (w_needle st + n <= length (w_frame st))%nat.

Lemma put_nil off mem : put off [] mem = mem.
Proof. unfold put. simpl. rewrite Nat.add_0_r. apply take_drop. Qed.

Lemma wrote_app st a n m st1 b n' m' st2 : room st (length a + length b) ->
  wrote st a n m st1 -> wrote st1 b n' m' st2 -> wrote st (a ++ b) (n + n') (m || m') st2.
Proof.
  intros R [F1 N1 C1 H1 S1] [F2 N2 C2 H2 S2]. unfold room in R. split.
  - rewrite F2, N1, F1. apply put_put. lia.
  - rewrite N2, N1, length_app. lia.
  - rewrite C2, C1. lia.
  - rewrite H2, H1. by rewrite orb_assoc.
  - by transitivity (w_self st1).
Qed.

Lemma wrote_room st a n m st' k : room st (length a + k) -> wrote st a n m st' -> room st' k.
Proof. intros R [F N _ _ _]. unfold room in *. rewrite N, F, length_put; lia. Qed.

Lemma wrote_seq (m k : writer) st a b n n' h h' :
  room st (length a + length b) -> yields (m st) (wrote st a n h) ->
  (forall st1, wrote st a n h st1 -> room st1 (length b) -> yields (k st1) (wrote st1 b n' h')) ->
  yields ((m >>> k) st) (wrote st (a ++ b) (n + n') (h || h')).
Proof.
  intros R Hm Hk. unfold wseq. eapply yields_bind; [exact Hm|]. intros st1 W1.
  eapply yields_mono; [apply (Hk st1 W1); by eapply wrote_room|]. intros st2 W2. by eapply wrote_app.
Qed.

Lemma PUT_OCTETS_ok bs st : room st (length bs) -> yields (PUT_OCTETS bs st) (wrote st bs 0 false).
Proof.
  intros R. unfold PUT_OCTETS. rewrite write_ok by exact R. apply yields_ret. split; try done; simpl.
  - lia.
  - by rewrite orb_false_r.
Qed.

Lemma PUT_NUMBER1_ok v st : room st 1 -> yields (PUT_NUMBER1 v st) (wrote st (be_bytes 1 v) 0 false).
Proof. apply (PUT_OCTETS_ok [u8 v]). Qed.
Lemma PUT_NUMBER2_ok v st : room st 2 -> yields (PUT_NUMBER2 v st) (wrote st (be_bytes 2 v) 0 false).
Proof. intros R. rewrite be_bytes_2. apply PUT_OCTETS_ok, R. Qed.
Lemma PUT_NUMBER4_ok v st : room st 4 -> yields (PUT_NUMBER4 v st) (wrote st (be_bytes 4 v) 0 false).
Proof. intros R. rewrite be_bytes_4. apply PUT_OCTETS_ok, R. Qed.
Lemma PUT_NUMBER8_ok v st : room st 8 -> yields (PUT_NUMBER8 v st) (wrote st (be_bytes 8 v) 0 false).
Proof. intros R. rewrite be_bytes_8. apply PUT_OCTETS_ok, R. Qed.

Lemma PUT_LONGSTR_ok s st : room st (length (longstr s)) -> yields (PUT_LONGSTR s st) (wrote st (longstr s) 0 false).
Proof.
  intros R. unfold longstr in *. rewrite length_app, length_be_bytes in R.
  apply (wrote_seq (PUT_NUMBER4 (Z.of_nat (length s))) (PUT_OCTETS s) st _ s 0 0 false false).
  - by rewrite length_be_bytes.
  - apply PUT_NUMBER4_ok. unfold room in *. lia.
  - intros st1 _ R1. by apply PUT_OCTETS_ok.
Qed.

Lemma PUT_LONGSTRs_ok xs st : room st (length (concat (map longstr xs))) ->
  yields (foldM PUT_LONGSTR xs st) (wrote st (concat (map longstr xs)) 0 false).
Proof.
  revert st. induction xs as [|x xs IH]; intros st R; cbn [foldM map concat] in *.
  - apply yields_ret. split; rewrite ?put_nil, ?orb_false_r; simpl; try done; lia.
  - rewrite length_app in R. apply (wrote_seq (PUT_LONGSTR x) (foldM PUT_LONGSTR xs) st _ _ 0 0 false false R).
    + apply PUT_LONGSTR_ok. unfold room in *. lia.
    + intros st1 _ R1. by apply IH.
Qed.

Lemma PUT_STRING_ok host st : (0 ∈ host) -> room st (1 + length (cstr host)) ->
  yields (PUT_STRING host st) (wrote st (be_bytes 1 (Z.of_nat (length (cstr host))) ++ cstr host) 0 false).
Proof.
  intros Hz R. unfold PUT_STRING. rewrite (strlen_spec _ Hz). cbn [bind].
  pose proof (length_cstr _ Hz). rewrite read_ok by lia.
  replace (take (length (cstr host)) (drop 0 host)) with (cstr host).
  2:{ destruct (cstr_split _ Hz) as (tl & E). rewrite drop_0. rewrite E at 3. by rewrite take_app_length. }
  apply (wrote_seq (PUT_NUMBER1 _) (PUT_OCTETS (cstr host)) st _ _ 0 0 false false).
  - by rewrite length_be_bytes.
  - apply PUT_NUMBER1_ok. unfold room in *. lia.
  - intros st1 _ R1. by apply PUT_OCTETS_ok.
Qed.

Lemma put_chunk_ok c st :
  room st (length (enc (FChunk c) (field_value (w_self st) (FChunk c)))) ->
  yields (put_chunk c st) (wrote st (enc (FChunk c) (field_value (w_self st) (FChunk c))) 0 false).
Proof.
  cbn [enc field_value]. unfold put_chunk. destruct (chunks (w_self st) c) as [k|]; intros R.
  - by apply PUT_LONGSTR_ok.
  - unfold longstr in *. rewrite app_nil_r in *. apply PUT_NUMBER4_ok. by rewrite length_be_bytes in R.
Qed.

Lemma put_block_ids_ok st :
  room st (length (enc FStrings (field_value (w_self st) FStrings))) ->
  yields (put_block_ids st) (wrote st (enc FStrings (field_value (w_self st) FStrings)) 0 false).
Proof.
  cbn [enc field_value]. unfold put_block_ids. destruct (block_ids (w_self st)) as [l|] eqn:E; intros R.
  - rewrite zlist_size_items. rewrite length_app, length_be_bytes in R.
    eapply yields_bind; [apply PUT_NUMBER4_ok; unfold room in *; lia|]. intros st1 W1.
    assert (room st1 (length (concat (map longstr (zlist_items l))))) as R1.
    { eapply wrote_room; [|exact W1]. by rewrite length_be_bytes. }
    destruct (PUT_LONGSTRs_ok _ st1 R1) as (st2 & Hf & W2).
    destruct (walk_items _ _ _ _ _ l _ _ (length (zlist_items l)) zlist_walks ltac:(lia) Hf) as (l' & Hw & Hi).
    destruct (zlist_first l) as [cur l0]. rewrite Hw. apply yields_ret.
    assert (wrote st (be_bytes 4 (Z.of_nat (length (zlist_items l))) ++ concat (map longstr (zlist_items l))) 0 false st2)
      as [F N C Hh S].
    { apply (wrote_app st _ 0 false st1 _ 0 false st2); [by rewrite length_be_bytes|done..]. }
    split; try done. transitivity (w_self st2); [done|].
    destruct (block_ids (w_self st2)) as [l2|] eqn:E2.
    + apply (same_with_block_ids _ l2); [done|]. pose proof (same_block_ids _ _ S) as Hs. rewrite E, E2 in Hs.
      simpl in Hs. congruence.
    + pose proof (same_block_ids _ _ S) as Hs. by rewrite E, E2 in Hs.
  - cbn [map concat] in *. rewrite app_nil_r in *. apply PUT_NUMBER4_ok, R.
Qed.

Lemma put_field_ok f st : wf (w_self st) -> room st (length (enc f (field_value (w_self st) f))) ->
  yields (put_field f st)
    (wrote st (enc f (field_value (w_self st) f)) (length (enc_frames f (field_value (w_self st) f))) (is_msg f)).
Proof.
  intros W R. destruct f; cbn [put_field enc_frames field_value is_msg length].
  - apply (PUT_STRING_ok [87; 65; 80; 0]); [rewrite !elem_of_cons; auto|]. exact R.
  - apply PUT_NUMBER2_ok, R.
  - apply PUT_NUMBER8_ok, R.
  - cbn [enc]. replace (be_bytes 2 (numbers (w_self st) n mod 2 ^ 16)) with (be_bytes 2 (numbers (w_self st) n)).
    + apply PUT_NUMBER2_ok, R.
    + unfold be_bytes. f_equal. apply le_val_inj; try apply bytes_le_bytes; [by rewrite !length_le_bytes|].
      rewrite !le_val_le_bytes. by rewrite Z.mod_mod.
  - apply PUT_NUMBER1_ok, R.
  - apply PUT_STRING_ok; [apply W|]. cbn [enc field_value] in R. by rewrite length_app, length_be_bytes in R.
  - by apply put_block_ids_ok.
  - by apply put_chunk_ok.
  - apply yields_ret. split; simpl; rewrite ?put_nil, ?orb_false_r; try done; lia.
  - apply yields_ret. split; simpl; rewrite ?put_nil, ?orb_true_r; try done; try lia.
    destruct (block_data (w_self st)) as [m|]; [|done]. by rewrite length_map, zmsg_size_items.
Qed.

Lemma put_fields_ok fs st : wf (w_self st) ->
  room st (length (concat (map (fun fv => enc (fst fv) (snd fv)) (carried (w_self st) fs)))) ->
  yields (put_fields fs st)
    (wrote st (concat (map (fun fv => enc (fst fv) (snd fv)) (carried (w_self st) fs)))
       (length (more_frames (carried (w_self st) fs))) (existsb is_msg fs)).
Proof.
  revert st. induction fs as [|f fs IH]; intros st W R.
  - apply yields_ret. split; simpl; rewrite ?put_nil, ?orb_false_r; try done; lia.
  - unfold more_frames in *. cbn [carried map fst snd concat existsb] in *. rewrite length_app in R.
    rewrite (length_app (enc_frames f _)).
    apply (wrote_seq (put_field f) (put_fields fs) st _ _ _ _ _ _ R).
    + apply put_field_ok; [done|]. unfold room in *. lia.
    + intros st1 [_ _ _ _ S] R1. pose proof (carried_same _ _ fs S) as E. fold (carried (w_self st) fs) in *.
      rewrite <- E in *. apply IH; [|done]. by eapply wf_same.
Qed.

(** ** Sending the frames *)

Lemma mark_cons f fs : mark (f :: fs) = (f, negb (Z.of_nat (length fs) =? 0)) :: mark fs.
Proof. by destruct fs. Qed.

Lemma send_frame_ok p f n o :
  outbox (snd (send_frame p f (n, o))) =
    outbox o ++ [(match frames p f with Some fr => zframe_data fr | None => [] end, negb (n - 1 =? 0))].
Proof.
  unfold send_frame. destruct (frames p f) as [fr|]; cbn [snd].
  - apply zframe_send_ok.
  - apply zmq_send_ok.
Qed.

Lemma send_frame_keeps p f st : sent_on (snd st) (snd (send_frame p f st)).
Proof.
  destruct st as [n o]. unfold send_frame. destruct (frames p f); cbn [snd]; [apply zframe_send_keeps|apply zmq_send_keeps].
Qed.

Lemma send_fields_keeps p st : sent_on (snd st) (snd (send_fields p st)).
Proof.
  unfold send_fields. destruct (id p =? 8); destruct (id p =? 9); destruct (id p =? 10); destruct (id p =? 22);
    repeat (etransitivity; [|apply send_frame_keeps]); done.
Qed.

Lemma send_fields_ok p fs n o :
  fields (id p) = fs -> existsb is_msg fs = false -> n = Z.of_nat (length (more_frames (carried p fs))) ->
  outbox (snd (send_fields p (n, o))) = outbox o ++ mark (more_frames (carried p fs)).
Proof.
  unfold send_fields. destruct (id p) as [|i|i]; [by intros <- Hm ->; cbn; rewrite app_nil_r| |by intros <- Hm ->; cbn; rewrite app_nil_r].
  repeat (destruct i as [i|i|]; try (by intros <- Hm ->; cbn; rewrite app_nil_r); try (by intros <- Hm ->));
    intros <- Hm ->; cbn -[outbox send_frame mark].
  - rewrite send_frame_ok. done.
  - rewrite (surjective_pairing (send_frame p white_list _)), send_frame_ok, send_frame_ok, <- app_assoc. done.
  - rewrite send_frame_ok. done.
  - rewrite send_frame_ok. done.
Qed.

Lemma send_fields_msg p fs st : fields (id p) = fs -> existsb is_msg fs = true ->
  send_fields p st = st /\ more_frames (carried p fs) = match field_value p FMsg with Items xs => xs | _ => [] end.
Proof.
  intros <-. unfold send_fields. destruct (id p) as [|i|i]; [done| |done].
  repeat (destruct i as [i|i|]; try done); intros Hm; try done.
  split; [done|]. unfold more_frames. cbn -[field_value]. by rewrite app_nil_r.
Qed.

Lemma send_block_frames_ok frs n o : n = Z.of_nat (length frs) ->
  yields (foldM send_block_frame frs (n, o)) (fun st =>
    outbox (snd st) = outbox o ++ mark (map zframe_data frs) /\ sent_on o (snd st)).
Proof.
  revert n o. induction frs as [|fr frs IH]; intros n o ->; cbn [foldM].
  - apply yields_ret. cbn -[sent_on]. by rewrite app_nil_r.
  - unfold send_block_frame at 1. cbn [bind]. eapply yields_mono; [apply IH; cbn [length]; lia|].
    intros st [-> Hk]. split; [|etransitivity; [apply zframe_send_keeps|exact Hk]]. rewrite zframe_send_ok, <- app_assoc. cbn [map app]. rewrite mark_cons, length_map.
    cbn [length]. do 4 f_equal. f_equal. lia.
Qed.

Lemma send_block_data_ok p n o xs :
  field_value p FMsg = Items xs -> n = Z.of_nat (length xs) ->
  yields (send_block_data p (n, o)) (fun '(p', o') => same p p' /\ outbox o' = outbox o ++ mark xs /\ sent_on o o').
Proof.
  cbn [field_value]. unfold send_block_data. destruct (block_data p) as [m|] eqn:E; intros [= <-] Hn.
  - rewrite length_map in Hn. destruct (send_block_frames_ok (zmsg_items m) n o Hn) as (st & Hf & Ho & Hk).
    destruct (walk_items _ _ _ _ _ m _ _ (zmsg_size m) zmsg_walks ltac:(rewrite zmsg_size_items; lia) Hf)
      as (m' & Hw & Hi).
    destruct (zmsg_first m) as [cur m0]. rewrite Hw. apply yields_ret. split; [|done].
    split; try done. rewrite E. cbn. by rewrite Hi.
  - apply yields_ret. split; [done|]. cbn [snd]. rewrite zmq_send_ok. split; [done|]. apply zmq_send_keeps.
Qed.

(** ** The whole function *)

(** The frame a ROUTER socket is given first. *)
Definition route (p : wap_proto_t) (output : zsock) : list (list Z * bool) :=
  if zsock_type output =? ZMQ_ROUTER
  then match routing_id p with Some r => [(zframe_data r, true)] | None => [] end
  else [].

Definition sent_frames (p : wap_proto_t) (fs : list field) : list (list Z * bool) :=
  mark (data_frame (id p) (carried p fs) :: more_frames (carried p fs)).

Lemma size_ok p fs : wf p -> fields (id p) = fs ->
  exists p', (plus (2 + 1) <+> size_switch (id p)) p = Ret (length (data_frame (id p) (carried p fs)), p') /\ same p p'.
Proof.
  intros W <-. rewrite size_switch_spec. unfold sadd, plus at 1. cbn [bind].
  destruct (size_fields_ok (fields (id p)) p W) as (p' & -> & S). exists p'. split; [|done]. cbn [bind].
  unfold data_frame, header. by rewrite !length_app, !length_be_bytes.
Qed.

Lemma put_full bs mem : length mem = length bs -> put 0 bs mem = bs.
Proof. intros E. unfold put. rewrite drop_ge by lia. by rewrite app_nil_r. Qed.

Lemma put_message_ok p fs frame : wf p -> fields (id p) = fs ->
  length frame = length (data_frame (id p) (carried p fs)) ->
  yields ((PUT_NUMBER2 (Z.lor 0xAAA0 0) >>> PUT_NUMBER1 (id p) >>> send_switch (id p)) (WState p 0 frame 1 false))
    (fun st => same p (w_self st) /\ w_frame st = data_frame (id p) (carried p fs) /\
       w_nbr_frames st = 1 + Z.of_nat (length (more_frames (carried p fs))) /\ w_have_block_data st = existsb is_msg fs).
Proof.
  intros W L Hl. rewrite send_switch_spec, L. set (st := WState p 0 frame 1 false).
  unfold data_frame, header in *. rewrite <- app_assoc in *. rewrite !length_app, !length_be_bytes in Hl.
  eapply yields_mono.
  - apply (wrote_seq _ (PUT_NUMBER1 (id p) >>> put_fields fs) st (be_bytes 2 0xAAA0)
      (be_bytes 1 (id p) ++ concat (map (fun fv => enc (fst fv) (snd fv)) (carried p fs)))
      0 (0 + length (more_frames (carried p fs))) false (false || existsb is_msg fs)).
    + unfold room. cbn [st w_needle w_frame]. rewrite !length_app, !length_be_bytes. lia.
    + apply PUT_NUMBER2_ok. unfold room. cbn [st w_needle w_frame]. lia.
    + intros st1 [_ _ _ _ S1] R1. rewrite length_app, length_be_bytes in R1.
      apply (wrote_seq _ (put_fields fs)); [by rewrite length_be_bytes| |].
      * apply PUT_NUMBER1_ok. unfold room in *. lia.
      * intros st2 [_ _ _ _ S2] R2. assert (same p (w_self st2)) as S by (by transitivity (w_self st1)).
        rewrite <- (carried_same _ _ fs S) in *. apply put_fields_ok; [|done]. by eapply wf_same.
  - intros st' [F _ C Hh S]. split; [done|]. split; [|by split].
    rewrite F. apply put_full. cbn [st w_frame]. rewrite !length_app, !length_be_bytes. lia.
Qed.

Lemma send_total p fs output : CzmqMemory -> wf p -> fields (id p) = fs ->
  yields (wap_proto_send p output) (fun '(rc, p', output') =>
    rc = 0 /\ same p p' /\ outbox output' =
      outbox (if zsock_type output =? ZMQ_ROUTER then zframe_send (routing_id p) true output else output) ++ sent_frames p fs /\
    sent_on output output').
Proof.
  intros M W L. unfold wap_proto_send.
  set (o1 := if zsock_type output =? ZMQ_ROUTER then zframe_send (routing_id p) true output else output).
  assert (sent_on output o1) as K1 by (unfold o1; destruct (_ =? _); [apply zframe_send_keeps|done]).
  destruct (size_ok p fs W L) as (p1 & -> & S1). cbn [bind].
  destruct (zmq_msg_init_size_ok (length (data_frame (id p) (carried p fs)))) as (frame & -> & Hl).
  rewrite <- (same_id _ _ S1), <- (carried_same _ _ fs S1) in Hl.
  rewrite <- (same_id _ _ S1) in L.
  eapply yields_bind; [apply (put_message_ok p1 fs frame); [by eapply wf_same|done..]|].
  intros st (S2 & F & C & Hh). rewrite Hh, F, C.
  assert (same p (w_self st)) as S by (by transitivity p1).
  rewrite <- (same_id _ _ S2) in L. rewrite <- (same_id _ _ S2) in F. clear Hl.
  rewrite (carried_same _ _ fs S1), (same_id _ _ S1) in *.
  unfold sent_frames. rewrite mark_cons.
  replace (1 + Z.of_nat (length (more_frames (carried p fs))) - 1)
    with (Z.of_nat (length (more_frames (carried p fs)))) by lia.
  set (n := Z.of_nat _). set (o2 := zmq_msg_send _ _ o1).
  assert (outbox o2 = outbox o1 ++ [(data_frame (id p) (carried p fs), negb (n =? 0))]) as Ho2 by apply zmq_msg_send_ok.
  assert (sent_on output o2) as K2 by (etransitivity; [exact K1|apply zmq_msg_send_keeps]).
  change (?x :: ?y) with ([x] ++ y). rewrite app_assoc, <- Ho2. unfold n. rewrite <- (carried_same _ _ fs S).
  destruct (existsb is_msg fs) eqn:Em.
  - destruct (send_fields_msg (w_self st) fs (n, o2) L Em) as [E Ex]. unfold n in E. rewrite <- (carried_same _ _ fs S) in E. rewrite E.
    destruct (field_value (w_self st) FMsg) as [|?|xs] eqn:Ev; [done..|]. rewrite Ex.
    eapply yields_bind; [by apply (send_block_data_ok _ _ o2 xs Ev)|]. intros [p' o'] (Sp & Ho' & K').
    apply yields_ret. split; [done|]. split; [by transitivity (w_self st)|]. split; [done|]. by transitivity o2.
  - pose proof (send_fields_ok (w_self st) fs _ o2 L Em eq_refl) as E.
    pose proof (send_fields_keeps (w_self st) (Z.of_nat (length (more_frames (carried (w_self st) fs))), o2)) as K'.
    destruct (send_fields _ _) as [n' o']. apply yields_ret. split; [done|]. split; [done|]. split; [done|].
    by transitivity o2.
Qed.

Lemma wap_proto_send_spec p fs output : CzmqMemory -> wf p -> layout (id p) = Some fs ->
  (zsock_type output = ZMQ_ROUTER -> routing_id p <> None) ->
  yields (wap_proto_send p output) (fun '(rc, p', output') =>
    rc = 0 /\ same p p' /\ outbox output' = outbox output ++ route p output ++ sent_frames p fs /\ sent_on output output').
Proof.
  intros M W L Hr. eapply yields_mono; [apply (send_total p fs output M W); unfold fields; by rewrite L|].
  intros [[rc p'] output'] (-> & S & -> & K). split; [done|]. split; [done|]. split; [|done]. rewrite app_assoc. f_equal. unfold route.
  destruct (Z.eqb_spec (zsock_type output) ZMQ_ROUTER) as [Et|]; [|by rewrite app_nil_r].
  destruct (routing_id p) as [r|]; [apply zframe_send_ok|]. by destruct (Hr Et).
Qed.

End Send.
