(* ===== verification/WapRecv.v ===== *)
(** [wap_proto_recv] reads the grammar: it accepts exactly the messages whose
    data frame begins with the fields of its kind, stores their values, and on
    any input at all neither faults nor runs on. *)

From S2P Require Import Prelude Limbs Bytes Words Memory Czmq WapProto WapGrammar.

Section Recv.
Context `{CzmqLaws}.
Implicit Types (data bs tl : list Z) (st : rstate).

(** The octets that remain are [tl]. *)
Definition at_ data st tl : Prop := exists pre, data = pre ++ tl /\ r_needle st = length pre.

Definition advance (n : nat) st : rstate := RState (r_self st) (r_needle st + n) (r_input st).

Lemma at_bytes data st tl : bytes data -> at_ data st tl -> bytes tl.
Proof. intros Hb (pre & -> & _). by apply Forall_app in Hb as [_ ?]. Qed.

Lemma at_self data st tl p : at_ data st tl -> at_ data (RState p (r_needle st) (r_input st)) tl.
Proof. done. Qed.

(** ** The macros *)

Lemma GET_OCTETS_spec n data st tl : at_ data st tl ->
  match dec_octets n tl with
  | Some (s, tl') => GET_OCTETS n data st = Ret (Some s, advance n st) /\ at_ data (advance n st) tl'
  | None => GET_OCTETS n data st = Ret (None, st)
  end.
Proof.
  intros (pre & -> & Hn). unfold dec_octets, GET_OCTETS. rewrite length_app, Hn.
  destruct (Nat.leb_spec n (length tl)); destruct (Nat.leb_spec (length pre + n) (length pre + length tl)); try lia; [|done].
  rewrite read_ok by (rewrite length_app; lia). rewrite drop_app_length. split; [by unfold advance; rewrite Hn|].
  exists (pre ++ take n tl). rewrite <- app_assoc, take_drop. split; [done|].
  cbn. rewrite Hn, length_app, length_take. lia.
Qed.

(** A reader of [n] octets as a number. *)
Definition reads_number (m : reader Z) (n : nat) : Prop := forall data st tl, at_ data st tl ->
  match dec_number n tl with
  | Some (v, tl') => m data st = Ret (Some v, advance n st) /\ at_ data (advance n st) tl'
  | None => m data st = Ret (None, st)
  end.

Lemma reads_number_of n (k : list Z -> outcome Z) :
  (forall s, length s = n -> k s = Ret (be_val s)) ->
  reads_number (let? s := GET_OCTETS n in lift (k s)) n.
Proof.
  intros Hk data st tl Ha. unfold dec_number. pose proof (GET_OCTETS_spec n data st tl Ha) as E.
  unfold rbind, lift. destruct (dec_octets n tl) as [[s tl']|] eqn:Ed.
  - destruct E as [-> Ha']. cbn [bind]. rewrite Hk; [done|]. by apply dec_octets_inv in Ed as [_ ?].
  - by rewrite E.
Qed.

Lemma GET_NUMBER1_spec : reads_number GET_NUMBER1 1.
Proof.
  apply (reads_number_of 1 (fun s => index s 0)). intros [|a [|]]; try done. intros _. cbn. do 2 f_equal. unfold be_val. cbn. lia.
Qed.

Lemma GET_NUMBER2_spec : reads_number GET_NUMBER2 2.
Proof.
  apply (reads_number_of 2 (fun n => let* n0 := index n 0 in let* n1 := index n 1 in Ret (Z.shiftl n0 8 + n1))).
  intros [|a [|b [|]]]; try done. intros _. change (Ret (Z.shiftl a 8 + b) = Ret (be_val [a; b])). f_equal.
  rewrite !Z.shiftl_mul_pow2 by done. unfold be_val. cbn -[Z.mul Z.pow Z.add]. lia.
Qed.

Lemma GET_NUMBER4_spec : reads_number GET_NUMBER4 4.
Proof.
  eapply (reads_number_of 4 (fun n => let* n0 := index n 0 in let* n1 := index n 1 in let* n2 := index n 2 in
    let* n3 := index n 3 in Ret (Z.shiftl n0 24 + Z.shiftl n1 16 + Z.shiftl n2 8 + n3))).
  intros [|a [|b [|c [|d [|]]]]]; try done. intros _.
  change (Ret (Z.shiftl a 24 + Z.shiftl b 16 + Z.shiftl c 8 + d) = Ret (be_val [a; b; c; d])). f_equal.
  rewrite !Z.shiftl_mul_pow2 by done. unfold be_val. cbn -[Z.mul Z.pow Z.add]. lia.
Qed.

Lemma GET_NUMBER8_spec : reads_number GET_NUMBER8 8.
Proof.
  eapply (reads_number_of 8 (fun n => let* n0 := index n 0 in let* n1 := index n 1 in let* n2 := index n 2 in
    let* n3 := index n 3 in let* n4 := index n 4 in let* n5 := index n 5 in let* n6 := index n 6 in
    let* n7 := index n 7 in Ret (Z.shiftl n0 56 + Z.shiftl n1 48 + Z.shiftl n2 40 + Z.shiftl n3 32
      + Z.shiftl n4 24 + Z.shiftl n5 16 + Z.shiftl n6 8 + n7))).
  intros [|a [|b [|c [|d [|e [|f [|g [|h [|]]]]]]]]]; try done. intros _.
  change (Ret (Z.shiftl a 56 + Z.shiftl b 48 + Z.shiftl c 40 + Z.shiftl d 32 + Z.shiftl e 24 + Z.shiftl f 16
    + Z.shiftl g 8 + h) = Ret (be_val [a; b; c; d; e; f; g; h])). f_equal.
  rewrite !Z.shiftl_mul_pow2 by done. unfold be_val. cbn -[Z.mul Z.pow Z.add]. lia.
Qed.

(** A length and as many octets. *)
Lemma get_string_spec m n (k : list Z -> reader (list Z)) data st tl :
  reads_number m n -> at_ data st tl ->
  match dec_string n tl with
  | Some (s, tl') => exists st', r_self st' = r_self st /\ r_input st' = r_input st /\ at_ data st' tl' /\
      (let? size := m in let? bs := GET_OCTETS (Z.to_nat size) in k bs) data st = k s data st'
  | None => exists st', r_self st' = r_self st /\ r_input st' = r_input st /\
      (let? size := m in let? bs := GET_OCTETS (Z.to_nat size) in k bs) data st = Ret (None, st')
  end.
Proof.
  intros Hm Ha. unfold dec_string. specialize (Hm data st tl Ha). unfold rbind at 1 3.
  destruct (dec_number n tl) as [[v tl1]|]; [|exists st; by rewrite Hm].
  destruct Hm as [-> Ha1]. cbn [bind]. pose proof (GET_OCTETS_spec (Z.to_nat v) _ _ _ Ha1) as E.
  unfold rbind at 1 2. destruct (dec_octets (Z.to_nat v) tl1) as [[s tl2]|].
  - destruct E as [-> Ha2]. by exists (advance (Z.to_nat v) (advance n st)).
  - rewrite E. by exists (advance n st).
Qed.

(** ** What reading a field does to the message *)

(** A number is one field of the struct, however many octets carry it. *)
Definition slot (f : field) : field := match f with FNumber2 n => FNumber8 n | _ => f end.

Record kept (f : field) (p q : wap_proto_t) : Prop := {
  kept_routing_id : routing_id q = routing_id p;
  kept_id : id q = id p;
  kept_memory g : slot g <> slot f -> in_memory q g = in_memory p g;
  kept_wf : wf p -> wf q }.

Lemma kept_fields f p q g : kept f p q -> slot g <> slot f -> field_value q g = field_value p g.
Proof. intros K Hg. by rewrite !field_value_memory, (kept_memory _ _ _ K). Qed.

Lemma kept_refl f p : kept f p p.
Proof. by split. Qed.

Lemma upd_eq {K A} `{EqDecision K} (m : K -> A) k a : upd m k a k = a.
Proof. unfold upd. by destruct (decide (k = k)). Qed.

Lemma upd_ne {K A} `{EqDecision K} (m : K -> A) k a j : j <> k -> upd m k a j = m j.
Proof. unfold upd. by destruct (decide (j = k)). Qed.

Lemma upd_all {K A} `{EqDecision K} (P : A -> Prop) (m : K -> A) k a :
  P a -> (forall j, P (m j)) -> forall j, P (upd m k a j).
Proof. intros Pa Pm j. unfold upd. by destruct (decide (j = k)). Qed.

(** Fields with other names are not touched. *)
Ltac other_fields :=
  let g := fresh "g" in let Hg := fresh "Hg" in
  intros g Hg; destruct g; cbn -[zmsg_items]; try reflexivity;
  (rewrite upd_ne; [reflexivity|intros ->; apply Hg; reflexivity]).

Lemma kept_number n v p : 0 <= v < 2 ^ 64 -> kept (FNumber8 n) p (with_number n v p).
Proof.
  intros Hv. split; [done..|other_fields|]. intros [W1 W2 W3]. split; [exact W1| |exact W3].
  by apply (upd_all (fun v => 0 <= v < 2 ^ 64)).
Qed.

Lemma kept_number2 n v p : 0 <= v < 2 ^ 16 -> kept (FNumber2 n) p (with_number n v p).
Proof. intros Hv. destruct (kept_number n v p ltac:(lia)). by split. Qed.

Lemma kept_octet o v p : 0 <= v < 2 ^ 8 -> kept (FNumber1 o) p (with_octet o v p).
Proof.
  intros Hv. split; [done..|other_fields|]. intros [W1 W2 W3]. split; [exact W1|exact W2|].
  by apply (upd_all (fun v => 0 <= v < 2 ^ 8)).
Qed.

Lemma kept_string s v p : length v = 256%nat -> (0 ∈ v) -> kept (FString s) p (with_string s v p).
Proof.
  intros Hl Hz. split; [done..|other_fields|]. intros [W1 W2 W3]. split; [|exact W2|exact W3].
  by apply (upd_all (fun b => length b = 256%nat /\ (0 ∈ b))).
Qed.

Lemma kept_chunk c v p : kept (FChunk c) p (with_chunk c v p).
Proof. split; [done..|other_fields|]. intros [W1 W2 W3]. by split. Qed.

Lemma kept_frame f v p : kept (FFrame f) p (with_frame f v p).
Proof. split; [done..|other_fields|]. intros [W1 W2 W3]. by split. Qed.

Lemma kept_block_ids l p : kept FStrings p (with_block_ids l p).
Proof. split; [done..| |]; [|by intros [W1 W2 W3]; split]. by intros [] Hg. Qed.

Lemma kept_block_data m p : kept FMsg p (with_block_data m p).
Proof. split; [done..| |]; [|by intros [W1 W2 W3]; split]. by intros [] Hg. Qed.

(** ** Fields of the data frame *)

Definition reads_field (f : field) (m : reader unit) : Prop := forall data st tl,
  bytes data -> at_ data st tl -> wf (r_self st) ->
  match dec f tl with
  | Some (v, tl') => exists st', m data st = Ret (Some tt, st') /\ at_ data st' tl' /\ r_input st' = r_input st /\
      kept f (r_self st) (r_self st') /\ in_memory (r_self st') f = Some (stored f v)
  | None => exists st', m data st = Ret (None, st') /\ r_input st' = r_input st /\ kept f (r_self st) (r_self st')
  end.

Lemma reads_number_field f m n (g : Z -> wap_proto_t -> wap_proto_t) :
  reads_number m n -> (forall bs, dec f bs = as_num (dec_number n bs)) -> (forall v, stored f (Num v) = Num v) ->
  (forall v p, 0 <= v < 2 ^ (8 * Z.of_nat n) -> kept f p (g v p) /\ in_memory (g v p) f = Some (Num v)) ->
  reads_field f (let? v := m in modify (g v)).
Proof.
  intros Hm Hd Hs Hg data st tl Hb Ha W. rewrite Hd. specialize (Hm data st tl Ha). unfold rbind.
  destruct (dec_number n tl) as [[v tl']|] eqn:Ed; cbn [as_num].
  - destruct Hm as [-> Ha']. cbn [bind]. eexists. split; [done|]. split; [exact Ha'|]. split; [done|].
    apply dec_number_inv in Ed as (_ & Hv & _); [|by eapply at_bytes]. rewrite Hs. by apply Hg.
  - rewrite Hm. exists st. split; [done|]. split; [done|]. apply kept_refl.
Qed.

Lemma self_number8_spec n : reads_field (FNumber8 n) (self_number8 n).
Proof.
  apply (reads_number_field _ _ 8 (with_number n) GET_NUMBER8_spec); [done..|]. intros v p Hv.
  split; [by apply kept_number|]. cbn. by rewrite upd_eq.
Qed.

Lemma self_number2_spec n : reads_field (FNumber2 n) (self_number2 n).
Proof.
  apply (reads_number_field _ _ 2 (with_number n) GET_NUMBER2_spec); [done..|]. intros v p Hv.
  split; [by apply kept_number2|]. cbn. by rewrite upd_eq.
Qed.

Lemma self_number1_spec o : reads_field (FNumber1 o) (self_number1 o).
Proof.
  apply (reads_number_field _ _ 1 (with_octet o) GET_NUMBER1_spec); [done..|]. intros v p Hv.
  split; [by apply kept_octet|]. cbn. by rewrite upd_eq.
Qed.

Lemma read_version_spec : reads_field FVersion read_version.
Proof.
  intros data st tl Hb Ha W. cbn [dec]. pose proof (GET_NUMBER2_spec data st tl Ha) as E. unfold read_version, rbind.
  destruct (dec_number 2 tl) as [[v tl']|].
  - destruct E as [-> Ha']. cbn [bind]. destruct (Z.eqb_spec v 1) as [->|]; cbn [negb]; eexists; (split; [done|]).
    + split; [done|]. split; [done|]. split; [apply kept_refl|done].
    + split; [done|]. apply kept_refl.
  - rewrite E. exists st. split; [done|]. split; [done|]. apply kept_refl.
Qed.

(** *** Strings *)

Lemma cstr_app s x : cstr (s ++ 0 :: x) = cstr s.
Proof. induction s as [|b s IH]; [done|]. cbn [app cstr]. by rewrite IH. Qed.

Lemma GET_STRING_spec host data st tl :
  bytes data -> at_ data st tl -> length host = 256%nat ->
  match dec_string 1 tl with
  | Some (s, tl') => exists st' v, GET_STRING host data st = Ret (Some v, st') /\ at_ data st' tl' /\
      r_self st' = r_self st /\ r_input st' = r_input st /\ length v = 256%nat /\ (0 ∈ v) /\ cstr v = cstr s
  | None => exists st', GET_STRING host data st = Ret (None, st') /\ r_self st' = r_self st /\ r_input st' = r_input st
  end.
Proof.
  intros Hb Ha Hh.
  pose proof (get_string_spec GET_NUMBER1 1
    (fun bs => lift (let* host := write 0 bs host in write (length bs) [0] host)) data st tl GET_NUMBER1_spec Ha) as E.
  destruct (dec_string 1 tl) as [[s tl']|] eqn:Ed.
  - destruct E as (st' & Hs & Hi & Ha' & E).
    apply dec_string_inv in Ed as (_ & Hl & _); [|by eapply at_bytes].
    exists st', (put 0 (s ++ [0]) host). split; [|split; [done|]; split; [done|]; split; [done|]].
    + unfold GET_STRING. rewrite E. unfold lift. rewrite write_ok by lia. cbn [bind].
      rewrite write_ok by (rewrite length_put by lia; simpl; lia). cbn [bind].
      by rewrite <- (put_put 0 s [0] host) by (simpl; lia).
    + split; [rewrite length_put; [done|]; rewrite length_app; simpl; lia|].
      unfold put. rewrite take_0, <- !app_assoc. cbn [app]. split; [|apply cstr_app].
      rewrite elem_of_app, elem_of_cons. auto.
  - destruct E as (st' & Hs & Hi & E). exists st'. done.
Qed.

Lemma self_string_spec s : reads_field (FString s) (self_string s).
Proof.
  intros data st tl Hb Ha W. cbn [dec]. unfold self_string, rbind.
  pose proof (GET_STRING_spec (strings (r_self st) s) data st tl Hb Ha (proj1 (wf_strings _ W s))) as E.
  destruct (dec_string 1 tl) as [[x tl']|]; cbn [as_octets].
  - destruct E as (st' & v & -> & Ha' & Hs & Hi & Hl & Hz & Hc). cbn [bind]. eexists. split; [done|].
    split; [exact Ha'|]. split; [done|]. cbn [r_self]. rewrite Hs. split; [by apply kept_string|].
    cbn. by rewrite upd_eq, Hc.
  - destruct E as (st' & -> & Hs & Hi). cbn [bind]. exists st'. split; [done|]. split; [done|]. rewrite Hs. apply kept_refl.
Qed.

Lemma read_protocol_spec junk : length junk = 256%nat -> reads_field FProtocol (read_protocol junk).
Proof.
  intros Hj data st tl Hb Ha W. cbn [dec]. unfold read_protocol, rbind.
  pose proof (GET_STRING_spec junk data st tl Hb Ha Hj) as E. destruct (dec_string 1 tl) as [[x tl']|].
  - destruct E as (st' & v & -> & Ha' & Hs & Hi & _ & _ & Hc). cbn [bind]. rewrite Hc.
    case_bool_decide as Hx; exists st'; rewrite Hs; (split; [done|]).
    + split; [done|]. split; [done|]. split; [apply kept_refl|]. cbn. by rewrite Hx.
    + split; [done|]. apply kept_refl.
  - destruct E as (st' & -> & Hs & Hi). cbn [bind]. exists st'. split; [done|]. split; [done|]. rewrite Hs. apply kept_refl.
Qed.

Lemma self_chunk_spec c : CzmqMemory -> reads_field (FChunk c) (self_chunk c).
Proof.
  intros M data st tl Hb Ha W. cbn [dec].
  pose proof (get_string_spec GET_NUMBER4 4 (fun bs => (let? _ := modify (with_chunk c (zchunk_new bs)) in rret bs))
    data st tl GET_NUMBER4_spec Ha) as E.
  assert (self_chunk c data st =
    (let* '(r, st') := (let? size := GET_NUMBER4 in let? bs := GET_OCTETS (Z.to_nat size) in
       let? _ := modify (with_chunk c (zchunk_new bs)) in rret bs) data st in
     Ret (option_map (fun _ => tt) r, st'))) as ->.
  { unfold self_chunk, rbind. destruct (GET_NUMBER4 data st) as [[[?|] ?]|]; cbn [bind]; [|done..].
    destruct (GET_OCTETS _ data _) as [[[?|] ?]|]; done. }
  destruct (dec_string 4 tl) as [[x tl']|]; cbn [as_octets].
  - destruct E as (st' & Hs & Hi & Ha' & ->). cbn. eexists. split; [done|]. split; [exact Ha'|]. split; [done|].
    cbn [r_self]. rewrite Hs. split; [apply kept_chunk|]. cbn. rewrite upd_eq.
    destruct (zchunk_new_ok x) as (k & -> & Hk). cbn. by rewrite Hk.
  - destruct E as (st' & Hs & Hi & ->). cbn. exists st'. split; [done|]. split; [done|]. rewrite Hs. apply kept_refl.
Qed.

(** *** The list of block ids *)

Lemma with_block_ids_id p l : block_ids p = Some l -> p = with_block_ids (Some l) p.
Proof. intros E. destruct p. cbn in *. by rewrite E. Qed.

Lemma GET_LONGSTR_spec data st tl : CzmqMemory -> at_ data st tl ->
  match dec_string 4 tl with
  | Some (s, tl') => exists st', GET_LONGSTR data st = Ret (Some (s ++ [0]), st') /\ at_ data st' tl' /\
      r_self st' = r_self st /\ r_input st' = r_input st
  | None => exists st', GET_LONGSTR data st = Ret (None, st') /\ r_self st' = r_self st /\ r_input st' = r_input st
  end.
Proof.
  intros M Ha.
  pose proof (get_string_spec GET_NUMBER4 4
    (fun bs => if malloc (S (length bs)) then rret (bs ++ [0]) else lift (Fault NullPointer)) data st tl GET_NUMBER4_spec Ha) as E.
  destruct (dec_string 4 tl) as [[x tl']|].
  - destruct E as (st' & Hs & Hi & Ha' & E). exists st'. unfold GET_LONGSTR. rewrite E, malloc_ok. done.
  - destruct E as (st' & Hs & Hi & E). by exists st'.
Qed.

(** Each turn of the loop takes at least four octets, so as many turns as
    octets remain are enough, whatever the count says. *)
Lemma block_ids_loop_spec k fuel data st tl l :
  CzmqMemory -> bytes tl -> at_ data st tl -> (length tl < fuel)%nat -> block_ids (r_self st) = Some l ->
  match dec_strings k tl with
  | Some (xs, tl') => exists st' l', block_ids_loop fuel (Z.of_nat k) data st = Ret (Some tt, st') /\ at_ data st' tl' /\
      r_input st' = r_input st /\ r_self st' = with_block_ids (Some l') (r_self st) /\
      zlist_items l' = zlist_items l ++ map cstr xs
  | None => exists st' l', block_ids_loop fuel (Z.of_nat k) data st = Ret (None, st') /\ r_input st' = r_input st /\
      r_self st' = with_block_ids (Some l') (r_self st)
  end.
Proof.
  intros M. revert fuel st tl l. induction k as [|k IH]; intros [|fuel] st tl l Hb Ha Hf Hl; try lia; cbn [dec_strings].
  - exists st, l. cbn. split; [done|]. split; [done|]. split; [done|]. split; [by apply with_block_ids_id|by rewrite app_nil_r].
  - cbn [block_ids_loop]. destruct (Z.eqb_spec (Z.of_nat (S k)) 0); [lia|].
    pose proof (GET_LONGSTR_spec data st tl M Ha) as E. unfold rbind, modify.
    destruct (dec_string 4 tl) as [[s tl1]|] eqn:Ed.
    2:{ destruct E as (st' & E & Hs & Hi). rewrite E. cbn [bind]. exists st', l. rewrite Hs. split; [done|].
        split; [done|]. by apply with_block_ids_id. }
    destruct E as (st1 & E & Ha1 & Hs1 & Hi1). rewrite E. cbn [bind].
    apply dec_string_inv in Ed as (-> & _ & Hb1); [|done].
    rewrite !length_app, length_be_bytes in Hf.
    replace (Z.of_nat (S k) - 1) with (Z.of_nat k) by lia.
    set (st2 := RState _ _ _). set (l2 := zlist_append l (cstr (s ++ [0]))).
    assert (r_self st2 = with_block_ids (Some l2) (r_self st)) as Hs2.
    { cbn [st2 r_self]. unfold append_block_id. by rewrite Hs1, Hl. }
    specialize (IH fuel st2 tl1 l2 Hb1 Ha1 ltac:(lia) ltac:(by rewrite Hs2)).
    destruct (dec_strings k tl1) as [[xs tl2]|].
    + destruct IH as (st' & l' & -> & Ha' & Hi' & Hs' & Hx). exists st', l'. split; [done|]. split; [done|].
      split; [by rewrite Hi'|]. split; [by rewrite Hs', Hs2|].
      rewrite Hx. unfold l2. rewrite zlist_append_items, <- app_assoc, cstr_app. done.
    + destruct IH as (st' & l' & -> & Hi' & Hs'). exists st', l'. split; [done|]. split; [by rewrite Hi'|].
      by rewrite Hs', Hs2.
Qed.

Lemma self_block_ids_spec : CzmqMemory -> reads_field FStrings self_block_ids.
Proof.
  intros M data st tl Hb Ha W. cbn [dec]. unfold self_block_ids. pose proof (GET_NUMBER4_spec data st tl Ha) as E.
  unfold rbind, modify. destruct (dec_number 4 tl) as [[k tl1]|] eqn:Ed.
  2:{ rewrite E. exists st. split; [done|]. split; [done|]. apply kept_refl. }
  destruct E as [-> Ha1]. cbn [bind].
  pose proof (at_bytes _ _ _ Hb Ha) as Htl.
  apply (dec_number_inv _ _ _ _ Htl) in Ed as (_ & Hk & Hb1).
  set (st2 := RState _ _ _).
  assert (length tl1 < S (length data))%nat as Hf.
  { destruct Ha1 as (pre & -> & _). rewrite length_app. lia. }
  pose proof (block_ids_loop_spec (Z.to_nat k) (S (length data)) data st2 tl1 zlist_new M Hb1 Ha1 Hf eq_refl) as E.
  rewrite Z2Nat.id in E by lia. destruct (dec_strings (Z.to_nat k) tl1) as [[xs tl2]|].
  - destruct E as (st' & l' & -> & Ha' & Hi & Hs & Hx). exists st'. split; [done|]. split; [done|]. split; [done|].
    rewrite Hs. split; [apply (kept_block_ids (Some l') (r_self st))|]. cbn. by rewrite Hx, zlist_new_items.
  - destruct E as (st' & l' & -> & Hi & Hs). exists st'. split; [done|]. split; [done|]. rewrite Hs.
    apply (kept_block_ids (Some l') (r_self st)).
Qed.

(** ** The fields of a message *)

Definition read_field (junk : list Z) (f : field) : reader unit :=
  match f with
  | FProtocol => read_protocol junk
  | FVersion => read_version
  | FNumber8 n => self_number8 n
  | FNumber2 n => self_number2 n
  | FNumber1 o => self_number1 o
  | FString s => self_string s
  | FStrings => self_block_ids
  | FChunk c => self_chunk c
  | FFrame f => self_frame f
  | FMsg => self_block_data
  end.

Definition read_fields (junk : list Z) (fs : list field) : reader unit :=
  foldr (fun f k => read_field junk f ;;; k) (rret tt) fs.

Lemma recv_switch_spec junk i :
  recv_switch junk i = match layout i with Some fs => read_fields junk fs | None => malformed end.
Proof. destruct i as [|i|i]; [done| |done]. by repeat (destruct i as [i|i|]; try done). Qed.

(** A message is stored in fields of its own, and its block data is last. *)
Fixpoint msg_last (fs : list field) : bool :=
  match fs with
  | [] => true
  | f :: fs' => (negb (is_msg f) || match fs' with [] => true | _ => false end) && msg_last fs'
  end.

Lemma layout_ok i fs : layout i = Some fs -> NoDup (map slot fs) /\ msg_last fs = true /\ 1 <= i <= 43.
Proof.
  destruct i as [|i|i]; [done| |done].
  repeat (destruct i as [i|i|]; try done); intros [= <-]; (split; [|split; [done|lia]]);
    apply (bool_decide_unpack _); vm_compute; exact Logic.I.
Qed.

Section Fields.
Context (M : CzmqMemory) (junk : list Z) (Hj : length junk = 256%nat).

Lemma read_data_field f : data_field f = true -> reads_field f (read_field junk f).
Proof.
  destruct f; try done; intros _.
  - by apply read_protocol_spec.
  - apply read_version_spec.
  - apply self_number8_spec.
  - apply self_number2_spec.
  - apply self_number1_spec.
  - apply self_string_spec.
  - by apply self_block_ids_spec.
  - by apply self_chunk_spec.
Qed.

(** The frames [xs] of the message and then [rest] wait. *)
Definition sock_at (s : zsock) (xs : list (list Z)) (rest : list (list Z * bool)) : Prop :=
  inbox s = mark xs ++ rest /\ zsock_rcvmore s = match xs with [] => false | _ => true end.

Lemma mark_snoc ds d : mark (ds ++ [d]) = map (fun x => (x, true)) ds ++ [(d, false)].
Proof. induction ds as [|x ds IH]; [done|]. cbn [app mark map]. rewrite IH. by destruct ds. Qed.

Lemma self_frame_spec f data st x xs rest : sock_at (r_input st) (x :: xs) rest ->
  exists fr s', self_frame f data st = Ret (Some tt, RState (with_frame f (Some fr) (r_self st)) (r_needle st) s') /\
    sock_at s' xs rest /\ zframe_data fr = x.
Proof.
  intros [Hi Hm]. unfold self_frame. rewrite Hm. cbn [negb]. cbn [mark app] in Hi.
  destruct (zframe_recv_ok _ _ _ _ Hi) as (fr & s' & -> & Hd & Hi' & Hm'). by exists fr, s'.
Qed.

Lemma self_block_data_spec data st xs rest : sock_at (r_input st) xs rest ->
  exists m s', self_block_data data st = Ret (Some tt, RState (with_block_data (Some m) (r_self st)) (r_needle st) s') /\
    sock_at s' [] rest /\ map zframe_data (zmsg_items m) = xs.
Proof.
  intros [Hi Hm]. unfold self_block_data. rewrite Hm. destruct xs as [|y ys] using rev_ind.
  - exists zmsg_new, (r_input st). split; [done|]. split; [by split|]. by rewrite zmsg_new_items.
  - clear IHys. destruct (ys ++ [y]) as [|z zs] eqn:E; [by destruct ys|]. rewrite <- E in *.
    rewrite mark_snoc, <- app_assoc in Hi. destruct (zmsg_recv_ok _ _ _ _ Hi) as (m & s' & -> & Hd & Hi' & Hm').
    by exists m, s'.
Qed.

(** One field, wherever it is carried. *)
Lemma read_field_ok f v data st tl xs rest : bytes data -> wf (r_self st) -> valid f v ->
  at_ data st (enc f v ++ tl) -> sock_at (r_input st) (enc_frames f v ++ xs) rest -> (is_msg f = true -> xs = []) ->
  exists st', read_field junk f data st = Ret (Some tt, st') /\ at_ data st' tl /\ sock_at (r_input st') xs rest /\
    kept f (r_self st) (r_self st') /\ in_memory (r_self st') f = Some (stored f v).
Proof.
  intros Hb W Hv Ha Hs Hm. destruct (data_field f) eqn:Ef.
  - pose proof (read_data_field f Ef data st _ Hb Ha W) as E. rewrite (dec_enc f v tl Ef Hv) in E.
    destruct E as (st' & E & Ha' & Hi & K & Hval). exists st'. rewrite Hi. repeat split; try done; try apply K.
    all: destruct f; try done; apply Hs.
  - destruct f; try done; destruct v; try done; cbn [enc_frames] in Hs.
    + destruct (self_frame_spec f data st bs xs rest Hs) as (fr & s' & E & Hs' & Hd).
      eexists. split; [exact E|]. split; [exact Ha|]. split; [exact Hs'|]. split; [apply kept_frame|].
      cbn. rewrite upd_eq. cbn. by rewrite Hd.
    + rewrite (Hm eq_refl) in *. rewrite app_nil_r in Hs.
      destruct (self_block_data_spec data st xs0 rest Hs) as (m & s' & E & Hs' & Hd).
      eexists. split; [exact E|]. split; [exact Ha|]. split; [exact Hs'|]. split; [apply kept_block_data|].
      cbn. by rewrite Hd.
Qed.

(** Whatever is read, nothing faults and the message stays well formed. *)
Lemma read_field_safe f data st tl : bytes data -> wf (r_self st) -> at_ data st tl ->
  exists r st', read_field junk f data st = Ret (r, st') /\ kept f (r_self st) (r_self st') /\
    received (r_input st) (r_input st') /\ (r = Some tt -> exists tl', at_ data st' tl' /\ (data_field f = false -> tl' = tl)).
Proof.
  intros Hb W Ha. destruct (data_field f) eqn:Ef.
  - pose proof (read_data_field f Ef data st _ Hb Ha W) as E. destruct (dec f tl) as [[v tl']|].
    + destruct E as (st' & E & Ha' & Hi & K & _). exists (Some tt), st'. split; [done|]. split; [done|]. rewrite Hi.
      split; [done|]. by exists tl'.
    + destruct E as (st' & E & Hi & K). exists None, st'. rewrite Hi. done.
  - destruct f; try done; cbn [read_field].
    + unfold self_frame. destruct (zsock_rcvmore (r_input st)); cbn [negb].
      * pose proof (zframe_recv_keeps (r_input st)) as Hk. destruct (zframe_recv (r_input st)) as [fr s'].
        do 2 eexists. split; [done|]. split; [apply kept_frame|]. split; [exact Hk|]. by exists tl.
      * exists None, st. split; [done|]. split; [apply kept_refl|done].
    + unfold self_block_data. destruct (zsock_rcvmore (r_input st)).
      * pose proof (zmsg_recv_keeps (r_input st)) as Hk. destruct (zmsg_recv (r_input st)) as [m s'].
        do 2 eexists. split; [done|]. split; [apply kept_block_data|]. split; [exact Hk|]. by exists tl.
      * do 2 eexists. split; [done|]. split; [apply kept_block_data|]. split; [done|]. by exists tl.
Qed.

Lemma read_fields_safe fs data st tl : bytes data -> wf (r_self st) -> at_ data st tl ->
  exists r st', read_fields junk fs data st = Ret (r, st') /\ wf (r_self st') /\ id (r_self st') = id (r_self st) /\
    routing_id (r_self st') = routing_id (r_self st) /\ received (r_input st) (r_input st').
Proof.
  intros Hb. revert st tl. induction fs as [|f fs IH]; intros st tl W Ha; cbn [read_fields foldr].
  - by exists (Some tt), st.
  - destruct (read_field_safe f data st tl Hb W Ha) as (r & st1 & E & K & Hk & Ha1). unfold rbind at 1. rewrite E. cbn [bind].
    pose proof (kept_wf _ _ _ K W) as W1. destruct r as [[]|].
    + destruct (Ha1 eq_refl) as (tl1 & Ha1' & _). destruct (IH st1 tl1 W1 Ha1') as (r & st' & E' & W' & Hi & Hr & Hk').
      exists r, st'. rewrite (kept_id _ _ _ K) in Hi. rewrite (kept_routing_id _ _ _ K) in Hr.
      split; [done|]. split; [done|]. split; [done|]. split; [done|]. by transitivity (r_input st1).
    + exists None, st1. split; [done|]. split; [done|]. split; [apply K|]. split; [apply K|done].
Qed.

(** What the receiver holds of each field. *)
Definition holds (p : wap_proto_t) (fvs : list (field * value)) : Prop :=
  Forall (fun fv => field_value p (fst fv) = stored (fst fv) (snd fv)) fvs.

(** The same of the struct itself: no pointer is NULL, numbers are as sent. *)
Definition stores (p : wap_proto_t) (fvs : list (field * value)) : Prop :=
  Forall (fun fv => in_memory p (fst fv) = Some (stored (fst fv) (snd fv))) fvs.

Definition all_valid (fvs : list (field * value)) : Prop := Forall (fun fv => valid (fst fv) (snd fv)) fvs.

Lemma carries_stored f v : valid f v -> carries f (stored f v) = stored f v.
Proof. destruct f, v; try done. intros Hv. cbn -[Z.pow]. by rewrite Z.mod_small. Qed.

Lemma stores_value p f v : valid f v -> in_memory p f = Some (stored f v) -> field_value p f = stored f v.
Proof. intros Hv E. rewrite field_value_memory, E. by apply carries_stored. Qed.

Lemma stores_holds p fvs : all_valid fvs -> stores p fvs -> holds p fvs.
Proof.
  intros Hv Hs. unfold holds. apply Forall_forall. intros fv Hfv. apply stores_value.
  - by apply (proj1 (Forall_forall _ _) Hv).
  - by apply (proj1 (Forall_forall _ _) Hs).
Qed.

Definition enc_all (fvs : list (field * value)) : list Z := concat (map (fun fv => enc (fst fv) (snd fv)) fvs).

Lemma read_fields_ok fvs data st tl extra rest : bytes data -> wf (r_self st) -> all_valid fvs ->
  NoDup (map slot (map fst fvs)) -> msg_last (map fst fvs) = true ->
  (existsb is_msg (map fst fvs) = true -> extra = []) ->
  at_ data st (enc_all fvs ++ tl) -> sock_at (r_input st) (more_frames fvs ++ extra) rest ->
  exists st', read_fields junk (map fst fvs) data st = Ret (Some tt, st') /\ at_ data st' tl /\
    sock_at (r_input st') extra rest /\ wf (r_self st') /\ id (r_self st') = id (r_self st) /\
    routing_id (r_self st') = routing_id (r_self st) /\ stores (r_self st') fvs /\
    (forall g, slot g ∉ map slot (map fst fvs) -> in_memory (r_self st') g = in_memory (r_self st) g).
Proof.
  intros Hb. revert st. induction fvs as [|[f v] fvs IH]; intros st W Hv Hn Hl Hx Ha Hs.
  - exists st. by repeat split; try apply List.Forall_nil; try apply Hs; try apply W.
  - apply List.Forall_cons_iff in Hv as [Hv Hvs]. cbn [map fst snd] in *. pose proof (NoDup_cons_1_1 _ _ Hn) as Hf. apply NoDup_cons_1_2 in Hn.
    cbn [msg_last] in Hl. apply andb_true_iff in Hl as [Hl0 Hl].
    unfold enc_all, more_frames in Ha, Hs. cbn [map concat fst snd] in Ha, Hs. rewrite <- app_assoc in Ha, Hs.
    assert (is_msg f = true -> more_frames fvs ++ extra = []) as Hm.
    { intros Hf'. rewrite Hf' in Hl0. destruct fvs; [|done]. cbn. apply Hx. cbn [existsb]. by rewrite Hf'. }
    destruct (read_field_ok f v data st _ _ rest Hb W Hv Ha Hs Hm) as (st1 & E & Ha1 & Hs1 & K & Hval).
    destruct (IH st1 (kept_wf _ _ _ K W) Hvs Hn Hl) as (st' & E' & Ha' & Hs' & W' & Hi & Hr & Hh & Hk);
      [intros Hf'; apply Hx; cbn [existsb]; by rewrite Hf', orb_true_r|done|done|].
    exists st'. cbn [read_fields foldr]. unfold rbind at 1. rewrite E. cbn [bind].
    split; [exact E'|]. split; [done|]. split; [done|]. split; [done|].
    split; [by rewrite Hi, (kept_id _ _ _ K)|]. split; [by rewrite Hr, (kept_routing_id _ _ _ K)|]. split.
    + apply List.Forall_cons; [|done]. cbn [fst snd]. by rewrite (Hk f Hf).
    + intros g Hg. rewrite not_elem_of_cons in Hg. destruct Hg as [Hg1 Hg2]. rewrite (Hk g Hg2). by apply K.
Qed.

(** What is accepted begins with the fields, and holds their values. *)
Lemma read_fields_sound fs data st st' tl : bytes data -> wf (r_self st) -> NoDup (map slot fs) -> at_ data st tl ->
  read_fields junk fs data st = Ret (Some tt, st') ->
  exists fvs tl', map fst fvs = List.filter data_field fs /\ all_valid fvs /\ tl = enc_all fvs ++ tl' /\
    holds (r_self st') fvs /\ (forall g, slot g ∉ map slot fs -> field_value (r_self st') g = field_value (r_self st) g).
Proof.
  intros Hb. revert st tl. induction fs as [|f fs IH]; intros st tl W Hn Ha; cbn [read_fields foldr].
  - intros [= <-]. exists [], tl. repeat split; try done; apply List.Forall_nil.
  - cbn [map] in Hn. pose proof (NoDup_cons_1_1 _ _ Hn) as Hf. apply NoDup_cons_1_2 in Hn. unfold rbind at 1. cbn [List.filter].
    destruct (data_field f) eqn:Ef.
    + pose proof (read_data_field f Ef data st _ Hb Ha W) as E. destruct (dec f tl) as [[v tl1]|] eqn:Ed.
      2:{ destruct E as (st1 & E & _). by rewrite E. }
      destruct E as (st1 & E & Ha1 & _ & K & Hval). rewrite E. cbn [bind]. intros E'.
      destruct (IH st1 tl1 (kept_wf _ _ _ K W) Hn Ha1 E') as (fvs & tl' & Hm & Hv & -> & Hh & Hk).
      apply (enc_dec f) in Ed as (-> & Hv0 & _); [|by eapply at_bytes]. apply (stores_value _ _ _ Hv0) in Hval.
      exists ((f, v) :: fvs), tl'. cbn [map fst]. rewrite Hm. split; [done|].
      split; [by apply List.Forall_cons|]. split; [unfold enc_all; cbn [map concat fst snd]; by rewrite <- app_assoc|].
      split; [apply List.Forall_cons; [cbn [fst snd]; by rewrite (Hk f Hf)|done]|].
      intros g Hg. rewrite not_elem_of_cons in Hg. destruct Hg as [Hg1 Hg2]. rewrite (Hk g Hg2). by apply (kept_fields _ _ _ _ K).
    + destruct (read_field_safe f data st tl Hb W Ha) as (r & st1 & E & K & _ & Ha1). rewrite E. cbn [bind].
      destruct r as [[]|]; [|done]. intros E'. destruct (Ha1 eq_refl) as (tl1 & Ha1' & Htl1). rewrite (Htl1 Ef) in Ha1'.
      destruct (IH st1 tl (kept_wf _ _ _ K W) Hn Ha1' E') as (fvs & tl' & Hm & Hv & Htl & Hh & Hk).
      exists fvs, tl'. split; [done|]. split; [done|]. split; [done|]. split; [done|].
      intros g Hg. cbn [map] in Hg. rewrite not_elem_of_cons in Hg. destruct Hg as [Hg1 Hg2]. rewrite (Hk g Hg2). by apply (kept_fields _ _ _ _ K).
Qed.

(** ** The whole function *)

Lemma wf_with_id p i : wf p -> wf (with_id i p).
Proof. intros [W1 W2 W3]. by split. Qed.

Lemma wf_with_routing_id p r : wf p -> wf (with_routing_id r p).
Proof. intros [W1 W2 W3]. by split. Qed.

(** The signature and the message id. *)
Lemma recv_header data st tl : bytes data -> at_ data st tl ->
  (exists i st1 tl2, tl = header i ++ tl2 /\ 0 <= i < 2 ^ 8 /\ r_self st1 = with_id i (r_self st) /\
     r_input st1 = r_input st /\ at_ data st1 tl2 /\ recv_frame junk data st = recv_switch junk i data st1) \/
  (exists st1, recv_frame junk data st = Ret (None, st1) /\ r_self st1 = r_self st /\ r_input st1 = r_input st /\
     forall i tl2, 0 <= i < 2 ^ 8 -> tl <> header i ++ tl2).
Proof.
  intros Hb Ha. pose proof (at_bytes _ _ _ Hb Ha) as Htl. pose proof (GET_NUMBER2_spec data st tl Ha) as E.
  assert (forall i tl2, 0 <= i < 2 ^ 8 -> tl = header i ++ tl2 ->
    dec_number 2 tl = Some (0xAAA0, be_bytes 1 i ++ tl2) /\ dec_number 1 (be_bytes 1 i ++ tl2) = Some (i, tl2)) as Hh.
  { intros i tl2 Hi ->. unfold header. rewrite <- app_assoc. by rewrite !dec_number_app. }
  unfold recv_frame, rbind. destruct (dec_number 2 tl) as [[v tl1]|] eqn:Ed.
  2:{ right. exists st. rewrite E. split; [done|]. split; [done|]. split; [done|]. intros i tl2 Hi ->. by destruct (Hh i tl2 Hi eq_refl). }
  destruct E as [-> Ha1]. cbn [bind]. change (Z.lor 43680 0) with 0xAAA0.
  destruct (Z.eqb_spec v 0xAAA0) as [->|Hv]; cbn [negb].
  2:{ right. eexists. split; [done|]. split; [done|]. split; [done|]. intros i tl2 Hi ->. destruct (Hh i tl2 Hi eq_refl). congruence. }
  pose proof (GET_NUMBER1_spec data _ _ Ha1) as E. destruct (dec_number 1 tl1) as [[i tl2]|] eqn:Ed1.
  2:{ right. eexists. rewrite E. split; [done|]. split; [done|]. split; [done|]. intros i tl2 Hi ->. destruct (Hh i tl2 Hi eq_refl). congruence. }
  destruct E as [-> Ha2]. cbn [bind]. unfold modify. cbn [bind]. left.
  apply (dec_number_inv _ _ _ _ Htl) in Ed as (-> & _ & Hb1). apply (dec_number_inv _ _ _ _ Hb1) in Ed1 as (-> & Hi & _).
  exists i, (RState (with_id i (r_self st)) (r_needle (advance 1 (advance 2 st))) (r_input st)), tl2.
  split; [unfold header; by rewrite <- app_assoc|]. split; [done|]. split; [done|]. split; [done|]. by split.
Qed.

Lemma recv_data_ok p input i fs fvs tl extra rest : wf p -> layout i = Some fs -> map fst fvs = fs -> all_valid fvs ->
  (existsb is_msg fs = true -> extra = []) ->
  inbox input = mark ((data_frame i fvs ++ tl) :: more_frames fvs ++ extra) ++ rest ->
  yields (recv_data junk p input) (fun '(rc, p', input') =>
    rc = 0 /\ id p' = i /\ wf p' /\ stores p' fvs /\ routing_id p' = routing_id p /\ inbox input' = mark extra ++ rest).
Proof.
  intros W L Hf Hv Hx Hi. unfold recv_data. cbn [mark app] in Hi.
  destruct (zmq_msg_recv_ok _ _ _ _ Hi) as (s1 & Es & Hi1 & Hm1). rewrite Es.
  pose proof (zmq_msg_recv_bytes _ _ _ Es) as Hb. set (data := data_frame i fvs ++ tl) in *.
  assert (at_ data (RState p 0 s1) data) as Ha by (by exists []).
  destruct (layout_ok i fs L) as (Hn & Hl & Hr).
  assert (data = header i ++ (enc_all fvs ++ tl)) as Hd by (unfold data, data_frame, enc_all; by rewrite <- app_assoc).
  destruct (recv_header data _ _ Hb Ha) as [(j & st1 & tl2 & Hd2 & Hj' & Hs1 & Hi2 & Ha1 & E)|(st1 & _ & _ & _ & Hno)].
  2:{ destruct (Hno i (enc_all fvs ++ tl) ltac:(lia) Hd). }
  assert (header i ++ enc_all fvs ++ tl = header j ++ tl2) as Hd3 by congruence.
  apply app_inj_1 in Hd3 as [Hij <-]; [|unfold header; by rewrite !length_app, !length_be_bytes].
  assert (i = j) as <-.
  { unfold header in Hij. apply app_inv_head in Hij. apply (f_equal be_val) in Hij.
    rewrite !be_val_be_bytes in Hij. cbn [Z.of_nat] in Hij. rewrite !Z.mod_small in Hij by lia. done. }
  rewrite E, recv_switch_spec, L. subst fs.
  destruct (read_fields_ok fvs data st1 tl extra rest) as (st' & E' & _ & Hs' & W' & Hi' & Hr' & Hh & _); try done.
  - rewrite Hs1. by apply wf_with_id.
  - rewrite Hi2. cbn [r_input]. split; [done|]. rewrite Hm1. by destruct (more_frames fvs ++ extra).
  - rewrite E'. cbn [bind]. apply yields_ret. rewrite Hi', Hr', Hs1. destruct Hs'. done.
Qed.

Lemma recv_data_safe p input : wf p ->
  yields (recv_data junk p input) (fun '(rc, p', input') =>
    (rc = 0 \/ rc = -1) /\ wf p' /\ routing_id p' = routing_id p /\ received input input').
Proof.
  intros W. unfold recv_data. pose proof (zmq_msg_recv_keeps input) as Hk.
  destruct (zmq_msg_recv input) as [[data|] s1] eqn:Es; cbn [snd] in Hk; [|by apply yields_ret; auto].
  pose proof (zmq_msg_recv_bytes _ _ _ Es) as Hb.
  assert (at_ data (RState p 0 s1) data) as Ha by (by exists []).
  destruct (recv_header data _ _ Hb Ha) as [(i & st1 & tl2 & _ & _ & Hs1 & Hi1 & Ha1 & E)|(st1 & E & Hs1 & Hi1 & _)];
    cbn [r_input] in Hi1.
  - rewrite E, recv_switch_spec. assert (wf (r_self st1)) as W1 by (rewrite Hs1; by apply wf_with_id).
    destruct (layout i) as [fs|].
    + destruct (read_fields_safe fs data st1 tl2 Hb W1 Ha1) as (r & st' & -> & W' & _ & Hr & Hk'). cbn [bind].
      apply yields_ret. rewrite Hr, Hs1. rewrite Hi1 in Hk'. split; [by destruct r; auto|]. split; [done|].
      split; [done|]. by transitivity s1.
    + apply yields_ret. rewrite Hs1 at 2. rewrite Hi1. auto.
  - rewrite E. apply yields_ret. rewrite Hs1, Hi1. auto.
Qed.

Lemma recv_data_sound p input data p' input' : wf p -> fst (zmq_msg_recv input) = Some data ->
  recv_data junk p input = Ret (0, p', input') ->
  exists fs fvs tl, layout (id p') = Some fs /\ map fst fvs = List.filter data_field fs /\ all_valid fvs /\
    data = data_frame (id p') fvs ++ tl /\ holds p' fvs.
Proof.
  intros W Hd. unfold recv_data. destruct (zmq_msg_recv input) as [d s1] eqn:Es. cbn [fst] in Hd. subst d.
  pose proof (zmq_msg_recv_bytes _ _ _ Es) as Hb.
  assert (at_ data (RState p 0 s1) data) as Ha by (by exists []).
  destruct (recv_header data _ _ Hb Ha) as [(i & st1 & tl2 & -> & Hi & Hs1 & _ & Ha1 & E)|(st1 & E & Hs1 & _)].
  2:{ rewrite E. done. }
  rewrite E, recv_switch_spec. assert (wf (r_self st1)) as W1 by (rewrite Hs1; by apply wf_with_id).
  destruct (layout i) as [fs|] eqn:L; [|done]. destruct (layout_ok i fs L) as (Hn & _ & _).
  destruct (read_fields_safe fs _ st1 tl2 Hb W1 Ha1) as (r & st' & E' & _ & Hid & _ & _). rewrite E'. cbn [bind].
  destruct r as [[]|]; [|done]. intros [= <- <-]. rewrite Hid, Hs1. cbn [id with_id].
  destruct (read_fields_sound fs _ st1 st' tl2 Hb W1 Hn Ha1 E') as (fvs & tl' & Hm & Hv & -> & Hh & _).
  exists fs, fvs, tl'. split; [done|]. split; [done|]. split; [done|]. split; [|done].
  unfold data_frame, enc_all. by rewrite <- app_assoc.
Qed.

End Fields.

End Recv.
