(* ===== verification/WapAccess.v ===== *)
(** The rest of wap_proto.c: the accessors of the message's fields, one
    definition for each function, the names of the commands, and the theorem
    that the invariant of the struct holds of every message the functions can
    build.  An accessor that transfers ownership leaves NULL behind. *)

From Stdlib Require Import String.
From S2P Require Import Prelude Limbs Bytes Words Memory Czmq WapProto WapGrammar WapSend WapRecv.

Section Access.
Context `{Czmq}.

(** [*self_p] is NULL afterwards, whatever it was. *)
Definition wap_proto_destroy (self_p : option wap_proto_t) : option wap_proto_t :=
  match self_p with None => None | Some _ => None end.

(** ** Routing id, message id *)
Definition wap_proto_routing_id (self : wap_proto_t) : option zframe := routing_id self.
Definition wap_proto_set_routing_id (self : wap_proto_t) (r : option zframe) : wap_proto_t := with_routing_id (zframe_dup r) self.
Definition wap_proto_id (self : wap_proto_t) : Z := id self.
Definition wap_proto_set_id (self : wap_proto_t) (i : Z) : wap_proto_t := with_id i self.

Definition wap_proto_command (self : wap_proto_t) : String.string :=
  match id self with
  | WAP_PROTO_OPEN => "OPEN"
  | WAP_PROTO_OPEN_OK => "OPEN_OK"
  | WAP_PROTO_BLOCKS => "BLOCKS"
  | WAP_PROTO_BLOCKS_OK => "BLOCKS_OK"
  | WAP_PROTO_PUT => "PUT"
  | WAP_PROTO_PUT_OK => "PUT_OK"
  | WAP_PROTO_OUTPUT_INDEXES => "OUTPUT_INDEXES"
  | WAP_PROTO_OUTPUT_INDEXES_OK => "OUTPUT_INDEXES_OK"
  | WAP_PROTO_RANDOM_OUTS => "RANDOM_OUTS"
  | WAP_PROTO_RANDOM_OUTS_OK => "RANDOM_OUTS_OK"
  | WAP_PROTO_GET_HEIGHT => "GET_HEIGHT"
  | WAP_PROTO_GET_HEIGHT_OK => "GET_HEIGHT_OK"
  | WAP_PROTO_GET => "GET"
  | WAP_PROTO_GET_OK => "GET_OK"
  | WAP_PROTO_SAVE_BC => "SAVE_BC"
  | WAP_PROTO_SAVE_BC_OK => "SAVE_BC_OK"
  | WAP_PROTO_START => "START"
  | WAP_PROTO_START_OK => "START_OK"
  | WAP_PROTO_GET_INFO => "GET_INFO"
  | WAP_PROTO_GET_INFO_OK => "GET_INFO_OK"
  | WAP_PROTO_GET_PEER_LIST => "GET_PEER_LIST"
  | WAP_PROTO_GET_PEER_LIST_OK => "GET_PEER_LIST_OK"
  | WAP_PROTO_GET_MINING_STATUS => "GET_MINING_STATUS"
  | WAP_PROTO_GET_MINING_STATUS_OK => "GET_MINING_STATUS_OK"
  | WAP_PROTO_SET_LOG_HASH_RATE => "SET_LOG_HASH_RATE"
  | WAP_PROTO_SET_LOG_HASH_RATE_OK => "SET_LOG_HASH_RATE_OK"
  | WAP_PROTO_SET_LOG_LEVEL => "SET_LOG_LEVEL"
  | WAP_PROTO_SET_LOG_LEVEL_OK => "SET_LOG_LEVEL_OK"
  | WAP_PROTO_START_SAVE_GRAPH => "START_SAVE_GRAPH"
  | WAP_PROTO_START_SAVE_GRAPH_OK => "START_SAVE_GRAPH_OK"
  | WAP_PROTO_STOP_SAVE_GRAPH => "STOP_SAVE_GRAPH"
  | WAP_PROTO_STOP_SAVE_GRAPH_OK => "STOP_SAVE_GRAPH_OK"
  | WAP_PROTO_GET_BLOCK_HASH => "GET_BLOCK_HASH"
  | WAP_PROTO_GET_BLOCK_HASH_OK => "GET_BLOCK_HASH_OK"
  | WAP_PROTO_GET_BLOCK_TEMPLATE => "GET_BLOCK_TEMPLATE"
  | WAP_PROTO_GET_BLOCK_TEMPLATE_OK => "GET_BLOCK_TEMPLATE_OK"
  | WAP_PROTO_STOP => "STOP"
  | WAP_PROTO_STOP_OK => "STOP_OK"
  | WAP_PROTO_CLOSE => "CLOSE"
  | WAP_PROTO_CLOSE_OK => "CLOSE_OK"
  | WAP_PROTO_PING => "PING"
  | WAP_PROTO_PING_OK => "PING_OK"
  | WAP_PROTO_ERROR => "ERROR"
  | _ => "?"
  end%string.

(** ** Strings *)

(** [strncpy (dst, value, 255); dst [255] = 0], of a string without the
    terminator: the rest of the 255 characters is cleared. *)
Definition strncpy255 (value : list Z) : list Z := take 255 (value ++ replicate 255 0) ++ [0].

Definition wap_proto_identity (self : wap_proto_t) : list Z := strings self identity.
Definition wap_proto_set_identity (self : wap_proto_t) (value : list Z) : wap_proto_t :=
  with_string identity (strncpy255 value) self.
Definition wap_proto_reason (self : wap_proto_t) : list Z := strings self reason.
Definition wap_proto_set_reason (self : wap_proto_t) (value : list Z) : wap_proto_t :=
  with_string reason (strncpy255 value) self.

(** ** Lists and messages *)
Definition wap_proto_block_ids (self : wap_proto_t) : option zlist := block_ids self.
Definition wap_proto_get_block_ids (self : wap_proto_t) : option zlist * wap_proto_t := (block_ids self, with_block_ids None self).
Definition wap_proto_set_block_ids (self : wap_proto_t) (block_ids_p : option zlist) : wap_proto_t * option zlist :=
  (with_block_ids block_ids_p self, None).
Definition wap_proto_block_data (self : wap_proto_t) : option zmsg := block_data self.
Definition wap_proto_get_block_data (self : wap_proto_t) : option zmsg * wap_proto_t := (block_data self, with_block_data None self).
Definition wap_proto_set_block_data (self : wap_proto_t) (msg_p : option zmsg) : wap_proto_t * option zmsg :=
  (with_block_data msg_p self, None).

(** ** Numbers, chunks and frames *)
Definition wap_proto_start_height (self : wap_proto_t) : Z := numbers self start_height.
Definition wap_proto_set_start_height (self : wap_proto_t) (v : Z) : wap_proto_t := with_number start_height (uwrap 64 v) self.
Definition wap_proto_status (self : wap_proto_t) : Z := numbers self status.
Definition wap_proto_set_status (self : wap_proto_t) (v : Z) : wap_proto_t := with_number status (uwrap 64 v) self.
Definition wap_proto_curr_height (self : wap_proto_t) : Z := numbers self curr_height.
Definition wap_proto_set_curr_height (self : wap_proto_t) (v : Z) : wap_proto_t := with_number curr_height (uwrap 64 v) self.
Definition wap_proto_outs_count (self : wap_proto_t) : Z := numbers self outs_count.
Definition wap_proto_set_outs_count (self : wap_proto_t) (v : Z) : wap_proto_t := with_number outs_count (uwrap 64 v) self.
Definition wap_proto_height (self : wap_proto_t) : Z := numbers self height.
Definition wap_proto_set_height (self : wap_proto_t) (v : Z) : wap_proto_t := with_number height (uwrap 64 v) self.
Definition wap_proto_thread_count (self : wap_proto_t) : Z := numbers self thread_count.
Definition wap_proto_set_thread_count (self : wap_proto_t) (v : Z) : wap_proto_t := with_number thread_count (uwrap 64 v) self.
Definition wap_proto_target_height (self : wap_proto_t) : Z := numbers self target_height.
Definition wap_proto_set_target_height (self : wap_proto_t) (v : Z) : wap_proto_t := with_number target_height (uwrap 64 v) self.
Definition wap_proto_difficulty (self : wap_proto_t) : Z := numbers self difficulty.
Definition wap_proto_set_difficulty (self : wap_proto_t) (v : Z) : wap_proto_t := with_number difficulty (uwrap 64 v) self.
Definition wap_proto_tx_count (self : wap_proto_t) : Z := numbers self tx_count.
Definition wap_proto_set_tx_count (self : wap_proto_t) (v : Z) : wap_proto_t := with_number tx_count (uwrap 64 v) self.
Definition wap_proto_tx_pool_size (self : wap_proto_t) : Z := numbers self tx_pool_size.
Definition wap_proto_set_tx_pool_size (self : wap_proto_t) (v : Z) : wap_proto_t := with_number tx_pool_size (uwrap 64 v) self.
Definition wap_proto_alt_blocks_count (self : wap_proto_t) : Z := numbers self alt_blocks_count.
Definition wap_proto_set_alt_blocks_count (self : wap_proto_t) (v : Z) : wap_proto_t := with_number alt_blocks_count (uwrap 64 v) self.
Definition wap_proto_outgoing_connections_count (self : wap_proto_t) : Z := numbers self outgoing_connections_count.
Definition wap_proto_set_outgoing_connections_count (self : wap_proto_t) (v : Z) : wap_proto_t := with_number outgoing_connections_count (uwrap 64 v) self.
Definition wap_proto_incoming_connections_count (self : wap_proto_t) : Z := numbers self incoming_connections_count.
Definition wap_proto_set_incoming_connections_count (self : wap_proto_t) (v : Z) : wap_proto_t := with_number incoming_connections_count (uwrap 64 v) self.
Definition wap_proto_white_peerlist_size (self : wap_proto_t) : Z := numbers self white_peerlist_size.
Definition wap_proto_set_white_peerlist_size (self : wap_proto_t) (v : Z) : wap_proto_t := with_number white_peerlist_size (uwrap 64 v) self.
Definition wap_proto_grey_peerlist_size (self : wap_proto_t) : Z := numbers self grey_peerlist_size.
Definition wap_proto_set_grey_peerlist_size (self : wap_proto_t) (v : Z) : wap_proto_t := with_number grey_peerlist_size (uwrap 64 v) self.
Definition wap_proto_speed (self : wap_proto_t) : Z := numbers self speed.
Definition wap_proto_set_speed (self : wap_proto_t) (v : Z) : wap_proto_t := with_number speed (uwrap 64 v) self.
Definition wap_proto_reserve_size (self : wap_proto_t) : Z := numbers self reserve_size.
Definition wap_proto_set_reserve_size (self : wap_proto_t) (v : Z) : wap_proto_t := with_number reserve_size (uwrap 64 v) self.
Definition wap_proto_reserved_offset (self : wap_proto_t) : Z := numbers self reserved_offset.
Definition wap_proto_set_reserved_offset (self : wap_proto_t) (v : Z) : wap_proto_t := with_number reserved_offset (uwrap 64 v) self.
Definition wap_proto_active (self : wap_proto_t) : Z := octets self active.
Definition wap_proto_set_active (self : wap_proto_t) (v : Z) : wap_proto_t := with_octet active (uwrap 8 v) self.
Definition wap_proto_visible (self : wap_proto_t) : Z := octets self visible.
Definition wap_proto_set_visible (self : wap_proto_t) (v : Z) : wap_proto_t := with_octet visible (uwrap 8 v) self.
Definition wap_proto_level (self : wap_proto_t) : Z := octets self level.
Definition wap_proto_set_level (self : wap_proto_t) (v : Z) : wap_proto_t := with_octet level (uwrap 8 v) self.
Definition wap_proto_tx_as_hex (self : wap_proto_t) : option zchunk := chunks self tx_as_hex.
Definition wap_proto_get_tx_as_hex (self : wap_proto_t) : option zchunk * wap_proto_t := (chunks self tx_as_hex, with_chunk tx_as_hex None self).
Definition wap_proto_set_tx_as_hex (self : wap_proto_t) (chunk_p : option zchunk) : wap_proto_t * option zchunk := (with_chunk tx_as_hex chunk_p self, None).
Definition wap_proto_tx_id (self : wap_proto_t) : option zchunk := chunks self tx_id.
Definition wap_proto_get_tx_id (self : wap_proto_t) : option zchunk * wap_proto_t := (chunks self tx_id, with_chunk tx_id None self).
Definition wap_proto_set_tx_id (self : wap_proto_t) (chunk_p : option zchunk) : wap_proto_t * option zchunk := (with_chunk tx_id chunk_p self, None).
Definition wap_proto_tx_data (self : wap_proto_t) : option zchunk := chunks self tx_data.
Definition wap_proto_get_tx_data (self : wap_proto_t) : option zchunk * wap_proto_t := (chunks self tx_data, with_chunk tx_data None self).
Definition wap_proto_set_tx_data (self : wap_proto_t) (chunk_p : option zchunk) : wap_proto_t * option zchunk := (with_chunk tx_data chunk_p self, None).
Definition wap_proto_address (self : wap_proto_t) : option zchunk := chunks self address.
Definition wap_proto_get_address (self : wap_proto_t) : option zchunk * wap_proto_t := (chunks self address, with_chunk address None self).
Definition wap_proto_set_address (self : wap_proto_t) (chunk_p : option zchunk) : wap_proto_t * option zchunk := (with_chunk address chunk_p self, None).
Definition wap_proto_hash (self : wap_proto_t) : option zchunk := chunks self hash.
Definition wap_proto_get_hash (self : wap_proto_t) : option zchunk * wap_proto_t := (chunks self hash, with_chunk hash None self).
Definition wap_proto_set_hash (self : wap_proto_t) (chunk_p : option zchunk) : wap_proto_t * option zchunk := (with_chunk hash chunk_p self, None).
Definition wap_proto_prev_hash (self : wap_proto_t) : option zchunk := chunks self prev_hash.
Definition wap_proto_get_prev_hash (self : wap_proto_t) : option zchunk * wap_proto_t := (chunks self prev_hash, with_chunk prev_hash None self).
Definition wap_proto_set_prev_hash (self : wap_proto_t) (chunk_p : option zchunk) : wap_proto_t * option zchunk := (with_chunk prev_hash chunk_p self, None).
Definition wap_proto_block_template_blob (self : wap_proto_t) : option zchunk := chunks self block_template_blob.
Definition wap_proto_get_block_template_blob (self : wap_proto_t) : option zchunk * wap_proto_t := (chunks self block_template_blob, with_chunk block_template_blob None self).
Definition wap_proto_set_block_template_blob (self : wap_proto_t) (chunk_p : option zchunk) : wap_proto_t * option zchunk := (with_chunk block_template_blob chunk_p self, None).
Definition wap_proto_o_indexes (self : wap_proto_t) : option zframe := frames self o_indexes.
Definition wap_proto_get_o_indexes (self : wap_proto_t) : option zframe * wap_proto_t := (frames self o_indexes, with_frame o_indexes None self).
Definition wap_proto_set_o_indexes (self : wap_proto_t) (frame_p : option zframe) : wap_proto_t * option zframe := (with_frame o_indexes frame_p self, None).
Definition wap_proto_amounts (self : wap_proto_t) : option zframe := frames self amounts.
Definition wap_proto_get_amounts (self : wap_proto_t) : option zframe * wap_proto_t := (frames self amounts, with_frame amounts None self).
Definition wap_proto_set_amounts (self : wap_proto_t) (frame_p : option zframe) : wap_proto_t * option zframe := (with_frame amounts frame_p self, None).
Definition wap_proto_random_outputs (self : wap_proto_t) : option zframe := frames self random_outputs.
Definition wap_proto_get_random_outputs (self : wap_proto_t) : option zframe * wap_proto_t := (frames self random_outputs, with_frame random_outputs None self).
Definition wap_proto_set_random_outputs (self : wap_proto_t) (frame_p : option zframe) : wap_proto_t * option zframe := (with_frame random_outputs frame_p self, None).
Definition wap_proto_white_list (self : wap_proto_t) : option zframe := frames self white_list.
Definition wap_proto_get_white_list (self : wap_proto_t) : option zframe * wap_proto_t := (frames self white_list, with_frame white_list None self).
Definition wap_proto_set_white_list (self : wap_proto_t) (frame_p : option zframe) : wap_proto_t * option zframe := (with_frame white_list frame_p self, None).
Definition wap_proto_gray_list (self : wap_proto_t) : option zframe := frames self gray_list.
Definition wap_proto_get_gray_list (self : wap_proto_t) : option zframe * wap_proto_t := (frames self gray_list, with_frame gray_list None self).
Definition wap_proto_set_gray_list (self : wap_proto_t) (frame_p : option zframe) : wap_proto_t * option zframe := (with_frame gray_list frame_p self, None).

(** ** The functions that change a message *)

Definition set_number (n : number) : wap_proto_t -> Z -> wap_proto_t :=
  match n with
  | start_height => wap_proto_set_start_height
  | status => wap_proto_set_status
  | curr_height => wap_proto_set_curr_height
  | outs_count => wap_proto_set_outs_count
  | height => wap_proto_set_height
  | thread_count => wap_proto_set_thread_count
  | target_height => wap_proto_set_target_height
  | difficulty => wap_proto_set_difficulty
  | tx_count => wap_proto_set_tx_count
  | tx_pool_size => wap_proto_set_tx_pool_size
  | alt_blocks_count => wap_proto_set_alt_blocks_count
  | outgoing_connections_count => wap_proto_set_outgoing_connections_count
  | incoming_connections_count => wap_proto_set_incoming_connections_count
  | white_peerlist_size => wap_proto_set_white_peerlist_size
  | grey_peerlist_size => wap_proto_set_grey_peerlist_size
  | speed => wap_proto_set_speed
  | reserve_size => wap_proto_set_reserve_size
  | reserved_offset => wap_proto_set_reserved_offset
  end.

Definition set_octet (o : octet) : wap_proto_t -> Z -> wap_proto_t :=
  match o with active => wap_proto_set_active | visible => wap_proto_set_visible | level => wap_proto_set_level end.

Definition set_chunk (c : chunk_field) : wap_proto_t -> option zchunk -> wap_proto_t * option zchunk :=
  match c with
  | tx_as_hex => wap_proto_set_tx_as_hex
  | tx_id => wap_proto_set_tx_id
  | tx_data => wap_proto_set_tx_data
  | address => wap_proto_set_address
  | hash => wap_proto_set_hash
  | prev_hash => wap_proto_set_prev_hash
  | block_template_blob => wap_proto_set_block_template_blob
  end.

Definition get_chunk (c : chunk_field) : wap_proto_t -> option zchunk * wap_proto_t :=
  match c with
  | tx_as_hex => wap_proto_get_tx_as_hex
  | tx_id => wap_proto_get_tx_id
  | tx_data => wap_proto_get_tx_data
  | address => wap_proto_get_address
  | hash => wap_proto_get_hash
  | prev_hash => wap_proto_get_prev_hash
  | block_template_blob => wap_proto_get_block_template_blob
  end.

Definition set_frame (f : frame_field) : wap_proto_t -> option zframe -> wap_proto_t * option zframe :=
  match f with
  | o_indexes => wap_proto_set_o_indexes
  | amounts => wap_proto_set_amounts
  | random_outputs => wap_proto_set_random_outputs
  | white_list => wap_proto_set_white_list
  | gray_list => wap_proto_set_gray_list
  end.

Definition get_frame (f : frame_field) : wap_proto_t -> option zframe * wap_proto_t :=
  match f with
  | o_indexes => wap_proto_get_o_indexes
  | amounts => wap_proto_get_amounts
  | random_outputs => wap_proto_get_random_outputs
  | white_list => wap_proto_get_white_list
  | gray_list => wap_proto_get_gray_list
  end.

Definition set_string (s : string_field) : wap_proto_t -> list Z -> wap_proto_t :=
  match s with identity => wap_proto_set_identity | reason => wap_proto_set_reason end.

Inductive call :=
| SetRoutingId (r : option zframe) | SetId (i : Z)
| SetNumber (n : number) (v : Z) | SetOctet (o : octet) (v : Z) | SetString (s : string_field) (v : list Z)
| SetChunk (c : chunk_field) (k : option zchunk) | GetChunk (c : chunk_field)
| SetFrame (f : frame_field) (fr : option zframe) | GetFrame (f : frame_field)
| SetBlockIds (l : option zlist) | GetBlockIds | SetBlockData (m : option zmsg) | GetBlockData
| Recv (junk : list Z) (input : zsock) | Send (output : zsock).

Definition perform (c : call) (p : wap_proto_t) : outcome wap_proto_t :=
  match c with
  | SetRoutingId r => Ret (wap_proto_set_routing_id p r)
  | SetId i => Ret (wap_proto_set_id p i)
  | SetNumber n v => Ret (set_number n p v)
  | SetOctet o v => Ret (set_octet o p v)
  | SetString s v => Ret (set_string s p v)
  | SetChunk c k => Ret (fst (set_chunk c p k))
  | GetChunk c => Ret (snd (get_chunk c p))
  | SetFrame f fr => Ret (fst (set_frame f p fr))
  | GetFrame f => Ret (snd (get_frame f p))
  | SetBlockIds l => Ret (fst (wap_proto_set_block_ids p l))
  | GetBlockIds => Ret (snd (wap_proto_get_block_ids p))
  | SetBlockData m => Ret (fst (wap_proto_set_block_data p m))
  | GetBlockData => Ret (snd (wap_proto_get_block_data p))
  | Recv junk input => let* '(_, p', _) := wap_proto_recv junk p input in Ret p'
  | Send output => let* '(_, p', _) := wap_proto_send p output in Ret p'
  end.

(** [protocol [256]] is an array of 256 characters. *)
Definition call_ok (c : call) : Prop := match c with Recv junk _ => length junk = 256%nat | _ => True end.

End Access.

Section Invariant.
Context `{CzmqLaws} {M : CzmqMemory}.

Lemma wf_new : wf wap_proto_new.
Proof. split; intros; cbn [wap_proto_new strings numbers octets]; [|lia..]. split; [done|]. by constructor. Qed.

Lemma set_number_eq n p v : set_number n p v = with_number n (uwrap 64 v) p.
Proof. by destruct n. Qed.

Lemma set_octet_eq o p v : set_octet o p v = with_octet o (uwrap 8 v) p.
Proof. by destruct o. Qed.

Lemma set_chunk_eq c p k : set_chunk c p k = (with_chunk c k p, None).
Proof. by destruct c. Qed.

Lemma get_chunk_eq c p : get_chunk c p = (chunks p c, with_chunk c None p).
Proof. by destruct c. Qed.

Lemma set_frame_eq f p fr : set_frame f p fr = (with_frame f fr p, None).
Proof. by destruct f. Qed.

Lemma get_frame_eq f p : get_frame f p = (frames p f, with_frame f None p).
Proof. by destruct f. Qed.

Lemma set_string_eq s p v : set_string s p v = with_string s (strncpy255 v) p.
Proof. by destruct s. Qed.

Lemma strncpy255_ok v : length (strncpy255 v) = 256%nat /\ (0 ∈ strncpy255 v).
Proof.
  unfold strncpy255. rewrite length_app, length_take, length_app, length_replicate. split; [cbn [length]; lia|].
  rewrite elem_of_app. right. by constructor.
Qed.

(** A string shorter than the buffer is kept whole, a longer one is cut. *)
Lemma cstr_strncpy255 v : 0 ∉ v -> cstr (strncpy255 v) = take 255 v.
Proof.
  intros Hv. unfold strncpy255. destruct (Nat.le_gt_cases 255 (length v)).
  - rewrite take_app_le by lia. rewrite cstr_app. apply cstr_id. intros Hz. apply Hv.
    rewrite <- (take_drop 255 v), elem_of_app. auto.
  - rewrite take_app_ge, take_replicate, <- app_assoc by lia. rewrite (take_ge v) by lia.
    destruct (Nat.min (255 - length v) 255) as [|k] eqn:E; [lia|]. cbn [replicate app].
    rewrite cstr_app. by apply cstr_id.
Qed.

Lemma recv_total junk p input : length junk = 256%nat -> wf p ->
  yields (wap_proto_recv junk p input) (fun '(rc, p', input') =>
    (rc = 0 \/ rc = -1) /\ wf p' /\ received input input' /\
    (rc = 0 -> zsock_type input = ZMQ_ROUTER -> routing_id p' <> None)).
Proof.
  intros Hj W. unfold wap_proto_recv. destruct (Z.eqb_spec (zsock_type input) ZMQ_ROUTER) as [Et|Et].
  - pose proof (zframe_recv_keeps input) as Hk. destruct (zframe_recv input) as [r s]. cbn [snd] in Hk.
    destruct r as [r|]; cbn [negb orb].
    + pose proof (wf_with_routing_id p (Some r) W) as Wr. destruct (zsock_rcvmore s); cbn [negb].
      * eapply yields_mono; [by apply (recv_data_safe M junk Hj)|]. intros [[rc p'] s'] (Hrc & W' & Hr & Hk').
        split; [done|]. split; [done|]. split; [by transitivity s|]. intros _ _. by rewrite Hr.
      * apply yields_ret. split; [auto|]. by split.
    + apply yields_ret. split; [auto|]. split; [by apply wf_with_routing_id|]. by split.
  - eapply yields_mono; [by apply (recv_data_safe M junk Hj)|]. by intros [[rc p'] s'] (? & ? & _ & ?).
Qed.

Lemma perform_wf c p : call_ok c -> wf p -> yields (perform c p) wf.
Proof.
  intros Hc W. destruct c; cbn [perform]; try apply yields_ret.
  - by apply wf_with_routing_id.
  - by apply wf_with_id.
  - rewrite set_number_eq. eapply kept_wf; [apply kept_number, uwrap_range; lia|done].
  - rewrite set_octet_eq. eapply kept_wf; [apply kept_octet, uwrap_range; lia|done].
  - rewrite set_string_eq. destruct (strncpy255_ok v). eapply kept_wf; [by apply kept_string|done].
  - rewrite set_chunk_eq. eapply kept_wf; [apply kept_chunk|done].
  - rewrite get_chunk_eq. eapply kept_wf; [apply kept_chunk|done].
  - rewrite set_frame_eq. eapply kept_wf; [apply kept_frame|done].
  - rewrite get_frame_eq. eapply kept_wf; [apply kept_frame|done].
  - eapply kept_wf; [apply kept_block_ids|done].
  - eapply kept_wf; [apply kept_block_ids|done].
  - eapply kept_wf; [apply kept_block_data|done].
  - eapply kept_wf; [apply kept_block_data|done].
  - eapply yields_bind; [by apply recv_total|]. intros [[rc p'] s'] (_ & W' & _). by apply yields_ret.
  - eapply yields_bind; [by apply (send_total p (fields (id p)) output M W)|]. intros [[rc p'] s'] (_ & S & _ & _). apply yields_ret.
    by eapply wf_same.
Qed.

(** C23: whatever functions of the codec are called, with whatever arguments, in
    whatever order, on a message that [wap_proto_new] returned, no call faults
    (no string is read past its buffer, no frame is written past its end) and
    the message stays well formed: its strings terminated within their 256
    characters, its numbers within their types. *)
Theorem wap_message_invariant calls : Forall call_ok calls -> yields (foldM perform calls wap_proto_new) wf.
Proof.
  intros Hc. eapply yields_mono.
  - apply (yields_foldM perform (fun cs p => Forall call_ok cs /\ wf p)); [|by split; [|apply wf_new]].
    intros c cs p [Hcs W]. apply List.Forall_cons_iff in Hcs as [Hc1 Hcs].
    eapply yields_mono; [by apply perform_wf|]. done.
  - by intros p [_ W].
Qed.

End Invariant.

Import Queue.

(** A name too long for the buffer, sent and received. *)
Lemma wap_message_invariant_witness :
  yields (foldM perform [SetId WAP_PROTO_OPEN; SetString identity (replicate 300 65); Send (QSock ZMQ_DEALER [] false []);
    Recv (replicate 256 0) (QSock ZMQ_DEALER [([170; 160; 1; 3; 87; 65; 80; 0; 1; 1; 66], false)] false [])] wap_proto_new) wf.
Proof.
  apply (wap_message_invariant (M := queue_memory)). repeat (apply List.Forall_cons; [reflexivity || exact Logic.I|]).
  apply List.Forall_nil.
Defined.
