(* ===== verification/WapCodec.v ===== *)
(** The theorems of the wallet access protocol's codec: what is sent, what is
    accepted, that no input makes the reader fault, and that a message sent is
    the message received. *)

From S2P Require Import Prelude Limbs Bytes Words Memory Czmq WapProto WapGrammar WapSend WapRecv WapAccess.

Section Codec.
Context `{CzmqLaws} {M : CzmqMemory}.

(** The frames [sent], after the frame a ROUTER socket puts first, and then
    [rest] wait on the socket. *)
Definition delivered (input : zsock) (rid : list Z) (sent rest : list (list Z * bool)) : Prop :=
  inbox input = (if zsock_type input =? ZMQ_ROUTER then [(rid, true)] else []) ++ sent ++ rest.

(** The frame with the fields, the first or, on a ROUTER socket, the second. *)
Definition data_received (input : zsock) : option (list Z) :=
  if zsock_type input =? ZMQ_ROUTER then fst (zmq_msg_recv (snd (zframe_recv input))) else fst (zmq_msg_recv input).

(** The routing id after a call on a ROUTER socket. *)
Definition routed (input : zsock) (rid : list Z) (p : wap_proto_t) : Prop :=
  zsock_type input = ZMQ_ROUTER -> exists r, routing_id p = Some r /\ zframe_data r = rid.

Lemma recv_exact junk p input rid i fs fvs tl extra rest :
  length junk = 256%nat -> wf p -> layout i = Some fs -> map fst fvs = fs -> all_valid fvs ->
  (existsb is_msg fs = true -> extra = []) ->
  delivered input rid (mark ((data_frame i fvs ++ tl) :: more_frames fvs ++ extra)) rest ->
  yields (wap_proto_recv junk p input) (fun '(rc, p', input') =>
    rc = 0 /\ id p' = i /\ wf p' /\ stores p' fvs /\ routed input rid p' /\ inbox input' = mark extra ++ rest).
Proof.
  intros Hj W L Hf Hv Hx Hd. unfold delivered, routed in *. unfold wap_proto_recv.
  destruct (Z.eqb_spec (zsock_type input) ZMQ_ROUTER) as [Et|Et]; cbn [app] in Hd.
  - destruct (zframe_recv_ok _ _ _ _ Hd) as (r & s1 & -> & Hr & Hi & Hm). rewrite Hm. cbn [negb orb].
    eapply yields_mono; [by eapply (recv_data_ok _ junk Hj (with_routing_id (Some r) p)); try apply wf_with_routing_id|].
    intros [[rc p'] s'] (-> & -> & W' & Hh & Hr' & Hi'). repeat split; try done; try apply W'. intros _. by exists r.
  - eapply yields_mono; [by eapply (recv_data_ok _ junk Hj p)|].
    intros [[rc p'] s'] (-> & -> & W' & Hh & Hr' & Hi'). repeat split; try done; apply W'.
Qed.

Lemma recv_ok junk p input rid i fs fvs tl extra rest :
  length junk = 256%nat -> wf p -> layout i = Some fs -> map fst fvs = fs -> all_valid fvs ->
  (existsb is_msg fs = true -> extra = []) ->
  delivered input rid (mark ((data_frame i fvs ++ tl) :: more_frames fvs ++ extra)) rest ->
  yields (wap_proto_recv junk p input) (fun '(rc, p', input') =>
    rc = 0 /\ id p' = i /\ wf p' /\ holds p' fvs /\ routed input rid p' /\ inbox input' = mark extra ++ rest).
Proof.
  intros Hj W L Hf Hv Hx Hd. eapply yields_mono; [by eapply recv_exact|].
  intros [[rc p'] s'] (? & ? & ? & Hs & ? & ?). split_and!; try done. by apply stores_holds.
Qed.

(** C21: [wap_proto_send] on a well-formed message returns 0, leaves the message
    as it was up to the cursors of its lists, and gives the socket exactly the
    frames of the documented grammar: on a ROUTER the routing id, then the data
    frame, whose size it had computed in advance, then the frames of the frame
    fields and of the block data, each but the last marked as followed by
    more.  No write goes past the frame that was allocated. *)
Theorem wap_send_correct p fs output : wf p -> layout (id p) = Some fs ->
  (zsock_type output = ZMQ_ROUTER -> routing_id p <> None) ->
  yields (wap_proto_send p output) (fun '(rc, p', output') =>
    rc = 0 /\ same p p' /\
    outbox output' = outbox output ++ route p output ++
      mark (data_frame (id p) (carried p fs) :: more_frames (carried p fs))).
Proof.
  intros W L Hr. eapply yields_mono; [by apply (wap_proto_send_spec p fs output M)|].
  by intros [[rc p'] output'] (? & ? & ? & _).
Qed.

(** When the frames of a message of kind [i] wait on the socket,
    [wap_proto_recv] returns 0 and the message in memory has that kind, the
    value of every field of it (a string up to its first NUL), and on a ROUTER
    the sender's routing id.  Octets after the fields in the data frame are
    ignored; frames after those of the message are not consumed: they are what
    the next call reads. *)
Theorem wap_recv_correct junk p input rid i fs fvs tl extra rest :
  length junk = 256%nat -> wf p -> layout i = Some fs -> map fst fvs = fs -> all_valid fvs ->
  (existsb is_msg fs = true -> extra = []) ->
  delivered input rid (mark ((data_frame i fvs ++ tl) :: more_frames fvs ++ extra)) rest ->
  yields (wap_proto_recv junk p input) (fun '(rc, p', input') =>
    rc = 0 /\ id p' = i /\ wf p' /\ holds p' fvs /\ routed input rid p' /\ inbox input' = mark extra ++ rest).
Proof. apply recv_ok. Qed.

(** C6: whatever waits on the socket, [wap_proto_recv] ends without a fault,
    with 0 or -1, and the message stays well formed: no read goes past the
    frame and no write past a string buffer, and the loop over a list of block
    ids ends however large a count the frame announces. *)
Theorem wap_recv_safe junk p input : length junk = 256%nat -> wf p ->
  yields (wap_proto_recv junk p input) (fun '(rc, p', _) => (rc = 0 \/ rc = -1) /\ wf p').
Proof. intros Hj W. eapply yields_mono; [by apply recv_total|]. by intros [[rc p'] input'] (? & ? & _). Qed.

(** C22: what [wap_proto_recv] accepts follows the grammar: when it returns 0
    the data frame it read begins with the signature, the id of a known
    message and an encoding of each field of that message that the frame
    carries, and the message in memory holds those values. *)
Theorem wap_recv_sound junk p input data p' input' : length junk = 256%nat -> wf p ->
  data_received input = Some data -> wap_proto_recv junk p input = Ret (0, p', input') ->
  exists fs fvs tl, layout (id p') = Some fs /\ map fst fvs = List.filter data_field fs /\ all_valid fvs /\
    data = data_frame (id p') fvs ++ tl /\ holds p' fvs.
Proof.
  intros Hj W. unfold wap_proto_recv, data_received. destruct (zsock_type input =? ZMQ_ROUTER).
  - destruct (zframe_recv input) as [r s]. cbn [snd]. destruct (_ || _); [done|]. intros Hd.
    apply (recv_data_sound M junk Hj); [by apply wf_with_routing_id|done].
  - intros Hd. by apply (recv_data_sound M junk Hj).
Qed.

(** A field of a received message against the same field of the message that
    was sent.  What the sender had is what the receiver has, except that the
    status of an ERROR, 64 bits in memory, arrives modulo 2^16, and that the
    receiver has an empty value where the sender had a NULL pointer. *)
Definition transmitted (p q : wap_proto_t) (f : field) : Prop :=
  match f, in_memory p f with
  | FNumber2 n, _ => numbers q n = numbers p n mod 2 ^ 16
  | _, Some v => in_memory q f = Some v
  | _, None => in_memory q f = Some (null_value f)
  end.

Lemma transmitted_stored p q f :
  fits p -> in_memory q f = Some (stored f (field_value p f)) -> transmitted p q f.
Proof.
  intros F. rewrite field_value_stored by done. rewrite field_value_memory. unfold transmitted.
  destruct f; try (by destruct (in_memory p _)); cbn -[Z.pow]. by intros [=].
Qed.

(** Only ERROR has a number in 2 octets. *)
Definition is_number2 (f : field) : bool := match f with FNumber2 _ => true | _ => false end.

Lemma number2_error i fs f : layout i = Some fs -> i <> WAP_PROTO_ERROR -> f ∈ fs -> is_number2 f = false.
Proof.
  intros L Hi Hf. assert (forallb (fun f => negb (is_number2 f)) fs = true) as Ha.
  { destruct i as [|i|i]; [done| |done]. repeat (destruct i as [i|i|]; try done); by injection L as <-. }
  rewrite forallb_forall in Ha. apply negb_true_iff, Ha. by apply list_elem_of_In.
Qed.

(** Where no pointer is NULL every message but ERROR arrives as it was. *)
Lemma transmitted_same p q fs : layout (id p) = Some fs -> id p <> WAP_PROTO_ERROR ->
  (forall f, f ∈ fs -> in_memory p f <> None) -> (forall f, f ∈ fs -> transmitted p q f) ->
  forall f, f ∈ fs -> in_memory q f = in_memory p f.
Proof.
  intros L Hi Hn Ht f Hf. specialize (Hn f Hf). specialize (Ht f Hf). unfold transmitted in Ht.
  pose proof (number2_error (id p) fs f L Hi Hf) as H2.
  destruct f; try done; destruct (in_memory p _); try done.
Qed.

(** C5: a message survives the wire, up to two losses.  For a well-formed message
    whose lists and chunks are within the 4-octet sizes of the protocol, what
    [wap_proto_send] gives the socket, once it waits on a receiver's socket,
    makes [wap_proto_recv] return 0 with the same kind and take exactly the
    frames of the message.  Every field arrives as it was in the sender's memory,
    except that the 64-bit status of an ERROR is reduced modulo 2^16 (2 octets
    carry it) and that a NULL pointer arrives as an empty list, chunk or frame,
    NULL block data as one empty frame ([transmitted]).  So a message other than
    ERROR, none of whose pointers is NULL, arrives with every field unchanged. *)
Theorem wap_roundtrip p fs output : wf p -> fits p -> layout (id p) = Some fs ->
  (zsock_type output = ZMQ_ROUTER -> routing_id p <> None) ->
  yields (wap_proto_send p output) (fun '(rc, p1, output') =>
    rc = 0 /\ same p p1 /\ exists sent, outbox output' = outbox output ++ route p output ++ sent /\
    forall junk q input rid rest, length junk = 256%nat -> wf q -> delivered input rid sent rest ->
      yields (wap_proto_recv junk q input) (fun '(rc, q', input') =>
        rc = 0 /\ id q' = id p /\ routed input rid q' /\ inbox input' = rest /\
        (forall f, f ∈ fs -> transmitted p q' f) /\
        (id p <> WAP_PROTO_ERROR -> (forall f, f ∈ fs -> in_memory p f <> None) ->
          forall f, f ∈ fs -> in_memory q' f = in_memory p f))).
Proof.
  intros W F L Hr. eapply yields_mono; [by apply (wap_proto_send_spec p fs output M)|].
  intros [[rc p1] output'] (-> & S & Ho & _). split; [done|]. split; [done|]. exists (sent_frames p fs). split; [done|].
  intros junk q input rid rest Hj Wq Hd. unfold sent_frames in Hd.
  rewrite <- (app_nil_r (data_frame _ _)), <- (app_nil_r (more_frames _)) in Hd.
  eapply yields_mono; [eapply (recv_exact junk q input rid (id p) fs (carried p fs)); try done|].
  - unfold carried. rewrite map_map. apply map_id.
  - apply List.Forall_map, Forall_forall. intros f _. by apply field_value_valid.
  - intros [[rc q'] input'] (-> & Hi & _ & Hh & Hrt & Hin). split; [done|]. split; [done|]. split; [done|]. split; [done|].
    assert (forall f, f ∈ fs -> transmitted p q' f) as Ht.
    { intros f Hf%list_elem_of_In. apply transmitted_stored; [done|].
      unfold stores, carried in Hh. rewrite List.Forall_map in Hh. rewrite Forall_forall in Hh. exact (Hh f Hf). }
    split; [done|]. intros Hne Hnull. by apply (transmitted_same p q' fs).
Qed.

End Codec.

(** ** A message on the queue implementation *)
Module Sample.
Import Queue.

(** A GET_PEER_LIST_OK with a status and two frames. *)
Definition peers : wap_proto_t :=
  with_frame white_list (Some [7; 8]) (with_number status 200 (with_id WAP_PROTO_GET_PEER_LIST_OK wap_proto_new)).

Definition dealer (q : list (list Z * bool)) : @zsock queue_czmq := QSock ZMQ_DEALER q false [].

Definition junk : list Z := replicate 256 165.

(** PING with a frame too many: another message. *)
Definition ping_and_stop : list (list Z * bool) :=
  mark [data_frame WAP_PROTO_PING []; data_frame WAP_PROTO_STOP []].

Lemma wf_peers : wf peers.
Proof.
  destruct wf_new as [W1 W2 W3]. split; [exact W1| |exact W3]. intros n. cbn [peers numbers with_frame with_number].
  unfold upd. destruct (decide (n = status)); [lia|]. apply W2.
Qed.

Lemma fits_peers : fits peers.
Proof. by split. Qed.

End Sample.

Import Queue Sample.

Lemma wap_send_correct_witness :
  exists rc p' output', wap_proto_send peers (dealer []) = Ret (rc, p', output') /\
    Queue.q_out output' = [([170; 160; 22; 0; 0; 0; 0; 0; 0; 0; 200], true); ([7; 8], true); ([], false)].
Proof.
  destruct (wap_send_correct (M := Queue.queue_memory) peers [FNumber8 status; FFrame white_list; FFrame gray_list]
    (dealer []) wf_peers eq_refl ltac:(intros Hr; vm_compute in Hr; discriminate Hr)) as ([[rc p'] output'] & E & _ & _ & Ho).
  exists rc, p', output'. split; [exact E|]. exact Ho.
Defined.

Lemma wap_recv_correct_witness :
  exists p' input', wap_proto_recv junk wap_proto_new (dealer ping_and_stop) = Ret (0, p', input') /\ id p' = 41 /\
    inbox input' = [(data_frame WAP_PROTO_STOP [], false)].
Proof.
  destruct (wap_recv_correct (M := Queue.queue_memory) junk wap_proto_new (dealer ping_and_stop) [] WAP_PROTO_PING [] []
    [] [data_frame WAP_PROTO_STOP []] [] eq_refl wf_new eq_refl eq_refl (List.Forall_nil _) ltac:(done) eq_refl)
    as ([[rc p'] input'] & E & -> & Hi & _ & _ & _ & Hin).
  exists p', input'. split; [exact E|]. split; [exact Hi|]. exact Hin.
Defined.

Lemma wap_recv_safe_witness :
  yields (wap_proto_recv junk wap_proto_new (dealer [([170; 160; 3; 255; 255; 255; 255; 0; 0; 0; 1; 65], false)]))
    (fun '(rc, p', _) => (rc = 0 \/ rc = -1) /\ wf p').
Proof. apply (wap_recv_safe (M := Queue.queue_memory) junk); [reflexivity|exact wf_new]. Defined.

Lemma wap_recv_sound_witness :
  exists p' input' fvs tl, wap_proto_recv junk wap_proto_new (dealer ping_and_stop) = Ret (0, p', input') /\
    data_frame WAP_PROTO_PING [] = data_frame (id p') fvs ++ tl.
Proof.
  destruct (wap_proto_recv junk wap_proto_new (dealer ping_and_stop)) as [[[rc p'] input']|] eqn:E; [|discriminate E].
  assert (rc = 0) as -> by (vm_compute in E; congruence).
  destruct (wap_recv_sound (M := Queue.queue_memory) junk wap_proto_new (dealer ping_and_stop) (data_frame WAP_PROTO_PING [])
    p' input' eq_refl wf_new eq_refl E) as (fs & fvs & tl & _ & _ & _ & Hd & _).
  exists p', input', fvs, tl. split; [reflexivity|exact Hd].
Defined.

Lemma wap_roundtrip_witness :
  exists rc p1 output' sent, wap_proto_send peers (dealer []) = Ret (rc, p1, output') /\ Queue.q_out output' = sent /\
    exists rc q' input', wap_proto_recv junk wap_proto_new (dealer sent) = Ret (rc, q', input') /\
      in_memory q' (FNumber8 status) = Some (Num 200) /\ in_memory q' (FFrame white_list) = Some (Octets [7; 8]) /\
      in_memory q' (FFrame gray_list) = Some (Octets []).
Proof.
  destruct (wap_roundtrip (M := Queue.queue_memory) peers [FNumber8 status; FFrame white_list; FFrame gray_list]
    (dealer []) wf_peers fits_peers eq_refl ltac:(intros Hr; vm_compute in Hr; discriminate Hr)) as ([[rc p1] output'] & E & _ & _ & sent & Ho & Hr).
  exists rc, p1, output', sent. split; [exact E|]. split; [exact Ho|].
  assert (Queue.q_out output' = mark (data_frame 22 (carried peers [FNumber8 status; FFrame white_list; FFrame gray_list])
    :: more_frames (carried peers [FNumber8 status; FFrame white_list; FFrame gray_list]))) as Hs.
  { vm_compute in E. injection E as _ _ <-. reflexivity. }
  assert (delivered (dealer sent) [] sent []) as Hd.
  { unfold delivered. cbn -[Queue.octets]. rewrite app_nil_r. change (Queue.q_out output' = sent) in Ho. rewrite <- Ho, Hs. reflexivity. }
  destruct (Hr junk wap_proto_new (dealer sent) [] [] eq_refl wf_new Hd) as ([[rc' q'] input'] & E' & _ & _ & _ & _ & Hf & _).
  exists rc', q', input'. split; [exact E'|].
  split; [apply (Hf (FNumber8 status)); repeat constructor|].
  split; [apply (Hf (FFrame white_list)); repeat constructor|apply (Hf (FFrame gray_list)); repeat constructor].
Defined.
