(* ===== verification/WapServer.v ===== *)
(** The server of the wallet access protocol: src/ipc/wap_server/wap_server.c
    (the actions) and the state machine it includes,
    src/ipc/include/wap_server_engine.inc.

    One message object is shared by all clients: a request is received into
    it, the action of the state machine changes it, and the reply is sent from
    it.  The hash of clients is a finite map from the printed routing id to
    the client.  The actions call the handlers of daemon_ipc_handlers.cpp: what
    these read of the message in memory is modelled ([daemon_reads]), what
    they then do with the core and leave in the message is the interface
    [Daemon].  Logging, the configuration and the timers of the reactor are
    left out, the alarms of a client are the fields that hold them. *)

From stdpp Require Import gmap.
From S2P Require Import Prelude Limbs Bytes Words Memory Czmq WapProto WapGrammar WapSend WapRecv WapAccess.

(** ** States and events *)
Inductive state_t := start_state | connected_state | defaults_state | settling_state.

Inductive event_t :=
| NULL_event | terminate_event | open_event | blocks_event | put_event | get_event | save_bc_event | start_event
| stop_event | output_indexes_event | random_outs_event | get_height_event | get_info_event | get_peer_list_event
| get_mining_status_event | set_log_hash_rate_event | set_log_level_event | start_save_graph_event
| stop_save_graph_event | get_block_hash_event | get_block_template_event | close_event | ping_event | expired_event
| exception_event | settled_event.

#[global] Instance state_eq_dec : EqDecision state_t.
Proof. solve_decision. Defined.
#[global] Instance event_eq_dec : EqDecision event_t.
Proof. solve_decision. Defined.

(** ** The daemon

    The functions of IPC::Daemon (daemon_ipc_handlers.cpp), one for each
    request the actions pass on. *)
Inductive daemon_call :=
| Daemon_retrieve_blocks | Daemon_start_mining | Daemon_stop_mining | Daemon_get_output_indexes
| Daemon_send_raw_transaction | Daemon_get_random_outs | Daemon_get_height | Daemon_save_bc | Daemon_get_info
| Daemon_get_peer_list | Daemon_get_mining_status | Daemon_set_log_hash_rate | Daemon_set_log_level
| Daemon_start_save_graph | Daemon_stop_save_graph | Daemon_get_block_hash | Daemon_get_block_template.

(** The core behind them: [is_storing_blockchain] and [is_synchronized] are the
    two facts their guards ask for.  [daemon] is what a handler makes of the
    message and the core once it has read its arguments. *)
Class Daemon `{Czmq} := {
  core : Type;
  is_storing_blockchain : core -> bool;
  is_synchronized : core -> bool;
  daemon : daemon_call -> wap_proto_t -> core -> wap_proto_t * core }.

(** It changes the message through the accessors of the codec. *)
Class DaemonLaws `{CzmqLaws} {D : Daemon} : Prop := {
  daemon_wf c p k : wf p -> wf (fst (daemon c p k)) }.

(** *** What the handlers read of the message *)
Section Reads.
Context `{Czmq} {D : Daemon}.

Definition crypto_HASH_SIZE : nat := 32.

(** True when the core is not busy. *)
Definition check_core_busy (k : core) : bool := negb (is_storing_blockchain k).
Definition check_core_ready (k : core) : bool := if is_synchronized k then false else check_core_busy k.

(** The loop over the block ids: [memcpy (hash.data, block_id + 1, crypto::HASH_SIZE)]
    from each item of the list, a C string with its terminator.  The hashes,
    and the message with the cursor of its list moved. *)
Definition retrieve_blocks_reads (p : wap_proto_t) : outcome (list (list Z) * wap_proto_t) :=
  match block_ids p with
  | None => Fault AssertFailed
  | Some l =>
      let '(block_id, l0) := zlist_first l in
      let* '(l', hashes) :=
        walk zlist_next (fun block_id hashes => let* h := read 1 crypto_HASH_SIZE (block_id ++ [0]) in Ret (hashes ++ [h]))
          (zlist_size l) block_id l0 [] in
      Ret (hashes, with_block_ids (Some l') p)
  end.

(** [memcpy (hash.data, zchunk_data (tx_id), crypto::HASH_SIZE)]. *)
Definition get_output_indexes_reads (p : wap_proto_t) : outcome (list Z) :=
  match chunks p tx_id with
  | None => Fault AssertFailed
  | Some c => read 0 crypto_HASH_SIZE (zchunk_data c)
  end.

(** [std::string (zchunk_data (c), zchunk_size (c))]: all the octets of a chunk. *)
Definition chunk_string (c : chunk_field) (p : wap_proto_t) : outcome (list Z) :=
  match chunks p c with
  | None => Fault AssertFailed
  | Some k => Ret (zchunk_data k)
  end.

Definition start_mining_reads : wap_proto_t -> outcome (list Z) := chunk_string address.
Definition send_raw_transaction_reads : wap_proto_t -> outcome (list Z) := chunk_string tx_as_hex.

(** The reads of [amounts] stay in the frame; a NULL frame is an assertion of czmq. *)
Definition get_random_outs_reads (p : wap_proto_t) : outcome unit :=
  match frames p amounts with
  | None => Fault AssertFailed
  | Some _ => Ret tt
  end.

Definition get_block_template_reads (p : wap_proto_t) : outcome unit :=
  if 255 <? numbers p reserve_size then Ret tt
  else let* _ := chunk_string address p in Ret tt.

(** The message after a handler has read it; a handler whose guard finds the
    core busy reads nothing. *)
Definition daemon_reads (c : daemon_call) (p : wap_proto_t) (k : core) : outcome wap_proto_t :=
  match c with
  | Daemon_retrieve_blocks =>
      if check_core_busy k then let* '(_, p) := retrieve_blocks_reads p in Ret p else Ret p
  | Daemon_get_output_indexes =>
      if check_core_busy k then let* _ := get_output_indexes_reads p in Ret p else Ret p
  | Daemon_start_mining =>
      if check_core_busy k then let* _ := start_mining_reads p in Ret p else Ret p
  | Daemon_send_raw_transaction =>
      if check_core_busy k then let* _ := send_raw_transaction_reads p in Ret p else Ret p
  | Daemon_get_random_outs =>
      if check_core_busy k then let* _ := get_random_outs_reads p in Ret p else Ret p
  | Daemon_get_block_template =>
      if check_core_ready k then let* _ := get_block_template_reads p in Ret p else Ret p
  | _ => Ret p
  end.

(** A call of a handler. *)
Definition call_daemon (c : daemon_call) (p : wap_proto_t) (k : core) : outcome (wap_proto_t * core) :=
  let* p := daemon_reads c p k in Ret (daemon c p k).
End Reads.

(** [zframe_strhex] prints the octets of a frame. *)
Class CzmqServer `{Czmq} := { zframe_strhex : zframe -> list Z }.

Class CzmqServerLaws `{CzmqLaws} {Z : CzmqServer} : Prop := {
  zframe_strhex_data f g : zframe_strhex f = zframe_strhex g <-> zframe_data f = zframe_data g }.

Section Server.
Context `{Czmq} {Po : CzmqPoll} {Sv : CzmqServer} {D : Daemon}.

Record s_client_t := SClient {
  c_routing_id : option zframe;
  unique_id : Z;
  state : state_t;
  event : event_t;
  next_event : event_t;
  exception : event_t;
  wakeup : Z;                  (* zloop timer, 0 when there is none *)
  wakeup_event : event_t;
  ticket : bool                (* has a zloop ticket *) }.

Record s_server_t := SServer {
  router : zsock;
  message : wap_proto_t;
  clients : gmap (list Z) s_client_t;
  client_id : Z;               (* uint *)
  timeout : Z;
  the_core : core }.

(** A client at work, with the server. *)
Record at_work := AtWork { client : s_client_t; server : s_server_t }.

Definition with_message (m : wap_proto_t) (s : s_server_t) : s_server_t :=
  SServer (router s) m (clients s) (client_id s) (timeout s) (the_core s).
Definition with_clients (cs : gmap (list Z) s_client_t) (s : s_server_t) : s_server_t :=
  SServer (router s) (message s) cs (client_id s) (timeout s) (the_core s).
Definition with_state (st : state_t) (c : s_client_t) : s_client_t :=
  SClient (c_routing_id c) (unique_id c) st (event c) (next_event c) (exception c) (wakeup c) (wakeup_event c) (ticket c).
Definition with_next_event (e : event_t) (c : s_client_t) : s_client_t :=
  SClient (c_routing_id c) (unique_id c) (state c) (event c) e (exception c) (wakeup c) (wakeup_event c) (ticket c).
Definition with_ticket (t : bool) (c : s_client_t) : s_client_t :=
  SClient (c_routing_id c) (unique_id c) (state c) (event c) (next_event c) (exception c) (wakeup c) (wakeup_event c) t.
Definition with_wakeup (w : Z) (c : s_client_t) : s_client_t :=
  SClient (c_routing_id c) (unique_id c) (state c) (event c) (next_event c) (exception c) w (wakeup_event c) (ticket c).

(** ** The actions of wap_server.c *)
Definition action := at_work -> outcome at_work.

(** A call of the daemon on the shared message. *)
Definition ask (c : daemon_call) : action := fun w =>
  let s := server w in
  let* '(m, k) := call_daemon c (message s) (the_core s) in
  Ret (AtWork (client w) (SServer (router s) m (clients s) (client_id s) (timeout s) k)).

Definition nothing : action := fun w => Ret w.

Definition register_wallet : action := nothing.
Definition retrieve_blocks : action := ask Daemon_retrieve_blocks.
Definition store_transaction : action := nothing.
Definition retrieve_transaction : action := nothing.
Definition start_mining_process : action := ask Daemon_start_mining.
Definition stop_mining_process : action := ask Daemon_stop_mining.
Definition output_indexes : action := ask Daemon_get_output_indexes.
Definition send_transaction : action := ask Daemon_send_raw_transaction.
Definition deregister_wallet : action := nothing.
Definition allow_time_to_settle : action := nothing.
Definition register_new_client : action := nothing.
Definition signal_command_not_valid : action := fun w =>
  Ret (AtWork (client w) (with_message (wap_proto_set_status (message (server w)) 500) (server w))).
Definition random_outs : action := ask Daemon_get_random_outs.
Definition get_the_height : action := ask Daemon_get_height.
Definition save_bc : action := ask Daemon_save_bc.
Definition getinfo : action := ask Daemon_get_info.
Definition get_peer_list : action := ask Daemon_get_peer_list.
Definition get_mining_status : action := ask Daemon_get_mining_status.
Definition set_log_hash_rate : action := ask Daemon_set_log_hash_rate.
Definition set_log_level : action := ask Daemon_set_log_level.
Definition start_save_graph : action := ask Daemon_start_save_graph.
Definition stop_save_graph : action := ask Daemon_stop_save_graph.
Definition get_block_hash : action := ask Daemon_get_block_hash.
Definition get_block_template : action := ask Daemon_get_block_template.

(** ** The engine *)

(** "send ...": the shared message with a new id, to this client. *)
Definition send (i : Z) : action := fun w =>
  let s := server w in
  let m := wap_proto_set_id (message s) i in
  let m := wap_proto_set_routing_id m (c_routing_id (client w)) in
  let* '(_, m, r) := wap_proto_send m (router s) in
  Ret (AtWork (client w) (SServer r m (clients s) (client_id s) (timeout s) (the_core s))).

Definition goto (st : state_t) : action := fun w => Ret (AtWork (with_state st (client w)) (server w)).

Definition terminate : action := fun w => Ret (AtWork (with_next_event terminate_event (client w)) (server w)).

(** [if (!self->exception) ...], one after the other. *)
Fixpoint steps (acts : list action) : action := fun w =>
  match acts with
  | [] => Ret w
  | a :: acts' =>
      let* w := if decide (exception (client w) = NULL_event) then a w else Ret w in
      steps acts' w
  end.

Definition leave : list action := [deregister_wallet; allow_time_to_settle; goto settling_state].

(** The switch of [s_client_execute], a definition for each state. *)
Definition from_start (ev : event_t) : list action :=
  match ev with
  | open_event => [register_wallet; send WAP_PROTO_OPEN_OK; goto connected_state]
  | close_event => send WAP_PROTO_CLOSE_OK :: leave
  | ping_event => [send WAP_PROTO_PING_OK]
  | expired_event => leave
  | exception_event => send WAP_PROTO_ERROR :: leave
  | _ => [signal_command_not_valid; send WAP_PROTO_ERROR]
  end.

Definition from_connected (ev : event_t) : list action :=
  match ev with
  | blocks_event => [retrieve_blocks; send WAP_PROTO_BLOCKS_OK]
  | put_event => [send_transaction; send WAP_PROTO_PUT_OK]
  | get_event => [retrieve_transaction; send WAP_PROTO_GET_OK]
  | save_bc_event => [save_bc; send WAP_PROTO_SAVE_BC_OK]
  | start_event => [start_mining_process; send WAP_PROTO_START_OK]
  | stop_event => [stop_mining_process; send WAP_PROTO_STOP_OK]
  | output_indexes_event => [output_indexes; send WAP_PROTO_OUTPUT_INDEXES_OK]
  | random_outs_event => [random_outs; send WAP_PROTO_RANDOM_OUTS_OK]
  | get_height_event => [get_the_height; send WAP_PROTO_GET_HEIGHT_OK]
  | get_info_event => [getinfo; send WAP_PROTO_GET_INFO_OK]
  | get_peer_list_event => [get_peer_list; send WAP_PROTO_GET_PEER_LIST_OK]
  | get_mining_status_event => [get_mining_status; send WAP_PROTO_GET_MINING_STATUS_OK]
  | set_log_hash_rate_event => [set_log_hash_rate; send WAP_PROTO_SET_LOG_HASH_RATE_OK]
  | set_log_level_event => [set_log_level; send WAP_PROTO_SET_LOG_LEVEL_OK]
  | start_save_graph_event => [start_save_graph; send WAP_PROTO_START_SAVE_GRAPH_OK]
  | stop_save_graph_event => [stop_save_graph; send WAP_PROTO_STOP_SAVE_GRAPH_OK]
  | get_block_hash_event => [get_block_hash; send WAP_PROTO_GET_BLOCK_HASH_OK]
  | get_block_template_event => [get_block_template; send WAP_PROTO_GET_BLOCK_TEMPLATE_OK]
  | close_event => send WAP_PROTO_CLOSE_OK :: leave
  | ping_event => [send WAP_PROTO_PING_OK]
  | expired_event => leave
  | exception_event => send WAP_PROTO_ERROR :: leave
  | _ => signal_command_not_valid :: send WAP_PROTO_ERROR :: leave
  end.

Definition from_defaults (ev : event_t) : list action :=
  match ev with
  | close_event => send WAP_PROTO_CLOSE_OK :: leave
  | ping_event => [send WAP_PROTO_PING_OK]
  | expired_event => leave
  | exception_event => send WAP_PROTO_ERROR :: leave
  | _ => signal_command_not_valid :: send WAP_PROTO_ERROR :: leave
  end.

Definition from_settling (ev : event_t) : list action :=
  match ev with
  | settled_event => [terminate]
  | open_event => [register_new_client; send WAP_PROTO_OPEN_OK; goto connected_state]
  | _ => []
  end.

Definition transition (st : state_t) (ev : event_t) : list action :=
  match st with
  | start_state => from_start ev
  | connected_state => from_connected ev
  | defaults_state => from_defaults ev
  | settling_state => from_settling ev
  end.

(** [while (self->next_event > 0)], at most [fuel] turns; [None] when the
    client was removed from the hash and destroyed. *)
Fixpoint execute_loop (fuel : nat) (w : at_work) : outcome (option s_client_t * s_server_t) :=
  let c := client w in
  if decide (next_event c = NULL_event) then Ret (Some c, server w)
  else match fuel with
       | O => Fault Diverges
       | S fuel' =>
           let c := SClient (c_routing_id c) (unique_id c) (state c) (next_event c) NULL_event NULL_event
                      (wakeup c) (wakeup_event c) (ticket c) in
           let* w := steps (transition (state c) (event c)) (AtWork c (server w)) in
           let c := client w in
           let c := if decide (exception c = NULL_event) then c else with_next_event (exception c) c in
           if decide (next_event c = terminate_event) then Ret (None, server w)
           else execute_loop fuel' (AtWork c (server w))
       end.

Definition s_client_execute (fuel : nat) (c : s_client_t) (s : s_server_t) (ev : event_t) :
  outcome (option s_client_t * s_server_t) :=
  let c := with_next_event ev c in
  let c := if wakeup c =? 0 then c else with_wakeup 0 c in
  execute_loop fuel (AtWork c s).

(** The client is found in the hash under its key, and put back. *)
Definition execute_at (fuel : nat) (key : list Z) (c : s_client_t) (s : s_server_t) (ev : event_t) :
  outcome (option s_client_t * s_server_t) :=
  let* '(c', s') := s_client_execute fuel c s ev in
  match c' with
  | Some c' => Ret (Some c', with_clients (<[key := c']> (clients s')) s')
  | None => Ret (None, with_clients (delete key (clients s')) s')
  end.

Definition s_protocol_event (m : wap_proto_t) : event_t :=
  match wap_proto_id m with
  | WAP_PROTO_OPEN => open_event
  | WAP_PROTO_BLOCKS => blocks_event
  | WAP_PROTO_PUT => put_event
  | WAP_PROTO_OUTPUT_INDEXES => output_indexes_event
  | WAP_PROTO_RANDOM_OUTS => random_outs_event
  | WAP_PROTO_GET_HEIGHT => get_height_event
  | WAP_PROTO_GET => get_event
  | WAP_PROTO_SAVE_BC => save_bc_event
  | WAP_PROTO_START => start_event
  | WAP_PROTO_GET_INFO => get_info_event
  | WAP_PROTO_GET_PEER_LIST => get_peer_list_event
  | WAP_PROTO_GET_MINING_STATUS => get_mining_status_event
  | WAP_PROTO_SET_LOG_HASH_RATE => set_log_hash_rate_event
  | WAP_PROTO_SET_LOG_LEVEL => set_log_level_event
  | WAP_PROTO_START_SAVE_GRAPH => start_save_graph_event
  | WAP_PROTO_STOP_SAVE_GRAPH => stop_save_graph_event
  | WAP_PROTO_GET_BLOCK_HASH => get_block_hash_event
  | WAP_PROTO_GET_BLOCK_TEMPLATE => get_block_template_event
  | WAP_PROTO_STOP => stop_event
  | WAP_PROTO_CLOSE => close_event
  | WAP_PROTO_PING => ping_event
  | _ => terminate_event
  end.

(** [s_client_new]: the client and the server with its counter moved on. *)
Definition s_client_new (s : s_server_t) (r : zframe) : s_client_t * s_server_t :=
  (SClient (zframe_dup (Some r)) (client_id s) start_state NULL_event NULL_event NULL_event 0 NULL_event
     (negb (timeout s =? 0)),
   SServer (router s) (message s) (clients s) (uwrap 32 (client_id s + 1)) (timeout s) (the_core s)).

(** One turn of the loop of [s_server_handle_protocol]: the return code, when
    it returns, and the server. *)
Definition handle_message (junk : list Z) (fuel : nat) (s : s_server_t) : outcome (option Z * s_server_t) :=
  let* '(rc, m, r) := wap_proto_recv junk (message s) (router s) in
  let s := SServer r m (clients s) (client_id s) (timeout s) (the_core s) in
  if negb (rc =? 0) then Ret (Some (-1), s)
  else match wap_proto_routing_id m with
       | None => Fault NullPointer
       | Some rid =>
           let hashkey := zframe_strhex rid in
           let '(c, s) :=
             match clients s !! hashkey with
             | Some c => (c, s)
             | None => let '(c, s) := s_client_new s rid in (c, with_clients (<[hashkey := c]> (clients s)) s)
             end in
           let* '(_, s) := execute_at fuel hashkey c s (s_protocol_event (message s)) in
           Ret (None, s)
       end.

(** [while (zsock_events (self->router) & ZMQ_POLLIN)], at most [turns] turns. *)
Fixpoint s_server_handle_protocol (junk : list Z) (fuel turns : nat) (s : s_server_t) : outcome (Z * s_server_t) :=
  if negb (zsock_pollin (router s)) then Ret (0, s)
  else match turns with
       | O => Fault Diverges
       | S turns' =>
           let* '(rc, s) := handle_message junk fuel s in
           match rc with Some rc => Ret (rc, s) | None => s_server_handle_protocol junk fuel turns' s end
       end.

(** The zloop callbacks of a client's ticket and of its alarm.  The first
    writes to the client after the event: a fault if it is gone. *)
Definition s_client_handle_ticket (fuel : nat) (key : list Z) (s : s_server_t) : outcome s_server_t :=
  match clients s !! key with
  | None => Fault NullPointer
  | Some c =>
      let* '(c', s) := execute_at fuel key c s expired_event in
      match c' with
      | None => Fault NullPointer
      | Some c' => Ret (with_clients (<[key := with_ticket false c']> (clients s)) s)
      end
  end.

Definition s_client_handle_wakeup (fuel : nat) (key : list Z) (s : s_server_t) : outcome s_server_t :=
  match clients s !! key with
  | None => Fault NullPointer
  | Some c => let* '(_, s) := execute_at fuel key c s (wakeup_event c) in Ret s
  end.

End Server.
