(* ===== verification/WapServerFacts.v ===== *)
(** The state machine of the wallet protocol's server: what it keeps true
    of its clients, that it answers every request of a connected client with
    the matching reply to that client, and what it does with messages that
    are out of order or malformed. *)

From stdpp Require Import gmap.
From S2P Require Import Prelude Limbs Bytes Words Memory Czmq WapProto WapGrammar WapSend WapRecv WapAccess WapCodec WapServer.

Create HintDb good.

Section Facts.
Context `{CzmqLaws} {M : CzmqMemory} {Po : CzmqPoll} {Sv : CzmqServer} {SvL : CzmqServerLaws} {D : Daemon} {DL : DaemonLaws}.

(** ** What an action may change

    Everything but the state of the client, the message, the core and what
    the router has sent. *)
Record stays (w w' : at_work) : Prop := {
  stays_routing_id : c_routing_id (client w') = c_routing_id (client w);
  stays_next_event : next_event (client w') = next_event (client w);
  stays_exception : exception (client w') = exception (client w);
  stays_wakeup : wakeup (client w') = wakeup (client w);
  stays_state : state (client w') = state (client w) \/ state (client w') = connected_state \/ state (client w') = settling_state;
  stays_clients : clients (server w') = clients (server w);
  stays_router : sent_on (router (server w)) (router (server w'));
  stays_wf : wf (message (server w)) -> wf (message (server w')) }.

#[export] Instance stays_preorder : PreOrder stays.
Proof.
  split.
  - intros w. split; auto. done.
  - intros w1 w2 w3 [A1 A2 A3 A4 A5 A6 A7 A8] [B1 B2 B3 B4 B5 B6 B7 B8]. split; try congruence; auto.
    + destruct B5 as [->|B5]; auto.
    + by transitivity (router (server w2)).
Qed.

(** An action that runs, from a well-formed message and a client with a
    routing id. *)
Definition ready (w : at_work) : Prop :=
  wf (message (server w)) /\ c_routing_id (client w) <> None /\ exception (client w) = NULL_event.

Definition good (a : action) : Prop := forall w, ready w -> yields (a w) (stays w).

Lemma stays_ready w w' : stays w w' -> ready w -> ready w'.
Proof. intros [] (? & ? & ?). split; [auto|]. split; congruence. Qed.

Lemma good_nothing : good nothing.
Proof. intros w _. by apply yields_ret. Qed.

Lemma good_signal : good signal_command_not_valid.
Proof.
  intros w (W & _). apply yields_ret. split; try done; auto. intros _. cbn -[Z.pow].
  eapply kept_wf; [apply (kept_number status), uwrap_range; lia|done].
Qed.

Lemma good_goto st : st = connected_state \/ st = settling_state -> good (goto st).
Proof. intros Hst w _. apply yields_ret. split; try done; auto. Qed.

(** ** Replies *)

(** The frames of a reply: the message [m] sent as kind [i] to [rid]. *)
Definition reply (i : Z) (m : wap_proto_t) (rid : list Z) : list (list Z * bool) :=
  (rid, true) :: mark (data_frame i (carried m (fields i)) :: more_frames (carried m (fields i))).

Lemma send_spec i w r : wf (message (server w)) -> c_routing_id (client w) = Some r ->
  zsock_type (router (server w)) = ZMQ_ROUTER ->
  yields (send i w) (fun w' => stays w w' /\ client w' = client w /\ the_core (server w') = the_core (server w) /\
    outbox (router (server w')) = outbox (router (server w)) ++ reply i (message (server w)) (zframe_data r)).
Proof.
  intros W Hr Ht. unfold send. cbn zeta. rewrite Hr. unfold wap_proto_set_routing_id.
  destruct (zframe_dup_ok r) as (r' & -> & Hd). unfold wap_proto_set_id.
  set (m := with_routing_id (Some r') (with_id i (message (server w)))).
  assert (wf m) as Wm by (by apply wf_with_routing_id, wf_with_id).
  eapply yields_bind; [apply (send_total m (fields i) (router (server w)) M Wm eq_refl)|].
  intros [[rc m'] o'] (_ & S & Ho & K). apply yields_ret. cbn [server client router the_core].
  assert (wf m') as W' by (by eapply wf_same). split; [split; try done; auto|].
  split; [done|]. split; [done|]. rewrite Ho, Ht, Z.eqb_refl. cbn [m routing_id with_routing_id].
  by rewrite zframe_send_ok, <- app_assoc, Hd.
Qed.

Lemma good_send i : good (send i).
Proof.
  intros w (W & Hr & _). unfold send. cbn zeta.
  set (m := wap_proto_set_routing_id _ _).
  assert (wf m) as Wm by (by apply wf_with_routing_id, wf_with_id).
  eapply yields_bind; [apply (send_total m (fields i) (router (server w)) M Wm eq_refl)|].
  intros [[rc m'] o'] (_ & S & _ & K). apply yields_ret.
  assert (wf m') as W' by (by eapply wf_same). split; try done; auto.
Qed.

#[local] Hint Resolve good_nothing good_signal good_send : good.
#[local] Hint Extern 1 (good (goto _)) => apply good_goto; auto : good.

Lemma steps_good acts w : Forall good acts -> ready w -> yields (steps acts w) (stays w).
Proof.
  intros Ha. revert w. induction Ha as [|a acts Hga Ha IH]; intros w Hr; [by apply yields_ret|].
  cbn [steps]. rewrite decide_True by apply Hr. eapply yields_bind; [by apply Hga|]. intros w1 S1.
  eapply yields_mono; [apply IH; by eapply stays_ready|]. intros w2 S2. by transitivity w1.
Qed.

(** The transitions that call the daemon. *)
Definition asks_daemon (st : state_t) (ev : event_t) : bool :=
  match st, ev with
  | connected_state,
    (blocks_event | put_event | save_bc_event | start_event | stop_event | output_indexes_event | random_outs_event
     | get_height_event | get_info_event | get_peer_list_event | get_mining_status_event | set_log_hash_rate_event
     | set_log_level_event | start_save_graph_event | stop_save_graph_event | get_block_hash_event
     | get_block_template_event) => true
  | _, _ => false
  end.

(** All others are made of such actions, but the end of settling. *)
Lemma transition_good st ev : ~ (st = settling_state /\ ev = settled_event) -> asks_daemon st ev = false ->
  Forall good (transition st ev).
Proof.
  intros Hn Ha. destruct st, ev; try discriminate Ha; cbn; try (by destruct Hn);
    repeat (apply List.Forall_cons; [by eauto with good|]); apply List.Forall_nil.
Qed.

(** ** One event *)

Definition live (c : s_client_t) : Prop :=
  next_event c = NULL_event /\ exception c = NULL_event /\ wakeup c = 0 /\ state c <> defaults_state /\ c_routing_id c <> None.

(** The loop ends after one turn, and the client lives on. *)
Lemma execute_live fuel c s ev : live c -> wf (message s) -> ev <> settled_event -> asks_daemon (state c) ev = false ->
  yields (s_client_execute (S fuel) c s ev) (fun '(c', s') =>
    (exists c1, c' = Some c1 /\ live c1 /\ c_routing_id c1 = c_routing_id c) /\
    wf (message s') /\ clients s' = clients s /\ sent_on (router s) (router s')).
Proof.
  intros (Hn & He & Hw & Hs & Hr) W Hev Has. unfold s_client_execute. cbn [with_next_event wakeup]. rewrite Hw. cbn [Z.eqb].
  cbn [execute_loop client]. cbn [next_event with_next_event]. case_decide as Hd.
  { apply yields_ret. split; [|done]. eexists. split; [done|]. by split. }
  set (c0 := SClient _ _ _ _ _ _ _ _ _).
  eapply yields_bind; [apply steps_good; [apply transition_good; [by intros [_ ?]|done]|by split]|].
  intros w [S1 S2 S3 S4 S5 S6 S7 S8]. cbn [client server] in *.
  change (next_event (client w) = NULL_event) in S2. change (exception (client w) = NULL_event) in S3.
  rewrite S3, (decide_True (P := NULL_event = NULL_event)) by done. rewrite S2, decide_False by done.
  assert (execute_loop fuel (AtWork (client w) (server w)) = Ret (Some (client w), server w)) as ->.
  { destruct fuel; cbn [execute_loop client server]; by rewrite S2, decide_True. }
  apply yields_ret. split; [|split; [by apply S8|by split]]. exists (client w). split; [done|]. split; [|done].
  split; [done|]. split; [done|]. split; [by rewrite S4|]. split; [|by rewrite S1].
  destruct S5 as [->|[->| ->]]; done.
Qed.

(** ** Requests of a connected client *)

(** The requests the server serves and what it asks the daemon for. *)
Definition serves (i : Z) : option (option daemon_call) :=
  match i with
  | WAP_PROTO_BLOCKS => Some (Some Daemon_retrieve_blocks)
  | WAP_PROTO_PUT => Some (Some Daemon_send_raw_transaction)
  | WAP_PROTO_OUTPUT_INDEXES => Some (Some Daemon_get_output_indexes)
  | WAP_PROTO_RANDOM_OUTS => Some (Some Daemon_get_random_outs)
  | WAP_PROTO_GET_HEIGHT => Some (Some Daemon_get_height)
  | WAP_PROTO_GET => Some None
  | WAP_PROTO_SAVE_BC => Some (Some Daemon_save_bc)
  | WAP_PROTO_START => Some (Some Daemon_start_mining)
  | WAP_PROTO_GET_INFO => Some (Some Daemon_get_info)
  | WAP_PROTO_GET_PEER_LIST => Some (Some Daemon_get_peer_list)
  | WAP_PROTO_GET_MINING_STATUS => Some (Some Daemon_get_mining_status)
  | WAP_PROTO_SET_LOG_HASH_RATE => Some (Some Daemon_set_log_hash_rate)
  | WAP_PROTO_SET_LOG_LEVEL => Some (Some Daemon_set_log_level)
  | WAP_PROTO_START_SAVE_GRAPH => Some (Some Daemon_start_save_graph)
  | WAP_PROTO_STOP_SAVE_GRAPH => Some (Some Daemon_stop_save_graph)
  | WAP_PROTO_GET_BLOCK_HASH => Some (Some Daemon_get_block_hash)
  | WAP_PROTO_GET_BLOCK_TEMPLATE => Some (Some Daemon_get_block_template)
  | WAP_PROTO_STOP => Some (Some Daemon_stop_mining)
  | WAP_PROTO_PING => Some None
  | _ => None
  end.

(** The message and the core after the daemon's part, or the fault of the
    daemon's reads. *)
Definition served (d : option daemon_call) (m : wap_proto_t) (k : core) : outcome (wap_proto_t * core) :=
  match d with Some c => call_daemon c m k | None => Ret (m, k) end.

Lemma bind_inv {A B} (o : outcome A) (f : A -> outcome B) b : bind o f = Ret b -> exists a, o = Ret a /\ f a = Ret b.
Proof. destruct o as [a|]; [|done]. intros E. by exists a. Qed.

(** A handler that reads the message leaves it as it is, up to a cursor. *)
Lemma daemon_reads_same c p k p' : daemon_reads c p k = Ret p' -> p' = p \/ exists l, p' = with_block_ids l p.
Proof.
  intros E. destruct c; cbn [daemon_reads] in E; try (injection E as <-; by left);
    (match type of E with (if ?b then _ else _) = _ => destruct b end; [|injection E as <-; by left]);
    apply bind_inv in E as (x & E & Ex); try (injection Ex as <-; by left).
  destruct x as [hs q]. injection Ex as <-. right. unfold retrieve_blocks_reads in E.
  destruct (block_ids p) as [l|]; [|done]. destruct (zlist_first l) as [b l0].
  apply bind_inv in E as ([l' hs'] & _ & [= _ <-]). by eexists.
Qed.

Lemma daemon_reads_wf c p k p' : daemon_reads c p k = Ret p' -> wf p -> wf p'.
Proof. intros [->|(l & ->)]%daemon_reads_same W; [done|]. by destruct W. Qed.

Lemma call_daemon_wf c p k p' k' : call_daemon c p k = Ret (p', k') -> wf p -> wf p'.
Proof.
  unfold call_daemon. destruct (daemon_reads c p k) as [p1|] eqn:E; [|done]. cbn [bind]. intros [= E'] W.
  apply (daemon_reads_wf _ _ _ _ E) in W. apply (daemon_wf c p1 k) in W. by rewrite E' in W.
Qed.

Definition serve (d : option daemon_call) : action := match d with Some c => ask c | None => nothing end.

(** The reply of a request is the kind after it. *)
Lemma request_transition m d : serves (id m) = Some d ->
  forall w, exception (client w) = NULL_event ->
  steps (transition connected_state (s_protocol_event m)) w = steps [serve d; send (id m + 1)] w.
Proof.
  unfold s_protocol_event, wap_proto_id. destruct (id m) as [|i|i]; [done| |done].
  repeat (destruct i as [i|i|]; try done); intros [= <-] w Hw; try done.
  cbn [transition from_start from_connected from_defaults from_settling steps serve nothing]. unfold nothing. repeat (rewrite decide_True by done; cbn [bind]). done.
Qed.

Lemma serve_spec d w : wf (message (server w)) ->
  match served d (message (server w)) (the_core (server w)) with
  | Ret (m, k) => yields (serve d w) (fun w' => stays w w' /\ client w' = client w /\ router (server w') = router (server w) /\
      message (server w') = m /\ the_core (server w') = k)
  | Fault e => serve d w = Fault e
  end.
Proof.
  intros W. destruct d as [c|]; cbn [serve served]; [|by apply yields_ret].
  unfold ask. destruct (call_daemon c (message (server w)) (the_core (server w))) as [[m k]|e] eqn:E; cbn [bind]; [|done].
  apply yields_ret. split; [split; try done; auto; by apply (call_daemon_wf _ _ _ _ _ E)|]. done.
Qed.

(** *** Requests the handlers can read

    BLOCKS and OUTPUT_INDEXES carry hashes, of which the handlers take 32
    octets whatever their size. *)
Definition readable_field (f : field) (v : value) : bool :=
  match f, v with
  | FStrings, Items xs => forallb (fun x => (crypto_HASH_SIZE <=? length (cstr x))%nat) xs
  | FChunk _, Octets s => (crypto_HASH_SIZE <=? length s)%nat
  | _, _ => true
  end.

Definition readable (i : Z) (fvs : list (field * value)) : bool :=
  if (i =? WAP_PROTO_BLOCKS) || (i =? WAP_PROTO_OUTPUT_INDEXES)
  then forallb (fun fv => readable_field (fst fv) (snd fv)) fvs else true.

Lemma serves_none_readable i fvs : serves i = Some None -> readable i fvs = true.
Proof. destruct i as [|i|i]; [done| |done]. by repeat (destruct i as [i|i|]; try done). Qed.

Lemma read_hash off s : read off crypto_HASH_SIZE s =
  if (off + crypto_HASH_SIZE <=? length s)%nat then Ret (take crypto_HASH_SIZE (drop off s)) else Fault OutOfBounds.
Proof. reflexivity. Qed.

Lemma foldM_hashes xs hs :
  let f := fun block_id hashes => let* h := read 1 crypto_HASH_SIZE (block_id ++ [0]) in Ret (hashes ++ [h]) in
  if forallb (fun x => (crypto_HASH_SIZE <=? length x)%nat) xs then exists hs', foldM f xs hs = Ret hs'
  else foldM f xs hs = Fault OutOfBounds.
Proof.
  intros f. revert hs. induction xs as [|x xs IH]; intros hs; cbn [forallb foldM]; [by exists hs|].
  unfold f at 1 3. rewrite read_hash, length_app. cbn [length].
  destruct (Nat.leb_spec crypto_HASH_SIZE (length x)), (Nat.leb_spec (1 + crypto_HASH_SIZE) (length x + 1)); try lia; cbn [andb bind]; [|done].
  apply IH.
Qed.

Lemma retrieve_blocks_stored m xs : in_memory m FStrings = Some (Items (map cstr xs)) ->
  if readable_field FStrings (Items xs) then exists hs m', retrieve_blocks_reads m = Ret (hs, m')
  else retrieve_blocks_reads m = Fault OutOfBounds.
Proof.
  unfold retrieve_blocks_reads. cbn. destruct (block_ids m) as [l|]; [|done]. cbn. intros [= Hl].
  pose proof (foldM_hashes (zlist_items l) []) as Hf. cbv zeta in Hf.
  assert (forallb (fun x => (crypto_HASH_SIZE <=? length x)%nat) (zlist_items l) =
          forallb (fun x => (crypto_HASH_SIZE <=? length (cstr x))%nat) xs) as Hb.
  { rewrite Hl. clear. induction xs as [|x xs IH]; [done|]. cbn [map forallb]. by rewrite IH. }
  rewrite Hb in Hf. clear Hb. destruct (forallb _ xs).
  - destruct Hf as (hs & Hf).
    destruct (walk_items _ _ _ _ _ l _ _ (zlist_size l) zlist_walks ltac:(rewrite zlist_size_items; lia) Hf) as (l' & Hw & _).
    destruct (zlist_first l) as [b l0]. rewrite Hw. cbn. by eexists _, _.
  - pose proof (walk_items_fault _ _ _ _ _ l _ _ (zlist_size l) zlist_walks ltac:(rewrite zlist_size_items; lia) Hf) as Hw.
    destruct (zlist_first l) as [b l0]. by rewrite Hw.
Qed.

Lemma get_output_indexes_stored m s : in_memory m (FChunk tx_id) = Some (Octets s) ->
  if readable_field (FChunk tx_id) (Octets s) then exists h, get_output_indexes_reads m = Ret h
  else get_output_indexes_reads m = Fault OutOfBounds.
Proof.
  unfold get_output_indexes_reads. cbn [in_memory readable_field]. destruct (chunks m tx_id) as [k|]; [|done].
  cbn [option_map]. intros E. assert (zchunk_data k = s) as -> by congruence. rewrite read_hash.
  change (0 + crypto_HASH_SIZE)%nat with crypto_HASH_SIZE. destruct (crypto_HASH_SIZE <=? length s)%nat; [by eexists|done].
Qed.

Lemma chunk_string_stored m c v : in_memory m (FChunk c) = Some v -> exists s, chunk_string c m = Ret s.
Proof. unfold chunk_string. cbn. destruct (chunks m c); [by eexists|done]. Qed.

(** What the handler does with a request that was received: it reads it, or
    it reads past the end of a hash. *)
Lemma daemon_reads_stored d m k fs fvs : layout (id m) = Some fs -> map fst fvs = fs -> all_valid fvs -> stores m fvs ->
  serves (id m) = Some (Some d) ->
  if readable (id m) fvs || negb (check_core_busy k) then exists m', daemon_reads d m k = Ret m'
  else daemon_reads d m k = Fault OutOfBounds.
Proof.
  intros L Hf Hv Hs Hd. unfold readable.
  destruct (id m) as [|i|i]; [done| |done]. repeat (destruct i as [i|i|]; try done); injection Hd as <-; injection L as <-;
    try (by eexists);
    (repeat (destruct fvs as [|[? ?] fvs]; try discriminate Hf; []; injection Hf as ? Hf; subst));
    (destruct fvs; [|discriminate Hf]); cbn [Z.eqb Pos.eqb orb forallb fst snd daemon_reads];
    unfold check_core_ready; repeat (apply List.Forall_cons_iff in Hv as [? Hv]; apply List.Forall_cons_iff in Hs as [? Hs]);
    cbn [fst snd] in *.
  - destruct (chunk_string_stored _ _ _ H4) as (x & Hx). unfold get_block_template_reads. rewrite Hx.
    destruct (is_synchronized k); [by eexists|]. destruct (check_core_busy k); [|by eexists]. cbn.
    destruct (255 <? numbers m reserve_size); by eexists.
  - destruct v as [|s0|]; try done. pose proof (get_output_indexes_stored m s0 H2) as Hr. rewrite andb_true_r.
    destruct (check_core_busy k); cbn [negb]; rewrite ?orb_true_r, ?orb_false_r; [|by eexists].
    destruct (readable_field _ _); [destruct Hr as (h & ->); by eexists|by rewrite Hr].
  - destruct (chunk_string_stored _ _ _ H2) as (x & Hx). unfold start_mining_reads. rewrite Hx.
    destruct (check_core_busy k); by eexists.
  - unfold get_random_outs_reads. cbn in H4. destruct (frames m amounts); [|done]. destruct (check_core_busy k); by eexists.
  - destruct (chunk_string_stored _ _ _ H2) as (x & Hx). unfold send_raw_transaction_reads. rewrite Hx.
    destruct (check_core_busy k); by eexists.
  - destruct v as [| |xs]; try done. pose proof (retrieve_blocks_stored m xs H2) as Hr.
    assert (readable_field (FNumber8 start_height) v0 = true) as -> by reflexivity. rewrite !andb_true_r.
    destruct (check_core_busy k); cbn [negb]; rewrite ?orb_true_r, ?orb_false_r; [|by eexists].
    destruct (readable_field _ _); [destruct Hr as (hs & m' & ->); by eexists|by rewrite Hr].
Qed.

(** The loop, from the result of one turn of it. *)
Lemma execute_turn fuel c s ev w : live c -> ev <> NULL_event ->
  steps (transition (state c) ev)
    (AtWork (SClient (c_routing_id c) (unique_id c) (state c) ev NULL_event NULL_event 0 (wakeup_event c) (ticket c)) s) = Ret w ->
  next_event (client w) = NULL_event -> exception (client w) = NULL_event ->
  s_client_execute (S fuel) c s ev = Ret (Some (client w), server w).
Proof.
  intros (Hn & He & Hw & Hs & Hr) Hev E Hn' He'. unfold s_client_execute. cbn [with_next_event wakeup]. rewrite Hw. cbn [Z.eqb].
  cbn [execute_loop client next_event with_next_event state c_routing_id unique_id wakeup wakeup_event ticket event server].
  rewrite decide_False by done. rewrite Hw, E. cbn [bind].
  rewrite He', (decide_True (P := NULL_event = NULL_event)) by done. rewrite Hn', decide_False by done.
  destruct fuel; cbn [execute_loop client server]; by rewrite Hn', decide_True.
Qed.

(** The same when the turn faults. *)
Lemma execute_turn_fault fuel c s ev e : live c -> ev <> NULL_event ->
  steps (transition (state c) ev)
    (AtWork (SClient (c_routing_id c) (unique_id c) (state c) ev NULL_event NULL_event 0 (wakeup_event c) (ticket c)) s) = Fault e ->
  s_client_execute (S fuel) c s ev = Fault e.
Proof.
  intros (Hn & He & Hw & Hs & Hr) Hev E. unfold s_client_execute. cbn [with_next_event wakeup]. rewrite Hw. cbn [Z.eqb].
  cbn [execute_loop client next_event with_next_event state c_routing_id unique_id wakeup wakeup_event ticket event server].
  rewrite decide_False by done. by rewrite Hw, E.
Qed.

Lemma protocol_event_set m : s_protocol_event m <> NULL_event.
Proof.
  unfold s_protocol_event, wap_proto_id. destruct (id m) as [|i|i]; [done| |done].
  by repeat (destruct i as [i|i|]; try done).
Qed.

(** A request of a connected client: served and answered, or the fault of
    the daemon's reads. *)
Lemma execute_request fuel c s r d : live c -> state c = connected_state -> c_routing_id c = Some r ->
  wf (message s) -> zsock_type (router s) = ZMQ_ROUTER -> serves (id (message s)) = Some d ->
  match served d (message s) (the_core s) with
  | Ret (m, k) => yields (s_client_execute (S fuel) c s (s_protocol_event (message s))) (fun '(c', s') =>
      (exists c1, c' = Some c1 /\ live c1 /\ c_routing_id c1 = c_routing_id c /\ state c1 = connected_state) /\
      wf (message s') /\ clients s' = clients s /\ sent_on (router s) (router s') /\ the_core s' = k /\
      outbox (router s') = outbox (router s) ++ reply (id (message s) + 1) m (zframe_data r))
  | Fault e => s_client_execute (S fuel) c s (s_protocol_event (message s)) = Fault e
  end.
Proof.
  intros L Hst Hr W Ht Hd. pose proof L as (Hn & He & Hw & Hs & Hrn).
  set (w0 := AtWork (SClient (c_routing_id c) (unique_id c) (state c) (s_protocol_event (message s)) NULL_event NULL_event 0
    (wakeup_event c) (ticket c)) s).
  pose proof (serve_spec d w0 W) as Hse. cbn [server w0] in Hse.
  destruct (served d (message s) (the_core s)) as [[m k]|e].
  2:{ apply execute_turn_fault; [done|apply protocol_event_set|]. fold w0. rewrite Hst, (request_transition _ d Hd) by done.
      cbn [steps]. rewrite decide_True by done. by rewrite Hse. }
  destruct Hse as (w1 & E1 & S1 & C1 & R1 & M1 & K1).
  destruct (send_spec (id (message s) + 1) w1 r) as (w2 & E2 & S2 & C2 & K2 & O2).
  { by apply S1. } { by rewrite C1. } { by rewrite R1. }
  assert (steps (transition (state c) (s_protocol_event (message s))) w0 = Ret w2) as E.
  { rewrite Hst, (request_transition _ d Hd) by done. cbn [steps]. rewrite decide_True by done. rewrite E1. cbn [bind].
    rewrite decide_True by (by rewrite C1). by rewrite E2. }
  rewrite (execute_turn fuel c s _ w2 L (protocol_event_set _) E) by (by rewrite C2, C1).
  apply yields_ret. assert (stays w0 w2) as S by (by transitivity w1).
  split; [|split; [by apply S|]; split; [by apply S|]; split; [by apply S|]; split; [by rewrite K2|]].
  - exists (client w2). split; [done|]. rewrite C2, C1. split; [|done]. by repeat split.
  - rewrite O2, R1. by rewrite M1.
Qed.

(** A client whose event calls the daemon is connected and made a request. *)
Lemma asks_serves st m : asks_daemon st (s_protocol_event m) = true ->
  st = connected_state /\ exists d, serves (id m) = Some d.
Proof.
  unfold s_protocol_event, wap_proto_id. destruct st; try done. intros Ha. split; [done|]. revert Ha.
  destruct (id m) as [|i|i]; [done| |done]. repeat (destruct i as [i|i|]; try done); intros _; by eexists.
Qed.

(** ** The server *)

(** A client is kept under its printed routing id. *)
Definition client_ok (key : list Z) (c : s_client_t) : Prop :=
  live c /\ exists r, c_routing_id c = Some r /\ zframe_strhex r = key.

Record server_ok (s : s_server_t) : Prop := {
  ok_message : wf (message s);
  ok_router : zsock_type (router s) = ZMQ_ROUTER;
  ok_clients : map_Forall client_ok (clients s) }.

(** No client is forgotten. *)
Definition grows (s s' : s_server_t) : Prop := forall k, is_Some (clients s !! k) -> is_Some (clients s' !! k).

#[export] Instance grows_preorder : PreOrder grows.
Proof. split; [by intros s k|]. intros s1 s2 s3 A B k Hk. by apply B, A. Qed.

(** The client that an event leaves, put back into the server. *)
Lemma put_back key c c1 s s' : server_ok s -> client_ok key c -> live c1 -> c_routing_id c1 = c_routing_id c ->
  wf (message s') -> clients s' = clients s -> sent_on (router s) (router s') ->
  server_ok (with_clients (<[key := c1]> (clients s')) s') /\ grows s (with_clients (<[key := c1]> (clients s')) s') /\
  client_ok key c1.
Proof.
  intros [W R C] [L (r & Hr & Hk)] L1 Hr1 W' Hc [Ht _].
  assert (client_ok key c1) as Ok1 by (split; [done|]; exists r; by rewrite Hr1).
  split; [|split; [|done]].
  - split; [done|by rewrite <- R|]. cbn [clients with_clients]. rewrite Hc. by apply map_Forall_insert_2.
  - intros k Hs. cbn [clients with_clients]. rewrite Hc. destruct (decide (k = key)) as [->|].
    + rewrite lookup_insert_eq. done.
    + by rewrite lookup_insert_ne.
Qed.

Lemma execute_at_ok fuel key c s ev : server_ok s -> client_ok key c -> ev <> settled_event ->
  asks_daemon (state c) ev = false ->
  yields (execute_at (S fuel) key c s ev) (fun '(c', s') =>
    server_ok s' /\ grows s s' /\ exists c1, c' = Some c1 /\ client_ok key c1).
Proof.
  intros Ok Okc Hev Ha. unfold execute_at.
  eapply yields_bind; [apply execute_live; [apply Okc|apply Ok|done|done]|].
  intros [c' s'] ((c1 & -> & L1 & Hr1) & W' & Hc & Hs). apply yields_ret.
  destruct (put_back key c c1 s s' Ok Okc L1 Hr1 W' Hc Hs) as (? & ? & ?). split; [done|]. split; [done|]. by exists c1.
Qed.

Lemma protocol_event m : s_protocol_event m <> settled_event.
Proof.
  unfold s_protocol_event, wap_proto_id. destruct (id m) as [|i|i]; [done| |done].
  by repeat (destruct i as [i|i|]; try done).
Qed.

(** [o] ends with a result of which [Q] holds, or with a fault of which [F] holds. *)
Definition ends {A} (o : outcome A) (Q : A -> Prop) (F : fault -> Prop) : Prop :=
  match o with Ret a => Q a | Fault e => F e end.

Lemma yields_ends {A} (o : outcome A) (Q : A -> Prop) F : yields o Q -> ends o Q F.
Proof. by intros (a & -> & Ha). Qed.

Lemma ends_bind {A B} (o : outcome A) (f : A -> outcome B) P Q F :
  ends o P F -> (forall a, P a -> ends (f a) Q F) -> ends (bind o f) Q F.
Proof. destruct o as [a|e]; cbn; auto. Qed.

(** The handler that serves [m], the request of a client that is connected,
    reads where it must not. *)
Definition misread (s : s_server_t) (m : wap_proto_t) (e : fault) : Prop :=
  exists rid c d, routing_id m = Some rid /\ clients s !! zframe_strhex rid = Some c /\ state c = connected_state /\
    serves (id m) = Some (Some d) /\ daemon_reads d m (the_core s) = Fault e.

Lemma served_fault d m k e : served d m k = Fault e -> exists c, d = Some c /\ daemon_reads c m k = Fault e.
Proof.
  destruct d as [c|]; [|done]. cbn. unfold call_daemon. destruct (daemon_reads c m k) as [?|e'] eqn:E; [done|].
  cbn. intros [= ->]. by exists c.
Qed.

(** The event of a message that was received. *)
Lemma execute_protocol_ok fuel key c s : server_ok s -> client_ok key c ->
  ends (execute_at (S fuel) key c s (s_protocol_event (message s)))
    (fun '(c', s') => server_ok s' /\ grows s s' /\ exists c1, c' = Some c1 /\ client_ok key c1)
    (fun e => state c = connected_state /\ exists d, serves (id (message s)) = Some (Some d) /\
       daemon_reads d (message s) (the_core s) = Fault e).
Proof.
  intros Ok Okc. destruct (asks_daemon (state c) (s_protocol_event (message s))) eqn:Ha.
  2:{ apply yields_ends. apply execute_at_ok; [done|done|apply protocol_event|done]. }
  apply asks_serves in Ha as (Hst & d & Hd). unfold execute_at. pose proof Okc as [L (r & Hr & _)].
  pose proof (execute_request fuel c s r d L Hst Hr (ok_message s Ok) (ok_router s Ok) Hd) as Hx.
  destruct (served d (message s) (the_core s)) as [[m k]|e] eqn:Es.
  - destruct Hx as ([c' s'] & -> & (c1 & -> & L1 & Hr1 & _) & W' & Hc & Hs & _). cbn.
    destruct (put_back key c c1 s s' Ok Okc L1 Hr1 W' Hc Hs) as (? & ? & ?). split; [done|]. split; [done|]. by exists c1.
  - rewrite Hx. cbn. split; [done|]. apply served_fault in Es as (dc & -> & Es). by exists dc.
Qed.

Lemma s_client_new_ok s r : client_ok (zframe_strhex r) (fst (s_client_new s r)).
Proof.
  destruct (zframe_dup_ok r) as (r' & Er & Hd). split.
  - repeat split; try done. cbn. by rewrite Er.
  - exists r'. split; [done|]. by apply zframe_strhex_data.
Qed.

Lemma handle_message_ok junk fuel s : length junk = 256%nat -> server_ok s ->
  ends (handle_message junk (S fuel) s)
    (fun '(rc, s') => (rc = None \/ rc = Some (-1)) /\ server_ok s' /\ grows s s')
    (fun e => exists m r, wap_proto_recv junk (message s) (router s) = Ret (0, m, r) /\ misread s m e).
Proof.
  intros Hj [W R C]. unfold handle_message.
  destruct (recv_total junk (message s) (router s) Hj W) as ([[rc m] r] & E & Hrc & W' & [Ht _] & Hrid). rewrite E. cbn [bind].
  rewrite R in Ht. set (s1 := SServer r m (clients s) (client_id s) (timeout s) (the_core s)).
  assert (server_ok s1) as Ok1 by (by split).
  destruct Hrc as [->| ->]; cbn [Z.eqb negb]; [|cbn; split; [auto|]; split; [done|by intros k]].
  unfold wap_proto_routing_id. specialize (Hrid eq_refl R). destruct (routing_id m) as [rid|] eqn:Er; [|done].
  set (key := zframe_strhex rid).
  assert (forall c s2, server_ok s2 -> client_ok key c -> grows s s2 -> message s2 = m -> the_core s2 = the_core s ->
    (state c = connected_state -> clients s !! key = Some c) ->
    ends (let* '(_, s) := execute_at (S fuel) key c s2 (s_protocol_event (message s2)) in Ret (@None Z, s))
      (fun '(rc, s') => (rc = None \/ rc = Some (-1)) /\ server_ok s' /\ grows s s')
      (fun e => exists m0 r0, Ret (0, m, r) = Ret (0, m0, r0) /\ misread s m0 e)) as Hex.
  { intros c s2 Ok2 Okc G Hm Hk Hcl. pose proof (execute_protocol_ok fuel key c s2 Ok2 Okc) as Hx.
    destruct (execute_at _ _ _ _ _) as [[c' s']|e]; cbn in Hx |- *.
    - destruct Hx as (Ok' & G' & _). split; [auto|]. split; [done|]. by transitivity s2.
    - destruct Hx as (Hst & d & Hd & He). rewrite Hm, Hk in *. exists m, r. split; [done|].
      exists rid, c, d. by specialize (Hcl Hst). }
  change (clients s1) with (clients s). destruct (clients s !! key) as [c|] eqn:Ec; cbn zeta.
  - apply Hex; try done; [by apply C|by intros k].
  - pose proof (s_client_new_ok s1 rid) as Okc. destruct (s_client_new s1 rid) as [c s2] eqn:En.
    injection En as Ec1 <-. cbn [fst] in Okc. apply Hex; try done.
    + split; [done|done|]. cbn [clients with_clients]. by apply map_Forall_insert_2.
    + intros k Hk. cbn [clients with_clients]. destruct (decide (k = key)) as [->|]; [by rewrite lookup_insert_eq|].
      by rewrite lookup_insert_ne.
    + by rewrite <- Ec1.
Qed.

Lemma handle_protocol_ok junk fuel turns s rc s' : length junk = 256%nat -> server_ok s ->
  s_server_handle_protocol junk (S fuel) turns s = Ret (rc, s') -> (rc = 0 \/ rc = -1) /\ server_ok s' /\ grows s s'.
Proof.
  intros Hj. revert s. induction turns as [|turns IH]; intros s Ok; cbn [s_server_handle_protocol].
  - destruct (zsock_pollin (router s)); [done|]. cbn [negb]. intros [= <- <-]. by split; [auto|].
  - destruct (zsock_pollin (router s)); cbn [negb]; [|intros [= <- <-]; by split; [auto|]].
    pose proof (handle_message_ok junk fuel s Hj Ok) as Hm.
    destruct (handle_message junk (S fuel) s) as [[rc1 s1]|e]; [|done]. cbn in Hm |- *.
    destruct Hm as (Hrc & Ok1 & G1). destruct Hrc as [->| ->]; [|intros [= <- <-]; by split; [auto|]].
    intros E. destruct (IH s1 Ok1 E) as (? & ? & G2). split; [done|]. split; [done|]. by transitivity s1.
Qed.

Lemma handle_ticket_ok fuel key s c : server_ok s -> clients s !! key = Some c ->
  yields (s_client_handle_ticket (S fuel) key s) (fun s' => server_ok s' /\ grows s s').
Proof.
  intros Ok Hc. unfold s_client_handle_ticket. rewrite Hc.
  eapply yields_bind; [apply execute_at_ok; [done|by apply (ok_clients s Ok)|done|by destruct (state c)]|].
  intros [c' s'] (Ok' & G & c1 & -> & L1 & Hr1). apply yields_ret. destruct Ok' as [W' R' C'].
  assert (client_ok key (with_ticket false c1)) as Okc by (by split).
  split.
  - split; [done|done|]. cbn [clients with_clients]. by apply map_Forall_insert_2.
  - intros k Hk. apply G in Hk. cbn [clients with_clients].
    destruct (decide (k = key)) as [->|]; [by rewrite lookup_insert_eq|]. by rewrite lookup_insert_ne.
Qed.

(** ** Opening and errors *)

(** An OPEN from a client that is not connected. *)
Lemma execute_open fuel c s r : live c -> state c = start_state \/ state c = settling_state -> c_routing_id c = Some r ->
  wf (message s) -> zsock_type (router s) = ZMQ_ROUTER ->
  yields (s_client_execute (S fuel) c s open_event) (fun '(c', s') =>
    (exists c1, c' = Some c1 /\ state c1 = connected_state) /\ the_core s' = the_core s /\
    outbox (router s') = outbox (router s) ++ reply WAP_PROTO_OPEN_OK (message s) (zframe_data r)).
Proof.
  intros L Hst Hr W Ht.
  set (w0 := AtWork (SClient (c_routing_id c) (unique_id c) (state c) open_event NULL_event NULL_event 0
    (wakeup_event c) (ticket c)) s).
  destruct (send_spec WAP_PROTO_OPEN_OK w0 r W Hr Ht) as (w2 & E2 & S2 & C2 & K2 & O2).
  assert (steps (transition (state c) open_event) w0 = Ret (AtWork (with_state connected_state (client w2)) (server w2))) as E.
  { destruct Hst as [-> | ->]; cbn [transition from_start from_connected from_defaults from_settling steps]; rewrite decide_True by done; cbn [register_wallet register_new_client nothing bind];
      rewrite decide_True by done; rewrite E2; cbn [bind]; rewrite decide_True by (by rewrite C2); done. }
  rewrite (execute_turn fuel c s open_event _ L ltac:(done) E) by (cbn; by rewrite C2). apply yields_ret.
  split; [by eexists|]. by split.
Qed.

(** Anything else that is not expected from a connected client. *)
Lemma execute_error fuel c s r ev : live c -> state c = connected_state -> c_routing_id c = Some r ->
  wf (message s) -> zsock_type (router s) = ZMQ_ROUTER -> ev = open_event \/ ev = terminate_event ->
  yields (s_client_execute (S fuel) c s ev) (fun '(c', s') =>
    (exists c1, c' = Some c1 /\ state c1 = settling_state) /\ the_core s' = the_core s /\
    outbox (router s') = outbox (router s) ++ reply WAP_PROTO_ERROR (wap_proto_set_status (message s) 500) (zframe_data r)).
Proof.
  intros L Hst Hr W Ht Hev.
  set (w0 := AtWork (SClient (c_routing_id c) (unique_id c) (state c) ev NULL_event NULL_event 0
    (wakeup_event c) (ticket c)) s).
  destruct (good_signal w0) as (w1 & E1 & S1); [split; [done|]; split; [|done]; change (c_routing_id c <> None); by rewrite Hr|].
  assert (w1 = AtWork (client w0) (with_message (wap_proto_set_status (message s) 500) s)) as -> by (injection E1; done).
  destruct (send_spec WAP_PROTO_ERROR (AtWork (client w0) (with_message (wap_proto_set_status (message s) 500) s)) r)
    as (w2 & E2 & S2 & C2 & K2 & O2); [by apply S1|done|done|].
  assert (steps (transition (state c) ev) w0 = Ret (AtWork (with_state settling_state (client w2)) (server w2))) as E.
  { rewrite Hst. destruct Hev as [-> | ->]; cbn [transition from_start from_connected from_defaults from_settling steps leave]; rewrite decide_True by done; rewrite E1; cbn [bind];
      rewrite decide_True by done; rewrite E2; cbn [bind];
      unfold deregister_wallet, allow_time_to_settle, nothing, goto;
      do 3 (rewrite decide_True by (by rewrite C2); cbn [bind]); done. }
  assert (ev <> NULL_event) as Hne by (by destruct Hev as [-> | ->]).
  rewrite (execute_turn fuel c s ev _ L Hne E) by (cbn; by rewrite C2).
  apply yields_ret. split; [by eexists|]. by split.
Qed.

(** ** A message from the router *)

(** Reading a message of the grammar, up to the execution of its event. *)
Lemma handle_message_recv junk fuel s r i fs fvs tl rest :
  length junk = 256%nat -> server_ok s -> layout i = Some fs -> map fst fvs = fs -> all_valid fvs ->
  delivered (router s) (zframe_data r) (mark ((data_frame i fvs ++ tl) :: more_frames fvs)) rest ->
  exists c s2 r2,
    handle_message junk (S fuel) s =
      (let* '(_, s') := execute_at (S fuel) (zframe_strhex r) c s2 (s_protocol_event (message s2)) in Ret (None, s')) /\
    server_ok s2 /\ id (message s2) = i /\ stores (message s2) fvs /\ the_core s2 = the_core s /\
    outbox (router s2) = outbox (router s) /\ inbox (router s2) = rest /\
    client_ok (zframe_strhex r) c /\ c_routing_id c = Some r2 /\ zframe_data r2 = zframe_data r /\
    (clients s !! zframe_strhex r = Some c \/ (clients s !! zframe_strhex r = None /\ state c = start_state)).
Proof.
  intros Hj [W R C] L Hf Hv Hd. rewrite <- (app_nil_r (more_frames fvs)) in Hd.
  destruct (yields_and _ _ _ (recv_exact junk (message s) (router s) (zframe_data r) i fs fvs tl [] rest Hj W L Hf Hv ltac:(done) Hd)
    (recv_total junk (message s) (router s) Hj W)) as ([[rc m] ro] & E & (-> & Hi & Wm & Hh & Hrt & Hin) & (_ & _ & [Ht Ho] & _)).
  destruct (Hrt R) as (r1 & Er1 & Hr1). assert (zframe_strhex r1 = zframe_strhex r) as Hk by (by apply zframe_strhex_data).
  unfold handle_message. rewrite E. cbn [bind Z.eqb negb]. unfold wap_proto_routing_id. rewrite Er1, Hk.
  set (s1 := SServer ro m (clients s) (client_id s) (timeout s) (the_core s)).
  assert (server_ok s1) as Ok1 by (split; [done|by rewrite <- R|done]).
  change (clients s1) with (clients s). destruct (clients s !! zframe_strhex r) as [c|] eqn:Ec.
  - destruct (C _ _ Ec) as [Lc (r2 & Hr2 & Hk2)]. exists c, s1, r2. split; [done|]. split; [done|]. split; [done|].
    split; [done|]. split; [done|]. split; [done|]. split; [done|]. split; [by split; [|exists r2]|]. split; [done|].
    split; [by apply zframe_strhex_data|auto].
  - pose proof (s_client_new_ok s1 r1) as Okc. rewrite Hk in Okc. destruct Okc as [Lc (r2 & Hr2 & Hk2)].
    exists (fst (s_client_new s1 r1)). eexists. exists r2. split; [reflexivity|].
    split; [split; [done|by rewrite <- R|]; apply map_Forall_insert_2; [by split; [|exists r2]|done]|].
    split; [done|]. split; [done|]. split; [done|]. split; [done|]. split; [done|]. split; [by split; [|exists r2]|].
    split; [done|]. split; [by apply zframe_strhex_data|auto].
Qed.

(** What the execution of an event gives, put back into the server. *)
Lemma execute_back fuel key c s ev (Q : s_client_t -> s_server_t -> Prop) :
  yields (s_client_execute fuel c s ev) (fun '(c', s') => exists c1, c' = Some c1 /\ Q c1 s') ->
  yields (let* '(_, s') := execute_at fuel key c s ev in Ret (@None Z, s')) (fun '(rc, s') =>
    rc = None /\ exists c1 s1, Q c1 s1 /\ s' = with_clients (<[key := c1]> (clients s1)) s1).
Proof.
  intros Hy. unfold execute_at. rewrite bind_assoc. eapply yields_bind; [exact Hy|]. intros [c' s'] (c1 & -> & HQ).
  cbn [bind]. apply yields_ret. split; [done|]. by exists c1, s'.
Qed.

End Facts.
