(* ===== verification/WapService.v ===== *)
(** The theorems of the wallet protocol's server, for every state it can
    reach, and a small daemon on the queue implementation as an example. *)

From stdpp Require Import gmap.
From S2P Require Import Prelude Limbs Bytes Words Memory Czmq WapProto WapGrammar WapSend WapRecv WapAccess WapCodec WapServer WapServerFacts.

Section Service.
Context `{CzmqLaws} {M : CzmqMemory} {Po : CzmqPoll} {Sv : CzmqServer} {SvL : CzmqServerLaws} {D : Daemon} {DL : DaemonLaws}.

(** [s_server_new]: a ROUTER socket, an empty message, no clients; the first
    client number is random and the timeout configured. *)
Definition s_server_new (r : zsock) (first timeout : Z) (k : core) : s_server_t := SServer r wap_proto_new ∅ first timeout k.

(** What happens to a server: its router's queues change, its configuration
    and the core change, a callback of the reactor runs.  A ticket fires for a
    client that has one, an alarm for a client that set one. *)
Inductive server_step : s_server_t -> s_server_t -> Prop :=
| step_network s r : zsock_type r = ZMQ_ROUTER ->
    server_step s (SServer r (message s) (clients s) (client_id s) (timeout s) (the_core s))
| step_configure s t k : server_step s (SServer (router s) (message s) (clients s) (client_id s) t k)
| step_protocol junk fuel turns s rc s' : length junk = 256%nat ->
    s_server_handle_protocol junk (S fuel) turns s = Ret (rc, s') -> server_step s s'
| step_ticket fuel key c s s' : clients s !! key = Some c -> ticket c = true ->
    s_client_handle_ticket (S fuel) key s = Ret s' -> server_step s s'
| step_wakeup fuel key c s s' : clients s !! key = Some c -> wakeup c <> 0 ->
    s_client_handle_wakeup (S fuel) key s = Ret s' -> server_step s s'.

Lemma server_step_ok s s' : server_step s s' -> server_ok s -> server_ok s' /\ grows s s'.
Proof.
  intros Hs Ok. destruct Hs as [s r Ht|s t k|junk fuel turns s rc s' Hj E|fuel key c s s' Hc _ E|fuel key c s s' Hc Hw E].
  - destruct Ok. split; [by split|by intros k].
  - destruct Ok. split; [by split|by intros k'].
  - by destruct (handle_protocol_ok junk fuel turns s rc s' Hj Ok E) as (_ & ? & ?).
  - apply (yields_inv _ _ _ (handle_ticket_ok fuel key s c Ok Hc) E).
  - destruct (ok_clients s Ok key c Hc) as [(_ & _ & Hz & _) _]. congruence.
Qed.

Definition reachable (s : s_server_t) : Prop :=
  exists r first t k, zsock_type r = ZMQ_ROUTER /\ rtc server_step (s_server_new r first t k) s.

Lemma reachable_ok s : reachable s -> server_ok s.
Proof.
  intros (r & first & t & k & Hr & Hs).
  assert (server_ok (s_server_new r first t k)) as Ok by (split; [apply wf_new|done|apply map_Forall_empty]).
  induction Hs as [|s1 s2 s3 H12 _ IH]; [done|]. apply IH. by apply (server_step_ok s1 s2).
Qed.

(** C8: in every state the server can reach, each client is in one of the
    states start, connected or settling (never in "defaults"), has no alarm
    and no pending event, and is filed under its own printed routing id; the
    shared message is well formed; the expiry of a client's ticket runs to its end
    and never touches a client that is gone; and handling a message, whatever
    it is, runs to its end without a fault, with one exception: a connected
    client sent a request that the daemon's handler for it
    (daemon_ipc_handlers.cpp) misreads, past the end of a hash that is too short
    or through a pointer that is NULL.  The fault is then the handler's. *)
Theorem wap_server_invariant s : reachable s -> server_ok s /\
  (forall fuel key, is_Some (clients s !! key) -> exists s', s_client_handle_ticket (S fuel) key s = Ret s') /\
  (forall junk fuel, length junk = 256%nat ->
    match handle_message junk (S fuel) s with
    | Ret _ => True
    | Fault e => exists m r, wap_proto_recv junk (message s) (router s) = Ret (0, m, r) /\ misread s m e
    end).
Proof.
  intros Ok%reachable_ok. split; [done|]. split.
  - intros fuel key [c Hc]. destruct (handle_ticket_ok fuel key s c Ok Hc) as (s' & E & _). by exists s'.
  - intros junk fuel Hj. pose proof (handle_message_ok junk fuel s Hj Ok) as Hm. by destruct (handle_message _ _ _).
Qed.

(** C40: the server never forgets a client: [allow_time_to_settle] sets no
    alarm, so the event "settled" that would end a closed or expired client
    never comes, and whatever happens every client that was in the table
    stays in it. *)
Theorem wap_server_never_forgets s s' key : reachable s -> rtc server_step s s' ->
  is_Some (clients s !! key) -> is_Some (clients s' !! key).
Proof.
  intros Ok%reachable_ok Hs. induction Hs as [|s1 s2 s3 H12 _ IH]; [done|].
  destruct (server_step_ok s1 s2 H12 Ok) as [Ok2 G]. intros Hk. apply IH; [done|]. by apply G.
Qed.

(** A request of a connected client is served and answered, or misread. *)
Lemma request_served junk fuel s c r i d fs fvs tl rest :
  length junk = 256%nat -> server_ok s ->
  clients s !! zframe_strhex r = Some c -> state c = connected_state ->
  serves i = Some d -> layout i = Some fs -> map fst fvs = fs -> all_valid fvs ->
  delivered (router s) (zframe_data r) (mark ((data_frame i fvs ++ tl) :: more_frames fvs)) rest ->
  if readable i fvs || negb (check_core_busy (the_core s))
  then yields (handle_message junk (S fuel) s) (fun '(rc, s') => rc = None /\
    exists m m' c', wf m /\ id m = i /\ holds m fvs /\ served d m (the_core s) = Ret (m', the_core s') /\
      outbox (router s') = outbox (router s) ++ reply (i + 1) m' (zframe_data r) /\
      clients s' !! zframe_strhex r = Some c' /\ state c' = connected_state)
  else handle_message junk (S fuel) s = Fault OutOfBounds.
Proof.
  intros Hj Ok Hc Hst Hd L Hf Hv Hdel.
  destruct (handle_message_recv junk fuel s r i fs fvs tl rest Hj Ok L Hf Hv Hdel)
    as (c0 & s2 & r2 & -> & Ok2 & Hi & Hh & Hk & Ho & _ & [Lc _] & Hr2 & Hd2 & Hc0).
  assert (c0 = c) as -> by (destruct Hc0 as [?|[? _]]; congruence).
  pose proof (execute_request fuel c s2 r2 d Lc Hst Hr2 (ok_message s2 Ok2) (ok_router s2 Ok2) ltac:(by rewrite Hi)) as Hx.
  assert (if readable i fvs || negb (check_core_busy (the_core s)) then exists a, served d (message s2) (the_core s) = Ret a
          else served d (message s2) (the_core s) = Fault OutOfBounds) as Hs.
  { destruct d as [d|]; cbn [served].
    - pose proof (daemon_reads_stored d (message s2) (the_core s) fs fvs) as Hr. rewrite Hi in Hr.
      specialize (Hr L Hf Hv Hh Hd). unfold call_daemon.
      destruct (_ || _); [destruct Hr as (m' & ->); by eexists|by rewrite Hr].
    - assert (readable i fvs = true) as -> by (apply serves_none_readable; done). by eexists. }
  rewrite Hk, Ho, Hi, Hd2 in Hx. destruct (readable i fvs || _).
  - destruct Hs as ([m' k'] & Es). rewrite Es in Hx.
    eapply yields_mono; [eapply (execute_back _ _ _ _ _ (fun c1 s' => state c1 = connected_state /\ the_core s' = k' /\
      outbox (router s') = outbox (router s) ++ reply (i + 1) m' (zframe_data r)))|].
    + eapply yields_mono; [exact Hx|]. intros [c' s'] ((c1 & -> & _ & _ & Hs1) & _ & _ & _ & K & O). by exists c1.
    + intros [rc s'] (-> & c1 & s1 & (Hs1 & K & O) & ->). split; [done|]. exists (message s2), m', c1.
      split; [by apply Ok2|]. cbn [the_core router clients with_clients]. rewrite K, lookup_insert_eq.
      split; [done|]. split; [by apply stores_holds|]. done.
  - rewrite Hs in Hx. unfold execute_at. by rewrite Hx.
Qed.

(** An OPEN of a client that is not connected is answered. *)
Lemma open_served junk fuel s r fvs tl rest :
  length junk = 256%nat -> server_ok s ->
  (forall c, clients s !! zframe_strhex r = Some c -> state c <> connected_state) ->
  map fst fvs = fields WAP_PROTO_OPEN -> all_valid fvs ->
  delivered (router s) (zframe_data r) (mark ((data_frame WAP_PROTO_OPEN fvs ++ tl) :: more_frames fvs)) rest ->
  yields (handle_message junk (S fuel) s) (fun '(rc, s') => rc = None /\
    exists m c', outbox (router s') = outbox (router s) ++ reply WAP_PROTO_OPEN_OK m (zframe_data r) /\
      the_core s' = the_core s /\ clients s' !! zframe_strhex r = Some c' /\ state c' = connected_state).
Proof.
  intros Hj Ok Hn Hf Hv Hdel.
  destruct (handle_message_recv junk fuel s r WAP_PROTO_OPEN _ fvs tl rest Hj Ok eq_refl Hf Hv Hdel)
    as (c0 & s2 & r2 & -> & Ok2 & Hi & Hh & Hk & Ho & _ & [Lc _] & Hr2 & Hd2 & Hc0).
  assert (s_protocol_event (message s2) = open_event) as -> by (unfold s_protocol_event, wap_proto_id; by rewrite Hi).
  assert (state c0 = start_state \/ state c0 = settling_state) as Hst.
  { destruct Hc0 as [Hc0|[_ ->]]; [|auto]. specialize (Hn c0 Hc0). destruct Lc as (_ & _ & _ & Hs & _).
    destruct (state c0); auto; done. }
  eapply yields_mono; [eapply (execute_back _ _ _ _ _ (fun c1 s' => state c1 = connected_state /\
      the_core s' = the_core s2 /\
      outbox (router s') = outbox (router s2) ++ reply WAP_PROTO_OPEN_OK (message s2) (zframe_data r2)))|].
  - eapply yields_mono; [apply (execute_open fuel c0 s2 r2); try done; by apply Ok2|].
    intros [c' s'] ((c1 & -> & Hs1) & K & O). by exists c1.
  - intros [rc s'] (-> & c1 & s1 & (Hs1 & K & O) & ->). split; [done|]. exists (message s2), c1.
    rewrite Hk, Ho, Hd2 in *. cbn [the_core router clients with_clients]. rewrite lookup_insert_eq. done.
Qed.

(** C7: every request of a connected client is answered.  When a request the
    protocol knows waits on the router, with its sender's routing id, the
    server hands the message to the part of the daemon that serves it and then
    sends exactly one message: to that sender, of the kind that answers the
    request (the kind after it), with the values of its fields that the daemon
    left in the message.  The client stays connected.  The requests that carry
    hashes, BLOCKS and OUTPUT_INDEXES, must have 32 octets for each ([readable]):
    with a shorter one, unless the core is busy, the handler reads past the
    end of it. *)
Theorem wap_server_replies junk fuel s c r i d fs fvs tl rest :
  length junk = 256%nat -> reachable s ->
  clients s !! zframe_strhex r = Some c -> state c = connected_state ->
  serves i = Some d -> layout i = Some fs -> map fst fvs = fs -> all_valid fvs ->
  delivered (router s) (zframe_data r) (mark ((data_frame i fvs ++ tl) :: more_frames fvs)) rest ->
  if readable i fvs || negb (check_core_busy (the_core s))
  then yields (handle_message junk (S fuel) s) (fun '(rc, s') => rc = None /\
    exists m m' c', id m = i /\ holds m fvs /\ served d m (the_core s) = Ret (m', the_core s') /\
      outbox (router s') = outbox (router s) ++ reply (i + 1) m' (zframe_data r) /\
      clients s' !! zframe_strhex r = Some c' /\ state c' = connected_state)
  else handle_message junk (S fuel) s = Fault OutOfBounds.
Proof.
  intros Hj Ok%reachable_ok Hc Hst Hd L Hf Hv Hdel.
  pose proof (request_served junk fuel s c r i d fs fvs tl rest Hj Ok Hc Hst Hd L Hf Hv Hdel) as Hs.
  destruct (_ || _); [|done]. eapply yields_mono; [exact Hs|].
  intros [rc s'] (? & m & m' & c' & _ & ?). split; [done|]. by exists m, m', c'.
Qed.

(** An OPEN connects.  A wallet that is not known, that has not opened yet
    or that is settling is answered with OPEN_OK and is connected. *)
Theorem wap_server_opens junk fuel s r fs fvs tl rest :
  length junk = 256%nat -> reachable s ->
  (forall c, clients s !! zframe_strhex r = Some c -> state c <> connected_state) ->
  layout WAP_PROTO_OPEN = Some fs -> map fst fvs = fs -> all_valid fvs ->
  delivered (router s) (zframe_data r) (mark ((data_frame WAP_PROTO_OPEN fvs ++ tl) :: more_frames fvs)) rest ->
  yields (handle_message junk (S fuel) s) (fun '(rc, s') => rc = None /\
    exists m c', outbox (router s') = outbox (router s) ++ reply WAP_PROTO_OPEN_OK m (zframe_data r) /\
      the_core s' = the_core s /\ clients s' !! zframe_strhex r = Some c' /\ state c' = connected_state).
Proof. intros Hj Ok%reachable_ok Hn [= <-] Hf Hv Hdel. by apply (open_served junk fuel s r fvs tl rest). Qed.

(** C24: a message that is out of order ends the conversation.  A connected
    client that sends OPEN again, a reply or an ERROR gets an ERROR with status
    500 (command invalid) and is put to settling; the daemon is not asked. *)
Theorem wap_server_protocol_error junk fuel s c r i fs fvs tl rest :
  length junk = 256%nat -> reachable s ->
  clients s !! zframe_strhex r = Some c -> state c = connected_state ->
  serves i = None -> i <> WAP_PROTO_CLOSE -> layout i = Some fs -> map fst fvs = fs -> all_valid fvs ->
  delivered (router s) (zframe_data r) (mark ((data_frame i fvs ++ tl) :: more_frames fvs)) rest ->
  yields (handle_message junk (S fuel) s) (fun '(rc, s') => rc = None /\
    exists m c', field_value m (FNumber2 status) = Num 500 /\
      outbox (router s') = outbox (router s) ++ reply WAP_PROTO_ERROR m (zframe_data r) /\
      the_core s' = the_core s /\ clients s' !! zframe_strhex r = Some c' /\ state c' = settling_state).
Proof.
  intros Hj Ok%reachable_ok Hc Hst Hd Hcl L Hf Hv Hdel.
  destruct (handle_message_recv junk fuel s r i fs fvs tl rest Hj Ok L Hf Hv Hdel)
    as (c0 & s2 & r2 & -> & Ok2 & Hi & Hh & Hk & Ho & _ & [Lc _] & Hr2 & Hd2 & Hc0).
  assert (c0 = c) as -> by (destruct Hc0 as [?|[? _]]; congruence).
  assert (s_protocol_event (message s2) = open_event \/ s_protocol_event (message s2) = terminate_event) as Hev.
  { unfold s_protocol_event, wap_proto_id. rewrite Hi. destruct (layout_ok i fs L) as (_ & _ & Hr). clear - Hd Hcl Hr.
    destruct i as [|i|i]; [lia| |lia]. repeat (destruct i as [i|i|]; try done; auto). }
  eapply yields_mono; [eapply (execute_back _ _ _ _ _ (fun c1 s' => state c1 = settling_state /\
      the_core s' = the_core s2 /\
      outbox (router s') = outbox (router s2) ++ reply WAP_PROTO_ERROR (wap_proto_set_status (message s2) 500) (zframe_data r2)))|].
  - eapply yields_mono; [apply (execute_error fuel c s2 r2); try done; by apply Ok2|].
    intros [c' s'] ((c1 & -> & Hs1) & K & O). by exists c1.
  - intros [rc s'] (-> & c1 & s1 & (Hs1 & K & O) & ->). split; [done|].
    exists (wap_proto_set_status (message s2) 500), c1. split; [done|].
    rewrite Hk, Ho, Hd2 in *. cbn [the_core router clients with_clients]. rewrite lookup_insert_eq. done.
Qed.

(** A malformed message stops the server.  When the data frame that waits
    on the router does not begin with the signature and a message id, from
    whichever client it comes, the callback returns -1, which ends the
    reactor, whatever else waits. *)
Theorem wap_server_malformed_stops junk fuel turns s rid data more rest :
  length junk = 256%nat -> reachable s -> zsock_pollin (router s) = true ->
  (forall i tl, 0 <= i < 2 ^ 8 -> data <> header i ++ tl) ->
  inbox (router s) = (rid, true) :: (data, more) :: rest ->
  exists s', s_server_handle_protocol junk (S fuel) (S turns) s = Ret (-1, s').
Proof.
  intros Hj [W R C]%reachable_ok Hp Hno Hin. cbn [s_server_handle_protocol]. rewrite Hp. cbn [negb].
  unfold handle_message, wap_proto_recv. rewrite R, Z.eqb_refl.
  destruct (zframe_recv_ok _ _ _ _ Hin) as (r & s1 & -> & _ & Hi1 & Hm). rewrite Hm. cbn [negb orb].
  destruct (zmq_msg_recv_ok _ _ _ _ Hi1) as (s2 & E2 & _). unfold recv_data. rewrite E2.
  pose proof (zmq_msg_recv_bytes _ _ _ E2) as Hb. set (st := RState _ 0 s2).
  assert (at_ data st data) as Ha by (by exists []).
  destruct (recv_header junk data st data Hb Ha) as [(i & _ & tl & Hd & Hi & _)|(st1 & E & _)].
  - by destruct (Hno i tl Hi).
  - rewrite E. cbn [bind Z.eqb negb]. by eexists.
Qed.

End Service.

(** ** A daemon that knows a height, on the queue implementation *)
Module Demo.
Import Queue.

#[export] Instance demo_server : CzmqServer := { zframe_strhex f := f }.

#[export] Instance demo_server_laws : CzmqServerLaws.
Proof. split. intros f g. reflexivity. Qed.

Definition demo_call (c : daemon_call) (m : wap_proto_t) (k : Z) : wap_proto_t * Z :=
  match c with
  | Daemon_get_height => (wap_proto_set_height (wap_proto_set_status m 0) k, k)
  | Daemon_get_block_hash => (with_chunk hash (Some [1; 2]) (wap_proto_set_status m 7), k)
  | Daemon_stop_mining => (m, 0)
  | _ => (m, k)
  end.

#[export] Instance demo_daemon : Daemon :=
  { core := Z; is_storing_blockchain k := k =? 0; is_synchronized _ := false; daemon := demo_call }.

#[export] Instance demo_daemon_laws : DaemonLaws.
Proof.
  split. intros c p k W. destruct c; try exact W; cbn -[Z.pow].
  - eapply kept_wf; [apply (kept_number height), uwrap_range; lia|].
    eapply kept_wf; [apply (kept_number status), uwrap_range; lia|exact W].
  - eapply kept_wf; [apply (kept_chunk hash)|]. eapply kept_wf; [apply (kept_number status), uwrap_range; lia|exact W].
Qed.

Definition junk : list Z := replicate 256 165.
Definition wallet : list Z := [9; 1].

Definition router_with (q : list (list Z * bool)) : @zsock queue_czmq := QSock ZMQ_ROUTER q false [].

Definition open_fields : list (field * value) :=
  [(FProtocol, Octets [87; 65; 80]); (FVersion, Num 1); (FString identity, Octets [66])].

Definition from_wallet (frames : list (list Z)) : list (list Z * bool) := (wallet, true) :: mark frames.

Definition fresh (q : list (list Z * bool)) : s_server_t := s_server_new (router_with q) 17 60000 1234.

(** After the wallet's OPEN. *)
Definition opened : s_server_t :=
  match s_server_handle_protocol junk 1 2 (fresh (from_wallet [data_frame WAP_PROTO_OPEN open_fields])) with
  | Ret (_, s) => s
  | Fault _ => fresh []
  end.

(** The same server with other messages on its router. *)
Definition with_inbox (q : list (list Z * bool)) (s : s_server_t) : s_server_t :=
  SServer (router_with q) (message s) (clients s) (client_id s) (timeout s) (the_core s).

(** What running it gives. *)
Lemma opened_runs :
  match s_server_handle_protocol junk 1 2 (fresh (from_wallet [data_frame WAP_PROTO_OPEN open_fields])) with
  | Ret (rc, s) => (rc =? 0) && (the_core s =? 1234) &&
      match clients s !! wallet with Some c => bool_decide (state c = connected_state) | None => false end
  | Fault _ => false
  end = true.
Proof. vm_compute. reflexivity. Qed.

Lemma opened_connected : the_core opened = 1234 /\ exists c, clients opened !! wallet = Some c /\ state c = connected_state.
Proof.
  pose proof opened_runs as E. unfold opened. destruct (s_server_handle_protocol junk 1 2 _) as [[rc s]|]; [|discriminate E].
  apply andb_true_iff in E as [[_ Hk]%andb_true_iff E]. split; [by apply Z.eqb_eq|].
  destruct (clients s !! wallet) as [c|]; [|discriminate E]. exists c. split; [done|]. by apply bool_decide_eq_true in E.
Qed.

Lemma reachable_fresh q : reachable (fresh q).
Proof. exists (router_with q), 17, 60000, 1234. split; reflexivity. Qed.

Lemma reachable_opened q : reachable (with_inbox q opened).
Proof.
  exists (router_with (from_wallet [data_frame WAP_PROTO_OPEN open_fields])), 17, 60000, 1234. split; [reflexivity|].
  apply (rtc_l _ _ opened).
  - unfold opened, fresh. destruct (s_server_handle_protocol junk 1 2 _) as [[rc s]|e] eqn:E.
    + exact (step_protocol junk 0 2 _ rc s eq_refl E).
    + pose proof opened_runs as Hr. unfold fresh in Hr. rewrite E in Hr. discriminate Hr.
  - apply rtc_once. apply step_network. reflexivity.
Qed.

End Demo.

Import Queue Demo.

Lemma wap_server_invariant_witness : server_ok (with_inbox [([1], true); ([2], false)] opened).
Proof. apply (wap_server_invariant (H0 := queue_laws) (M := queue_memory) _ (reachable_opened _)). Defined.

Lemma wap_server_never_forgets_witness : is_Some (clients (with_inbox [([1], false)] opened) !! wallet).
Proof.
  apply (wap_server_never_forgets (H0 := queue_laws) (M := queue_memory) (with_inbox [] opened) (with_inbox [([1], false)] opened) wallet).
  - apply reachable_opened.
  - apply rtc_once, (step_network (with_inbox [] opened) (router_with [([1], false)])). reflexivity.
  - destruct opened_connected as (_ & c & Hc & _). exists c. exact Hc.
Defined.

Lemma wap_server_replies_witness :
  exists s', handle_message junk 1 (with_inbox (from_wallet [data_frame WAP_PROTO_GET_HEIGHT []]) opened) = Ret (None, s') /\
    outbox (router s') = [(wallet, true); ([170; 160; 12; 0; 0; 0; 0; 0; 0; 0; 0; 0; 0; 0; 0; 0; 0; 4; 210], false)].
Proof.
  destruct opened_connected as (Hk & c & Ec & Hst).
  destruct (wap_server_replies (H0 := queue_laws) (M := queue_memory) junk 0 (with_inbox (from_wallet [data_frame WAP_PROTO_GET_HEIGHT []]) opened)
    c wallet WAP_PROTO_GET_HEIGHT (Some Daemon_get_height) [] [] [] [] eq_refl (reachable_opened _) Ec Hst eq_refl eq_refl
    eq_refl (List.Forall_nil _) ltac:(vm_compute; reflexivity)) as ([rc s'] & E & -> & m & m' & c' & _ & _ & Hs & Ho & _).
  exists s'. split; [exact E|]. rewrite Ho. cbn [the_core with_inbox] in Hs. rewrite Hk in Hs. injection Hs as <- _. reflexivity.
Defined.

Lemma wap_server_opens_witness :
  exists s', handle_message junk 1 (fresh (from_wallet [data_frame WAP_PROTO_OPEN open_fields])) = Ret (None, s') /\
    outbox (router s') = [(wallet, true); ([170; 160; 2], false)].
Proof.
  destruct (wap_server_opens (H0 := queue_laws) (M := queue_memory) junk 0 (fresh (from_wallet [data_frame WAP_PROTO_OPEN open_fields]))
    wallet [FProtocol; FVersion; FString identity] open_fields [] [] eq_refl (reachable_fresh _)
    ltac:(intros c Hc; vm_compute in Hc; discriminate Hc) eq_refl eq_refl
    ltac:(repeat (apply List.Forall_cons; [vm_compute; auto|]); apply List.Forall_nil) ltac:(vm_compute; reflexivity))
    as ([rc s'] & E & -> & m & c' & Ho & _).
  exists s'. split; [exact E|]. rewrite Ho. reflexivity.
Defined.

Lemma wap_server_protocol_error_witness :
  exists s', handle_message junk 1 (with_inbox (from_wallet [data_frame WAP_PROTO_PING_OK []]) opened) = Ret (None, s') /\
    exists c', clients s' !! wallet = Some c' /\ state c' = settling_state.
Proof.
  destruct opened_connected as (Hk & c & Ec & Hst).
  destruct (wap_server_protocol_error (H0 := queue_laws) (M := queue_memory) junk 0 (with_inbox (from_wallet [data_frame WAP_PROTO_PING_OK []]) opened)
    c wallet WAP_PROTO_PING_OK [] [] [] [] eq_refl (reachable_opened _) Ec Hst eq_refl ltac:(discriminate) eq_refl
    eq_refl (List.Forall_nil _) ltac:(vm_compute; reflexivity)) as ([rc s'] & E & -> & m & c' & _ & _ & _ & Hc' & Hs').
  exists s'. split; [exact E|]. exists c'. split; [exact Hc'|exact Hs'].
Defined.

Lemma wap_server_malformed_stops_witness :
  exists s', s_server_handle_protocol junk 1 1 (with_inbox [([8], true); ([0; 0], false)] opened) = Ret (-1, s').
Proof.
  apply (wap_server_malformed_stops (H0 := queue_laws) (M := queue_memory) junk 0 0 (with_inbox [([8], true); ([0; 0], false)] opened) [8] [0; 0]
    false [] eq_refl (reachable_opened _) eq_refl); [|reflexivity].
  intros i tl _ E. unfold header in E. vm_compute in E. discriminate E.
Defined.

(** A connected wallet asks for the output indexes of a transaction id of three
    octets; and for the blocks after an id that has an octet 0, where the
    string in the list ends. *)
Definition misreads (frames : list (list Z)) : bool :=
  match handle_message junk 1 (with_inbox (from_wallet frames) opened) with
  | Fault OutOfBounds => true
  | _ => false
  end.

Example short_tx_id_misread : misreads [data_frame WAP_PROTO_OUTPUT_INDEXES [(FChunk tx_id, Octets [1; 2; 3])]] = true.
Proof. vm_compute. reflexivity. Qed.

Example nul_in_block_id_misread :
  misreads [data_frame WAP_PROTO_BLOCKS [(FStrings, Items [32 :: 0 :: replicate 31 7]); (FNumber8 start_height, Num 5)]] = true.
Proof. vm_compute. reflexivity. Qed.
