(* ===== verification/WapPipe.v ===== *)
(** What the client of the wallet protocol uses of CZMQ besides the sockets
    of file Czmq: the pipes between the calling thread and the actor, whose
    messages are described by "pictures", and the timers of the reactor.  As
    there, the operations are one class and their documented behaviour
    another, and an implementation by lists shows that the laws can hold. *)

From stdpp Require Import gmap.
From Stdlib Require Import Ascii String.
From S2P Require Import Prelude Limbs Bytes Words Memory Czmq.

(** The characters of a literal. *)
Fixpoint chars (s : String.string) : list Z :=
  match s with
  | EmptyString => []
  | String c s' => Z.of_N (N_of_ascii c) :: chars s'
  end.

(** ** Messages on a pipe

    The elements of a picture: [s], [i], [1], [4], [8], and [p] for a pointer,
    here with what it points to; and the signals of [zsock_signal]. *)
Section Items.
Context `{Czmq}.

Inductive item :=
| IStr (s : list Z) | IInt (i : Z) | I1 (v : Z) | I4 (v : Z) | I8 (v : Z)
| IList (l : option zlist) | IChunk (c : option zchunk) | IFrame (f : option zframe) | IMsg (m : option zmsg)
| ISignal (status : Z).

Inductive kind := KStr | KInt | K1 | K4 | K8 | KList | KChunk | KFrame | KMsg | KSignal.

Definition kind_of (x : item) : kind :=
  match x with
  | IStr _ => KStr | IInt _ => KInt | I1 _ => K1 | I4 _ => K4 | I8 _ => K8
  | IList _ => KList | IChunk _ => KChunk | IFrame _ => KFrame | IMsg _ => KMsg
  | ISignal _ => KSignal
  end.
End Items.

#[global] Instance kind_eq_dec : EqDecision kind.
Proof. solve_decision. Defined.

(** ** The operations

    [zsock_recv] takes the rest of the message that is being read and fills
    in the elements of the picture; [None] when it returns -1.  [zsock_flush]
    drops the rest of the message that is being read.  [zsock_connect]
    returns whether it failed. *)
Class CzmqPipe `{Czmq} := {
  zpipe : Type;
  zsock_send : list item -> zpipe -> zpipe;
  zsock_signal : Z -> zpipe -> zpipe;
  zstr_recv : zpipe -> option (list Z) * zpipe;
  zsock_recv : list kind -> zpipe -> option (list item) * zpipe;
  zpipe_rcvmore : zpipe -> bool;
  zsock_flush : zpipe -> zpipe;
  zpipe_pollin : zpipe -> bool;
  zsock_connect : list Z -> zsock -> bool * zsock }.

(** [pipe_in] has the messages that wait, [pipe_now] the rest of the one being
    read and [pipe_out] those that were sent.  Nothing is said of a picture
    that does not match the message. *)
Class CzmqPipeLaws `{CzmqLaws} {P : CzmqPipe} := {
  pipe_now : zpipe -> list item;
  pipe_in : zpipe -> list (list item);
  pipe_out : zpipe -> list (list item);
  zsock_send_ok its p : pipe_out (zsock_send its p) = pipe_out p ++ [its] /\
    pipe_now (zsock_send its p) = pipe_now p /\ pipe_in (zsock_send its p) = pipe_in p;
  zsock_signal_ok st p : pipe_out (zsock_signal st p) = pipe_out p ++ [[ISignal st]] /\
    pipe_now (zsock_signal st p) = pipe_now p /\ pipe_in (zsock_signal st p) = pipe_in p;
  zstr_recv_ok p s its q : pipe_now p = [] -> pipe_in p = (IStr s :: its) :: q ->
    exists p', zstr_recv p = (Some s, p') /\ pipe_now p' = its /\ pipe_in p' = q /\ pipe_out p' = pipe_out p;
  zsock_recv_ok p its extra : its <> [] -> pipe_now p = its ++ extra ->
    exists p', zsock_recv (map kind_of its) p = (Some its, p') /\ pipe_now p' = [] /\ pipe_in p' = pipe_in p /\
      pipe_out p' = pipe_out p;
  zpipe_rcvmore_ok p : zpipe_rcvmore p = true <-> pipe_now p <> [];
  zsock_flush_ok p : pipe_now (zsock_flush p) = [] /\ pipe_in (zsock_flush p) = pipe_in p /\
    pipe_out (zsock_flush p) = pipe_out p;
  zpipe_pollin_ok p : pipe_now p = [] -> zpipe_pollin p = true <-> pipe_in p <> [];
  zsock_connect_ok e s : zsock_type (snd (zsock_connect e s)) = zsock_type s /\
    inbox (snd (zsock_connect e s)) = inbox s /\ outbox (snd (zsock_connect e s)) = outbox s }.

(** ** The reactor's timers

    [zloop_timer] registers a timer that fires once after the delay and
    returns its number, [zloop_timer_end] cancels one. *)
Class CzmqLoop := {
  zloop : Type;
  zloop_timer : Z -> zloop -> Z * zloop;
  zloop_timer_end : Z -> zloop -> zloop }.

Class CzmqLoopLaws `{CzmqLoop} := {
  timers : zloop -> gset Z;
  zloop_timer_ok d l : fst (zloop_timer d l) <> 0 /\ (fst (zloop_timer d l) ∉ timers l) /\
    timers (snd (zloop_timer d l)) = {[fst (zloop_timer d l)]} ∪ timers l;
  zloop_timer_end_ok i l : timers (zloop_timer_end i l) = timers l ∖ {[i]} }.

(** ** An implementation by lists *)
Module PipeQueue.
Import Queue.

(** The rest of the message being read, the messages that wait, the messages
    sent. *)
Record qpipe := QPipe { qp_now : list item; qp_in : list (list item); qp_out : list (list item) }.

Definition qp_send (its : list item) (p : qpipe) : qpipe := QPipe (qp_now p) (qp_in p) (qp_out p ++ [its]).

Definition qp_str (p : qpipe) : option (list Z) * qpipe :=
  match qp_now p, qp_in p with
  | [], (IStr s :: its) :: q => (Some s, QPipe its q (qp_out p))
  | _, _ => (None, p)
  end.

Definition qp_recv (pic : list kind) (p : qpipe) : option (list item) * qpipe :=
  if bool_decide (map kind_of (take (length pic) (qp_now p)) = pic)
  then (Some (take (length pic) (qp_now p)), QPipe [] (qp_in p) (qp_out p))
  else (None, p).

(** An endpoint that begins with a colon has no address. *)
#[export] Instance queue_pipe : CzmqPipe := {
  zpipe := qpipe;
  zsock_send := qp_send; zsock_signal st := qp_send [ISignal st];
  zstr_recv := qp_str; zsock_recv := qp_recv;
  zpipe_rcvmore p := match qp_now p with [] => false | _ => true end;
  zsock_flush p := QPipe [] (qp_in p) (qp_out p);
  zpipe_pollin p := match qp_in p with [] => false | _ => true end;
  zsock_connect e s := (bool_decide (head e = Some 58), s) }.

Lemma qp_str_ok p s its q : qp_now p = [] -> qp_in p = (IStr s :: its) :: q ->
  exists p', qp_str p = (Some s, p') /\ qp_now p' = its /\ qp_in p' = q /\ qp_out p' = qp_out p.
Proof. intros E1 E2. unfold qp_str. rewrite E1, E2. by eexists. Qed.

Lemma qp_recv_ok p its extra : its <> [] -> qp_now p = its ++ extra ->
  exists p', qp_recv (map kind_of its) p = (Some its, p') /\ qp_now p' = [] /\ qp_in p' = qp_in p /\ qp_out p' = qp_out p.
Proof.
  intros _ E. unfold qp_recv. rewrite E, length_map, take_app_length, bool_decide_true by done. by eexists.
Qed.

#[export] Instance queue_pipe_laws : CzmqPipeLaws.
Proof.
  refine {| pipe_now := (qp_now : zpipe -> _); pipe_in := (qp_in : zpipe -> _); pipe_out := (qp_out : zpipe -> _);
            zstr_recv_ok := qp_str_ok; zsock_recv_ok := qp_recv_ok |}; try done.
  - intros p. cbn. destruct (qp_now p); split; try done; intros Hn; by destruct Hn.
  - intros p _. cbn. destruct (qp_in p); split; try done; intros Hn; by destruct Hn.
Defined.

(** The next number and the timers. *)
#[export] Instance queue_loop : CzmqLoop := {
  zloop := positive * gset Z;
  zloop_timer _ l := (Zpos (fst l), (Pos.succ (fst l), {[Zpos (fst l)]} ∪ filter (fun i => i < Zpos (fst l)) (snd l)));
  zloop_timer_end i l := (fst l, snd l ∖ {[i]}) }.

#[export] Instance queue_loop_laws : CzmqLoopLaws.
Proof.
  refine {| timers := (fun l : zloop => filter (fun i => i < Zpos (fst l)) (snd l)) |}.
  - intros d [n s]. cbn [fst snd zloop_timer queue_loop]. split; [done|]. split; [rewrite elem_of_filter; lia|].
    apply set_eq. intros i. rewrite elem_of_filter, !elem_of_union, !elem_of_singleton, elem_of_filter. intuition lia.
  - intros i [n s]. cbn [fst snd zloop_timer_end queue_loop]. apply set_eq. intros j. set_solver.
Defined.

End PipeQueue.
