(* ===== verification/WapClient.v ===== *)
(** The client of the wallet access protocol: src/ipc/wap_client/wap_client.c
    (the actions) and the engine it includes,
    src/ipc/include/wap_client_engine.inc, up to the class interface (file
    WapClientApi).

    The client is an actor: its reactor calls [s_client_handle_cmdpipe] when
    the calling thread sent a command, [s_client_handle_protocol] when the
    server sent a message and [s_client_handle_timeout] when its timer fires.
    Each feeds an event to the state machine [s_client_execute], whose actions
    send requests to the server and replies to the calling thread.  Logging is
    left out. *)

From Stdlib Require Import String.
From S2P Require Import Prelude Limbs Bytes Words Memory Czmq WapProto WapGrammar WapSend WapRecv WapAccess WapPipe.

(** ** States and events *)
Inductive state_t :=
| start_state | expect_open_ok_state | connected_state | expect_blocks_ok_state | expect_get_ok_state
| expect_put_ok_state | expect_save_bc_ok_state | expect_start_ok_state | expect_stop_ok_state
| expect_output_indexes_ok_state | expect_random_outs_ok_state | expect_get_height_ok_state | expect_get_info_ok_state
| expect_get_peer_list_ok_state | expect_get_mining_status_ok_state | expect_set_log_hash_rate_ok_state
| expect_set_log_level_ok_state | expect_start_save_graph_ok_state | expect_stop_save_graph_ok_state
| expect_get_block_hash_ok_state | expect_get_block_template_ok_state | expect_close_ok_state | defaults_state
| have_error_state | reexpect_open_ok_state.

Inductive event_t :=
| NULL_event | connect_event | bad_endpoint_event | open_ok_event | expired_event | blocks_event | get_event
| put_event | save_bc_event | start_event | stop_event | output_indexes_event | random_outs_event | get_height_event
| get_info_event | get_peer_list_event | get_mining_status_event | set_log_hash_rate_event | set_log_level_event
| start_save_graph_event | stop_save_graph_event | get_block_hash_event | get_block_template_event | destructor_event
| blocks_ok_event | get_ok_event | put_ok_event | save_bc_ok_event | start_ok_event | stop_ok_event
| output_indexes_ok_event | random_outs_ok_event | get_height_ok_event | get_info_ok_event | get_peer_list_ok_event
| get_mining_status_ok_event | set_log_hash_rate_ok_event | set_log_level_ok_event | start_save_graph_ok_event
| stop_save_graph_ok_event | get_block_hash_ok_event | get_block_template_ok_event | close_ok_event | ping_ok_event
| error_event | exception_event | command_invalid_event | other_event.

#[global] Instance state_eq_dec : EqDecision state_t.
Proof. solve_decision. Defined.
#[global] Instance event_eq_dec : EqDecision event_t.
Proof. solve_decision. Defined.

Section Client.
Context `{Czmq} {Po : CzmqPoll} {Pi : CzmqPipe} {Lo : CzmqLoop}.

(** ** The data

    The arguments of the methods; a pointer that may be NULL is an option. *)
Record client_args_t := ClientArgs {
  endpoint : option (list Z);
  arg_timeout : Z;
  arg_identity : option (list Z);
  arg_block_ids : option zlist;
  arg_start_height : Z;
  arg_tx_as_hex : option zchunk;
  arg_tx_id : option zchunk;
  arg_outs_count : Z;
  arg_amounts : option zframe;
  arg_address : option zchunk;
  arg_thread_count : Z;
  arg_visible : Z;
  arg_level : Z;
  arg_height : Z;
  arg_reserve_size : Z }.

(** [client_t] and [s_client_t] in one. *)
Record s_client_t := SClient {
  cmdpipe : zpipe;
  msgpipe : zpipe;
  dealer : zsock;
  loop : zloop;
  message : wap_proto_t;
  args : client_args_t;
  connected : bool;
  terminated : bool;
  fsm_stopped : bool;
  timeout : Z;
  state : state_t;
  event : event_t;
  next_event : event_t;
  exception : event_t;
  expiry_timer : Z;
  wakeup_timer : Z;
  wakeup_event : event_t;
  heartbeat_timer : Z;
  retries : Z }.

Definition with_endpoint (v : option (list Z)) (a : client_args_t) : client_args_t :=
  ClientArgs v (arg_timeout a) (arg_identity a) (arg_block_ids a) (arg_start_height a) (arg_tx_as_hex a) (arg_tx_id a)
    (arg_outs_count a) (arg_amounts a) (arg_address a) (arg_thread_count a) (arg_visible a) (arg_level a)
    (arg_height a) (arg_reserve_size a).
Definition with_arg_timeout (v : Z) (a : client_args_t) : client_args_t :=
  ClientArgs (endpoint a) v (arg_identity a) (arg_block_ids a) (arg_start_height a) (arg_tx_as_hex a) (arg_tx_id a)
    (arg_outs_count a) (arg_amounts a) (arg_address a) (arg_thread_count a) (arg_visible a) (arg_level a)
    (arg_height a) (arg_reserve_size a).
Definition with_arg_identity (v : option (list Z)) (a : client_args_t) : client_args_t :=
  ClientArgs (endpoint a) (arg_timeout a) v (arg_block_ids a) (arg_start_height a) (arg_tx_as_hex a) (arg_tx_id a)
    (arg_outs_count a) (arg_amounts a) (arg_address a) (arg_thread_count a) (arg_visible a) (arg_level a)
    (arg_height a) (arg_reserve_size a).
Definition with_arg_block_ids (v : option zlist) (a : client_args_t) : client_args_t :=
  ClientArgs (endpoint a) (arg_timeout a) (arg_identity a) v (arg_start_height a) (arg_tx_as_hex a) (arg_tx_id a)
    (arg_outs_count a) (arg_amounts a) (arg_address a) (arg_thread_count a) (arg_visible a) (arg_level a)
    (arg_height a) (arg_reserve_size a).
Definition with_arg_start_height (v : Z) (a : client_args_t) : client_args_t :=
  ClientArgs (endpoint a) (arg_timeout a) (arg_identity a) (arg_block_ids a) v (arg_tx_as_hex a) (arg_tx_id a)
    (arg_outs_count a) (arg_amounts a) (arg_address a) (arg_thread_count a) (arg_visible a) (arg_level a)
    (arg_height a) (arg_reserve_size a).
Definition with_arg_tx_as_hex (v : option zchunk) (a : client_args_t) : client_args_t :=
  ClientArgs (endpoint a) (arg_timeout a) (arg_identity a) (arg_block_ids a) (arg_start_height a) v (arg_tx_id a)
    (arg_outs_count a) (arg_amounts a) (arg_address a) (arg_thread_count a) (arg_visible a) (arg_level a)
    (arg_height a) (arg_reserve_size a).
Definition with_arg_tx_id (v : option zchunk) (a : client_args_t) : client_args_t :=
  ClientArgs (endpoint a) (arg_timeout a) (arg_identity a) (arg_block_ids a) (arg_start_height a) (arg_tx_as_hex a) v
    (arg_outs_count a) (arg_amounts a) (arg_address a) (arg_thread_count a) (arg_visible a) (arg_level a)
    (arg_height a) (arg_reserve_size a).
Definition with_arg_outs_count (v : Z) (a : client_args_t) : client_args_t :=
  ClientArgs (endpoint a) (arg_timeout a) (arg_identity a) (arg_block_ids a) (arg_start_height a) (arg_tx_as_hex a)
    (arg_tx_id a) v (arg_amounts a) (arg_address a) (arg_thread_count a) (arg_visible a) (arg_level a) (arg_height a)
    (arg_reserve_size a).
Definition with_arg_amounts (v : option zframe) (a : client_args_t) : client_args_t :=
  ClientArgs (endpoint a) (arg_timeout a) (arg_identity a) (arg_block_ids a) (arg_start_height a) (arg_tx_as_hex a)
    (arg_tx_id a) (arg_outs_count a) v (arg_address a) (arg_thread_count a) (arg_visible a) (arg_level a)
    (arg_height a) (arg_reserve_size a).
Definition with_arg_address (v : option zchunk) (a : client_args_t) : client_args_t :=
  ClientArgs (endpoint a) (arg_timeout a) (arg_identity a) (arg_block_ids a) (arg_start_height a) (arg_tx_as_hex a)
    (arg_tx_id a) (arg_outs_count a) (arg_amounts a) v (arg_thread_count a) (arg_visible a) (arg_level a)
    (arg_height a) (arg_reserve_size a).
Definition with_arg_thread_count (v : Z) (a : client_args_t) : client_args_t :=
  ClientArgs (endpoint a) (arg_timeout a) (arg_identity a) (arg_block_ids a) (arg_start_height a) (arg_tx_as_hex a)
    (arg_tx_id a) (arg_outs_count a) (arg_amounts a) (arg_address a) v (arg_visible a) (arg_level a) (arg_height a)
    (arg_reserve_size a).
Definition with_arg_visible (v : Z) (a : client_args_t) : client_args_t :=
  ClientArgs (endpoint a) (arg_timeout a) (arg_identity a) (arg_block_ids a) (arg_start_height a) (arg_tx_as_hex a)
    (arg_tx_id a) (arg_outs_count a) (arg_amounts a) (arg_address a) (arg_thread_count a) v (arg_level a)
    (arg_height a) (arg_reserve_size a).
Definition with_arg_level (v : Z) (a : client_args_t) : client_args_t :=
  ClientArgs (endpoint a) (arg_timeout a) (arg_identity a) (arg_block_ids a) (arg_start_height a) (arg_tx_as_hex a)
    (arg_tx_id a) (arg_outs_count a) (arg_amounts a) (arg_address a) (arg_thread_count a) (arg_visible a) v
    (arg_height a) (arg_reserve_size a).
Definition with_arg_height (v : Z) (a : client_args_t) : client_args_t :=
  ClientArgs (endpoint a) (arg_timeout a) (arg_identity a) (arg_block_ids a) (arg_start_height a) (arg_tx_as_hex a)
    (arg_tx_id a) (arg_outs_count a) (arg_amounts a) (arg_address a) (arg_thread_count a) (arg_visible a)
    (arg_level a) v (arg_reserve_size a).
Definition with_arg_reserve_size (v : Z) (a : client_args_t) : client_args_t :=
  ClientArgs (endpoint a) (arg_timeout a) (arg_identity a) (arg_block_ids a) (arg_start_height a) (arg_tx_as_hex a)
    (arg_tx_id a) (arg_outs_count a) (arg_amounts a) (arg_address a) (arg_thread_count a) (arg_visible a)
    (arg_level a) (arg_height a) v.

Definition with_cmdpipe (v : zpipe) (c : s_client_t) : s_client_t :=
  SClient v (msgpipe c) (dealer c) (loop c) (message c) (args c) (connected c) (terminated c) (fsm_stopped c)
    (timeout c) (state c) (event c) (next_event c) (exception c) (expiry_timer c) (wakeup_timer c) (wakeup_event c)
    (heartbeat_timer c) (retries c).
Definition with_msgpipe (v : zpipe) (c : s_client_t) : s_client_t :=
  SClient (cmdpipe c) v (dealer c) (loop c) (message c) (args c) (connected c) (terminated c) (fsm_stopped c)
    (timeout c) (state c) (event c) (next_event c) (exception c) (expiry_timer c) (wakeup_timer c) (wakeup_event c)
    (heartbeat_timer c) (retries c).
Definition with_dealer (v : zsock) (c : s_client_t) : s_client_t :=
  SClient (cmdpipe c) (msgpipe c) v (loop c) (message c) (args c) (connected c) (terminated c) (fsm_stopped c)
    (timeout c) (state c) (event c) (next_event c) (exception c) (expiry_timer c) (wakeup_timer c) (wakeup_event c)
    (heartbeat_timer c) (retries c).
Definition with_loop (v : zloop) (c : s_client_t) : s_client_t :=
  SClient (cmdpipe c) (msgpipe c) (dealer c) v (message c) (args c) (connected c) (terminated c) (fsm_stopped c)
    (timeout c) (state c) (event c) (next_event c) (exception c) (expiry_timer c) (wakeup_timer c) (wakeup_event c)
    (heartbeat_timer c) (retries c).
Definition with_message (v : wap_proto_t) (c : s_client_t) : s_client_t :=
  SClient (cmdpipe c) (msgpipe c) (dealer c) (loop c) v (args c) (connected c) (terminated c) (fsm_stopped c)
    (timeout c) (state c) (event c) (next_event c) (exception c) (expiry_timer c) (wakeup_timer c) (wakeup_event c)
    (heartbeat_timer c) (retries c).
Definition with_args (v : client_args_t) (c : s_client_t) : s_client_t :=
  SClient (cmdpipe c) (msgpipe c) (dealer c) (loop c) (message c) v (connected c) (terminated c) (fsm_stopped c)
    (timeout c) (state c) (event c) (next_event c) (exception c) (expiry_timer c) (wakeup_timer c) (wakeup_event c)
    (heartbeat_timer c) (retries c).
Definition with_connected (v : bool) (c : s_client_t) : s_client_t :=
  SClient (cmdpipe c) (msgpipe c) (dealer c) (loop c) (message c) (args c) v (terminated c) (fsm_stopped c)
    (timeout c) (state c) (event c) (next_event c) (exception c) (expiry_timer c) (wakeup_timer c) (wakeup_event c)
    (heartbeat_timer c) (retries c).
Definition with_terminated (v : bool) (c : s_client_t) : s_client_t :=
  SClient (cmdpipe c) (msgpipe c) (dealer c) (loop c) (message c) (args c) (connected c) v (fsm_stopped c) (timeout c)
    (state c) (event c) (next_event c) (exception c) (expiry_timer c) (wakeup_timer c) (wakeup_event c)
    (heartbeat_timer c) (retries c).
Definition with_fsm_stopped (v : bool) (c : s_client_t) : s_client_t :=
  SClient (cmdpipe c) (msgpipe c) (dealer c) (loop c) (message c) (args c) (connected c) (terminated c) v (timeout c)
    (state c) (event c) (next_event c) (exception c) (expiry_timer c) (wakeup_timer c) (wakeup_event c)
    (heartbeat_timer c) (retries c).
Definition with_timeout (v : Z) (c : s_client_t) : s_client_t :=
  SClient (cmdpipe c) (msgpipe c) (dealer c) (loop c) (message c) (args c) (connected c) (terminated c)
    (fsm_stopped c) v (state c) (event c) (next_event c) (exception c) (expiry_timer c) (wakeup_timer c)
    (wakeup_event c) (heartbeat_timer c) (retries c).
Definition with_state (v : state_t) (c : s_client_t) : s_client_t :=
  SClient (cmdpipe c) (msgpipe c) (dealer c) (loop c) (message c) (args c) (connected c) (terminated c)
    (fsm_stopped c) (timeout c) v (event c) (next_event c) (exception c) (expiry_timer c) (wakeup_timer c)
    (wakeup_event c) (heartbeat_timer c) (retries c).
Definition with_event (v : event_t) (c : s_client_t) : s_client_t :=
  SClient (cmdpipe c) (msgpipe c) (dealer c) (loop c) (message c) (args c) (connected c) (terminated c)
    (fsm_stopped c) (timeout c) (state c) v (next_event c) (exception c) (expiry_timer c) (wakeup_timer c)
    (wakeup_event c) (heartbeat_timer c) (retries c).
Definition with_next_event (v : event_t) (c : s_client_t) : s_client_t :=
  SClient (cmdpipe c) (msgpipe c) (dealer c) (loop c) (message c) (args c) (connected c) (terminated c)
    (fsm_stopped c) (timeout c) (state c) (event c) v (exception c) (expiry_timer c) (wakeup_timer c) (wakeup_event c)
    (heartbeat_timer c) (retries c).
Definition with_exception (v : event_t) (c : s_client_t) : s_client_t :=
  SClient (cmdpipe c) (msgpipe c) (dealer c) (loop c) (message c) (args c) (connected c) (terminated c)
    (fsm_stopped c) (timeout c) (state c) (event c) (next_event c) v (expiry_timer c) (wakeup_timer c)
    (wakeup_event c) (heartbeat_timer c) (retries c).
Definition with_expiry_timer (v : Z) (c : s_client_t) : s_client_t :=
  SClient (cmdpipe c) (msgpipe c) (dealer c) (loop c) (message c) (args c) (connected c) (terminated c)
    (fsm_stopped c) (timeout c) (state c) (event c) (next_event c) (exception c) v (wakeup_timer c) (wakeup_event c)
    (heartbeat_timer c) (retries c).
Definition with_wakeup_timer (v : Z) (c : s_client_t) : s_client_t :=
  SClient (cmdpipe c) (msgpipe c) (dealer c) (loop c) (message c) (args c) (connected c) (terminated c)
    (fsm_stopped c) (timeout c) (state c) (event c) (next_event c) (exception c) (expiry_timer c) v (wakeup_event c)
    (heartbeat_timer c) (retries c).
Definition with_wakeup_event (v : event_t) (c : s_client_t) : s_client_t :=
  SClient (cmdpipe c) (msgpipe c) (dealer c) (loop c) (message c) (args c) (connected c) (terminated c)
    (fsm_stopped c) (timeout c) (state c) (event c) (next_event c) (exception c) (expiry_timer c) (wakeup_timer c) v
    (heartbeat_timer c) (retries c).
Definition with_retries (v : Z) (c : s_client_t) : s_client_t :=
  SClient (cmdpipe c) (msgpipe c) (dealer c) (loop c) (message c) (args c) (connected c) (terminated c)
    (fsm_stopped c) (timeout c) (state c) (event c) (next_event c) (exception c) (expiry_timer c) (wakeup_timer c)
    (wakeup_event c) (heartbeat_timer c) v.

(** ** The API of the engine for actions *)

Definition engine_set_next_event (e : event_t) (c : s_client_t) : s_client_t := with_next_event e c.
Definition engine_set_exception (e : event_t) (c : s_client_t) : s_client_t := with_exception e c.
Definition engine_set_connected (b : bool) (c : s_client_t) : s_client_t := with_connected b c.

(** [if (self->expiry_timer) { zloop_timer_end ...; self->expiry_timer = 0; }] *)
Definition cancel_expiry (c : s_client_t) : s_client_t :=
  if expiry_timer c =? 0 then c
  else with_expiry_timer 0 (with_loop (zloop_timer_end (expiry_timer c) (loop c)) c).

(** [if (self->timeout) self->expiry_timer = zloop_timer (...);] *)
Definition start_expiry (c : s_client_t) : s_client_t :=
  if timeout c =? 0 then c
  else let '(i, l) := zloop_timer (timeout c) (loop c) in with_expiry_timer i (with_loop l c).

Definition engine_set_timeout (t : Z) (c : s_client_t) : s_client_t := start_expiry (cancel_expiry (with_timeout t c)).

(** No action calls it: the client never sets an alarm. *)
Definition engine_set_wakeup_event (delay : Z) (e : event_t) (c : s_client_t) : s_client_t :=
  let c := if wakeup_timer c =? 0 then c
           else with_wakeup_timer 0 (with_loop (zloop_timer_end (wakeup_timer c) (loop c)) c) in
  let '(i, l) := zloop_timer delay (loop c) in
  with_wakeup_event e (with_wakeup_timer i (with_loop l c)).

(** ** The actions of wap_client.c *)
Definition action := s_client_t -> outcome s_client_t.

(** [zsock_send (self->cmdpipe, ...)] *)
Definition tell (its : list item) (c : s_client_t) : s_client_t := with_cmdpipe (zsock_send its (cmdpipe c)) c.

Definition connect_to_server_endpoint : action := fun c =>
  match endpoint (args c) with
  | None => Fault NullPointer
  | Some e =>
      let '(failed, d) := zsock_connect e (dealer c) in
      let c := with_dealer d c in
      Ret (if (failed : bool) then engine_set_exception bad_endpoint_event c else c)
  end.

Definition set_client_identity : action := fun c =>
  match arg_identity (args c) with
  | None => Fault AssertFailed
  | Some i => Ret (with_message (wap_proto_set_identity (message c) i) c)
  end.

Definition use_connect_timeout : action := fun c => Ret (engine_set_timeout (arg_timeout (args c)) c).

Definition client_is_connected : action := fun c =>
  let c := with_retries 0 c in
  let c := engine_set_connected true c in
  Ret (engine_set_timeout (heartbeat_timer c) c).

Definition check_if_connection_is_dead : action := fun c =>
  let* r := I32 (retries c + 1) in
  let c := with_retries r c in
  if 3 <=? r
  then Ret (engine_set_exception exception_event (engine_set_connected false (engine_set_timeout 0 c)))
  else Ret c.

Definition prepare_blocks_command : action := fun c =>
  let '(m, p) := wap_proto_set_block_ids (message c) (arg_block_ids (args c)) in
  let m := wap_proto_set_start_height m (arg_start_height (args c)) in
  Ret (with_message m (with_args (with_arg_block_ids p (args c)) c)).

Definition signal_have_blocks_ok : action := fun c =>
  let '(msg, m) := wap_proto_get_block_data (message c) in
  let* _ := assert (match msg with Some _ => true | None => false end) in
  Ret (tell [IStr (chars "BLOCKS OK"); I8 (wap_proto_status m); I8 (wap_proto_start_height m); I8 (wap_proto_curr_height m);
             IMsg msg] (with_message m c)).

Definition prepare_start_command : action := fun c =>
  let '(m, p) := wap_proto_set_address (message c) (arg_address (args c)) in
  let m := wap_proto_set_thread_count m (arg_thread_count (args c)) in
  Ret (with_message m (with_args (with_arg_address p (args c)) c)).

Definition prepare_put_command : action := fun c =>
  let '(m, p) := wap_proto_set_tx_as_hex (message c) (arg_tx_as_hex (args c)) in
  Ret (with_message m (with_args (with_arg_tx_as_hex p (args c)) c)).

Definition signal_have_put_ok : action := fun c =>
  Ret (tell [IStr (chars "PUT OK"); I8 (wap_proto_status (message c))] c).

Definition prepare_get_command : action := fun c =>
  let '(m, p) := wap_proto_set_tx_id (message c) (arg_tx_id (args c)) in
  Ret (with_message m (with_args (with_arg_tx_id p (args c)) c)).

Definition signal_have_get_ok : action := fun c =>
  let '(data, m) := wap_proto_get_tx_data (message c) in
  Ret (tell [IStr (chars "GET OK"); IInt 0; IChunk data] (with_message m c)).

Definition signal_have_get_height_ok : action := fun c =>
  Ret (tell [IStr (chars "GET HEIGHT OK"); IInt 0; I8 (wap_proto_height (message c))] c).

Definition signal_have_save_bc_ok : action := fun c =>
  Ret (tell [IStr (chars "SAVE BC OK"); I8 (wap_proto_status (message c))] c).

Definition signal_have_start_ok : action := fun c =>
  Ret (tell [IStr (chars "START OK"); I8 (wap_proto_status (message c))] c).

Definition signal_have_stop_ok : action := fun c => Ret (tell [IStr (chars "STOP OK"); IInt 0] c).

Definition signal_success : action := fun c => Ret (tell [IStr (chars "SUCCESS"); IInt 0] c).

Definition signal_bad_endpoint : action := fun c =>
  Ret (tell [IStr (chars "FAILURE"); IInt (-1); IStr (chars "Bad server endpoint")] c).

Definition signal_failure : action := fun c =>
  Ret (tell [IStr (chars "FAILURE"); IInt (-1); IStr (cstr (wap_proto_reason (message c)))] c).

Definition check_status_code : action := fun c =>
  if wap_proto_status (message c) =? 500
  then Ret (engine_set_next_event command_invalid_event c)
  else Ret (engine_set_next_event other_event c).

(** It only logs. *)
Definition signal_unhandled_error : action := fun c => Ret c.

Definition signal_server_not_present : action := fun c =>
  Ret (tell [IStr (chars "FAILURE"); IInt (-1); IStr (chars "Server is not reachable")] c).

Definition prepare_get_output_indexes_command : action := fun c =>
  let '(m, p) := wap_proto_set_tx_id (message c) (arg_tx_id (args c)) in
  Ret (with_message m (with_args (with_arg_tx_id p (args c)) c)).

Definition signal_have_output_indexes_ok : action := fun c =>
  let '(f, m) := wap_proto_get_o_indexes (message c) in
  Ret (tell [IStr (chars "OUTPUT INDEXES OK"); I8 (wap_proto_status m); IFrame f] (with_message m c)).

Definition prepare_get_random_outs_command : action := fun c =>
  let '(m, p) := wap_proto_set_amounts (message c) (arg_amounts (args c)) in
  Ret (with_message m (with_args (with_arg_amounts p (args c)) c)).

Definition signal_have_random_outs_ok : action := fun c =>
  let '(f, m) := wap_proto_get_random_outputs (message c) in
  Ret (tell [IStr (chars "RANDOM OUTS OK"); I8 (wap_proto_status m); IFrame f] (with_message m c)).

Definition signal_have_get_info_ok : action := fun c =>
  let m := message c in
  Ret (tell [IStr (chars "GET INFO OK"); I8 (wap_proto_status m); I8 (wap_proto_height m); I8 (wap_proto_target_height m);
             I8 (wap_proto_difficulty m); I8 (wap_proto_tx_count m); I8 (wap_proto_tx_pool_size m);
             I8 (wap_proto_alt_blocks_count m); I8 (wap_proto_outgoing_connections_count m);
             I8 (wap_proto_incoming_connections_count m); I8 (wap_proto_white_peerlist_size m);
             I8 (wap_proto_grey_peerlist_size m)] c).

Definition signal_have_get_peer_list_ok : action := fun c =>
  let '(w, m) := wap_proto_get_white_list (message c) in
  let '(g, m) := wap_proto_get_gray_list m in
  Ret (tell [IStr (chars "GET PEER LIST OK"); I8 (wap_proto_status m); IFrame w; IFrame g] (with_message m c)).

Definition signal_have_get_mining_status_ok : action := fun c =>
  let '(a, m) := wap_proto_get_address (message c) in
  Ret (tell [IStr (chars "GET MINING STATUS OK"); I8 (wap_proto_status m); I1 (wap_proto_active m); I8 (wap_proto_speed m);
             I8 (wap_proto_thread_count m); IChunk a] (with_message m c)).

Definition prepare_set_log_hash_rate_command : action := fun c =>
  Ret (with_message (wap_proto_set_visible (message c) (arg_visible (args c))) c).

Definition signal_have_set_log_hash_rate_ok : action := fun c =>
  Ret (tell [IStr (chars "SET LOG HASH RATE OK"); I8 (wap_proto_status (message c))] c).

Definition prepare_set_log_level_command : action := fun c =>
  Ret (with_message (wap_proto_set_level (message c) (arg_level (args c))) c).

Definition signal_have_set_log_level_ok : action := fun c =>
  Ret (tell [IStr (chars "SET LOG LEVEL OK"); I8 (wap_proto_status (message c))] c).

Definition signal_have_start_save_graph_ok : action := fun c =>
  Ret (tell [IStr (chars "START SAVE GRAPH OK"); I8 (wap_proto_status (message c))] c).

Definition signal_have_stop_save_graph_ok : action := fun c =>
  Ret (tell [IStr (chars "STOP SAVE GRAPH OK"); I8 (wap_proto_status (message c))] c).

Definition prepare_get_block_hash_command : action := fun c =>
  Ret (with_message (wap_proto_set_height (message c) (arg_height (args c))) c).

Definition signal_have_get_block_hash_ok : action := fun c =>
  let '(h, m) := wap_proto_get_hash (message c) in
  Ret (tell [IStr (chars "GET BLOCK HASH OK"); I8 (wap_proto_status m); IChunk h] (with_message m c)).

Definition prepare_get_block_template_command : action := fun c =>
  let m := wap_proto_set_reserve_size (message c) (arg_reserve_size (args c)) in
  let '(m, p) := wap_proto_set_address m (arg_address (args c)) in
  Ret (with_message m (with_args (with_arg_address p (args c)) c)).

Definition signal_have_get_block_template_ok : action := fun c =>
  let '(h, m) := wap_proto_get_prev_hash (message c) in
  let '(b, m) := wap_proto_get_block_template_blob m in
  Ret (tell [IStr (chars "GET BLOCK TEMPLATE OK"); I8 (wap_proto_status m); I8 (wap_proto_reserved_offset m);
             I8 (wap_proto_height m); I8 (wap_proto_difficulty m); IChunk h; IChunk b] (with_message m c)).

(** ** The state machine *)

(** "send ..." *)
Definition send (i : Z) : action := fun c =>
  let m := wap_proto_set_id (message c) i in
  let* '(_, m, d) := wap_proto_send m (dealer c) in
  Ret (with_message m (with_dealer d c)).

Definition goto (st : state_t) : action := fun c => Ret (with_state st c).
Definition terminate : action := fun c => Ret (with_fsm_stopped true c).

(** "Handle unexpected internal events" *)
Definition unhandled : action := fun c => Fault AssertFailed.

(** [if (!self->exception) ...], one after the other. *)
Fixpoint steps (acts : list action) : action := fun c =>
  match acts with
  | [] => Ret c
  | a :: acts' =>
      let* c := if decide (exception c = NULL_event) then a c else Ret c in
      steps acts' c
  end.

Definition from_start (ev : event_t) : list action :=
  match ev with
  | connect_event =>
      [connect_to_server_endpoint; set_client_identity; use_connect_timeout; send WAP_PROTO_OPEN; goto expect_open_ok_state]
  | bad_endpoint_event => [signal_bad_endpoint; terminate]
  | _ => [unhandled]
  end.

(** The cases that every state but two ends with. *)
Definition from_defaults (ev : event_t) : list action :=
  match ev with
  | ping_ok_event => [client_is_connected]
  | error_event => [check_status_code; goto have_error_state]
  | _ => []
  end.

Definition from_expect_open_ok (ev : event_t) : list action :=
  match ev with
  | open_ok_event => [signal_success; client_is_connected; goto connected_state]
  | expired_event => [signal_server_not_present; terminate]
  | _ => from_defaults ev
  end.

Definition from_connected (ev : event_t) : list action :=
  match ev with
  | blocks_event => [prepare_blocks_command; send WAP_PROTO_BLOCKS; goto expect_blocks_ok_state]
  | get_event => [prepare_get_command; send WAP_PROTO_GET; goto expect_get_ok_state]
  | put_event => [prepare_put_command; send WAP_PROTO_PUT; goto expect_put_ok_state]
  | save_bc_event => [send WAP_PROTO_SAVE_BC; goto expect_save_bc_ok_state]
  | start_event => [prepare_start_command; send WAP_PROTO_START; goto expect_start_ok_state]
  | stop_event => [send WAP_PROTO_STOP; goto expect_stop_ok_state]
  | output_indexes_event =>
      [prepare_get_output_indexes_command; send WAP_PROTO_OUTPUT_INDEXES; goto expect_output_indexes_ok_state]
  | random_outs_event => [prepare_get_random_outs_command; send WAP_PROTO_RANDOM_OUTS; goto expect_random_outs_ok_state]
  | get_height_event => [send WAP_PROTO_GET_HEIGHT; goto expect_get_height_ok_state]
  | get_info_event => [send WAP_PROTO_GET_INFO; goto expect_get_info_ok_state]
  | get_peer_list_event => [send WAP_PROTO_GET_PEER_LIST; goto expect_get_peer_list_ok_state]
  | get_mining_status_event => [send WAP_PROTO_GET_MINING_STATUS; goto expect_get_mining_status_ok_state]
  | set_log_hash_rate_event =>
      [prepare_set_log_hash_rate_command; send WAP_PROTO_SET_LOG_HASH_RATE; goto expect_set_log_hash_rate_ok_state]
  | set_log_level_event => [prepare_set_log_level_command; send WAP_PROTO_SET_LOG_LEVEL; goto expect_set_log_level_ok_state]
  | start_save_graph_event => [send WAP_PROTO_START_SAVE_GRAPH; goto expect_start_save_graph_ok_state]
  | stop_save_graph_event => [send WAP_PROTO_STOP_SAVE_GRAPH; goto expect_stop_save_graph_ok_state]
  | get_block_hash_event => [prepare_get_block_hash_command; send WAP_PROTO_GET_BLOCK_HASH; goto expect_get_block_hash_ok_state]
  | get_block_template_event =>
      [prepare_get_block_template_command; send WAP_PROTO_GET_BLOCK_TEMPLATE; goto expect_get_block_template_ok_state]
  | destructor_event => [send WAP_PROTO_CLOSE; goto expect_close_ok_state]
  | expired_event => [check_if_connection_is_dead; send WAP_PROTO_PING]
  | _ => from_defaults ev
  end.

(** The states that wait for the reply of a request, all of one form. *)
Definition expecting (reply : event_t) (signal : action) (ev : event_t) : list action :=
  if decide (ev = reply) then [signal; goto connected_state] else from_defaults ev.

Definition from_expect_close_ok (ev : event_t) : list action :=
  match ev with
  | close_ok_event => [signal_success; terminate]
  | expired_event => [signal_failure; terminate]
  | _ => from_defaults ev
  end.

Definition from_have_error (ev : event_t) : list action :=
  match ev with
  | command_invalid_event => [use_connect_timeout; send WAP_PROTO_OPEN; goto reexpect_open_ok_state]
  | other_event => [signal_unhandled_error; terminate]
  | _ => [unhandled]
  end.

Definition from_reexpect_open_ok (ev : event_t) : list action :=
  match ev with
  | open_ok_event => [client_is_connected; goto connected_state]
  | _ => from_defaults ev
  end.

(** The switch of [s_client_execute]. *)
Definition transition (st : state_t) : event_t -> list action :=
  match st with
  | start_state => from_start
  | expect_open_ok_state => from_expect_open_ok
  | connected_state => from_connected
  | expect_blocks_ok_state => expecting blocks_ok_event signal_have_blocks_ok
  | expect_get_ok_state => expecting get_ok_event signal_have_get_ok
  | expect_put_ok_state => expecting put_ok_event signal_have_put_ok
  | expect_save_bc_ok_state => expecting save_bc_ok_event signal_have_save_bc_ok
  | expect_start_ok_state => expecting start_ok_event signal_have_start_ok
  | expect_stop_ok_state => expecting stop_ok_event signal_have_stop_ok
  | expect_output_indexes_ok_state => expecting output_indexes_ok_event signal_have_output_indexes_ok
  | expect_random_outs_ok_state => expecting random_outs_ok_event signal_have_random_outs_ok
  | expect_get_height_ok_state => expecting get_height_ok_event signal_have_get_height_ok
  | expect_get_info_ok_state => expecting get_info_ok_event signal_have_get_info_ok
  | expect_get_peer_list_ok_state => expecting get_peer_list_ok_event signal_have_get_peer_list_ok
  | expect_get_mining_status_ok_state => expecting get_mining_status_ok_event signal_have_get_mining_status_ok
  | expect_set_log_hash_rate_ok_state => expecting set_log_hash_rate_ok_event signal_have_set_log_hash_rate_ok
  | expect_set_log_level_ok_state => expecting set_log_level_ok_event signal_have_set_log_level_ok
  | expect_start_save_graph_ok_state => expecting start_save_graph_ok_event signal_have_start_save_graph_ok
  | expect_stop_save_graph_ok_state => expecting stop_save_graph_ok_event signal_have_stop_save_graph_ok
  | expect_get_block_hash_ok_state => expecting get_block_hash_ok_event signal_have_get_block_hash_ok
  | expect_get_block_template_ok_state => expecting get_block_template_ok_event signal_have_get_block_template_ok
  | expect_close_ok_state => from_expect_close_ok
  | defaults_state => from_defaults
  | have_error_state => from_have_error
  | reexpect_open_ok_state => from_reexpect_open_ok
  end.

(** [while (!self->terminated && !self->fsm_stopped && self->next_event !=
    NULL_event)], at most [fuel] turns. *)
Fixpoint execute_loop (fuel : nat) (c : s_client_t) : outcome s_client_t :=
  if terminated c || fsm_stopped c || bool_decide (next_event c = NULL_event) then Ret c
  else match fuel with
       | O => Fault Diverges
       | S fuel' =>
           let c := with_event (next_event c) c in
           let c := with_next_event NULL_event c in
           let c := with_exception NULL_event c in
           let* c := steps (transition (state c) (event c)) c in
           let c := if decide (exception c = NULL_event) then c else with_next_event (exception c) c in
           execute_loop fuel' c
       end.

Definition s_client_execute (fuel : nat) (ev : event_t) (c : s_client_t) : outcome s_client_t :=
  let c := with_next_event ev c in
  let c := if wakeup_timer c =? 0 then c
           else with_wakeup_timer 0 (with_loop (zloop_timer_end (wakeup_timer c) (loop c)) c) in
  execute_loop fuel c.

(** [s_protocol_event]: the event of a message; an unknown one ends the actor. *)
Definition s_protocol_event (c : s_client_t) : event_t * s_client_t :=
  match wap_proto_id (message c) with
  | WAP_PROTO_OPEN_OK => (open_ok_event, c)
  | WAP_PROTO_BLOCKS => (blocks_event, c)
  | WAP_PROTO_BLOCKS_OK => (blocks_ok_event, c)
  | WAP_PROTO_PUT => (put_event, c)
  | WAP_PROTO_PUT_OK => (put_ok_event, c)
  | WAP_PROTO_OUTPUT_INDEXES => (output_indexes_event, c)
  | WAP_PROTO_OUTPUT_INDEXES_OK => (output_indexes_ok_event, c)
  | WAP_PROTO_RANDOM_OUTS => (random_outs_event, c)
  | WAP_PROTO_RANDOM_OUTS_OK => (random_outs_ok_event, c)
  | WAP_PROTO_GET_HEIGHT => (get_height_event, c)
  | WAP_PROTO_GET_HEIGHT_OK => (get_height_ok_event, c)
  | WAP_PROTO_GET => (get_event, c)
  | WAP_PROTO_GET_OK => (get_ok_event, c)
  | WAP_PROTO_SAVE_BC => (save_bc_event, c)
  | WAP_PROTO_SAVE_BC_OK => (save_bc_ok_event, c)
  | WAP_PROTO_START => (start_event, c)
  | WAP_PROTO_START_OK => (start_ok_event, c)
  | WAP_PROTO_GET_INFO => (get_info_event, c)
  | WAP_PROTO_GET_INFO_OK => (get_info_ok_event, c)
  | WAP_PROTO_GET_PEER_LIST => (get_peer_list_event, c)
  | WAP_PROTO_GET_PEER_LIST_OK => (get_peer_list_ok_event, c)
  | WAP_PROTO_GET_MINING_STATUS => (get_mining_status_event, c)
  | WAP_PROTO_GET_MINING_STATUS_OK => (get_mining_status_ok_event, c)
  | WAP_PROTO_SET_LOG_HASH_RATE => (set_log_hash_rate_event, c)
  | WAP_PROTO_SET_LOG_HASH_RATE_OK => (set_log_hash_rate_ok_event, c)
  | WAP_PROTO_SET_LOG_LEVEL => (set_log_level_event, c)
  | WAP_PROTO_SET_LOG_LEVEL_OK => (set_log_level_ok_event, c)
  | WAP_PROTO_START_SAVE_GRAPH => (start_save_graph_event, c)
  | WAP_PROTO_START_SAVE_GRAPH_OK => (start_save_graph_ok_event, c)
  | WAP_PROTO_STOP_SAVE_GRAPH => (stop_save_graph_event, c)
  | WAP_PROTO_STOP_SAVE_GRAPH_OK => (stop_save_graph_ok_event, c)
  | WAP_PROTO_GET_BLOCK_HASH => (get_block_hash_event, c)
  | WAP_PROTO_GET_BLOCK_HASH_OK => (get_block_hash_ok_event, c)
  | WAP_PROTO_GET_BLOCK_TEMPLATE => (get_block_template_event, c)
  | WAP_PROTO_GET_BLOCK_TEMPLATE_OK => (get_block_template_ok_event, c)
  | WAP_PROTO_STOP => (stop_event, c)
  | WAP_PROTO_STOP_OK => (stop_ok_event, c)
  | WAP_PROTO_CLOSE_OK => (close_ok_event, c)
  | WAP_PROTO_PING_OK => (ping_ok_event, c)
  | WAP_PROTO_ERROR => (error_event, c)
  | _ => (NULL_event, with_terminated true c)
  end.

(** ** The callbacks of the reactor

    Each returns the code for the reactor, -1 to end it. *)

(** [timeout] is unsigned: [> 0] is [<> 0]. *)
Definition s_client_handle_timeout (fuel : nat) (c : s_client_t) : outcome (Z * s_client_t) :=
  let* c := s_client_execute fuel expired_event c in
  if terminated c then Ret (-1, c) else Ret (0, start_expiry c).

Definition s_client_handle_wakeup (fuel : nat) (c : s_client_t) : outcome (Z * s_client_t) :=
  let* c := s_client_execute fuel (wakeup_event c) c in Ret (0, c).

(** [zsock_recv (self->cmdpipe, ...)] into the arguments, which it leaves
    alone when it fails.  Elements of other types than those of the pointers
    it is given are memory errors. *)
Definition get_args (picture : list kind) (store : list item -> option client_args_t) : action := fun c =>
  let '(r, p) := zsock_recv picture (cmdpipe c) in
  let c := with_cmdpipe p c in
  match r with
  | None => Ret c
  | Some its => match store its with Some a => Ret (with_args a c) | None => Fault OutOfBounds end
  end.

(** [streq (method, s)] *)
Definition streq (method : list Z) (s : String.string) : bool := bool_decide (method = chars s).

(** The chain of comparisons of [s_client_handle_cmdpipe]. *)
Definition cmdpipe_switch (fuel : nat) (method : list Z) : action := fun c =>
  let a := args c in
  if streq method "$TERM" then Ret (with_terminated true c)
  else if streq method "$CONNECTED" then Ret (tell [IInt (if connected c then 1 else 0)] c)
  else if streq method "CONNECT" then
    let a := with_arg_identity None (with_endpoint None a) in
    let* c := get_args [KStr; K4; KStr] (fun its => match its with
      | [IStr e; I4 t; IStr i] => Some (with_arg_identity (Some i) (with_arg_timeout t (with_endpoint (Some e) a)))
      | _ => None end) (with_args a c) in
    s_client_execute fuel connect_event c
  else if streq method "DESTRUCTOR" then s_client_execute fuel destructor_event c
  else if streq method "BLOCKS" then
    let a := with_arg_block_ids None a in
    let* c := get_args [KList; K8] (fun its => match its with
      | [IList l; I8 h] => Some (with_arg_start_height h (with_arg_block_ids l a))
      | _ => None end) (with_args a c) in
    s_client_execute fuel blocks_event c
  else if streq method "PUT" then
    let a := with_arg_tx_as_hex None a in
    let* c := get_args [KChunk] (fun its => match its with
      | [IChunk k] => Some (with_arg_tx_as_hex k a)
      | _ => None end) (with_args a c) in
    s_client_execute fuel put_event c
  else if streq method "GET" then
    let a := with_arg_tx_id None a in
    let* c := get_args [KChunk] (fun its => match its with
      | [IChunk k] => Some (with_arg_tx_id k a)
      | _ => None end) (with_args a c) in
    s_client_execute fuel get_event c
  else if streq method "SAVE BC" then s_client_execute fuel save_bc_event c
  else if streq method "OUTPUT INDEXES" then
    let a := with_arg_tx_id None a in
    let* c := get_args [KChunk] (fun its => match its with
      | [IChunk k] => Some (with_arg_tx_id k a)
      | _ => None end) (with_args a c) in
    s_client_execute fuel output_indexes_event c
  else if streq method "RANDOM OUTS" then
    let a := with_arg_amounts None a in
    let* c := get_args [K8; KFrame] (fun its => match its with
      | [I8 n; IFrame f] => Some (with_arg_amounts f (with_arg_outs_count n a))
      | _ => None end) (with_args a c) in
    s_client_execute fuel random_outs_event c
  else if streq method "GET HEIGHT" then s_client_execute fuel get_height_event c
  else if streq method "GET INFO" then s_client_execute fuel get_info_event c
  else if streq method "START" then
    let a := with_arg_address None a in
    let* c := get_args [KChunk; K8] (fun its => match its with
      | [IChunk k; I8 n] => Some (with_arg_thread_count n (with_arg_address k a))
      | _ => None end) (with_args a c) in
    s_client_execute fuel start_event c
  else if streq method "STOP" then s_client_execute fuel stop_event c
  else if streq method "GET PEER LIST" then s_client_execute fuel get_peer_list_event c
  else if streq method "GET MINING STATUS" then s_client_execute fuel get_mining_status_event c
  else if streq method "SET LOG HASH RATE" then
    let* c := get_args [K1] (fun its => match its with
      | [I1 v] => Some (with_arg_visible v a)
      | _ => None end) c in
    s_client_execute fuel set_log_hash_rate_event c
  else if streq method "SET LOG LEVEL" then
    let* c := get_args [K1] (fun its => match its with
      | [I1 v] => Some (with_arg_level v a)
      | _ => None end) c in
    s_client_execute fuel set_log_level_event c
  else if streq method "START SAVE GRAPH" then s_client_execute fuel start_save_graph_event c
  else if streq method "STOP SAVE GRAPH" then s_client_execute fuel stop_save_graph_event c
  else if streq method "GET BLOCK HASH" then
    let* c := get_args [K8] (fun its => match its with
      | [I8 h] => Some (with_arg_height h a)
      | _ => None end) c in
    s_client_execute fuel get_block_hash_event c
  else if streq method "GET BLOCK TEMPLATE" then
    let a := with_arg_address None a in
    let* c := get_args [K8; KChunk] (fun its => match its with
      | [I8 n; IChunk k] => Some (with_arg_address k (with_arg_reserve_size n a))
      | _ => None end) (with_args a c) in
    s_client_execute fuel get_block_template_event c
  else Ret c.

Definition s_client_handle_cmdpipe (fuel : nat) (c : s_client_t) : outcome (Z * s_client_t) :=
  let '(r, p) := zstr_recv (cmdpipe c) in
  let c := with_cmdpipe p c in
  match r with
  | None => Ret (-1, c)
  | Some method =>
      let* c := cmdpipe_switch fuel method c in
      let c := if zpipe_rcvmore (cmdpipe c) then with_cmdpipe (zsock_flush (cmdpipe c)) c else c in
      Ret (if terminated c then -1 else 0, c)
  end.

(** [while (zsock_events (self->msgpipe) & ZMQ_POLLIN)], at most [turns] turns. *)
Fixpoint s_client_handle_msgpipe (turns : nat) (c : s_client_t) : outcome (Z * s_client_t) :=
  if negb (zpipe_pollin (msgpipe c)) then Ret (0, c)
  else match turns with
       | O => Fault Diverges
       | S turns' =>
           let '(r, p) := zstr_recv (msgpipe c) in
           let c := with_msgpipe p c in
           match r with
           | None => Ret (-1, c)
           | Some method =>
               let c := if streq method "$FLUSH" then with_cmdpipe (zsock_signal 0 (cmdpipe c)) c else c in
               let c := if zpipe_rcvmore (msgpipe c) then with_msgpipe (zsock_flush (msgpipe c)) c else c in
               s_client_handle_msgpipe turns' c
           end
       end.

(** One turn of the loop of [s_client_handle_protocol]: the return code, when
    it returns, and the client. *)
Definition handle_reply (junk : list Z) (fuel : nat) (c : s_client_t) : outcome (option Z * s_client_t) :=
  let* '(rc, m, d) := wap_proto_recv junk (message c) (dealer c) in
  let c := with_message m (with_dealer d c) in
  if negb (rc =? 0) then Ret (Some (-1), c)
  else
    let c := start_expiry (cancel_expiry c) in
    let '(ev, c) := s_protocol_event c in
    let* c := s_client_execute fuel ev c in
    Ret (if terminated c then Some (-1) else None, c).

Fixpoint s_client_handle_protocol (junk : list Z) (fuel turns : nat) (c : s_client_t) : outcome (Z * s_client_t) :=
  if negb (zsock_pollin (dealer c)) then Ret (0, c)
  else match turns with
       | O => Fault Diverges
       | S turns' =>
           let* '(rc, c) := handle_reply junk fuel c in
           match rc with Some rc => Ret (rc, c) | None => s_client_handle_protocol junk fuel turns' c end
       end.

(** ** A new client

    [s_client_new] with [client_initialize]: zeroed memory, a DEALER socket
    that is not connected, an empty message, a reactor without timers. *)
Definition no_args : client_args_t := ClientArgs None 0 None None 0 None None 0 None None 0 0 0 0 0.

Definition s_client_new (cmd msg : zpipe) (d : zsock) (l : zloop) : s_client_t :=
  SClient cmd msg d l wap_proto_new no_args false false false 0 start_state NULL_event NULL_event NULL_event 0 0 NULL_event
    1000 0.

End Client.
