(* ===== verification/WapClientApi.v ===== *)
(** The class interface of the wallet protocol's client, the second half of
    src/ipc/include/wap_client_engine.inc: the object the calling thread has,
    its calls, each a command to the actor and a reply to wait for, and the
    theorems about what a call returns.

    A call is split in two, since the actor works between its halves:
    [call_send] gives the command to the actor, [call_wait] waits for the
    reply and returns what the call returns. *)

From Stdlib Require Import String.
From S2P Require Import Prelude Limbs Bytes Words Memory Czmq WapProto WapGrammar WapSend WapRecv WapAccess WapPipe WapClient.

Notation "x |> f" := (f x) (at level 50, left associativity, only parsing) : c_scope.

Section Api.
Context `{Czmq} {Pi : CzmqPipe}.

(** ** The object

    [status] is an int and [reason] the pointer after it.  A reply that gives
    the status in 8 octets is stored through a pointer to [status]: on the
    little-endian targets with 8-octet pointers its low half goes to [status]
    and its high half over the low half of [reason].  A pointer that was
    overwritten points nowhere ([Wild]), except that zero over NULL is NULL;
    no string has an address with a low half as small as a status.  The pipe for
    bulk messages and the field [connected], which nothing uses, are left out. *)
Inductive char_ptr := NULL | Chars (s : list Z) | Wild.

Record wap_client_t := WapClient {
  actor : zpipe; r_status : Z; r_reason : char_ptr; r_numbers : number -> Z; r_block_data : option zmsg;
  r_chunks : chunk_field -> option zchunk; r_frames : frame_field -> option zframe; r_active : Z }.

Definition with_actor (v : zpipe) (self : wap_client_t) : wap_client_t :=
  WapClient v (r_status self) (r_reason self) (r_numbers self) (r_block_data self) (r_chunks self) (r_frames self)
    (r_active self).
Definition with_r_status (v : Z) (self : wap_client_t) : wap_client_t :=
  WapClient (actor self) v (r_reason self) (r_numbers self) (r_block_data self) (r_chunks self) (r_frames self)
    (r_active self).
Definition with_r_reason (v : char_ptr) (self : wap_client_t) : wap_client_t :=
  WapClient (actor self) (r_status self) v (r_numbers self) (r_block_data self) (r_chunks self) (r_frames self)
    (r_active self).
Definition with_r_numbers (v : number -> Z) (self : wap_client_t) : wap_client_t :=
  WapClient (actor self) (r_status self) (r_reason self) v (r_block_data self) (r_chunks self) (r_frames self)
    (r_active self).
Definition with_r_block_data (v : option zmsg) (self : wap_client_t) : wap_client_t :=
  WapClient (actor self) (r_status self) (r_reason self) (r_numbers self) v (r_chunks self) (r_frames self)
    (r_active self).
Definition with_r_chunks (v : chunk_field -> option zchunk) (self : wap_client_t) : wap_client_t :=
  WapClient (actor self) (r_status self) (r_reason self) (r_numbers self) (r_block_data self) v (r_frames self)
    (r_active self).
Definition with_r_frames (v : frame_field -> option zframe) (self : wap_client_t) : wap_client_t :=
  WapClient (actor self) (r_status self) (r_reason self) (r_numbers self) (r_block_data self) (r_chunks self) v
    (r_active self).
Definition with_r_active (v : Z) (self : wap_client_t) : wap_client_t :=
  WapClient (actor self) (r_status self) (r_reason self) (r_numbers self) (r_block_data self) (r_chunks self)
    (r_frames self) v.

Definition set_r_number (n : number) (v : Z) (self : wap_client_t) : wap_client_t :=
  with_r_numbers (upd (r_numbers self) n v) self.
Definition set_r_chunk (c : chunk_field) (v : option zchunk) (self : wap_client_t) : wap_client_t :=
  with_r_chunks (upd (r_chunks self) c v) self.
Definition set_r_frame (f : frame_field) (v : option zframe) (self : wap_client_t) : wap_client_t :=
  with_r_frames (upd (r_frames self) f v) self.

(** [zmalloc] and a new actor. *)
Definition wap_client_new (a : zpipe) : wap_client_t :=
  WapClient a 0 NULL (fun _ => 0) None (fun _ => None) (fun _ => None) 0.

(** An int into [&self->status], and a 64-bit number into it. *)
Definition store_status_i (v : Z) (self : wap_client_t) : wap_client_t := with_r_status v self.

Definition overwritten (low : Z) (p : char_ptr) : char_ptr :=
  match p with NULL => if low =? 0 then NULL else Wild | _ => Wild end.

Definition store_status_8 (v : Z) (self : wap_client_t) : wap_client_t :=
  with_r_reason (overwritten (v / 2 ^ 32) (r_reason self)) (with_r_status (swrap 32 v) self).

Definition zstr_free (p : char_ptr) : outcome char_ptr :=
  match p with Wild => Fault OutOfBounds | _ => Ret NULL end.

(** ** Waiting for a reply *)

(** [zsock_recv (self->actor, ...)] into the fields, as [get_args]. *)
Definition get_reply (picture : list kind) (store : wap_client_t -> list item -> option wap_client_t) (self : wap_client_t) :
  outcome wap_client_t :=
  let '(r, p) := zsock_recv picture (actor self) in
  let self := with_actor p self in
  match r with
  | None => Ret self
  | Some its => match store self its with Some self => Ret self | None => Fault OutOfBounds end
  end.

(** The chain of comparisons of [s_accept_reply]. *)
Definition accept (reply : list Z) (self : wap_client_t) : outcome wap_client_t :=
  if streq reply "SUCCESS" then
    get_reply [KInt] (fun self its => match its with
      | [IInt s] =>
          Some (self |> store_status_i s)
      | _ => None end) self
  else if streq reply "FAILURE" then
    let* p := zstr_free (r_reason self) in
    let self := with_r_reason p self in
    get_reply [KInt; KStr] (fun self its => match its with
      | [IInt s; IStr r] =>
          Some (self |> store_status_i s |> with_r_reason (Chars r))
      | _ => None end) self
  else if streq reply "BLOCKS OK" then
    let self := with_r_block_data None self in
    get_reply [K8; K8; K8; KMsg] (fun self its => match its with
      | [I8 s; I8 sh; I8 ch; IMsg bd] =>
          Some (self |> store_status_8 s |> set_r_number start_height sh |> set_r_number curr_height ch
            |> with_r_block_data bd)
      | _ => None end) self
  else if streq reply "PUT OK" then
    get_reply [K8] (fun self its => match its with
      | [I8 s] =>
          Some (self |> store_status_8 s)
      | _ => None end) self
  else if streq reply "GET OK" then
    let self := set_r_chunk tx_data None self in
    get_reply [KInt; KChunk] (fun self its => match its with
      | [IInt s; IChunk td] =>
          Some (self |> store_status_i s |> set_r_chunk tx_data td)
      | _ => None end) self
  else if streq reply "SAVE BC OK" then
    get_reply [K8] (fun self its => match its with
      | [I8 s] =>
          Some (self |> store_status_8 s)
      | _ => None end) self
  else if streq reply "OUTPUT INDEXES OK" then
    let self := set_r_frame o_indexes None self in
    get_reply [K8; KFrame] (fun self its => match its with
      | [I8 s; IFrame oi] =>
          Some (self |> store_status_8 s |> set_r_frame o_indexes oi)
      | _ => None end) self
  else if streq reply "RANDOM OUTS OK" then
    let self := set_r_frame random_outputs None self in
    get_reply [K8; KFrame] (fun self its => match its with
      | [I8 s; IFrame ro] =>
          Some (self |> store_status_8 s |> set_r_frame random_outputs ro)
      | _ => None end) self
  else if streq reply "GET HEIGHT OK" then
    get_reply [K8; K8] (fun self its => match its with
      | [I8 s; I8 h] =>
          Some (self |> store_status_8 s |> set_r_number height h)
      | _ => None end) self
  else if streq reply "GET INFO OK" then
    get_reply [K8; K8; K8; K8; K8; K8; K8; K8; K8; K8; K8] (fun self its => match its with
      | [I8 s; I8 h; I8 th; I8 d; I8 tc; I8 tps; I8 abc; I8 occ; I8 icc; I8 wps; I8 gps] =>
          Some (self |> store_status_8 s |> set_r_number height h |> set_r_number target_height th
            |> set_r_number difficulty d |> set_r_number tx_count tc |> set_r_number tx_pool_size tps
            |> set_r_number alt_blocks_count abc |> set_r_number outgoing_connections_count occ
            |> set_r_number incoming_connections_count icc |> set_r_number white_peerlist_size wps
            |> set_r_number grey_peerlist_size gps)
      | _ => None end) self
  else if streq reply "START OK" then
    get_reply [K8] (fun self its => match its with
      | [I8 s] =>
          Some (self |> store_status_8 s)
      | _ => None end) self
  else if streq reply "STOP OK" then
    get_reply [K8] (fun self its => match its with
      | [I8 s] =>
          Some (self |> store_status_8 s)
      | _ => None end) self
  else if streq reply "GET PEER LIST OK" then
    let self := set_r_frame white_list None self in
    let self := set_r_frame gray_list None self in
    get_reply [K8; KFrame; KFrame] (fun self its => match its with
      | [I8 s; IFrame wl; IFrame gl] =>
          Some (self |> store_status_8 s |> set_r_frame white_list wl |> set_r_frame gray_list gl)
      | _ => None end) self
  else if streq reply "GET MINING STATUS OK" then
    let self := set_r_chunk address None self in
    get_reply [K8; K1; K8; K8; KChunk] (fun self its => match its with
      | [I8 s; I1 a; I8 s2; I8 tc; IChunk a2] =>
          Some (self |> store_status_8 s |> with_r_active a |> set_r_number speed s2 |> set_r_number thread_count tc
            |> set_r_chunk address a2)
      | _ => None end) self
  else if streq reply "SET LOG HASH RATE OK" then
    get_reply [K8] (fun self its => match its with
      | [I8 s] =>
          Some (self |> store_status_8 s)
      | _ => None end) self
  else if streq reply "SET LOG LEVEL OK" then
    get_reply [K8] (fun self its => match its with
      | [I8 s] =>
          Some (self |> store_status_8 s)
      | _ => None end) self
  else if streq reply "START SAVE GRAPH OK" then
    get_reply [K8] (fun self its => match its with
      | [I8 s] =>
          Some (self |> store_status_8 s)
      | _ => None end) self
  else if streq reply "STOP SAVE GRAPH OK" then
    get_reply [K8] (fun self its => match its with
      | [I8 s] =>
          Some (self |> store_status_8 s)
      | _ => None end) self
  else if streq reply "GET BLOCK HASH OK" then
    let self := set_r_chunk hash None self in
    get_reply [K8; KChunk] (fun self its => match its with
      | [I8 s; IChunk h] =>
          Some (self |> store_status_8 s |> set_r_chunk hash h)
      | _ => None end) self
  else if streq reply "GET BLOCK TEMPLATE OK" then
    let self := set_r_chunk prev_hash None self in
    let self := set_r_chunk block_template_blob None self in
    get_reply [K8; K8; K8; K8; KChunk; KChunk] (fun self its => match its with
      | [I8 s; I8 ro; I8 h; I8 d; IChunk ph; IChunk btb] =>
          Some (self |> store_status_8 s |> set_r_number reserved_offset ro |> set_r_number height h
            |> set_r_number difficulty d |> set_r_chunk prev_hash ph |> set_r_chunk block_template_blob btb)
      | _ => None end) self
  else Ret self.

(** [s_accept_reply], at most [fuel] replies; [zsys_interrupted] shows in the
    receive that returns NULL. *)
Fixpoint s_accept_reply (fuel : nat) (filters : list String.string) (self : wap_client_t) : outcome (Z * wap_client_t) :=
  match fuel with
  | O => Fault Diverges
  | S fuel' =>
      let '(r, p) := zstr_recv (actor self) in
      let self := with_actor p self in
      match r with
      | None => Ret (-1, self)
      | Some reply =>
          let matched := existsb (streq reply) filters in
          let* self := if matched then accept reply self else Ret self in
          let self := with_actor (zsock_flush (actor self)) self in
          if matched then Ret (0, self) else s_accept_reply fuel' filters self
      end
  end.

(** ** The calls

    The command of a call and the replies it accepts. *)
Record api_call := ApiCall { command : list item; filters : list String.string }.

Definition wap_client_connect (endpoint : list Z) (timeout : Z) (identity : list Z) : api_call :=
  ApiCall [IStr (chars "CONNECT"); IStr endpoint; I4 timeout; IStr identity] ["SUCCESS"; "FAILURE"]%string.
Definition wap_client_destructor : api_call :=
  ApiCall [IStr (chars "DESTRUCTOR")] ["SUCCESS"; "FAILURE"]%string.
Definition wap_client_blocks (block_ids_p : option zlist) (start_height : Z) : api_call :=
  ApiCall [IStr (chars "BLOCKS"); IList block_ids_p; I8 start_height] ["BLOCKS OK"; "FAILURE"]%string.
Definition wap_client_put (tx_as_hex_p : option zchunk) : api_call :=
  ApiCall [IStr (chars "PUT"); IChunk tx_as_hex_p] ["PUT OK"; "FAILURE"]%string.
Definition wap_client_get (tx_id_p : option zchunk) : api_call :=
  ApiCall [IStr (chars "GET"); IChunk tx_id_p] ["GET OK"; "FAILURE"]%string.
Definition wap_client_save_bc : api_call :=
  ApiCall [IStr (chars "SAVE BC")] ["SAVE BC OK"; "FAILURE"]%string.
Definition wap_client_output_indexes (tx_id_p : option zchunk) : api_call :=
  ApiCall [IStr (chars "OUTPUT INDEXES"); IChunk tx_id_p] ["OUTPUT INDEXES OK"; "FAILURE"]%string.
Definition wap_client_random_outs (outs_count : Z) (amounts_p : option zframe) : api_call :=
  ApiCall [IStr (chars "RANDOM OUTS"); I8 outs_count; IFrame amounts_p] ["RANDOM OUTS OK"; "FAILURE"]%string.
Definition wap_client_get_height : api_call :=
  ApiCall [IStr (chars "GET HEIGHT")] ["GET HEIGHT OK"; "FAILURE"]%string.
Definition wap_client_get_info : api_call :=
  ApiCall [IStr (chars "GET INFO")] ["GET INFO OK"; "FAILURE"]%string.
Definition wap_client_start (address_p : option zchunk) (thread_count : Z) : api_call :=
  ApiCall [IStr (chars "START"); IChunk address_p; I8 thread_count] ["START OK"; "FAILURE"]%string.
Definition wap_client_stop : api_call :=
  ApiCall [IStr (chars "STOP")] ["STOP OK"; "FAILURE"]%string.
Definition wap_client_get_peer_list : api_call :=
  ApiCall [IStr (chars "GET PEER LIST")] ["GET PEER LIST OK"; "FAILURE"]%string.
Definition wap_client_get_mining_status : api_call :=
  ApiCall [IStr (chars "GET MINING STATUS")] ["GET MINING STATUS OK"; "FAILURE"]%string.
Definition wap_client_set_log_hash_rate (visible : Z) : api_call :=
  ApiCall [IStr (chars "SET LOG HASH RATE"); I1 visible] ["SET LOG HASH RATE OK"; "FAILURE"]%string.
Definition wap_client_set_log_level (level : Z) : api_call :=
  ApiCall [IStr (chars "SET LOG LEVEL"); I1 level] ["SET LOG LEVEL OK"; "FAILURE"]%string.
Definition wap_client_start_save_graph : api_call :=
  ApiCall [IStr (chars "START SAVE GRAPH")] ["START SAVE GRAPH OK"; "FAILURE"]%string.
Definition wap_client_stop_save_graph : api_call :=
  ApiCall [IStr (chars "STOP SAVE GRAPH")] ["STOP SAVE GRAPH OK"; "FAILURE"]%string.
Definition wap_client_get_block_hash (height : Z) : api_call :=
  ApiCall [IStr (chars "GET BLOCK HASH"); I8 height] ["GET BLOCK HASH OK"; "FAILURE"]%string.
Definition wap_client_get_block_template (reserve_size : Z) (address_p : option zchunk) : api_call :=
  ApiCall [IStr (chars "GET BLOCK TEMPLATE"); I8 reserve_size; IChunk address_p] ["GET BLOCK TEMPLATE OK"; "FAILURE"]%string.

Definition call_send (a : api_call) (self : wap_client_t) : wap_client_t := with_actor (zsock_send (command a) (actor self)) self.

(** [if (s_accept_reply (...)) return -1; return self->status;] *)
Definition call_wait (fuel : nat) (a : api_call) (self : wap_client_t) : outcome (Z * wap_client_t) :=
  let* '(rc, self) := s_accept_reply fuel (filters a) self in
  Ret (if rc =? 0 then r_status self else -1, self).

(** [wap_client_connected], in two halves as well. *)
Definition connected_send (self : wap_client_t) : wap_client_t :=
  with_actor (zsock_send [IStr (chars "$CONNECTED")] (actor self)) self.

Definition connected_wait (self : wap_client_t) : option bool * wap_client_t :=
  let '(r, p) := zsock_recv [KInt] (actor self) in
  (match r with Some [IInt i] => Some (negb (i =? 0)) | _ => None end, with_actor p self).

(** The calls as data. *)
Inductive method :=
| Connect (endpoint : list Z) (timeout : Z) (identity : list Z) | Destructor
| Blocks (block_ids : option zlist) (start_height : Z) | Put (tx_as_hex : option zchunk) | Get (tx_id : option zchunk)
| SaveBc | OutputIndexes (tx_id : option zchunk) | RandomOuts (outs_count : Z) (amounts : option zframe) | GetHeight
| GetInfo | Start (address : option zchunk) (thread_count : Z) | Stop | GetPeerList | GetMiningStatus
| SetLogHashRate (visible : Z) | SetLogLevel (level : Z) | StartSaveGraph | StopSaveGraph | GetBlockHash (height : Z)
| GetBlockTemplate (reserve_size : Z) (address : option zchunk).

Definition the_call (m : method) : api_call :=
  match m with
  | Connect e t i => wap_client_connect e t i
  | Destructor => wap_client_destructor
  | Blocks l h => wap_client_blocks l h
  | Put k => wap_client_put k
  | Get k => wap_client_get k
  | SaveBc => wap_client_save_bc
  | OutputIndexes k => wap_client_output_indexes k
  | RandomOuts n f => wap_client_random_outs n f
  | GetHeight => wap_client_get_height
  | GetInfo => wap_client_get_info
  | Start k n => wap_client_start k n
  | Stop => wap_client_stop
  | GetPeerList => wap_client_get_peer_list
  | GetMiningStatus => wap_client_get_mining_status
  | SetLogHashRate v => wap_client_set_log_hash_rate v
  | SetLogLevel v => wap_client_set_log_level v
  | StartSaveGraph => wap_client_start_save_graph
  | StopSaveGraph => wap_client_stop_save_graph
  | GetBlockHash h => wap_client_get_block_hash h
  | GetBlockTemplate n k => wap_client_get_block_template n k
  end.

(** ** The values of the last reply *)
Definition wap_client_status (self : wap_client_t) : Z := r_status self.
Definition wap_client_reason (self : wap_client_t) : char_ptr := r_reason self.
Definition wap_client_start_height (self : wap_client_t) : Z := r_numbers self start_height.
Definition wap_client_curr_height (self : wap_client_t) : Z := r_numbers self curr_height.
Definition wap_client_block_data (self : wap_client_t) : option zmsg := r_block_data self.
Definition wap_client_tx_data (self : wap_client_t) : option zchunk := r_chunks self tx_data.
Definition wap_client_o_indexes (self : wap_client_t) : option zframe := r_frames self o_indexes.
Definition wap_client_random_outputs (self : wap_client_t) : option zframe := r_frames self random_outputs.
Definition wap_client_height (self : wap_client_t) : Z := r_numbers self height.
Definition wap_client_target_height (self : wap_client_t) : Z := r_numbers self target_height.
Definition wap_client_difficulty (self : wap_client_t) : Z := r_numbers self difficulty.
Definition wap_client_tx_count (self : wap_client_t) : Z := r_numbers self tx_count.
Definition wap_client_tx_pool_size (self : wap_client_t) : Z := r_numbers self tx_pool_size.
Definition wap_client_alt_blocks_count (self : wap_client_t) : Z := r_numbers self alt_blocks_count.
Definition wap_client_outgoing_connections_count (self : wap_client_t) : Z := r_numbers self outgoing_connections_count.
Definition wap_client_incoming_connections_count (self : wap_client_t) : Z := r_numbers self incoming_connections_count.
Definition wap_client_white_peerlist_size (self : wap_client_t) : Z := r_numbers self white_peerlist_size.
Definition wap_client_grey_peerlist_size (self : wap_client_t) : Z := r_numbers self grey_peerlist_size.
Definition wap_client_white_list (self : wap_client_t) : option zframe := r_frames self white_list.
Definition wap_client_gray_list (self : wap_client_t) : option zframe := r_frames self gray_list.
Definition wap_client_active (self : wap_client_t) : Z := r_active self.
Definition wap_client_speed (self : wap_client_t) : Z := r_numbers self speed.
Definition wap_client_thread_count (self : wap_client_t) : Z := r_numbers self thread_count.
Definition wap_client_address (self : wap_client_t) : option zchunk := r_chunks self address.
Definition wap_client_hash (self : wap_client_t) : option zchunk := r_chunks self hash.
Definition wap_client_reserved_offset (self : wap_client_t) : Z := r_numbers self reserved_offset.
Definition wap_client_prev_hash (self : wap_client_t) : option zchunk := r_chunks self prev_hash.
Definition wap_client_block_template_blob (self : wap_client_t) : option zchunk := r_chunks self block_template_blob.

End Api.
