(* ===== verification/WapClientFacts.v ===== *)
(** The state machine of the wallet protocol's client: what its actions keep
    true, that an event is dealt with in at most two turns, and what the
    callbacks do with a command, a reply, an error and a timeout. *)

From stdpp Require Import gmap.
From Stdlib Require Import String.
From S2P Require Import Prelude Limbs Bytes Words Memory Czmq WapProto WapGrammar WapSend WapRecv WapAccess WapCodec WapPipe WapClient.

Create HintDb calm.

Lemma bind_ret {A} (m : outcome A) : bind m Ret = m.
Proof. by destruct m. Qed.

Section Facts.
Context `{CzmqLaws} {M : CzmqMemory} {Po : CzmqPoll} {Pi : CzmqPipe} {PiL : CzmqPipeLaws} {Lo : CzmqLoop} {LoL : CzmqLoopLaws}.

(** ** The expiry timer

    At most one timer runs, the one the client knows. *)
Definition one_timer (c : s_client_t) : Prop :=
  (expiry_timer c = 0 /\ timers (loop c) = ∅) \/ (expiry_timer c <> 0 /\ timers (loop c) = {[expiry_timer c]}).

(** And it runs exactly when there is a timeout. *)
Definition armed (c : s_client_t) : Prop := one_timer c /\ (timeout c = 0 <-> expiry_timer c = 0).

Definition with_timer (i : Z) (l : zloop) (c : s_client_t) : s_client_t := with_expiry_timer i (with_loop l c).

Lemma cancel_expiry_spec c : one_timer c -> exists l, cancel_expiry c = with_timer 0 l c /\ timers l = ∅.
Proof.
  intros Ht. unfold cancel_expiry. destruct (Z.eqb_spec (expiry_timer c) 0) as [E|E].
  - exists (loop c). split; [unfold with_timer; rewrite <- E; by destruct c|]. by destruct Ht as [[_ ?]|[? _]].
  - exists (zloop_timer_end (expiry_timer c) (loop c)). split; [done|]. rewrite zloop_timer_end_ok.
    destruct Ht as [[? _]|[_ ->]]; [done|]. apply difference_diag_L.
Qed.

(** Starting the timer with no other timer, or with one that has just fired. *)
Lemma start_expiry_spec c : exists i l, start_expiry c = with_timer i l c /\
  (timeout c = 0 -> i = expiry_timer c /\ l = loop c) /\
  (timeout c <> 0 -> i <> 0 /\ (i ∉ timers (loop c)) /\ timers l = {[i]} ∪ timers (loop c)).
Proof.
  unfold start_expiry. destruct (Z.eqb_spec (timeout c) 0) as [E|E].
  - exists (expiry_timer c), (loop c). split; [by destruct c|]. done.
  - destruct (zloop_timer_ok (timeout c) (loop c)) as (Hn & Hf & Ht).
    destruct (zloop_timer (timeout c) (loop c)) as [i l]. exists i, l. done.
Qed.

Lemma restart_spec c : one_timer c -> exists i l, start_expiry (cancel_expiry c) = with_timer i l c /\ armed (with_timer i l c).
Proof.
  intros (l0 & -> & Hl0)%cancel_expiry_spec. destruct (start_expiry_spec (with_timer 0 l0 c)) as (i & l & -> & E0 & E1).
  exists i, l. split; [done|]. unfold armed, one_timer. cbn [timeout with_timer with_expiry_timer with_loop expiry_timer loop] in *.
  destruct (decide (timeout c = 0)) as [E|E].
  - destruct (E0 E) as [-> ->]. rewrite Hl0. split; [by left|]. by split.
  - destruct (E1 E) as (Hi & _ & ->). rewrite Hl0, union_empty_r_L. split; [by right|]. by split.
Qed.

Lemma engine_set_timeout_spec t c : one_timer c ->
  exists i l, engine_set_timeout t c = with_timer i l (with_timeout t c) /\ armed (engine_set_timeout t c).
Proof. intros Ht. destruct (restart_spec (with_timeout t c) Ht) as (i & l & E & Ha). exists i, l. unfold engine_set_timeout. by rewrite E. Qed.

(** ** The invariant inside a turn *)
Record sound (c : s_client_t) : Prop := {
  sound_message : wf (message c);
  sound_dealer : zsock_type (dealer c) = ZMQ_DEALER;
  sound_wakeup : wakeup_timer c = 0;
  sound_heartbeat : heartbeat_timer c = 1000;
  sound_retries : 0 <= retries c <= 3;
  sound_armed : armed c;
  sound_running : terminated c = false }.

(** When three heartbeats went unanswered the timer is off. *)
Definition gave_up (c : s_client_t) : Prop := retries c = 3 -> timeout c = 0.

(** What an action leaves alone: all that decides how the turn goes on. *)
Record on_course (c c' : s_client_t) : Prop := {
  oc_state : state c' = state c;
  oc_next_event : next_event c' = next_event c;
  oc_exception : exception c' = exception c;
  oc_stopped : fsm_stopped c' = fsm_stopped c;
  oc_event : event c' = event c;
  oc_msgpipe : msgpipe c' = msgpipe c }.

#[export] Instance on_course_preorder : PreOrder on_course.
Proof. split; [by intros c|]. intros a b c [] []. split; congruence. Qed.

Definition calm (a : action) : Prop := forall c, sound c ->
  yields (a c) (fun c' => sound c' /\ on_course c c' /\ (gave_up c -> gave_up c')).

(** An action that only writes to the pipe and the message. *)
Lemma calm_tell c m its : sound c -> wf m ->
  sound (tell its (with_message m c)) /\ on_course c (tell its (with_message m c)) /\
  (gave_up c -> gave_up (tell its (with_message m c))).
Proof. intros [] W. split; [by split|]. split; [by split|done]. Qed.

Lemma calm_prepare c m a : sound c -> wf m ->
  sound (with_message m (with_args a c)) /\ on_course c (with_message m (with_args a c)) /\
  (gave_up c -> gave_up (with_message m (with_args a c))).
Proof. intros [] W. split; [by split|]. split; [by split|done]. Qed.

Lemma calm_message c m : sound c -> wf m ->
  sound (with_message m c) /\ on_course c (with_message m c) /\ (gave_up c -> gave_up (with_message m c)).
Proof. intros [] W. split; [by split|]. split; [by split|done]. Qed.

Lemma calm_say c its : sound c -> sound (tell its c) /\ on_course c (tell its c) /\ (gave_up c -> gave_up (tell its c)).
Proof. intros []. split; [by split|]. split; [by split|done]. Qed.

Lemma wf_number n v p : wf p -> wf (with_number n (uwrap 64 v) p).
Proof. intros W. eapply kept_wf; [apply kept_number, uwrap_range; lia|done]. Qed.
Lemma wf_octet o v p : wf p -> wf (with_octet o (uwrap 8 v) p).
Proof. intros W. eapply kept_wf; [apply kept_octet, uwrap_range; lia|done]. Qed.
Lemma wf_chunk k v p : wf p -> wf (with_chunk k v p).
Proof. exact (kept_wf _ _ _ (kept_chunk k v p)). Qed.
Lemma wf_frame f v p : wf p -> wf (with_frame f v p).
Proof. exact (kept_wf _ _ _ (kept_frame f v p)). Qed.
Lemma wf_block_ids l p : wf p -> wf (with_block_ids l p).
Proof. exact (kept_wf _ _ _ (kept_block_ids l p)). Qed.
Lemma wf_block_data m p : wf p -> wf (with_block_data m p).
Proof. exact (kept_wf _ _ _ (kept_block_data m p)). Qed.
Lemma wf_identity v p : wf p -> wf (with_string identity (strncpy255 v) p).
Proof. intros W. destruct (strncpy255_ok v). eapply kept_wf; [by apply kept_string|done]. Qed.

#[local] Hint Resolve wf_number wf_octet wf_chunk wf_frame wf_block_ids wf_block_data wf_identity sound_message : calm.

(** ** The actions *)

Ltac quiet := intros ? ?; hnf; eexists; split; [reflexivity|];
  first [apply calm_say|apply calm_message|apply calm_prepare|apply calm_tell]; eauto with calm.

#[local] Hint Extern 2 (calm _) => quiet : calm.


Lemma calm_nothing : calm (fun c => Ret c).
Proof. intros c S. by apply yields_ret. Qed.

Lemma client_send_spec i c : sound c ->
  yields (send i c) (fun c' => sound c' /\ on_course c c' /\ (gave_up c -> gave_up c') /\
    c' = with_message (message c') (with_dealer (dealer c') c) /\ same (with_id i (message c)) (message c') /\
    outbox (dealer c') = outbox (dealer c) ++ sent_frames (with_id i (message c)) (fields i)).
Proof.
  intros S. unfold send. cbn zeta. unfold wap_proto_set_id. destruct S as [W D ? ? ? ? ?].
  eapply yields_bind; [apply (send_total (with_id i (message c)) (fields i) (dealer c) M (wf_with_id _ _ W) eq_refl)|].
  intros [[rc m] d] (_ & Sm & Ho & [Ht _]). apply yields_ret. rewrite D in Ho, Ht. cbn [Z.eqb] in Ho.
  split; [split; try done; eapply wf_same, wf_with_id; done|]. split; [by split|]. done.
Qed.

Lemma calm_send i : calm (send i).
Proof. intros c S. eapply yields_mono; [by apply client_send_spec|]. intros c' (? & ? & ? & _). done. Qed.

(** Setting the timeout; without heartbeats missed it is also calm. *)
Lemma set_timeout_sound t c : sound c ->
  sound (engine_set_timeout t c) /\ on_course c (engine_set_timeout t c) /\
  retries (engine_set_timeout t c) = retries c /\ timeout (engine_set_timeout t c) = t.
Proof.
  intros [W D Wk Hb R [Ho Ha] Rn]. destruct (engine_set_timeout_spec t c Ho) as (i & l & E & A). rewrite E in *.
  split; [by split|]. split; [by split|done].
Qed.

Lemma use_connect_timeout_spec c : sound c ->
  yields (use_connect_timeout c) (fun c' => sound c' /\ on_course c c' /\ retries c' = retries c).
Proof. intros S. apply yields_ret. destruct (set_timeout_sound (arg_timeout (args c)) c S) as (? & ? & ? & _). done. Qed.

Lemma client_is_connected_spec c : sound c ->
  yields (client_is_connected c) (fun c' => sound c' /\ on_course c c' /\ gave_up c' /\ retries c' = 0 /\
    connected c' = true /\ timeout c' = 1000 /\ cmdpipe c' = cmdpipe c /\ dealer c' = dealer c /\ message c' = message c /\
    args c' = args c).
Proof.
  intros S. apply yields_ret. cbn zeta. unfold engine_set_connected.
  set (c1 := with_connected true (with_retries 0 c)).
  assert (sound c1) as S1 by (destruct S; split; try done; cbn; lia).
  destruct (engine_set_timeout_spec (heartbeat_timer c1) c1 (proj1 (sound_armed _ S1))) as (i & l & E & A).
  destruct (set_timeout_sound (heartbeat_timer c1) c1 S1) as (S2 & C2 & R2 & T2).
  change (heartbeat_timer c1) with (heartbeat_timer c) in *. rewrite (sound_heartbeat c S) in *.
  split; [done|]. split; [by destruct C2; split|]. split; [unfold gave_up; rewrite R2; done|]. split; [done|].
  rewrite E. done.
Qed.

Lemma calm_client_is_connected : calm client_is_connected.
Proof. intros c S. eapply yields_mono; [by apply client_is_connected_spec|]. intros c' (? & ? & ? & _). done. Qed.

#[local] Hint Resolve calm_nothing calm_send calm_client_is_connected : calm.

(** ** Lists of actions *)

Ltac all_calm := repeat (apply List.Forall_cons; [auto with calm|]); apply List.Forall_nil.

Lemma steps_app l1 l2 c : steps (l1 ++ l2) c = bind (steps l1 c) (steps l2).
Proof.
  revert c. induction l1 as [|a l1 IH]; intros c; [done|]. cbn [app steps]. rewrite bind_assoc.
  destruct (if decide (exception c = NULL_event) then a c else Ret c); [|done]. apply IH.
Qed.

Lemma steps_one a c : exception c = NULL_event -> steps [a] c = a c.
Proof. intros E. cbn [steps]. rewrite decide_True by done. by destruct (a c). Qed.

Lemma steps_calm acts c : Forall calm acts -> sound c -> exception c = NULL_event ->
  yields (steps acts c) (fun c' => sound c' /\ on_course c c' /\ (gave_up c -> gave_up c')).
Proof.
  intros Ha. revert c. induction Ha as [|a acts Hga Ha IH]; intros c S E; [by apply yields_ret|].
  cbn [steps]. rewrite decide_True by done. eapply yields_bind; [by apply Hga|]. intros c1 (S1 & C1 & G1).
  eapply yields_mono; [apply IH; [done|by rewrite (oc_exception _ _ C1)]|]. intros c2 (S2 & C2 & G2).
  split; [done|]. split; [by transitivity c1|auto].
Qed.

(** ** A turn of the machine *)

(** The states in which the client waits, once it was told to connect. *)
Definition resting (st : state_t) : Prop := st <> start_state /\ st <> defaults_state /\ st <> have_error_state.

(** Unless it is opening the connection, without the timer the heartbeats
    have been given up. *)
Definition opening (st : state_t) : Prop := st = expect_open_ok_state \/ st = reexpect_open_ok_state.

Definition slack (c : s_client_t) : Prop := fsm_stopped c = true \/ opening (state c) \/ gave_up c.

(** At the start of a turn. *)
Record begun (c : s_client_t) : Prop := {
  begun_sound : sound c;
  begun_next : next_event c = NULL_event;
  begun_exception : exception c = NULL_event;
  begun_stopped : fsm_stopped c = false }.

Lemma begun_course c c' : begun c -> sound c' -> on_course c c' -> begun c'.
Proof. intros [] ? []. split; congruence || done. Qed.

(** ** The client between events *)
Record client_ok (c : s_client_t) : Prop := {
  ok_sound : sound c;
  ok_rest : fsm_stopped c = true \/ resting (state c) \/ (state c = start_state /\ timeout c = 0);
  ok_slack : slack c }.

(** It was told to connect. *)
Definition underway (c : s_client_t) : Prop := fsm_stopped c = true \/ resting (state c).

Record at_rest (c : s_client_t) : Prop := {
  rest_ok : client_ok c;
  rest_underway : underway c;
  rest_next : next_event c = NULL_event;
  rest_exception : exception c = NULL_event }.

(** How a turn ends: at rest, or with an event for one more turn. *)
Inductive ended (c : s_client_t) : Prop :=
| ended_rest : at_rest c -> ended c
| ended_bad_endpoint : sound c -> exception c = bad_endpoint_event -> state c = start_state -> fsm_stopped c = false -> ended c
| ended_dead : sound c -> exception c = exception_event -> state c = connected_state -> fsm_stopped c = false -> gave_up c -> ended c
| ended_error : sound c -> exception c = NULL_event -> next_event c = command_invalid_event \/ next_event c = other_event ->
    state c = have_error_state -> fsm_stopped c = false -> ended c.

Lemma then_goto acts st c : Forall calm acts -> begun c -> opening st \/ gave_up c -> resting st ->
  yields (steps (acts ++ [goto st]) c) at_rest.
Proof.
  intros Ha [S N E F] G R. rewrite steps_app. eapply yields_bind; [by apply steps_calm|]. intros c1 (S1 & C1 & G1).
  rewrite steps_one by (rewrite (oc_exception _ _ C1); done). apply yields_ret.
  split; cbn; [|by right|by rewrite (oc_next_event _ _ C1)|by rewrite (oc_exception _ _ C1)].
  split; cbn; [by destruct S1; split|auto|]. right. destruct G as [G|G]; [by left|right; by apply G1].
Qed.

Lemma then_connected acts c : Forall calm acts -> begun c ->
  yields (steps (acts ++ [client_is_connected; goto connected_state]) c) at_rest.
Proof.
  intros Ha [S N E F]. rewrite steps_app. eapply yields_bind; [by apply steps_calm|]. intros c1 (S1 & C1 & _).
  cbn [steps]. rewrite decide_True by (rewrite (oc_exception _ _ C1); done).
  eapply yields_bind; [by apply client_is_connected_spec|]. intros c2 (S2 & C2 & G2 & _).
  assert (on_course c c2) as [O1 O2 O3 O4 O5 O6] by (by transitivity c1).
  rewrite decide_True by congruence. apply yields_ret. split; cbn; [|by right|congruence|congruence].
  split; cbn; [by destruct S2; split|right; by left|]. right. by right.
Qed.

Lemma then_terminate acts c : Forall calm acts -> begun c -> yields (steps (acts ++ [terminate]) c) at_rest.
Proof.
  intros Ha [S N E F]. rewrite steps_app. eapply yields_bind; [by apply steps_calm|]. intros c1 (S1 & C1 & _).
  rewrite steps_one by (rewrite (oc_exception _ _ C1); done). apply yields_ret.
  split; cbn; [|by left|by rewrite (oc_next_event _ _ C1)|by rewrite (oc_exception _ _ C1)].
  split; cbn; [by destruct S1; split|by left|by left].
Qed.

Lemma stay_at_rest c c' : begun c -> sound c' -> on_course c c' -> resting (state c) -> gave_up c' -> at_rest c'.
Proof.
  intros [S N E F] S' [O1 O2 O3 O4 O5 O6] R G. split; [|right; by rewrite O1|congruence|congruence]. split; [done|rewrite O1; auto|].
  right. by right.
Qed.

Lemma begun_at_rest c : begun c -> resting (state c) -> slack c -> at_rest c.
Proof. intros [] R Sl. split; [|by right|done|done]. by split; [|auto|]. Qed.

Lemma defaults_turn ev c : begun c -> resting (state c) -> slack c -> yields (steps (from_defaults ev) c) ended.
Proof.
  intros B R Sl. pose proof (begun_at_rest c B R Sl) as A. destruct (B) as [S N E F].
  destruct ev; cbn [from_defaults]; try (apply yields_ret; by apply ended_rest).
  - rewrite steps_one by done. eapply yields_mono; [by apply client_is_connected_spec|].
    intros c1 (S1 & C1 & G1 & _). apply ended_rest. by apply (stay_at_rest c).
  - cbn [steps]. rewrite decide_True by done. unfold check_status_code. destruct (_ =? 500); cbn [bind];
      (rewrite decide_True by done; apply yields_ret; apply ended_error; [by destruct S; split|done|by auto|done|done]).
Qed.

(** In the state connected: a heartbeat, or the third that found no answer. *)
Definition lost (c : s_client_t) : s_client_t :=
  engine_set_exception exception_event (engine_set_connected false (engine_set_timeout 0 (with_retries 3 c))).

Lemma heartbeat_steps c : exception c = NULL_event -> 0 <= retries c <= 2 ->
  steps [check_if_connection_is_dead; send WAP_PROTO_PING] c =
    if retries c =? 2 then Ret (lost c) else send WAP_PROTO_PING (with_retries (retries c + 1) c).
Proof.
  intros E R. cbn [steps]. rewrite decide_True by done. unfold check_if_connection_is_dead. rewrite I_ok by lia. cbn [bind].
  destruct (Z.eqb_spec (retries c) 2) as [H2|Hn]; [rewrite H2|].
  - change (2 + 1) with 3. change (3 <=? 3) with true. cbn [bind]. by rewrite decide_False.
  - destruct (Z.leb_spec 3 (retries c + 1)); [lia|]. cbn [bind]. rewrite decide_True by done.
    change (bind (send WAP_PROTO_PING (with_retries (retries c + 1) c)) Ret = send WAP_PROTO_PING (with_retries (retries c + 1) c)).
    apply bind_ret.
Qed.

Lemma lost_spec c : sound c -> sound (lost c) /\ state (lost c) = state c /\ fsm_stopped (lost c) = fsm_stopped c /\
  timeout (lost c) = 0 /\ connected (lost c) = false /\ exception (lost c) = exception_event /\ dealer (lost c) = dealer c /\
  cmdpipe (lost c) = cmdpipe c.
Proof.
  intros S. assert (sound (with_retries 3 c)) as S1 by (destruct S; split; try done; cbn; lia).
  destruct (set_timeout_sound 0 _ S1) as (S2 & _). unfold lost, engine_set_exception, engine_set_connected.
  destruct (engine_set_timeout_spec 0 _ (proj1 (sound_armed _ S1))) as (i & l & E & A). rewrite E in *.
  split; [by destruct S2; split|]. done.
Qed.

Lemma heartbeat_turn c : begun c -> state c = connected_state -> gave_up c -> timeout c <> 0 ->
  yields (steps [check_if_connection_is_dead; send WAP_PROTO_PING] c) ended.
Proof.
  intros [S N E F] St G T. pose proof (sound_retries c S) as Hr.
  assert (retries c <> 3) as Hn by (intros H3; by destruct (T (G H3))).
  rewrite heartbeat_steps by (done || lia). destruct (Z.eqb_spec (retries c) 2) as [H2|H2].
  - destruct (lost_spec c S) as (S1 & St1 & F1 & T1 & _ & X1 & _). apply yields_ret.
    apply ended_dead; [done|done|congruence|congruence|by intros _].
  - assert (sound (with_retries (retries c + 1) c)) as S1 by (destruct S; split; try done; cbn; lia).
    eapply yields_mono; [apply calm_send, S1|]. intros c2 (S2 & C2 & G2). apply ended_rest.
    apply (stay_at_rest (with_retries (retries c + 1) c)); [by split|done|done|cbn; by rewrite St|].
    apply G2. intros H4. cbn in H4. lia.
Qed.

(** ** An event *)

(** What an event needs: the arguments of the command it comes from, the
    block data of the message it comes from; and nothing but a command to
    connect comes before one. *)
Definition expected (ev : event_t) (c : s_client_t) : Prop :=
  match ev with
  | connect_event => endpoint (args c) <> None /\ arg_identity (args c) <> None
  | blocks_ok_event => block_data (message c) <> None
  | expired_event => state c = connected_state -> timeout c <> 0
  | _ => True
  end /\ (state c = start_state -> ev = connect_event).

Lemma have_blocks_turn c : begun c -> gave_up c -> block_data (message c) <> None ->
  yields (steps [signal_have_blocks_ok; goto connected_state] c) at_rest.
Proof.
  intros [S N E F] G Hb. cbn [steps]. rewrite decide_True by done. unfold signal_have_blocks_ok, wap_proto_get_block_data.
  destruct (block_data (message c)) as [m|]; [|done]. cbn [assert bind].
  destruct (calm_tell c (with_block_data None (message c)) [IStr (chars "BLOCKS OK");
    I8 (wap_proto_status (with_block_data None (message c))); I8 (wap_proto_start_height (with_block_data None (message c)));
    I8 (wap_proto_curr_height (with_block_data None (message c))); IMsg (Some m)] S) as (S1 & C1 & G1); [auto with calm|].
  rewrite decide_True by done. apply yields_ret. split; [|by right|done|done]. split; [by destruct S1; split|right; by left|].
  right. right. by apply G1.
Qed.

Lemma connect_turn c : begun c -> state c = start_state -> endpoint (args c) <> None -> arg_identity (args c) <> None ->
  yields (steps (from_start connect_event) c) ended.
Proof.
  intros [S N E F] St He Hi. cbn [from_start steps]. rewrite decide_True by done. unfold connect_to_server_endpoint.
  destruct (endpoint (args c)) as [e|] eqn:Ee; [|done]. destruct (zsock_connect_ok e (dealer c)) as (Ht & _ & _).
  destruct (zsock_connect e (dealer c)) as [failed d]. cbn [snd] in Ht. cbn [bind].
  assert (sound (with_dealer d c)) as S1 by (destruct S; split; try done; cbn; congruence).
  destruct failed.
  - unfold engine_set_exception. do 4 (rewrite decide_False by done; cbn [bind]). apply yields_ret.
    apply ended_bad_endpoint; try done. by destruct S1; split.
  - rewrite decide_True by done. unfold set_client_identity. cbn [args with_dealer].
    destruct (arg_identity (args c)) as [i|]; [|done]. cbn [bind].
    set (c1 := with_message _ _). assert (sound c1) as S1' by (destruct S1; split; try done; by apply wf_identity).
    assert (begun c1) as B1 by (by split).
    rewrite decide_True by done. eapply yields_bind; [by apply use_connect_timeout_spec|]. intros c2 (S2 & C2 & R2).
    eapply yields_mono; [|by apply ended_rest].
    apply (then_goto [send WAP_PROTO_OPEN]); [all_calm|by apply (begun_course c1)|left; by left|done].
Qed.

Lemma error_turn ev c : begun c -> ev = command_invalid_event \/ ev = other_event ->
  yields (steps (from_have_error ev) c) at_rest.
Proof.
  intros B [-> | ->]; cbn [from_have_error]; destruct (B) as [S N E F].
  - cbn [steps]. rewrite decide_True by done. eapply yields_bind; [by apply use_connect_timeout_spec|]. intros c2 (S2 & C2 & R2).
    apply (then_goto [send WAP_PROTO_OPEN]); [all_calm|by apply (begun_course c)|left; by right|done].
  - apply (then_terminate [signal_unhandled_error]); [all_calm|by split].
Qed.

Lemma expecting_turn reply signal ev c : begun c -> resting (state c) -> gave_up c ->
  (ev = reply -> calm signal \/ yields (steps [signal; goto connected_state] c) at_rest) ->
  yields (steps (expecting reply signal ev) c) ended.
Proof.
  intros B R G Hs. unfold expecting. case_decide as Er; [|apply defaults_turn; auto; right; by right].
  eapply yields_mono; [|by apply ended_rest].
  destruct (Hs Er) as [Hc|Hy]; [|done]. apply (then_goto [signal]); [all_calm|done|by right|done].
Qed.

(** From any state the client can wait in, an event is dealt with. *)
Lemma transition_turn ev c : begun c -> resting (state c) \/ state c = start_state -> slack c -> expected ev c ->
  yields (steps (transition (state c) ev) c) ended.
Proof.
  intros B [R|Es] Sl [He Hst]; [|rewrite (Hst Es) in *; rewrite Es; destruct He; by apply connect_turn].
  assert (state c = expect_open_ok_state \/ state c = reexpect_open_ok_state \/ gave_up c) as G.
  { destruct Sl as [Sl|[[Sl|Sl]|Sl]]; auto. by rewrite (begun_stopped c B) in Sl. }
  pose proof (defaults_turn ev c B R Sl) as Hd.
  destruct (state c) eqn:Es; cbn [transition]; try (destruct R as (? & ? & ?); done);
    try (destruct G as [G|[G|G]]; [discriminate G|discriminate G|]; apply expecting_turn; [done|by rewrite Es|done|];
         intros ->; first [left; quiet; fail|right; by apply have_blocks_turn]);
    try (destruct ev; try exact Hd; cbn [from_expect_open_ok from_expect_close_ok from_reexpect_open_ok];
         eapply yields_mono; try (exact ended_rest);
         first [apply (then_connected [_])|apply (then_connected [])|apply (then_terminate [_])]; by first [all_calm|done]).
  destruct G as [G|[G|G]]; [discriminate G|discriminate G|]. destruct ev; try exact Hd; cbn [from_connected];
    first [by apply heartbeat_turn; auto|eapply yields_mono; [|exact ended_rest]];
    first [apply (then_goto [_; _])|apply (then_goto [_])]; first [by all_calm|by auto|done].
Qed.

(** The client at the start of the turn for [ev]. *)
Definition turn (ev : event_t) (c : s_client_t) : s_client_t :=
  with_exception NULL_event (with_next_event NULL_event (with_event ev c)).

Lemma execute_stop fuel c : terminated c = true \/ fsm_stopped c = true \/ next_event c = NULL_event -> execute_loop fuel c = Ret c.
Proof.
  intros Hs. assert (terminated c || fsm_stopped c || bool_decide (next_event c = NULL_event) = true) as E.
  { destruct Hs as [-> |[-> | ->]]; [done|by rewrite orb_true_r|]. rewrite bool_decide_true by done. apply orb_true_r. }
  destruct fuel; cbn [execute_loop]; by rewrite E.
Qed.

(** One turn of the loop, and what it goes on with. *)
Lemma client_turn fuel c ev : terminated c = false -> fsm_stopped c = false -> next_event c = ev -> ev <> NULL_event ->
  execute_loop (S fuel) c = (let* c' := steps (transition (state c) ev) (turn ev c) in
    execute_loop fuel (if decide (exception c' = NULL_event) then c' else with_next_event (exception c') c')).
Proof. intros T F <- Hn. cbn [execute_loop]. rewrite T, F, bool_decide_false by done. done. Qed.

Lemma execute_rest fuel c ev : sound c -> fsm_stopped c = false -> next_event c = ev -> ev <> NULL_event ->
  yields (steps (transition (state c) ev) (turn ev c)) at_rest ->
  yields (execute_loop (S fuel) c) (fun c' => client_ok c' /\ underway c').
Proof.
  intros S F N Hn Hy. rewrite (client_turn fuel c ev (sound_running c S) F N Hn).
  eapply yields_bind; [exact Hy|]. intros c' [Ok' U' N' X']. rewrite decide_True by done. rewrite execute_stop by auto.
  by apply yields_ret.
Qed.

(** From the start, when no alarm is set. *)
Lemma execute_first fuel c ev : wakeup_timer c = 0 -> terminated c = false -> fsm_stopped c = false -> ev <> NULL_event ->
  s_client_execute (S fuel) ev c = (let* c' := steps (transition (state c) ev) (turn ev (with_next_event ev c)) in
    execute_loop fuel (if decide (exception c' = NULL_event) then c' else with_next_event (exception c') c')).
Proof.
  intros Hw T F Hn. unfold s_client_execute. cbn zeta. change (wakeup_timer (with_next_event ev c)) with (wakeup_timer c).
  rewrite Hw. cbn [Z.eqb]. by rewrite (client_turn fuel (with_next_event ev c) ev T F eq_refl Hn).
Qed.

(** A client that stopped, or no event. *)
Lemma execute_none fuel c ev : wakeup_timer c = 0 -> terminated c = true \/ fsm_stopped c = true \/ ev = NULL_event ->
  s_client_execute fuel ev c = Ret (with_next_event ev c).
Proof.
  intros Hw Hs. unfold s_client_execute. cbn zeta. change (wakeup_timer (with_next_event ev c)) with (wakeup_timer c).
  rewrite Hw. cbn [Z.eqb]. by apply execute_stop.
Qed.

Lemma begun_turn ev c : sound c -> fsm_stopped c = false -> begun (turn ev c).
Proof. intros [] F. by split; [split|..]. Qed.

Lemma sound_next ev c : sound c -> sound (with_next_event ev c).
Proof. intros []. by split. Qed.

(** An event is dealt with in at most two turns. *)
Lemma execute_ok fuel ev c : client_ok c -> (fsm_stopped c = false -> ev <> NULL_event -> expected ev c) ->
  yields (s_client_execute (S (S fuel)) ev c) (fun c' => client_ok c' /\ (ev <> NULL_event \/ underway c -> underway c')).
Proof.
  intros [S R Sl] He. pose proof (sound_next ev c S) as S'.
  destruct (bool_dec (fsm_stopped c) true) as [F|F%not_true_is_false].
  { rewrite execute_none by (apply S || auto). apply yields_ret. split; [split; [done|by left|by left]|]. intros _. by left. }
  destruct (decide (ev = NULL_event)) as [->|Hn].
  { rewrite execute_none by (apply S || auto). apply yields_ret. split; [by split|]. by intros [?|?]. }
  rewrite execute_first by (apply S || done).
  eapply (yields_bind _ _ ended); [|intros c1 En; apply (yields_mono _ (fun c' => client_ok c' /\ underway c')); [|intros c' [? ?]; auto]].
  - apply (transition_turn ev (turn ev (with_next_event ev c))); [by apply begun_turn| |done|by apply He].
    destruct R as [?|[?|[? _]]]; [congruence|auto|auto].
  - destruct En as [A|S1 X1 T1 F1|S1 X1 T1 F1 G1|S1 X1 N1 T1 F1].
    + destruct A as [A U1 N1 X1]. rewrite decide_True by done. rewrite execute_stop by auto. by apply yields_ret.
    + rewrite decide_False by congruence. rewrite X1.
      apply (execute_rest _ _ bad_endpoint_event); try done; [by apply sound_next|]. cbn [state with_next_event]. rewrite T1.
      apply (then_terminate [signal_bad_endpoint]); [all_calm|]. apply begun_turn; [by apply sound_next|done].
    + rewrite decide_False by congruence. rewrite X1.
      apply (execute_rest _ _ exception_event); try done; [by apply sound_next|]. cbn [state with_next_event]. rewrite T1.
      apply yields_ret, begun_at_rest; [apply begun_turn; [by apply sound_next|done]|cbn; by rewrite T1|].
      right. by right.
    + rewrite decide_True by done.
      apply (execute_rest _ _ (next_event c1)); try done; [by destruct N1 as [-> | ->]|]. rewrite T1.
      apply error_turn; [by apply begun_turn|done].
Qed.

(** ** Block data

    When receives are not interrupted, a BLOCKS_OK that was accepted has
    block data. *)
Definition uninterrupted : Prop := forall s, zsock_rcvmore s = true -> fst (zmsg_recv s) <> None.

Lemma rbind_inv {A B} (m : reader A) (k : A -> reader B) data st x st' : rbind m k data st = Ret (Some x, st') ->
  exists a st1, m data st = Ret (Some a, st1) /\ k a data st1 = Ret (Some x, st').
Proof. unfold rbind. destruct (m data st) as [[[a|] st1]|]; [|done..]. intros E. by exists a, st1. Qed.

Lemma blocks_ok_data junk data st st' : uninterrupted -> recv_switch junk WAP_PROTO_BLOCKS_OK data st = Ret (Some tt, st') ->
  block_data (r_self st') <> None.
Proof.
  intros U E. cbn [recv_switch] in E. do 3 (apply rbind_inv in E as (? & ? & _ & E)).
  apply rbind_inv in E as (? & st1 & E1 & [= <-]). revert E1. unfold self_block_data.
  destruct (zsock_rcvmore _) eqn:Er; [|by intros [= _ <-]]. apply U in Er.
  destruct (zmsg_recv _) as [m s]. intros [= _ <-]. exact Er.
Qed.

(** Reading octets keeps the message. *)
Lemma octets_keep n data st x st' : GET_OCTETS n data st = Ret (Some x, st') -> r_self st' = r_self st.
Proof. unfold GET_OCTETS. destruct (_ <=? _)%nat; [|done]. destruct (read _ _ _); [|done]. by intros [= _ <-]. Qed.

Lemma lift_keep {A} (m : outcome A) data st x st' : lift m data st = Ret (Some x, st') -> st' = st.
Proof. unfold lift. destruct m; [|done]. by intros [= _ <-]. Qed.

Lemma string_keep host data st x st' : GET_STRING host data st = Ret (Some x, st') -> r_self st' = r_self st.
Proof.
  intros (n & st1 & E1 & (bs & st2 & E2 & ->%lift_keep)%rbind_inv)%rbind_inv.
  apply rbind_inv in E1 as (o & st0 & E0 & ->%lift_keep). by rewrite (octets_keep _ _ _ _ _ E2), (octets_keep _ _ _ _ _ E0).
Qed.

(** The status of an ERROR is the number of two octets it came as. *)
Lemma error_status_small junk data st st' tl : bytes data -> at_ data st tl ->
  recv_switch junk WAP_PROTO_ERROR data st = Ret (Some tt, st') -> 0 <= numbers (r_self st') status < 2 ^ 16.
Proof.
  intros Hb Ha E. cbn [recv_switch] in E. apply rbind_inv in E as (? & st1 & E1 & E).
  apply rbind_inv in E as (? & st2 & E2 & [= <-]). apply rbind_inv in E1 as (v & st0 & Ev & [= _ <-]).
  apply rbind_inv in E2 as (s & st3 & Es & [= _ <-]). cbn [r_self numbers with_string].
  rewrite (string_keep _ _ _ _ _ Es). cbn [r_self numbers with_number]. rewrite upd_eq.
  pose proof (GET_NUMBER2_spec data st tl Ha) as Hn. destruct (dec_number 2 tl) as [[v' tl']|] eqn:Ed; [|congruence].
  destruct Hn as [Hn _]. assert (v = v') as -> by congruence.
  apply (dec_number_inv 2 tl v' tl' (at_bytes _ _ _ Hb Ha) Ed).
Qed.

(** What was accepted came through the switch. *)
Lemma recv_switched junk p input p' input' : length junk = 256%nat -> wf p -> zsock_type input = ZMQ_DEALER ->
  wap_proto_recv junk p input = Ret (0, p', input') ->
  exists data st st' tl, bytes data /\ at_ data st tl /\ recv_switch junk (id p') data st = Ret (Some tt, st') /\ r_self st' = p'.
Proof.
  intros Hj W D. unfold wap_proto_recv. rewrite D. cbn [Z.eqb]. unfold recv_data.
  destruct (zmq_msg_recv input) as [[data|] s1] eqn:Es; [|done]. pose proof (zmq_msg_recv_bytes _ _ _ Es) as Hb.
  assert (at_ data (RState p 0 s1) data) as Ha by (by exists []).
  destruct (recv_header junk data _ _ Hb Ha) as [(i & st1 & tl2 & _ & _ & Hs1 & _ & Ha1 & ->)|(st1 & -> & _)]; [|done].
  assert (wf (r_self st1)) as W1 by (rewrite Hs1; by apply wf_with_id).
  pose proof (recv_switch_spec junk i) as E. destruct (layout i) as [fs|] eqn:L; [|by rewrite E].
  destruct (read_fields_safe M junk Hj fs data st1 tl2 Hb W1 Ha1) as (r & st' & E' & _ & Hi & _). rewrite <- E in E'.
  rewrite E'. cbn [bind]. destruct r as [[]|]; [|done]. intros [= <- <-]. rewrite Hs1 in Hi. cbn [id with_id] in Hi.
  exists data, st1, st', tl2. by rewrite Hi.
Qed.

Lemma recv_blocks_ok junk p input p' input' : length junk = 256%nat -> wf p -> uninterrupted -> zsock_type input = ZMQ_DEALER ->
  wap_proto_recv junk p input = Ret (0, p', input') -> id p' = WAP_PROTO_BLOCKS_OK -> block_data p' <> None.
Proof.
  intros Hj W U D E Hid. destruct (recv_switched junk p input p' input' Hj W D E) as (data & st & st' & tl & _ & _ & Es & <-).
  rewrite Hid in Es. by apply (blocks_ok_data junk data st).
Qed.

Lemma recv_error junk p input p' input' : length junk = 256%nat -> wf p -> zsock_type input = ZMQ_DEALER ->
  wap_proto_recv junk p input = Ret (0, p', input') -> id p' = WAP_PROTO_ERROR -> 0 <= numbers p' status < 2 ^ 16.
Proof.
  intros Hj W D E Hid. destruct (recv_switched junk p input p' input' Hj W D E) as (data & st & st' & tl & Hb & Ha & Es & <-).
  rewrite Hid in Es. by apply (error_status_small junk data st st' tl).
Qed.

(** ** Timeouts *)

Definition same_timer (c c' : s_client_t) : Prop :=
  expiry_timer c' = expiry_timer c /\ loop c' = loop c /\ timeout c' = timeout c.

(** The machine does not restart its timer when it expires: it leaves it alone
    or gives it up. *)
Lemma expired_steps c : begun c -> resting (state c) -> slack c -> timeout c <> 0 ->
  yields (steps (transition (state c) expired_event) c) (fun c' => (state c = connected_state /\ c' = lost c) \/
    (same_timer c c' /\ exception c' = NULL_event /\ next_event c' = NULL_event)).
Proof.
  intros [S N E F] R Sl T.
  destruct (state c) eqn:Es; try (by destruct R as (? & ? & ?)); cbn [transition];
    try (unfold expecting; rewrite decide_False by done; apply yields_ret; right; by split; [|]);
    try (cbn [from_expect_open_ok from_expect_close_ok from_reexpect_open_ok from_defaults steps];
         repeat (rewrite decide_True by done; unfold signal_server_not_present, signal_failure, terminate; cbn [bind]);
         apply yields_ret; right; by split).
  cbn [from_connected]. assert (gave_up c) as G by (destruct Sl as [Sl|[[Sl|Sl]|Sl]]; first [exact Sl|congruence]).
  pose proof (sound_retries c S). assert (retries c <> 3) as Hn by (intros H3; by destruct (T (G H3))).
  rewrite heartbeat_steps by (done || lia). destruct (retries c =? 2); [apply yields_ret; by left|].
  assert (sound (with_retries (retries c + 1) c)) as S1 by (destruct S; split; try done; cbn; lia).
  eapply yields_mono; [apply client_send_spec, S1|]. intros c2 (_ & [_ N2 X2 _ _ _] & _ & E2 & _). right.
  split; [by rewrite E2|]. split; [exact (eq_trans X2 E)|exact (eq_trans N2 N)].
Qed.

Lemma execute_expired fuel c : client_ok c -> timeout c <> 0 ->
  yields (s_client_execute (S (S fuel)) expired_event c) (fun c' => timeout c' = 0 \/ same_timer c c').
Proof.
  intros [S R Sl] T. destruct (bool_dec (fsm_stopped c) true) as [F|F%not_true_is_false].
  { rewrite execute_none by (apply S || auto). apply yields_ret. by right. }
  assert (resting (state c)) as Rs by (destruct R as [?|[?|[? ?]]]; congruence || done).
  set (c0 := turn expired_event (with_next_event expired_event c)).
  assert (begun c0) as B by (by apply begun_turn; [apply sound_next|]).
  rewrite execute_first by (apply S || done).
  eapply yields_bind; [exact (expired_steps c0 B Rs Sl T)|]. intros c1 [[Es ->]|(Ht & X1 & N1)].
  - destruct (lost_spec c0 (begun_sound _ B)) as (S1 & St1 & F1 & T1 & _ & X1 & _). rewrite X1, decide_False by done.
    rewrite (client_turn _ (with_next_event exception_event (lost c0)) exception_event (sound_running _ S1) (eq_trans F1 F) eq_refl) by done.
    cbn [state with_next_event]. rewrite St1, Es. cbn [transition from_connected from_defaults steps bind turn].
    rewrite decide_True by done. rewrite execute_stop by auto. apply yields_ret. by left.
  - rewrite decide_True by done. rewrite execute_stop by auto. apply yields_ret. by right.
Qed.

(** The reactor forgets a timer that fired when its callback returns. *)
Definition forget_timer (i : Z) (c : s_client_t) : s_client_t := with_loop (zloop_timer_end i (loop c)) c.

Lemma client_ok_timer i l c : client_ok c -> armed (with_timer i l c) -> client_ok (with_timer i l c).
Proof. intros [[] R Sl] A. split; [by split|exact R|exact Sl]. Qed.

Lemma restarted_ok c0 c : client_ok c -> timeout c = 0 \/ same_timer c0 c -> timers (loop c0) = {[expiry_timer c0]} ->
  client_ok (forget_timer (expiry_timer c0) (start_expiry c)).
Proof.
  intros Ok Ht Hf. destruct (start_expiry_spec c) as (i & l & -> & E0 & E1). destruct (sound_armed c (ok_sound c Ok)) as [Ho Ha].
  change (client_ok (with_timer i (zloop_timer_end (expiry_timer c0) l) c)). apply client_ok_timer; [done|].
  unfold armed, one_timer. cbn [timeout with_timer with_expiry_timer with_loop expiry_timer loop]. rewrite zloop_timer_end_ok.
  destruct (decide (timeout c = 0)) as [T|T].
  - destruct (E0 T) as [-> ->]. apply Ha in T as Hz. destruct Ho as [[_ ->]|[? _]]; [|done]. rewrite Hz. split; [left|done].
    split; [done|]. by apply empty_difference_L.
  - destruct Ht as [?|(_ & Hl & _)]; [done|]. destruct (E1 T) as (Hi & Hn & ->). rewrite Hl, Hf in *.
    split; [right; split; [done|]|done].
    rewrite difference_union_distr_l_L, difference_diag_L, union_empty_r_L. apply difference_disjoint_L. by apply disjoint_singleton_l.
Qed.

Lemma handle_timeout_ok fuel c : client_ok c -> expiry_timer c ∈ timers (loop c) ->
  yields (s_client_handle_timeout (S (S fuel)) c) (fun '(rc, c') => rc = 0 /\ client_ok (forget_timer (expiry_timer c) c')).
Proof.
  intros Ok Hf. destruct (Ok) as [S R Sl]. destruct (sound_armed c S) as [Ho Ha].
  assert (expiry_timer c <> 0) as Hi by (intros Hz; destruct Ho as [[_ Ho]|[? _]]; [rewrite Ho in Hf; by apply not_elem_of_empty in Hf|done]).
  assert (timeout c <> 0) as T by (intros Hz; by apply Hi, Ha).
  assert (fsm_stopped c = false -> expired_event <> NULL_event -> expected expired_event c) as Hx.
  { intros F _. split; [done|]. intros Es. destruct R as [?|[[? _]|[_ ?]]]; congruence. }
  destruct (execute_ok fuel expired_event c Ok Hx) as (c1 & E1 & Ok1 & _).
  destruct (execute_expired fuel c Ok T) as (c1' & E1' & Ht). assert (c1' = c1) as -> by congruence.
  unfold s_client_handle_timeout. rewrite E1. cbn [bind]. destruct (Ok1) as [S1 R1 Sl1]. rewrite (sound_running c1 S1).
  apply yields_ret. split; [done|]. apply restarted_ok; [done|done|]. by destruct Ho as [[? _]|[_ ?]].
Qed.

(** ** Messages of the server *)

(** The events of messages; a message only a client sends ends the actor. *)
Lemma protocol_event_cases c :
  (exists ev, s_protocol_event c = (ev, c) /\ ev <> connect_event /\ ev <> expired_event /\
    (ev = blocks_ok_event -> id (message c) = WAP_PROTO_BLOCKS_OK)) \/
  s_protocol_event c = (NULL_event, with_terminated true c).
Proof.
  unfold s_protocol_event, wap_proto_id. destruct (id (message c)) as [|i|i]; [by right| |by right].
  repeat (destruct i as [i|i|]; try (by right); try (by left; eexists; split; [reflexivity|])).
Qed.

(** The client with a message that was just received, its timer restarted. *)
Lemma reply_received junk c : length junk = 256%nat -> uninterrupted -> client_ok c ->
  yields (wap_proto_recv junk (message c) (dealer c)) (fun '(rc, m, d) =>
    (rc = 0 \/ rc = -1) /\ client_ok (with_message m (with_dealer d c)) /\
    (rc = 0 -> id m = WAP_PROTO_BLOCKS_OK -> block_data m <> None)).
Proof.
  intros Hj U [[W D Wk Hb Hr A T] R Sl]. destruct (recv_total junk (message c) (dealer c) Hj W) as ([[rc m] d] & E & Hrc & Wm & [Ht _] & _).
  rewrite E. apply yields_ret. split; [done|]. split; [by split; [split; [|cbn; congruence|..]|..]|].
  intros ->. by apply (recv_blocks_ok junk (message c) (dealer c) m d).
Qed.

Lemma handle_reply_ok junk fuel c : length junk = 256%nat -> uninterrupted -> client_ok c ->
  underway c -> yields (handle_reply junk (S (S fuel)) c) (fun '(rc, c') => (rc = None /\ client_ok c' /\ underway c') \/
    (rc = Some (-1) /\ (terminated c' = true \/ client_ok c'))).
Proof.
  intros Hj U Ok Hs. unfold handle_reply. eapply yields_bind; [by apply reply_received|].
  intros [[rc m] d] ([-> | ->] & Ok1 & Hb); cbn [Z.eqb negb]; [|apply yields_ret; auto].
  destruct (restart_spec _ (proj1 (sound_armed _ (ok_sound _ Ok1)))) as (i & l & -> & A).
  apply (client_ok_timer i l) in Ok1; [|done]. set (c1 := with_timer i l _) in *.
  destruct (protocol_event_cases c1) as [(ev & -> & H1 & H2 & H3)| ->].
  - eapply yields_bind; [apply execute_ok; [done|]|].
    + intros F _. split; [destruct ev; try done; exact (Hb eq_refl (H3 eq_refl))|]. intros Es. destruct Hs as [Hs|[Hs _]]; [|done].
      cbn in F. congruence.
    + intros c2 [Ok2 U2]. apply yields_ret. rewrite (sound_running c2 (ok_sound c2 Ok2)).
      left. split; [done|]. split; [done|]. apply U2. by right.
  - rewrite execute_none by (apply Ok1 || auto). apply yields_ret. auto.
Qed.

End Facts.
