(* ===== verification/WapClientCalls.v ===== *)
(** The calls of the wallet protocol's client, from the command on the pipe to
    the request on the network and from the reply on the network to the answer
    on the pipe. *)

From stdpp Require Import gmap.
From Stdlib Require Import String.
From S2P Require Import Prelude Limbs Bytes Words Memory Czmq WapProto WapGrammar WapSend WapRecv WapAccess WapCodec WapPipe WapClient WapClientApi WapClientFacts.

(** Comparisons of literals are decided. *)
Ltac compare := repeat match goal with
  |- context [streq ?a ?b] => let v := eval vm_compute in (streq a b) in change (streq a b) with v end; cbv iota.

Section Calls.
Context `{CzmqLaws} {M : CzmqMemory} {Po : CzmqPoll} {Pi : CzmqPipe} {PiL : CzmqPipeLaws} {Lo : CzmqLoop} {LoL : CzmqLoopLaws}.

(** ** Commands *)

(** The event of a command and the arguments it brings. *)
Definition event_of (m : method) : event_t :=
  match m with
  | Connect _ _ _ => connect_event | Destructor => destructor_event | Blocks _ _ => blocks_event | Put _ => put_event
  | Get _ => get_event | SaveBc => save_bc_event | OutputIndexes _ => output_indexes_event
  | RandomOuts _ _ => random_outs_event | GetHeight => get_height_event | GetInfo => get_info_event
  | Start _ _ => start_event | Stop => stop_event | GetPeerList => get_peer_list_event
  | GetMiningStatus => get_mining_status_event | SetLogHashRate _ => set_log_hash_rate_event
  | SetLogLevel _ => set_log_level_event | StartSaveGraph => start_save_graph_event | StopSaveGraph => stop_save_graph_event
  | GetBlockHash _ => get_block_hash_event | GetBlockTemplate _ _ => get_block_template_event
  end.

Definition args_of (m : method) (a : client_args_t) : client_args_t :=
  match m with
  | Connect e t i => with_arg_identity (Some i) (with_arg_timeout t (with_endpoint (Some e) a))
  | Blocks l h => with_arg_start_height h (with_arg_block_ids l a)
  | Put k => with_arg_tx_as_hex k a
  | Get k | OutputIndexes k => with_arg_tx_id k a
  | RandomOuts n f => with_arg_amounts f (with_arg_outs_count n a)
  | Start k n => with_arg_thread_count n (with_arg_address k a)
  | SetLogHashRate v => with_arg_visible v a
  | SetLogLevel v => with_arg_level v a
  | GetBlockHash h => with_arg_height h a
  | GetBlockTemplate n k => with_arg_address k (with_arg_reserve_size n a)
  | _ => a
  end.

(** The client with the command read. *)
Definition given (m : method) (p : zpipe) (c : s_client_t) : s_client_t := with_args (args_of m (args c)) (with_cmdpipe p c).

(** A pipe from which all of a message was read. *)
Definition read_up (p p' : zpipe) : Prop := pipe_now p' = [] /\ pipe_in p' = pipe_in p /\ pipe_out p' = pipe_out p.

Lemma cmdpipe_switch_ok fuel m c name its : command (the_call m) = IStr name :: its -> pipe_now (cmdpipe c) = its ->
  exists p, read_up (cmdpipe c) p /\ cmdpipe_switch fuel name c = s_client_execute fuel (event_of m) (given m p c).
Proof.
  intros Ec Hn. destruct m; injection Ec as <- <-; cbv delta [cmdpipe_switch]; cbv beta zeta; compare;
    try (exists (cmdpipe c); split; [by split|]; by destruct c);
    (match type of Hn with _ = ?its => assert (its <> []) as Hne by done;
       destruct (zsock_recv_ok (cmdpipe c) its [] Hne (eq_trans Hn (eq_sym (app_nil_r _)))) as (p & E & Hp) end;
     cbn [map kind_of] in E; exists p; split; [exact Hp|]; unfold get_args; cbn [cmdpipe with_args]; rewrite E; done).
Qed.

(** The rest of a command, if there is any, is dropped at the end. *)
Definition flushed (c : s_client_t) : s_client_t :=
  if zpipe_rcvmore (cmdpipe c) then with_cmdpipe (zsock_flush (cmdpipe c)) c else c.

Lemma handle_cmdpipe_spec fuel m c q : pipe_now (cmdpipe c) = [] -> pipe_in (cmdpipe c) = command (the_call m) :: q ->
  exists p, pipe_now p = [] /\ pipe_in p = q /\ pipe_out p = pipe_out (cmdpipe c) /\
    s_client_handle_cmdpipe fuel c = (let* c' := s_client_execute fuel (event_of m) (given m p c) in
      Ret (if terminated (flushed c') then -1 else 0, flushed c')).
Proof.
  intros Hn Hi. destruct (command (the_call m)) as [|[name|?|?|?|?|?|?|?|?|?] its] eqn:Ec; try (by destruct m).
  destruct (zstr_recv_ok _ _ _ _ Hn Hi) as (p1 & E1 & N1 & I1 & O1).
  destruct (cmdpipe_switch_ok fuel m (with_cmdpipe p1 c) name its Ec N1) as (p & (N2 & I2 & O2) & E2).
  exists p. split; [done|]. split; [exact (eq_trans I2 I1)|]. split; [exact (eq_trans O2 O1)|].
  unfold s_client_handle_cmdpipe. rewrite E1, E2. done.
Qed.

Lemma client_ok_given m p c : client_ok c -> client_ok (given m p c).
Proof. intros [[] R Sl]. split; [by split|exact R|exact Sl]. Qed.

Lemma client_ok_flushed c : client_ok c -> client_ok (flushed c).
Proof. intros Ok. unfold flushed. destruct (zpipe_rcvmore _); [|done]. destruct Ok as [[] R Sl]. split; [by split|exact R|exact Sl]. Qed.

(** A command is dealt with, if a command to connect comes first. *)
Definition connects (m : method) : Prop := match m with Connect _ _ _ => True | _ => False end.

Lemma handle_cmdpipe_ok fuel m c q : client_ok c -> pipe_now (cmdpipe c) = [] ->
  pipe_in (cmdpipe c) = command (the_call m) :: q -> underway c \/ connects m ->
  yields (s_client_handle_cmdpipe (S (S fuel)) c) (fun '(rc, c') => rc = 0 /\ client_ok c').
Proof.
  intros Ok Hn Hi Hu. destruct (handle_cmdpipe_spec (S (S fuel)) m c q Hn Hi) as (p & _ & _ & _ & ->).
  eapply yields_bind; [apply execute_ok; [by apply client_ok_given|]|].
  - intros F _. split; [by destruct m|]. intros Es. destruct Hu as [[Hu|[Hu _]]|Hu]; [cbn in F; congruence|done|].
    by destruct m.
  - intros c' [Ok'%client_ok_flushed _]. apply yields_ret. by rewrite (sound_running _ (ok_sound _ Ok')).
Qed.

(** ** Requests *)

(** The kind of message a call sends; its answer is of the next kind. *)
Definition request_id (m : method) : Z :=
  match m with
  | Connect _ _ _ => WAP_PROTO_OPEN | Destructor => WAP_PROTO_CLOSE | Blocks _ _ => WAP_PROTO_BLOCKS | Put _ => WAP_PROTO_PUT
  | Get _ => WAP_PROTO_GET | SaveBc => WAP_PROTO_SAVE_BC | OutputIndexes _ => WAP_PROTO_OUTPUT_INDEXES
  | RandomOuts _ _ => WAP_PROTO_RANDOM_OUTS | GetHeight => WAP_PROTO_GET_HEIGHT | GetInfo => WAP_PROTO_GET_INFO
  | Start _ _ => WAP_PROTO_START | Stop => WAP_PROTO_STOP | GetPeerList => WAP_PROTO_GET_PEER_LIST
  | GetMiningStatus => WAP_PROTO_GET_MINING_STATUS | SetLogHashRate _ => WAP_PROTO_SET_LOG_HASH_RATE
  | SetLogLevel _ => WAP_PROTO_SET_LOG_LEVEL | StartSaveGraph => WAP_PROTO_START_SAVE_GRAPH
  | StopSaveGraph => WAP_PROTO_STOP_SAVE_GRAPH | GetBlockHash _ => WAP_PROTO_GET_BLOCK_HASH
  | GetBlockTemplate _ _ => WAP_PROTO_GET_BLOCK_TEMPLATE
  end.

(** The state in which the client waits for the answer. *)
Definition waiting (m : method) : state_t :=
  match m with
  | Connect _ _ _ => expect_open_ok_state | Destructor => expect_close_ok_state | Blocks _ _ => expect_blocks_ok_state
  | Put _ => expect_put_ok_state | Get _ => expect_get_ok_state | SaveBc => expect_save_bc_ok_state
  | OutputIndexes _ => expect_output_indexes_ok_state | RandomOuts _ _ => expect_random_outs_ok_state
  | GetHeight => expect_get_height_ok_state | GetInfo => expect_get_info_ok_state | Start _ _ => expect_start_ok_state
  | Stop => expect_stop_ok_state | GetPeerList => expect_get_peer_list_ok_state
  | GetMiningStatus => expect_get_mining_status_ok_state | SetLogHashRate _ => expect_set_log_hash_rate_ok_state
  | SetLogLevel _ => expect_set_log_level_ok_state | StartSaveGraph => expect_start_save_graph_ok_state
  | StopSaveGraph => expect_stop_save_graph_ok_state | GetBlockHash _ => expect_get_block_hash_ok_state
  | GetBlockTemplate _ _ => expect_get_block_template_ok_state
  end.

(** The calls that are a request to the daemon. *)
Definition is_request (m : method) : Prop := match m with Connect _ _ _ | Destructor => False | _ => True end.

Definition chunk_octets (k : option zchunk) : list Z := match k with Some k => zchunk_data k | None => [] end.
Definition frame_octets (f : option zframe) : list Z := match f with Some f => zframe_data f | None => [] end.
Definition list_strings (l : option zlist) : list (list Z) := match l with Some l => zlist_items l | None => [] end.

(** The fields of the request of a call.  The count of a RANDOM_OUTS is not
    the caller's: it is the one the message in memory happens to have. *)
Definition asks (m : method) (p : wap_proto_t) : list (field * value) :=
  match m with
  | Blocks l h => [(FStrings, Items (list_strings l)); (FNumber8 start_height, Num h)]
  | Put k => [(FChunk tx_as_hex, Octets (chunk_octets k))]
  | Get k | OutputIndexes k => [(FChunk tx_id, Octets (chunk_octets k))]
  | RandomOuts _ f => [(FNumber8 outs_count, Num (numbers p outs_count)); (FFrame amounts, Octets (frame_octets f))]
  | Start k n => [(FChunk address, Octets (chunk_octets k)); (FNumber8 thread_count, Num n)]
  | SetLogHashRate v => [(FNumber1 visible, Num v)]
  | SetLogLevel v => [(FNumber1 level, Num v)]
  | GetBlockHash h => [(FNumber8 height, Num h)]
  | GetBlockTemplate n k => [(FNumber8 reserve_size, Num n); (FChunk address, Octets (chunk_octets k))]
  | _ => []
  end.

(** What comes before the sending. *)
Definition prepare (m : method) : action :=
  match m with
  | Blocks _ _ => prepare_blocks_command | Put _ => prepare_put_command | Get _ => prepare_get_command
  | OutputIndexes _ => prepare_get_output_indexes_command | RandomOuts _ _ => prepare_get_random_outs_command
  | Start _ _ => prepare_start_command | SetLogHashRate _ => prepare_set_log_hash_rate_command
  | SetLogLevel _ => prepare_set_log_level_command | GetBlockHash _ => prepare_get_block_hash_command
  | GetBlockTemplate _ _ => prepare_get_block_template_command
  | _ => fun c => Ret c
  end.

Lemma request_steps m c : is_request m -> exception c = NULL_event ->
  steps (transition connected_state (event_of m)) c = steps [prepare m; send (request_id m); goto (waiting m)] c.
Proof.
  intros Hm E. destruct m; try done;
    cbn [transition event_of from_connected prepare steps]; destruct (decide (exception c = NULL_event)) eqn:D; try done;
    cbn [bind]; by rewrite D.
Qed.

Lemma calm_prepared m : calm (prepare m).
Proof.
  destruct m; cbn [prepare]; first [by intros c S; apply yields_ret|
    intros c S; hnf; eexists; split; [reflexivity|];
    first [apply calm_message|apply calm_prepare]; [done|]; destruct S;
    repeat first [done|apply wf_number|apply wf_octet|apply wf_chunk|apply wf_frame|apply wf_block_ids]].
Qed.

Lemma prepare_spec m c a : is_request m -> args c = args_of m a -> all_valid (asks m (message c)) ->
  yields (prepare m c) (fun c' => carried (with_id (request_id m) (message c')) (fields (request_id m)) = asks m (message c) /\
    dealer c' = dealer c /\ cmdpipe c' = cmdpipe c).
Proof.
  intros Hm Ha Hv. destruct m; try done; unfold yields; eexists; (split; [reflexivity|]); (split; [|done]); try done;
    cbn; rewrite ?Ha; cbn; cbn [asks] in Hv; repeat (apply List.Forall_cons_iff in Hv as [? Hv]); cbn [fst snd valid] in *;
    rewrite ?uwrap_small by assumption; reflexivity.
Qed.

(** The frames of a message of kind [i] with these fields. *)
Definition message_frames (i : Z) (fvs : list (field * value)) : list (list Z * bool) := mark (data_frame i fvs :: more_frames fvs).

Lemma prepare_and_send m a c : is_request m -> begun c -> args c = args_of m a -> all_valid (asks m (message c)) ->
  yields (steps [prepare m; send (request_id m); goto (waiting m)] c) (fun c' =>
    state c' = waiting m /\ fsm_stopped c' = false /\ cmdpipe c' = cmdpipe c /\
    outbox (dealer c') = outbox (dealer c) ++ message_frames (request_id m) (asks m (message c))).
Proof.
  intros Hm [S N E F] Ha Hv. cbn [steps]. rewrite decide_True by done.
  eapply yields_bind; [apply yields_and; [apply (calm_prepared m c S)|apply (prepare_spec m c a Hm Ha Hv)]|].
  intros c1 ((S1 & C1 & _) & Hc & Hd & Hp). rewrite decide_True by (by rewrite (oc_exception _ _ C1)).
  eapply yields_bind; [apply (client_send_spec (request_id m) c1 S1)|]. intros c2 (_ & C2 & _ & E2 & _ & Ho).
  rewrite decide_True by (by rewrite (oc_exception _ _ C2), (oc_exception _ _ C1)). apply yields_ret.
  cbn [state fsm_stopped cmdpipe dealer with_state]. split; [done|].
  split; [by rewrite (oc_stopped _ _ C2), (oc_stopped _ _ C1)|]. split; [by rewrite E2|].
  rewrite Ho, Hd. unfold sent_frames. by rewrite Hc.
Qed.

Lemma request_turn m a c : is_request m -> begun c -> state c = connected_state -> gave_up c -> args c = args_of m a ->
  all_valid (asks m (message c)) ->
  yields (steps (transition (state c) (event_of m)) c) (fun c' => at_rest c' /\
    state c' = waiting m /\ fsm_stopped c' = false /\ cmdpipe c' = cmdpipe c /\
    outbox (dealer c') = outbox (dealer c) ++ message_frames (request_id m) (asks m (message c))).
Proof.
  intros Hm B St G Ha Hv. rewrite St, request_steps by (done || apply B).
  apply yields_and; [|by apply (prepare_and_send m a)].
  apply (then_goto [prepare m; send (request_id m)]); [|done|by right|by destruct m].
  apply List.Forall_cons; [apply calm_prepared|]. apply List.Forall_cons; [apply calm_send|apply List.Forall_nil].
Qed.

(** An event whose turn ends at rest. *)
Lemma execute_one fuel ev c (Q : s_client_t -> Prop) : sound c -> fsm_stopped c = false -> ev <> NULL_event ->
  yields (steps (transition (state c) ev) (turn ev (with_next_event ev c))) (fun c' => at_rest c' /\ Q c') ->
  yields (s_client_execute (S fuel) ev c) (fun c' => client_ok c' /\ Q c').
Proof.
  intros S F Hn Hy. rewrite execute_first by (apply S || done).
  eapply yields_bind; [exact Hy|]. intros c' [[Ok' U' N' X'] HQ]. rewrite decide_True by done. rewrite execute_stop by auto.
  by apply yields_ret.
Qed.

(** A client that is connected. *)
Definition is_connected (c : s_client_t) : Prop := client_ok c /\ state c = connected_state /\ fsm_stopped c = false.

Lemma connected_gave_up c : is_connected c -> gave_up c.
Proof. intros ([S R [Sl|[[Sl|Sl]|Sl]]] & St & F); try exact Sl; congruence. Qed.

Lemma flushed_spec c : sound c -> flushed c = with_cmdpipe (cmdpipe (flushed c)) c /\
  pipe_out (cmdpipe (flushed c)) = pipe_out (cmdpipe c) /\ pipe_in (cmdpipe (flushed c)) = pipe_in (cmdpipe c) /\
  pipe_now (cmdpipe (flushed c)) = [].
Proof.
  intros _. unfold flushed. destruct (zpipe_rcvmore (cmdpipe c)) eqn:Er.
  - destruct (zsock_flush_ok (cmdpipe c)) as (? & ? & ?). done.
  - split; [by destruct c|]. split; [done|]. split; [done|].
    destruct (pipe_now (cmdpipe c)) eqn:En; [done|]. assert (zpipe_rcvmore (cmdpipe c) = true); [|congruence].
    apply zpipe_rcvmore_ok. by rewrite En.
Qed.

(** The first half of a call: the command becomes a request on the network. *)
Lemma call_sends fuel m c q : is_request m -> is_connected c -> all_valid (asks m (message c)) ->
  pipe_now (cmdpipe c) = [] -> pipe_in (cmdpipe c) = command (the_call m) :: q ->
  yields (s_client_handle_cmdpipe (S fuel) c) (fun '(rc, c') => rc = 0 /\ client_ok c' /\
    state c' = waiting m /\ fsm_stopped c' = false /\
    pipe_now (cmdpipe c') = [] /\ pipe_in (cmdpipe c') = q /\ pipe_out (cmdpipe c') = pipe_out (cmdpipe c) /\
    outbox (dealer c') = outbox (dealer c) ++ message_frames (request_id m) (asks m (message c))).
Proof.
  intros Hm Hc Hv Hn Hi. pose proof (connected_gave_up c Hc) as G. destruct Hc as (Ok & St & F).
  destruct (handle_cmdpipe_spec (S fuel) m c q Hn Hi) as (p & Pn & Pi' & Po' & ->).
  pose proof (client_ok_given m p c Ok) as Ok1. set (c0 := turn (event_of m) (with_next_event (event_of m) (given m p c))).
  assert (begun c0) as B by (by apply begun_turn; [apply sound_next, Ok1|]).
  assert (event_of m <> NULL_event) as Hev by (by destruct m).
  eapply yields_bind; [exact (execute_one fuel _ _ _ (ok_sound _ Ok1) F Hev (request_turn m (args c) c0 Hm B St G eq_refl Hv))|].
  intros c1 (Ok' & Hs & Hf & Hp & Ho). apply yields_ret. destruct (flushed_spec c1 (ok_sound _ Ok')) as (E & E1 & E2 & E3).
  apply client_ok_flushed in Ok'. rewrite (sound_running _ (ok_sound _ Ok')). split; [done|]. split; [done|].
  rewrite Hp in *. rewrite E1, E2, E3. rewrite E. done.
Qed.

(** ** Answers *)

(** What an element of a message on the pipe holds. *)
Definition content (x : item) : value :=
  match x with
  | IStr s => Octets s
  | IInt v | I1 v | I4 v | I8 v | ISignal v => Num v
  | IList l => Items (list_strings l)
  | IChunk k => Octets (chunk_octets k)
  | IFrame f => Octets (frame_octets f)
  | IMsg m => Items (match m with Some m => map zframe_data (zmsg_items m) | None => [[]] end)
  end.

(** The name of the answer to a call. *)
Definition answer_name (m : method) : String.string :=
  match m with
  | Connect _ _ _ | Destructor => "SUCCESS" | Blocks _ _ => "BLOCKS OK" | Put _ => "PUT OK" | Get _ => "GET OK"
  | SaveBc => "SAVE BC OK" | OutputIndexes _ => "OUTPUT INDEXES OK" | RandomOuts _ _ => "RANDOM OUTS OK"
  | GetHeight => "GET HEIGHT OK" | GetInfo => "GET INFO OK" | Start _ _ => "START OK" | Stop => "STOP OK"
  | GetPeerList => "GET PEER LIST OK" | GetMiningStatus => "GET MINING STATUS OK"
  | SetLogHashRate _ => "SET LOG HASH RATE OK" | SetLogLevel _ => "SET LOG LEVEL OK"
  | StartSaveGraph => "START SAVE GRAPH OK" | StopSaveGraph => "STOP SAVE GRAPH OK"
  | GetBlockHash _ => "GET BLOCK HASH OK" | GetBlockTemplate _ _ => "GET BLOCK TEMPLATE OK"
  end%string.

(** The answer to a request: its name and the fields of the reply; the status
    is 0 where the reply has none, and for GET HEIGHT whatever it is. *)
Definition answer (m : method) (v : field -> value) : list value :=
  Octets (chars (answer_name m)) ::
  match m with
  | Get _ | Stop => Num 0 :: map v (fields (request_id m + 1))
  | GetHeight => [Num 0; v (FNumber8 height)]
  | _ => map v (fields (request_id m + 1))
  end.

(** And how its elements are given. *)
Definition picture (m : method) : list kind :=
  match m with
  | Blocks _ _ => [K8; K8; K8; KMsg]
  | Get _ => [KInt; KChunk]
  | OutputIndexes _ | RandomOuts _ _ => [K8; KFrame]
  | GetHeight => [KInt; K8]
  | GetInfo => [K8; K8; K8; K8; K8; K8; K8; K8; K8; K8; K8]
  | GetPeerList => [K8; KFrame; KFrame]
  | GetMiningStatus => [K8; K1; K8; K8; KChunk]
  | GetBlockHash _ => [K8; KChunk]
  | GetBlockTemplate _ _ => [K8; K8; K8; K8; KChunk; KChunk]
  | Connect _ _ _ | Destructor | Stop => [KInt]
  | _ => [K8]
  end.

(** The event of the reply and the action that answers. *)
Definition reply_event (m : method) : event_t :=
  match m with
  | Connect _ _ _ => open_ok_event | Destructor => close_ok_event | Blocks _ _ => blocks_ok_event | Put _ => put_ok_event
  | Get _ => get_ok_event | SaveBc => save_bc_ok_event | OutputIndexes _ => output_indexes_ok_event
  | RandomOuts _ _ => random_outs_ok_event | GetHeight => get_height_ok_event | GetInfo => get_info_ok_event
  | Start _ _ => start_ok_event | Stop => stop_ok_event | GetPeerList => get_peer_list_ok_event
  | GetMiningStatus => get_mining_status_ok_event | SetLogHashRate _ => set_log_hash_rate_ok_event
  | SetLogLevel _ => set_log_level_ok_event | StartSaveGraph => start_save_graph_ok_event
  | StopSaveGraph => stop_save_graph_ok_event | GetBlockHash _ => get_block_hash_ok_event
  | GetBlockTemplate _ _ => get_block_template_ok_event
  end.

Definition signal_of (m : method) : action :=
  match m with
  | Connect _ _ _ | Destructor => signal_success | Blocks _ _ => signal_have_blocks_ok | Put _ => signal_have_put_ok
  | Get _ => signal_have_get_ok | SaveBc => signal_have_save_bc_ok | OutputIndexes _ => signal_have_output_indexes_ok
  | RandomOuts _ _ => signal_have_random_outs_ok | GetHeight => signal_have_get_height_ok
  | GetInfo => signal_have_get_info_ok | Start _ _ => signal_have_start_ok | Stop => signal_have_stop_ok
  | GetPeerList => signal_have_get_peer_list_ok | GetMiningStatus => signal_have_get_mining_status_ok
  | SetLogHashRate _ => signal_have_set_log_hash_rate_ok | SetLogLevel _ => signal_have_set_log_level_ok
  | StartSaveGraph => signal_have_start_save_graph_ok | StopSaveGraph => signal_have_stop_save_graph_ok
  | GetBlockHash _ => signal_have_get_block_hash_ok | GetBlockTemplate _ _ => signal_have_get_block_template_ok
  end.

Lemma reply_steps m : is_request m -> transition (waiting m) (reply_event m) = [signal_of m; goto connected_state].
Proof. by destruct m. Qed.

Lemma reply_protocol_event m c : is_request m -> id (message c) = request_id m + 1 -> s_protocol_event c = (reply_event m, c).
Proof. intros Hm Hi. unfold s_protocol_event, wap_proto_id. rewrite Hi. by destruct m. Qed.

(** It tells the calling thread the answer. *)
Lemma signal_spec m c : is_request m -> (request_id m = WAP_PROTO_BLOCKS -> block_data (message c) <> None) ->
  exists its msg, signal_of m c = Ret (tell its (with_message msg c)) /\ (wf (message c) -> wf msg) /\
    map content its = answer m (field_value (message c)) /\ map kind_of its = KStr :: picture m.
Proof.
  intros Hm Hb. destruct m; try done;
    try (eexists _, (message c); split; [by destruct c|]; split; [done|split; reflexivity]);
    try (eexists _, _; split; [reflexivity|]; split;
         [by intros; repeat first [done|apply wf_chunk|apply wf_frame]|split; reflexivity]).
  cbn [signal_of]. unfold signal_have_blocks_ok, wap_proto_get_block_data.
  destruct (block_data (message c)) as [bd|] eqn:E; [|by destruct Hb]. eexists _, _. split; [reflexivity|].
  assert (field_value (message c) FMsg = Items (map zframe_data (zmsg_items bd))) as Ef by (cbn; by rewrite E).
  split; [apply wf_block_data|]. split; [|reflexivity]. cbv [answer request_id].
  change (fields (WAP_PROTO_BLOCKS + 1)) with [FNumber8 status; FNumber8 WapProto.start_height; FNumber8 curr_height; FMsg].
  cbn [map]. by rewrite Ef.
Qed.

Lemma reply_turn m c : is_request m -> begun c -> state c = waiting m -> slack c ->
  (request_id m = WAP_PROTO_BLOCKS -> block_data (message c) <> None) ->
  yields (steps (transition (state c) (reply_event m)) c) (fun c' => at_rest c' /\
    state c' = connected_state /\ fsm_stopped c' = false /\ dealer c' = dealer c /\
    exists its, cmdpipe c' = zsock_send its (cmdpipe c) /\ map content its = answer m (field_value (message c)) /\
      map kind_of its = KStr :: picture m).
Proof.
  intros Hm [S N E F] St Sl Hb. rewrite St, (reply_steps m Hm). cbn [steps]. rewrite decide_True by done.
  destruct (signal_spec m c Hm Hb) as (its & msg & -> & Hw & Hc). cbn [bind]. rewrite decide_True by done.
  destruct (calm_tell c msg its S (Hw (sound_message c S))) as (S1 & C1 & G1).
  apply yields_ret. split; [|split; [done|]; split; [done|]; split; [done|]; by exists its].
  assert (gave_up c) as G by (destruct Sl as [Sl|[Sl|Sl]]; [congruence|destruct Sl as [Sl|Sl]; rewrite Sl in St; by destruct m|done]).
  split; [|by right|done|done]. split; [by destruct S1; split|right; by left|]. right. right. by apply G1.
Qed.

(** What reading a message leaves alone. *)
Record heard (c c' : s_client_t) : Prop := {
  heard_state : state c' = state c;
  heard_stopped : fsm_stopped c' = fsm_stopped c;
  heard_cmdpipe : cmdpipe c' = cmdpipe c;
  heard_args : args c' = args c;
  heard_retries : retries c' = retries c;
  heard_outbox : outbox (dealer c') = outbox (dealer c) }.

(** Reading a message of the grammar, up to the execution of its event. *)
Lemma handle_reply_recv junk fuel c i fvs rest : length junk = 256%nat -> uninterrupted -> client_ok c ->
  layout i = Some (map fst fvs) -> all_valid fvs -> inbox (dealer c) = message_frames i fvs ++ rest ->
  exists c1, handle_reply junk fuel c = (let '(ev, c2) := s_protocol_event c1 in
      let* c3 := s_client_execute fuel ev c2 in Ret (if terminated c3 then Some (-1) else None, c3)) /\
    client_ok c1 /\ heard c c1 /\ id (message c1) = i /\ holds (message c1) fvs /\ inbox (dealer c1) = rest /\
    (i = WAP_PROTO_BLOCKS_OK -> block_data (message c1) <> None) /\
    (i = WAP_PROTO_ERROR -> 0 <= numbers (message c1) status < 2 ^ 16).
Proof.
  intros Hj U Ok L Hv Hi. pose proof (sound_message _ (ok_sound _ Ok)) as W.
  assert (delivered (dealer c) [] (mark ((data_frame i fvs ++ []) :: more_frames fvs ++ [])) rest) as Hd.
  { unfold delivered. rewrite (sound_dealer _ (ok_sound _ Ok)), !app_nil_r. exact Hi. }
  destruct (reply_received junk c Hj U Ok) as ([[rc q] d] & E & _ & Ok1 & Hb).
  pose proof (yields_inv _ _ _ (recv_total junk (message c) (dealer c) Hj W) E) as (_ & _ & [_ Ho] & _).
  pose proof (yields_inv _ _ _ (recv_ok junk _ _ [] i _ fvs [] [] rest Hj W L eq_refl Hv ltac:(done) Hd) E) as (-> & Hq & _ & Hh & _ & Hr).
  destruct (restart_spec _ (proj1 (sound_armed _ (ok_sound _ Ok1)))) as (t & l & Et & A).
  exists (with_timer t l (with_message q (with_dealer d c))).
  split; [unfold handle_reply; rewrite E; cbn [bind Z.eqb negb]; rewrite Et; reflexivity|].
  split; [by apply client_ok_timer|]. split; [by split|]. split; [done|]. split; [done|]. split; [done|].
  split; [intros Hi'; apply (Hb eq_refl); congruence|]. intros Hi'.
  apply (recv_error junk (message c) (dealer c) q d); [done|done|apply Ok|done|congruence].
Qed.

(** The second half: the reply on the network becomes the answer. *)
Lemma call_answered junk fuel m c fvs rest : length junk = 256%nat -> uninterrupted -> is_request m -> client_ok c ->
  state c = waiting m -> fsm_stopped c = false ->
  map fst fvs = fields (request_id m + 1) -> all_valid fvs ->
  inbox (dealer c) = message_frames (request_id m + 1) fvs ++ rest ->
  yields (handle_reply junk (S fuel) c) (fun '(rc, c') => rc = None /\ is_connected c' /\
    inbox (dealer c') = rest /\ outbox (dealer c') = outbox (dealer c) /\
    exists its q, cmdpipe c' = zsock_send its (cmdpipe c) /\ holds q fvs /\ map content its = answer m (field_value q) /\
      map kind_of its = KStr :: picture m).
Proof.
  intros Hj U Hm Ok St F Hf Hv Hi.
  assert (layout (request_id m + 1) = Some (map fst fvs)) as L by (rewrite Hf; by destruct m).
  destruct (handle_reply_recv junk (S fuel) c _ fvs rest Hj U Ok L Hv Hi) as (c1 & -> & Ok1 & [Hs1 Hf1 Hp1 _ _ Ho1] & Hq & Hh & Hr & Hb & _).
  rewrite (reply_protocol_event m c1 Hm Hq).
  set (c0 := turn (reply_event m) (with_next_event (reply_event m) c1)).
  assert (fsm_stopped c1 = false) as F1 by congruence.
  assert (begun c0) as B by (by apply begun_turn; [apply sound_next, Ok1|]).
  assert (reply_event m <> NULL_event) as Hev by (by destruct m).
  assert (request_id m = WAP_PROTO_BLOCKS -> block_data (message c0) <> None) as Hb0 by (intros Em; apply Hb; by rewrite Em).
  eapply yields_bind; [exact (execute_one fuel _ _ _ (ok_sound _ Ok1) F1 Hev
    (reply_turn m c0 Hm B (eq_trans Hs1 St) (ok_slack _ Ok1) Hb0))|].
  intros c2 (Ok2 & St2 & F2 & Hd2 & its & Hp & Hc). apply yields_ret. rewrite (sound_running _ (ok_sound _ Ok2)).
  split; [done|]. split; [done|]. rewrite Hd2. split; [done|]. split; [done|]. exists its, (message c1). by rewrite Hp, <- Hp1.
Qed.

(** ** Opening the connection *)

(** The fields of the OPEN of a client with this identity, cut to 255 octets. *)
Definition open_fields (i : list Z) : list (field * value) :=
  [(FProtocol, Octets [87; 65; 80]); (FVersion, Num 1); (FString identity, Octets (cstr (strncpy255 i)))].

Lemma open_fields_valid i : all_valid (open_fields i).
Proof.
  destruct (strncpy255_ok i) as [Hl Hn]. do 2 (apply List.Forall_cons; [done|]). apply List.Forall_cons; [|apply List.Forall_nil].
  cbn [fst snd valid]. pose proof (length_cstr _ Hn). lia.
Qed.

Lemma open_steps e t i a c : begun c -> state c = start_state -> args c = args_of (Connect e t i) a ->
  fst (zsock_connect e (dealer c)) = false ->
  yields (steps (transition (state c) connect_event) c) (fun c' => at_rest c' /\
    state c' = expect_open_ok_state /\ fsm_stopped c' = false /\ cmdpipe c' = cmdpipe c /\
    outbox (dealer c') = outbox (dealer c) ++ message_frames WAP_PROTO_OPEN (open_fields i)).
Proof.
  intros [S N E F] St Ha Hz. rewrite St. cbn [transition from_start steps]. rewrite decide_True by done.
  unfold connect_to_server_endpoint. rewrite Ha. cbn [args_of endpoint with_arg_identity with_arg_timeout with_endpoint].
  destruct (zsock_connect_ok e (dealer c)) as (Ht & _ & Ho). destruct (zsock_connect e (dealer c)) as [failed d].
  cbn [fst snd] in *. subst failed. cbn [bind]. rewrite decide_True by done.
  unfold set_client_identity. cbn [args with_dealer]. rewrite Ha. cbn [args_of arg_identity with_arg_identity bind].
  set (c1 := with_message _ _). rewrite decide_True by done. unfold use_connect_timeout. cbn [bind].
  assert (sound c1) as S1 by (destruct S; split; try done; [by apply wf_identity|cbn; congruence]).
  destruct (set_timeout_sound (arg_timeout (args c1)) c1 S1) as (S2 & C2 & _ & T2).
  destruct (engine_set_timeout_spec (arg_timeout (args c1)) c1 (proj1 (sound_armed _ S1))) as (j & l & Et & _).
  rewrite decide_True by (by rewrite (oc_exception _ _ C2)).
  eapply yields_bind; [exact (client_send_spec WAP_PROTO_OPEN _ S2)|]. intros c3 (S3 & C3 & _ & E3 & _ & Ho3).
  assert (begun c3) as [_ N3 X3 F3] by (apply (begun_course c); [by split|done|]; transitivity c1; [by split|by transitivity (engine_set_timeout (arg_timeout (args c1)) c1)]).
  rewrite decide_True by done. apply yields_ret. cbn [state fsm_stopped cmdpipe dealer with_state].
  split; [split; [split; [by destruct S3; split|right; by left|right; by left; left]|by right|done|done]|].
  split; [done|]. split; [done|]. split; [by rewrite E3, Et|].
  rewrite Ho3, Et. cbn [dealer with_timer with_expiry_timer with_loop with_timeout c1 with_message with_dealer]. rewrite Ho. done.
Qed.

(** The first half of the handshake. *)
Lemma connect_sends fuel e t i c q : client_ok c -> state c = start_state -> fsm_stopped c = false ->
  fst (zsock_connect e (dealer c)) = false ->
  pipe_now (cmdpipe c) = [] -> pipe_in (cmdpipe c) = command (the_call (Connect e t i)) :: q ->
  yields (s_client_handle_cmdpipe (S fuel) c) (fun '(rc, c') => rc = 0 /\ client_ok c' /\
    state c' = expect_open_ok_state /\ fsm_stopped c' = false /\ pipe_out (cmdpipe c') = pipe_out (cmdpipe c) /\
    outbox (dealer c') = outbox (dealer c) ++ message_frames WAP_PROTO_OPEN (open_fields i)).
Proof.
  intros Ok St F Hz Hn Hi. destruct (handle_cmdpipe_spec (S fuel) _ c q Hn Hi) as (p & Pn & Pi' & Po' & ->).
  pose proof (client_ok_given (Connect e t i) p c Ok) as Ok1.
  set (c0 := turn connect_event (with_next_event connect_event (given (Connect e t i) p c))).
  assert (begun c0) as B by (by apply begun_turn; [apply sound_next, Ok1|]).
  assert (connect_event <> NULL_event) as Hev by done.
  eapply yields_bind; [exact (execute_one fuel _ _ _ (ok_sound _ Ok1) F Hev (open_steps e t i (args c) c0 B St eq_refl Hz))|].
  intros c1 (Ok' & Hs & Hf & Hp & Ho). apply yields_ret. destruct (flushed_spec c1 (ok_sound _ Ok')) as (E & E1 & _).
  apply client_ok_flushed in Ok'. rewrite (sound_running _ (ok_sound _ Ok')). split; [done|]. split; [done|].
  rewrite Hp in *. rewrite E1. rewrite E. done.
Qed.

(** The second half. *)
Lemma connect_answered junk fuel c rest : length junk = 256%nat -> uninterrupted -> client_ok c ->
  state c = expect_open_ok_state -> fsm_stopped c = false -> inbox (dealer c) = message_frames WAP_PROTO_OPEN_OK [] ++ rest ->
  yields (handle_reply junk (S fuel) c) (fun '(rc, c') => rc = None /\ is_connected c' /\ connected c' = true /\
    retries c' = 0 /\ timeout c' = 1000 /\ cmdpipe c' = zsock_send [IStr (chars "SUCCESS"); IInt 0] (cmdpipe c)).
Proof.
  intros Hj U Ok St F Hi.
  destruct (handle_reply_recv junk (S fuel) c WAP_PROTO_OPEN_OK [] rest Hj U Ok eq_refl (List.Forall_nil _) Hi)
    as (c1 & -> & Ok1 & [Hs1 Hf1 Hp1 _ _ Ho1] & Hq & _).
  assert (s_protocol_event c1 = (open_ok_event, c1)) as -> by (unfold s_protocol_event, wap_proto_id; by rewrite Hq).
  assert (fsm_stopped c1 = false) as F1 by congruence.
  set (c0 := turn open_ok_event (with_next_event open_ok_event c1)).
  assert (begun c0) as B by (by apply begun_turn; [apply sound_next, Ok1|]). destruct (B) as [S0 N0 E0 F0].
  eapply yields_bind; [apply (execute_one fuel open_ok_event c1 (fun c' => state c' = connected_state /\ fsm_stopped c' = false /\
    connected c' = true /\ retries c' = 0 /\ timeout c' = 1000 /\
    cmdpipe c' = zsock_send [IStr (chars "SUCCESS"); IInt 0] (cmdpipe c1)) (ok_sound _ Ok1) F1 ltac:(done))|].
  - rewrite Hs1, St. apply yields_and; [apply (then_connected [signal_success]); [|done]|].
    { apply List.Forall_cons; [|apply List.Forall_nil]. intros c' S'. apply yields_ret. by apply calm_say. }
    cbn [transition from_expect_open_ok steps]. rewrite decide_True by done. unfold signal_success. cbn [bind].
    rewrite decide_True by done. destruct (calm_say c0 [IStr (chars "SUCCESS"); IInt 0] S0) as (S2 & _).
    eapply yields_bind; [exact (client_is_connected_spec _ S2)|].
    intros c2 (_ & C2 & _ & R2 & Cn & T2 & P2 & _). rewrite decide_True by (by rewrite (oc_exception _ _ C2)).
    apply yields_ret. split; [done|]. split; [exact (eq_trans (oc_stopped _ _ C2) F1)|]. done.
  - intros c2 (Ok2 & St2 & F2 & Cn & R2 & T2 & P2). apply yields_ret. rewrite (sound_running _ (ok_sound _ Ok2)). by rewrite P2, Hp1.
Qed.

End Calls.
