(* ===== verification/WapClientService.v ===== *)
(** The theorems of the wallet protocol's client, for every state it can
    reach: its invariant, its heartbeats, what it does with errors and with
    commands it cannot serve. *)

From stdpp Require Import gmap.
From Stdlib Require Import String.
From S2P Require Import Prelude Limbs Bytes Words Memory Czmq WapProto WapGrammar WapSend WapRecv WapAccess WapCodec WapPipe WapClient WapClientApi WapClientFacts WapClientCalls.

Section ClientService.
Context `{CzmqLaws} {M : CzmqMemory} {Po : CzmqPoll} {Pi : CzmqPipe} {PiL : CzmqPipeLaws} {Lo : CzmqLoop} {LoL : CzmqLoopLaws}.

(** ** Reachable states

    What happens to a client: messages come in, the calling thread uses the
    pipes, a callback of the reactor runs to its end.  The timer fires only
    when it runs, and is forgotten when its callback returns. *)
Inductive client_step : s_client_t -> s_client_t -> Prop :=
| step_network c d : zsock_type d = ZMQ_DEALER -> client_step c (with_dealer d c)
| step_caller c p p' : client_step c (with_cmdpipe p (with_msgpipe p' c))
| step_command fuel m q c rc c' : terminated c = false -> pipe_now (cmdpipe c) = [] ->
    pipe_in (cmdpipe c) = command (the_call m) :: q -> s_client_handle_cmdpipe (S (S fuel)) c = Ret (rc, c') -> client_step c c'
| step_control fuel name q c rc c' : terminated c = false -> (name = "$TERM" \/ name = "$CONNECTED")%string ->
    pipe_now (cmdpipe c) = [] -> pipe_in (cmdpipe c) = [IStr (chars name)] :: q ->
    s_client_handle_cmdpipe (S (S fuel)) c = Ret (rc, c') -> client_step c c'
| step_flush turns c rc c' : terminated c = false -> s_client_handle_msgpipe turns c = Ret (rc, c') -> client_step c c'
| step_protocol junk fuel turns c rc c' : terminated c = false -> length junk = 256%nat ->
    s_client_handle_protocol junk (S (S fuel)) turns c = Ret (rc, c') -> client_step c c'
| step_timeout fuel c rc c' : terminated c = false -> expiry_timer c ∈ timers (loop c) ->
    s_client_handle_timeout (S (S fuel)) c = Ret (rc, c') -> client_step c (forget_timer (expiry_timer c) c').

Definition reachable (c : s_client_t) : Prop :=
  exists cmd msg d l, zsock_type d = ZMQ_DEALER /\ timers l = ∅ /\ rtc client_step (s_client_new cmd msg d l) c.

(** The invariant holds until the actor ends. *)
Definition live (c : s_client_t) : Prop := terminated c = true \/ client_ok c.

Lemma client_ok_cmdpipe p c : client_ok c -> client_ok (with_cmdpipe p c).
Proof. intros [[] R Sl]. split; [by split|exact R|exact Sl]. Qed.

Lemma client_ok_msgpipe p c : client_ok c -> client_ok (with_msgpipe p c).
Proof. intros [[] R Sl]. split; [by split|exact R|exact Sl]. Qed.

Lemma client_ok_dealer d c : zsock_type d = ZMQ_DEALER -> client_ok c -> client_ok (with_dealer d c).
Proof. intros Hd [[] R Sl]. split; [by split|exact R|exact Sl]. Qed.

Lemma handle_control_ok fuel name q c : (name = "$TERM" \/ name = "$CONNECTED")%string -> client_ok c ->
  pipe_now (cmdpipe c) = [] -> pipe_in (cmdpipe c) = [IStr (chars name)] :: q ->
  yields (s_client_handle_cmdpipe fuel c) (fun '(_, c') => live c').
Proof.
  intros Hname Ok Hn Hi. destruct (zstr_recv_ok _ _ _ _ Hn Hi) as (p & E & _). unfold s_client_handle_cmdpipe. rewrite E.
  apply (client_ok_cmdpipe p) in Ok. set (c1 := with_cmdpipe p c) in *.
  eapply (yields_bind _ _ live).
  - destruct Hname as [-> | ->]; cbv delta [cmdpipe_switch]; cbv beta zeta.
    + change (streq (chars "$TERM") "$TERM") with true. apply yields_ret. by left.
    + change (streq (chars "$CONNECTED") "$TERM") with false. change (streq (chars "$CONNECTED") "$CONNECTED") with true.
      apply yields_ret. right. by apply client_ok_cmdpipe.
  - intros c2 L. apply yields_ret. destruct (zpipe_rcvmore _); [|done]. destruct L as [L|L]; [by left|right].
    by apply client_ok_cmdpipe.
Qed.

Lemma handle_msgpipe_ok turns c rc c' : client_ok c -> s_client_handle_msgpipe turns c = Ret (rc, c') -> client_ok c'.
Proof.
  revert c. induction turns as [|turns IH]; intros c Ok; cbn [s_client_handle_msgpipe];
    (destruct (negb _); [by intros [= _ <-]|]); [done|].
  destruct (zstr_recv (msgpipe c)) as [[name|] p]; [|intros [= _ <-]; by apply client_ok_msgpipe].
  apply IH. cbv zeta. destruct (streq _ _), (zpipe_rcvmore _); auto using client_ok_cmdpipe, client_ok_msgpipe.
Qed.

(** *** Before CONNECT

    The state "start" knows the events of CONNECT only: its last case is an
    assertion that fails. *)
Definition unconnected (c : s_client_t) : Prop := state c = start_state /\ fsm_stopped c = false.

Lemma underway_or_not c : client_ok c -> underway c \/ unconnected c.
Proof.
  intros [_ [F|[R|[St _]]] _]; [by left; left|by left; right|]. destruct (fsm_stopped c) eqn:F; [by left; left|by right].
Qed.

Lemma unconnected_not_underway c : unconnected c -> ~ underway c.
Proof. intros [St F] [F'|[R _]]; congruence. Qed.

Lemma execute_unconnected fuel ev c : client_ok c -> unconnected c -> ev <> NULL_event -> from_start ev = [unhandled] ->
  s_client_execute (S fuel) ev c = Fault AssertFailed.
Proof.
  intros Ok [St F] Hn Hf. rewrite execute_first by (apply Ok || done). rewrite St. cbn [transition]. by rewrite Hf.
Qed.

Lemma command_unconnected fuel m c q : client_ok c -> unconnected c -> pipe_now (cmdpipe c) = [] ->
  pipe_in (cmdpipe c) = command (the_call m) :: q -> ~ connects m -> s_client_handle_cmdpipe (S fuel) c = Fault AssertFailed.
Proof.
  intros Ok Uc Hn Hi Hm. destruct (handle_cmdpipe_spec (S fuel) m c q Hn Hi) as (p & _ & _ & _ & ->).
  rewrite (execute_unconnected fuel (event_of m) (given m p c)); [done|by apply client_ok_given|done|by destruct m|].
  by destruct m.
Qed.

(** The message is one that ends the actor, or it is not expected. *)
Lemma protocol_event_start c :
  (exists ev, s_protocol_event c = (ev, c) /\ ev <> NULL_event /\ from_start ev = [unhandled]) \/
  s_protocol_event c = (NULL_event, with_terminated true c).
Proof.
  unfold s_protocol_event, wap_proto_id. destruct (id (message c)) as [|i|i]; [by right| |by right].
  repeat (destruct i as [i|i|]; try (by right); try (by left; eexists; split; [reflexivity|])).
Qed.

Lemma reply_unconnected junk fuel c : length junk = 256%nat -> uninterrupted -> client_ok c -> unconnected c ->
  handle_reply junk (S fuel) c = Fault AssertFailed \/ exists c', handle_reply junk (S fuel) c = Ret (Some (-1), c') /\ live c'.
Proof.
  intros Hj U Ok Uc. unfold handle_reply. destruct (reply_received junk c Hj U Ok) as ([[rc m] d] & -> & Hrc & Ok1 & _). cbn [bind].
  destruct Hrc as [->| ->]; cbn [Z.eqb negb]; [|right; eexists; split; [done|by right]].
  destruct (restart_spec _ (proj1 (sound_armed _ (ok_sound _ Ok1)))) as (i & l & -> & A).
  apply (client_ok_timer i l) in Ok1; [|done]. set (c1 := with_timer i l _) in *.
  destruct (protocol_event_start c1) as [(ev & -> & Hn & Hf)| ->].
  - left. by rewrite (execute_unconnected fuel ev c1 Ok1 Uc Hn Hf).
  - right. rewrite execute_none by (apply Ok1 || auto). eexists. split; [done|]. by left.
Qed.

Lemma client_protocol_ok junk fuel turns c rc c' : length junk = 256%nat -> uninterrupted -> client_ok c ->
  s_client_handle_protocol junk (S (S fuel)) turns c = Ret (rc, c') -> live c'.
Proof.
  intros Hj U. revert c. induction turns as [|turns IH]; intros c Ok; cbn [s_client_handle_protocol];
    (destruct (negb _); [intros [= _ <-]; by right|]); [done|].
  destruct (underway_or_not c Ok) as [Uw|Uc].
  - destruct (handle_reply_ok junk fuel c Hj U Ok Uw) as ([r c1] & -> & [(-> & Ok1 & Uw1)|(-> & L1)]); cbn [bind]; [by apply IH|].
    by intros [= _ <-].
  - destruct (reply_unconnected junk (S fuel) c Hj U Ok Uc) as [->|(c1 & -> & L1)]; [done|]. cbn [bind]. by intros [= _ <-].
Qed.

Lemma client_command_ok fuel m q c rc c' : client_ok c -> pipe_now (cmdpipe c) = [] ->
  pipe_in (cmdpipe c) = command (the_call m) :: q -> s_client_handle_cmdpipe (S (S fuel)) c = Ret (rc, c') -> client_ok c'.
Proof.
  intros Ok Hn Hi E. assert (underway c \/ connects m) as Hu.
  { destruct (underway_or_not c Ok) as [?|Uc]; [by left|]. right. destruct m; try exact Logic.I;
      exfalso; revert E; by rewrite (command_unconnected (S fuel) _ c q Ok Uc Hn Hi ltac:(intros [])). }
  apply (yields_inv _ _ _ (handle_cmdpipe_ok fuel m c q Ok Hn Hi Hu) E).
Qed.

Lemma client_step_ok c c' : uninterrupted -> client_step c c' -> live c -> live c'.
Proof.
  intros U Hs L.
  destruct Hs as [c d Hd|c p p'|fuel m q c rc c' T Hn Hi E|fuel name q c rc c' T Hm Hn Hi E|turns c rc c' T E
    |junk fuel turns c rc c' T Hj E|fuel c rc c' T Hf E]; destruct L as [L|L]; try congruence.
  - by left.
  - right. by apply client_ok_dealer.
  - by left.
  - right. by apply client_ok_cmdpipe, client_ok_msgpipe.
  - right. by apply (client_command_ok fuel m q c rc).
  - apply (yields_inv _ _ _ (handle_control_ok (S (S fuel)) name q c Hm L Hn Hi) E).
  - right. by apply (handle_msgpipe_ok turns c rc).
  - by apply (client_protocol_ok junk fuel turns c rc).
  - right. apply (yields_inv _ _ _ (handle_timeout_ok fuel c L Hf) E).
Qed.

Lemma client_new_ok cmd msg d l : zsock_type d = ZMQ_DEALER -> timers l = ∅ -> client_ok (s_client_new cmd msg d l).
Proof.
  intros Hd Hl. split; [|right; by right|right; right; done].
  split; try done; [apply wf_new|]. split; [by left|done].
Qed.

Lemma reachable_live c : uninterrupted -> reachable c -> live c.
Proof.
  intros U (cmd & msg & d & l & Hd & Hl & Hs). assert (live (s_client_new cmd msg d l)) as L by (right; by apply client_new_ok).
  revert L. induction Hs as [|c1 c2 c3 H12 _ IH]; [done|]. intros L. apply IH. by apply (client_step_ok c1).
Qed.

Lemma timer_runs c : client_ok c -> timeout c <> 0 -> expiry_timer c ∈ timers (loop c).
Proof.
  intros Ok T. destruct (sound_armed c (ok_sound c Ok)) as [[[Hz _]|[_ ->]] Ha]; [by apply Ha in Hz|]. by apply elem_of_singleton.
Qed.

(** C10: in every state the client can reach before its actor ends: the message is
    well formed, one timer runs, the one it knows, exactly when there is a
    timeout, at most three heartbeats are missed and after the third there is
    no timeout, no state but those that wait for something is kept.  The expiry
    of the timer runs to its end without a fault.  So do a command and a message of
    the server, whatever it is, once a CONNECT was dealt with ([underway]), and
    CONNECT itself, each with at most two turns of the state machine.  Before
    that ([unconnected], the state of a new client) every other command, the
    destructor included, fails the assertion of the state "start", and a message
    fails it too or ends the actor. *)
Theorem wap_client_invariant c : uninterrupted -> reachable c -> terminated c = false -> client_ok c /\
  (underway c \/ unconnected c) /\
  (forall fuel m q, pipe_now (cmdpipe c) = [] -> pipe_in (cmdpipe c) = command (the_call m) :: q ->
    (underway c \/ connects m -> exists c', s_client_handle_cmdpipe (S (S fuel)) c = Ret (0, c')) /\
    (unconnected c -> ~ connects m -> s_client_handle_cmdpipe (S (S fuel)) c = Fault AssertFailed)) /\
  (forall junk fuel, length junk = 256%nat ->
    (underway c -> exists r, handle_reply junk (S (S fuel)) c = Ret r) /\
    (unconnected c -> handle_reply junk (S (S fuel)) c = Fault AssertFailed \/
       exists c', handle_reply junk (S (S fuel)) c = Ret (Some (-1), c'))) /\
  (forall fuel, timeout c <> 0 -> expiry_timer c ∈ timers (loop c) /\
    exists rc c', s_client_handle_timeout (S (S fuel)) c = Ret (rc, c')).
Proof.
  intros U [L|Ok]%(reachable_live c U) T; [congruence|]. split; [done|]. split; [by apply underway_or_not|]. split; [|split].
  - intros fuel m q Hn Hi. split.
    + intros Hu. destruct (handle_cmdpipe_ok fuel m c q Ok Hn Hi Hu) as ([rc c'] & E & -> & _). by exists c'.
    + intros Uc Hm. by apply (command_unconnected (S fuel) m c q).
  - intros junk fuel Hj. split.
    + intros Hu. destruct (handle_reply_ok junk fuel c Hj U Ok Hu) as (r & E & _). by exists r.
    + intros Uc. destruct (reply_unconnected junk (S fuel) c Hj U Ok Uc) as [?|(c' & ? & _)]; [by left|right; by exists c'].
  - intros fuel Ht. assert (expiry_timer c ∈ timers (loop c)) as Hf by (by apply timer_runs). split; [done|].
    destruct (handle_timeout_ok fuel c Ok Hf) as ([rc c'] & E & _). by exists rc, c'.
Qed.

(** ** Heartbeats *)

(** The timer fires: the callback, and then the reactor forgets the timer. *)
Definition expire (fuel : nat) (c : s_client_t) : outcome s_client_t :=
  let* '(_, c') := s_client_handle_timeout fuel c in Ret (forget_timer (expiry_timer c) c').

Lemma expire_spec fuel c (Q : s_client_t -> Prop) : client_ok c -> timeout c <> 0 ->
  yields (s_client_execute (S (S fuel)) expired_event c) Q ->
  (forall i l c', Q c' -> Q (with_timer i l c')) -> yields (expire (S (S fuel)) c) (fun c' => client_ok c' /\ Q c').
Proof.
  intros Ok T (c1 & E1 & Hq) HQ. unfold expire.
  destruct (handle_timeout_ok fuel c Ok (timer_runs c Ok T)) as ([rc c'] & E & _ & Ok'). rewrite E. apply yields_ret. split; [done|].
  unfold s_client_handle_timeout in E. rewrite E1 in E. cbn [bind] in E. destruct (terminated c1); injection E as _ <-.
  - exact (HQ (expiry_timer c1) (zloop_timer_end (expiry_timer c) (loop c1)) c1 Hq).
  - destruct (start_expiry_spec c1) as (i & l & -> & _). exact (HQ i (zloop_timer_end (expiry_timer c) l) c1 Hq).
Qed.

(** A heartbeat that finds no answer to the last one, and the third such. *)
Definition pinged (c c' : s_client_t) : Prop :=
  state c' = connected_state /\ fsm_stopped c' = false /\ retries c' = retries c + 1 /\ timeout c' = timeout c /\
  connected c' = connected c /\ cmdpipe c' = cmdpipe c /\
  outbox (dealer c') = outbox (dealer c) ++ message_frames WAP_PROTO_PING [].

Definition cut_off (c c' : s_client_t) : Prop :=
  state c' = connected_state /\ fsm_stopped c' = false /\ timeout c' = 0 /\ connected c' = false /\
  cmdpipe c' = cmdpipe c /\ dealer c' = dealer c.

Lemma heartbeat_missed fuel c : is_connected c -> timeout c <> 0 -> retries c <= 1 ->
  yields (expire (S (S fuel)) c) (fun c' => client_ok c' /\ pinged c c').
Proof.
  intros Hc T Hr. pose proof (connected_gave_up c Hc) as G. destruct Hc as (Ok & St & F).
  apply (expire_spec fuel c (pinged c) Ok T); [|done].
  eapply yields_mono; [apply (execute_one (S fuel) expired_event c (pinged c) (ok_sound c Ok) F); [done|]|by intros c' [_ ?]].
  set (c0 := turn _ _). assert (begun c0) as B by (by apply begun_turn; [apply sound_next, Ok|]). destruct (B) as [S0 N0 E0 F0].
  pose proof (sound_retries c (ok_sound c Ok)) as Hr0. rewrite St. cbn [transition from_connected].
  rewrite heartbeat_steps by (done || (cbn; lia)). destruct (Z.eqb_spec (retries c0) 2) as [E2|_]; [cbn in E2; lia|].
  assert (sound (with_retries (retries c0 + 1) c0)) as S1 by (destruct S0; split; try done; cbn; lia).
  eapply yields_mono; [exact (client_send_spec WAP_PROTO_PING _ S1)|]. intros c2 (S2 & C2 & G2 & E2 & _ & Ho).
  split; [|rewrite E2; by repeat split].
  apply (stay_at_rest (with_retries (retries c0 + 1) c0)); [by split|done|done|cbn; by rewrite St|].
  apply G2. intros H4. cbn in H4. lia.
Qed.

Lemma heartbeat_lost fuel c : is_connected c -> timeout c <> 0 -> retries c = 2 ->
  yields (expire (S (S fuel)) c) (fun c' => client_ok c' /\ cut_off c c').
Proof.
  intros (Ok & St & F) T Hr. apply (expire_spec fuel c (cut_off c) Ok T); [|done].
  rewrite execute_first by (apply Ok || done).
  set (c0 := turn _ _). assert (sound c0) as S0 by (by apply begun_turn; [apply sound_next, Ok|]).
  rewrite St. cbn [transition from_connected].
  rewrite heartbeat_steps by (done || (cbn; lia)). change (retries c0) with (retries c). rewrite Hr. cbn [Z.eqb Pos.eqb bind].
  destruct (lost_spec c0 S0) as (S1 & St1 & F1 & T1 & Cn1 & X1 & D1 & P1). rewrite X1, decide_False by done.
  rewrite (client_turn fuel (with_next_event exception_event (lost c0)) exception_event (sound_running _ S1) (eq_trans F1 F) eq_refl) by done.
  cbn [state with_next_event]. rewrite St1. change (state c0) with (state c). rewrite St.
  cbn [transition from_connected from_defaults steps bind turn]. rewrite decide_True by done. rewrite execute_stop by auto.
  apply yields_ret. exact (conj (eq_trans St1 St) (conj (eq_trans F1 F) (conj T1 (conj Cn1 (conj P1 D1))))).
Qed.

(** C25: a connection is given up after three seconds of silence.  A connected
    client that has just heard of the server, and hears nothing while its
    timer fires three times, sends PING twice and nothing else; the third time
    it takes the connection for dead: the calling thread will be told it is
    not connected, and the timer is off, so no heartbeat ever follows. *)
Theorem wap_client_heartbeat fuel c : is_connected c -> timeout c <> 0 -> retries c = 0 ->
  yields (let* c := expire (S (S fuel)) c in let* c := expire (S (S fuel)) c in expire (S (S fuel)) c) (fun c' =>
    client_ok c' /\ state c' = connected_state /\ connected c' = false /\ cmdpipe c' = cmdpipe c /\
    outbox (dealer c') = outbox (dealer c) ++ message_frames WAP_PROTO_PING [] ++ message_frames WAP_PROTO_PING [] /\
    timeout c' = 0 /\ timers (loop c') = ∅).
Proof.
  intros Hc T Hr.
  eapply yields_bind; [apply heartbeat_missed; [done|done|lia]|]. intros c1 (Ok1 & St1 & F1 & R1 & T1 & _ & P1 & O1).
  eapply yields_bind; [apply heartbeat_missed; [by split|congruence|lia]|]. intros c2 (Ok2 & St2 & F2 & R2 & T2 & _ & P2 & O2).
  eapply yields_mono; [apply heartbeat_lost; [by split|congruence|lia]|]. intros c3 (Ok3 & St3 & F3 & T3 & C3 & P3 & D3).
  split; [done|]. split; [done|]. split; [done|]. split; [congruence|]. split; [by rewrite D3, O2, O1, app_assoc|].
  split; [done|]. destruct (sound_armed c3 (ok_sound c3 Ok3)) as [[[_ ?]|[Hn _]] Ha]; [done|]. by apply Ha in T3.
Qed.

(** ** Errors *)

(** What comes of an ERROR while a request is waiting. *)
Definition error_outcome (c c' : s_client_t) : Prop :=
  cmdpipe c' = cmdpipe c /\
  if numbers (message c) status =? 500
  then state c' = reexpect_open_ok_state /\ fsm_stopped c' = false /\
    outbox (dealer c') = outbox (dealer c) ++ message_frames WAP_PROTO_OPEN (carried (message c) (fields WAP_PROTO_OPEN))
  else fsm_stopped c' = true /\ dealer c' = dealer c.

Lemma reopen_steps c : begun c ->
  yields (steps (from_have_error command_invalid_event) c) (fun c' => at_rest c' /\ cmdpipe c' = cmdpipe c /\
    state c' = reexpect_open_ok_state /\ fsm_stopped c' = false /\
    outbox (dealer c') = outbox (dealer c) ++ message_frames WAP_PROTO_OPEN (carried (message c) (fields WAP_PROTO_OPEN))).
Proof.
  intros B. apply yields_and; [by apply error_turn; auto|]. destruct B as [S N E F]. cbn [from_have_error steps].
  rewrite decide_True by done. unfold use_connect_timeout. cbn [bind].
  destruct (set_timeout_sound (arg_timeout (args c)) c S) as (S1 & C1 & _).
  destruct (engine_set_timeout_spec (arg_timeout (args c)) c (proj1 (sound_armed _ S))) as (i & l & Et & _).
  rewrite decide_True by (by rewrite (oc_exception _ _ C1)).
  eapply yields_bind; [exact (client_send_spec WAP_PROTO_OPEN _ S1)|]. intros c2 (_ & C2 & _ & E2 & _ & Ho).
  rewrite decide_True by (by rewrite (oc_exception _ _ C2), (oc_exception _ _ C1)). apply yields_ret.
  cbn [state fsm_stopped cmdpipe dealer with_state]. rewrite (oc_stopped _ _ C2), (oc_stopped _ _ C1), Ho, E2, Et. done.
Qed.

Lemma error_execute fuel m c : is_request m -> sound c -> fsm_stopped c = false -> state c = waiting m ->
  yields (s_client_execute (S (S fuel)) error_event c) (error_outcome c).
Proof.
  intros Hm Sd F St. rewrite execute_first by (apply Sd || done). set (c0 := turn _ _).
  assert (transition (state c) error_event = [check_status_code; goto have_error_state]) as -> by (rewrite St; by destruct m).
  cbn [steps]. rewrite decide_True by done. unfold check_status_code, error_outcome, engine_set_next_event.
  change (wap_proto_status (message c0)) with (numbers (message c) status). destruct (numbers (message c) status =? 500);
    cbn [bind]; rewrite decide_True by done; unfold goto; cbn [bind]; rewrite decide_True by done.
  - set (c1 := with_state _ _). rewrite (client_turn fuel c1 command_invalid_event (sound_running _ Sd) F eq_refl) by done.
    eapply yields_bind; [apply (reopen_steps (turn command_invalid_event c1)), begun_turn; [by destruct Sd; split|done]|].
    intros c2 ([_ _ N2 X2] & ?). rewrite decide_True by done. rewrite execute_stop by auto. by apply yields_ret.
  - set (c1 := with_state _ _). rewrite (client_turn fuel c1 other_event (sound_running _ Sd) F eq_refl) by done.
    cbn [transition state c1 with_state from_have_error steps]. rewrite decide_True by done. unfold signal_unhandled_error. cbn [bind].
    rewrite decide_True by done. unfold terminate. cbn [bind]. rewrite decide_True by done. rewrite execute_stop by auto.
    by apply yields_ret.
Qed.

Lemma reopened junk fuel c rest : length junk = 256%nat -> uninterrupted -> client_ok c -> state c = reexpect_open_ok_state ->
  fsm_stopped c = false -> inbox (dealer c) = message_frames WAP_PROTO_OPEN_OK [] ++ rest ->
  yields (handle_reply junk (S fuel) c) (fun '(rc, c') =>
    rc = None /\ is_connected c' /\ connected c' = true /\ cmdpipe c' = cmdpipe c).
Proof.
  intros Hj U Ok St F Hi.
  destruct (handle_reply_recv junk (S fuel) c WAP_PROTO_OPEN_OK [] rest Hj U Ok eq_refl (List.Forall_nil _) Hi)
    as (c1 & -> & Ok1 & [Hs1 Hf1 Hp1 _ _ Ho1] & Hq & _).
  assert (s_protocol_event c1 = (open_ok_event, c1)) as -> by (unfold s_protocol_event, wap_proto_id; by rewrite Hq).
  assert (fsm_stopped c1 = false) as F1 by congruence.
  set (c0 := turn open_ok_event (with_next_event open_ok_event c1)).
  assert (begun c0) as B by (by apply begun_turn; [apply sound_next, Ok1|]). destruct (B) as [S0 N0 E0 F0].
  eapply yields_bind; [apply (execute_one fuel open_ok_event c1 (fun c' => state c' = connected_state /\ fsm_stopped c' = false /\
    connected c' = true /\ cmdpipe c' = cmdpipe c1) (ok_sound _ Ok1) F1 ltac:(done))|].
  - rewrite Hs1, St. apply yields_and; [by apply (then_connected [])|]. cbn [transition from_reexpect_open_ok steps].
    rewrite decide_True by done. eapply yields_bind; [exact (client_is_connected_spec c0 S0)|].
    intros c2 (_ & C2 & _ & _ & Cn & _ & P2 & _). rewrite decide_True by (by rewrite (oc_exception _ _ C2)).
    apply yields_ret. split; [done|]. split; [exact (eq_trans (oc_stopped _ _ C2) F1)|]. done.
  - intros c2 (Ok2 & St2 & F2 & Cn & P2). apply yields_ret. rewrite (sound_running _ (ok_sound _ Ok2)). rewrite P2. done.
Qed.

(** C26: an ERROR leaves a call without an answer.  While a request waits for its
    reply, an ERROR from the server with status 500 (the server takes the
    request for invalid, as when it has forgotten the session) makes the
    client open the session again, and when the server agrees it is connected
    as before; any other status stops its state machine.  In neither case is
    anything told to the calling thread, which waits for the reply. *)
Theorem wap_client_error_unanswered junk fuel m c st rs rest : length junk = 256%nat -> uninterrupted -> is_request m ->
  client_ok c -> state c = waiting m -> fsm_stopped c = false -> 0 <= st < 2 ^ 16 -> Z.of_nat (length rs) < 2 ^ 8 ->
  inbox (dealer c) = message_frames WAP_PROTO_ERROR [(FNumber2 status, Num st); (FString reason, Octets rs)] ++ rest ->
  yields (handle_reply junk (S (S fuel)) c) (fun '(rc, c') => rc = None /\ client_ok c' /\ cmdpipe c' = cmdpipe c /\
    if st =? 500
    then state c' = reexpect_open_ok_state /\
      (exists p, outbox (dealer c') = outbox (dealer c) ++ message_frames WAP_PROTO_OPEN (carried p (fields WAP_PROTO_OPEN))) /\
      (forall d rest', zsock_type d = ZMQ_DEALER -> inbox d = message_frames WAP_PROTO_OPEN_OK [] ++ rest' ->
        yields (handle_reply junk (S (S fuel)) (with_dealer d c')) (fun '(rc, c'') =>
          rc = None /\ is_connected c'' /\ connected c'' = true /\ cmdpipe c'' = cmdpipe c))
    else fsm_stopped c' = true /\ outbox (dealer c') = outbox (dealer c)).
Proof.
  intros Hj U Hm Ok St F Hst Hrs Hi.
  set (fvs := [(FNumber2 status, Num st); (FString reason, Octets rs)]) in *.
  assert (all_valid fvs) as Hv by (apply List.Forall_cons; [done|]; apply List.Forall_cons; [done|apply List.Forall_nil]).
  destruct (handle_reply_recv junk (S (S fuel)) c WAP_PROTO_ERROR fvs rest Hj U Ok eq_refl Hv Hi)
    as (c1 & E1 & Ok1 & [Hs1 Hf1 Hp1 _ _ Ho1] & Hq & Hh & _ & _ & Hsm).
  assert (s_protocol_event c1 = (error_event, c1)) as Hev by (unfold s_protocol_event, wap_proto_id; by rewrite Hq).
  assert (numbers (message c1) status = st) as Hn.
  { apply List.Forall_cons_iff in Hh as [Hh _]. cbn -[Z.pow] in Hh. injection Hh as Hh. rewrite Z.mod_small in Hh; auto. }
  assert (expected error_event c1) as He by (split; [done|]; rewrite Hs1, St; by destruct m).
  destruct (yields_and _ _ _ (error_execute fuel m c1 Hm (ok_sound _ Ok1) (eq_trans Hf1 F) (eq_trans Hs1 St))
    (execute_ok fuel error_event c1 Ok1 (fun _ _ => He))) as (c2 & E2 & [P2 H2] & Ok2 & _).
  rewrite E1, Hev, E2. cbn [bind]. apply yields_ret. rewrite (sound_running _ (ok_sound _ Ok2)).
  split; [done|]. split; [done|]. split; [congruence|]. rewrite Hn in H2. destruct (st =? 500).
  - destruct H2 as (St2 & F2 & O2). split; [done|]. split; [exists (message c1); by rewrite O2, Ho1|].
    intros d rest' Hd Hi'. rewrite <- Hp1, <- P2. apply (reopened junk (S fuel) (with_dealer d c2) rest'); try done.
    by apply client_ok_dealer.
  - destruct H2 as [F2 D2]. split; [done|]. by rewrite D2.
Qed.

Lemma stopped_reply junk fuel c : length junk = 256%nat -> client_ok c -> fsm_stopped c = true ->
  yields (handle_reply junk fuel c) (fun '(_, c') => fsm_stopped c' = true /\ pipe_out (cmdpipe c') = pipe_out (cmdpipe c) /\
    outbox (dealer c') = outbox (dealer c)).
Proof.
  intros Hj Ok F. unfold handle_reply. eapply yields_bind; [apply (recv_total junk (message c) (dealer c) Hj), Ok|].
  intros [[rc q] d] (_ & _ & [_ Ho] & _). destruct (negb _); [by apply yields_ret|].
  destruct (restart_spec (with_message q (with_dealer d c))) as (i & l & -> & _); [apply Ok|].
  set (c1 := with_timer i l _). destruct (protocol_event_cases c1) as [(ev & -> & _)| ->].
  - rewrite execute_none by (apply Ok || auto). by apply yields_ret.
  - rewrite execute_none by (apply Ok || auto). by apply yields_ret.
Qed.

(** The two questions that do not go through the state machine. *)
Lemma connected_told fuel q c : client_ok c -> pipe_now (cmdpipe c) = [] -> pipe_in (cmdpipe c) = [IStr (chars "$CONNECTED")] :: q ->
  yields (s_client_handle_cmdpipe fuel c) (fun '(rc, c') => rc = 0 /\ client_ok c' /\ fsm_stopped c' = fsm_stopped c /\
    dealer c' = dealer c /\ pipe_out (cmdpipe c') = pipe_out (cmdpipe c) ++ [[IInt (if connected c then 1 else 0)]]).
Proof.
  intros Ok Hn Hi. destruct (zstr_recv_ok _ _ _ _ Hn Hi) as (p & E & Hp & _ & Ho). unfold s_client_handle_cmdpipe. rewrite E.
  apply (client_ok_cmdpipe p) in Ok. set (c1 := with_cmdpipe p c) in *.
  assert (cmdpipe_switch fuel (chars "$CONNECTED") c1 = Ret (tell [IInt (if connected c then 1 else 0)] c1)) as -> by reflexivity.
  cbn [bind]. set (c2 := tell _ c1). assert (client_ok c2) as Ok2 by (by apply client_ok_cmdpipe).
  destruct (zsock_send_ok [IInt (if connected c then 1 else 0)] p) as (Ho2 & Hn2 & _).
  assert (zpipe_rcvmore (cmdpipe c2) = false) as ->.
  { apply not_true_iff_false. rewrite zpipe_rcvmore_ok. cbn. rewrite Hn2, Hp. auto. }
  rewrite (sound_running _ (ok_sound _ Ok2)). apply yields_ret. split; [done|]. split; [done|]. split; [done|]. split; [done|].
  cbn. by rewrite Ho2, Ho.
Qed.

Lemma flush_signalled turns c : client_ok c -> pipe_now (msgpipe c) = [] -> pipe_in (msgpipe c) = [[IStr (chars "$FLUSH")]] ->
  yields (s_client_handle_msgpipe (S turns) c) (fun '(rc, c') => rc = 0 /\ client_ok c' /\ fsm_stopped c' = fsm_stopped c /\
    dealer c' = dealer c /\ pipe_out (cmdpipe c') = pipe_out (cmdpipe c) ++ [[ISignal 0]]).
Proof.
  intros Ok Hn Hi. cbn [s_client_handle_msgpipe].
  assert (zpipe_pollin (msgpipe c) = true) as -> by (apply zpipe_pollin_ok; [done|by rewrite Hi]). cbn [negb].
  destruct (zstr_recv_ok _ _ _ _ Hn Hi) as (p & -> & Hp & Hq & _).
  change (streq (chars "$FLUSH") "$FLUSH") with true. cbn iota zeta.
  set (c1 := with_cmdpipe _ (with_msgpipe p c)).
  assert (client_ok c1) as Ok1 by (by apply client_ok_cmdpipe, client_ok_msgpipe).
  assert (zpipe_rcvmore (msgpipe c1) = false) as -> by (apply not_true_iff_false; rewrite zpipe_rcvmore_ok; cbn; rewrite Hp; auto).
  assert (zpipe_pollin (msgpipe c1) = false) as Hpo by (apply not_true_iff_false; rewrite zpipe_pollin_ok by (cbn; done); cbn; rewrite Hq; auto).
  destruct turns; cbn [s_client_handle_msgpipe]; rewrite Hpo; apply yields_ret; (split; [done|]); (split; [done|]);
    (split; [done|]); (split; [done|]); apply zsock_signal_ok.
Qed.

(** C27: a client whose state machine stopped answers no call.  Whatever call the
    calling thread makes, its destructor included, whatever the server sends
    and however often the timer fires, nothing is told to the calling thread and
    nothing sent to the server: the thread waits for good (the comment of the
    destructor promises a short timeout).  What does not go through the state
    machine is still answered: $CONNECTED with the flag, $FLUSH with a
    signal. *)
Theorem wap_client_stopped_silent c : uninterrupted -> client_ok c -> fsm_stopped c = true ->
  (forall fuel m q, pipe_now (cmdpipe c) = [] -> pipe_in (cmdpipe c) = command (the_call m) :: q ->
    yields (s_client_handle_cmdpipe (S (S fuel)) c) (fun '(rc, c') => rc = 0 /\ client_ok c' /\ fsm_stopped c' = true /\
      pipe_out (cmdpipe c') = pipe_out (cmdpipe c) /\ outbox (dealer c') = outbox (dealer c))) /\
  (forall junk fuel, length junk = 256%nat ->
    yields (handle_reply junk (S (S fuel)) c) (fun '(_, c') => live c' /\ fsm_stopped c' = true /\
      pipe_out (cmdpipe c') = pipe_out (cmdpipe c) /\ outbox (dealer c') = outbox (dealer c))) /\
  (forall fuel, timeout c <> 0 -> yields (expire (S (S fuel)) c) (fun c' => client_ok c' /\ fsm_stopped c' = true /\
      pipe_out (cmdpipe c') = pipe_out (cmdpipe c) /\ outbox (dealer c') = outbox (dealer c))) /\
  (forall fuel q, pipe_now (cmdpipe c) = [] -> pipe_in (cmdpipe c) = [IStr (chars "$CONNECTED")] :: q ->
    yields (s_client_handle_cmdpipe fuel c) (fun '(rc, c') => rc = 0 /\ client_ok c' /\ fsm_stopped c' = true /\
      pipe_out (cmdpipe c') = pipe_out (cmdpipe c) ++ [[IInt (if connected c then 1 else 0)]] /\
      outbox (dealer c') = outbox (dealer c))) /\
  (forall turns, pipe_now (msgpipe c) = [] -> pipe_in (msgpipe c) = [[IStr (chars "$FLUSH")]] ->
    yields (s_client_handle_msgpipe (S turns) c) (fun '(rc, c') => rc = 0 /\ client_ok c' /\ fsm_stopped c' = true /\
      pipe_out (cmdpipe c') = pipe_out (cmdpipe c) ++ [[ISignal 0]] /\ outbox (dealer c') = outbox (dealer c))).
Proof.
  intros U Ok F. split; [|split; [|split; [|split]]].
  - intros fuel m q Hn Hi. destruct (handle_cmdpipe_spec (S (S fuel)) m c q Hn Hi) as (p & _ & _ & Ho & ->).
    pose proof (client_ok_given m p c Ok) as Ok1. rewrite execute_none by (apply Ok1 || auto). cbn [bind].
    assert (client_ok (with_next_event (event_of m) (given m p c))) as Ok2.
    { destruct Ok1 as [[] R Sl]. split; [by split|exact R|exact Sl]. }
    apply yields_ret. destruct (flushed_spec _ (ok_sound _ Ok2)) as (E & Ho' & _). apply client_ok_flushed in Ok2.
    rewrite (sound_running _ (ok_sound _ Ok2)). split; [done|]. split; [done|]. rewrite Ho'. rewrite E. done.
  - intros junk fuel Hj. eapply yields_mono; [apply yields_and; [by apply (handle_reply_ok junk fuel c Hj U Ok); left|
      apply (stopped_reply junk (S (S fuel)) c Hj Ok F)]|].
    intros [rc c'] [Hl ?]. split; [|done]. destruct Hl as [(_ & ? & _)|[_ ?]]; [by right|done].
  - intros fuel T. eapply yields_mono; [apply (expire_spec fuel c (fun c' => fsm_stopped c' = true /\ cmdpipe c' = cmdpipe c /\ dealer c' = dealer c) Ok T)|].
    + rewrite execute_none by (apply Ok || auto). by apply yields_ret.
    + done.
    + intros c' (? & ? & -> & ->). done.
  - intros fuel q Hn Hi. eapply yields_mono; [by apply (connected_told fuel q c Ok)|].
    intros [rc c'] (? & ? & -> & -> & ?). done.
  - intros turns Hn Hi. eapply yields_mono; [by apply (flush_signalled turns c Ok)|].
    intros [rc c'] (? & ? & -> & -> & ?). done.
Qed.

End ClientService.

(** ** A client on the queue implementation *)
Module ClientDemo.
Import Queue PipeQueue.

Lemma queue_uninterrupted : uninterrupted.
Proof. intros s _. cbn. unfold q_recv_msg. by destruct (q_message _). Qed.

Definition junk : list Z := replicate 256 165.
Definition pipe (q : list (list item)) : zpipe := QPipe [] q [].
Definition dealer_with (q : list (list Z * bool)) : @zsock queue_czmq := QSock ZMQ_DEALER q false [].

Definition fresh (q : list (list item)) : s_client_t := s_client_new (pipe q) (pipe []) (dealer_with []) (1%positive, ∅).

Definition connect : method := Connect (chars "tcp://daemon:5555") 200 [66].

(** The same client with other messages on its dealer and its pipe. *)
Definition at_dealer (q : list (list Z * bool)) (c : s_client_t) : s_client_t := with_dealer (dealer_with q) c.
Definition told (q : list (list item)) (c : s_client_t) : s_client_t := with_cmdpipe (pipe q) (with_msgpipe (pipe []) c).

Definition value_of {A} (m : outcome (Z * A)) (a : A) : A := match m with Ret (_, a) => a | Fault _ => a end.

(** After CONNECT, and after the server's OPEN_OK. *)
Definition opening_client : s_client_t := value_of (s_client_handle_cmdpipe 2 (fresh [command (the_call connect)])) (fresh []).
Definition wallet_client : s_client_t :=
  value_of (s_client_handle_protocol junk 2 2 (at_dealer (message_frames WAP_PROTO_OPEN_OK []) opening_client)) (fresh []).
(** After GET INFO, and after an ERROR that is not 500. *)
Definition waiting_client : s_client_t :=
  value_of (s_client_handle_cmdpipe 2 (told [command (the_call GetInfo)] wallet_client)) (fresh []).

Definition errors (st : Z) : list (list Z * bool) :=
  message_frames WAP_PROTO_ERROR [(FNumber2 status, Num st); (FString reason, Octets [110; 111])].

Definition stopped_client : s_client_t := value_of (s_client_handle_protocol junk 2 2 (at_dealer (errors 404) waiting_client)) (fresh []).

(** What running it gives. *)
Definition looks (st : state_t) (stopped : bool) (t r : Z) (c : s_client_t) : bool :=
  bool_decide (state c = st) && bool_decide (fsm_stopped c = stopped) && (timeout c =? t) && (retries c =? r) && negb (terminated c).

Lemma client_runs :
  looks expect_open_ok_state false 200 0 opening_client && looks connected_state false 1000 0 wallet_client &&
  looks expect_get_info_ok_state false 1000 0 waiting_client && looks have_error_state true 1000 0 stopped_client = true.
Proof. vm_compute. reflexivity. Qed.

Lemma looks_inv st stopped t r c : looks st stopped t r c = true ->
  state c = st /\ fsm_stopped c = stopped /\ timeout c = t /\ retries c = r /\ terminated c = false.
Proof.
  unfold looks. rewrite !andb_true_iff, !bool_decide_eq_true, !Z.eqb_eq, negb_true_iff. intros [[[[? ?] ?] ?] ?]. done.
Qed.

Lemma opening_looks : looks expect_open_ok_state false 200 0 opening_client = true.
Proof. pose proof client_runs as E. by rewrite !andb_true_iff in E. Qed.
Lemma wallet_looks : looks connected_state false 1000 0 wallet_client = true.
Proof. pose proof client_runs as E. by rewrite !andb_true_iff in E. Qed.
Lemma waiting_looks : looks expect_get_info_ok_state false 1000 0 waiting_client = true.
Proof. pose proof client_runs as E. by rewrite !andb_true_iff in E. Qed.
Lemma stopped_looks : looks have_error_state true 1000 0 stopped_client = true.
Proof. pose proof client_runs as E. by rewrite !andb_true_iff in E. Qed.

Lemma looks_told st stopped t r q c : looks st stopped t r c = true -> looks st stopped t r (told q c) = true.
Proof. done. Qed.
Lemma looks_at_dealer st stopped t r q c : looks st stopped t r c = true -> looks st stopped t r (at_dealer q c) = true.
Proof. done. Qed.

(** It was a run that gave it. *)
Lemma value_of_ran m c st stopped t r : c = value_of m (fresh []) -> looks st stopped t r c = true -> st <> start_state ->
  exists rc, m = Ret (rc, c).
Proof.
  intros -> (E & _)%looks_inv Hn. destruct m as [[rc c]|e]; [by exists rc|]. cbn in E. congruence.
Qed.

Lemma opening_ran : exists rc, s_client_handle_cmdpipe 2 (fresh [command (the_call connect)]) = Ret (rc, opening_client).
Proof. by refine (value_of_ran _ _ _ _ _ _ _ opening_looks _). Qed.
Lemma wallet_ran : exists rc, s_client_handle_protocol junk 2 2 (at_dealer (message_frames WAP_PROTO_OPEN_OK []) opening_client) = Ret (rc, wallet_client).
Proof. by refine (value_of_ran _ _ _ _ _ _ _ wallet_looks _). Qed.
Lemma waiting_ran : exists rc, s_client_handle_cmdpipe 2 (told [command (the_call GetInfo)] wallet_client) = Ret (rc, waiting_client).
Proof. by refine (value_of_ran _ _ _ _ _ _ _ waiting_looks _). Qed.
Lemma stopped_ran : exists rc, s_client_handle_protocol junk 2 2 (at_dealer (errors 404) waiting_client) = Ret (rc, stopped_client).
Proof. by refine (value_of_ran _ _ _ _ _ _ _ stopped_looks _). Qed.

#[local] Opaque opening_client wallet_client waiting_client stopped_client.

Lemma fresh_ok q : client_ok (fresh q).
Proof. apply client_new_ok; reflexivity. Qed.

Lemma opening_step : client_step (fresh [command (the_call connect)]) opening_client.
Proof.
  destruct opening_ran as [rc E].
  by apply (step_command 0 connect [] (fresh [command (the_call connect)]) rc opening_client).
Qed.

Lemma wallet_steps : rtc client_step opening_client wallet_client.
Proof.
  destruct wallet_ran as [rc E].
  apply (rtc_l _ _ (at_dealer (message_frames WAP_PROTO_OPEN_OK []) opening_client)); [by apply step_network|]. apply rtc_once.
  pose proof (looks_at_dealer _ _ _ _ (message_frames WAP_PROTO_OPEN_OK []) _ opening_looks) as Hl.
  destruct (looks_inv _ _ _ _ _ Hl) as (_ & _ & _ & _ & T).
  exact (step_protocol junk 0 2 (at_dealer (message_frames WAP_PROTO_OPEN_OK []) opening_client) rc wallet_client T eq_refl E).
Qed.

Lemma waiting_steps : rtc client_step wallet_client waiting_client.
Proof.
  destruct waiting_ran as [rc E]. pose proof (looks_told _ _ _ _ [command (the_call GetInfo)] _ wallet_looks) as Hl.
  destruct (looks_inv _ _ _ _ _ Hl) as (_ & _ & _ & _ & T).
  apply (rtc_l _ _ (told [command (the_call GetInfo)] wallet_client)); [apply step_caller|]. apply rtc_once.
  exact (step_command 0 GetInfo [] (told [command (the_call GetInfo)] wallet_client) rc waiting_client T
    eq_refl eq_refl E).
Qed.

Lemma stopped_steps : rtc client_step waiting_client stopped_client.
Proof.
  destruct stopped_ran as [rc E].
  apply (rtc_l _ _ (at_dealer (errors 404) waiting_client)); [by apply step_network|]. apply rtc_once.
  pose proof (looks_at_dealer _ _ _ _ (errors 404) _ waiting_looks) as Hl.
  destruct (looks_inv _ _ _ _ _ Hl) as (_ & _ & _ & _ & T).
  exact (step_protocol junk 0 2 (at_dealer (errors 404) waiting_client) rc stopped_client T eq_refl E).
Qed.

Lemma fresh_reaches c q : rtc client_step (fresh q) c -> reachable c.
Proof. intros Hs. exists (pipe q), (pipe []), (dealer_with []), (1%positive, ∅). split; [done|]. by split. Qed.

Lemma wallet_reachable : reachable wallet_client.
Proof. apply (fresh_reaches _ [command (the_call connect)]). eapply rtc_l; [exact opening_step|exact wallet_steps]. Qed.

Lemma waiting_reachable : reachable waiting_client.
Proof.
  apply (fresh_reaches _ [command (the_call connect)]). eapply rtc_l; [exact opening_step|].
  etrans; [exact wallet_steps|exact waiting_steps].
Qed.

Lemma stopped_reachable : reachable stopped_client.
Proof.
  apply (fresh_reaches _ [command (the_call connect)]). eapply rtc_l; [exact opening_step|].
  etrans; [exact wallet_steps|]. etrans; [exact waiting_steps|exact stopped_steps].
Qed.

Lemma reachable_running c st stopped t r : reachable c -> looks st stopped t r c = true -> client_ok c.
Proof.
  intros Hr (_ & _ & _ & _ & T)%looks_inv. destruct (reachable_live (M := queue_memory) c queue_uninterrupted Hr) as [L|L]; [congruence|done].
Qed.

Lemma told_connected q c : is_connected c -> is_connected (told q c).
Proof. intros (Ok & ? & ?). split; [by apply client_ok_cmdpipe, client_ok_msgpipe|done]. Qed.

Lemma wallet_connected : is_connected wallet_client.
Proof.
  destruct (looks_inv _ _ _ _ _ wallet_looks) as (St & F & _).
  exact (conj (reachable_running _ _ _ _ _ wallet_reachable wallet_looks) (conj St F)).
Qed.

End ClientDemo.

Import Queue PipeQueue ClientDemo.

Lemma wap_client_invariant_witness : client_ok wallet_client /\ expiry_timer wallet_client ∈ timers (loop wallet_client).
Proof.
  destruct (looks_inv _ _ _ _ _ wallet_looks) as (_ & _ & Ht & _ & T).
  destruct (wap_client_invariant (M := queue_memory) wallet_client queue_uninterrupted wallet_reachable T) as (Ok & _ & _ & _ & Hx).
  split; [exact Ok|]. apply (Hx 0%nat). rewrite Ht. discriminate.
Defined.

Lemma wap_client_heartbeat_witness :
  exists c', (let* c := expire 2 wallet_client in let* c := expire 2 c in expire 2 c) = Ret c' /\ connected c' = false /\
    outbox (dealer c') = outbox (dealer wallet_client) ++ [([170; 160; 41], false); ([170; 160; 41], false)].
Proof.
  destruct (looks_inv _ _ _ _ _ wallet_looks) as (_ & _ & Ht & Hr & _).
  destruct (wap_client_heartbeat (M := queue_memory) 0 wallet_client wallet_connected ltac:(rewrite Ht; discriminate) Hr)
    as (c' & E & _ & _ & Hc & _ & Ho & _).
  exists c'. split; [exact E|]. split; [exact Hc|exact Ho].
Defined.

Lemma wap_client_error_unanswered_witness :
  exists c', handle_reply junk 2 (at_dealer (errors 500) waiting_client) = Ret (None, c') /\ state c' = reexpect_open_ok_state /\
    cmdpipe c' = cmdpipe waiting_client.
Proof.
  destruct (looks_inv _ _ _ _ _ (looks_at_dealer _ _ _ _ (errors 500) _ waiting_looks)) as (St & F & _).
  destruct (wap_client_error_unanswered (M := queue_memory) junk 0 GetInfo (at_dealer (errors 500) waiting_client) 500 [110; 111] []
    eq_refl queue_uninterrupted Logic.I
    (client_ok_dealer (dealer_with (errors 500)) _ eq_refl (reachable_running _ _ _ _ _ waiting_reachable waiting_looks)) St F ltac:(lia) ltac:(done)
    ltac:(vm_compute; reflexivity)) as ([rc c'] & E & -> & _ & Hp & Hs & _).
  exists c'. split; [exact E|]. split; [exact Hs|exact Hp].
Defined.

Lemma wap_client_stopped_silent_witness :
  yields (s_client_handle_cmdpipe 2 (told [command (the_call Destructor)] stopped_client)) (fun '(rc, c') => rc = 0 /\
    pipe_out (cmdpipe c') = []).
Proof.
  destruct (looks_inv _ _ _ _ _ (looks_told _ _ _ _ [command (the_call Destructor)] _ stopped_looks)) as (_ & F & _).
  destruct (wap_client_stopped_silent (M := queue_memory) (told [command (the_call Destructor)] stopped_client) queue_uninterrupted
    (client_ok_cmdpipe _ _ (client_ok_msgpipe _ _ (reachable_running _ _ _ _ _ stopped_reachable stopped_looks))) F) as (Hc & _).
  eapply yields_mono; [exact (Hc 0%nat Destructor [] eq_refl eq_refl)|].
  intros [rc c'] (Hrc & _ & _ & Hp & _). split; [exact Hrc|exact Hp].
Defined.

(** The destructor of a client that was never told to connect. *)
Lemma destructor_before_connect :
  s_client_handle_cmdpipe 1 (fresh [command (the_call Destructor)]) = Fault AssertFailed.
Proof.
  exact (command_unconnected (H0 := queue_laws) 0 Destructor (fresh [command (the_call Destructor)]) [] (fresh_ok _)
    (conj eq_refl eq_refl) eq_refl eq_refl (fun f => f)).
Qed.
