(* ===== verification/WapApiFacts.v ===== *)
(** What a call of the wallet's API returns when the client's actor has
    answered: the status, and the values of the reply in the object. *)

From stdpp Require Import gmap.
From Stdlib Require Import String.
From S2P Require Import Prelude Limbs Bytes Words Memory Czmq WapProto WapGrammar WapSend WapRecv WapAccess WapCodec WapPipe WapClient WapClientApi WapClientFacts WapClientCalls.

Section ApiFacts.
Context `{CzmqLaws} {Po : CzmqPoll} {Pi : CzmqPipe} {PiL : CzmqPipeLaws} {Lo : CzmqLoop} {LoL : CzmqLoopLaws}.

(** The values of an answer that the object then has, after the status. *)
Definition returned (m : method) (self : wap_client_t) : list value :=
  match m with
  | Blocks _ _ => [Num (wap_client_start_height self); Num (wap_client_curr_height self); content (IMsg (wap_client_block_data self))]
  | Get _ => [Octets (chunk_octets (wap_client_tx_data self))]
  | OutputIndexes _ => [Octets (frame_octets (wap_client_o_indexes self))]
  | RandomOuts _ _ => [Octets (frame_octets (wap_client_random_outputs self))]
  | GetInfo => [Num (wap_client_height self); Num (wap_client_target_height self); Num (wap_client_difficulty self);
      Num (wap_client_tx_count self); Num (wap_client_tx_pool_size self); Num (wap_client_alt_blocks_count self);
      Num (wap_client_outgoing_connections_count self); Num (wap_client_incoming_connections_count self);
      Num (wap_client_white_peerlist_size self); Num (wap_client_grey_peerlist_size self)]
  | GetPeerList => [Octets (frame_octets (wap_client_white_list self)); Octets (frame_octets (wap_client_gray_list self))]
  | GetMiningStatus => [Num (wap_client_active self); Num (wap_client_speed self); Num (wap_client_thread_count self);
      Octets (chunk_octets (wap_client_address self))]
  | GetBlockHash _ => [Octets (chunk_octets (wap_client_hash self))]
  | GetBlockTemplate _ _ => [Num (wap_client_reserved_offset self); Num (wap_client_height self); Num (wap_client_difficulty self);
      Octets (chunk_octets (wap_client_prev_hash self)); Octets (chunk_octets (wap_client_block_template_blob self))]
  | _ => []
  end.

(** The calls whose answer is read the way it is given: not GET HEIGHT and
    STOP, whose status is given as an int and read as 8 octets. *)
Definition well_pictured (m : method) : Prop := match m with GetHeight | Stop => False | _ => True end.

(** The status a call returns: an int, or the low half of 8 octets, whose high
    half goes over the pointer to the reason. *)
Definition int_status (m : method) : bool := match m with Connect _ _ _ | Destructor | Get _ => true | _ => false end.
Definition status_kept (m : method) (st : Z) : Z := if int_status m then st else swrap 32 st.
Definition reason_kept (m : method) (st : Z) (p : char_ptr) : char_ptr :=
  if int_status m then p else overwritten (st / 2 ^ 32) p.

Lemma get_reply_ok its store self : its <> [] -> pipe_now (actor self) = its ->
  exists p, read_up (actor self) p /\ get_reply (map kind_of its) store self =
    match store (with_actor p self) its with Some self => Ret self | None => Fault OutOfBounds end.
Proof.
  intros Hn Hi. destruct (zsock_recv_ok (actor self) its [] Hn (eq_trans Hi (eq_sym (app_nil_r _)))) as (p & E & Hp).
  exists p. split; [exact Hp|]. unfold get_reply. by rewrite E.
Qed.

(** The elements of a message, from their kinds. *)
Ltac elements its := repeat match goal with
  | E : map kind_of its = _ :: _ |- _ => destruct its as [|?x its]; [discriminate E|]; cbn [map] in E; injection E as ?Ek E
  | E : map kind_of its = [] |- _ => destruct its; [clear E|discriminate E]
  end;
  repeat match goal with E : kind_of ?x = _ |- _ => destruct x; try discriminate E; clear E end.

Lemma accept_ok m self its st vs : well_pictured m -> pipe_now (actor self) = its -> map kind_of its = picture m ->
  map content its = Num st :: vs ->
  yields (accept (chars (answer_name m)) self) (fun self' => wap_client_status self' = status_kept m st /\
    returned m self' = vs /\ wap_client_reason self' = reason_kept m st (wap_client_reason self) /\
    read_up (actor self) (actor self')).
Proof.
  intros Hm Hi Hk Hc. assert (its <> []) as Hne by (intros ->; discriminate Hc).
  unfold accept. destruct m; try done; compare; cbn [picture answer_name] in *; rewrite <- Hk; cbv zeta;
    (match goal with |- yields (get_reply _ ?store ?s) _ =>
       destruct (get_reply_ok its store s Hne Hi) as (p & Hp & ->) end);
    clear Hne Hi; elements its; cbn [map content] in Hc; injection Hc as; subst; apply yields_ret;
    (split; [reflexivity|]; split; [reflexivity|]; split; [reflexivity|exact Hp]).
Qed.

(** A message on the actor's pipe that the call does not wait for. *)
Definition stray (m : method) (its : list item) : Prop :=
  exists name rest, its = IStr name :: rest /\ existsb (streq name) (filters (the_call m)) = false.

(** They are dropped. *)
Lemma strays_dropped fuel m self strays q : Forall (stray m) strays ->
  pipe_now (actor self) = [] -> pipe_in (actor self) = strays ++ q ->
  exists p, pipe_now p = [] /\ pipe_in p = q /\ pipe_out p = pipe_out (actor self) /\
    s_accept_reply (S (length strays + fuel)) (filters (the_call m)) self =
    s_accept_reply (S fuel) (filters (the_call m)) (with_actor p self).
Proof.
  intros Hst. revert self. induction Hst as [|x strays (name & rest & -> & Hx) _ IH]; intros self Hn Hi.
  - exists (actor self). split; [done|]. split; [done|]. split; [done|]. by destruct self.
  - destruct (zstr_recv_ok _ _ _ _ Hn Hi) as (p & E & N1 & I1 & O1). cbn [length Nat.add].
    revert IH. generalize (S (length strays + fuel)). intros n IH. cbn [s_accept_reply]. rewrite E. cbv zeta. rewrite Hx.
    cbn [bind]. destruct (zsock_flush_ok (actor (with_actor p self))) as (N3 & I3 & O3).
    destruct (IH (with_actor (zsock_flush (actor (with_actor p self))) (with_actor p self)) N3 (eq_trans I3 I1))
      as (p' & N4 & I4 & O4 & E4).
    exists p'. split; [done|]. split; [done|]. split; [exact (eq_trans O4 (eq_trans O3 O1))|exact E4].
Qed.

(** The answer the call waits for. *)
Lemma accept_reply_ok fuel m self its st vs q : well_pictured m ->
  pipe_now (actor self) = [] -> pipe_in (actor self) = its :: q -> map kind_of its = KStr :: picture m ->
  map content its = Octets (chars (answer_name m)) :: Num st :: vs ->
  yields (s_accept_reply (S fuel) (filters (the_call m)) self) (fun '(rc, self') => rc = 0 /\
    wap_client_status self' = status_kept m st /\ returned m self' = vs /\
    wap_client_reason self' = reason_kept m st (wap_client_reason self) /\
    pipe_now (actor self') = [] /\ pipe_in (actor self') = q).
Proof.
  intros Hm Hn Hi Hk Hc. destruct its as [|x its]; [discriminate Hk|]. cbn [map] in Hk, Hc. injection Hk as Hx Hk.
  destruct x; try discriminate Hx. injection Hc as -> Hc. destruct (zstr_recv_ok _ _ _ _ Hn Hi) as (p & E & N1 & I1 & O1).
  cbn [s_accept_reply]. rewrite E.
  assert (existsb (streq (chars (answer_name m))) (filters (the_call m)) = true) as -> by (by destruct m).
  eapply yields_bind; [exact (accept_ok m (with_actor p self) its st vs Hm N1 Hk Hc)|].
  intros self1 (Hs & Hr & Hrs & N2 & I2 & O2). apply yields_ret. destruct (zsock_flush_ok (actor self1)) as (N3 & I3 & O3).
  split; [done|]. split; [exact Hs|]. split; [rewrite <- Hr; by destruct m|]. split; [exact Hrs|].
  cbn [actor with_actor] in *. split; [done|]. by rewrite I3, I2.
Qed.

(** A FAILURE, which every call waits for too.  The old reason is freed first. *)
Definition failure (st : Z) (r : list Z) : list item := [IStr (chars "FAILURE"); IInt st; IStr r].

Lemma accept_failure self st r : pipe_now (actor self) = [IInt st; IStr r] ->
  match wap_client_reason self with
  | Wild => accept (chars "FAILURE") self = Fault OutOfBounds
  | _ => yields (accept (chars "FAILURE") self) (fun self' => wap_client_status self' = st /\
      wap_client_reason self' = Chars r /\ read_up (actor self) (actor self'))
  end.
Proof.
  intros Hi. unfold accept, wap_client_reason. compare.
  destruct (r_reason self); cbn [zstr_free bind]; [..|reflexivity];
    (match goal with |- yields (get_reply _ ?store ?s) _ =>
       destruct (get_reply_ok [IInt st; IStr r] store s ltac:(done) Hi) as (p & Hp & E) end);
    cbn [map kind_of] in E; rewrite E; apply yields_ret; (split; [reflexivity|]; split; [reflexivity|exact Hp]).
Qed.

Lemma accept_failure_ok fuel m self st r q :
  pipe_now (actor self) = [] -> pipe_in (actor self) = failure st r :: q ->
  match wap_client_reason self with
  | Wild => s_accept_reply (S fuel) (filters (the_call m)) self = Fault OutOfBounds
  | _ => yields (s_accept_reply (S fuel) (filters (the_call m)) self) (fun '(rc, self') => rc = 0 /\
      wap_client_status self' = st /\ wap_client_reason self' = Chars r /\
      pipe_now (actor self') = [] /\ pipe_in (actor self') = q)
  end.
Proof.
  intros Hn Hi. destruct (zstr_recv_ok _ _ _ _ Hn Hi) as (p & E & N1 & I1 & O1). cbn [s_accept_reply]. rewrite E.
  assert (existsb (streq (chars "FAILURE")) (filters (the_call m)) = true) as -> by (by destruct m). cbv zeta.
  pose proof (accept_failure (with_actor p self) st r N1) as Ha. unfold wap_client_reason in Ha |- *.
  cbn [r_reason with_actor] in Ha. destruct (r_reason self); [..|by rewrite Ha];
    (eapply yields_bind; [exact Ha|]; intros s1 (Hs & Hr & N2 & I2 & O2); apply yields_ret;
     destruct (zsock_flush_ok (actor s1)) as (N3 & I3 & O3);
     split; [done|]; split; [exact Hs|]; split; [exact Hr|]; split; [exact N3|]; exact (eq_trans I3 (eq_trans I2 I1))).
Qed.

(** C28: what a call returns, for every call but GET HEIGHT and STOP (whose status is
    given as an int and read as 8 octets: nothing is said of that).  When an answer
    to it waits on the pipe, after answers to other calls that were left there,
    which are dropped, the call returns the status of the answer, as an int, and
    the object has the values of the answer for the calling thread.  CONNECT, the
    destructor and GET are given an int; for the others a status that does not
    fit an int loses its high half, which goes over the pointer to the reason.
    When a FAILURE waits, whichever the call (these two included), the call
    returns its status and the object has its reason; but a reason that was
    overwritten before is freed as if it were a string. *)
Theorem wap_api_answer fuel m self strays q : Forall (stray m) strays -> pipe_now (actor self) = [] ->
  (forall its st vs, well_pictured m -> pipe_in (actor self) = strays ++ its :: q -> map kind_of its = KStr :: picture m ->
    map content its = Octets (chars (answer_name m)) :: Num st :: vs ->
    yields (call_wait (S (length strays + fuel)) (the_call m) self) (fun '(rc, self') => rc = status_kept m st /\
      wap_client_status self' = rc /\ returned m self' = vs /\
      wap_client_reason self' = reason_kept m st (wap_client_reason self) /\
      pipe_now (actor self') = [] /\ pipe_in (actor self') = q)) /\
  (forall st r, pipe_in (actor self) = strays ++ failure st r :: q ->
    match wap_client_reason self with
    | Wild => call_wait (S (length strays + fuel)) (the_call m) self = Fault OutOfBounds
    | _ => yields (call_wait (S (length strays + fuel)) (the_call m) self) (fun '(rc, self') => rc = st /\
        wap_client_status self' = rc /\ wap_client_reason self' = Chars r /\
        pipe_now (actor self') = [] /\ pipe_in (actor self') = q)
    end).
Proof.
  intros Hst Hn. unfold call_wait. split.
  - intros its st vs Hm Hi Hk Hc. destruct (strays_dropped fuel m self strays _ Hst Hn Hi) as (p & N & I & _ & ->).
    eapply yields_bind; [exact (accept_reply_ok fuel m (with_actor p self) its st vs q Hm N I Hk Hc)|].
    intros [rc self'] (-> & Hs & ?). apply yields_ret. cbn [Z.eqb]. split; [exact Hs|]. done.
  - intros st r Hi. destruct (strays_dropped fuel m self strays _ Hst Hn Hi) as (p & N & I & _ & ->).
    pose proof (accept_failure_ok fuel m (with_actor p self) st r q N I) as Hf.
    unfold wap_client_reason in *. cbn [r_reason with_actor] in Hf.
    destruct (r_reason self); [| |by rewrite Hf];
      (eapply yields_bind; [exact Hf|]; intros [rc self'] (-> & Hs & ?); apply yields_ret; cbn [Z.eqb]; split; [exact Hs|]; done).
Qed.

End ApiFacts.

Import Queue PipeQueue.

(** An answer that was left, and one with a status of more than 32 bits. *)
Definition left_answer : list (@item queue_czmq) := [IStr (chars "PUT OK"); I8 5].
Definition hash_answer : list (@item queue_czmq) :=
  [IStr (chars "GET BLOCK HASH OK"); I8 (2 ^ 32 + 7); IChunk (Some ([1; 2] : @zchunk queue_czmq))].
Definition caller : wap_client_t := wap_client_new (QPipe [] [left_answer; hash_answer] []).

Lemma left_stray : Forall (stray (GetBlockHash 3)) [left_answer].
Proof. apply List.Forall_cons; [|apply List.Forall_nil]. exists (chars "PUT OK"), [I8 5]. split; reflexivity. Qed.

Lemma wap_api_answer_witness :
  exists self', call_wait 2 (the_call (GetBlockHash 3)) caller = Ret (7, self') /\
    returned (GetBlockHash 3) self' = [Octets [1; 2]] /\ wap_client_reason self' = Wild.
Proof.
  destruct (proj1 (wap_api_answer (H0 := queue_laws) (PiL := queue_pipe_laws) 0 (GetBlockHash 3) caller [left_answer] [] left_stray eq_refl)
    hash_answer (2 ^ 32 + 7) [Octets [1; 2]] Logic.I eq_refl eq_refl eq_refl) as ([rc self'] & E & Hrc & _ & Hr & Hp & _).
  exists self'. rewrite Hrc in E. split; [exact E|]. split; [exact Hr|exact Hp].
Defined.
