(* ===== verification/WapSession.v ===== *)
(** The wallet protocol from end to end: a call of the wallet's API, the
    client that makes a request of it, the server that has the daemon serve it,
    the client that makes an answer of the reply, and the call that returns
    it. *)

From stdpp Require Import gmap.
From Stdlib Require Import String.
From S2P Require Import Prelude Limbs Bytes Words Memory Czmq WapProto WapGrammar WapSend WapRecv WapAccess WapCodec WapServer WapServerFacts WapService WapPipe WapClient WapClientApi WapClientFacts WapClientCalls WapClientService.

Section Session.
Context `{CzmqLaws} {M : CzmqMemory} {Po : CzmqPoll} {Sv : CzmqServer} {SvL : CzmqServerLaws} {D : Daemon} {DL : DaemonLaws}
  {Pi : CzmqPipe} {PiL : CzmqPipeLaws} {Lo : CzmqLoop} {LoL : CzmqLoopLaws}.

(** ** The network *)

(** The server and the client with other messages on their sockets. *)
Definition with_router (r : zsock) (s : s_server_t) : s_server_t :=
  SServer r (WapServer.message s) (clients s) (client_id s) (WapServer.timeout s) (the_core s).

Lemma server_ok_router r s : zsock_type r = ZMQ_ROUTER -> server_ok s -> server_ok (with_router r s).
Proof. intros Hr []. by split. Qed.

Lemma carried_fst p fs : map fst (carried p fs) = fs.
Proof. unfold carried. rewrite map_map. apply map_id. Qed.

(** The fields of a reply have no strings to cut: what was carried is held. *)
Lemma reply_held m p q f : is_request m -> holds q (carried p (fields (request_id m + 1))) -> f ∈ fields (request_id m + 1) ->
  field_value q f = field_value p f.
Proof.
  intros Hm Hh Hf%list_elem_of_In. assert (forall v, stored f v = v) as Hs.
  { clear Hh. intros v. destruct m; try done; cbn in Hf; repeat (destruct Hf as [<-|Hf]; [by destruct v|]); done. }
  unfold holds, carried in Hh. rewrite List.Forall_map, List.Forall_forall in Hh.
  specialize (Hh f Hf). cbn [fst snd] in Hh. by rewrite Hh, Hs.
Qed.

(** An answer is made of the fields of the reply. *)
Lemma answer_ext m v w : is_request m -> (forall f, f ∈ fields (request_id m + 1) -> v f = w f) -> answer m v = answer m w.
Proof.
  intros Hm Hv. assert (map v (fields (request_id m + 1)) = map w (fields (request_id m + 1))) as E.
  { apply map_ext_in. intros f Hf. by apply Hv, list_elem_of_In. }
  unfold answer. destruct m; rewrite ?E; try done. by rewrite (Hv (FNumber8 height)) by (cbn; set_solver).
Qed.

(** Any call that is a request, from the command to the answer, with the fields
    [asks] says and the values [answer] says.  The count of a RANDOM OUTS is not
    the caller's, the status of a GET HEIGHT not the daemon's, a GET is answered
    without asking the daemon, and GET and STOP report a status the server did
    not send. *)
Lemma session_call junk fuel m c q s cl r d :
  length junk = 256%nat -> uninterrupted -> is_request m -> is_connected c ->
  pipe_now (cmdpipe c) = [] -> pipe_in (cmdpipe c) = command (the_call m) :: q -> all_valid (asks m (message c)) ->
  readable (request_id m) (asks m (message c)) || negb (check_core_busy (the_core s)) = true ->
  server_ok s -> clients s !! zframe_strhex r = Some cl -> WapServer.state cl = WapServer.connected_state ->
  serves (request_id m) = Some d ->
  yields (s_client_handle_cmdpipe (S fuel) c) (fun '(rc, c1) => rc = 0 /\
    outbox (dealer c1) = outbox (dealer c) ++ message_frames (request_id m) (asks m (message c)) /\
    forall ro rest, zsock_type ro = ZMQ_ROUTER ->
      delivered ro (zframe_data r) (message_frames (request_id m) (asks m (message c))) rest ->
    yields (handle_message junk (S fuel) (with_router ro s)) (fun '(rc, s1) => rc = None /\
      exists req ans, id req = request_id m /\ holds req (asks m (message c)) /\
      served d req (the_core s) = Ret (ans, the_core s1) /\
      let values := carried ans (fields (request_id m + 1)) in
      outbox (router s1) = outbox ro ++ (zframe_data r, true) :: message_frames (request_id m + 1) values /\
      forall de rest', all_valid values -> zsock_type de = ZMQ_DEALER ->
        delivered de [] (message_frames (request_id m + 1) values) rest' ->
      yields (handle_reply junk (S fuel) (with_dealer de c1)) (fun '(rc, c2) => rc = None /\ is_connected c2 /\
        exists its, pipe_out (cmdpipe c2) = pipe_out (cmdpipe c) ++ [its] /\
          map content its = answer m (field_value ans) /\ map kind_of its = KStr :: picture m))).
Proof.
  intros Hj U Hm Hc Hn Hi Hv Hre Hs Hcl Hst Hd.
  eapply yields_mono; [by apply (call_sends fuel m c q)|].
  intros [rc c1] (-> & Ok1 & St1 & F1 & _ & _ & Hp1 & Ho1). split; [done|]. split; [exact Ho1|].
  intros ro rest Hro Hdel. unfold message_frames in Hdel. rewrite <- (app_nil_r (data_frame _ _)) in Hdel.
  assert (layout (request_id m) = Some (map fst (asks m (message c)))) as L by (by destruct m).
  pose proof (request_served junk fuel (with_router ro s) cl r _ d _ _ [] rest Hj (server_ok_router ro s Hro Hs)
    Hcl Hst Hd L eq_refl Hv Hdel) as Hreq. cbn [the_core with_router] in Hreq. rewrite Hre in Hreq.
  eapply yields_mono; [exact Hreq|].
  intros [rc s1] (-> & req & ans & c' & Wr & Hid & Hh & Hk & Ho & _). split; [done|].
  exists req, ans. split; [done|]. split; [done|]. split; [done|].
  cbv zeta. split; [exact Ho|]. intros de rest' Hfit Hde Hdel'.
  eapply yields_mono; [apply (call_answered junk fuel m (with_dealer de c1) (carried _ (fields (request_id m + 1))) rest' Hj U Hm
    (client_ok_dealer de c1 Hde Ok1) St1 F1 (carried_fst _ _) Hfit)|].
  { unfold delivered in Hdel'. rewrite Hde in Hdel'. exact Hdel'. }
  intros [rc c2] (-> & Hc2 & _ & _ & its & p & Hp & Hh' & Hc' & Hk'). split; [done|]. split; [done|]. exists its.
  split; [rewrite Hp; cbn [cmdpipe with_dealer]; destruct (zsock_send_ok its (cmdpipe c1)) as [-> _]; by rewrite Hp1|]. split; [|done].
  rewrite Hc'. apply answer_ext; [done|]. intros f Hf. by apply (reply_held m).
Qed.

(** *** The calls that are passed on as they are

    All requests but RANDOM OUTS, GET HEIGHT, GET and STOP. *)
Definition passed_on (m : method) : Prop :=
  match m with
  | Connect _ _ _ | Destructor | RandomOuts _ _ | GetHeight | Get _ | Stop => False
  | _ => True
  end.

(** The arguments of such a call, as the fields of its request. *)
Definition arguments (m : method) : list (field * value) :=
  match m with
  | Blocks l h => [(FStrings, Items (list_strings l)); (FNumber8 start_height, Num h)]
  | Put k => [(FChunk tx_as_hex, Octets (chunk_octets k))]
  | OutputIndexes k => [(FChunk tx_id, Octets (chunk_octets k))]
  | Start k n => [(FChunk address, Octets (chunk_octets k)); (FNumber8 thread_count, Num n)]
  | SetLogHashRate v => [(FNumber1 visible, Num v)]
  | SetLogLevel v => [(FNumber1 level, Num v)]
  | GetBlockHash h => [(FNumber8 height, Num h)]
  | GetBlockTemplate n k => [(FNumber8 reserve_size, Num n); (FChunk address, Octets (chunk_octets k))]
  | _ => []
  end.

Lemma asks_arguments m p : passed_on m -> asks m p = arguments m.
Proof. by destruct m. Qed.

Lemma answer_fields m v : passed_on m -> answer m v = Octets (chars (answer_name m)) :: map v (fields (request_id m + 1)).
Proof. by destruct m. Qed.

Lemma passed_on_served m : passed_on m -> is_request m /\ exists d, serves (request_id m) = Some (Some d).
Proof. intros Hm. destruct m; try done; (split; [done|]); by eexists. Qed.

(** C4: a call from the command to the answer, for every call that is a request
    but RANDOM OUTS, GET HEIGHT, GET and STOP.  The calling thread's command is on
    the pipe of a connected client; the server knows the client as connected;
    the arguments fit the protocol, each hash among them with its 32 octets.
    Then the client sends one request, the call's arguments, to the server; when
    the network has brought it to the server's router, the server calls the
    daemon's handler for it on a message that holds these arguments (strings up
    to their first NUL) and sends one reply to that client, with the fields the
    handler left; when the network has brought it to the client's dealer, the
    client tells the calling thread the name of the answer and the values of all
    those fields, and is connected as before.  (The four calls left out deviate:
    RANDOM OUTS sends a count that is not the caller's, GET HEIGHT reports status 0
    whatever the daemon's, GET is answered without asking the daemon and STOP
    without its status.) *)
Theorem wap_session_call junk fuel m c q s cl r :
  length junk = 256%nat -> uninterrupted -> passed_on m -> is_connected c ->
  pipe_now (cmdpipe c) = [] -> pipe_in (cmdpipe c) = command (the_call m) :: q -> all_valid (arguments m) ->
  readable (request_id m) (arguments m) = true ->
  WapService.reachable s -> clients s !! zframe_strhex r = Some cl -> WapServer.state cl = WapServer.connected_state ->
  yields (s_client_handle_cmdpipe (S fuel) c) (fun '(rc, c1) => rc = 0 /\
    outbox (dealer c1) = outbox (dealer c) ++ message_frames (request_id m) (arguments m) /\
    forall ro rest, zsock_type ro = ZMQ_ROUTER ->
      delivered ro (zframe_data r) (message_frames (request_id m) (arguments m)) rest ->
    yields (handle_message junk (S fuel) (with_router ro s)) (fun '(rc, s1) => rc = None /\
      exists d req ans, serves (request_id m) = Some (Some d) /\ id req = request_id m /\ holds req (arguments m) /\
      call_daemon d req (the_core s) = Ret (ans, the_core s1) /\
      let values := carried ans (fields (request_id m + 1)) in
      outbox (router s1) = outbox ro ++ (zframe_data r, true) :: message_frames (request_id m + 1) values /\
      forall de rest', all_valid values -> zsock_type de = ZMQ_DEALER ->
        delivered de [] (message_frames (request_id m + 1) values) rest' ->
      yields (handle_reply junk (S fuel) (with_dealer de c1)) (fun '(rc, c2) => rc = None /\ is_connected c2 /\
        exists its, pipe_out (cmdpipe c2) = pipe_out (cmdpipe c) ++ [its] /\
          map content its = Octets (chars (answer_name m)) :: map (field_value ans) (fields (request_id m + 1)) /\
          map kind_of its = KStr :: picture m))).
Proof.
  intros Hj U Hm Hc Hn Hi Hv Hre Hs%WapService.reachable_ok Hcl Hst.
  destruct (passed_on_served m Hm) as (Hq & d & Hd).
  assert (readable (request_id m) (asks m (message c)) || negb (check_core_busy (the_core s)) = true) as Hre'
    by (by rewrite asks_arguments, Hre).
  rewrite <- (asks_arguments m (message c) Hm) in Hv |- *.
  eapply yields_mono; [exact (session_call junk fuel m c q s cl r (Some d) Hj U Hq Hc Hn Hi Hv Hre' Hs Hcl Hst Hd)|].
  intros [rc c1] (-> & Ho & K1). split; [done|]. split; [done|]. intros ro rest Hro Hdel.
  eapply yields_mono; [exact (K1 ro rest Hro Hdel)|].
  intros [rc s1] (-> & req & ans & Hid & Hh & Hk & Ho1 & K2). split; [done|]. exists d, req, ans.
  split; [done|]. split; [done|]. split; [done|]. split; [done|]. split; [done|].
  rewrite <- (answer_fields m (field_value ans) Hm). exact K2.
Qed.

(** C9: the handshake.  A client that was just created and is told to CONNECT to an
    endpoint its socket accepts sends OPEN with the identity it was given (its
    first 255 octets); the server, unless it has that client for connected
    already, connects it and replies OPEN_OK; and the client is connected, sends
    its heartbeats every second from then on and tells the calling thread
    SUCCESS, which makes the call return 0. *)
Theorem wap_session_open junk fuel e t i c q s r :
  length junk = 256%nat -> uninterrupted -> client_ok c -> state c = start_state -> fsm_stopped c = false ->
  fst (zsock_connect e (dealer c)) = false ->
  pipe_now (cmdpipe c) = [] -> pipe_in (cmdpipe c) = command (the_call (Connect e t i)) :: q ->
  WapService.reachable s ->
  (forall cl, clients s !! zframe_strhex r = Some cl -> WapServer.state cl <> WapServer.connected_state) ->
  yields (s_client_handle_cmdpipe (S fuel) c) (fun '(rc, c1) => rc = 0 /\
    outbox (dealer c1) = outbox (dealer c) ++ message_frames WAP_PROTO_OPEN (open_fields i) /\
    forall ro rest, zsock_type ro = ZMQ_ROUTER ->
      delivered ro (zframe_data r) (message_frames WAP_PROTO_OPEN (open_fields i)) rest ->
    yields (handle_message junk (S fuel) (with_router ro s)) (fun '(rc, s1) => rc = None /\
      (exists cl, clients s1 !! zframe_strhex r = Some cl /\ WapServer.state cl = WapServer.connected_state) /\
      outbox (router s1) = outbox ro ++ (zframe_data r, true) :: message_frames WAP_PROTO_OPEN_OK [] /\
      forall de rest', zsock_type de = ZMQ_DEALER -> delivered de [] (message_frames WAP_PROTO_OPEN_OK []) rest' ->
      yields (handle_reply junk (S fuel) (with_dealer de c1)) (fun '(rc, c2) => rc = None /\ is_connected c2 /\
        connected c2 = true /\ timeout c2 = 1000 /\ retries c2 = 0 /\
        pipe_out (cmdpipe c2) = pipe_out (cmdpipe c) ++ [[IStr (chars "SUCCESS"); IInt 0]]))).
Proof.
  intros Hj U Ok St F Hz Hn Hi Hs%WapService.reachable_ok Hcl.
  eapply yields_mono; [by apply (connect_sends fuel e t i c q)|].
  intros [rc c1] (-> & Ok1 & St1 & F1 & Hp1 & Ho1). split; [done|]. split; [done|].
  intros ro rest Hro Hdel. unfold message_frames in Hdel. rewrite <- (app_nil_r (data_frame _ _)) in Hdel.
  eapply yields_mono; [exact (open_served junk fuel (with_router ro s) r (open_fields i) [] rest Hj (server_ok_router ro s Hro Hs)
    Hcl eq_refl (open_fields_valid i) Hdel)|].
  intros [rc s1] (-> & p & cl & Ho & _ & Hc' & Hst'). split; [done|]. split; [by exists cl|]. split; [exact Ho|].
  intros de rest' Hde Hdel'. unfold delivered in Hdel'. rewrite Hde in Hdel'.
  eapply yields_mono; [exact (connect_answered junk fuel (with_dealer de c1) rest' Hj U (client_ok_dealer de c1 Hde Ok1) St1 F1 Hdel')|].
  intros [rc c2] (-> & Hc2 & Cn & R2 & T2 & P2). split; [done|]. split; [done|]. split; [done|]. split; [done|]. split; [done|].
  rewrite P2. cbn [cmdpipe with_dealer]. destruct (zsock_send_ok [IStr (chars "SUCCESS"); IInt 0] (cmdpipe c1)) as [-> _]. by rewrite Hp1.
Qed.

End Session.

(** ** A session on the queue implementation *)
Import Queue PipeQueue WapService.Demo ClientDemo.

Lemma wap_session_open_witness :
  exists c1 s1 c2, s_client_handle_cmdpipe 1 (ClientDemo.fresh [command (the_call connect)]) = Ret (0, c1) /\
    handle_message junk 1 (with_router (router_with ((wallet, true) :: message_frames WAP_PROTO_OPEN (WapClientCalls.open_fields [66]))) (Demo.fresh []))
      = Ret (None, s1) /\
    handle_reply junk 1 (with_dealer (dealer_with (message_frames WAP_PROTO_OPEN_OK [])) c1) = Ret (None, c2) /\
    is_connected c2 /\ pipe_out (cmdpipe c2) = [[IStr (chars "SUCCESS"); IInt 0]].
Proof.
  destruct (wap_session_open (H0 := queue_laws) (M := queue_memory) (PiL := queue_pipe_laws) (LoL := queue_loop_laws) junk 0 (chars "tcp://daemon:5555") 200 [66] (ClientDemo.fresh [command (the_call connect)])
    [] (Demo.fresh []) wallet eq_refl queue_uninterrupted (fresh_ok _) eq_refl eq_refl eq_refl eq_refl eq_refl (reachable_fresh _)
    ltac:(intros cl Hcl; vm_compute in Hcl; discriminate Hcl)) as ([rc c1] & E1 & -> & _ & K1).
  destruct (K1 (router_with ((wallet, true) :: message_frames WAP_PROTO_OPEN (WapClientCalls.open_fields [66]))) [] eq_refl ltac:(vm_compute; reflexivity))
    as ([rc s1] & E2 & -> & _ & _ & K2).
  destruct (K2 (dealer_with (message_frames WAP_PROTO_OPEN_OK [])) [] eq_refl ltac:(vm_compute; reflexivity))
    as ([rc c2] & E3 & -> & Hc & _ & _ & _ & Hp).
  exists c1, s1, c2. split; [exact E1|]. split; [exact E2|]. split; [exact E3|]. split; [exact Hc|exact Hp].
Defined.

Lemma hash_served req k :
  call_daemon Daemon_get_block_hash req k = Ret (with_chunk hash (Some [1; 2]) (wap_proto_set_status req 7), k).
Proof. reflexivity. Qed.

Lemma core_with_inbox q s : the_core (with_inbox q s) = the_core s.
Proof. reflexivity. Qed.

(** A wallet asks for the hash of block 5. *)
Lemma wap_session_call_witness :
  exists c1 s1 c2 its, s_client_handle_cmdpipe 1 (told [command (the_call (GetBlockHash 5))] wallet_client) = Ret (0, c1) /\
    handle_message junk 1 (with_router (router_with ((wallet, true) :: message_frames WAP_PROTO_GET_BLOCK_HASH [(FNumber8 height, Num 5)]))
      (with_inbox [] opened)) = Ret (None, s1) /\
    handle_reply junk 1 (with_dealer (dealer_with (message_frames WAP_PROTO_GET_BLOCK_HASH_OK
      [(FNumber8 status, Num 7); (FChunk hash, Octets [1; 2])])) c1) = Ret (None, c2) /\
    pipe_out (cmdpipe c2) = [its] /\ map content its = [Octets (chars "GET BLOCK HASH OK"); Num 7; Octets [1; 2]].
Proof.
  destruct opened_connected as (Hk & cl & Ec & Hst).
  destruct (wap_session_call (H0 := queue_laws) (M := queue_memory) (PiL := queue_pipe_laws) (LoL := queue_loop_laws) junk 0 (GetBlockHash 5)
    (told [command (the_call (GetBlockHash 5))] wallet_client) [] (with_inbox [] opened) cl wallet
    eq_refl queue_uninterrupted Logic.I (told_connected _ _ wallet_connected) eq_refl eq_refl
    ltac:(apply List.Forall_cons; [cbn; lia|apply List.Forall_nil]) eq_refl
    (reachable_opened _) Ec Hst) as ([rc c1] & E1 & -> & _ & K1).
  destruct (K1 (router_with ((wallet, true) :: message_frames WAP_PROTO_GET_BLOCK_HASH [(FNumber8 height, Num 5)])) [] eq_refl
    ltac:(vm_compute; reflexivity)) as ([rc s1] & E2 & -> & d & req & ans & Hd & _ & Hh & Ha & _ & K2).
  assert (d = Daemon_get_block_hash) as -> by (cbn in Hd; congruence).
  rewrite hash_served, core_with_inbox, Hk in Ha.
  assert (ans = with_chunk hash (Some [1; 2]) (wap_proto_set_status req 7)) as -> by congruence. clear Ha.
  assert (carried (with_chunk hash (Some [1; 2]) (wap_proto_set_status req 7)) (fields (request_id (GetBlockHash 5) + 1))
    = [(FNumber8 status, Num 7); (FChunk hash, Octets [1; 2])]) as Hv by reflexivity.
  rewrite Hv in K2.
  destruct (K2 (dealer_with (message_frames WAP_PROTO_GET_BLOCK_HASH_OK [(FNumber8 status, Num 7); (FChunk hash, Octets [1; 2])])) []
    ltac:(repeat (apply List.Forall_cons; [cbn; lia|]); apply List.Forall_nil) eq_refl ltac:(vm_compute; reflexivity))
    as ([rc c2] & E3 & -> & _ & its & Hp & Hc & _).
  exists c1, s1, c2, its. split; [exact E1|]. split; [exact E2|]. split; [exact E3|]. split; [exact Hp|]. rewrite Hc.
  reflexivity.
Defined.
